(* ===== verification/_CoqProject ===== *)
-Q . S2P
Prelude.v
Errors.v
Net.v
IpText.v
Eap.v
EapTls.v
Security.v
Pmksa.v
IkeCodec.v
TrafficSelector.v
Identity.v
IpsecConfig.v
IkeProposals.v
IkeCrypto.v
IkeSa.v
IkeWorld.v
IkeTransport.v
IkeAuth.v
IkeEngine.v
IpsecClient.v
IkeEngineFacts.v
IkeAuthSafety.v
IkeDemo.v
WifiKdf.v
FourWay.v
Sae.v
Owe.v
WifiConfig.v
ClientState.v
Scan.v
WifiIface.v
WifiAuth.v
Roam.v
WifiEvents.v
ClientLoop.v
WifiClient.v
Mka.v
Macsec.v
MkaSession.v
Wired.v
DaemonConfig.v
Xfrm.v
DaemonNet.v
DaemonMain.v
DaemonDemo.v
DaemonIpsec.v
WifiInvariant.v
WifiSafety.v
FtSafety.v
AttemptEnds.v
WifiDemo.v
IpsecDemo.v
