(* ===== verification/Prelude.v ===== *)
(** * Shuli: a verification library for the shuli workspace

    Shuli is a network access daemon in Rust: WiFi (WPA2/WPA3, OWE, FT), wired
    802.1X with MACsec, and IPsec with IKEv2.  The workspace has five crates:
    [src/src/core] (errors, EAP, EAP-TLS), [src/src/wifi], [src/src/wired],
    [src/src/ipsec] and [src/src/daemon].  The library models the parts that
    decide what is accepted, which keys are used and what goes on the wire, as
    executable functions, and proves what makes them correct.

    ** How the code is modelled

    - A [Result] is an [outcome]: [Ok], [Err], and besides them [Panic] (an
      out-of-range index, an [unwrap] of [None], a checked overflow) and
      [Diverge] (a loop out of fuel).  [returns] says that neither of the last
      two happened, so that totality is a theorem and never an assumption.
    - A method with [&mut self] is a computation in the [st] monad, which keeps
      the assignments made before an error; [wp] is its weakest precondition.
    - Integers are [Z]; casts and wrapping operations are written out ([wrap],
      [as_u8], [as_u16], [as_u32]).  Buffers are lists of octets; indexing and
      slicing ([idx], [slice]) panic out of range.  Adding a duration to an [Instant]
      or a [SystemTime] of the IKE engine panics past the 64-bit seconds of the type.
    - Clocks, random numbers, sockets and kernel calls are arguments.  Code of
      other crates is a type class: an operations class, and a laws class with
      the documented behaviour a theorem relies on.  Every theorem that uses
      laws has a witness with a concrete instance.
    - [while] loops are fixpoints on fuel.  The fuel is the number of octets or
      elements that are left plus one, each turn consumes at least one, and the
      totality theorems show that the fuel never runs out.  A loop over an event
      queue has the length of the queue plus one; the search for a free [if_id]
      the number of used ones plus one.  Where the outside decides how long a
      wait takes (the steps of [WifiIface::run], a socket that would block, a DHCP
      server), the fuel is an argument and [Diverge] reads as "still waiting".
    - An [await] takes the next entry of a queue of wakes.  A task is a function
      or a step relation on the wakes it gets, so that a theorem about all lists
      of wakes is a theorem about all interleavings of timers, frames and calls.

    ** How the parts interact

    The daemon loads a configuration ([DaemonConfig]) and starts a task for WiFi,
    one for IPsec and one per wired port ([DaemonMain]).  The WiFi task drives a
    [WifiClient], which owns the interfaces ([ClientLoop] over [WifiEvents], [Roam],
    [WifiAuth], [Scan], [WifiIface]) and routes kernel events to them; an interface
    uses the PMKSA cache, the handshakes and the key derivation.  The IPsec task
    ([DaemonIpsec]) drives an [IpsecClient], which runs one [IkeEngine] per
    connection, and puts the Child SAs it negotiates into the kernel ([Xfrm]).  A
    wired port is a [Wired] client: an EAP peer, or an [MkaSession] with a [Macsec]
    device.  [DaemonNet] puts addresses, routes and name servers on what came up.

    ** The files

    Shared:
    - [Prelude]: the above, big-endian integers, readers at a cursor, tactics
      and hint databases.  [Errors]: [WifiError] and [IpsecError]
      ([core/error.rs], [ipsec/error.rs]).  [Net], [IpText]: addresses and sockets,
      and their text as the standard library prints and parses it.

    EAP ([core/eap.rs], [core/eapol.rs], [core/eap_tls.rs]):
    - [Eap]: packets, EAPOL framing and the peer.  The parser accepts exactly the
      encodings of well-formed packets; when Success is reported is stated exactly
      (before the first Request the identifier is not compared).
    - [EapTls]: the EAP-TLS method over an abstract TLS connection: fragmentation
      and reassembly are inverse, buffers stay within bounds, the MSK is exported
      once, TLS 1.3 needs the protected success.

    WiFi ([wifi/]):
    - [Security], [Pmksa]: the PMKSA cache refines a finite map with expiry.
    - [WifiKdf], [FourWay]: key derivation, FT keys, channel validation, and the
      4-way and group handshakes: the pairwise key changes only by an
      authenticated Message 3, which is accepted exactly under its conditions.
    - [Sae], [Owe]: SAE and OWE over abstract curves: both ends agree, SAE
      completes exactly on a confirm that verifies.
    - [WifiConfig], [ClientState], [Scan]: networks and hints, decisions of the
      client, scan requests and the choice of a BSS: every hidden network is
      probed unless the kernel refuses a request, which ends the scan; only allowed
      BSSes are joined; a roam is not to a weaker BSS of the network.
    - [WifiIface], [WifiAuth], [Roam], [WifiEvents], [ClientLoop]: one interface,
      with every request to the kernel logged; [WifiClient]: several of them, with
      the dispatcher of events, which reach their interface and no other.
    - [WifiInvariant], [WifiSafety], [FtSafety], [AttemptEnds]: the invariant of
      all reachable states, that "connected" means that the TK of the handshake or of
      the transition was installed, where FT keys come from, and that an attempt nobody answers ends.  [WifiDemo]: a
      concrete client, the witnesses and the behaviours that need a whole run.

    IPsec ([ipsec/]):
    - [IkeCodec]: the message codec is total and a round trip.  [TrafficSelector],
      [Identity], [IpsecConfig]: selectors as packet sets, narrowing, identities
      and their text, validation.  [IkeProposals]: both ends agree on a proposal.
      [IkeCrypto], [IkeSa]: prf+, Diffie-Hellman, keys, the encrypted payload.
    - [IkeWorld], [IkeTransport], [IkeAuth], [IkeEngine]: randomness and sockets,
      retransmission, authentication, and the engine of a connection.
      [IkeEngineFacts]: every turn returns when the configured durations are at most
      2^61 seconds (a huge one panics), retransmission gives up.
      [IkeAuthSafety]: what a connection is established by.  [IkeDemo]: two
      concrete ends, and what they can be made to do.
    - [IpsecClient]: the table of connections and their tasks: an update leaves
      exactly the engines of the new set.
    - [Xfrm]: states, policies and interfaces of a Child SA in the kernel, a class
      with laws: an install that fails leaves nothing, a removal takes what was
      installed (without a mark, with fresh keys, and when the kernel carries out
      deletions), a policy covers its selectors.

    Wired ([wired/]):
    - [Mka], [Macsec], [MkaSession]: MKPDUs, the device as a map from slots to
      keys, and the participant, a client of the device through [SecyOps]: where a
      SAK may come from.
    - [Wired]: the 802.1X client, connected only by a protected success, and the
      client that drives it or a MACsec session.

    Daemon ([daemon/]):
    - [DaemonConfig]: entries, checks, and their conversion, which gives valid
      settings.  [DaemonNet]: addresses, routes, DNS, DHCP, and which entry goes
      to which interface.  [DaemonIpsec]: the IPsec task.  [DaemonMain]: what is
      started, the WiFi task and the wired ports; joined networks are configured
      or a retry is pending (the calls that configure one are kept in a log with
      their results, which the code does not have and nothing reads), and an 802.1X port only once it is authorised.
      [IpsecDemo], [DaemonDemo]: concrete kernels and networks for the witnesses.

    ** What is not modelled

    Netlink encodings, raw sockets and the creation of the MACsec netdev: code of
    other crates or of libc, behind classes.  TLS, elliptic curves, ciphers,
    certificates and YAML are parameters for the same reason.  The order in which
    the runtime polls tasks, signals and the start-up errors of the IPsec task;
    logging, [Debug] output, serde derives and the zeroisation of secrets, which
    change no state that another part reads; tests and examples. *)

From stdpp Require Export base numbers list strings pretty.
From Stdlib Require Export ZArith Lia ZifyBool.

#[global] Open Scope Z_scope.

(** ** Outcomes of a Rust computation

    [Ok] and [Err] are the two constructors of [Result]; [Panic] is an aborted
    thread (an out-of-range index, [unwrap] of [None], an arithmetic overflow
    of a checked operation); [Diverge] is a loop that used up its fuel.  A
    function of the source that returns a bare value or an [Option] is modelled
    without the wrapper whenever it cannot panic. *)

Inductive outcome (E A : Type) : Type :=
| Ok (a : A)
| Err (e : E)
| Panic
| Diverge.
Arguments Ok {E A} a.
Arguments Err {E A} e.
Arguments Panic {E A}.
Arguments Diverge {E A}.

#[global] Instance outcome_ret {E} : MRet (outcome E) := fun _ a => Ok a.
#[global] Instance outcome_bind {E} : MBind (outcome E) :=
  fun _ _ k m =>
    match m with
    | Ok a => k a
    | Err e => Err e
    | Panic => Panic
    | Diverge => Diverge
    end.

(** The computation returned, with a value or with an error. *)
Definition returns {E A} (m : outcome E A) : Prop :=
  match m with Ok _ | Err _ => True | Panic | Diverge => False end.

(** [Option::ok_or]. *)
Definition ok_or {E A} (o : option A) (e : E) : outcome E A :=
  match o with Some a => Ok a | None => Err e end.

(** [Result::map_err]. *)
Definition map_err {E E' A} (f : E -> E') (m : outcome E A) : outcome E' A :=
  match m with
  | Ok a => Ok a
  | Err e => Err (f e)
  | Panic => Panic
  | Diverge => Diverge
  end.

(** [Option::unwrap] / [expect]. *)
Definition unwrap {E A} (o : option A) : outcome E A :=
  match o with Some a => Ok a | None => Panic end.

(** [if cond { return Err(e) }]. *)
Definition guard_err {E} (bad : bool) (e : E) : outcome E unit :=
  if bad then Err e else Ok tt.

(** [Iterator::map(..).collect::<Result<Vec<_>, _>>()]. *)
Fixpoint collect {E A B} (f : A -> outcome E B) (l : list A)
  : outcome E (list B) :=
  match l with
  | [] => Ok []
  | a :: l' => b ← f a; bs ← collect f l'; Ok (b :: bs)
  end.

(** ** Methods that take [&mut self]

    [st S E A] is a method of an object with state [S]: the state it leaves
    behind is part of the result also when it fails, because a Rust method that
    returns through [?] keeps the assignments made before it. *)

Definition st (S E A : Type) : Type := S -> S * outcome E A.

#[global] Instance st_ret {S E} : MRet (st S E) := fun _ a s => (s, Ok a).
#[global] Instance st_bind {S E} : MBind (st S E) :=
  fun _ _ k m s =>
    match m s with
    | (s', Ok a) => k a s'
    | (s', Err e) => (s', Err e)
    | (s', Panic) => (s', Panic)
    | (s', Diverge) => (s', Diverge)
    end.

Definition get {S E} : st S E S := fun s => (s, Ok s).
Definition modify {S E} (f : S -> S) : st S E unit := fun s => (f s, Ok tt).
Definition lift {S E A} (m : outcome E A) : st S E A := fun s => (s, m).
Definition throw {S E A} (e : E) : st S E A := fun s => (s, Err e).

(** ** Machine integers

    A [w]-bit unsigned integer is a [Z] in range; a cast [as uN] is a
    remainder. *)

Definition fits (w x : Z) : Prop := 0 <= x < 2 ^ w.
Abbreviation u8 := (fits 8).
Abbreviation u16 := (fits 16).
Abbreviation u32 := (fits 32).
Abbreviation u64 := (fits 64).

#[global] Instance fits_dec w x : Decision (fits w x).
Proof. unfold fits. apply _. Defined.

Definition wrap (w x : Z) : Z := x mod 2 ^ w.
Abbreviation as_u8 := (wrap 8).
Abbreviation as_u16 := (wrap 16).
Abbreviation as_u32 := (wrap 32).

(** A buffer: every element is an octet. *)
Definition bytes (l : list Z) : Prop := Forall (fits 8) l.

(** [x as usize], for an [x] that is an unsigned integer. *)
Abbreviation usize := Z.to_nat.

(** [u8::from(b)] for a [bool]. *)
Definition u8_of_bool (b : bool) : Z := if b then 1 else 0.

(** [flags & mask != 0]. *)
Definition has_bit (flags mask : Z) : bool := negb (Z.land flags mask =? 0).

(** The length of a buffer as an integer. *)
Definition zlen {A} (l : list A) : Z := Z.of_nat (length l).

(** ** Big-endian integers: [to_be_bytes] and [from_be_bytes] *)

Fixpoint to_be (n : nat) (x : Z) : list Z :=
  match n with
  | O => []
  | S m => (x / 2 ^ (8 * Z.of_nat m)) mod 2 ^ 8 :: to_be m x
  end.

Fixpoint from_be (l : list Z) : Z :=
  match l with
  | [] => 0
  | b :: l' => b * 2 ^ (8 * Z.of_nat (length l')) + from_be l'
  end.

(** ** Comparing byte arrays *)

(** [a < b] on byte arrays. *)
Fixpoint array_lt (a b : list Z) : bool :=
  match a, b with
  | [], [] => false
  | [], _ :: _ => true
  | _ :: _, [] => false
  | x :: a', y :: b' => (x <? y) || ((x =? y) && array_lt a' b')
  end.

Definition array_le (a b : list Z) : bool := negb (array_lt b a).

(** ** Indexing and slicing: [buf[i]], [buf[a..b]], [buf[a..]] *)

Definition idx {E A} (l : list A) (i : nat) : outcome E A :=
  match l !! i with Some b => Ok b | None => Panic end.

Definition slice {E A} (l : list A) (a b : nat) : outcome E (list A) :=
  if ((a <=? b) && (b <=? length l))%nat
  then Ok (take (b - a) (drop a l))
  else Panic.

Definition slice_from {E A} (l : list A) (a : nat) : outcome E (list A) :=
  slice l a (length l).

(** Two octets of a buffer as a [u16]. *)
Definition be16_at {E} (l : list Z) (i : nat) : outcome E Z :=
  hi ← idx l i; lo ← idx l (i + 1)%nat; Ok (from_be [hi; lo]).

(** [n] octets of a buffer as an integer
    ([uN::from_be_bytes(buf[i..i + n].try_into().unwrap())]). *)
Definition be_at {E} (n : nat) (l : list Z) (i : nat) : outcome E Z :=
  s ← slice l i (i + n); Ok (from_be s).

(** ** Tactics *)

(** Case analysis on the scrutinee of a [match] or an [if], keeping the
    equation. *)
Ltac break_match :=
  match goal with
  | |- context [match ?x with _ => _ end] => destruct x eqn:?
  end.

Ltac break_match_hyp :=
  match goal with
  | H : context [match ?x with _ => _ end] |- _ => destruct x eqn:?
  end.

(** [lia] after the lengths of the usual list operations are computed. *)
Create Rewrite HintDb lens.
#[export] Hint Rewrite @length_app @length_take @length_drop @length_cons
  @length_nil @length_replicate @length_fmap @length_insert : lens.

Ltac len_lia :=
  unfold zlen, fits, wrap in *; autorewrite with lens in *; lia.

(** ** Integers *)

Lemma wrap_small w x : fits w x -> wrap w x = x.
Proof. unfold fits, wrap. intros. by apply Z.mod_small. Qed.

Lemma wrap_fits w x : 0 <= w -> fits w (wrap w x).
Proof. intros. unfold fits, wrap. apply Z.mod_pos_bound. lia. Qed.

Lemma fits_weaken w w' x : 0 <= w <= w' -> fits w x -> fits w' x.
Proof.
  unfold fits. intros Hw Hx.
  assert (2 ^ w <= 2 ^ w') by (apply Z.pow_le_mono_r; lia). lia.
Qed.

Lemma u8_of_bool_fits b : fits 8 (u8_of_bool b).
Proof. by destruct b. Qed.

(** ** Big-endian integers *)

Lemma length_to_be n x : length (to_be n x) = n.
Proof. induction n; cbn; congruence. Qed.

#[export] Hint Rewrite length_to_be : lens.

Lemma bytes_to_be n x : bytes (to_be n x).
Proof.
  induction n; constructor; [|done].
  unfold fits. apply Z.mod_pos_bound. lia.
Qed.

Lemma from_be_bound l : bytes l -> 0 <= from_be l < 2 ^ (8 * zlen l).
Proof.
  unfold zlen. induction 1 as [|b l Hb Hl IH]; [done|].
  change (from_be (b :: l))
    with (b * 2 ^ (8 * Z.of_nat (length l)) + from_be l).
  rewrite length_cons.
  replace (8 * Z.of_nat (S (length l))) with (8 + 8 * Z.of_nat (length l)) by lia.
  rewrite Z.pow_add_r by lia. unfold fits in Hb. nia.
Qed.

Lemma from_be_to_be n x : from_be (to_be n x) = x mod 2 ^ (8 * Z.of_nat n).
Proof.
  induction n as [|n IH]; [by rewrite Z.mod_1_r|].
  change (from_be (to_be (S n) x))
    with ((x / 2 ^ (8 * Z.of_nat n)) mod 2 ^ 8
            * 2 ^ (8 * Z.of_nat (length (to_be n x))) + from_be (to_be n x)).
  rewrite IH, length_to_be.
  replace (8 * Z.of_nat (S n)) with (8 * Z.of_nat n + 8) by lia.
  rewrite Z.pow_add_r, Z.rem_mul_r by lia. lia.
Qed.

Lemma from_be_to_be_small n x :
  fits (8 * Z.of_nat n) x -> from_be (to_be n x) = x.
Proof. intros. rewrite from_be_to_be. by apply Z.mod_small. Qed.

Lemma to_be_add_mul n y x :
  to_be n (y * 2 ^ (8 * Z.of_nat n) + x) = to_be n x.
Proof.
  enough (forall m, (m <= n)%nat ->
            to_be m (y * 2 ^ (8 * Z.of_nat n) + x) = to_be m x) by auto.
  induction m as [|m IH]; intros Hm; [done|]. cbn [to_be].
  rewrite IH by lia. f_equal.
  replace (8 * Z.of_nat n)
    with (8 * Z.of_nat (n - m - 1) + 8 + 8 * Z.of_nat m) by lia.
  rewrite !Z.pow_add_r, Z.mul_assoc, Z.div_add_l by lia.
  rewrite Z.mul_assoc. by rewrite Z.add_comm, Z_mod_plus_full.
Qed.

Lemma to_be_from_be l : bytes l -> to_be (length l) (from_be l) = l.
Proof.
  induction 1 as [|b l Hb Hl IH]; [done|].
  pose proof (from_be_bound l Hl) as Hr. unfold zlen in Hr.
  cbn [from_be length to_be]. rewrite to_be_add_mul, IH. f_equal.
  rewrite Z.div_add_l, Z.div_small by lia.
  rewrite Z.add_0_r. by apply Z.mod_small.
Qed.

Lemma to_be_2 x : to_be 2 x = [(x / 2 ^ 8) mod 2 ^ 8; x mod 2 ^ 8].
Proof. cbn [to_be Z.of_nat Z.mul]. by rewrite Z.div_1_r. Qed.

Lemma to_be_app n m x :
  to_be (n + m) x = to_be n (x / 2 ^ (8 * Z.of_nat m)) ++ to_be m x.
Proof.
  induction n as [|n IH]; [done|]. cbn [Nat.add to_be app]. rewrite IH. f_equal.
  rewrite Z.div_div, <- Z.pow_add_r by lia. do 3 f_equal. lia.
Qed.

#[global] Arguments from_be l : simpl never.
#[global] Arguments to_be n x : simpl never.

(** ** Outcomes *)

Lemma bind_ok {E A B} (m : outcome E A) (k : A -> outcome E B) b :
  m ≫= k = Ok b <-> exists a, m = Ok a /\ k a = Ok b.
Proof.
  destruct m; cbn; split; intros H; eauto; try done;
    destruct H as (? & H & ?); by simplify_eq.
Qed.

Lemma Ok_inj {E A} (a b : A) : @Ok E A a = Ok b -> a = b.
Proof. by intros [= ->]. Qed.

Lemma returns_ok {E A} (a : A) : returns (@Ok E A a).
Proof. done. Qed.

Lemma returns_err {E A} (e : E) : returns (@Err E A e).
Proof. done. Qed.

Lemma returns_bind {E A B} (m : outcome E A) (k : A -> outcome E B) :
  returns m -> (forall a, m = Ok a -> returns (k a)) -> returns (m ≫= k).
Proof. destruct m; cbn; auto. Qed.

Lemma returns_ok_or {E A} (o : option A) (e : E) : returns (ok_or o e).
Proof. by destruct o. Qed.

Lemma returns_guard {E} b (e : E) : returns (guard_err b e).
Proof. by destruct b. Qed.

Lemma guard_ok {E} b (e : E) u : guard_err b e = Ok u <-> b = false.
Proof. by destruct b, u; split. Qed.

Lemma idx_ok {E A} (l : list A) i x :
  idx (E:=E) l i = Ok x <-> l !! i = Some x.
Proof. unfold idx. destruct (l !! i); naive_solver. Qed.

Lemma returns_idx {E A} (l : list A) i :
  (i < length l)%nat -> returns (idx (E:=E) l i).
Proof. intros [x Hx]%lookup_lt_is_Some. unfold idx. by rewrite Hx. Qed.

Lemma slice_ok {E A} (l : list A) a b s :
  slice (E:=E) l a b = Ok s <->
  (a <= b <= length l)%nat /\ s = take (b - a) (drop a l).
Proof.
  unfold slice. destruct ((a <=? b)%nat && (b <=? length l)%nat) eqn:H.
  - split; [intros Hs; simplify_eq; split; [lia|done] | by intros [_ ->]].
  - split; [done|]. intros [? _]. lia.
Qed.

Lemma slice_in {E A} (l : list A) a b :
  (a <= b <= length l)%nat -> slice (E:=E) l a b = Ok (take (b - a) (drop a l)).
Proof. intros. by apply slice_ok. Qed.

Lemma returns_slice {E A} (l : list A) a b :
  (a <= b <= length l)%nat -> returns (slice (E:=E) l a b).
Proof.
  intros H. unfold slice.
  by replace ((a <=? b)%nat && (b <=? length l)%nat) with true by lia.
Qed.

Lemma slice_length {E A} (l : list A) a b s :
  slice (E:=E) l a b = Ok s -> length s = (b - a)%nat.
Proof. intros [H ->]%slice_ok. rewrite length_take, length_drop. lia. Qed.

Lemma returns_be16 {E} l i :
  (i + 1 < length l)%nat -> returns (be16_at (E:=E) l i).
Proof.
  intros. unfold be16_at. apply returns_bind; [apply returns_idx; lia|].
  intros. apply returns_bind; [apply returns_idx; lia|]. done.
Qed.

Lemma returns_be {E} n l i :
  (i + n <= length l)%nat -> returns (be_at (E:=E) n l i).
Proof.
  intros. unfold be_at. apply returns_bind; [apply returns_slice; lia|]. done.
Qed.

Lemma returns_collect {E A B} (f : A -> outcome E B) l :
  (forall a, returns (f a)) -> returns (collect f l).
Proof.
  intros Hf. induction l as [|a l IH]; [done|]. cbn.
  apply returns_bind; [done|]. intros. by apply returns_bind.
Qed.

(** Running a stateful method, step by step ([autorewrite with st]). *)

Section st_equations.
Context {S E A B : Type}.
Implicit Types (s : S) (k : A -> st S E B).

Lemma st_mret (a : A) s : (mret a : st S E A) s = (s, Ok a).
Proof. done. Qed.
Lemma st_lift (m : outcome E A) s : (lift m : st S E A) s = (s, m).
Proof. done. Qed.
Lemma st_throw e s : (throw e : st S E A) s = (s, Err e).
Proof. done. Qed.
Lemma st_get s : (get : st S E S) s = (s, Ok s).
Proof. done. Qed.
Lemma st_modify f s : (modify f : st S E unit) s = (f s, Ok tt).
Proof. done. Qed.
Lemma st_bind_mret (a : A) k s : (mret a ≫= k) s = k a s.
Proof. done. Qed.
Lemma st_bind_get (k : S -> st S E B) s : (get ≫= k) s = k s s.
Proof. done. Qed.
Lemma st_bind_modify f (k : unit -> st S E B) s :
  (modify f ≫= k) s = k tt (f s).
Proof. done. Qed.
Lemma st_bind_lift (a : A) k s : (lift (Ok a) ≫= k) s = k a s.
Proof. done. Qed.
Lemma st_bind_lift_err e k s : (lift (Err e) ≫= k) s = (s, Err e).
Proof. done. Qed.
Lemma st_bind_throw e k s : (throw e ≫= k) s = (s, Err e).
Proof. done. Qed.
Lemma st_bind_ok (m : st S E A) k s s' a :
  m s = (s', Ok a) -> (m ≫= k) s = k a s'.
Proof. unfold mbind, st_bind. by intros ->. Qed.
End st_equations.

Create Rewrite HintDb st.
#[export] Hint Rewrite @st_mret @st_lift @st_throw @st_get @st_modify
  @st_bind_mret @st_bind_get @st_bind_modify @st_bind_lift @st_bind_lift_err
  @st_bind_throw : st.

(** ** Weakest preconditions of stateful methods

    [wp c Q R s]: started in [s], the method [c] returns; with a value and a
    state that satisfy [Q], or with an error and a state that satisfy [R]. *)

Definition wp {S E A} (c : st S E A) (Q : A -> S -> Prop) (R : E -> S -> Prop)
  (s : S) : Prop :=
  match c s with
  | (s', Ok a) => Q a s'
  | (s', Err e) => R e s'
  | (_, Panic) | (_, Diverge) => False
  end.

Section wp.
Context {S E A B : Type}.
Implicit Types (c : st S E A) (R : E -> S -> Prop) (s : S).

Lemma wp_bind c (k : A -> st S E B) Q R s :
  wp c (fun a s' => wp (k a) Q R s') R s -> wp (c ≫= k) Q R s.
Proof. unfold wp, mbind, st_bind. by destruct (c s) as [s' [a|e| |]]. Qed.

Lemma wp_mono c (Q Q' : A -> S -> Prop) R R' s :
  wp c Q R s -> (forall a s', Q a s' -> Q' a s') ->
  (forall e s', R e s' -> R' e s') -> wp c Q' R' s.
Proof. unfold wp. destruct (c s) as [s' [a|e| |]]; auto. Qed.

Lemma wp_mret (a : A) (Q : A -> S -> Prop) R s : Q a s -> wp (mret a) Q R s.
Proof. done. Qed.

Lemma wp_get (Q : S -> S -> Prop) R s : Q s s -> wp get Q R s.
Proof. done. Qed.

Lemma wp_modify f (Q : unit -> S -> Prop) R s : Q tt (f s) -> wp (modify f) Q R s.
Proof. done. Qed.

Lemma wp_lift (m : outcome E A) (Q : A -> S -> Prop) R s :
  returns m -> (forall a, m = Ok a -> Q a s) -> (forall e, m = Err e -> R e s) ->
  wp (lift m) Q R s.
Proof. unfold wp, lift. destruct m; cbn; auto; done. Qed.

Lemma wp_throw e (Q : A -> S -> Prop) R s : R e s -> wp (throw e) Q R s.
Proof. done. Qed.

Lemma wp_intro c (Q : A -> S -> Prop) R s s' r :
  wp c Q R s -> c s = (s', r) ->
  match r with Ok a => Q a s' | Err e => R e s' | _ => False end.
Proof. unfold wp. intros Hw Hc. rewrite Hc in Hw. by destruct r. Qed.

End wp.

(** A property of every way a method can end. *)
Lemma st_bind_inv {S E A B} (m : st S E A) (k : A -> st S E B) s s' r :
  (m ≫= k) s = (s', r) ->
  (exists s1 a, m s = (s1, Ok a) /\ k a s1 = (s', r))
  \/ (exists e, m s = (s', Err e) /\ r = Err e)
  \/ (m s = (s', Panic) /\ r = Panic)
  \/ (m s = (s', Diverge) /\ r = Diverge).
Proof.
  unfold mbind, st_bind. destruct (m s) as [s1 [a|e| |]]; intros Hk;
    simplify_eq; eauto 10.
Qed.

Lemma st_bind_ok_inv {S E A B} (m : st S E A) (k : A -> st S E B) s s' b :
  (m ≫= k) s = (s', Ok b) -> exists s1 a, m s = (s1, Ok a) /\ k a s1 = (s', Ok b).
Proof.
  intros [(s1 & a & ? & ?)|[(e & _ & [=])|[[_ [=]]|[_ [=]]]]]%st_bind_inv. eauto.
Qed.

(** ** The states before and after a method

    [along R s0 m s]: however [m] ends when it starts in [s], the state after is related
    by [R] to [s0], an earlier state.  Between [s0] and [s] are the assignments made since
    [R] was last established. *)

Definition along {S E A} (R : relation S) (s0 : S) (m : st S E A) (s : S) : Prop := R s0 (m s).1.

Section along.
Context {S E : Type} (R : relation S) `{!PreOrder R}.
Context {A B : Type}.
Implicit Types (m : st S E A) (s : S).

Lemma along_call s0 m s : R s0 s -> along R s m s -> along R s0 m s.
Proof. unfold along. intros H1 H2. by etrans. Qed.

Lemma along_bind s0 m (k : A -> st S E B) s :
  along R s0 m s -> (forall a s', m s = (s', Ok a) -> along R s' (k a) s') ->
  along R s0 (m ≫= k) s.
Proof.
  unfold along, mbind, st_bind. destruct (m s) as [s' [a|e| |]]; cbn; [|done..].
  intros H1 H2. etrans; [exact H1|]. by apply H2.
Qed.

Lemma along_get s0 (k : S -> st S E A) s : along R s0 (k s) s -> along R s0 (get ≫= k) s.
Proof. done. Qed.

Lemma along_modify_bind s0 f (k : unit -> st S E A) s :
  along R s0 (k tt) (f s) -> along R s0 (modify f ≫= k) s.
Proof. done. Qed.

Lemma along_modify s0 f s : R s0 (f s) -> along R s0 (modify f : st S E unit) s.
Proof. done. Qed.

Lemma along_mret s0 (a : A) s : R s0 s -> along R s0 (mret a : st S E A) s.
Proof. done. Qed.

Lemma along_mret_bind s0 (a : A) (k : A -> st S E B) s :
  along R s0 (k a) s -> along R s0 (mret a ≫= k) s.
Proof. done. Qed.

Lemma along_lift s0 (x : outcome E A) s : R s0 s -> along R s0 (lift x) s.
Proof. done. Qed.

Lemma along_throw s0 e s : R s0 s -> along R s0 (throw e : st S E A) s.
Proof. done. Qed.

Lemma along_ok m s s' r : along R s m s -> m s = (s', r) -> R s s'.
Proof. unfold along. intros H Hm. by rewrite Hm in H. Qed.

(** A value that is at hand: the continuation goes on from it. *)
Lemma along_lift_bind s0 (x : outcome E A) (k : A -> st S E B) s :
  R s0 s -> (forall a, x = Ok a -> along R s0 (k a) s) -> along R s0 (lift x ≫= k) s.
Proof. unfold along, mbind, st_bind, lift. destruct x; auto. Qed.

End along.

Create HintDb along discriminated.
#[global] Hint Constants Opaque : along.

(** One step through the code of a method.  What is left are the calls that no lemma
    describes and the assignments that [upd], the tactic of the relation, does not
    see through. *)
Ltac along_step upd :=
  lazymatch goal with
  | |- along _ _ (get ≫= _) _ => apply along_get
  | |- along _ _ (modify _ ≫= _) _ => apply along_modify_bind
  | |- along _ _ (lift _ ≫= _) _ => apply along_lift_bind; [try upd|intros ??]
  | |- along _ _ (mret _ ≫= _) _ => apply along_mret_bind
  | |- along _ _ (_ ≫= _) _ => refine (along_bind _ _ _ _ _ _ _); [|intros ???]
  | |- along _ _ (modify _) _ => apply along_modify; try upd
  | |- along _ _ (mret _) _ => apply along_mret; try upd
  | |- along _ _ (lift _) _ => apply along_lift; try upd
  | |- along _ _ (throw _) _ => apply along_throw; try upd
  | |- along _ _ (match ?x with _ => _ end) _ => destruct x eqn:?
  | |- along _ ?s _ ?s => solve [auto with along]
  | |- along _ _ _ _ => refine (along_call _ _ _ _ _ _); [try upd|solve [auto with along]]
  end.

Create HintDb returns.
#[export] Hint Resolve returns_ok returns_err returns_ok_or returns_guard
  : returns.

(** [returns_tac] discharges the totality of straight-line code: it follows
    binds, conditionals and matches and leaves the bounds to [lia]. *)
Ltac returns_step :=
  match goal with
  | H : guard_err _ _ = Ok _ |- _ => apply guard_ok in H
  | H : slice_from _ _ = Ok _ |- _ => unfold slice_from in H
  | H : slice _ _ _ = Ok _ |- _ => pose proof (slice_length _ _ _ _ H);
      apply slice_ok in H; destruct H as [? ?]
  | |- returns (_ ≫= _) => apply returns_bind; [|intros ??]
  | |- returns (idx _ _) => apply returns_idx
  | |- returns (slice _ _ _) => apply returns_slice
  | |- returns (slice_from _ _) => unfold slice_from; apply returns_slice
  | |- returns (be16_at _ _) => apply returns_be16
  | |- returns (be_at _ _ _) => apply returns_be
  | |- returns _ => solve [auto with returns]
  | |- returns (match ?x with _ => _ end) => destruct x eqn:?
  end.
Ltac returns_tac := repeat returns_step; try len_lia.

(** ** Reading behind a prefix *)

Lemma idx_app_r {E A} (p l : list A) i :
  idx (E:=E) (p ++ l) (length p + i) = idx l i.
Proof.
  unfold idx. rewrite lookup_app_r by lia.
  by replace (length p + i - length p)%nat with i by lia.
Qed.

Lemma slice_app_r {E A} (p l : list A) a b :
  slice (E:=E) (p ++ l) (length p + a) (length p + b) = slice l a b.
Proof.
  unfold slice. rewrite length_app, drop_app_ge by lia.
  replace (length p + a - length p)%nat with a by lia.
  replace (length p + b - (length p + a))%nat with (b - a)%nat by lia.
  destruct (Nat.leb_spec a b), (Nat.leb_spec b (length l)); cbn;
    try (by replace ((length p + a <=? length p + b)%nat
                   && (length p + b <=? length p + length l)%nat)
         with true by lia);
    by replace ((length p + a <=? length p + b)%nat
                   && (length p + b <=? length p + length l)%nat)
         with false by lia.
Qed.

(** *** The order of byte arrays *)

Lemma array_lt_irrefl a : array_lt a a = false.
Proof. induction a as [|x a IH]; [done|]. cbn. rewrite IH. lia. Qed.

Lemma array_lt_trans a b c :
  array_lt a b = true -> array_lt b c = true -> array_lt a c = true.
Proof.
  revert b c. induction a as [|x a IH]; intros [|y b] [|z c]; try done. cbn.
  intros H1 H2. specialize (IH b c). destruct (array_lt a b), (array_lt b c); lia.
Qed.

Lemma array_lt_total a b : array_lt a b = true \/ a = b \/ array_lt b a = true.
Proof.
  revert b. induction a as [|x a IH]; intros [|y b]; cbn; auto.
  destruct (Z.lt_trichotomy x y) as [|[->|]]; [left; lia| |right; right; lia].
  rewrite Z.ltb_irrefl, Z.eqb_refl. cbn. destruct (IH b) as [|[->|]]; auto.
Qed.

(** ** Slices of concatenations *)

Lemma slice_mid {E A} (p m s : list A) a b :
  a = length p -> b = (length p + length m)%nat ->
  slice (E:=E) (p ++ m ++ s) a b = Ok m.
Proof.
  intros -> ->. apply slice_ok. rewrite !length_app. split; [lia|].
  rewrite drop_app_length.
  replace (length p + length m - length p)%nat with (length m) by lia.
  by rewrite take_app_length.
Qed.

Lemma slice_head {E A} (m s : list A) b :
  b = length m -> slice (E:=E) (m ++ s) 0 b = Ok m.
Proof. intros ->. by apply (slice_mid []). Qed.

Lemma slice_tail {E A} (p m : list A) a b :
  a = length p -> b = (length p + length m)%nat ->
  slice (E:=E) (p ++ m) a b = Ok m.
Proof. intros. rewrite <- (app_nil_r (p ++ m)), <- app_assoc. by apply slice_mid. Qed.

Lemma slice_from_tail {E A} (p s : list A) a :
  a = length p -> slice_from (E:=E) (p ++ s) a = Ok s.
Proof.
  intros ->. unfold slice_from.
  rewrite <- (app_nil_r s) at 1. apply slice_mid; len_lia.
Qed.

Lemma slice_from_in {E A} (l : list A) a :
  (a <= length l)%nat -> slice_from (E:=E) l a = Ok (drop a l).
Proof.
  intros H. unfold slice_from. rewrite slice_in by lia.
  by rewrite take_ge by (rewrite length_drop; lia).
Qed.

Lemma slice_all {E A} (l : list A) : slice (E:=E) l 0 (length l) = Ok l.
Proof. apply slice_ok. rewrite Nat.sub_0_r. split; [lia|]. by rewrite take_ge. Qed.

Lemma idx_mid {E A} (p s : list A) x i :
  i = length p -> idx (E:=E) (p ++ x :: s) i = Ok x.
Proof. intros ->. apply idx_ok. by rewrite list_lookup_middle. Qed.

Lemma be16_mid {E} p n s i :
  i = length p -> fits 16 n -> be16_at (E:=E) (p ++ to_be 2 n ++ s) i = Ok n.
Proof.
  intros -> Hn. unfold be16_at.
  transitivity (@Ok E Z (from_be (to_be 2 n)));
    [|by rewrite from_be_to_be_small]. rewrite to_be_2.
  cbn [app]. rewrite (idx_mid p _ _ (length p)) by done.
  cbn [mbind outcome_bind].
  rewrite cons_middle, app_assoc, idx_mid; [done|]. len_lia.
Qed.

Lemma be_mid {E} k p n s i :
  i = length p -> fits (8 * Z.of_nat k) n ->
  be_at (E:=E) k (p ++ to_be k n ++ s) i = Ok n.
Proof.
  intros -> Hn. unfold be_at. rewrite slice_mid by (by rewrite ?length_to_be).
  cbn. by rewrite from_be_to_be_small.
Qed.

Lemma be16_app_r {E} (p l : list Z) i :
  be16_at (E:=E) (p ++ l) (length p + i) = be16_at l i.
Proof. unfold be16_at. by rewrite idx_app_r, <- Nat.add_assoc, idx_app_r. Qed.

Lemma be16_ok {E} l i x :
  be16_at (E:=E) l i = Ok x <->
  exists hi lo, l !! i = Some hi /\ l !! (i + 1)%nat = Some lo
                /\ x = from_be [hi; lo].
Proof.
  unfold be16_at. rewrite bind_ok. setoid_rewrite bind_ok.
  setoid_rewrite idx_ok. split.
  - intros (hi & ? & lo & ? & [= <-]). eauto.
  - intros (hi & lo & ? & ? & ->). eauto.
Qed.

(** Evaluate the next conditional whose guard is decided by arithmetic. *)
Ltac if_lia :=
  match goal with
  | |- context [if ?b then _ else _] =>
      first [ replace b with true by len_lia | replace b with false by len_lia ]
  end.

(** ** Reading at a cursor

    When the rest of a buffer from the cursor [c] is known, reading at an
    offset from the cursor is reading in the rest. *)

Section cursor.
Context {E A : Type}.
Implicit Types l m : list A.

Lemma idx_cursor l m c k : drop c l = m -> idx (E:=E) l (c + k) = idx m k.
Proof. intros <-. unfold idx. by rewrite lookup_drop. Qed.

Lemma idx_cursor_0 l m c : drop c l = m -> idx (E:=E) l c = idx m 0.
Proof. intros. by rewrite <- (idx_cursor l m c 0), Nat.add_0_r. Qed.

Lemma slice_cursor l m c a b :
  (c <= length l)%nat -> drop c l = m ->
  slice (E:=E) l (c + a) (c + b) = slice m a b.
Proof.
  intros Hc <-. pose proof (slice_app_r (E:=E) (take c l) (drop c l) a b) as Hs.
  by rewrite take_drop, length_take, Nat.min_l in Hs.
Qed.

Lemma slice_cursor_0 l m c b :
  (c <= length l)%nat -> drop c l = m ->
  slice (E:=E) l c (c + b) = slice m 0 b.
Proof. intros. by rewrite <- (slice_cursor l m c 0 b), Nat.add_0_r. Qed.

Lemma drop_cursor l c p r k :
  drop c l = p ++ r -> k = length p -> drop (c + k) l = r.
Proof. intros H ->. by rewrite <- drop_drop, H, drop_app_length. Qed.

Lemma cursor_length l m c :
  drop c l = m -> (c <= length l)%nat -> length l = (c + length m)%nat.
Proof. intros <-. len_lia. Qed.
End cursor.

Lemma be16_cursor {E} l m c k :
  drop c l = m -> be16_at (E:=E) l (c + k) = be16_at m k.
Proof.
  intros H. unfold be16_at.
  by rewrite (idx_cursor _ _ _ k H), <- Nat.add_assoc, (idx_cursor _ _ _ (k+1) H).
Qed.

Lemma be16_cursor_0 {E} l m c :
  drop c l = m -> be16_at (E:=E) l c = be16_at m 0.
Proof. intros. by rewrite <- (be16_cursor l m c 0), Nat.add_0_r. Qed.

Lemma from_be_2 n :
  fits 16 n -> from_be [(n / 2 ^ 8) mod 2 ^ 8; n mod 2 ^ 8] = n.
Proof. intros Hn. rewrite <- to_be_2. by apply from_be_to_be_small. Qed.

Lemma be16_cons {E} (n : Z) s :
  fits 16 n -> be16_at (E:=E) (to_be 2 n ++ s) 0 = Ok n.
Proof. intros. by apply (be16_mid []). Qed.

(** ** Strings as octets: [as_bytes] and the unchecked way back *)

Definition as_bytes (s : string) : list Z :=
  (fun c => Z.of_N (Ascii.N_of_ascii c)) <$> String.list_ascii_of_string s.

Definition of_bytes (l : list Z) : string :=
  String.string_of_list_ascii ((fun b => Ascii.ascii_of_N (Z.to_N b)) <$> l).

Lemma of_bytes_as_bytes s : of_bytes (as_bytes s) = s.
Proof.
  unfold of_bytes, as_bytes. rewrite <- list_fmap_compose.
  rewrite <- (String.string_of_list_ascii_of_string s) at 2. f_equal.
  induction (String.list_ascii_of_string s) as [|c l IH]; [done|]. cbn.
  by rewrite N2Z.id, Ascii.ascii_N_embedding, IH.
Qed.

Lemma as_bytes_of_bytes l : bytes l -> as_bytes (of_bytes l) = l.
Proof.
  unfold of_bytes, as_bytes. rewrite String.list_ascii_of_string_of_list_ascii.
  rewrite <- list_fmap_compose. induction 1 as [|b l Hb Hl IH]; [done|]. cbn.
  unfold fits in Hb. rewrite Ascii.N_ascii_embedding by lia.
  rewrite Z2N.id by lia. by rewrite IH.
Qed.

Lemma bytes_as_bytes s : bytes (as_bytes s).
Proof.
  unfold as_bytes. induction (String.list_ascii_of_string s) as [|c l IH];
    constructor; [|done]. unfold fits. pose proof (Ascii.N_ascii_bounded c). lia.
Qed.
