(* ===== verification/Errors.v ===== *)
(** * Error values

    [WifiError] of [src/src/core/error.rs] (the WiFi, wired and EAP layers) and
    [IpsecError] of [src/src/ipsec/error.rs] (the IKE and XFRM layers), with
    the conversion between them that the EAP client of the IKE engine uses. *)

From S2P Require Import Prelude.

(** ** The WiFi/EAP error type *)

Module WifiError.

Inductive ErrorKind :=
| Config | Nl80211 | Io | InterfaceNotFound | ScanFailed | ConnectFailed
| AuthFailed | WrongPassword | KeyInstallFailed | SaeFailed | HandshakeFailed
| SsidNotFound | ConfigNotFound | InvalidConfig | NetlinkDecode | Deprecated
| Roaming | NoSupport.

#[global] Instance ErrorKind_eq_dec : EqDecision ErrorKind.
Proof. solve_decision. Defined.

(** [impl Display for ErrorKind]. *)
Definition kind_str (k : ErrorKind) : string :=
  match k with
  | Config => "config"
  | Nl80211 => "nl80211"
  | Io => "io"
  | InterfaceNotFound => "interface-not-found"
  | ScanFailed => "scan-failed"
  | ConnectFailed => "connect-failed"
  | AuthFailed => "auth-failed"
  | WrongPassword => "wrong-password"
  | KeyInstallFailed => "key-install-failed"
  | SaeFailed => "sae-failed"
  | HandshakeFailed => "handshake-failed"
  | SsidNotFound => "ssid-not-found"
  | ConfigNotFound => "config-not-found"
  | InvalidConfig => "invalid-config"
  | NetlinkDecode => "netlink-decode"
  | Deprecated => "deprecated"
  | Roaming => "roaming"
  | NoSupport => "no-support"
  end.

Record t := mk {
  kind : ErrorKind;
  msg : string;
  iface_name : option string;
  ssid : option string;
}.

#[global] Instance t_eq_dec : EqDecision t.
Proof. solve_decision. Defined.

Definition new (k : ErrorKind) (m : string) : t :=
  {| kind := k; msg := m; iface_name := None; ssid := None |}.

Definition with_iface_name (e : t) (n : string) : t :=
  {| kind := kind e; msg := msg e; iface_name := Some n; ssid := ssid e |}.

Definition with_ssid (e : t) (s : string) : t :=
  {| kind := kind e; msg := msg e; iface_name := iface_name e; ssid := Some s |}.

Definition wrong_password (s : string) : t :=
  new WrongPassword ("wrong password for SSID '" +:+ s +:+ "'").

(** [impl Display for WifiError]. *)
Definition to_string (e : t) : string :=
  match iface_name e with
  | Some n => "[" +:+ n +:+ "] " +:+ kind_str (kind e) +:+ ": " +:+ msg e
  | None => kind_str (kind e) +:+ ": " +:+ msg e
  end.

End WifiError.

(** A handshake failure, the error most of the EAP and MKA code raises. *)
Definition handshake_failed {A} (m : string) : outcome WifiError.t A :=
  Err (WifiError.new WifiError.HandshakeFailed m).

(** ** The IPsec error type *)

(** [std::net::IpAddr], by octets. *)
Inductive IpAddr :=
| V4 (octets : list Z)
| V6 (octets : list Z).

#[global] Instance IpAddr_eq_dec : EqDecision IpAddr.
Proof. solve_decision. Defined.

Module IpsecError.

Inductive IpsecErrorKind :=
| Config | Io | Netlink | NetlinkDecode | Xfrm | Ike | Authentication
| Proposal | Identity | Certificate | Eap | Timeout | PeerNotFound
| NoSupport | Internal.

#[global] Instance IpsecErrorKind_eq_dec : EqDecision IpsecErrorKind.
Proof. solve_decision. Defined.

Record t := mk {
  kind : IpsecErrorKind;
  msg : string;
  connection : option string;
  peer : option IpAddr;
}.

#[global] Instance t_eq_dec : EqDecision t.
Proof. solve_decision. Defined.

Definition new (k : IpsecErrorKind) (m : string) : t :=
  {| kind := k; msg := m; connection := None; peer := None |}.
Definition config (m : string) : t := new Config m.
Definition xfrm (m : string) : t := new Xfrm m.
Definition ike (m : string) : t := new Ike m.
Definition authentication (m : string) : t := new Authentication m.
Definition internal (m : string) : t := new Internal m.

Definition with_connection (e : t) (c : string) : t :=
  {| kind := kind e; msg := msg e; connection := Some c; peer := peer e |}.
Definition with_peer (e : t) (a : IpAddr) : t :=
  {| kind := kind e; msg := msg e; connection := connection e; peer := Some a |}.

(** [impl From<shuli_core::WifiError> for IpsecError]. *)
Definition from_wifi (e : WifiError.t) : t :=
  let k :=
    match WifiError.kind e with
    | WifiError.AuthFailed | WifiError.WrongPassword => Authentication
    | WifiError.InvalidConfig | WifiError.Config => Config
    | WifiError.HandshakeFailed => Eap
    | _ => Eap
    end in
  new k (WifiError.to_string e).

End IpsecError.

(** [Err(IpsecError::ike(msg))], the codec's usual error. *)
Definition ike_err {A} (m : string) : outcome IpsecError.t A :=
  Err (IpsecError.ike m).
