(* ===== verification/Net.v ===== *)
(** * Socket addresses and how they are printed

    [std::net::SocketAddr] and the [Display] of IP addresses, which error
    messages and identities use.  IPv6 follows the standard library: the first
    longest run of at least two zero segments is compressed, and an IPv4-mapped
    address keeps its dotted form. *)

From S2P Require Import Prelude Errors.

(** One digit of [{:x}]. *)
Definition hex_char (d : Z) : string :=
  of_bytes [if d <? 10 then 48 + d else 87 + d].

(** [{:x}] of a 16-bit segment. *)
Definition hex_segment (x : Z) : string :=
  let digits := [x / 4096; x / 256 mod 16; x / 16 mod 16; x mod 16] in
  let fix strip (l : list Z) :=
    match l with
    | d :: ((_ :: _) as rest) => if d =? 0 then strip rest else l
    | _ => l
    end in
  foldr (fun d s => hex_char d +:+ s) "" (strip digits).

Definition join (sep : string) (l : list string) : string :=
  match l with
  | [] => ""
  | x :: l => x +:+ foldr (fun y s => sep +:+ y +:+ s) "" l
  end.

Definition ipv4_string (octets : list Z) : string := join "." (pretty <$> octets).

(** The eight segments of an IPv6 address. *)
Fixpoint segments (octets : list Z) : list Z :=
  match octets with
  | hi :: lo :: rest => (hi * 256 + lo) :: segments rest
  | _ => []
  end.

(** The first longest run of zeros: [(start, length)]. *)
Fixpoint longest_zeros (i : nat) (current longest : nat * nat) (l : list Z) : nat * nat :=
  match l with
  | [] => longest
  | x :: l =>
      if x =? 0 then
        let current := if (current.2 =? 0)%nat then (i, 1%nat) else (current.1, S current.2) in
        longest_zeros (S i) current
          (if (longest.2 <? current.2)%nat then current else longest) l
      else longest_zeros (S i) (0%nat, 0%nat) longest l
  end.

Definition ipv6_string (octets : list Z) : string :=
  if bool_decide (take 12 octets = replicate 10 0 ++ [255; 255])
  then "::ffff:" +:+ ipv4_string (drop 12 octets)
  else
    let l := segments octets in
    let '(start, len) := longest_zeros 0 (0%nat, 0%nat) (0%nat, 0%nat) l in
    let sub l := join ":" (hex_segment <$> l) in
    if (1 <? len)%nat
    then sub (take start l) +:+ "::" +:+ sub (drop (start + len) l)
    else sub l.

Definition ip_string (a : IpAddr) : string :=
  match a with V4 octets => ipv4_string octets | V6 octets => ipv6_string octets end.

(** [IpAddr::is_unspecified]. *)
Definition is_unspecified (a : IpAddr) : bool :=
  match a with V4 octets | V6 octets => forallb (Z.eqb 0) octets end.

Module SocketAddr.

Record t := mk { ip : IpAddr; port : Z }.

#[global] Instance t_eq_dec : EqDecision t.
Proof. solve_decision. Defined.

Definition set_port (a : t) (port : Z) : t := mk (ip a) port.

Definition to_string (a : t) : string :=
  match ip a with
  | V4 octets => ipv4_string octets +:+ ":" +:+ pretty (port a)
  | V6 octets => "[" +:+ ipv6_string octets +:+ "]:" +:+ pretty (port a)
  end.

End SocketAddr.

(** [[0, 0, 0, 0]] and [[0u16; 8]] with a port. *)
Definition any_v4 (port : Z) : SocketAddr.t := SocketAddr.mk (V4 (replicate 4 0)) port.
Definition any_v6 (port : Z) : SocketAddr.t := SocketAddr.mk (V6 (replicate 16 0)) port.

Example ip_string_examples :
  ip_string (V4 [192; 0; 2; 10]) = "192.0.2.10"
  /\ ip_string (V6 ([32; 1; 13; 184] ++ replicate 11 0 ++ [1])) = "2001:db8::1"
  /\ ip_string (V6 (replicate 16 0)) = "::"
  /\ ip_string (V6 (replicate 10 0 ++ [255; 255; 1; 2; 3; 4])) = "::ffff:1.2.3.4"
  /\ ip_string (V6 [0; 1; 0; 0; 0; 2; 0; 0; 0; 0; 0; 3; 0; 4; 0; 5]) = "1:0:2::3:4:5".
Proof. by vm_compute. Qed.
