(* ===== verification/IpText.v ===== *)
(** * Reading IP addresses

    [IpAddr::from_str] of the standard library ([core::net::parser]), through which
    identities and the configuration of the daemon read addresses, and the numbers that
    [u8::from_str] and [u8::from_str_radix] read.  A reader takes the octets that are left
    and returns what it read with the rest; it takes nothing when it fails.
    [Module IpTextFacts] shows that an address is read back from what [Net.v] prints. *)

From S2P Require Import Prelude Errors Net.

(** [char::to_digit]. *)
Definition to_digit (radix c : Z) : option Z :=
  let d := if (48 <=? c) && (c <=? 57) then Some (c - 48)
           else if (97 <=? c) && (c <=? 122) then Some (c - 87)
           else if (65 <=? c) && (c <=? 90) then Some (c - 55) else None in
  d ← d; if d <? radix then Some d else None.

Definition reader (A : Type) : Type := list Z -> option (A * list Z).

(** [read_given_char]. *)
Definition read_given_char (c : Z) : reader unit := fun l =>
  match l with x :: l => if x =? c then Some (tt, l) else None | [] => None end.

(** The loop of [read_number]: the number and how many digits it has. *)
Fixpoint read_digits (radix : Z) (max_digits : nat) (result : Z) (count : nat) (l : list Z)
  : option (Z * nat * list Z) :=
  match l with
  | c :: l' =>
      match to_digit radix c with
      | Some d =>
          if (max_digits <? S count)%nat then None
          else read_digits radix max_digits (result * radix + d) (S count) l'
      | None => Some (result, count, l)
      end
  | [] => Some (result, count, [])
  end.

(** [read_number] with [max_digits], into a number below [bound]. *)
Definition read_number (radix : Z) (max_digits : nat) (allow_zero_prefix : bool) (bound : Z)
  : reader Z := fun l =>
  match read_digits radix max_digits 0 0 l with
  | Some (result, count, rest) =>
      if (count =? 0)%nat then None
      else if negb allow_zero_prefix && bool_decide (head l = Some 48) && (1 <? count)%nat then None
      else if result <? bound then Some (result, rest) else None
  | None => None
  end.

(** [read_separator]. *)
Definition read_separator {A} (sep : Z) (index : nat) (inner : reader A) : reader A := fun l =>
  match index with
  | O => inner l
  | S _ => '(_, l) ← read_given_char sep l; inner l
  end.

(** [read_ipv4_addr]: the groups from [index] on. *)
Fixpoint read_ipv4_groups (n index : nat) (l : list Z) : option (list Z * list Z) :=
  match n with
  | O => Some ([], l)
  | S n =>
      '(group, l) ← read_separator 46 index (read_number 10 3 false 256) l;
      '(groups, l) ← read_ipv4_groups n (S index) l;
      Some (group :: groups, l)
  end.

Definition read_ipv4_addr : reader (list Z) := read_ipv4_groups 4 0.

(** Two groups of four octets. *)
Definition embedded_groups (octets : list Z) : list Z :=
  match octets with [a; b; c; d] => [a * 256 + b; c * 256 + d] | _ => [] end.

(** [read_groups] from group [index] on, [n] below the limit: the groups, whether they
    end with an IPv4 address, and the rest. *)
Fixpoint read_groups (n index : nat) (l : list Z) : list Z * bool * list Z :=
  match n with
  | O => ([], false, l)
  | S n =>
      match (if (1 <=? n)%nat then read_separator 58 index read_ipv4_addr l else None) with
      | Some (octets, l) => (embedded_groups octets, true, l)
      | None =>
          match read_separator 58 index (read_number 16 4 true 65536) l with
          | Some (group, l) =>
              let '(groups, ipv4, l) := read_groups n (S index) l in (group :: groups, ipv4, l)
          | None => ([], false, l)
          end
      end
  end.

Definition group_octets (groups : list Z) : list Z := concat ((fun g => [g / 256; g mod 256]) <$> groups).

Definition read_ipv6_addr : reader (list Z) := fun l =>
  let '(head, head_ipv4, l) := read_groups 8 0 l in
  if (length head =? 8)%nat then Some (group_octets head, l)
  else if head_ipv4 then None
  else
    '(_, l) ← read_given_char 58 l;
    '(_, l) ← read_given_char 58 l;
    let '(tail, _, l) := read_groups (8 - (length head + 1)) 0 l in
    Some (group_octets (head ++ replicate (8 - length head - length tail) 0 ++ tail), l).

Definition read_ip_addr : reader IpAddr := fun l =>
  match read_ipv4_addr l with
  | Some (octets, l) => Some (V4 octets, l)
  | None => '(octets, l) ← read_ipv6_addr l; Some (V6 octets, l)
  end.

(** [str::parse::<IpAddr>]: nothing may be left. *)
Definition parse_ip (s : string) : option IpAddr :=
  match read_ip_addr (as_bytes s) with
  | Some (a, []) => Some a
  | _ => None
  end.

(** ** Integers

    [u8::from_str_radix]: a plus sign is allowed, a lone sign is not a number.  The
    errors are those of [ParseIntError]. *)

Definition ERR_EMPTY : string := "cannot parse integer from empty string".
Definition ERR_DIGIT : string := "invalid digit found in string".
Definition ERR_OVERFLOW : string := "number too large to fit in target type".

Fixpoint u8_digits (radix result : Z) (l : list Z) : string + Z :=
  match l with
  | [] => inr result
  | c :: l =>
      match to_digit radix c with
      | None => inl ERR_DIGIT
      | Some d => if 255 <? result * radix + d then inl ERR_OVERFLOW else u8_digits radix (result * radix + d) l
      end
  end.

Definition u8_from_str_radix (radix : Z) (l : list Z) : string + Z :=
  match l with
  | [] => inl ERR_EMPTY
  | [43] | [45] => inl ERR_DIGIT
  | 43 :: l => u8_digits radix 0 l
  | _ => u8_digits radix 0 l
  end.

(** ** Pieces of text

    [str::split_once], [str::split] at a character and [str::trim], on octets.  A text is
    UTF-8, so that white space ends with its last octet and starts with its first. *)

Fixpoint split_once (c : Z) (l : list Z) : option (list Z * list Z) :=
  match l with
  | [] => None
  | x :: l => if x =? c then Some ([], l)
              else '(a, b) ← split_once c l; Some (x :: a, b)
  end.

Fixpoint split (c : Z) (l : list Z) : list (list Z) :=
  match l with
  | [] => [[]]
  | x :: l =>
      if x =? c then [] :: split c l
      else match split c l with
           | part :: parts => (x :: part) :: parts
           | [] => [[x]]
           end
  end.

(** The characters of [White_Space], by the octets of their UTF-8. *)
Definition space1 (b : Z) : bool := (9 <=? b) && (b <=? 13) || (b =? 32).
Definition space2 (b c : Z) : bool := (b =? 194) && ((c =? 133) || (c =? 160)).
Definition space3 (b c d : Z) : bool :=
  (b =? 225) && (c =? 154) && (d =? 128)
  || (b =? 226) && (c =? 128)
     && ((128 <=? d) && (d <=? 138) || (d =? 168) || (d =? 169) || (d =? 175))
  || (b =? 226) && (c =? 129) && (d =? 159)
  || (b =? 227) && (c =? 128) && (d =? 128).

Fixpoint trim_start (l : list Z) : list Z :=
  match l with
  | b :: l1 =>
      if space1 b then trim_start l1 else
      match l1 with
      | c :: l2 =>
          if space2 b c then trim_start l2 else
          match l2 with
          | d :: l3 => if space3 b c d then trim_start l3 else l
          | [] => l
          end
      | [] => l
      end
  | [] => []
  end.

(** The end of a text, its last octet first. *)
Fixpoint trim_last (l : list Z) : list Z :=
  match l with
  | d :: l1 =>
      if space1 d then trim_last l1 else
      match l1 with
      | c :: l2 =>
          if space2 c d then trim_last l2 else
          match l2 with
          | b :: l3 => if space3 b c d then trim_last l3 else l
          | [] => l
          end
      | [] => l
      end
  | [] => []
  end.

Definition trim (l : list Z) : list Z := reverse (trim_last (reverse (trim_start l))).

Example trim_example : trim (as_bytes "  a b ") = as_bytes "a b" /\ trim ([194; 160; 65; 226; 128; 130]) = [65].
Proof. by vm_compute. Qed.

Example parse_ip_examples :
  parse_ip "192.0.2.10" = Some (V4 [192; 0; 2; 10]) /\ parse_ip "192.0.2.010" = None
  /\ parse_ip "2001:db8::1" = Some (V6 ([32; 1; 13; 184] ++ replicate 11 0 ++ [1]))
  /\ parse_ip "::ffff:1.2.3.4" = Some (V6 (replicate 10 0 ++ [255; 255; 1; 2; 3; 4]))
  /\ parse_ip "1:2:3:4:5:6:7::" = Some (V6 [0;1;0;2;0;3;0;4;0;5;0;6;0;7;0;0])
  /\ parse_ip "1.2.3.4::" = None /\ parse_ip "::1.2.3.4:5" = None /\ parse_ip "example.org" = None.
Proof. by vm_compute. Qed.

Module IpTextFacts.

Lemma as_bytes_append s t : as_bytes (s +:+ t) = as_bytes s ++ as_bytes t.
Proof.
  unfold as_bytes. rewrite <- fmap_app. f_equal.
  induction s as [|c s IH]; [done|]. exact (f_equal (cons c) IH).
Qed.

(** ** Numbers *)

(** Digits, and the end of them. *)
Definition digits (radix : Z) (l : list Z) : Prop := Forall (fun c => is_Some (to_digit radix c)) l.
Definition stops (radix : Z) (l : list Z) : Prop := forall c r, l = c :: r -> to_digit radix c = None.

Definition value (radix : Z) (l : list Z) : Z :=
  fold_left (fun v c => v * radix + default 0 (to_digit radix c)) l 0.

Lemma read_digits_app radix m ds rest : digits radix ds -> stops radix rest ->
  forall v n, (n + length ds <= m)%nat ->
  read_digits radix m v n (ds ++ rest)
  = Some (fold_left (fun v c => v * radix + default 0 (to_digit radix c)) ds v, (n + length ds)%nat, rest).
Proof.
  intros Hd Hs. induction Hd as [|c ds [d Hc] _ IH]; intros v n Hn; cbn [length] in Hn.
  - cbn. rewrite Nat.add_0_r. destruct rest as [|c r]; [done|]. cbn. by rewrite (Hs c r eq_refl).
  - cbn [app read_digits]. rewrite Hc. destruct (Nat.ltb_spec m (S n)); [lia|].
    rewrite IH by lia. cbn [fold_left length]. rewrite Hc. cbn. do 3 f_equal. lia.
Qed.

(** What [read_number] reads of a text it takes in full. *)
Definition reads (radix : Z) (m : nat) (zero : bool) (bound x : Z) (ds : list Z) : bool :=
  forallb (fun c => bool_decide (is_Some (to_digit radix c))) ds
  && (1 <=? length ds)%nat && (length ds <=? m)%nat && (value radix ds =? x) && (x <? bound)
  && (zero || negb (bool_decide (head ds = Some 48) && (1 <? length ds)%nat)).

Lemma read_number_reads radix m zero bound x ds rest :
  reads radix m zero bound x ds = true -> stops radix rest ->
  read_number radix m zero bound (ds ++ rest) = Some (x, rest).
Proof.
  unfold reads. rewrite !andb_true_iff, Z.eqb_eq, Z.ltb_lt, !Nat.leb_le.
  intros (((((Hd & Hl) & Hm) & Hv) & Hb) & Hz) Hs. unfold read_number.
  rewrite read_digits_app; [|by apply Forall_forall; intros c Hc; rewrite forallb_forall in Hd;
    apply (bool_decide_eq_true_1 (is_Some _)), Hd, list_elem_of_In|done|lia].
  fold (value radix ds). rewrite Hv. destruct (Nat.eqb_spec (0 + length ds) 0); [lia|].
  assert (head (ds ++ rest) = head ds) as -> by (destruct ds; [cbn in Hl; lia|done]).
  replace (0 + length ds)%nat with (length ds) by lia.
  destruct zero; cbn [orb negb andb] in *; [|apply negb_true_iff in Hz; rewrite Hz];
    by destruct (Z.ltb_spec x bound); [|lia].
Qed.

Lemma read_digits_none radix m c l v n : to_digit radix c = None -> read_digits radix m v n (c :: l) = Some (v, n, c :: l).
Proof. intros Hc. cbn. by rewrite Hc. Qed.

Lemma read_number_none radix m zero bound l : stops radix l -> read_number radix m zero bound l = None.
Proof.
  intros Hs. unfold read_number. destruct l as [|c l]; [done|].
  by rewrite read_digits_none by (by eapply Hs).
Qed.

(** The decimal of an octet and the hexadecimal of a segment are read. *)
Lemma octet_reads x : 0 <= x < 256 -> reads 10 3 false 256 x (as_bytes (pretty x)) = true.
Proof.
  intros Hx. assert (forallb (fun x => reads 10 3 false 256 x (as_bytes (pretty x))) (seqZ 0 256) = true) as Ha
    by (vm_compute; reflexivity).
  rewrite forallb_forall in Ha. apply Ha, list_elem_of_In, elem_of_seqZ. lia.
Qed.

Definition hex_code (d : Z) : Z := if d <? 10 then 48 + d else 87 + d.

Lemma hex_code_digit d : 0 <= d < 16 -> to_digit 16 (hex_code d) = Some d /\ (hex_code d = 48 <-> d = 0).
Proof.
  intros Hd. unfold hex_code, to_digit. split; [|destruct (Z.ltb_spec d 10); lia].
  destruct (Z.ltb_spec d 10).
  - replace ((48 <=? 48 + d) && (48 + d <=? 57)) with true by lia. cbn.
    replace (48 + d - 48) with d by lia. by destruct (Z.ltb_spec d 16); [|lia].
  - replace ((48 <=? 87 + d) && (87 + d <=? 57)) with false by lia.
    replace ((97 <=? 87 + d) && (87 + d <=? 122)) with true by lia. cbn.
    replace (87 + d - 87) with d by lia. by destruct (Z.ltb_spec d 16); [|lia].
Qed.

Lemma hex_digits_text l : Forall (fun d => 0 <= d < 16) l ->
  as_bytes (foldr (fun d s => hex_char d +:+ s) "" l) = hex_code <$> l.
Proof.
  induction 1 as [|d l Hd _ IH]; [done|]. cbn [foldr fmap list_fmap].
  rewrite as_bytes_append, IH. unfold hex_char. rewrite as_bytes_of_bytes; [done|].
  constructor; [|constructor]. unfold fits. change (2 ^ 8) with 256. destruct (Z.ltb_spec d 10); lia.
Qed.

(** A number of at most four digits without a leading zero. *)
Lemma hex_reads l x : Forall (fun d => 0 <= d < 16) l -> (1 <= length l <= 4)%nat ->
  fold_left (fun v d => v * 16 + d) l 0 = x -> 0 <= x < 65536 ->
  reads 16 4 true 65536 x (hex_code <$> l) = true.
Proof.
  intros Hl Hn Hv Hx. unfold reads. rewrite !andb_true_iff, Z.eqb_eq, Z.ltb_lt, !Nat.leb_le, length_fmap.
  split_and!; [|lia..| |lia|done].
  - apply forallb_forall. intros c Hc%list_elem_of_In. apply list_elem_of_fmap in Hc as (d & -> & Hd).
    rewrite Forall_forall in Hl. rewrite (proj1 (hex_code_digit d (Hl d Hd))). by apply bool_decide_eq_true.
  - rewrite <- Hv. unfold value. clear Hv Hn.
    assert (forall v, fold_left (fun v c => v * 16 + default 0 (to_digit 16 c)) (hex_code <$> l) v
                      = fold_left (fun v d => v * 16 + d) l v) as Hf; [|apply Hf].
    induction Hl as [|d l Hd _ IH]; intros v; [done|].
    cbn [fmap list_fmap fold_left]. rewrite (proj1 (hex_code_digit d Hd)). apply IH.
Qed.

Lemma segment_reads x : 0 <= x < 65536 -> reads 16 4 true 65536 x (as_bytes (hex_segment x)) = true.
Proof.
  intros Hx. unfold hex_segment.
  assert (x = x / 4096 * 4096 + x / 256 mod 16 * 256 + x / 16 mod 16 * 16 + x mod 16) as Hdec.
  { pose proof (Z.div_mod x 16). pose proof (Z.div_mod (x / 16) 16). pose proof (Z.div_mod (x / 256) 16).
    rewrite !Z.div_div in * by lia. change (16 * 16) with 256 in *. change (256 * 16) with 4096 in *. lia. }
  assert (0 <= x / 4096 < 16) by (split; [apply Z.div_pos; lia|apply Z.div_lt_upper_bound; lia]).
  assert (0 <= x / 256 mod 16 < 16 /\ 0 <= x / 16 mod 16 < 16 /\ 0 <= x mod 16 < 16) as (? & ? & ?)
    by (split_and!; apply Z.mod_pos_bound; lia).
  set (a := x / 4096) in *. set (b := x / 256 mod 16) in *. set (c := x / 16 mod 16) in *. set (d := x mod 16) in *.
  clearbody a b c d. cbn -[Z.mul Z.add foldr].
  destruct (Z.eqb_spec a 0); [destruct (Z.eqb_spec b 0); [destruct (Z.eqb_spec c 0)|]|];
    (rewrite hex_digits_text by (repeat constructor; lia)); apply hex_reads; cbn -[Z.mul Z.add]; try lia;
    repeat constructor; lia.
Qed.

(** ** IPv4 *)

Definition octet (x : Z) : Prop := 0 <= x < 256.

Lemma stops_nil radix : stops radix [].
Proof. by intros c r [=]. Qed.

Lemma stops_cons radix c l : to_digit radix c = None -> stops radix (c :: l).
Proof. by intros Hc c' r [= <- <-]. Qed.

Lemma read_octet x rest : octet x -> stops 10 rest ->
  read_number 10 3 false 256 (as_bytes (pretty x) ++ rest) = Some (x, rest).
Proof. intros Hx Hs. by apply read_number_reads; [apply octet_reads|]. Qed.

Lemma ipv4_text a b c d :
  as_bytes (ipv4_string [a; b; c; d])
  = as_bytes (pretty a) ++ 46 :: as_bytes (pretty b) ++ 46 :: as_bytes (pretty c) ++ 46 :: as_bytes (pretty d).
Proof.
  unfold ipv4_string. cbn [fmap list_fmap join foldr]. rewrite !as_bytes_append.
  change (as_bytes ".") with [46]. change (as_bytes "") with (@nil Z). by rewrite app_nil_r.
Qed.

Lemma read_ipv4_printed a b c d rest : Forall octet [a; b; c; d] -> stops 10 rest ->
  read_ipv4_addr (as_bytes (ipv4_string [a; b; c; d]) ++ rest) = Some ([a; b; c; d], rest).
Proof.
  intros H Hs. inversion_clear H as [|? ? Ha H']. inversion_clear H' as [|? ? Hb H''].
  inversion_clear H'' as [|? ? Hc H3]. inversion_clear H3 as [|? ? Hd _].
  rewrite ipv4_text. unfold read_ipv4_addr. rewrite <- !app_assoc. cbn [app].
  rewrite <- !app_assoc. cbn [app]. rewrite <- !app_assoc.
  cbn [read_ipv4_groups read_separator].
  rewrite read_octet by (done || by apply stops_cons). cbn.
  rewrite read_octet by (done || by apply stops_cons). cbn.
  rewrite read_octet by (done || by apply stops_cons). cbn.
  by rewrite read_octet.
Qed.

(** A text without a dot has no IPv4 address. *)
Lemma read_number_suffix radix m zero bound l x rest :
  read_number radix m zero bound l = Some (x, rest) -> forall c, c ∈ rest -> c ∈ l.
Proof.
  unfold read_number. destruct (read_digits radix m 0 0 l) as [[[r n] rest']|] eqn:Hr; [|done].
  destruct (n =? 0)%nat; [done|]. destruct (_ && _); [done|]. destruct (r <? bound); [|done].
  intros [= _ ->]. revert Hr. generalize 0%nat, 0. induction l as [|c l IH]; cbn [read_digits]; intros k v.
  - by intros [= _ _ <-].
  - destruct (to_digit radix c); [|by intros [= _ _ <-]]. destruct (m <? S k)%nat; [done|].
    intros Hr d Hd. right. by eapply IH.
Qed.

Lemma read_ipv4_dot l : 46 ∉ l -> read_ipv4_addr l = None.
Proof.
  intros Hl. unfold read_ipv4_addr. cbn [read_ipv4_groups read_separator].
  destruct (read_number 10 3 false 256 l) as [[x rest]|] eqn:Hr; [|done]. cbn.
  destruct rest as [|c rest]; [done|]. cbn. destruct (Z.eqb_spec c 46) as [->|]; [|done].
  exfalso. apply Hl, (read_number_suffix _ _ _ _ _ _ _ Hr). left.
Qed.

(** ** IPv6 *)

Definition segment (x : Z) : Prop := 0 <= x < 65536.

(** The text of groups from index [i] on. *)
Fixpoint groups_text (i : nat) (l : list Z) : list Z :=
  match l with
  | [] => []
  | x :: l => (if (i =? 0)%nat then [] else [58]) ++ as_bytes (hex_segment x) ++ groups_text (S i) l
  end.

Lemma join_text l : as_bytes (join ":" (hex_segment <$> l)) = groups_text 0 l.
Proof.
  destruct l as [|x l]; [done|]. cbn [fmap list_fmap join groups_text]. rewrite as_bytes_append. cbn [Nat.eqb app].
  f_equal. generalize 0%nat. induction l as [|y l IH]; intros i; [done|].
  cbn [fmap list_fmap foldr groups_text]. rewrite !as_bytes_append, (IH (S i)). done.
Qed.

(** What may follow groups: the end, or a compression. *)
Definition ends (rest : list Z) : Prop := rest = [] \/ exists r, rest = 58 :: 58 :: r.

Lemma hex_no_dot x : segment x -> 46 ∉ as_bytes (hex_segment x).
Proof.
  intros Hx Hin. pose proof (segment_reads x Hx) as Hr. unfold reads in Hr.
  rewrite !andb_true_iff in Hr. destruct Hr as [[[[[Hd _] _] _] _] _].
  rewrite forallb_forall in Hd. apply list_elem_of_In in Hin. apply Hd in Hin. by vm_compute in Hin.
Qed.

Lemma groups_no_dot l : Forall segment l -> forall i, 46 ∉ groups_text i l.
Proof.
  induction 1 as [|x l Hx _ IH]; intros i Hin; [by apply not_elem_of_nil in Hin|]. cbn [groups_text] in Hin.
  rewrite !elem_of_app in Hin. destruct Hin as [Hin|[Hin|Hin]].
  - destruct (i =? 0)%nat; [by apply not_elem_of_nil in Hin|]. by apply list_elem_of_singleton in Hin.
  - by apply (hex_no_dot x).
  - by apply (IH (S i)).
Qed.

Lemma read_groups_printed l : Forall segment l -> forall n i rest, (length l <= n)%nat -> ends rest -> 46 ∉ rest ->
  read_groups n i (groups_text i l ++ rest) = (l, false, rest).
Proof.
  induction 1 as [|x l Hx Hl IH]; intros n i rest Hn He Hd; cbn [length] in Hn.
  - cbn [groups_text app]. destruct n as [|n]; [done|]. cbn [read_groups].
    assert (forall A (inner : reader A), inner [] = None -> (forall r, inner (58 :: r) = None) ->
      read_separator 58 i inner rest = None) as Hsep.
    { intros A inner H0 H1. destruct He as [->|[r ->]]; destruct i; cbn; auto. }
    assert (forall r, read_number 16 4 true 65536 (58 :: r) = None) as Hn16
      by (intros r; by apply read_number_none, stops_cons).
    rewrite (Hsep _ read_ipv4_addr), (Hsep _ (read_number 16 4 true 65536)); try done;
      try by destruct (1 <=? n)%nat.
  - destruct n as [|n]; [lia|]. cbn [read_groups groups_text]. rewrite <- !app_assoc.
    assert (46 ∉ as_bytes (hex_segment x) ++ groups_text (S i) l ++ rest) as Hnd.
    { rewrite !elem_of_app. intros [?|[?|?]]; [by eapply hex_no_dot|by eapply groups_no_dot|done]. }
    assert (stops 16 (groups_text (S i) l ++ rest)) as Hst.
    { destruct l; cbn; [|by apply stops_cons]. destruct He as [->|[r ->]]; [apply stops_nil|by apply stops_cons]. }
    assert (forall A (inner : reader A), read_separator 58 i inner ((if (i =? 0)%nat then [] else [58])
      ++ as_bytes (hex_segment x) ++ groups_text (S i) l ++ rest)
      = inner (as_bytes (hex_segment x) ++ groups_text (S i) l ++ rest)) as Hsep by (by destruct i).
    rewrite !Hsep, read_ipv4_dot by done. rewrite (read_number_reads 16 4 true 65536 x) by (exact Hst || by apply segment_reads).
    rewrite IH by (done || lia). by destruct (1 <=? n)%nat.
Qed.

(** The octets of the segments. *)
Lemma group_octets_app l l' : group_octets (l ++ l') = group_octets l ++ group_octets l'.
Proof. unfold group_octets. by rewrite fmap_app, concat_app. Qed.

Lemma segments_octets n : forall l, length l = (2 * n)%nat -> Forall octet l ->
  length (segments l) = n /\ Forall segment (segments l) /\ group_octets (segments l) = l.
Proof.
  induction n as [|n IH]; intros l Hn Hl; [by destruct l|].
  destruct l as [|a [|b l]]; cbn in Hn; [lia..|].
  apply Forall_cons in Hl as [Ha [Hb Hl]%Forall_cons]. destruct (IH l ltac:(lia) Hl) as (Hlen & Hseg & Hoct).
  cbn [segments]. unfold octet in *. split_and!; [by cbn; rewrite Hlen|constructor; [unfold segment; lia|done]|].
  change (group_octets (a * 256 + b :: segments l)) with
    ((a * 256 + b) / 256 :: (a * 256 + b) mod 256 :: group_octets (segments l)).
  rewrite Hoct. f_equal; [|f_equal].
  - rewrite Z.div_add_l by lia. rewrite Z.div_small by lia. lia.
  - rewrite Z.add_comm, Z.mod_add by lia. by apply Z.mod_small.
Qed.

(** The compressed run is one of zeros. *)
Definition run (l : list Z) (r : nat * nat) : Prop :=
  (r.1 + r.2 <= length l)%nat /\ forall j, (r.1 <= j < r.1 + r.2)%nat -> l !! j = Some 0.

Lemma run_app l l' r : run l r -> run (l ++ l') r.
Proof.
  intros [Hn Hz]. split; [rewrite length_app; lia|]. intros j Hj. rewrite lookup_app_l by lia. by apply Hz.
Qed.

Lemma longest_zeros_run l : forall pre c o, run pre c -> c.2 = 0%nat \/ (c.1 + c.2 = length pre)%nat -> run pre o ->
  run (pre ++ l) (longest_zeros (length pre) c o l).
Proof.
  induction l as [|x l IH]; intros pre c o Hc Hi Ho; [by rewrite app_nil_r|]. cbn [longest_zeros].
  replace (pre ++ x :: l) with ((pre ++ [x]) ++ l) by (by rewrite <- app_assoc).
  replace (S (length pre)) with (length (pre ++ [x])) by (rewrite length_app; cbn; lia).
  destruct (Z.eqb_spec x 0) as [->|Hx].
  - set (c' := if (c.2 =? 0)%nat then (length pre, 1%nat) else (c.1, S c.2)).
    assert ((c'.1 + c'.2)%nat = length (pre ++ [0]) /\ run (pre ++ [0]) c') as [Hlen Hc'].
    { unfold c', run. rewrite length_app. destruct Hc as [Hn Hz].
      destruct (Nat.eqb_spec c.2 0); cbn in *; (split; [lia|]); (split; [lia|]); intros j Hj.
      - replace j with (length pre) by lia. by rewrite lookup_app_r, Nat.sub_diag by lia.
      - destruct (decide (j < length pre)%nat).
        + rewrite lookup_app_l by done. apply Hz. lia.
        + replace j with (length pre) by lia. by rewrite lookup_app_r, Nat.sub_diag by lia. }
    apply IH; [done|by right|]. destruct (o.2 <? c'.2)%nat; [done|by apply run_app].
  - apply IH; [|by left|by apply run_app]. split; cbn; [lia|intros j Hj; lia].
Qed.

Lemma run_split l r : run l r -> l = take r.1 l ++ replicate r.2 0 ++ drop (r.1 + r.2) l.
Proof.
  intros [Hn Hz]. rewrite <- (take_drop r.1 l) at 1. f_equal. rewrite <- (take_drop r.2 (drop r.1 l)) at 1.
  rewrite drop_drop. f_equal. symmetry. apply replicate_as_elem_of. split.
  - rewrite length_take, length_drop. lia.
  - intros y (j & Hj)%list_elem_of_lookup_1. apply lookup_take_Some in Hj as [Hj Hlt].
    rewrite lookup_drop in Hj. rewrite (Hz (r.1 + j)%nat) in Hj by lia. congruence.
Qed.

Lemma given_colons l : read_given_char 58 (58 :: l) = Some (tt, l).
Proof. done. Qed.

Lemma ipv6_text octets : length octets = 16%nat -> Forall octet octets ->
  read_ipv6_addr (as_bytes (ipv6_string octets)) = Some (octets, []).
Proof.
  intros Hn Ho. destruct (segments_octets 8 octets Hn Ho) as (Hlen & Hseg & Hoct).
  unfold ipv6_string. case_bool_decide as Hm.
  - rewrite as_bytes_append. change (as_bytes "::ffff:") with (58 :: 58 :: as_bytes "ffff:").
    assert (exists a b c d, drop 12 octets = [a; b; c; d] /\ Forall octet [a; b; c; d]) as (a & b & c & d & Hdr & Hf).
    { assert (length (drop 12 octets) = 4%nat) as Hl by (rewrite length_drop; lia).
      assert (Forall octet (drop 12 octets)) as Hf by (by apply Forall_drop).
      destruct (drop 12 octets) as [|a [|b [|c [|d [|]]]]]; try done. by exists a, b, c, d. }
    rewrite Hdr. unfold read_ipv6_addr. set (t := as_bytes (ipv4_string [a; b; c; d])).
    assert (read_groups 8 0 ((58 :: 58 :: as_bytes "ffff:") ++ t) = ([], false, (58 :: 58 :: as_bytes "ffff:") ++ t)) as ->
      by done.
    assert (read_groups 7 0 (as_bytes "ffff:" ++ t) = ([65535; a * 256 + b; c * 256 + d], true, [])) as Ht.
    { change (as_bytes "ffff:" ++ t) with ([102; 102; 102; 102] ++ 58 :: t). cbn [read_groups Nat.leb read_separator].
      rewrite (read_number_reads 16 4 true 65536 65535) by (done || by apply stops_cons).
      change (read_ipv4_addr ([102; 102; 102; 102] ++ 58 :: t)) with (@None (list Z * list Z)). cbn match.
      rewrite given_colons. cbn [mbind option_bind]. unfold t. rewrite <- (app_nil_r (as_bytes (ipv4_string _))).
      rewrite read_ipv4_printed by (done || apply stops_nil). done. }
    cbn [length Nat.eqb app]. rewrite given_colons. cbn [mbind option_bind]. rewrite given_colons.
    cbn [mbind option_bind Nat.add Nat.sub]. rewrite Ht. cbn [length Nat.sub app replicate]. do 2 f_equal.
    rewrite <- (take_drop 12 octets), Hm, Hdr.
    destruct (segments_octets 2 [a; b; c; d] eq_refl Hf) as (_ & _ & Hg).
    change [0; 0; 0; 0; 0; 65535; a * 256 + b; c * 256 + d] with
      ([0; 0; 0; 0; 0; 65535] ++ segments [a; b; c; d]).
    by rewrite group_octets_app, Hg.
  - set (l := segments octets) in *. assert (run l (longest_zeros 0 (0%nat, 0%nat) (0%nat, 0%nat) l)) as Hrun.
    { by apply (longest_zeros_run l []); [..|by left|]; (split; cbn; [lia|intros j Hj; lia]). }
    destruct (longest_zeros 0 (0%nat, 0%nat) (0%nat, 0%nat) l) as [start len].
    destruct (Nat.ltb_spec 1 len) as [Hlt|Hge].
    + pose proof (run_split _ _ Hrun) as Heq. destruct Hrun as [Hle _]. cbn [fst snd] in *. rewrite Hlen in Hle. rewrite !as_bytes_append, !join_text. change (as_bytes "::") with [58; 58].
      set (hd := take start l) in *. set (tl := drop (start + len) l) in *.
      assert (length hd = start) as Hhd by (unfold hd; rewrite length_take; lia).
      assert (length tl = (8 - (start + len))%nat) as Htl by (unfold tl; rewrite length_drop; lia).
      assert (Forall segment hd /\ Forall segment tl) as [Hsh Hst] by (split; [by apply Forall_take|by apply Forall_drop]).
      unfold read_ipv6_addr. rewrite read_groups_printed; [|done|lia|right; by eexists|].
      2: { cbn. rewrite !not_elem_of_cons. split_and!; [done|done|by apply groups_no_dot]. }
      rewrite Hhd. destruct (Nat.eqb_spec start 8); [lia|]. cbn [app].
      rewrite given_colons. cbn [mbind option_bind]. rewrite given_colons. cbn [mbind option_bind].
      rewrite <- (app_nil_r (groups_text 0 tl)).
      rewrite read_groups_printed; [|done|lia|by left|apply not_elem_of_nil].
      replace (8 - start - length tl)%nat with len by lia. by rewrite <- Heq, Hoct.
    + rewrite join_text, <- (app_nil_r (groups_text 0 l)). unfold read_ipv6_addr.
      rewrite read_groups_printed; [|done|lia|by left|apply not_elem_of_nil]. rewrite Hlen. cbn. by rewrite Hoct.
Qed.

Definition wf (a : IpAddr) : Prop :=
  match a with
  | V4 l => length l = 4%nat /\ Forall octet l
  | V6 l => length l = 16%nat /\ Forall octet l
  end.

(** The text of an IPv6 address is not that of an IPv4 address. *)
Lemma ipv6_not_ipv4 octets : length octets = 16%nat -> Forall octet octets ->
  read_ipv4_addr (as_bytes (ipv6_string octets)) = None.
Proof.
  intros Hn Ho. destruct (segments_octets 8 octets Hn Ho) as (_ & Hseg & _).
  unfold ipv6_string. case_bool_decide; [rewrite as_bytes_append; done|].
  destruct (longest_zeros _ _ _ _) as [start len]. apply read_ipv4_dot. destruct (1 <? len)%nat.
  - rewrite !as_bytes_append, !join_text, !elem_of_app. change (as_bytes "::") with [58; 58].
    rewrite !not_elem_of_cons || idtac. intros [Hin|[Hin|Hin]].
    + eapply groups_no_dot, Hin. by apply Forall_take.
    + apply elem_of_cons in Hin as [?|Hin]; [done|]. by apply list_elem_of_singleton in Hin.
    + eapply groups_no_dot, Hin. by apply Forall_drop.
  - rewrite join_text. by apply groups_no_dot.
Qed.

(** ** The characters of an address *)

Definition ip_char (c : Z) : Prop := is_Some (to_digit 16 c) \/ c = 58 \/ c = 46.

Lemma colon_char : ip_char 58.
Proof. by right; left. Qed.
#[local] Hint Resolve colon_char : core.

Lemma reads_chars radix m zero bound x ds : radix <= 16 -> reads radix m zero bound x ds = true -> Forall ip_char ds.
Proof.
  intros Hr. unfold reads. rewrite !andb_true_iff. intros [[[[[Hd _] _] _] _] _]. apply Forall_forall. intros c Hc.
  rewrite forallb_forall in Hd. apply list_elem_of_In, Hd in Hc. apply bool_decide_eq_true_1 in Hc as [d Hc].
  left. revert Hc. unfold to_digit. cbn zeta.
  match goal with |- context [if ?b then Some ?x else ?y] => destruct (if b then Some x else y) as [v|]; [|done] end. cbn.
  destruct (Z.ltb_spec v radix); [|done]. destruct (Z.ltb_spec v 16); [by eexists|lia].
Qed.

Lemma ipv4_chars l : Forall octet l -> Forall ip_char (as_bytes (ipv4_string l)).
Proof.
  intros Hl. unfold ipv4_string. destruct Hl as [|x l Hx Hl]; [constructor|]. cbn [fmap list_fmap join].
  assert (forall y, octet y -> Forall ip_char (as_bytes (pretty y))) as Hc
    by (intros y Hy; by apply (reads_chars 10 3 false 256 y), octet_reads).
  rewrite as_bytes_append. apply Forall_app. split; [by apply Hc|].
  induction Hl as [|y l Hy _ IH]; [constructor|]. cbn [fmap list_fmap foldr]. rewrite !as_bytes_append.
  change (as_bytes ".") with [46]. constructor; [by right; right|]. apply Forall_app. by split; [apply Hc|].
Qed.

Lemma groups_chars l : Forall segment l -> forall i, Forall ip_char (groups_text i l).
Proof.
  induction 1 as [|x l Hx _ IH]; intros i; [constructor|]. cbn [groups_text]. rewrite !Forall_app. split_and!; [|..|apply IH].
  - destruct (i =? 0)%nat; auto using Forall_cons_2, Forall_nil_2.
  - by apply (reads_chars 16 4 true 65536 x), segment_reads.
Qed.

Lemma ip_string_chars a : wf a -> Forall ip_char (as_bytes (ip_string a)).
Proof.
  assert (Forall ip_char [58; 58]) as Hcc by auto using Forall_cons_2, Forall_nil_2.
  destruct a as [l|l]; intros [Hn Ho]; cbn [ip_string]; [by apply ipv4_chars|].
  destruct (segments_octets 8 l Hn Ho) as (_ & Hseg & _). unfold ipv6_string. case_bool_decide.
  - rewrite as_bytes_append. apply Forall_app. split; [|by apply ipv4_chars, Forall_drop].
    change (as_bytes "::ffff:") with [58; 58; 102; 102; 102; 102; 58].
    assert (ip_char 102) by (left; by eexists). auto 10 using Forall_cons_2, Forall_nil_2.
  - destruct (longest_zeros _ _ _ _) as [start len]. destruct (1 <? len)%nat.
    + rewrite !as_bytes_append, !join_text. apply Forall_app. split; [by apply groups_chars, Forall_take|].
      apply Forall_app. split; [exact Hcc|by apply groups_chars, Forall_drop].
    + rewrite join_text. by apply groups_chars.
Qed.

(** An address is read back from its text. *)
Lemma parse_ip_string a : wf a -> parse_ip (ip_string a) = Some a.
Proof.
  destruct a as [l|l]; intros [Hn Ho]; unfold parse_ip, read_ip_addr; cbn [ip_string].
  - destruct l as [|a [|b [|c [|d [|]]]]]; try done.
    rewrite <- (app_nil_r (as_bytes _)), read_ipv4_printed by (done || apply stops_nil). done.
  - by rewrite ipv6_not_ipv4, ipv6_text.
Qed.

(** ** Numbers and pieces *)

Lemma u8_pretty x : octet x -> u8_from_str_radix 10 (as_bytes (pretty x)) = inr x.
Proof.
  intros Hx. assert (forallb (fun x => match u8_from_str_radix 10 (as_bytes (pretty x)) with
                                       | inr y => x =? y | inl _ => false end) (seqZ 0 256) = true) as Ha
    by (vm_compute; reflexivity).
  rewrite forallb_forall in Ha. specialize (Ha x). destruct (u8_from_str_radix 10 _).
  - discriminate Ha. apply list_elem_of_In, elem_of_seqZ. unfold octet in Hx. lia.
  - f_equal. symmetry. apply Z.eqb_eq, Ha, list_elem_of_In, elem_of_seqZ. unfold octet in Hx. lia.
Qed.

Lemma split_once_app c l r : c ∉ l -> split_once c (l ++ c :: r) = Some (l, r).
Proof.
  induction l as [|x l IH]; cbn; intros Hl; [by rewrite Z.eqb_refl|].
  rewrite not_elem_of_cons in Hl. destruct (Z.eqb_spec x c); [by destruct Hl|].
  rewrite IH by apply Hl. done.
Qed.

Lemma split_once_some c l a b : split_once c l = Some (a, b) -> l = a ++ c :: b /\ c ∉ a.
Proof.
  revert a b. induction l as [|x l IH]; cbn; intros a b; [done|].
  destruct (Z.eqb_spec x c) as [->|].
  - intros [= <- <-]. split; [done|apply not_elem_of_nil].
  - destruct (split_once c l) as [[a' b']|]; [|done]. intros [= <- <-].
    destruct (IH _ _ eq_refl) as [-> ?]. split; [done|]. by apply not_elem_of_cons.
Qed.

Lemma split_last c l : c ∉ l -> split c l = [l].
Proof.
  induction l as [|x l IH]; [done|]. rewrite not_elem_of_cons. intros [Hx Hl]. cbn.
  destruct (Z.eqb_spec x c); [congruence|]. by rewrite IH.
Qed.

Lemma split_app c l r : c ∉ l -> split c (l ++ c :: r) = l :: split c r.
Proof.
  induction l as [|x l IH]; cbn; [by rewrite Z.eqb_refl|]. rewrite not_elem_of_cons. intros [Hx Hl].
  destruct (Z.eqb_spec x c); [congruence|]. by rewrite IH.
Qed.

(** A text that starts and ends with a graphic ASCII character is not trimmed. *)
Definition graphic (c : Z) : Prop := 33 <= c < 127.

Lemma trim_start_graphic c l : graphic c -> trim_start (c :: l) = c :: l.
Proof.
  unfold graphic. intros Hc. cbn [trim_start]. unfold space1, space2, space3.
  replace ((9 <=? c) && (c <=? 13) || (c =? 32)) with false by lia.
  destruct l as [|d [|e l]]; [done| |].
  - by replace ((c =? 194) && ((d =? 133) || (d =? 160))) with false by lia.
  - replace ((c =? 194) && ((d =? 133) || (d =? 160))) with false by lia.
    destruct (_ || _) eqn:Hs; [|done]. lia.
Qed.

Lemma trim_last_graphic c l : graphic c -> trim_last (c :: l) = c :: l.
Proof.
  unfold graphic. intros Hc. cbn [trim_last]. unfold space1, space2, space3.
  replace ((9 <=? c) && (c <=? 13) || (c =? 32)) with false by lia.
  destruct l as [|d [|e l]]; [done| |].
  - destruct (_ && _) eqn:Hs; [|done]. lia.
  - do 2 (match goal with |- (if ?b then _ else _) = _ => destruct b eqn:?; [exfalso; lia|] end). done.
Qed.

Lemma trim_graphic l : Forall graphic l -> trim l = l.
Proof.
  intros Hl. unfold trim. destruct l as [|c l]; [done|].
  rewrite trim_start_graphic by (by inversion Hl).
  destruct (reverse (c :: l)) as [|d r] eqn:Hr.
  { apply (f_equal length) in Hr. rewrite length_reverse in Hr. discriminate Hr. }
  rewrite trim_last_graphic; [rewrite <- Hr; apply reverse_involutive|].
  assert (d ∈ c :: l) as Hd by (apply elem_of_reverse; rewrite Hr; left).
  rewrite Forall_forall in Hl. by apply Hl.
Qed.

Lemma ip_char_graphic c : ip_char c -> graphic c.
Proof.
  unfold ip_char, graphic, to_digit. intros [[d Hd]|[->| ->]]; [|lia|lia].
  repeat case_match; simplify_eq; lia.
Qed.

End IpTextFacts.
