(* ===== verification/Eap.v ===== *)
(** * EAP and EAPOL

    The EAP packet codec and peer state machine of [src/src/core/eap.rs] and
    the EAPOL framing of [src/src/core/eapol.rs].  [Module EapPacket] is the
    codec, [Module EapolEapFrame] the framing around it and [Module EapPeer]
    the state machine; the [EapMethod] trait is the class of the same name, so
    the peer's theorems hold for every method (EAP-TLS is an instance). *)

From S2P Require Import Prelude Errors.

Definition CODE_REQUEST : Z := 1.
Definition CODE_RESPONSE : Z := 2.
Definition CODE_SUCCESS : Z := 3.
Definition CODE_FAILURE : Z := 4.

Definition TYPE_IDENTITY : Z := 1.
Definition TYPE_NOTIFICATION : Z := 2.
Definition TYPE_NAK : Z := 3.
Definition TYPE_TLS : Z := 13.

Definition EAP_HDR_LEN : nat := 4.
Definition MSK_LEN : nat := 64.

(** ** The packet codec *)

Module EapPacket.

Record t := mk {
  code : Z;
  identifier : Z;
  type_ : option Z;
  body : list Z;
}.

#[global] Instance t_eq_dec : EqDecision t.
Proof. solve_decision. Defined.

(** [usize::from(type_.is_some())]. *)
Definition type_len (type_ : option Z) : Z :=
  match type_ with Some _ => 1 | None => 0 end.

(** [EapPacket::build]; the length is cast to [u16] without a check. *)
Definition build (code identifier : Z) (type_ : option Z) (body : list Z)
  : list Z :=
  let length := Z.of_nat EAP_HDR_LEN + type_len type_ + zlen body in
  [code; identifier] ++ to_be 2 (as_u16 length)
    ++ match type_ with Some t => [t] | None => [] end
    ++ body.

(** [EapPacket::parse]. *)
Definition parse (pdu : list Z) : outcome WifiError.t (option t) :=
  if (length pdu <? EAP_HDR_LEN)%nat then Ok None else
  code ← idx pdu 0;
  identifier ← idx pdu 1;
  len ← be16_at pdu 2;
  let len := usize len in
  if negb ((EAP_HDR_LEN <=? len)%nat && (len <=? length pdu)%nat) then Ok None
  else
    let finish type_ body_start :=
      body ← slice pdu body_start len;
      Ok (Some {| code := code; identifier := identifier;
                  type_ := type_; body := body |}) in
    if (code =? CODE_SUCCESS) || (code =? CODE_FAILURE) then
      if negb (len =? EAP_HDR_LEN)%nat then Ok None
      else finish None EAP_HDR_LEN
    else if (code =? CODE_REQUEST) || (code =? CODE_RESPONSE) then
      if (len <? EAP_HDR_LEN + 1)%nat then Ok None
      else t ← idx pdu 4; finish (Some t) (EAP_HDR_LEN + 1)%nat
    else Ok None.

Definition is_success (p : t) : bool := code p =? CODE_SUCCESS.
Definition is_failure (p : t) : bool := code p =? CODE_FAILURE.

(** The wire form of a packet value. *)
Definition encode (p : t) : list Z :=
  build (code p) (identifier p) (type_ p) (body p).

(** The packets of RFC 3748: a Request or Response carries a Type, a Success
    or Failure carries nothing, and the whole packet fits the length field. *)
Definition wf (p : t) : Prop :=
  ((code p = CODE_REQUEST \/ code p = CODE_RESPONSE) /\ is_Some (type_ p)
   \/ (code p = CODE_SUCCESS \/ code p = CODE_FAILURE)
      /\ type_ p = None /\ body p = [])
  /\ fits 16 (Z.of_nat EAP_HDR_LEN + type_len (type_ p) + zlen (body p)).

End EapPacket.

(** ** EAPOL framing *)

Module EapolEapFrame.

Definition EAPOL_VERSION : Z := 2.
Definition EAPOL_TYPE_EAP : Z := 0.

Definition build (eap : list Z) : list Z :=
  [EAPOL_VERSION; EAPOL_TYPE_EAP] ++ to_be 2 (as_u16 (zlen eap)) ++ eap.

(** [EapolEapFrame::parse]; the frame is its payload. *)
Definition parse (pdu : list Z) : outcome WifiError.t (option (list Z)) :=
  if (length pdu <? 4)%nat then Ok None else
  ty ← idx pdu 1;
  if negb (ty =? EAPOL_TYPE_EAP) then Ok None else
  len ← be16_at pdu 2;
  let len := usize len in
  if (length pdu <? 4 + len)%nat then Ok None
  else payload ← slice pdu 4 (4 + len); Ok (Some payload).

End EapolEapFrame.

(** ** The EAP method interface *)

(** [trait EapMethod].  [handle_request] takes [&mut self]: it returns the new
    method state also when it fails. *)
Class EapMethod (M : Type) := {
  method_type : M -> Z;
  handle_request : M -> Z -> list Z -> M * outcome WifiError.t (list Z);
  msk : M -> option (list Z);
  success_indication_received : M -> bool;
}.

(** ** The peer state machine *)

Inductive EapAction :=
| Respond (pdu : list Z)
| Success
| Failure
| Wait.

#[global] Instance EapAction_eq_dec : EqDecision EapAction.
Proof. solve_decision. Defined.

Module EapPeer.

Section peer.
Context {M : Type} `{EapMethod M}.

Record t := mk {
  identity : list Z;
  method : option M;
  supported_types : list Z;
  last_request : option EapPacket.t;
  last_response : option (list Z);
}.

Definition new (identity : list Z) : t :=
  {| identity := identity; method := None; supported_types := [];
     last_request := None; last_response := None |}.

Definition set_method (p : t) (m : M) : t :=
  {| identity := identity p; method := Some m;
     supported_types := [method_type m];
     last_request := last_request p; last_response := last_response p |}.

(** [EapPeer::msk]. *)
Definition peer_msk (p : t) : option (list Z) := method p ≫= msk.

(** [self.last_request = ..; self.last_response = ..]. *)
Definition remember (p : t) (packet : EapPacket.t) (response : list Z) : t :=
  {| identity := identity p; method := method p;
     supported_types := supported_types p;
     last_request := Some packet; last_response := Some response |}.

Definition with_method (p : t) (m : M) : t :=
  {| identity := identity p; method := Some m;
     supported_types := supported_types p;
     last_request := last_request p; last_response := last_response p |}.

(** The [match type_] of [handle_packet]: the peer after the method ran, and
    the framed response ([None] for [TYPE_NAK], which answers nothing). *)
Definition answer (p : t) (packet : EapPacket.t) (type_ : Z)
  : t * outcome WifiError.t (option (list Z)) :=
  let id := EapPacket.identifier packet in
  let nak :=
    EapPacket.build CODE_RESPONSE id (Some TYPE_NAK)
      (filter (fun ty => ty <> TYPE_IDENTITY /\ ty <> TYPE_NAK)
         (supported_types p)) in
  if type_ =? TYPE_IDENTITY then
    (p, Ok (Some (EapPacket.build CODE_RESPONSE id (Some TYPE_IDENTITY)
                    (identity p))))
  else if type_ =? TYPE_NOTIFICATION then
    (p, Ok (Some (EapPacket.build CODE_RESPONSE id (Some TYPE_NOTIFICATION) [])))
  else if type_ =? TYPE_NAK then (p, Ok None)
  else
    match method p with
    | Some m =>
        if method_type m =? type_ then
          let (m', r) := handle_request m id (EapPacket.body packet) in
          (with_method p m',
           body ← r;
           Ok (Some (EapPacket.build CODE_RESPONSE id (Some type_) body)))
        else (p, Ok (Some nak))
    | None => (p, Ok (Some nak))
    end.

(** [EapPeer::handle_packet]. *)
Definition handle_packet (p : t) (packet : EapPacket.t)
  : t * outcome WifiError.t EapAction :=
  if EapPacket.is_success packet || EapPacket.is_failure packet then
    if match last_request p with
       | Some r => negb (EapPacket.identifier r =? EapPacket.identifier packet)
       | None => false
       end
    then (p, Ok Wait)
    else if EapPacket.is_success packet then
      if match method p with
         | Some m => negb (success_indication_received m)
         | None => false
         end
      then (p, Ok Wait)
      else (p, Ok Success)
    else (p, Ok Failure)
  else if negb (EapPacket.code packet =? CODE_REQUEST) then (p, Ok Wait)
  else
    match bool_decide (last_request p = Some packet), last_response p with
    | true, Some response => (p, Ok (Respond response))
    | _, _ =>
        match EapPacket.type_ packet with
        | None => (p, handshake_failed "EAP Request without a Type")
        | Some type_ =>
            match answer p packet type_ with
            | (p', Ok (Some response)) =>
                (remember p' packet response, Ok (Respond response))
            | (p', Ok None) => (p', Ok Wait)
            | (p', Err e) => (p', Err e)
            | (p', Panic) => (p', Panic)
            | (p', Diverge) => (p', Diverge)
            end
        end
    end.

(** A sequence of packets from the authenticator, with the actions taken. *)
Fixpoint run (p : t) (packets : list EapPacket.t)
  : t * list (outcome WifiError.t EapAction) :=
  match packets with
  | [] => (p, [])
  | packet :: rest =>
      let (p1, a) := handle_packet p packet in
      let (p2, as_) := run p1 rest in
      (p2, a :: as_)
  end.

End peer.
Arguments t M : clear implicits.

End EapPeer.

(** ** Facts about the packet codec *)

Module EapPacketFacts.
Import EapPacket.

Ltac codes :=
  unfold CODE_REQUEST, CODE_RESPONSE, CODE_SUCCESS, CODE_FAILURE,
    EAP_HDR_LEN in *.

(** The shape of a packet by its first octets. *)
Lemma parse_hdr c i hi lo r :
  parse (c :: i :: hi :: lo :: r) =
  let len := usize (from_be [hi; lo]) in
  if negb ((4 <=? len)%nat && (len <=? 4 + length r)%nat) then Ok None
  else if (c =? CODE_SUCCESS) || (c =? CODE_FAILURE) then
    if negb (len =? 4)%nat then Ok None
    else Ok (Some {| code := c; identifier := i; type_ := None; body := [] |})
  else if (c =? CODE_REQUEST) || (c =? CODE_RESPONSE) then
    match r with
    | [] => Ok None
    | t :: b =>
        if (len <? 5)%nat then Ok None
        else Ok (Some {| code := c; identifier := i; type_ := Some t;
                         body := take (len - 5) b |})
    end
  else Ok None.
Proof.
  cbv zeta. unfold parse, be16_at, EAP_HDR_LEN. if_lia.
  unfold idx; cbn [lookup list_lookup Nat.add mbind outcome_bind].
  set (len := usize (from_be [hi; lo])).
  cbn [length].
  destruct (negb ((4 <=? len)%nat && _)) eqn:Hr; [done|].
  destruct ((c =? CODE_SUCCESS) || (c =? CODE_FAILURE)).
  - destruct (negb (len =? 4)%nat) eqn:H4; [done|].
    replace len with 4%nat by lia. done.
  - destruct ((c =? CODE_REQUEST) || (c =? CODE_RESPONSE)); [|done].
    destruct r as [|t b].
    { cbn [length] in *. replace (len <? 5)%nat with true by lia. done. }
    destruct (len <? 5)%nat eqn:H5; [done|]. cbn [idx lookup list_lookup mbind outcome_bind].
    cbn [length] in *. rewrite slice_in; [done|]. cbn [length]. lia.
Qed.

Lemma encode_hdr c i ty b hi lo :
  bytes [hi; lo] -> 4 + type_len ty + zlen b = from_be [hi; lo] ->
  encode {| code := c; identifier := i; type_ := ty; body := b |} =
  c :: i :: hi :: lo :: match ty with Some t => [t] | None => [] end ++ b.
Proof.
  intros Hb Hn. pose proof (from_be_bound _ Hb) as Hbd. cbn in Hbd.
  unfold encode, build. cbn [code identifier type_ body]. codes.
  change (Z.of_nat 4) with 4. rewrite Hn, wrap_small by done.
  change 2%nat with (length [hi; lo]). by rewrite to_be_from_be.
Qed.

(** A buffer that parses starts with the encoding of the packet. *)
Lemma parse_sound pdu p :
  bytes pdu -> parse pdu = Ok (Some p) ->
  wf p /\ exists tail, pdu = encode p ++ tail.
Proof.
  intros Hb. destruct pdu as [|c [|i [|hi [|lo r]]]]; try done.
  rewrite parse_hdr. cbv zeta.
  assert (Hhl : bytes [hi; lo]) by (unfold bytes in *; decompose_Forall; eauto).
  pose proof (from_be_bound _ Hhl) as Hbd. unfold zlen in Hbd. cbn [length] in Hbd.
  destruct (negb _) eqn:Hr; [done|]. destruct (_ || _) eqn:Hc1.
  - destruct (negb (_ =? 4)%nat) eqn:H4; [done|]. intros [= <-]. codes. split.
    + split; [right|done]; codes; cbn; split; [lia|done].
    + exists r. erewrite encode_hdr; [done|done|]. cbn [type_len]. len_lia.
  - destruct ((c =? CODE_REQUEST) || _) eqn:Hc2; [|done].
    destruct r as [|t b]; [done|]. destruct (_ <? 5)%nat eqn:H5; [done|].
    intros [= <-]. codes.
    assert (Hz : 4 + 1 + zlen (take (usize (from_be [hi; lo]) - 5) b) = from_be [hi; lo])
      by len_lia.
    split.
    + split; [left|]; codes;
        cbn [code identifier type_ body type_len]; [split; [lia|by eexists]|].
      change (Z.of_nat 4) with 4. by rewrite Hz.
    + exists (drop (usize (from_be [hi; lo]) - 5) b).
      erewrite encode_hdr; [|done|exact Hz]. cbn [app]. by rewrite take_drop.
Qed.

(** The encoding of a well-formed packet parses back, whatever follows it. *)
Lemma parse_complete p tail : wf p -> parse (encode p ++ tail) = Ok (Some p).
Proof.
  intros [Hk Hlen]. pose proof (from_be_to_be_small 2 _ Hlen) as Hn.
  pose proof (bytes_to_be 2) as Hb.
  destruct p as [c i ty b]; cbn [code identifier type_ body] in *.
  specialize (Hb (Z.of_nat EAP_HDR_LEN + type_len ty + zlen b)).
  rewrite to_be_2 in Hn, Hb. symmetry in Hn.
  rewrite (encode_hdr c i ty b _ _ Hb Hn). symmetry in Hn.
  cbn [app]. rewrite parse_hdr. cbv zeta. rewrite Hn.
  destruct Hk as [[Hc [t ->]] | (Hc & -> & ->)]; cbn [type_len app] in *; codes.
  - do 4 if_lia. do 3 f_equal.
    replace (_ - 5)%nat with (length b) by len_lia. by rewrite take_app_length.
  - by repeat if_lia.
Qed.

Lemma parse_returns pdu : returns (parse pdu).
Proof. unfold parse; codes. returns_tac. Qed.

End EapPacketFacts.

Module EapolFacts.
Import EapolEapFrame.

Lemma eapol_parse_returns pdu : returns (parse pdu).
Proof. unfold parse. returns_tac. Qed.

Lemma eapol_parse_complete eap tail :
  fits 16 (zlen eap) -> parse (build eap ++ tail) = Ok (Some eap).
Proof.
  intros Hlen. unfold parse, build. rewrite wrap_small by done.
  rewrite <- !app_assoc. pose proof (length_to_be 2 (zlen eap)).
  if_lia. unfold idx. cbn [lookup list_lookup app mbind outcome_bind].
  change (negb (EAPOL_TYPE_EAP =? EAPOL_TYPE_EAP)) with false. cbv iota.
  change (EAPOL_VERSION :: EAPOL_TYPE_EAP :: ?l)
    with ([EAPOL_VERSION; EAPOL_TYPE_EAP] ++ l).
  rewrite (be16_mid [EAPOL_VERSION; EAPOL_TYPE_EAP]) by done.
  cbn [mbind outcome_bind]. if_lia.
  rewrite app_assoc, slice_mid; [done|len_lia..].
Qed.

Lemma eapol_parse_sound pdu eap :
  bytes pdu -> parse pdu = Ok (Some eap) ->
  fits 16 (zlen eap) /\
  exists v tail, pdu = v :: drop 1 (build eap) ++ tail.
Proof.
  intros Hb. destruct pdu as [|v [|ty [|hi [|lo r]]]]; try done.
  assert (Hhl : bytes [hi; lo]) by (unfold bytes in *; decompose_Forall; eauto).
  pose proof (from_be_bound _ Hhl) as Hbd. unfold zlen in Hbd. cbn [length] in Hbd.
  pose proof (to_be_from_be _ Hhl) as Hrt. cbn [length] in Hrt.
  unfold parse, be16_at, idx. if_lia.
  cbn [lookup list_lookup mbind outcome_bind Nat.add].
  destruct (negb (ty =? EAPOL_TYPE_EAP)) eqn:Hty; [done|].
  set (n := from_be [hi; lo]) in *.
  destruct (_ <? _)%nat eqn:Hl; [done|]. cbn [length] in Hl.
  rewrite slice_in by len_lia. intros [= <-].
  rewrite drop_0, Nat.sub_0_r. assert (Hz : zlen (take (usize n) r) = n) by len_lia.
  rewrite Hz. split; [done|]. exists v, (drop (usize n) r).
  unfold build. rewrite Hz, wrap_small by done. cbn [app drop].
  rewrite Hrt. unfold EAPOL_TYPE_EAP in *. cbn [app].
  rewrite take_drop. do 2 f_equal. lia.
Qed.

End EapolFacts.

(** ** The peer *)

Module EapPeerFacts.
Import EapPeer.

Section peer_facts.
Context {M : Type} `{EapMethod M}.
Implicit Types p : EapPeer.t M.

Definition is_request (packet : EapPacket.t) : Prop :=
  EapPacket.code packet = CODE_REQUEST.

(** The framed response of [answer] is an EAP Response to that request. *)
Lemma answer_shape p packet ty p' r :
  answer p packet ty = (p', Ok (Some r)) ->
  exists ty' b, r = EapPacket.build CODE_RESPONSE
                      (EapPacket.identifier packet) (Some ty') b
                /\ (ty' = ty \/ ty' = TYPE_NAK).
Proof.
  unfold answer. intros Ha.
  repeat (case_match; try (by simplify_eq);
          try (simplify_eq; eexists _, _; split; [done|];
               first [by right | left; lia])).
  injection Ha as _ Ha. apply bind_ok in Ha as (b & _ & [= <-]). eauto.
Qed.

Lemma answer_cache p packet ty p' r :
  answer p packet ty = (p', r) ->
  last_request p' = last_request p /\ last_response p' = last_response p
  /\ identity p' = identity p /\ supported_types p' = supported_types p.
Proof. unfold answer. intros Ha. by repeat (case_match; simplify_eq/=). Qed.

(** What [handle_packet] can answer with a Response. *)
Lemma respond_inv p packet p' r :
  handle_packet p packet = (p', Ok (Respond r)) ->
  is_request packet /\
  (p' = p /\ last_request p = Some packet /\ last_response p = Some r
   \/ exists ty q, EapPacket.type_ packet = Some ty
        /\ answer p packet ty = (q, Ok (Some r))
        /\ p' = remember q packet r).
Proof.
  unfold handle_packet, is_request. intros Hh.
  destruct (_ || _) eqn:Hsf; [by repeat (case_match; simplify_eq)|].
  destruct (negb _) eqn:Hreq; [by simplify_eq|]. split; [lia|].
  destruct (bool_decide _) eqn:Hd, (last_response p) eqn:Hl;
    try (left; apply bool_decide_eq_true in Hd; by simplify_eq);
    right; repeat (case_match; simplify_eq); eauto 10.
Qed.

Lemma replay p packet r :
  is_request packet -> last_request p = Some packet ->
  last_response p = Some r ->
  handle_packet p packet = (p, Ok (Respond r)).
Proof.
  unfold is_request, handle_packet, EapPacket.is_success, EapPacket.is_failure.
  intros Hc Hq Hr. rewrite Hc. cbn. rewrite bool_decide_true by done.
  by rewrite Hr.
Qed.

(** The peers of a running supplicant: created, given a method, fed packets. *)
Inductive reachable : EapPeer.t M -> Prop :=
| reach_new id : reachable (new id)
| reach_set_method p m : reachable p -> reachable (set_method p m)
| reach_packet p packet :
    reachable p -> reachable (fst (handle_packet p packet)).

(** The replay cache answers the request it belongs to. *)
Definition cache_ok (p : EapPeer.t M) : Prop :=
  match last_request p, last_response p with
  | None, None => True
  | Some q, Some r =>
      is_request q /\
      exists ty b, r = EapPacket.build CODE_RESPONSE
                         (EapPacket.identifier q) (Some ty) b
                   /\ (Some ty = EapPacket.type_ q \/ ty = TYPE_NAK)
  | _, _ => False
  end.

Lemma cache_ok_frame p q :
  last_request q = last_request p -> last_response q = last_response p ->
  cache_ok p -> cache_ok q.
Proof. unfold cache_ok. by intros -> ->. Qed.

(** A packet that gets no Response leaves the replay cache alone. *)
Lemma no_respond_cache p packet p' a :
  handle_packet p packet = (p', a) -> (forall r, a <> Ok (Respond r)) ->
  last_request p' = last_request p /\ last_response p' = last_response p.
Proof.
  unfold handle_packet. intros Hh Hn.
  repeat (case_match; simplify_eq; try done); try (by destruct (Hn _ eq_refl));
    match goal with
    | Ha : answer _ _ _ = _ |- _ => apply answer_cache in Ha as (? & ? & _)
    end; split; congruence.
Qed.

Lemma handle_packet_cache p packet :
  cache_ok p -> cache_ok (fst (handle_packet p packet)).
Proof.
  intros Hc. destruct (handle_packet p packet) as [p' a] eqn:Hh. cbn.
  destruct a as [[r| | |]|e| |] eqn:Ha;
    try (eapply no_respond_cache in Hh as [? ?];
         [by eapply cache_ok_frame | done]).
  apply respond_inv in Hh as [Hreq [(-> & _)|(ty & q & Hty & Hans & ->)]];
    [done|].
  apply answer_shape in Hans as (ty' & b & -> & Hor). unfold cache_ok. cbn.
  split; [done|]. eexists _, _. split; [done|]. rewrite Hty.
  destruct Hor as [-> | ->]; auto.
Qed.

Lemma reachable_cache p : reachable p -> cache_ok p.
Proof.
  induction 1 as [id|p m Hr IH|p packet Hr IH]; [done|done|].
  by apply handle_packet_cache.
Qed.

(** A retransmitted Request is answered by replaying the Response: the
    peer (method state included) does not change and the octets are the
    same, so an EAP-TLS fragment is never consumed twice. *)
Theorem eap_retransmit_idempotent p packet p' r :
  handle_packet p packet = (p', Ok (Respond r)) ->
  handle_packet p' packet = (p', Ok (Respond r)).
Proof.
  intros [Hreq [(-> & Hq & Hr)|(ty & q & _ & _ & ->)]]%respond_inv;
    by apply replay.
Qed.

Lemma success_iff p packet p' :
  handle_packet p packet = (p', Ok Success) <->
  p' = p /\ EapPacket.code packet = CODE_SUCCESS
  /\ (forall q, last_request p = Some q ->
        EapPacket.identifier q = EapPacket.identifier packet)
  /\ (forall m, method p = Some m -> success_indication_received m = true).
Proof.
  unfold handle_packet, EapPacket.is_success, EapPacket.is_failure.
  split.
  - intros Hh. repeat (case_match; simplify_eq; try done);
      (split_and!; [done|lia|intros ? [= <-]; lia..]) ||
      (split_and!; try done; try lia; intros ? [= <-];
       first [lia | by destruct (success_indication_received _)]).
  - intros (-> & Hc & Hq & Hm). rewrite Hc. cbn.
    destruct (last_request p) as [q|]; [rewrite (Hq q), Z.eqb_refl by done|];
      cbn; (destruct (method p) as [m|]; [by rewrite (Hm m)|done]).
Qed.

(** C8: Success is reported exactly for an EAP-Success whose identifier is
    that of the last Request, when a Request was seen (before the first one any
    identifier will do), and, when a method is installed, after the method's
    protected success indication (without a method none is asked for): a peer
    with neither takes an unsolicited EAP-Success.  The peer does not change. *)
Theorem eap_success_iff p packet p' :
  handle_packet p packet = (p', Ok Success) <->
  p' = p /\ EapPacket.code packet = CODE_SUCCESS
  /\ (forall q, last_request p = Some q ->
        EapPacket.identifier q = EapPacket.identifier packet)
  /\ (forall m, method p = Some m -> success_indication_received m = true).
Proof. apply success_iff. Qed.

(** Every Response the peer sends in a reachable state is, on the wire,
    a Response packet with the identifier of the Request being answered and
    with that Request's Type or Nak (for a packet that fits the 16-bit length
    field). *)
Theorem eap_response_answers_request p packet p' r :
  reachable p ->
  handle_packet p packet = (p', Ok (Respond r)) ->
  fits 16 (zlen r) ->
  exists ty b,
    EapPacket.parse r =
      Ok (Some (EapPacket.mk CODE_RESPONSE (EapPacket.identifier packet)
                  (Some ty) b))
    /\ (Some ty = EapPacket.type_ packet \/ ty = TYPE_NAK).
Proof.
  intros Hreach Hh Hlen. apply (reach_packet _ packet) in Hreach.
  rewrite Hh in Hreach. apply reachable_cache in Hreach. cbn in Hreach.
  assert (last_request p' = Some packet /\ last_response p' = Some r) as [Hq Hr].
  { by apply respond_inv in Hh as [_ [(-> & ? & ?)|(ty & q & _ & _ & ->)]]. }
  unfold cache_ok in Hreach. rewrite Hq, Hr in Hreach.
  destruct Hreach as (_ & ty & b & -> & Hty). exists ty, b.
  split; [|done]. rewrite <- (app_nil_r (EapPacket.build _ _ _ _)).
  change (EapPacket.build ?c ?i ?t ?b)
    with (EapPacket.encode (EapPacket.mk c i t b)).
  apply EapPacketFacts.parse_complete. split; [left; eauto|].
  unfold EapPacket.build, EAP_HDR_LEN in *. cbn [EapPacket.type_ EapPacket.body EapPacket.type_len]. len_lia.
Qed.

(** The method's state moves only on a Request of the method's own type
    that is not a replay, and then exactly by one call of [handle_request] on
    that Request; every other packet leaves the method alone. *)
Theorem eap_method_step p packet p' a :
  handle_packet p packet = (p', a) ->
  method p' = method p
  \/ exists m m' res,
       method p = Some m
       /\ is_request packet
       /\ EapPacket.type_ packet = Some (method_type m)
       /\ ~ (last_request p = Some packet /\ is_Some (last_response p))
       /\ handle_request m (EapPacket.identifier packet)
            (EapPacket.body packet) = (m', res)
       /\ method p' = Some m'.
Proof.
  assert (Hans : forall ty q o, answer p packet ty = (q, o) ->
            method q = method p \/ exists m m' res, method p = Some m
              /\ ty = method_type m
              /\ handle_request m (EapPacket.identifier packet)
                   (EapPacket.body packet) = (m', res)
              /\ method q = Some m').
  { unfold answer. intros ty q o Ha.
    repeat (case_match; simplify_eq; auto).
    right. eexists _, _, _. split_and!; [done|lia|done|done]. }
  assert (Hfresh : forall (b : bool) (o : option (list Z)),
            bool_decide (last_request p = Some packet) = b ->
            last_response p = o -> (b = false \/ o = None) ->
            ~ (last_request p = Some packet /\ is_Some (last_response p))).
  { intros b o <- <- [Hb|Hb] [Hq [r Hr]]; [|congruence].
    by apply bool_decide_eq_false in Hb. }
  unfold handle_packet, is_request. intros Hh.
  repeat (case_match; simplify_eq; auto);
    match goal with
    | Ha : answer p packet ?ty = (?q, ?o) |- _ =>
        destruct (Hans _ _ _ Ha) as [?|(m & m' & res & ? & -> & ? & ?)];
        [by left|right; exists m, m', res]
    end; split_and!; auto; try lia; eapply Hfresh; eauto.
Qed.

(** Feeding a packet never aborts when the method does not. *)
Lemma handle_packet_returns p packet :
  (forall m id b, returns (snd (handle_request m id b))) ->
  returns (snd (handle_packet p packet)).
Proof.
  intros Hm. unfold handle_packet, answer.
  repeat case_match; simplify_eq; cbn; auto;
    match goal with
    | E : handle_request ?m ?i ?b = (_, ?o) |- _ =>
        specialize (Hm m i b); rewrite E in Hm; by destruct o; simplify_eq/=
    end.
Qed.

End peer_facts.
End EapPeerFacts.

(** ** The codec's contract *)

Module EapContract.

(** [EapPacket::parse] accepts a buffer exactly when it starts with the
    encoding of a well-formed packet, and returns that packet: parsing and
    building are inverse, trailing octets are ignored, and no input makes the
    parser panic. *)
Theorem eap_parse_iff pdu p :
  bytes pdu ->
  returns (EapPacket.parse pdu) /\
  (EapPacket.parse pdu = Ok (Some p) <->
   EapPacket.wf p /\ exists tail, pdu = EapPacket.encode p ++ tail).
Proof.
  intros Hb. split; [apply EapPacketFacts.parse_returns|]. split.
  - by apply EapPacketFacts.parse_sound.
  - intros [Hwf [tail ->]]. by apply EapPacketFacts.parse_complete.
Qed.

Lemma eap_parse_iff_witness :
  EapPacket.parse [2; 7; 0; 6; 1; 97; 0; 0]
  = Ok (Some (EapPacket.mk 2 7 (Some 1) [97])).
Proof.
  apply (eap_parse_iff [2; 7; 0; 6; 1; 97; 0; 0]
           (EapPacket.mk 2 7 (Some 1) [97])).
  - apply (bool_decide_unpack _). vm_compute. exact I.
  - split; [|by exists [0; 0]].
    split; [left; split; [right; reflexivity | by eexists] |].
    vm_compute. split; [discriminate|reflexivity].
Defined.

(** An EAP packet survives the trip through an EAPOL frame and any
    padding the link appends to it (Ethernet pads short frames). *)
Theorem eapol_eap_roundtrip p padding :
  EapPacket.wf p ->
  (payload ← EapolEapFrame.parse
               (EapolEapFrame.build (EapPacket.encode p) ++ padding);
   match payload with
   | Some eap => EapPacket.parse eap
   | None => Ok None
   end) = Ok (Some p).
Proof.
  intros Hwf.
  assert (fits 16 (zlen (EapPacket.encode p))).
  { destruct Hwf as [_ Hl]. unfold EapPacket.encode, EapPacket.build, EAP_HDR_LEN in *.
    destruct (EapPacket.type_ p); cbn [EapPacket.type_len] in *; len_lia. }
  rewrite EapolFacts.eapol_parse_complete by done. cbn [mbind outcome_bind].
  rewrite <- (app_nil_r (EapPacket.encode p)).
  by apply EapPacketFacts.parse_complete.
Qed.

Lemma eapol_eap_roundtrip_witness :
  EapolEapFrame.build (EapPacket.encode (EapPacket.mk 3 9 None []))
    = [2; 0; 0; 4; 3; 9; 0; 4]
  /\ (payload ← EapolEapFrame.parse
        (EapolEapFrame.build (EapPacket.encode (EapPacket.mk 3 9 None []))
           ++ [0; 0; 0]);
     match payload with
     | Some eap => EapPacket.parse eap
     | None => Ok None
     end) = Ok (Some (EapPacket.mk 3 9 None [])).
Proof.
  split; [reflexivity|]. apply (eapol_eap_roundtrip _ [0; 0; 0]).
  split; [right; split; [left; reflexivity | split; reflexivity] |].
  vm_compute. split; [discriminate|reflexivity].
Defined.

(** A method for the witnesses: it counts its requests and echoes them. *)
Definition echo_method : EapMethod nat := {|
  method_type := fun _ => TYPE_TLS;
  handle_request := fun m _ b => (S m, Ok b);
  msk := fun _ => None;
  success_indication_received := fun m => (2 <=? m)%nat;
|}.

Definition echo_peer : EapPeer.t nat :=
  EapPeer.set_method (H:=echo_method) (EapPeer.new [117; 49]) 0%nat.

Definition echo_request : EapPacket.t := EapPacket.mk 1 5 (Some 13) [42].

Lemma eap_retransmit_idempotent_witness :
  EapPeer.handle_packet (H:=echo_method)
    (fst (EapPeer.handle_packet (H:=echo_method) echo_peer echo_request))
    echo_request
  = (fst (EapPeer.handle_packet (H:=echo_method) echo_peer echo_request),
     Ok (Respond [2; 5; 0; 6; 13; 42])).
Proof.
  apply (EapPeerFacts.eap_retransmit_idempotent (H:=echo_method) echo_peer).
  reflexivity.
Defined.

Lemma eap_response_answers_request_witness :
  exists ty b,
    EapPacket.parse [2; 5; 0; 6; 13; 42]
    = Ok (Some (EapPacket.mk CODE_RESPONSE 5 (Some ty) b))
    /\ (Some ty = Some 13 \/ ty = TYPE_NAK).
Proof.
  apply (EapPeerFacts.eap_response_answers_request (H:=echo_method)
           echo_peer echo_request
           (fst (EapPeer.handle_packet (H:=echo_method) echo_peer echo_request))).
  - apply (EapPeerFacts.reach_set_method (H:=echo_method)).
    apply (EapPeerFacts.reach_new (H:=echo_method)).
  - reflexivity.
  - vm_compute. split; [discriminate|reflexivity].
Defined.

Lemma eap_method_step_witness :
  EapPeer.method (fst (EapPeer.handle_packet (H:=echo_method) echo_peer
                         echo_request)) = Some 1%nat
  /\ (Some 1%nat = Some 0%nat \/ exists m m' res,
       Some 0%nat = Some m
       /\ EapPeerFacts.is_request echo_request
       /\ EapPacket.type_ echo_request
            = Some (method_type (EapMethod:=echo_method) m)
       /\ ~ (EapPeer.last_request echo_peer = Some echo_request
             /\ is_Some (EapPeer.last_response echo_peer))
       /\ handle_request (EapMethod:=echo_method) m
            (EapPacket.identifier echo_request) (EapPacket.body echo_request)
          = (m', res)
       /\ Some 1%nat = Some m').
Proof.
  split; [reflexivity|].
  apply (EapPeerFacts.eap_method_step (H:=echo_method) echo_peer echo_request
           (fst (EapPeer.handle_packet (H:=echo_method) echo_peer echo_request))
           (snd (EapPeer.handle_packet (H:=echo_method) echo_peer echo_request))).
  reflexivity.
Defined.

End EapContract.
