(* ===== verification/EapTls.v ===== *)
(** * EAP-TLS

    The EAP-TLS method of [src/src/core/eap_tls.rs]: message framing, the
    transmit queue that splits a TLS flight into fragments, the reassembly of
    received fragments, and the exchange with the TLS connection.  rustls is
    not part of the repository: a connection is a parameter, the class
    [TlsConn], and what the method relies on is the class [TlsConnLaws]. *)

From S2P Require Import Prelude Errors Eap.

Definition EAP_TLS_FLAG_L : Z := 0x80.
Definition EAP_TLS_FLAG_M : Z := 0x40.
Definition EAP_TLS_FLAG_START : Z := 0x20.

(** The largest message the method reassembles. *)
Definition REASSEMBLY_LIMIT : nat := Z.to_nat 65535.

Definition tls_err (e : string) : WifiError.t :=
  WifiError.new WifiError.HandshakeFailed ("EAP-TLS: " +:+ e).

Definition is_empty {A} (l : list A) : bool :=
  match l with [] => true | _ => false end.

(** ** Framing *)

Definition build_tls_message (data : list Z) : list Z :=
  if is_empty data then [0]
  else EAP_TLS_FLAG_L :: to_be 4 (as_u32 (zlen data)) ++ data.

Definition parse_tls_message (body : list Z)
  : outcome WifiError.t (Z * list Z) :=
  if is_empty body then Ok (0, [])
  else
    flags ← idx body 0;
    if has_bit flags EAP_TLS_FLAG_L then
      if (length body <? 5)%nat
      then handshake_failed "EAP-TLS message with L bit but no length field"
      else data ← slice_from body 5; Ok (flags, data)
    else data ← slice_from body 1; Ok (flags, data).

(** ** The TLS connection *)

(** One [Read::read] on the plaintext reader of a connection. *)
Inductive read_result :=
| ReadOk (buf : list Z)
| ReadWouldBlock
| ReadErr (e : string).

(** [rustls::ClientConnection], as far as the method uses it. *)
Class TlsConn (Cfg C : Type) := {
  (** [ClientConnection::new(config, server_name)] *)
  conn_new : Cfg -> string -> outcome string C;
  (** [ServerName::try_from]: its error, if any *)
  server_name_err : string -> option string;
  (** [read_tls]: how many octets of the buffer were taken *)
  read_tls : C -> list Z -> C * outcome string nat;
  process_new_packets : C -> C * outcome string unit;
  (** [reader().read(..)] with a 64-octet buffer *)
  reader_read : C -> C * read_result;
  (** how many reads drain the plaintext received so far *)
  pending_plaintext : C -> nat;
  write_tls : C -> C * outcome string (list Z);
  is_handshaking : C -> bool;
  (** [export_keying_material] into 128 octets *)
  export_keying_material : C -> string -> list Z -> outcome string (list Z);
  is_tls13 : C -> bool;
}.

(** ** The method *)

Module EapTlsMethod.

Section method.
Context {Cfg C : Type} `{TlsConn Cfg C}.

Record t := mk {
  conn : option C;
  config : Cfg;
  server_name : string;
  rx_buf : list Z;
  rx_fragments : list Z;
  rx_expected_len : option Z;
  tx_queue : list Z;
  tx_offset : nat;
  tx_total : nat;
  max_tls_fragment : nat;
  msk : option (list Z);
  protected_success : bool;
}.

Definition new (config : Cfg) (server_name : string)
  : outcome WifiError.t t :=
  match server_name_err server_name with
  | Some e => Err (tls_err e)
  | None => Ok
  {| conn := None; config := config; server_name := server_name;
     rx_buf := []; rx_fragments := []; rx_expected_len := None;
     tx_queue := []; tx_offset := 0; tx_total := 0;
     max_tls_fragment := 1200; msk := None; protected_success := false |}
  end.

(** Assignments to groups of fields. *)
Definition set_conn (c : C) (m : t) : t :=
  mk (Some c) (config m) (server_name m) (rx_buf m) (rx_fragments m)
    (rx_expected_len m) (tx_queue m) (tx_offset m) (tx_total m)
    (max_tls_fragment m) (msk m) (protected_success m).
Definition set_rx (fragments : list Z) (expected : option Z) (m : t) : t :=
  mk (conn m) (config m) (server_name m) (rx_buf m) fragments
    expected (tx_queue m) (tx_offset m) (tx_total m)
    (max_tls_fragment m) (msk m) (protected_success m).
Definition set_rx_buf (buf : list Z) (m : t) : t :=
  mk (conn m) (config m) (server_name m) buf (rx_fragments m)
    (rx_expected_len m) (tx_queue m) (tx_offset m) (tx_total m)
    (max_tls_fragment m) (msk m) (protected_success m).
Definition set_tx (queue : list Z) (offset total : nat) (m : t) : t :=
  mk (conn m) (config m) (server_name m) (rx_buf m) (rx_fragments m)
    (rx_expected_len m) queue offset total
    (max_tls_fragment m) (msk m) (protected_success m).
Definition set_msk (k : list Z) (m : t) : t :=
  mk (conn m) (config m) (server_name m) (rx_buf m) (rx_fragments m)
    (rx_expected_len m) (tx_queue m) (tx_offset m) (tx_total m)
    (max_tls_fragment m) (Some k) (protected_success m).
Definition set_protected (m : t) : t :=
  mk (conn m) (config m) (server_name m) (rx_buf m) (rx_fragments m)
    (rx_expected_len m) (tx_queue m) (tx_offset m) (tx_total m)
    (max_tls_fragment m) (msk m) true.

Abbreviation cmd := (st t WifiError.t).

(** [next_tx_fragment]. *)
Definition next_tx_fragment : cmd (list Z) :=
  m ← get;
  if is_empty (tx_queue m) || (length (tx_queue m) <=? tx_offset m)%nat
  then mret (build_tls_message [])
  else
    let remaining := (length (tx_queue m) - tx_offset m)%nat in
    let take := Nat.min remaining (max_tls_fragment m) in
    let first := (tx_offset m =? 0)%nat in
    let more := (take <? remaining)%nat in
    let flags := Z.lor (if first then EAP_TLS_FLAG_L else 0)
                       (if more then EAP_TLS_FLAG_M else 0) in
    chunk ← lift (slice (tx_queue m) (tx_offset m) (tx_offset m + take));
    let body :=
      flags :: (if first then to_be 4 (as_u32 (Z.of_nat (tx_total m))) else [])
        ++ chunk in
    modify (if more
            then set_tx (tx_queue m) (tx_offset m + take) (tx_total m)
            else set_tx [] 0 0);;
    mret body.

(** [queue_tls_output]. *)
Definition queue_tls_output (output : list Z) : cmd unit :=
  if is_empty output then mret tt
  else modify (set_tx output 0 (length output)).

(** The inner [loop] that drains the plaintext reader. *)
Fixpoint read_plain (fuel : nat) (c : C) (plain : list Z)
  : C * outcome WifiError.t (list Z) :=
  match fuel with
  | O => (c, Diverge)
  | S fuel' =>
      match reader_read c with
      | (c', ReadOk []) => (c', Ok plain)
      | (c', ReadOk buf) => read_plain fuel' c' (plain ++ buf)
      | (c', ReadWouldBlock) => (c', Ok plain)
      | (c', ReadErr e) => (c', Err (tls_err e))
      end
  end.

(** A call on the connection; [conn] is a bound reference in the source, so a
    missing connection is unreachable. *)
Definition with_conn {A} (f : C -> C * outcome WifiError.t A) : cmd A :=
  m ← get;
  match conn m with
  | None => lift Panic
  | Some c => let (c', r) := f c in modify (set_conn c');; lift r
  end.

Definition read_tls_err (buf : list Z) (c : C) : C * outcome WifiError.t nat :=
  let (c', r) := read_tls c buf in (c', map_err tls_err r).
Definition process_err (c : C) : C * outcome WifiError.t unit :=
  let (c', r) := process_new_packets c in (c', map_err tls_err r).
Definition write_tls_err (c : C) : C * outcome WifiError.t (list Z) :=
  let (c', r) := write_tls c in (c', map_err tls_err r).

(** [while !self.rx_buf.is_empty()]: feed the TLS connection. *)
Fixpoint feed_tls (fuel : nat) : cmd unit :=
  m ← get;
  if is_empty (rx_buf m) then mret tt
  else
    match fuel with
    | O => lift Diverge
    | S fuel' =>
        used ← with_conn (read_tls_err (rx_buf m));
        if (used =? 0)%nat then mret tt
        else
          rest ← lift (slice_from (rx_buf m) used);
          modify (set_rx_buf rest);;
          with_conn process_err;;
          plain ← with_conn
                    (fun c => read_plain (S (pending_plaintext c)) c []);
          (if bool_decide (plain = [0]) then modify set_protected
           else mret tt);;
          feed_tls fuel'
    end.

(** The part of [handle_request] after a message is complete: feed it to TLS,
    export the MSK when the handshake is over, queue TLS's answer. *)
Definition deliver : cmd (list Z) :=
  m ← get;
  modify (set_rx (rx_fragments m) None);;
  (if is_empty (rx_fragments m) then mret tt
   else
     let buf := rx_buf m ++ rx_fragments m in
     modify (fun m => set_rx_buf buf (set_rx [] None m));;
     feed_tls (length buf));;
  out ← with_conn write_tls_err;
  m ← get;
  (match conn m, msk m with
   | Some c, None =>
       if is_handshaking c then mret tt
       else
         km ← lift (map_err tls_err
                      (export_keying_material c
                         "EXPORTER_EAP_TLS_Key_Material" [TYPE_TLS]));
         k ← lift (slice km 0 MSK_LEN);
         modify (set_msk k)
   | _, _ => mret tt
   end);;
  queue_tls_output out;;
  next_tx_fragment.

(** [if flags & EAP_TLS_FLAG_L != 0]: the announced total length. *)
Definition note_length (flags : Z) (body : list Z) : cmd unit :=
  if has_bit flags EAP_TLS_FLAG_L then
    if (length body <? 5)%nat
    then lift (handshake_failed "EAP-TLS message with L bit but no length field")
    else
      len ← lift (be_at 4 body 1);
      if (65535 <? len)
      then lift (handshake_failed
                   "EAP-TLS message length exceeds the reassembly limit")
      else
        m ← get;
        match rx_expected_len m with
        | Some expected =>
            if negb (expected =? len)
            then lift (handshake_failed
                         "EAP-TLS fragments announce different lengths")
            else modify (set_rx (rx_fragments m) (Some len))
        | None => modify (set_rx (rx_fragments m) (Some len))
        end
  else mret tt.

(** Receive-side reassembly of one fragment. *)
Definition reassemble (flags : Z) (data : list Z) : cmd (list Z) :=
  m ← get;
  let limit := from_option usize REASSEMBLY_LIMIT (rx_expected_len m) in
  if (limit <? length (rx_fragments m) + length data)%nat then
    modify (set_rx [] None);;
    lift (handshake_failed
            "EAP-TLS fragment exceeds the announced message length")
  else
    let fragments := rx_fragments m ++ data in
    modify (set_rx fragments (rx_expected_len m));;
    let more := has_bit flags EAP_TLS_FLAG_M in
    let reached :=
      match rx_expected_len m with
      | None => true
      | Some len => as_u32 (zlen fragments) =? len
      end in
    if negb (negb more && reached) then
      if negb more then
        modify (set_rx [] None);;
        lift (handshake_failed "short EAP-TLS message did not reach its announced                      length")
      else mret (build_tls_message [])
    else deliver.

(** [EapMethod::handle_request] of [EapTlsMethod]. *)
Definition handle_request (identifier : Z) (body : list Z) : cmd (list Z) :=
  '(flags, data) ← lift (parse_tls_message body);
  m ← get;
  (match conn m with
   | None =>
       if has_bit flags EAP_TLS_FLAG_START then
         c ← lift (map_err tls_err (conn_new (config m) (server_name m)));
         modify (set_conn c)
       else mret tt
   | Some _ => mret tt
   end);;
  m ← get;
  match conn m with
  | None => lift (handshake_failed "EAP-TLS data received before Start")
  | Some _ =>
      if (flags =? 0) && is_empty data then next_tx_fragment
      else
        note_length flags body;;
        reassemble flags data
  end.

Definition success_indication (m : t) : bool :=
  match conn m with
  | Some c => if is_tls13 c then protected_success m else true
  | None => true
  end.

#[global] Instance eap_tls_method : EapMethod t := {
  method_type := fun _ => TYPE_TLS;
  Eap.handle_request := fun m id body => handle_request id body m;
  Eap.msk := msk;
  success_indication_received := success_indication;
}.

End method.
Arguments t Cfg C : clear implicits.

End EapTlsMethod.

(** What the method relies on: the connection's calls return, [read_tls] takes
    no more than it is given, the plaintext reader drains, and the exporter
    fills its 128-octet buffer. *)
Class TlsConnLaws (Cfg C : Type) `{TlsConn Cfg C} : Prop := {
  conn_new_returns cfg name : returns (conn_new (C:=C) cfg name);
  read_tls_returns (c : C) buf : returns (snd (read_tls c buf));
  read_tls_bound (c c' : C) buf n :
    read_tls c buf = (c', Ok n) -> (n <= length buf)%nat;
  process_returns (c : C) : returns (snd (process_new_packets c));
  reader_drains (c c' : C) b buf :
    reader_read c = (c', ReadOk (b :: buf)) ->
    (pending_plaintext c' < pending_plaintext c)%nat;
  write_tls_returns (c : C) : returns (snd (write_tls c));
  export_returns (c : C) label ctx :
    returns (export_keying_material c label ctx);
  export_length (c : C) label ctx km :
    export_keying_material c label ctx = Ok km -> length km = 128%nat;
}.

(** ** Facts about the framing *)

Module EapTlsFacts.
Import EapTlsMethod.

Lemma parse_tls_message_returns body : returns (parse_tls_message body).
Proof.
  unfold parse_tls_message, handshake_failed.
  destruct body; [done|]. returns_tac.
Qed.

(** A TLS message split for the wire: [L] and the total length on the first
    fragment only, [M] on all but the last. *)
Definition frame (total : Z) (first more : bool) (chunk : list Z) : list Z :=
  Z.lor (if first then EAP_TLS_FLAG_L else 0) (if more then EAP_TLS_FLAG_M else 0)
  :: (if first then to_be 4 total else []) ++ chunk.

Fixpoint frame_chunks (total : Z) (first : bool) (cs : list (list Z))
  : list (list Z) :=
  match cs with
  | [] => []
  | [c] => [frame total first false c]
  | c :: cs' => frame total first true c :: frame_chunks total false cs'
  end.

Lemma parse_frame total first more c :
  parse_tls_message (frame total first more c)
  = Ok (Z.lor (if first then EAP_TLS_FLAG_L else 0)
              (if more then EAP_TLS_FLAG_M else 0), c).
Proof.
  unfold parse_tls_message, frame. cbn [is_empty].
  unfold idx, slice_from. cbn [lookup list_lookup mbind outcome_bind].
  destruct first, more;
    match goal with |- context [has_bit ?a ?b] =>
      let v := eval vm_compute in (has_bit a b) in change (has_bit a b) with v end;
    cbv iota; cbn [app]; rewrite ?app_nil_l;
    try (if_lia; change (?f :: to_be 4 total ++ c) with ((f :: to_be 4 total) ++ c);
         rewrite slice_in by len_lia; cbn [mbind outcome_bind];
         change 5%nat with (length (128 :: to_be 4 total)) at 2;
         rewrite drop_app_length, take_ge by len_lia; done);
    rewrite slice_in by len_lia; cbn [mbind outcome_bind drop];
    rewrite take_ge by len_lia; done.
Qed.

Section sender.
Context {Cfg C : Type} `{TlsConn Cfg C}.
Implicit Types m : EapTlsMethod.t Cfg C.

(** One call of [next_tx_fragment] on a non-empty queue. *)
Lemma next_tx_step m :
  (tx_offset m < length (tx_queue m))%nat -> (0 < max_tls_fragment m)%nat ->
  fits 32 (Z.of_nat (tx_total m)) ->
  let rest := drop (tx_offset m) (tx_queue m) in
  let more := (max_tls_fragment m <? length rest)%nat in
  next_tx_fragment m =
  (if more
   then set_tx (tx_queue m) (tx_offset m + max_tls_fragment m) (tx_total m) m
   else set_tx [] 0 0 m,
   Ok (frame (Z.of_nat (tx_total m)) (tx_offset m =? 0)%nat more
         (take (max_tls_fragment m) rest))).
Proof.
  intros Hoff Hmax Htot rest more. unfold next_tx_fragment.
  autorewrite with st. subst rest more. rewrite length_drop.
  replace (is_empty (tx_queue m)) with false 
    by (destruct (tx_queue m); [cbn in *; lia|done]).
  cbn [orb].
  replace (length (tx_queue m) <=? tx_offset m)%nat with false by lia.
  rewrite slice_in by len_lia. rewrite wrap_small by done.
  autorewrite with st.
  destruct (Nat.ltb_spec (max_tls_fragment m) (length (tx_queue m) - tx_offset m)).
  - rewrite Nat.min_r by lia.
    replace (max_tls_fragment m <? _)%nat with true by lia.
    rewrite Nat.add_comm, Nat.add_sub. done.
  - rewrite Nat.min_l by lia.
    replace (_ <? _)%nat with false by lia.
    rewrite Nat.add_comm, Nat.add_sub. unfold frame. do 4 f_equal.
    rewrite !take_ge; [done|len_lia..].
Qed.

(** [n] calls of [next_tx_fragment]. *)
Fixpoint send (n : nat) : st (EapTlsMethod.t Cfg C) WifiError.t (list (list Z)) :=
  match n with
  | O => mret []
  | S n' => f ← next_tx_fragment; fs ← send n'; mret (f :: fs)
  end.

Lemma send_all n m :
  (length (tx_queue m) - tx_offset m <= n)%nat ->
  (tx_offset m < length (tx_queue m))%nat -> (0 < max_tls_fragment m)%nat ->
  fits 32 (Z.of_nat (tx_total m)) ->
  exists cs,
    concat cs = drop (tx_offset m) (tx_queue m)
    /\ cs <> []
    /\ Forall (fun c => 0 < length c <= max_tls_fragment m)%nat cs
    /\ send (length cs) m
       = (set_tx [] 0 0 m,
          Ok (frame_chunks (Z.of_nat (tx_total m)) (tx_offset m =? 0)%nat cs)).
Proof.
  revert m. induction n as [|n IH]; intros m Hn Hoff Hmax Htot; [lia|].
  pose proof (next_tx_step m Hoff Hmax Htot) as Hstep. cbv zeta in Hstep.
  rewrite length_drop in Hstep.
  destruct (Nat.ltb_spec (max_tls_fragment m) (length (tx_queue m) - tx_offset m))
    as [Hmore|Hlast].
  - destruct (IH (set_tx (tx_queue m) (tx_offset m + max_tls_fragment m)
                   (tx_total m) m)) as (cs & Hc & Hne & Hf & Hs);
      cbn [tx_queue tx_offset tx_total max_tls_fragment set_tx] in *;
      [lia|lia|done|done|].
    exists (take (max_tls_fragment m) (drop (tx_offset m) (tx_queue m)) :: cs).
    split_and!.
    + cbn [concat]. rewrite Hc, <- drop_drop. apply take_drop.
    + done.
    + constructor; [len_lia|done].
    + cbn [length send]. erewrite st_bind_ok by apply Hstep.
      erewrite st_bind_ok by apply Hs. autorewrite with st. destruct cs; [done|].
      replace (tx_offset m + max_tls_fragment m =? 0)%nat with false by lia. done.
  - exists [drop (tx_offset m) (tx_queue m)]. split_and!.
    + by rewrite concat_cons, app_nil_r.
    + done.
    + repeat constructor; len_lia.
    + cbn [length send]. erewrite st_bind_ok by apply Hstep.
      autorewrite with st.
      rewrite take_ge by len_lia. done.
Qed.

End sender.
Section receiver.
Context {Cfg C : Type} `{TlsConn Cfg C}.
Implicit Types m : EapTlsMethod.t Cfg C.

(** Setting the reassembly state of a method that already has it. *)
Lemma set_rx_id m : set_rx (rx_fragments m) (rx_expected_len m) m = m.
Proof. by destruct m. Qed.

Lemma set_rx_set_rx f e f' e' m : set_rx f e (set_rx f' e' m) = set_rx f e m.
Proof. done. Qed.

Definition frame_flags (first more : bool) : Z :=
  Z.lor (if first then EAP_TLS_FLAG_L else 0)
        (if more then EAP_TLS_FLAG_M else 0).

(** A connected method on one well-formed fragment: it records the announced
    length and goes on to [reassemble]. *)
Lemma handle_frame id m c total (first more : bool) chunk :
  conn m = Some c -> 0 <= total <= 65535 ->
  rx_expected_len m = (if first then None else Some total) ->
  (first = true \/ more = true \/ chunk <> []) ->
  handle_request id (frame total first more chunk) m
  = reassemble (frame_flags first more) chunk
      (set_rx (rx_fragments m) (Some total) m).
Proof.
  intros Hc Ht He Hne. unfold handle_request. rewrite parse_frame.
  fold (frame_flags first more).
  autorewrite with st. rewrite Hc. autorewrite with st. rewrite Hc.
  replace ((_ =? 0) && is_empty chunk) with false.
  2:{ destruct first, more, chunk; try done. by destruct Hne as [|[|]]. }
  unfold note_length. destruct first.
  - replace (has_bit _ _) with true by (by destruct more).
    unfold frame. fold (frame_flags true more).
    change (?f :: to_be 4 total ++ chunk) with ([f] ++ to_be 4 total ++ chunk).
    if_lia. rewrite (be_mid 4 [_]) by (try done; len_lia).
    unfold mbind, st_bind, lift, get, modify, mret, st_ret. if_lia.
    by rewrite He.
  - replace (has_bit _ _) with false by (by destruct more).
    autorewrite with st. by rewrite <- He, set_rx_id.
Qed.

Lemma recv_more id m c total first chunk :
  conn m = Some c -> 0 <= total <= 65535 ->
  rx_expected_len m = (if first : bool then None else Some total) ->
  zlen (rx_fragments m ++ chunk) <= total ->
  handle_request id (frame total first true chunk) m
  = (set_rx (rx_fragments m ++ chunk) (Some total) m, Ok [0]).
Proof.
  intros Hc Ht He Hl. rewrite (handle_frame _ _ c) by auto. unfold reassemble.
  autorewrite with st. cbn [rx_fragments rx_expected_len set_rx from_option].
  if_lia. autorewrite with st.
  replace (has_bit _ _) with true by (by destruct first). cbn [negb andb].
  by autorewrite with st.
Qed.

Lemma recv_last id m c total first chunk :
  conn m = Some c -> 0 <= total <= 65535 ->
  rx_expected_len m = (if first : bool then None else Some total) ->
  (first = true \/ chunk <> []) ->
  zlen (rx_fragments m ++ chunk) = total ->
  handle_request id (frame total first false chunk) m
  = deliver (set_rx (rx_fragments m ++ chunk) (Some total) m).
Proof.
  intros Hc Ht He Hne Hl. rewrite (handle_frame _ _ c) by (try done; tauto).
  unfold reassemble.
  autorewrite with st. cbn [rx_fragments rx_expected_len set_rx from_option].
  if_lia. autorewrite with st.
  replace (has_bit _ _) with false by (by destruct first).
  rewrite Hl, wrap_small, Z.eqb_refl by len_lia. done.
Qed.

(** The Requests of one fragmented message, with the Response bodies. *)
Fixpoint receive (frames : list (list Z)) (m : EapTlsMethod.t Cfg C)
  : EapTlsMethod.t Cfg C * list (outcome WifiError.t (list Z)) :=
  match frames with
  | [] => (m, [])
  | f :: rest =>
      let (m1, r) := handle_request 0 f m in
      let (m2, rs) := receive rest m1 in
      (m2, r :: rs)
  end.

Lemma receive_chunks c total cs : forall first m,
  cs <> [] -> conn m = Some c -> 0 <= total <= 65535 ->
  rx_expected_len m = (if first : bool then None else Some total) ->
  Forall (fun chunk => chunk <> []) cs ->
  zlen (rx_fragments m ++ concat cs) = total ->
  receive (frame_chunks total first cs) m
  = (let (m', r) := deliver (set_rx (rx_fragments m ++ concat cs)
                               (Some total) m) in
     (m', replicate (length cs - 1) (Ok [0]) ++ [r])).
Proof.
  induction cs as [|chunk cs IH]; intros first m Hne Hc Ht He Hf Hl; [done|].
  apply Forall_cons in Hf as [Hk Hf]. cbn [concat] in *.
  destruct cs as [|chunk' cs].
  - cbn [frame_chunks receive]. rewrite app_nil_r in *.
    rewrite (recv_last _ _ c) by auto. by destruct (deliver _).
  - cbn [frame_chunks receive]. rewrite (recv_more _ _ c) by (auto; len_lia).
    rewrite (IH false) by (try done; cbn; rewrite <- ?app_assoc; done).
    cbn [rx_fragments set_rx length Nat.sub]. rewrite <- app_assoc.
    rewrite set_rx_set_rx, Nat.sub_0_r. by destruct (deliver _).
Qed.

End receiver.
Section end_to_end.
Context {Cfg C : Type} `{TlsConn Cfg C}.
Implicit Types m : EapTlsMethod.t Cfg C.

(** Fragmentation and reassembly are inverse.  Whatever TLS flight [q] (up
    to the 65535-octet limit) is queued on one side, the fragments it sends,
    handed as Requests to a connected peer between messages, are each
    acknowledged with the empty message except the last, and the last one
    makes the peer deliver exactly [q] to its TLS connection; the sender's
    queue is then empty. *)
Theorem eap_tls_fragment_roundtrip m q r c :
  q <> [] -> zlen q <= 65535 -> (0 < max_tls_fragment m)%nat ->
  conn r = Some c -> rx_fragments r = [] -> rx_expected_len r = None ->
  exists frames m',
    (queue_tls_output q;; send (length frames)) m = (m', Ok frames)
    /\ tx_queue m' = []
    /\ (length q <= length frames * max_tls_fragment m)%nat
    /\ receive frames r
       = (let (r', last) := deliver (set_rx q (Some (zlen q)) r) in
          (r', replicate (length frames - 1) (Ok [0]) ++ [last])).
Proof.
  intros Hq Hlen Hmax Hc Hf He.
  set (m0 := set_tx q 0 (length q) m).
  assert (Hl : (0 < length q)%nat) by (destruct q; [done|cbn; lia]).
  destruct (send_all (length q) m0) as (cs & Hcat & Hne & Hcs & Hs);
    cbn [tx_queue tx_offset tx_total max_tls_fragment set_tx m0] in *;
    [lia|lia|done|len_lia|].
  assert (Hfl : forall total b, length (frame_chunks total b cs) = length cs).
  { clear. induction cs as [|x [|y cs] IH]; intros total b; [done|done|].
    exact (f_equal S (IH total false)). }
  exists (frame_chunks (zlen q) true cs), (set_tx [] 0 0 m).
  rewrite Hfl. split_and!.
  - unfold queue_tls_output. replace (is_empty q) with false by (by destruct q).
    rewrite st_bind_modify. fold m0. rewrite Hs. done.
  - done.
  - rewrite drop_0 in Hcat. rewrite <- Hcat. clear -Hcs.
    induction Hcs as [|x cs Hx Hcs IH]; [done|]. cbn [concat length].
    rewrite length_app. lia.
  - pose proof (receive_chunks c (zlen q) cs true r) as Hr.
    rewrite Hf, Hcat, drop_0 in Hr. apply Hr; try done; [len_lia|].
    eapply Forall_impl; [exact Hcs|]. intros [|x l] Hx; cbn in *; [lia|done].
Qed.

End end_to_end.
(** ** Invariant and totality *)

Section invariant.
Context {Cfg C : Type} `{TlsConnLaws Cfg C}.
Implicit Types m : EapTlsMethod.t Cfg C.

(** The buffers are bounded and the queue is consistent. *)
Record inv m : Prop := {
  inv_offset : (tx_offset m <= length (tx_queue m))%nat;
  inv_max : (0 < max_tls_fragment m)%nat;
  inv_rx : (length (rx_fragments m) <= REASSEMBLY_LIMIT)%nat;
  inv_expected len :
    rx_expected_len m = Some len ->
    0 <= len <= 65535 /\ zlen (rx_fragments m) <= len;
  inv_msk k : msk m = Some k -> length k = MSK_LEN;
}.

(** The MSK is never replaced, and is exported only after the handshake. *)
Definition msk_step m m' : Prop :=
  msk m' = msk m
  \/ msk m = None /\ exists c, conn m' = Some c /\ is_handshaking c = false.

(** What the exchange with TLS leaves unchanged. *)
Definition same m m' : Prop :=
  rx_fragments m' = rx_fragments m /\ rx_expected_len m' = rx_expected_len m
  /\ tx_queue m' = tx_queue m /\ tx_offset m' = tx_offset m
  /\ max_tls_fragment m' = max_tls_fragment m /\ msk m' = msk m
  /\ is_Some (conn m').

Lemma same_inv m m' : same m m' -> inv m -> inv m'.
Proof.
  intros (Hf & He & Hq & Ho & Hm & Hk & _) [Io Im Ir Ie Ik].
  split; rewrite ?Hf, ?He, ?Hq, ?Ho, ?Hm, ?Hk; auto.
Qed.

Lemma same_trans m1 m2 m3 : same m1 m2 -> same m2 m3 -> same m1 m3.
Proof. unfold same. intros. intuition congruence. Qed.

Lemma returns_map_err {E E' A} (f : E -> E') (m : outcome E A) :
  returns m -> returns (map_err f m).
Proof. by destruct m. Qed.

Lemma wp_with_conn {A} (f : C -> C * outcome WifiError.t A) Q R m c :
  conn m = Some c -> returns (snd (f c)) ->
  (forall c' a, f c = (c', Ok a) -> Q a (set_conn c' m)) ->
  (forall c' e, f c = (c', Err e) -> R e (set_conn c' m)) ->
  wp (with_conn f) Q R m.
Proof.
  intros Hc Hr HQ HR. unfold with_conn. apply wp_bind, wp_get. rewrite Hc.
  destruct (f c) as [c' o] eqn:Hf. apply wp_bind, wp_modify.
  apply wp_lift; [done|intros ? ->; auto..].
Qed.

Lemma read_plain_returns fuel (c : C) plain :
  (pending_plaintext c < fuel)%nat -> returns (snd (read_plain fuel c plain)).
Proof.
  revert c plain. induction fuel as [|fuel IH]; intros c plain Hf; [lia|].
  cbn. destruct (reader_read c) as [c' [[|b buf]| |e]] eqn:Hr; try done.
  apply IH. apply reader_drains in Hr. lia.
Qed.

Lemma feed_tls_wp fuel m :
  is_Some (conn m) -> (length (rx_buf m) <= fuel)%nat ->
  wp (feed_tls fuel) (fun _ m' => same m m') (fun _ m' => same m m') m.
Proof.
  revert m. induction fuel as [|fuel IH]; intros m [c Hc] Hlen.
  { cbn. apply wp_bind, wp_get. destruct (rx_buf m); [|cbn in *; lia].
    apply wp_mret. repeat split; eauto. }
  cbn [feed_tls]. apply wp_bind, wp_get.
  destruct (is_empty (rx_buf m)) eqn:Hemp; [by repeat split; eauto|].
  assert (Hsame : forall c' b p, same m
            (mk (Some c') (config m) (server_name m) b (rx_fragments m)
               (rx_expected_len m) (tx_queue m) (tx_offset m) (tx_total m)
               (max_tls_fragment m) (msk m) p)) by (repeat split; eauto).
  apply wp_bind. eapply wp_with_conn; [done| |intros c1 used Hu|intros; apply Hsame].
  { unfold read_tls_err. pose proof (read_tls_returns c (rx_buf m)) as Hr.
    destruct (read_tls c _). by apply returns_map_err. }
  assert (used <= length (rx_buf m))%nat as Hused.
  { unfold read_tls_err in Hu. destruct (read_tls c _) as [c2 [n| | |]] eqn:Hr;
      simplify_eq/=. by apply read_tls_bound in Hr. }
  destruct (Nat.eqb_spec used 0) as [->|Hnz]; [apply wp_mret, Hsame|].
  apply wp_bind, wp_lift;
    [unfold slice_from; returns_tac|intros rest Hrest|intros e He].
  2:{ unfold slice_from, slice in He. by destruct (_ && _). }
  apply slice_length in Hrest.
  apply wp_bind, wp_modify, wp_bind.
  eapply wp_with_conn; [done| |intros c3 [] _|intros; apply Hsame].
  { unfold process_err. pose proof (process_returns c1) as Hr.
    destruct (process_new_packets c1). by apply returns_map_err. }
  apply wp_bind.
  eapply wp_with_conn; [done| |intros c4 plain _|intros; apply Hsame].
  { apply read_plain_returns. lia. }
  apply wp_bind. destruct (bool_decide _); [apply wp_modify|apply wp_mret];
    (eapply wp_mono; [apply IH; cbn; [eauto|len_lia]| |]);
    intros ?? Hs; exact (same_trans _ _ _ (Hsame _ _ _) Hs).
Qed.

Lemma next_tx_wp m m0 :
  inv m -> msk_step m0 m ->
  wp next_tx_fragment (fun _ m' => inv m' /\ msk_step m0 m')
    (fun _ m' => inv m' /\ msk_step m0 m') m.
Proof.
  intros [Io Im Ir Ie Ik] Hk. unfold next_tx_fragment. apply wp_bind, wp_get.
  destruct (is_empty (tx_queue m) || _) eqn:Hq; [by apply wp_mret|].
  apply wp_bind, wp_lift; [returns_tac|intros chunk _|intros e He].
  2:{ unfold slice in He. by destruct (_ && _). }
  apply wp_bind, wp_modify, wp_mret.
  destruct (_ <? _)%nat eqn:Hmore; (split; [split|]); cbn in *; auto; lia.
Qed.

Lemma queue_tls_wp out m (Q : unit -> EapTlsMethod.t Cfg C -> Prop) R m0 :
  inv m -> msk_step m0 m ->
  (forall m', inv m' -> msk_step m0 m' -> Q tt m') ->
  wp (queue_tls_output out) Q R m.
Proof.
  intros [Io Im Ir Ie Ik] Hk HQ. unfold queue_tls_output.
  destruct (is_empty out); [apply wp_mret|apply wp_modify];
    (apply HQ; [split|]); cbn; auto; lia.
Qed.

(** Exporting the MSK, the middle of [deliver]. *)
Lemma deliver_tail_wp m m0 :
  inv m -> msk m = msk m0 -> is_Some (conn m) ->
  wp (out ← with_conn write_tls_err;
      m ← get;
      (match conn m, msk m with
       | Some c, None =>
           if is_handshaking c then mret tt
           else
             km ← lift (map_err tls_err
                          (export_keying_material c
                             "EXPORTER_EAP_TLS_Key_Material" [TYPE_TLS]));
             k ← lift (slice km 0 MSK_LEN);
             modify (set_msk k)
       | _, _ => mret tt
       end);;
      queue_tls_output out;;
      next_tx_fragment)
    (fun _ m' => inv m' /\ msk_step m0 m')
    (fun _ m' => inv m' /\ msk_step m0 m') m.
Proof.
  intros Hi Hk [c Hc].
  assert (Hfin : forall out m', inv m' -> msk_step m0 m' ->
            wp (queue_tls_output out;; next_tx_fragment)
              (fun _ m' => inv m' /\ msk_step m0 m')
              (fun _ m' => inv m' /\ msk_step m0 m') m').
  { intros out m' ??. apply wp_bind. eapply queue_tls_wp; eauto using next_tx_wp. }
  assert (Hset : forall c', inv (set_conn c' m)) by (intros; by destruct Hi).
  apply wp_bind. eapply wp_with_conn; [done| |intros c1 out _|].
  { unfold write_tls_err. pose proof (write_tls_returns c) as Hr.
    destruct (write_tls c). by apply returns_map_err. }
  2:{ intros. split; [done|by left]. }
  apply wp_bind, wp_get. cbn [conn set_conn]. apply wp_bind.
  destruct (msk (set_conn c1 m)) eqn:Hm;
    [apply wp_mret, Hfin; [done|by left]|].
  destruct (is_handshaking c1) eqn:Hh; [apply wp_mret, Hfin; [done|by left]|].
  apply wp_bind, wp_lift;
    [apply returns_map_err, export_returns| |intros; split; [done|by left]].
  intros km Hkm. destruct (export_keying_material _ _ _) eqn:Hex;
    simplify_eq/=. apply export_length in Hex.
  apply wp_bind, wp_lift;
    [returns_tac; unfold MSK_LEN; lia|intros k Hsl|].
  2:{ intros e He. unfold slice in He. by destruct (_ && _). }
  apply slice_length in Hsl. apply wp_modify, Hfin.
  - destruct Hi as [Io Im Ir Ie Ik]. split; auto. intros ? [= <-]. done.
  - right. split; [congruence|]. eauto.
Qed.

Lemma inv_set_rx f e m :
  (length f <= REASSEMBLY_LIMIT)%nat ->
  (forall len, e = Some len -> 0 <= len <= 65535 /\ zlen f <= len) ->
  inv m -> inv (set_rx f e m).
Proof. intros Hf He [Io Im Ir Ie Ik]. split; auto. Qed.

Lemma inv_clear_rx m : inv m -> inv (set_rx [] None m).
Proof. apply inv_set_rx; [cbn; lia|done]. Qed.

Lemma inv_set_rx_buf b m : inv m -> inv (set_rx_buf b m).
Proof. intros [Io Im Ir Ie Ik]. split; auto. Qed.

Lemma deliver_wp m m0 :
  inv (set_rx (rx_fragments m) None m) -> msk m = msk m0 -> is_Some (conn m) ->
  wp deliver (fun _ m' => inv m' /\ msk_step m0 m')
    (fun _ m' => inv m' /\ msk_step m0 m') m.
Proof.
  intros Hi Hk Hc. unfold deliver.
  apply wp_bind, wp_get, wp_bind, wp_modify, wp_bind.
  destruct (is_empty (rx_fragments m)); 
    [apply wp_mret, deliver_tail_wp; assumption|].
  apply wp_bind, wp_modify.
  eapply wp_mono; [apply feed_tls_wp; [exact Hc|reflexivity]|..]; cbn beta.
  - intros _ m' Hs. apply deliver_tail_wp.
    + eapply same_inv; [done|]. apply inv_set_rx_buf, inv_clear_rx. done.
    + destruct Hs as (_ & _ & _ & _ & _ & -> & _). done.
    + by destruct Hs as (_ & _ & _ & _ & _ & _ & ?).
  - intros _ m' Hs. split.
    + eapply same_inv; [done|]. apply inv_set_rx_buf, inv_clear_rx. done.
    + left. destruct Hs as (_ & _ & _ & _ & _ & -> & _). done.
Qed.

Lemma reassemble_wp flags data m m0 :
  (forall f, (length f <= REASSEMBLY_LIMIT)%nat -> inv (set_rx f None m)) ->
  (forall len, rx_expected_len m = Some len -> 0 <= len <= 65535) ->
  msk m = msk m0 -> is_Some (conn m) ->
  wp (reassemble flags data) (fun _ m' => inv m' /\ msk_step m0 m')
    (fun _ m' => inv m' /\ msk_step m0 m') m.
Proof.
  intros Hi He Hk Hc. unfold reassemble. apply wp_bind, wp_get.
  assert (Hclear : inv (set_rx [] None m)) by (apply Hi; cbn; lia).
  assert (Hlim : (from_option usize REASSEMBLY_LIMIT (rx_expected_len m)
                  <= REASSEMBLY_LIMIT)%nat).
  { destruct (rx_expected_len m) as [len|]; [|done].
    specialize (He _ eq_refl). unfold REASSEMBLY_LIMIT. cbn -[Z.to_nat]. lia. }
  destruct (_ <? _)%nat eqn:Hlt.
  { apply wp_bind, wp_modify. split; [done|by left]. }
  set (f := rx_fragments m ++ data).
  assert (Hf : (length f <= REASSEMBLY_LIMIT)%nat) by (subst f; len_lia).
  apply wp_bind, wp_modify. destruct (negb _); [|].
  - destruct (negb _).
    { apply wp_bind, wp_modify. split; [done|by left]. }
    apply wp_mret. split; [|by left].
    change (inv (set_rx f (rx_expected_len m) (set_rx f None m))).
    apply inv_set_rx; auto. intros len Hlen. split; [by apply He|].
    rewrite Hlen in Hlt. cbn [from_option] in Hlt. subst f.
    specialize (He _ Hlen). len_lia.
  - apply deliver_wp; [by apply Hi|done|done].
Qed.

Lemma note_length_wp flags body m :
  bytes body -> inv m ->
  wp (note_length flags body)
    (fun _ m' => exists e, m' = set_rx (rx_fragments m) e m
                 /\ forall len, e = Some len -> 0 <= len <= 65535)
    (fun _ m' => m' = m) m.
Proof.
  intros Hb Hi. unfold note_length.
  destruct (has_bit _ _).
  2:{ apply wp_mret. exists (rx_expected_len m). rewrite set_rx_id.
      split; [done|]. intros len Hl. by apply (inv_expected _ Hi). }
  destruct (_ <? 5)%nat eqn:H5; [done|].
  apply wp_bind, wp_lift; [apply returns_be; lia|intros len Hlen|].
  2:{ intros e He. unfold be_at, slice in He.
      by destruct ((_ <=? _)%nat && _). }
  apply bind_ok in Hlen as (s & Hs & [= <-]).
  pose proof (slice_length _ _ _ _ Hs) as Hsl. apply slice_ok in Hs as [_ ->].
  assert (Hbd : 0 <= from_be (take (1 + 4 - 1) (drop 1 body))).
  { apply from_be_bound. by apply Forall_take, Forall_drop. }
  generalize dependent (from_be (take (1 + 4 - 1) (drop 1 body))). intros n Hbd.
  destruct (65535 <? n) eqn:Hbig; [done|].
  apply wp_bind, wp_get.
  assert (Hout : exists e, set_rx (rx_fragments m) (Some n) m
                 = set_rx (rx_fragments m) e m
                 /\ forall len, e = Some len -> 0 <= len <= 65535).
  { eexists. split; [done|]. intros len [= <-]. lia. }
  destruct (rx_expected_len m); [destruct (negb _); [done|]|];
    by apply wp_modify.
Qed.

Lemma handle_request_wp id body m :
  inv m -> bytes body ->
  wp (handle_request id body) (fun _ m' => inv m' /\ msk_step m m')
    (fun _ m' => inv m' /\ msk_step m m') m.
Proof.
  intros Hi Hb. unfold handle_request.
  assert (Hrefl : inv m /\ msk_step m m) by (split; [done|by left]).
  assert (Hconn : forall c, inv (set_conn c m)) by (intros; by destruct Hi).
  assert (Hrest : forall flags data m1, inv m1 -> msk m1 = msk m ->
    wp (m ← get;
        match conn m with
        | None => lift (handshake_failed "EAP-TLS data received before Start")
        | Some _ =>
            if (flags =? 0) && is_empty data then next_tx_fragment
            else note_length flags body;; reassemble flags data
        end)
      (fun _ m' => inv m' /\ msk_step m m')
      (fun _ m' => inv m' /\ msk_step m m') m1).
  { intros flags data m1 Hi1 Hm1. apply wp_bind, wp_get.
    destruct (conn m1) as [c|] eqn:Hc; [|split; [done|by left]].
    destruct (_ && _); [apply next_tx_wp; [done|by left]|].
    apply wp_bind. eapply wp_mono; [by apply note_length_wp|..]; cbn beta.
    - intros _ m' (e & -> & He). apply reassemble_wp; cbn; eauto.
      intros f Hf. change (inv (set_rx f None m1)). by apply inv_set_rx.
    - intros _ m' ->. split; [done|by left]. }
  apply wp_bind, wp_lift; [apply parse_tls_message_returns| |auto].
  intros [flags data] _. apply wp_bind, wp_get, wp_bind.
  destruct (conn m) as [c|] eqn:Hc; [by apply wp_mret, Hrest|].
  destruct (has_bit _ _); [|by apply wp_mret, Hrest].
  apply wp_bind, wp_lift; [apply returns_map_err, conn_new_returns| |auto].
  intros c _. by apply wp_modify, Hrest.
Qed.

(** C33: the method never aborts and keeps its buffers bounded.  From a state
    that satisfies the invariant (the queue offset inside the queue, at most
    65535 reassembled octets, never more than announced, a 64-octet MSK), a
    Request with any body returns, successfully or with an error, in a state
    that satisfies it; an MSK that was exported is never replaced, and is
    exported only once TLS has finished its handshake. *)
Theorem eap_tls_handle_request_safe id body m :
  inv m -> bytes body ->
  returns (snd (handle_request id body m))
  /\ inv (fst (handle_request id body m))
  /\ msk_step m (fst (handle_request id body m)).
Proof.
  intros Hi Hb. pose proof (handle_request_wp id body m Hi Hb) as Hw.
  unfold wp in Hw. by destruct (handle_request id body m) as [m' [r|e| |]].
Qed.

End invariant.
End EapTlsFacts.

(** ** The method inside the peer *)

Module EapTlsContract.
Import EapTlsMethod EapTlsFacts.

(** With TLS 1.3 the peer reports EAP-Success only after the protected
    success indication (application data 0x00, RFC 9190 section 2.5) was
    received. *)
Theorem eap_tls_success_protected {Cfg C} `{TlsConn Cfg C}
    (p p' : EapPeer.t (EapTlsMethod.t Cfg C)) packet m c :
  EapPeer.method p = Some m -> conn m = Some c -> is_tls13 c = true ->
  EapPeer.handle_packet p packet = (p', Ok Success) ->
  protected_success m = true.
Proof.
  intros Hm Hc Htls Hh. apply EapPeerFacts.success_iff in Hh as (_ & _ & _ & Hi).
  specialize (Hi m Hm). cbn in Hi. unfold success_indication in Hi.
  by rewrite Hc, Htls in Hi.
Qed.

(** A connection for the witnesses: it records what it reads and has finished
    its handshake after three octets. *)
#[local] Instance toy_conn : TlsConn unit (list Z) := {
  conn_new := fun _ _ => Ok [];
  server_name_err := fun _ => None;
  read_tls := fun c buf => (c ++ buf, Ok (length buf));
  process_new_packets := fun c => (c, Ok tt);
  reader_read := fun c => (c, ReadWouldBlock);
  pending_plaintext := fun _ => 0%nat;
  write_tls := fun c => (c, Ok []);
  is_handshaking := fun c => (length c <? 3)%nat;
  export_keying_material := fun _ _ _ => Ok (replicate 128 7);
  is_tls13 := fun _ => true;
}.

#[local] Instance toy_laws : TlsConnLaws unit (list Z).
Proof.
  split; try done.
  - intros c c' buf n [= _ <-]. reflexivity.
  - by intros c label ctx km [= <-].
Qed.

Definition toy_method (max : nat) (protected : bool)
  : EapTlsMethod.t unit (list Z) :=
  mk (Some []) tt "srv" [] [] None [] 0 0 max None protected.

Lemma eap_tls_fragment_roundtrip_witness :
  exists frames m',
    (queue_tls_output [1; 2; 3; 4; 5];; send (length frames))
      (toy_method 2 false) = (m', Ok frames)
    /\ tx_queue m' = []
    /\ (5 <= length frames * 2)%nat
    /\ receive frames (toy_method 7 false)
       = (let (r', last) := deliver (set_rx [1; 2; 3; 4; 5] (Some 5)
                                       (toy_method 7 false)) in
          (r', replicate (length frames - 1) (Ok [0]) ++ [last])).
Proof.
  apply (eap_tls_fragment_roundtrip (toy_method 2 false) [1; 2; 3; 4; 5]
           (toy_method 7 false) []);
    try reflexivity; [discriminate|vm_compute; discriminate|cbn; lia].
Defined.

Lemma toy_inv max protected : (0 < max)%nat -> inv (toy_method max protected).
Proof. by split; cbn; [lia|lia|lia|..]. Qed.

Lemma eap_tls_handle_request_safe_witness :
  msk (fst (handle_request 1 [0; 1; 2; 3] (toy_method 7 false)))
    = Some (replicate 64 7)
  /\ inv (fst (handle_request 1 [0; 1; 2; 3] (toy_method 7 false))).
Proof.
  split; [reflexivity|].
  apply (eap_tls_handle_request_safe 1 [0; 1; 2; 3] (toy_method 7 false)).
  - apply toy_inv. lia.
  - apply (bool_decide_unpack _). vm_compute. exact I.
Defined.

Lemma eap_tls_success_protected_witness :
  protected_success (toy_method 7 true) = true.
Proof.
  apply (eap_tls_success_protected
           (EapPeer.set_method (EapPeer.new []) (toy_method 7 true))
           (EapPeer.set_method (EapPeer.new []) (toy_method 7 true))
           (EapPacket.mk 3 0 None []) (toy_method 7 true) []);
    reflexivity.
Defined.

End EapTlsContract.
