(* ===== verification/Security.v ===== *)
(** * Security types

    [SecurityType] of [src/src/wifi/scan.rs] and [MicAlg] of
    [src/src/wifi/crypto/handshake4.rs], shared by the WiFi components. *)

From stdpp Require Import countable.
From S2P Require Import Prelude.

Inductive SecurityType :=
| Open | Wpa2Psk | Wpa2PskSha256 | Wpa2Ent | Wpa2EntSha256 | Owe | Sae | FtPsk
| FtSae | SaeExtKey | FtSaeExtKey | Unsupported.

#[global] Instance SecurityType_eq_dec : EqDecision SecurityType.
Proof. solve_decision. Defined.

Definition security_tag (s : SecurityType) : nat :=
  match s with
  | Open => 0 | Wpa2Psk => 1 | Wpa2PskSha256 => 2 | Wpa2Ent => 3
  | Wpa2EntSha256 => 4 | Owe => 5 | Sae => 6 | FtPsk => 7 | FtSae => 8
  | SaeExtKey => 9 | FtSaeExtKey => 10 | Unsupported => 11
  end%nat.

Definition security_of_tag (n : nat) : SecurityType :=
  match n with
  | 0 => Open | 1 => Wpa2Psk | 2 => Wpa2PskSha256 | 3 => Wpa2Ent
  | 4 => Wpa2EntSha256 | 5 => Owe | 6 => Sae | 7 => FtPsk | 8 => FtSae
  | 9 => SaeExtKey | 10 => FtSaeExtKey | _ => Unsupported
  end%nat.

#[global] Instance SecurityType_countable : Countable SecurityType.
Proof. by refine (inj_countable' security_tag security_of_tag _); intros []. Defined.

(** [SecurityType::is_ft]. *)
Definition is_ft (s : SecurityType) : bool :=
  match s with FtPsk | FtSae | FtSaeExtKey => true | _ => false end.

(** [SecurityType::base]. *)
Definition base (s : SecurityType) : SecurityType :=
  match s with
  | FtPsk => Wpa2Psk
  | FtSae => Sae
  | FtSaeExtKey => SaeExtKey
  | other => other
  end.

Lemma base_not_ft s : is_ft (base s) = false.
Proof. by destruct s. Qed.

Inductive MicAlg := AesCmac | HmacSha256 | HmacSha1.

#[global] Instance MicAlg_eq_dec : EqDecision MicAlg.
Proof. solve_decision. Defined.
