(* ===== verification/Pmksa.v ===== *)
(** * The PMKSA cache

    [src/src/wifi/pmksa.rs].  [Instant]s are integers (nanoseconds of the
    monotonic clock) and every operation takes the clock readings it makes as
    arguments.  [Module PmksaEntry] is one entry, [Module PmksaCache] the
    vector of entries with its operations, and [Module PmksaSpec] states the
    cache as a finite map from (SSID, BSSID, AKM) and proves that each
    operation refines its map counterpart. *)

From stdpp Require Import gmap.
From S2P Require Import Prelude Security.

Definition PMK_LIFETIME_SECS : Z := 43200.
Definition PMK_REAUTH_THRESHOLD_PERCENT : Z := 70.
Definition MAX_ENTRIES : nat := 32.

(** [Duration::from_secs], in nanoseconds. *)
Definition secs (n : Z) : Z := n * 10 ^ 9.

(** [saturating_duration_since(..).as_secs()]. *)
Definition saturating_secs_since (later earlier : Z) : Z :=
  Z.max 0 (later - earlier) / 10 ^ 9.

Definition clamp (lo hi x : Z) : Z := Z.min hi (Z.max lo x).

Module PmksaEntry.

Record t := mk {
  ssid : string;
  bssid : list Z;
  security : SecurityType;
  pmkid : list Z;
  pmk : list Z;
  mic_alg : MicAlg;
  expires : Z;
  reauth_at : Z;
}.

#[global] Instance t_eq_dec : EqDecision t.
Proof. solve_decision. Defined.

(** [PmksaEntry::new], at clock reading [now]. *)
Definition new (now : Z) (ssid : string) (bssid : list Z)
  (security : SecurityType) (pmkid pmk : list Z) (mic_alg : MicAlg) : t :=
  let lifetime := secs PMK_LIFETIME_SECS in
  let reauth := secs (PMK_LIFETIME_SECS * PMK_REAUTH_THRESHOLD_PERCENT / 100) in
  mk ssid bssid security pmkid pmk mic_alg (now + lifetime) (now + reauth).

Definition matches (e : t) (s : string) (b : list Z) (sec : SecurityType)
  : bool :=
  bool_decide (ssid e = s) && bool_decide (bssid e = b)
  && bool_decide (security e = sec).

Definition past_reauth_threshold (e : t) (now : Z) : bool :=
  reauth_at e <=? now.

Definition remaining_lifetime_secs (e : t) (now : Z) : Z :=
  as_u32 (clamp 1 (2 ^ 32 - 1) (saturating_secs_since (expires e) now)).

(** The product is computed in [u64]: an overflow would panic. *)
Definition remaining_reauth_percent {E} (e : t) (now : Z) : outcome E Z :=
  let lifetime := saturating_secs_since (expires e) now in
  if lifetime =? 0 then Ok 1
  else
    let reauth := saturating_secs_since (reauth_at e) now in
    if 2 ^ 64 <=? reauth * 100 then Panic
    else Ok (as_u8 (clamp 1 100 (reauth * 100 / lifetime))).

End PmksaEntry.

Module PmksaCache.
Import PmksaEntry.

Abbreviation cache := (list PmksaEntry.t).

(** [Vec::swap_remove]; the source calls it with an index in range. *)
Definition swap_remove {A} (l : list A) (i : nat) : list A :=
  match last l with
  | Some x => take (length l - 1) (<[i:=x]> l)
  | None => l
  end.

Definition remove_expired (now : Z) (entries : cache) : cache :=
  filter (fun e => now < expires e) entries.

(** The loop that looks for the entry expiring soonest. *)
Definition oldest_index (entries : cache) : nat :=
  fold_left
    (fun oldest i =>
       match entries !! i, entries !! oldest with
       | Some e, Some o => if expires e <? expires o then i else oldest
       | _, _ => oldest
       end)
    (seq 1 (length entries - 1)) 0%nat.

(** [PmksaCache::insert]. *)
Definition insert (now : Z) (entry : PmksaEntry.t) (entries : cache) : cache :=
  let entries := remove_expired now entries in
  match list_find (fun e => matches e (ssid entry) (bssid entry)
                              (security entry) = true) entries with
  | Some (slot, _) => <[slot:=entry]> entries
  | None =>
      let entries :=
        if (length entries =? MAX_ENTRIES)%nat
        then swap_remove entries (oldest_index entries)
        else entries in
      entries ++ [entry]
  end.

(** [Iterator::find(..).cloned()]. *)
Definition find (f : PmksaEntry.t -> bool) (entries : cache)
  : option PmksaEntry.t :=
  snd <$> list_find (fun e => f e = true) entries.

(** [PmksaCache::lookup]: [now] is read by [remove_expired], [now'] after. *)
Definition lookup (now now' : Z) (s : string) (b : list Z)
  (sec : SecurityType) (entries : cache) : cache * option PmksaEntry.t :=
  let entries := remove_expired now entries in
  (entries,
   find (fun e => matches e s b sec && negb (past_reauth_threshold e now'))
     entries).

Definition lookup_past_reauth (now now' : Z) (s : string) (b : list Z)
  (sec : SecurityType) (entries : cache) : cache * option PmksaEntry.t :=
  let entries := remove_expired now entries in
  (entries,
   find (fun e => matches e s b sec && past_reauth_threshold e now') entries).

Definition contains (now : Z) (s : string) (b : list Z) (sec : SecurityType)
  (entries : cache) : cache * bool :=
  let entries := remove_expired now entries in
  (entries, existsb (fun e => matches e s b sec) entries).

Definition invalidate (s : string) (b : list Z) (sec : SecurityType)
  (entries : cache) : cache * option PmksaEntry.t :=
  match list_find (fun e => matches e s b sec = true) entries with
  | Some (pos, e) => (swap_remove entries pos, Some e)
  | None => (entries, None)
  end.

(** [PmksaCache::remove_ssid]: the entries that stay, and those removed. *)
Definition remove_ssid (s : string) (entries : cache) : cache * cache :=
  (filter (fun e => ssid e <> s) entries, filter (fun e => ssid e = s) entries).

End PmksaCache.

(** ** The cache as a finite map *)

Module PmksaSpec.
Import PmksaEntry PmksaCache.

Abbreviation key_t := (string * list Z * SecurityType)%type.

Definition key (e : PmksaEntry.t) : key_t := (ssid e, bssid e, security e).

Definition abs (c : cache) : gmap key_t PmksaEntry.t :=
  list_to_map ((fun e => (key e, e)) <$> c).

(** One entry per (SSID, BSSID, AKM) and at most [MAX_ENTRIES] of them. *)
Definition wf (c : cache) : Prop :=
  NoDup (key <$> c) /\ (length c <= MAX_ENTRIES)%nat.

(** The operations, with the clock readings they make. *)
Inductive op :=
| Insert (now : Z) (entry : PmksaEntry.t)
| Lookup (now now' : Z) (k : key_t)
| LookupPastReauth (now now' : Z) (k : key_t)
| Contains (now : Z) (k : key_t)
| Invalidate (k : key_t)
| RemoveSsid (s : string).

Inductive response :=
| Done
| Found (e : option PmksaEntry.t)
| Answer (b : bool)
| Removed (es : list PmksaEntry.t).

Definition exec (o : op) (c : cache) : cache * response :=
  match o with
  | Insert now e => (insert now e c, Done)
  | Lookup now now' (s, b, sec) =>
      let (c', r) := lookup now now' s b sec c in (c', Found r)
  | LookupPastReauth now now' (s, b, sec) =>
      let (c', r) := lookup_past_reauth now now' s b sec c in (c', Found r)
  | Contains now (s, b, sec) =>
      let (c', r) := contains now s b sec c in (c', Answer r)
  | Invalidate (s, b, sec) =>
      let (c', r) := invalidate s b sec c in (c', Found r)
  | RemoveSsid s => let (c', r) := remove_ssid s c in (c', Removed r)
  end.

(** The unexpired part of a map. *)
Definition live (now : Z) (m : gmap key_t PmksaEntry.t)
  : gmap key_t PmksaEntry.t :=
  filter (fun ke => now < expires ke.2) m.

(** The contract.  Eviction may pick any entry that expires soonest; the
    entries [remove_ssid] returns come in any order. *)
Inductive spec_step
  : op -> gmap key_t PmksaEntry.t -> gmap key_t PmksaEntry.t -> response -> Prop :=
| spec_insert now e m :
    is_Some (live now m !! key e) \/ (size (live now m) < MAX_ENTRIES)%nat ->
    spec_step (Insert now e) m (<[key e := e]> (live now m)) Done
| spec_evict now e m k v :
    live now m !! key e = None -> size (live now m) = MAX_ENTRIES ->
    live now m !! k = Some v ->
    (forall k' v', live now m !! k' = Some v' -> expires v <= expires v') ->
    spec_step (Insert now e) m (<[key e := e]> (delete k (live now m))) Done
| spec_lookup now now' k m :
    spec_step (Lookup now now' k) m (live now m)
      (Found (e ← live now m !! k;
              if past_reauth_threshold e now' then None else Some e))
| spec_lookup_past now now' k m :
    spec_step (LookupPastReauth now now' k) m (live now m)
      (Found (e ← live now m !! k;
              if past_reauth_threshold e now' then Some e else None))
| spec_contains now k m :
    spec_step (Contains now k) m (live now m)
      (Answer (bool_decide (is_Some (live now m !! k))))
| spec_invalidate k m :
    spec_step (Invalidate k) m (delete k m) (Found (m !! k))
| spec_remove_ssid s m es :
    es ≡ₚ (map_to_list (filter (fun ke => ke.1.1.1 = s) m)).*2 ->
    spec_step (RemoveSsid s) m (filter (fun ke => ke.1.1.1 <> s) m) (Removed es).

(** *** Lists of entries as maps *)

Lemma matches_key e s b sec : matches e s b sec = true <-> key e = (s, b, sec).
Proof.
  unfold matches, key. rewrite !andb_true_iff, !bool_decide_eq_true.
  intuition congruence.
Qed.

Lemma fst_keys (c : cache) : ((fun e => (key e, e)) <$> c).*1 = key <$> c.
Proof. rewrite <- list_fmap_compose. by apply list_fmap_ext. Qed.

Lemma abs_lookup c k e :
  NoDup (key <$> c) -> abs c !! k = Some e <-> e ∈ c /\ key e = k.
Proof.
  intros Hnd. unfold abs. rewrite <- elem_of_list_to_map by (by rewrite fst_keys).
  rewrite list_elem_of_fmap. split.
  - by intros (? & [= -> ->] & ?).
  - intros [? <-]. eauto.
Qed.

Lemma abs_none c k : abs c !! k = None <-> k ∉ key <$> c.
Proof. unfold abs. by rewrite <- not_elem_of_list_to_map, fst_keys. Qed.

Lemma abs_size c : NoDup (key <$> c) -> size (abs c) = length c.
Proof.
  intros. unfold abs. by rewrite map_size_list_to_map, length_fmap;
    rewrite ?fst_keys.
Qed.

Lemma abs_perm c c' : NoDup (key <$> c) -> c ≡ₚ c' -> abs c = abs c'.
Proof.
  intros Hnd Hp. unfold abs. apply list_to_map_proper.
  - by rewrite fst_keys.
  - by rewrite Hp.
Qed.

Lemma abs_cons e c : abs (e :: c) = <[key e := e]> (abs c).
Proof. done. Qed.

Lemma nodup_filter (P : PmksaEntry.t -> Prop) `{!forall x, Decision (P x)} c :
  NoDup (key <$> c) -> NoDup (key <$> filter P c).
Proof.
  intros Hnd. eapply sublist_NoDup; [done|].
  apply fmap_sublist, sublist_filter.
Qed.

Lemma abs_filter (P : PmksaEntry.t -> Prop) (Q : key_t * PmksaEntry.t -> Prop)
    `{!forall x, Decision (P x)} `{!forall x, Decision (Q x)} c :
  (forall e, P e <-> Q (key e, e)) -> NoDup (key <$> c) ->
  abs (filter P c) = filter Q (abs c).
Proof.
  intros HPQ Hnd. apply map_eq. intros k. apply option_eq. intros e.
  rewrite map_lookup_filter_Some.
  rewrite !abs_lookup by (done || by apply nodup_filter).
  rewrite list_elem_of_filter, HPQ. split.
  - by intros [[? ?] <-].
  - by intros [[? <-] ?].
Qed.

Lemma abs_expired now c :
  NoDup (key <$> c) -> abs (remove_expired now c) = live now (abs c).
Proof. by apply abs_filter. Qed.

Lemma wf_filter (P : PmksaEntry.t -> Prop) `{!forall x, Decision (P x)} c :
  wf c -> wf (filter P c).
Proof.
  intros [Hnd Hl]. split; [by apply nodup_filter|].
  pose proof (length_filter P c). lia.
Qed.

(** *** [swap_remove] and the eviction loop *)

Lemma swap_remove_perm {A} (l : list A) i x :
  l !! i = Some x -> l ≡ₚ x :: swap_remove l i.
Proof.
  intros Hi. unfold swap_remove.
  destruct l as [|y l' _] using rev_ind; [done|].
  rewrite last_snoc, length_app. cbn [length].
  replace (length l' + 1 - 1)%nat with (length l') by lia.
  apply lookup_app_Some in Hi as [Hi|[Hlen Hi]].
  - pose proof (lookup_lt_Some _ _ _ Hi) as Hlt.
    rewrite insert_app_l, take_app_le, take_ge by (rewrite ?length_insert; lia).
    rewrite insert_take_drop, <- (take_drop_middle l' i x Hi) at 1 by done.
    solve_Permutation.
  - apply list_lookup_singleton_Some in Hi as [Hz ->].
    replace i with (length l') by lia.
    rewrite insert_app_r_alt, Nat.sub_diag by lia. cbn.
    rewrite take_app_length. solve_Permutation.
Qed.

Lemma oldest_spec (c : cache) :
  c <> [] ->
  exists o, c !! oldest_index c = Some o
            /\ forall e, e ∈ c -> expires o <= expires e.
Proof.
  intros Hne. unfold oldest_index.
  enough (Hgen : forall n s acc,
    (0 < s)%nat -> (s + n <= length c)%nat ->
    (exists o, c !! acc = Some o
       /\ forall j e, (j < s)%nat -> c !! j = Some e -> expires o <= expires e) ->
    exists o, c !! fold_left (fun oldest i =>
         match c !! i, c !! oldest with
         | Some e, Some o => if expires e <? expires o then i else oldest
         | _, _ => oldest
         end) (seq s n) acc = Some o
       /\ forall j e, (j < s + n)%nat -> c !! j = Some e -> expires o <= expires e).
  { destruct c as [|e0 c']; [done|]. cbn [length].
    destruct (Hgen (length c') 1%nat 0%nat) as (o & Ho & Hmin);
      [lia|cbn; lia|exists e0; split; [done|]|].
    { intros j e Hj Hje. assert (j = 0%nat) as -> by lia.
      injection Hje as ->. lia. }
    exists o. split; [by replace (S (length c') - 1)%nat with (length c') by lia|].
    intros e [j Hj]%list_elem_of_lookup. eapply Hmin; [|done].
    apply lookup_lt_Some in Hj. cbn in Hj. lia. }
  induction n as [|n IH]; intros s acc Hs Hlen (o & Ho & Hmin).
  - cbn. exists o. split; [done|]. intros j e Hj. apply Hmin. lia.
  - cbn [seq fold_left].
    destruct (lookup_lt_is_Some_2 c s) as [e He]; [lia|]. rewrite He, Ho.
    replace (s + S n)%nat with (S s + n)%nat by lia.
    apply IH; [lia|lia|].
    destruct (Z.ltb_spec (expires e) (expires o)) as [Hlt|Hge];
      [exists e|exists o]; (split; [done|]); intros j e' Hj Hje;
      (destruct (decide (j = s)) as [->|]; [simplify_eq; lia|]);
      specialize (Hmin j e' ltac:(lia) Hje); lia.
Qed.

(** *** The operations *)

Lemma abs_swap_remove c i e :
  wf c -> c !! i = Some e ->
  wf (swap_remove c i) /\ abs (swap_remove c i) = delete (key e) (abs c)
  /\ length (swap_remove c i) = (length c - 1)%nat.
Proof.
  intros [Hnd Hl] Hi. pose proof (swap_remove_perm _ _ _ Hi) as Hp.
  assert (Hnd' : NoDup (key <$> e :: swap_remove c i)) by (by rewrite <- Hp).
  pose proof (Permutation_length Hp) as Hlen. cbn in Hlen, Hnd'.
  apply NoDup_cons in Hnd' as [Hni Hnd'].
  split_and!; [split; [done|lia]| |lia].
  rewrite (abs_perm _ _ Hnd Hp), abs_cons, delete_insert_id; [done|].
  by apply abs_none.
Qed.

Lemma abs_replace c i e e' :
  wf c -> c !! i = Some e -> key e' = key e ->
  wf (<[i:=e']> c) /\ abs (<[i:=e']> c) = <[key e' := e']> (abs c).
Proof.
  intros [Hnd Hl] Hi Hk.
  pose proof (lookup_lt_Some _ _ _ Hi) as Hlt.
  assert (Hkeys : key <$> <[i:=e']> c = key <$> c).
  { rewrite list_fmap_insert, Hk. apply list_insert_id.
    by rewrite list_lookup_fmap, Hi. }
  split; [split; [by rewrite Hkeys|by rewrite length_insert]|].
  assert (Hp' : <[i:=e']> c ≡ₚ e' :: take i c ++ drop (S i) c)
    by (rewrite insert_take_drop by done; solve_Permutation).
  assert (Hp : c ≡ₚ e :: take i c ++ drop (S i) c)
    by (rewrite <- (take_drop_middle c i e Hi) at 1; solve_Permutation).
  rewrite (abs_perm _ _ ltac:(by rewrite Hkeys) Hp'), (abs_perm c _ Hnd Hp).
  by rewrite !abs_cons, Hk, insert_insert_eq.
Qed.

Lemma abs_push c e :
  wf c -> abs c !! key e = None -> (length c < MAX_ENTRIES)%nat ->
  wf (c ++ [e]) /\ abs (c ++ [e]) = <[key e := e]> (abs c).
Proof.
  intros [Hnd _] Hk%abs_none Hl.
  assert (Hp : c ++ [e] ≡ₚ e :: c) by solve_Permutation.
  assert (NoDup (key <$> c ++ [e])) by (rewrite Hp; by constructor).
  split; [split; [done|len_lia]|]. by rewrite (abs_perm _ _ ltac:(done) Hp).
Qed.

(** The first match in a cache with unique keys is the map's entry. *)
Lemma list_find_key c s b sec :
  NoDup (key <$> c) ->
  match list_find (fun e => matches e s b sec = true) c with
  | Some (i, e) => c !! i = Some e /\ key e = (s, b, sec)
                   /\ abs c !! (s, b, sec) = Some e
  | None => abs c !! (s, b, sec) = None
  end.
Proof.
  intros Hnd. destruct (list_find _ c) as [[i e]|] eqn:Hf.
  - apply list_find_Some in Hf as (Hi & Hm%matches_key & _).
    split_and!; [done|done|]. apply abs_lookup; [done|].
    split; [by eapply list_elem_of_lookup_2|done].
  - apply abs_none. rewrite list_elem_of_fmap. intros (e & He & Hin).
    rewrite list_find_None, Forall_forall in Hf. apply (Hf e Hin).
    by apply matches_key.
Qed.

Lemma cache_find_key c (f : PmksaEntry.t -> bool) s b sec :
  NoDup (key <$> c) ->
  find (fun e => matches e s b sec && f e) c
  = (e ← abs c !! (s, b, sec); if f e then Some e else None).
Proof.
  intros Hnd. unfold find. apply option_eq. intros e.
  rewrite fmap_Some, bind_Some. split.
  - intros ([i e'] & Hf & ->). apply list_find_Some in Hf as (Hi & Hm & _).
    apply andb_prop in Hm as [Hm%matches_key Hfe]. exists e'. cbn.
    rewrite Hfe. split; [|done]. apply abs_lookup; [done|].
    split; [by eapply list_elem_of_lookup_2|done].
  - intros (e' & He & Hfe). destruct (f e') eqn:Hf; [|done]. simplify_eq.
    apply abs_lookup in He as [Hin Hk]; [|done].
    destruct (list_find (fun e => matches e s b sec && f e = true) c)
      as [[i e']|] eqn:Hl.
    + exists (i, e'). split; [done|]. apply list_find_Some in Hl as (Hi & Hm & _).
      apply andb_prop in Hm as [Hm%matches_key _]. cbn.
      assert (Hi' : abs c !! key e = Some e') by (apply abs_lookup; [done|];
        split; [by eapply list_elem_of_lookup_2|congruence]).
      assert (Hi'' : abs c !! key e = Some e) by (by apply abs_lookup).
      congruence.
    + rewrite list_find_None, Forall_forall in Hl. destruct (Hl e Hin).
      by rewrite (proj2 (matches_key _ _ _ _) Hk), Hf.
Qed.

Lemma insert_simulates now e c :
  wf c -> wf (insert now e c) /\
  spec_step (Insert now e) (abs c) (abs (insert now e c)) Done.
Proof.
  intros Hwf. pose proof (wf_filter (fun x => now < expires x) c Hwf) as Hwf'.
  pose proof (abs_expired now c (proj1 Hwf)) as Hlive.
  unfold insert. change (filter _ c) with (remove_expired now c) in Hwf'.
  set (c1 := remove_expired now c) in *.
  pose proof (list_find_key c1 (ssid e) (bssid e) (security e) (proj1 Hwf')) as Hf.
  fold (key e) in Hf.
  destruct (list_find _ c1) as [[i old]|].
  - destruct Hf as (Hi & Hk & Hm).
    destruct (abs_replace c1 i old e Hwf' Hi ltac:(done)) as [? ->].
    split; [done|]. rewrite Hlive in *. constructor. left. by eexists.
  - destruct (Nat.eqb_spec (length c1) MAX_ENTRIES) as [Hfull|Hroom].
    + destruct (oldest_spec c1) as (o & Ho & Hmin); [by destruct c1|].
      destruct (abs_swap_remove c1 _ o Hwf' Ho) as (Hw & Ha & Hl).
      destruct (abs_push (swap_remove c1 (oldest_index c1)) e) as [? ->]; [done| | |].
      * rewrite Ha, lookup_delete_None. by right.
      * unfold MAX_ENTRIES in *. lia.
      * split; [done|]. rewrite Ha, Hlive in *. eapply spec_evict with (v := o).
        -- done.
        -- rewrite <- Hlive. by rewrite abs_size by apply Hwf'.
        -- rewrite <- Hlive. apply abs_lookup; [apply Hwf'|].
           split; [by eapply list_elem_of_lookup_2|done].
        -- intros k v. rewrite <- Hlive. intros [Hin _]%abs_lookup; [|apply Hwf'].
           by apply Hmin.
    + destruct Hwf' as [Hnd Hl]. destruct (abs_push c1 e) as [? ->];
        [done|done|lia|]. split; [done|]. rewrite Hlive in *. constructor. right.
      rewrite <- Hlive, abs_size by done. lia.
Qed.

Lemma existsb_key c s b sec :
  NoDup (key <$> c) ->
  existsb (fun e => matches e s b sec) c
  = bool_decide (is_Some (abs c !! (s, b, sec))).
Proof.
  intros Hnd. apply eq_true_iff_eq. rewrite existsb_exists, bool_decide_eq_true.
  split.
  - intros (e & Hin & Hm%matches_key). exists e.
    apply abs_lookup; [done|]. by split; [apply list_elem_of_In|].
  - intros [e He]. apply abs_lookup in He as [Hin Hk]; [|done]. exists e.
    by rewrite <- list_elem_of_In, matches_key.
Qed.

Lemma abs_values c : NoDup (key <$> c) -> (map_to_list (abs c)).*2 ≡ₚ c.
Proof.
  intros Hnd. unfold abs. rewrite map_to_list_to_map by (by rewrite fst_keys).
  rewrite <- list_fmap_compose. by rewrite list_fmap_id.
Qed.

Lemma invalidate_simulates s b sec c c' r :
  wf c -> invalidate s b sec c = (c', r) ->
  wf c' /\ spec_step (Invalidate (s, b, sec)) (abs c) (abs c') (Found r).
Proof.
  intros Hwf. pose proof (list_find_key c s b sec (proj1 Hwf)) as Hf.
  unfold invalidate.
  destruct (list_find _ c) as [[i e]|]; intros Heq; simplify_eq.
  - destruct Hf as (Hi & Hk & Hm).
    destruct (abs_swap_remove c i e Hwf Hi) as (? & -> & _). split; [done|].
    rewrite Hk, <- Hm. constructor.
  - split; [done|]. pose proof (spec_invalidate (s, b, sec) (abs c')) as Hs.
    by rewrite Hf, delete_id in Hs.
Qed.

Lemma remove_ssid_simulates s c c' es :
  wf c -> remove_ssid s c = (c', es) ->
  wf c' /\ spec_step (RemoveSsid s) (abs c) (abs c') (Removed es).
Proof.
  intros Hwf [= <- <-]. pose proof (proj1 Hwf) as Hnd.
  split; [by apply wf_filter|].
  rewrite (abs_filter (fun e => ssid e <> s) (fun ke => ke.1.1.1 <> s)) by done.
  constructor.
  rewrite <- (abs_filter (fun e => ssid e = s) (fun ke => ke.1.1.1 = s)) by done.
  symmetry. apply abs_values. by apply nodup_filter.
Qed.

Lemma step_simulates o c c' r :
  wf c -> exec o c = (c', r) -> wf c' /\ spec_step o (abs c) (abs c') r.
Proof.
  intros Hwf. pose proof (proj1 Hwf) as Hnd.
  assert (Hexp : forall now, wf (remove_expired now c))
    by (intros; by apply wf_filter).
  destruct o as [now e|now now' [[s b] sec]|now now' [[s b] sec]|now [[s b] sec]
                |[[s b] sec]|s]; cbn.
  - intros Heq; simplify_eq. by apply insert_simulates.
  - intros Heq; simplify_eq. split; [done|].
    rewrite (cache_find_key _ (fun e => negb (past_reauth_threshold e now')))
      by apply Hexp.
    rewrite abs_expired by done.
    pose proof (spec_lookup now now' (s, b, sec) (abs c)) as Hs.
    destruct (live now (abs c) !! _) as [e|]; cbn in *; [|done].
    by destruct (past_reauth_threshold e now').
  - intros Heq; simplify_eq. split; [done|].
    rewrite (cache_find_key _ (fun e => past_reauth_threshold e now')) by apply Hexp.
    rewrite abs_expired by done. constructor.
  - intros Heq; simplify_eq. split; [done|].
    rewrite existsb_key by apply Hexp. rewrite abs_expired by done. constructor.
  - destruct (invalidate s b sec c) as [c1 r1] eqn:Hi. intros Heq; simplify_eq.
    by apply invalidate_simulates.
  - intros Heq; simplify_eq. by apply remove_ssid_simulates.
Qed.

End PmksaSpec.

(** ** What the cache promises *)

Module PmksaContract.
Import PmksaEntry PmksaCache PmksaSpec.

(** A sequence of operations, with the answers of each. *)
Fixpoint run (ops : list op) (c : cache) : cache * list response :=
  match ops with
  | [] => (c, [])
  | o :: ops =>
      let (c1, r) := exec o c in
      let (c2, rs) := run ops c1 in (c2, r :: rs)
  end.

Inductive spec_run
  : list op -> gmap key_t PmksaEntry.t -> gmap key_t PmksaEntry.t
    -> list response -> Prop :=
| spec_run_nil m : spec_run [] m m []
| spec_run_cons o ops m1 m2 m3 r rs :
    spec_step o m1 m2 r -> spec_run ops m2 m3 rs ->
    spec_run (o :: ops) m1 m3 (r :: rs).

Lemma run_wf ops c c' rs : wf c -> run ops c = (c', rs) -> wf c'.
Proof.
  revert c rs. induction ops as [|o ops IH]; intros c rs Hwf; cbn.
  - by intros [= <- _].
  - destruct (exec o c) as [c1 r] eqn:He.
    destruct (run ops c1) as [c2 rs2] eqn:Hr. intros [= -> _].
    eapply IH; [|exact Hr]. by eapply step_simulates.
Qed.

Lemma wf_empty : wf [].
Proof. split; [constructor|cbn; lia]. Qed.

(** C10: every sequence of cache operations, started from [PmksaCache::new],
    behaves like the same sequence on a finite map from (SSID, BSSID, AKM):
    same answers, at most [MAX_ENTRIES] entries, one per key, and eviction
    only of an entry that expires soonest. *)
Theorem pmksa_refines_map ops :
  let (c, rs) := run ops [] in
  wf c /\ spec_run ops ∅ (abs c) rs.
Proof.
  change (∅ : gmap key_t PmksaEntry.t) with (abs []).
  generalize wf_empty. generalize ([] : cache).
  induction ops as [|o ops IH]; intros c Hwf; cbn.
  - split; [done|constructor].
  - destruct (exec o c) as [c1 r] eqn:He.
    destruct (step_simulates _ _ _ _ Hwf He) as [Hwf1 Hs].
    specialize (IH c1 Hwf1). destruct (run ops c1) as [c2 rs].
    destruct IH as [? ?]. split; [done|by econstructor].
Qed.

Definition inserted (ops : list op) : list PmksaEntry.t :=
  omap (fun o => match o with Insert _ e => Some e | _ => None end) ops.

(** The entries an operation leaves, and those it returns, were there before
    or are its argument. *)
Lemma exec_elem o c c' r e :
  exec o c = (c', r) ->
  e ∈ c' \/ r = Found (Some e) ->
  e ∈ c \/ exists now, o = Insert now e.
Proof.
  assert (Hre : forall now x, x ∈ remove_expired now c -> x ∈ c)
    by (intros now x [_ ?]%list_elem_of_filter; done).
  assert (Hfind : forall f l, find f l = Some e -> e ∈ l).
  { intros f l Hf. unfold find in Hf. apply fmap_Some in Hf as ([i x] & Hl & ->).
    apply list_find_Some in Hl as (Hi & _). by eapply list_elem_of_lookup_2. }
  destruct o as [now x|now now' [[s b] sec]|now now' [[s b] sec]|now [[s b] sec]
                |[[s b] sec]|s]; cbn.
  - intros Heq. simplify_eq. intros [Hin|]; [|done]. unfold insert in Hin.
    destruct (list_find _ _) as [[i y]|].
    + apply list_elem_of_lookup in Hin as [j Hj].
      apply list_lookup_insert_Some in Hj as [(-> & -> & _)|[_ Hj]]; [eauto|].
      left. apply (Hre now). by eapply list_elem_of_lookup_2.
    + apply elem_of_app in Hin as [Hin|Hin].
      * left. apply (Hre now). destruct (Nat.eqb_spec
          (length (remove_expired now c)) MAX_ENTRIES); [|done].
        destruct (oldest_spec (remove_expired now c)) as (o & Ho & _);
          [by destruct (remove_expired now c)|].
        rewrite (swap_remove_perm _ _ _ Ho). by right.
      * apply list_elem_of_singleton in Hin as ->. eauto.
  - intros Heq. simplify_eq. intros [?|[= ?]]; eauto.
  - intros Heq. simplify_eq. intros [?|[= ?]]; eauto.
  - intros Heq. simplify_eq. intros [?|?]; eauto. done.
  - unfold invalidate. destruct (list_find _ _) as [[i y]|] eqn:Hf; intros Heq;
      simplify_eq; [|by intros [?|?]; [left|]].
    apply list_find_Some in Hf as (Hi & _). intros Hcase. left.
    rewrite (swap_remove_perm _ _ _ Hi).
    destruct Hcase as [?|[= ->]]; [by right|by left].
  - intros Heq. simplify_eq. intros [Hin|?]; [|done].
    apply list_elem_of_filter in Hin as [_ ?]. by left.
Qed.

Lemma run_elem ops c c' rs e :
  run ops c = (c', rs) -> e ∈ c' -> e ∈ c \/ e ∈ inserted ops.
Proof.
  revert c rs. induction ops as [|o ops IH]; intros c rs; cbn.
  - intros [= <- _]. by left.
  - destruct (exec o c) as [c1 r] eqn:He.
    destruct (run ops c1) as [c2 rs2] eqn:Hr. intros [= -> _] Hin.
    destruct (IH _ _ Hr Hin) as [Hin1|Hin1].
    + destruct (exec_elem _ _ _ _ e He ltac:(by left)) as [?|[now ->]];
        [by left|right; left].
    + right. unfold inserted in *. cbn. destruct o; try done. by right.
Qed.

(** Whatever operations ran before, the entry [lookup] returns is exactly
    one that was inserted, with the lifetime it was inserted with (reuse never
    extends a PMK's life), for the SSID, BSSID and AKM asked for, not expired
    when the cache was pruned and below its reauthentication threshold. *)
Theorem pmksa_lookup_fresh ops now now' s b sec c rs c' e :
  run ops [] = (c, rs) -> lookup now now' s b sec c = (c', Some e) ->
  e ∈ inserted ops /\ key e = (s, b, sec)
  /\ now < expires e /\ now' < reauth_at e.
Proof.
  intros Hrun Hl. pose proof (run_wf _ _ _ _ wf_empty Hrun) as [Hnd _].
  unfold lookup in Hl. injection Hl as <- Hf.
  rewrite (cache_find_key _ (fun e => negb (past_reauth_threshold e now'))) in Hf
    by (by apply nodup_filter).
  apply bind_Some in Hf as (x & Hx & Hpast).
  apply abs_lookup in Hx as [Hin Hk]; [|by apply nodup_filter].
  apply list_elem_of_filter in Hin as [Hexp Hin].
  destruct (negb _) eqn:Hneg; [|done]. simplify_eq.
  split_and!; [|done|done|].
  - by destruct (run_elem _ _ _ _ e Hrun Hin) as [?%not_elem_of_nil|].
  - unfold past_reauth_threshold in Hneg. lia.
Qed.

Definition sample (now : Z) (n : Z) : PmksaEntry.t :=
  PmksaEntry.new now "home" (repeat n 6) Sae (repeat 7 16) (repeat 9 32)
    AesCmac.

Lemma pmksa_lookup_fresh_witness :
  sample 5 1 ∈ inserted [Insert 5 (sample 5 1)]
  /\ key (sample 5 1) = ("home", repeat 1 6, Sae)
  /\ 8 < expires (sample 5 1) /\ 9 < reauth_at (sample 5 1).
Proof.
  eapply (pmksa_lookup_fresh [Insert 5 (sample 5 1)] 8 9); vm_compute;
    reflexivity.
Defined.

(** An entry created and inserted at [t0] is what [lookup] finds until 70%
    of its twelve hours have passed, what [lookup_past_reauth] finds from then
    until it expires, and neither finds it afterwards. *)
Theorem pmksa_insert_lookup ops c rs t0 t1 s b sec pmkid pmk mic :
  run ops [] = (c, rs) ->
  let e := PmksaEntry.new t0 s b sec pmkid pmk mic in
  let c1 := insert t0 e c in
  (lookup t1 t1 s b sec c1).2
    = (if t1 <? t0 + secs 30240 then Some e else None)
  /\ (lookup_past_reauth t1 t1 s b sec c1).2
    = (if (t0 + secs 30240 <=? t1) && (t1 <? t0 + secs 43200)
       then Some e else None).
Proof.
  intros Hrun e c1. pose proof (run_wf _ _ _ _ wf_empty Hrun) as Hwf.
  destruct (insert_simulates t0 e c Hwf) as [Hwf1 Hs]. fold c1 in Hwf1, Hs.
  assert (Hc1 : abs c1 !! (s, b, sec) = Some e).
  { inversion Hs; by rewrite lookup_insert_eq. }
  assert (Hlive : abs (remove_expired t1 c1) !! (s, b, sec)
    = if t1 <? t0 + secs 43200 then Some e else None).
  { rewrite abs_expired by apply Hwf1. unfold live.
    rewrite map_lookup_filter, Hc1. cbn.
    unfold guard. case_decide; destruct (Z.ltb_spec t1 (t0 + secs 43200));
      cbn in *; done || (unfold PMK_LIFETIME_SECS in *; lia). }
  unfold lookup, lookup_past_reauth. cbn [snd].
  rewrite (cache_find_key _ (fun e => negb (past_reauth_threshold e t1)))
    by (by apply nodup_filter, Hwf1).
  rewrite (cache_find_key _ (fun e => past_reauth_threshold e t1))
    by (by apply nodup_filter, Hwf1).
  rewrite Hlive.
  assert (Hpast : past_reauth_threshold e t1 = (t0 + secs 30240 <=? t1)) by done.
  unfold secs in *.
  destruct (Z.ltb_spec t1 (t0 + 43200 * 10 ^ 9)); cbn; rewrite ?Hpast;
    destruct (Z.leb_spec (t0 + 30240 * 10 ^ 9) t1); split;
    repeat (if_lia; cbn); done || lia.
Qed.

Lemma pmksa_insert_lookup_witness :
  (lookup 100 100 "home" (repeat 1 6) Sae (insert 5 (sample 5 1) [])).2
  = Some (sample 5 1).
Proof.
  exact (proj1 (pmksa_insert_lookup [] [] [] 5 100 "home" (repeat 1 6) Sae
    (repeat 7 16) (repeat 9 32) AesCmac eq_refl)).
Defined.

(** The lifetime and reauthentication percentage handed to the kernel for
    an entry [PmksaEntry::new] made are in nl80211's ranges at every later
    clock reading (1 to 2^32-1 seconds, 1 to 100 percent), the percentage's
    arithmetic never overflows, and while the entry is live the kernel's
    reauthentication time, percentage of lifetime, is never later than the
    entry's own threshold except for the 1% minimum. *)
Theorem pmksa_kernel_attributes t0 now s b sec pmkid pmk mic :
  t0 <= now ->
  let e := PmksaEntry.new t0 s b sec pmkid pmk mic in
  let lifetime := remaining_lifetime_secs e now in
  (1 <= lifetime <= 43200) /\
  exists percent, remaining_reauth_percent (E := unit) e now = Ok percent
    /\ 1 <= percent <= 100
    /\ (percent = 1 \/ percent * lifetime <= 100 * saturating_secs_since (reauth_at e) now).
Proof.
  intros Hnow e lifetime.
  set (l := saturating_secs_since (expires e) now).
  set (r := saturating_secs_since (reauth_at e) now).
  assert (Hl : 0 <= l <= 43200).
  { unfold l, saturating_secs_since. cbn. unfold secs, PMK_LIFETIME_SECS.
    split; [apply Z.div_pos; lia|].
    apply Z.div_le_upper_bound; lia. }
  assert (Hr : 0 <= r <= 43200).
  { unfold r, saturating_secs_since. cbn. unfold secs, PMK_LIFETIME_SECS,
      PMK_REAUTH_THRESHOLD_PERCENT.
    change (43200 * 70 / 100) with 30240.
    split; [apply Z.div_pos; lia|]. apply Z.div_le_upper_bound; lia. }
  assert (Hlife : lifetime = Z.max 1 l).
  { unfold lifetime, remaining_lifetime_secs, clamp, as_u32, wrap. fold l.
    rewrite Z.mod_small; lia. }
  split; [lia|]. unfold remaining_reauth_percent. fold l r.
  destruct (Z.eqb_spec l 0); [exists 1; split_and!; lia || done|].
  if_lia. set (q := r * 100 / l).
  assert (Hq : l * q <= r * 100) by (apply Z.mul_div_le; lia).
  assert (0 <= q) by (apply Z.div_pos; lia).
  exists (clamp 1 100 q). unfold clamp, as_u8, wrap.
  split_and!; [by rewrite Z.mod_small by lia|lia|lia|].
  destruct (Z.le_gt_cases q 1); [left; lia|right]. rewrite Hlife. nia.
Qed.

Lemma pmksa_kernel_attributes_witness :
  exists percent,
    remaining_reauth_percent (E := unit) (sample 5 1) (secs 21600) = Ok percent
    /\ 1 <= percent <= 100.
Proof.
  destruct (pmksa_kernel_attributes 5 (secs 21600) "home" (repeat 1 6) Sae
    (repeat 7 16) (repeat 9 32) AesCmac ltac:(vm_compute; discriminate))
    as [_ (p & Hp & Hb & _)].
  exists p. split; assumption.
Defined.

End PmksaContract.
