(* ===== verification/IkeCodec.v ===== *)
(** * The IKEv2 wire codec

    [src/src/ipsec/ikev2/codec.rs]: the message header, the payloads with
    their nested structures (proposals, transforms, attributes, traffic
    selectors, configuration attributes) and the generic payload chain.  The
    decoders index and slice their buffers with the operations of [Prelude]
    that can panic, and their [while] loops run on fuel, so that their
    totality is a theorem.  [Module IkeCodecTotal] proves it, [Module IkeWf]
    says which messages are well formed and [Module IkeCodecFacts] proves their
    round trip. *)

From S2P Require Import Prelude Errors.

Definition IKE_HEADER_LEN : nat := 28.
Definition IKE_VERSION_2 : Z := 32.
Definition FLAG_INITIATOR : Z := 8.
Definition FLAG_VERSION : Z := 16.
Definition FLAG_RESPONSE : Z := 32.

Module ExchangeType.

Inductive t := IkeSaInit | IkeAuth | CreateChildSa | Informational.

#[global] Instance t_eq_dec : EqDecision t.
Proof. solve_decision. Defined.

(** [exchange as u8]. *)
Definition as_u8 (x : t) : Z :=
  match x with
  | IkeSaInit => 34 | IkeAuth => 35 | CreateChildSa => 36 | Informational => 37
  end.

Definition from_u8 (value : Z) : option t :=
  match value with
  | 34 => Some IkeSaInit
  | 35 => Some IkeAuth
  | 36 => Some CreateChildSa
  | 37 => Some Informational
  | _ => None
  end.

(** [impl Display]. *)
Definition to_string (x : t) : string :=
  match x with
  | IkeSaInit => "IKE_SA_INIT"
  | IkeAuth => "IKE_AUTH"
  | CreateChildSa => "CREATE_CHILD_SA"
  | Informational => "INFORMATIONAL"
  end.

End ExchangeType.

Module payload_type.
Definition NONE : Z := 0.
Definition SA : Z := 33.
Definition KE : Z := 34.
Definition IDI : Z := 35.
Definition IDR : Z := 36.
Definition CERT : Z := 37.
Definition CERTREQ : Z := 38.
Definition AUTH : Z := 39.
Definition NONCE : Z := 40.
Definition NOTIFY : Z := 41.
Definition DELETE : Z := 42.
Definition VENDOR_ID : Z := 43.
Definition TSI : Z := 44.
Definition TSR : Z := 45.
Definition SK : Z := 46.
Definition CP : Z := 47.
Definition EAP : Z := 48.
Definition SKF : Z := 53.
End payload_type.

Module protocol_id.
Definition IKE : Z := 1.
Definition AH : Z := 2.
Definition ESP : Z := 3.
End protocol_id.

Module transform_type.
Definition ENCR : Z := 1.
Definition PRF : Z := 2.
Definition INTEG : Z := 3.
Definition DH : Z := 4.
Definition ESN : Z := 5.
End transform_type.

Module notify_type.
Definition INVALID_SYNTAX : Z := 7.
Definition NO_PROPOSAL_CHOSEN : Z := 14.
Definition INVALID_KE_PAYLOAD : Z := 17.
Definition AUTHENTICATION_FAILED : Z := 24.
Definition SINGLE_PAIR_REQUIRED : Z := 34.
Definition TS_UNACCEPTABLE : Z := 38.
Definition NAT_DETECTION_SOURCE_IP : Z := 16388.
Definition NAT_DETECTION_DESTINATION_IP : Z := 16389.
Definition COOKIE : Z := 16390.
Definition REKEY_SA : Z := 16393.
Definition ESP_TFC_PADDING_NOT_SUPPORTED : Z := 16394.
Definition NON_FIRST_FRAGMENTS_ALSO : Z := 16395.
Definition MOBIKE_SUPPORTED : Z := 16396.
End notify_type.

(** ** The message header *)

Module IkeHeader.

Record t := mk {
  initiator_spi : Z;
  responder_spi : Z;
  next_payload : Z;
  version : Z;
  exchange : ExchangeType.t;
  flags : Z;
  message_id : Z;
  length : Z;
}.

#[global] Instance t_eq_dec : EqDecision t.
Proof. solve_decision. Defined.

Definition new (initiator_spi responder_spi : Z) (exchange : ExchangeType.t)
  (flags message_id : Z) : t :=
  mk initiator_spi responder_spi payload_type.NONE IKE_VERSION_2 exchange flags
    message_id (Z.of_nat IKE_HEADER_LEN).

Definition is_initiator (h : t) : bool := has_bit (flags h) FLAG_INITIATOR.
Definition is_response (h : t) : bool := has_bit (flags h) FLAG_RESPONSE.

Definition encode (h : t) : list Z :=
  to_be 8 (initiator_spi h) ++ to_be 8 (responder_spi h)
  ++ [next_payload h; version h; ExchangeType.as_u8 (exchange h); flags h]
  ++ to_be 4 (message_id h) ++ to_be 4 (length h).

Definition decode (buffer : list Z) : outcome IpsecError.t t :=
  if (List.length buffer <? IKE_HEADER_LEN)%nat
  then ike_err "IKE message is shorter than its header" else
  initiator_spi ← be_at 8 buffer 0;
  responder_spi ← be_at 8 buffer 8;
  next_payload ← idx buffer 16;
  version ← idx buffer 17;
  x ← idx buffer 18;
  exchange ← ok_or (ExchangeType.from_u8 x)
               (IpsecError.new IpsecError.NoSupport
                  "unsupported IKE exchange type");
  flags ← idx buffer 19;
  message_id ← be_at 4 buffer 20;
  length ← be_at 4 buffer 24;
  if negb (Z.land version 240 =? IKE_VERSION_2)
  then ike_err "unsupported IKE major version" else
  if (List.length buffer <? usize length)%nat
     || (usize length <? IKE_HEADER_LEN)%nat
  then ike_err "invalid IKE message length" else
  Ok (mk initiator_spi responder_spi next_payload version exchange flags
        message_id length).

End IkeHeader.

(** ** Payload contents *)

Record TransformAttribute := mkTransformAttribute {
  attr_type : Z;
  attr_value : list Z;
}.

Record Transform := mkTransform {
  transform_type_ : Z;
  transform_id : Z;
  attributes : list TransformAttribute;
}.

Record Proposal := mkProposal {
  number : Z;
  protocol : Z;
  spi : list Z;
  transforms : list Transform;
}.

Record TsSelector := mkTsSelector {
  ts_type : Z;
  ts_protocol : Z;
  start_port : Z;
  end_port : Z;
  ts_start : IpAddr;
  ts_end : IpAddr;
}.

Record ConfigAttribute := mkConfigAttribute {
  cfg_type : Z;
  cfg_value : list Z;
}.

Inductive Payload :=
| Sa (proposals : list Proposal)
| Ke (group : Z) (data : list Z)
| Id (initiator : bool) (id_type : Z) (data : list Z)
| Cert (encoding : Z) (data : list Z)
| CertReq (encoding : Z) (data : list Z)
| Auth (method : Z) (data : list Z)
| Nonce (data : list Z)
| Notify (protocol : Z) (spi : list Z) (notify_type : Z) (data : list Z)
| Delete (protocol spi_size : Z) (spis : list Z)
| Ts (initiator : bool) (selectors : list TsSelector)
| Config (attrs : list ConfigAttribute)
| Eap (data : list Z)
| Encrypted (next : Z) (data : list Z)
| Other (kind : Z) (data : list Z).

#[global] Instance TransformAttribute_eq_dec : EqDecision TransformAttribute.
Proof. solve_decision. Defined.
#[global] Instance Transform_eq_dec : EqDecision Transform.
Proof. solve_decision. Defined.
#[global] Instance Proposal_eq_dec : EqDecision Proposal.
Proof. solve_decision. Defined.
#[global] Instance TsSelector_eq_dec : EqDecision TsSelector.
Proof. solve_decision. Defined.
#[global] Instance ConfigAttribute_eq_dec : EqDecision ConfigAttribute.
Proof. solve_decision. Defined.
#[global] Instance Payload_eq_dec : EqDecision Payload.
Proof. solve_decision. Defined.

(** [TransformAttribute::key_length] and [key_length_bits]. *)
Definition key_length (bits : Z) : TransformAttribute :=
  mkTransformAttribute 14 (to_be 2 bits).

Definition key_length_bits (a : TransformAttribute) : option Z :=
  match attr_value a with
  | [hi; lo] => if attr_type a =? 14 then Some (from_be [hi; lo]) else None
  | _ => None
  end.

(** ** Security association payloads *)

(** The attribute loop of [encode_sa]. *)
Definition encode_attribute (a : TransformAttribute) : list Z :=
  if (attr_type a =? 14) && (length (attr_value a) =? 2)%nat
  then to_be 2 (Z.lor 32768 (attr_type a)) ++ attr_value a
  else to_be 2 (attr_type a) ++ to_be 2 (as_u16 (zlen (attr_value a)))
         ++ attr_value a.

Definition encode_attributes (l : list TransformAttribute) : list Z :=
  concat (encode_attribute <$> l).

(** One transform; [last] is [t_index == transforms.len() - 1]. *)
Definition encode_transform (last : bool) (t : Transform) : list Z :=
  let attributes := encode_attributes (attributes t) in
  let transform_len := 8 + zlen attributes in
  [if last then 0 else 3; 0] ++ to_be 2 (as_u16 transform_len)
  ++ [transform_type_ t; 0] ++ to_be 2 (transform_id t) ++ attributes.

Fixpoint encode_transforms (l : list Transform) : list Z :=
  match l with
  | [] => []
  | t :: l' =>
      encode_transform (match l' with [] => true | _ => false end) t
      ++ encode_transforms l'
  end.

Definition encode_proposal (last : bool) (p : Proposal)
  : outcome IpsecError.t (list Z) :=
  if (255 <? length (spi p))%nat then ike_err "proposal SPI is too long" else
  let proposal_body :=
    [number p; protocol p; as_u8 (zlen (spi p)); as_u8 (zlen (transforms p))]
    ++ spi p ++ encode_transforms (transforms p) in
  let proposal_len :=
    8 + zlen (spi p) + (zlen proposal_body - 4 - zlen (spi p)) in
  Ok ([if last then 0 else 2; 0] ++ to_be 2 (as_u16 proposal_len)
      ++ proposal_body).

Fixpoint encode_sa (proposals : list Proposal) : outcome IpsecError.t (list Z) :=
  match proposals with
  | [] => Ok []
  | p :: ps =>
      b ← encode_proposal (match ps with [] => true | _ => false end) p;
      bs ← encode_sa ps;
      Ok (b ++ bs)
  end.

(** [while attr_cursor + 4 <= cursor + transform_len]. *)
Fixpoint decode_attributes (fuel : nat) (proposal : list Z)
  (attr_cursor limit : nat) : outcome IpsecError.t (list TransformAttribute) :=
  match fuel with
  | O => Diverge
  | S fuel =>
      if negb (attr_cursor + 4 <=? limit)%nat then Ok [] else
      type_ ← be16_at proposal attr_cursor;
      let af := has_bit type_ 32768 in
      let type_ := Z.land type_ 32767 in
      if af then
        if (limit <? attr_cursor + 4)%nat
        then ike_err "truncated transform attribute" else
        value ← slice proposal (attr_cursor + 2) (attr_cursor + 4);
        rest ← decode_attributes fuel proposal (attr_cursor + 4) limit;
        Ok (mkTransformAttribute type_ value :: rest)
      else
        len ← be16_at proposal (attr_cursor + 2);
        let len := usize len in
        if (limit <? attr_cursor + 4 + len)%nat
        then ike_err "invalid transform attribute length" else
        value ← slice proposal (attr_cursor + 4) (attr_cursor + 4 + len);
        rest ← decode_attributes fuel proposal (attr_cursor + 4 + len) limit;
        Ok (mkTransformAttribute type_ value :: rest)
  end.

(** [for _ in 0..transform_count]. *)
Fixpoint decode_transforms (count : nat) (proposal : list Z) (cursor : nat)
  : outcome IpsecError.t (list Transform) :=
  match count with
  | O => Ok []
  | S count =>
      if (length proposal <? cursor + 8)%nat
      then ike_err "truncated transform" else
      transform_len ← be16_at proposal (cursor + 2);
      let transform_len := usize transform_len in
      if (transform_len <? 8)%nat
         || (length proposal <? cursor + transform_len)%nat
      then ike_err "invalid transform length" else
      ty ← idx proposal (cursor + 4);
      id ← be16_at proposal (cursor + 6);
      attributes ← decode_attributes (S (length proposal)) proposal (cursor + 8)
                     (cursor + transform_len);
      rest ← decode_transforms count proposal (cursor + transform_len);
      Ok (mkTransform ty id attributes :: rest)
  end.

(** The body of the proposal loop, on [body[offset..offset + length]]. *)
Definition decode_proposal (proposal : list Z)
  : outcome IpsecError.t Proposal :=
  number ← idx proposal 4;
  protocol ← idx proposal 5;
  spi_len ← idx proposal 6;
  let spi_len := usize spi_len in
  transform_count ← idx proposal 7;
  if (length proposal <? 8 + spi_len)%nat
  then ike_err "invalid proposal SPI length" else
  spi ← slice proposal 8 (8 + spi_len);
  transforms ← decode_transforms (usize transform_count) proposal (8 + spi_len);
  Ok (mkProposal number protocol spi transforms).

(** [while offset + 8 <= body.len()]. *)
Fixpoint decode_sa_loop (fuel : nat) (body : list Z) (offset : nat)
  : outcome IpsecError.t (list Proposal) :=
  match fuel with
  | O => Diverge
  | S fuel =>
      if negb (offset + 8 <=? length body)%nat then Ok [] else
      last ← idx body offset;
      len ← be16_at body (offset + 2);
      let len := usize len in
      if (len <? 8)%nat || (length body <? offset + len)%nat
      then ike_err "invalid proposal length" else
      proposal ← slice body offset (offset + len);
      p ← decode_proposal proposal;
      if last =? 0 then Ok [p] else
      rest ← decode_sa_loop fuel body (offset + len);
      Ok (p :: rest)
  end.

Definition decode_sa (body : list Z) : outcome IpsecError.t (list Proposal) :=
  decode_sa_loop (S (length body)) body 0.

(** ** Traffic selector payloads *)

Definition encode_ts_selector (s : TsSelector) : outcome IpsecError.t (list Z) :=
  la ← (match ts_type s, ts_start s, ts_end s with
        | 7, V4 a, V4 b => Ok (16, a ++ b)
        | 8, V6 a, V6 b => Ok (40, a ++ b)
        | 7, _, _ | 8, _, _ =>
            ike_err "traffic selector type does not match its addresses"
        | other, _, _ =>
            Err (IpsecError.new IpsecError.NoSupport
                   ("unsupported traffic selector type " +:+ pretty other))
        end : outcome IpsecError.t (Z * list Z));
  let (length, addresses) := (la : Z * list Z) in
  Ok ([ts_type s; ts_protocol s] ++ to_be 2 length ++ to_be 2 (start_port s)
      ++ to_be 2 (end_port s) ++ addresses).

(** The two addresses of a selector at [offset]. *)
Definition decode_ts_addresses (body : list Z) (offset : nat) (ts_type : Z)
  (length : nat) : outcome IpsecError.t (IpAddr * IpAddr) :=
  match ts_type with
  | 7 =>
      if negb (length =? 16)%nat
      then ike_err "invalid IPv4 traffic selector length" else
      a0 ← idx body (offset + 8);
      a1 ← idx body (offset + 9);
      a2 ← idx body (offset + 10);
      a3 ← idx body (offset + 11);
      b0 ← idx body (offset + 12);
      b1 ← idx body (offset + 13);
      b2 ← idx body (offset + 14);
      b3 ← idx body (offset + 15);
      Ok (V4 [a0; a1; a2; a3], V4 [b0; b1; b2; b3])
  | 8 =>
      if negb (length =? 40)%nat
      then ike_err "invalid IPv6 traffic selector length" else
      a ← slice body (offset + 8) (offset + 24);
      b ← slice body (offset + 24) (offset + 40);
      Ok (V6 a, V6 b)
  | other =>
      Err (IpsecError.new IpsecError.NoSupport
             ("unsupported traffic selector type " +:+ pretty other))
  end.

(** [for _ in 0..count]. *)
Fixpoint decode_ts_loop (count : nat) (body : list Z) (offset : nat)
  : outcome IpsecError.t (list TsSelector) :=
  match count with
  | O => Ok []
  | S count =>
      if (length body <? offset + 8)%nat
      then ike_err "truncated traffic selector" else
      ts_type ← idx body offset;
      protocol ← idx body (offset + 1);
      len ← be16_at body (offset + 2);
      let len := usize len in
      if (len <? 8)%nat || (length body <? offset + len)%nat
      then ike_err "invalid traffic selector length" else
      start_port ← be16_at body (offset + 4);
      end_port ← be16_at body (offset + 6);
      addrs ← decode_ts_addresses body offset ts_type len;
      let (a, b) := (addrs : IpAddr * IpAddr) in
      rest ← decode_ts_loop count body (offset + len);
      Ok (mkTsSelector ts_type protocol start_port end_port a b :: rest)
  end.

Definition decode_ts (body : list Z) : outcome IpsecError.t (list TsSelector) :=
  if (length body <? 4)%nat
  then ike_err "truncated traffic selector payload" else
  count ← idx body 0;
  decode_ts_loop (usize count) body 4.

(** ** Delete and configuration payloads *)

Definition encode_delete_spi (spi_size spi : Z) : outcome IpsecError.t (list Z) :=
  match spi_size with
  | 4 => Ok (to_be 4 spi)
  | 8 => Ok (to_be 8 spi)
  | _ => ike_err "invalid delete SPI size"
  end.

(** [for index in 0..count]: the SPI at [4 + index * spi_size]. *)
Definition decode_delete_spi (body : list Z) (spi_size index : nat)
  : outcome IpsecError.t Z :=
  let start := (4 + index * spi_size)%nat in
  match spi_size with
  | 4%nat => be_at 4 body start
  | 8%nat =>
      high ← be_at 4 body start;
      low ← be_at 4 body (start + 4);
      if negb (high =? 0)
      then ike_err "64-bit SPI does not fit the IKE SPI representation"
      else Ok low
  | _ => Ok 0
  end.

Definition encode_config_attribute (a : ConfigAttribute)
  : outcome IpsecError.t (list Z) :=
  if (65535 <? zlen (cfg_value a))
  then ike_err "configuration attribute is too long"
  else Ok (to_be 2 (cfg_type a) ++ to_be 2 (as_u16 (zlen (cfg_value a)))
           ++ cfg_value a).

(** [while offset + 4 <= body.len()]. *)
Fixpoint decode_config (fuel : nat) (body : list Z) (offset : nat)
  : outcome IpsecError.t (list ConfigAttribute) :=
  match fuel with
  | O => Diverge
  | S fuel =>
      if negb (offset + 4 <=? length body)%nat then Ok [] else
      type_ ← be16_at body offset;
      let type_ := Z.land type_ 32767 in
      len ← be16_at body (offset + 2);
      let len := usize len in
      if (length body <? offset + 4 + len)%nat
      then ike_err "invalid configuration attribute length" else
      value ← slice body (offset + 4) (offset + 4 + len);
      rest ← decode_config fuel body (offset + 4 + len);
      Ok (mkConfigAttribute type_ value :: rest)
  end.

(** ** Payloads *)

(** [Payload::payload_type]. *)
Definition payload_type_of (p : Payload) : Z :=
  match p with
  | Sa _ => payload_type.SA
  | Ke _ _ => payload_type.KE
  | Id initiator _ _ =>
      if initiator then payload_type.IDI else payload_type.IDR
  | Cert _ _ => payload_type.CERT
  | CertReq _ _ => payload_type.CERTREQ
  | Auth _ _ => payload_type.AUTH
  | Nonce _ => payload_type.NONCE
  | Notify _ _ _ _ => payload_type.NOTIFY
  | Delete _ _ _ => payload_type.DELETE
  | Ts initiator _ => if initiator then payload_type.TSI else payload_type.TSR
  | Config _ => payload_type.CP
  | Eap _ => payload_type.EAP
  | Encrypted _ _ => payload_type.SK
  | Other kind _ => kind
  end.

Definition encode_body (p : Payload) : outcome IpsecError.t (list Z) :=
  match p with
  | Sa proposals => encode_sa proposals
  | Ke group data => Ok (to_be 2 group ++ [0; 0] ++ data)
  | Id _ id_type data => Ok ([id_type; 0; 0; 0] ++ data)
  | Cert encoding data | CertReq encoding data => Ok (encoding :: data)
  | Auth method data => Ok ([method; 0; 0; 0] ++ data)
  | Nonce data => Ok data
  | Notify protocol spi notify_type data =>
      if (255 <? length spi)%nat then ike_err "notify SPI is too long"
      else Ok ([protocol; as_u8 (zlen spi)] ++ to_be 2 notify_type ++ spi ++ data)
  | Delete protocol spi_size spis =>
      encoded ← collect (encode_delete_spi spi_size) spis;
      Ok ([protocol; spi_size] ++ to_be 2 (as_u16 (zlen spis)) ++ concat encoded)
  | Ts _ selectors =>
      encoded ← collect encode_ts_selector selectors;
      Ok ([as_u8 (zlen selectors); 0; 0; 0] ++ concat encoded)
  | Config attributes =>
      encoded ← collect encode_config_attribute attributes;
      Ok (concat encoded)
  | Eap data | Encrypted _ data | Other _ data => Ok data
  end.

Definition decode_payload (kind : Z) (body : list Z) (next : Z)
  : outcome IpsecError.t Payload :=
  if kind =? payload_type.SA then ps ← decode_sa body; Ok (Sa ps)
  else if kind =? payload_type.KE then
    if (length body <? 4)%nat then ike_err "truncated key exchange payload" else
    group ← be16_at body 0;
    data ← slice_from body 4;
    Ok (Ke group data)
  else if (kind =? payload_type.IDI) || (kind =? payload_type.IDR) then
    if (length body <? 4)%nat then ike_err "truncated identification payload" else
    id_type ← idx body 0;
    data ← slice_from body 4;
    Ok (Id (kind =? payload_type.IDI) id_type data)
  else if kind =? payload_type.CERT then
    if (length body =? 0)%nat then ike_err "truncated certificate payload" else
    encoding ← idx body 0;
    data ← slice_from body 1;
    Ok (Cert encoding data)
  else if kind =? payload_type.CERTREQ then
    if (length body =? 0)%nat
    then ike_err "truncated certificate request payload" else
    encoding ← idx body 0;
    data ← slice_from body 1;
    Ok (CertReq encoding data)
  else if kind =? payload_type.AUTH then
    if (length body <? 4)%nat then ike_err "truncated authentication payload" else
    method ← idx body 0;
    data ← slice_from body 4;
    Ok (Auth method data)
  else if kind =? payload_type.NONCE then Ok (Nonce body)
  else if kind =? payload_type.NOTIFY then
    if (length body <? 4)%nat then ike_err "truncated notify payload" else
    protocol ← idx body 0;
    spi_size ← idx body 1;
    let spi_size := usize spi_size in
    notify_type ← be16_at body 2;
    if (length body <? 4 + spi_size)%nat
    then ike_err "invalid notify SPI length" else
    spi ← slice body 4 (4 + spi_size);
    data ← slice_from body (4 + spi_size);
    Ok (Notify protocol spi notify_type data)
  else if kind =? payload_type.DELETE then
    if (length body <? 4)%nat then ike_err "truncated delete payload" else
    protocol ← idx body 0;
    size ← idx body 1;
    let spi_size := usize size in
    count ← be16_at body 2;
    let count := usize count in
    if negb ((spi_size =? 0) || (spi_size =? 4) || (spi_size =? 8))%nat
       || (length body <? 4 + count * spi_size)%nat
    then ike_err "invalid delete payload" else
    spis ← collect (decode_delete_spi body spi_size) (seq 0 count);
    Ok (Delete protocol (as_u8 (Z.of_nat spi_size)) spis)
  else if kind =? payload_type.TSI then
    ts ← decode_ts body; Ok (Ts true ts)
  else if kind =? payload_type.TSR then
    ts ← decode_ts body; Ok (Ts false ts)
  else if kind =? payload_type.CP then
    attributes ← decode_config (S (length body)) body 0; Ok (Config attributes)
  else if kind =? payload_type.EAP then Ok (Eap body)
  else if kind =? payload_type.SK then Ok (Encrypted next body)
  else Ok (Other kind body).

(** ** The payload chain and the message *)

(** The loop of [encode_chain] over the encoded bodies. *)
Fixpoint encode_chain_loop (bodies : list (Z * list Z))
  : outcome IpsecError.t (list Z) :=
  match bodies with
  | [] => Ok []
  | (_, body) :: rest =>
      let next := match rest with (kind, _) :: _ => kind
                  | [] => payload_type.NONE end in
      let length := 4 + zlen body in
      if 65535 <? length then ike_err "payload is too long" else
      tail ← encode_chain_loop rest;
      Ok ([next; 0] ++ to_be 2 (as_u16 length) ++ body ++ tail)
  end.

Definition encode_chain (payloads : list Payload)
  : outcome IpsecError.t (list Z) :=
  bodies ← collect (fun p => b ← encode_body p; Ok (payload_type_of p, b))
             payloads;
  encode_chain_loop bodies.

Definition trailing_bytes (n : nat) : string :=
  "trailing bytes after last IKE payload (" +:+ pretty n +:+ " bytes)".

(** The [while] loop of [decode_chain] and the check after it. *)
Fixpoint decode_chain_loop (fuel : nat) (payload_type : Z) (data : list Z)
  : outcome IpsecError.t (list Payload) :=
  let finish (data : list Z) : outcome IpsecError.t (list Payload) :=
    if negb (length data =? 0)%nat
    then ike_err (trailing_bytes (length data)) else Ok [] in
  match fuel with
  | O => Diverge
  | S fuel =>
      if payload_type =? payload_type.NONE then finish data else
      if (length data <? 4)%nat then ike_err "truncated payload header" else
      next ← idx data 0;
      len ← be16_at data 2;
      let len := usize len in
      if (len <? 4)%nat || (length data <? len)%nat
      then ike_err "invalid payload length" else
      body ← slice data 4 len;
      p ← decode_payload payload_type body next;
      data' ← slice_from data len;
      rest ← (if payload_type =? payload_type.SK then finish data'
              else decode_chain_loop fuel next data');
      Ok (p :: rest)
  end.

Definition decode_chain (first_type : Z) (data : list Z)
  : outcome IpsecError.t (list Payload) :=
  decode_chain_loop (S (length data)) first_type data.

Module Message.

Record t := new {
  header : IkeHeader.t;
  payloads : list Payload;
}.

#[global] Instance t_eq_dec : EqDecision t.
Proof. solve_decision. Defined.

(** The type of the first payload. *)
Definition first_type (payloads : list Payload) : Z :=
  match payloads with [] => payload_type.NONE | p :: _ => payload_type_of p end.

Definition encode (m : t) : outcome IpsecError.t (list Z) :=
  chain ← encode_chain (payloads m);
  let h := header m in
  let h := IkeHeader.mk (IkeHeader.initiator_spi h) (IkeHeader.responder_spi h)
             (first_type (payloads m)) (IkeHeader.version h)
             (IkeHeader.exchange h) (IkeHeader.flags h)
             (IkeHeader.message_id h) (IkeHeader.length h) in
  let buffer := IkeHeader.encode h ++ chain in
  let length := as_u32 (zlen buffer) in
  Ok (take 24 buffer ++ to_be 4 length ++ drop 28 buffer).

Definition decode (buffer : list Z) : outcome IpsecError.t t :=
  header ← IkeHeader.decode buffer;
  buffer ← slice buffer 0 (usize (IkeHeader.length header));
  chain ← slice_from buffer IKE_HEADER_LEN;
  payloads ← decode_chain (IkeHeader.next_payload header) chain;
  Ok (new header payloads).

Definition payload (m : t) (kind : Z) : option Payload :=
  List.find (fun p => payload_type_of p =? kind) (payloads m).

End Message.

(** ** Totality *)

Module IkeCodecTotal.

Lemma returns_ike_err {A} m : returns (ike_err (A:=A) m).
Proof. done. Qed.

#[export] Hint Resolve returns_ike_err : returns.

Lemma decode_attributes_returns fuel proposal cursor limit :
  (limit <= length proposal)%nat -> (limit - cursor < fuel)%nat ->
  returns (decode_attributes fuel proposal cursor limit).
Proof.
  revert cursor. induction fuel as [|fuel IH]; intros cursor Hl Hf; [lia|].
  cbn [decode_attributes]. returns_tac; apply IH; lia.
Qed.

Lemma decode_transforms_returns count proposal cursor :
  returns (decode_transforms count proposal cursor).
Proof.
  revert cursor. induction count as [|count IH]; intros cursor; [done|].
  cbn [decode_transforms]. returns_tac; apply IH || apply decode_attributes_returns; lia.
Qed.

Lemma decode_proposal_returns proposal :
  (8 <= length proposal)%nat -> returns (decode_proposal proposal).
Proof.
  intros. unfold decode_proposal. returns_tac. apply decode_transforms_returns.
Qed.

Lemma decode_sa_returns body : returns (decode_sa body).
Proof.
  unfold decode_sa.
  enough (H : forall fuel offset, (length body - offset < fuel)%nat ->
            returns (decode_sa_loop fuel body offset)) by (apply H; lia).
  induction fuel as [|fuel IH]; intros offset Hf; [lia|]. cbn [decode_sa_loop]. returns_tac.
  - apply decode_proposal_returns. lia.
  - apply IH. lia.
Qed.

Lemma decode_ts_addresses_returns body offset ty len :
  (offset + len <= length body)%nat ->
  returns (decode_ts_addresses body offset ty len).
Proof.
  intros. unfold decode_ts_addresses.
  repeat case_match; auto with returns; returns_tac.
Qed.

Lemma decode_ts_returns body : returns (decode_ts body).
Proof.
  unfold decode_ts. returns_tac. generalize 4%nat as offset.
  generalize (usize a) as count.
  induction count as [|count IH]; intros offset; [done|]. cbn [decode_ts_loop]. returns_tac.
  apply decode_ts_addresses_returns. lia.
Qed.

Lemma decode_delete_spi_returns body size index count :
  (index < count)%nat -> (4 + count * size <= length body)%nat ->
  returns (decode_delete_spi body size index).
Proof.
  intros Hi Hl. unfold decode_delete_spi.
  do 9 (destruct size as [|size]; [returns_tac; nia|]). done.
Qed.

Lemma decode_config_returns fuel body offset :
  (length body - offset < fuel)%nat -> returns (decode_config fuel body offset).
Proof.
  revert offset. induction fuel as [|fuel IH]; intros offset Hf; [lia|].
  cbn [decode_config]. returns_tac. apply IH. lia.
Qed.

Lemma returns_collect_in {E A B} (f : A -> outcome E B) l :
  (forall a, a ∈ l -> returns (f a)) -> returns (collect f l).
Proof.
  induction l as [|a l IH]; intros Hf; [done|]. cbn [collect].
  apply returns_bind; [apply Hf; by left|]. intros. apply returns_bind; [|done].
  apply IH. intros. apply Hf. by right.
Qed.

Lemma decode_payload_returns kind body next :
  returns (decode_payload kind body next).
Proof.
  unfold decode_payload. repeat case_match; auto with returns;
    try (returns_tac; fail).
  - apply returns_bind; [apply decode_sa_returns|done].
  - returns_tac. apply returns_collect_in. intros i Hi%elem_of_seq.
    eapply decode_delete_spi_returns with (count := usize a1); lia.
  - apply returns_bind; [apply decode_ts_returns|done].
  - apply returns_bind; [apply decode_ts_returns|done].
  - apply returns_bind; [apply decode_config_returns; lia|done].
Qed.

Lemma decode_chain_returns ty data : returns (decode_chain ty data).
Proof.
  unfold decode_chain.
  enough (H : forall fuel ty data, (length data < fuel)%nat ->
            returns (decode_chain_loop fuel ty data)) by (apply H; lia).
  clear. induction fuel as [|fuel IH]; intros ty data Hf; [lia|]. cbn [decode_chain_loop].
  returns_tac.
  - apply decode_payload_returns.
  - apply IH. lia.
Qed.

Lemma header_decode_returns buffer : returns (IkeHeader.decode buffer).
Proof. unfold IkeHeader.decode, IKE_HEADER_LEN. returns_tac. Qed.

Lemma header_decode_length buffer h :
  IkeHeader.decode buffer = Ok h ->
  (IKE_HEADER_LEN <= usize (IkeHeader.length h) <= length buffer)%nat.
Proof.
  unfold IkeHeader.decode. destruct (_ <? _)%nat; [done|].
  rewrite !bind_ok. intros H. repeat (destruct H as (? & ? & H); try rewrite bind_ok in H).
  repeat case_match; try done. simplify_eq. cbn. lia.
Qed.

(** [Message::decode] is total: on any octets whatever it returns a message
    or an error.  No index or slice of the nested decoders is out of range and
    none of their loops runs on. *)
Theorem ike_decode_total (buffer : list Z) : returns (Message.decode buffer).
Proof.
  unfold Message.decode. apply returns_bind; [apply header_decode_returns|].
  intros h Hh%header_decode_length. returns_tac.
  apply decode_chain_returns.
Qed.

End IkeCodecTotal.

(** ** Well-formed messages

    The values the wire format can carry: every field in its width, every
    length within its length field, and the encodings the codec gives two
    readings excluded (see [wf_payload]). *)

Module IkeWf.

Definition wf_attribute (a : TransformAttribute) : Prop :=
  fits 15 (attr_type a) /\ fits 16 (zlen (attr_value a)).

Definition wf_transform (t : Transform) : Prop :=
  fits 8 (transform_type_ t) /\ fits 16 (transform_id t)
  /\ Forall wf_attribute (attributes t)
  /\ fits 16 (8 + zlen (encode_attributes (attributes t))).

Definition wf_proposal (p : Proposal) : Prop :=
  fits 8 (number p) /\ fits 8 (protocol p) /\ fits 8 (zlen (spi p))
  /\ fits 8 (zlen (transforms p)) /\ Forall wf_transform (transforms p)
  /\ fits 16 (8 + zlen (spi p) + zlen (encode_transforms (transforms p))).

Definition wf_selector (s : TsSelector) : Prop :=
  fits 8 (ts_protocol s) /\ fits 16 (start_port s) /\ fits 16 (end_port s)
  /\ match ts_start s, ts_end s with
     | V4 a, V4 b => ts_type s = 7 /\ length a = 4%nat /\ length b = 4%nat
     | V6 a, V6 b => ts_type s = 8 /\ length a = 16%nat /\ length b = 16%nat
     | _, _ => False
     end.

Definition wf_config_attribute (a : ConfigAttribute) : Prop :=
  fits 15 (cfg_type a) /\ fits 16 (zlen (cfg_value a)).

(** A Delete for IKE itself has no SPIs; [Other] is for the types the codec
    does not know.  The [next] of an [Encrypted] payload is the type of its
    first inner payload, which [encode_chain] does not write: it can only be
    NONE here. *)
Definition wf_payload (p : Payload) : Prop :=
  match p with
  | Sa ps => Forall wf_proposal ps
  | Ke group _ => fits 16 group
  | Id _ id_type _ => fits 8 id_type
  | Cert encoding _ | CertReq encoding _ => fits 8 encoding
  | Auth method _ => fits 8 method
  | Notify protocol spi ty _ =>
      fits 8 protocol /\ fits 8 (zlen spi) /\ fits 16 ty
  | Delete protocol size spis =>
      fits 8 protocol /\ fits 16 (zlen spis)
      /\ ((size = 4 \/ size = 8) /\ Forall (fits 32) spis
          \/ size = 0 /\ spis = [])
  | Ts _ sels => fits 8 (zlen sels) /\ Forall wf_selector sels
  | Config l => Forall wf_config_attribute l
  | Encrypted next _ => next = payload_type.NONE
  | Other kind _ => fits 8 kind /\ kind <> payload_type.NONE
      /\ (kind < payload_type.SA \/ payload_type.EAP < kind
          \/ kind = payload_type.VENDOR_ID)
  | Nonce _ | Eap _ => True
  end.

(** The encoded body, with the length field of its generic header. *)
Definition fits_chain (p : Payload) : Prop :=
  match encode_body p with Ok b => fits 16 (4 + zlen b) | _ => False end.

(** Every payload is well formed and fits; an SK payload is the last one. *)
Fixpoint wf_chain (ps : list Payload) : Prop :=
  match ps with
  | [] => True
  | p :: ps' =>
      wf_payload p /\ fits_chain p
      /\ (payload_type_of p = payload_type.SK -> ps' = [])
      /\ wf_chain ps'
  end.

Definition wf_header (h : IkeHeader.t) : Prop :=
  fits 64 (IkeHeader.initiator_spi h) /\ fits 64 (IkeHeader.responder_spi h)
  /\ fits 8 (IkeHeader.version h)
  /\ Z.land (IkeHeader.version h) 240 = IKE_VERSION_2
  /\ fits 8 (IkeHeader.flags h) /\ fits 32 (IkeHeader.message_id h).

#[global] Instance wf_attribute_dec a : Decision (wf_attribute a).
Proof. unfold wf_attribute. apply _. Defined.
#[global] Instance wf_transform_dec t : Decision (wf_transform t).
Proof. unfold wf_transform. apply _. Defined.
#[global] Instance wf_proposal_dec p : Decision (wf_proposal p).
Proof. unfold wf_proposal. apply _. Defined.
#[global] Instance wf_selector_dec s : Decision (wf_selector s).
Proof. unfold wf_selector. destruct (ts_start s), (ts_end s); apply _. Defined.
#[global] Instance wf_config_attribute_dec a : Decision (wf_config_attribute a).
Proof. unfold wf_config_attribute. apply _. Defined.
#[global] Instance wf_payload_dec p : Decision (wf_payload p).
Proof. destruct p; cbn; apply _. Defined.
#[global] Instance fits_chain_dec p : Decision (fits_chain p).
Proof. unfold fits_chain. destruct (encode_body p); apply _. Defined.
#[global] Instance wf_chain_dec ps : Decision (wf_chain ps).
Proof. induction ps; cbn; apply _. Defined.
#[global] Instance wf_header_dec h : Decision (wf_header h).
Proof. unfold wf_header. apply _. Defined.

End IkeWf.

(** ** Round trips *)

Module IkeCodecFacts.
Import IkeWf IkeCodecTotal.

Lemma land_15 x : fits 15 x -> Z.land x 32767 = x.
Proof.
  intros Hx. change 32767 with (Z.ones 15). rewrite Z.land_ones by lia.
  by apply Z.mod_small.
Qed.

Lemma no_af x : fits 15 x -> has_bit x 32768 = false.
Proof.
  intros Hx. unfold has_bit. change 32768 with (2 ^ 15).
  enough (Z.land x (2 ^ 15) = 0) as -> by done.
  apply Z.bits_inj'. intros n Hn. rewrite Z.land_spec, Z.bits_0.
  rewrite Z.pow2_bits_eqb by lia. destruct (Z.eqb_spec 15 n) as [<-|];
    [|by rewrite andb_false_r].
  rewrite andb_true_r, Z.bits_above_log2; [done|unfold fits in Hx; lia|].
  destruct (Z.eq_dec x 0) as [->|]; [done|].
  apply Z.log2_lt_pow2; unfold fits in Hx; lia.
Qed.

Lemma fits_15_16 x : fits 15 x -> fits 16 x.
Proof. apply fits_weaken. lia. Qed.

Lemma encode_attribute_length a :
  wf_attribute a -> (4 <= length (encode_attribute a))%nat.
Proof. intros _. unfold encode_attribute. case_match; len_lia. Qed.

(** One attribute at the cursor. *)
Lemma decode_attributes_cons fuel l c limit a s :
  drop c l = encode_attribute a ++ s -> wf_attribute a ->
  (c + length (encode_attribute a) <= limit)%nat -> (limit <= length l)%nat ->
  decode_attributes (S fuel) l c limit =
  (rest ← decode_attributes fuel l (c + length (encode_attribute a)) limit;
   Ok (a :: rest)).
Proof.
  intros Hd [Ht Hv] Hl Hlen. pose proof (encode_attribute_length a ltac:(done)).
  assert (Hc : (c <= length l)%nat) by lia.
  cbn [decode_attributes]. if_lia. cbn [negb].
  rewrite (be16_cursor_0 _ _ _ Hd). destruct a as [ty v].
  unfold encode_attribute in *. cbn [attr_type attr_value] in *.
  destruct ((ty =? 14) && (length v =? 2)%nat) eqn:Haf.
  - assert (ty = 14) as -> by lia. change (Z.lor 32768 14) with 32782 in *.
    rewrite <- app_assoc, be16_cons by done. cbn [mbind outcome_bind].
    change (has_bit 32782 32768) with true. cbn match. if_lia.
    rewrite (slice_cursor _ _ _ _ _ Hc Hd), <- app_assoc, slice_mid by len_lia.
    autorewrite with lens. cbn [mbind outcome_bind].
    by replace (2 + length v)%nat with 4%nat by lia.
  - rewrite <- !app_assoc, be16_cons by (by apply fits_15_16).
    cbn [mbind outcome_bind]. rewrite no_af, land_15 by done.
    rewrite (be16_cursor _ _ _ _ Hd), <- !app_assoc, wrap_small by done.
    rewrite be16_mid by (done || len_lia). cbn [mbind outcome_bind].
    unfold zlen. rewrite Nat2Z.id. autorewrite with lens in *. if_lia.
    rewrite <- !Nat.add_assoc, (slice_cursor _ _ _ _ _ Hc Hd), <- !app_assoc.
    rewrite app_assoc, slice_mid by len_lia. cbn [mbind outcome_bind].
    done.
Qed.

Lemma decode_attributes_ok l limit al : forall fuel c s,
  drop c l = encode_attributes al ++ s -> Forall wf_attribute al ->
  limit = (c + length (encode_attributes al))%nat -> (limit <= length l)%nat ->
  (length (encode_attributes al) < fuel)%nat ->
  decode_attributes fuel l c limit = Ok al.
Proof.
  induction al as [|a al IH]; intros fuel c s Hd Hwf Hl Hlen Hf;
    (destruct fuel as [|fuel]; [lia|]).
  - cbn [encode_attributes fmap list_fmap concat length] in Hl.
    cbn [decode_attributes]. by if_lia.
  - apply Forall_cons in Hwf as [Ha Hwf].
    pose proof (encode_attribute_length a Ha).
    change (encode_attributes (a :: al))
      with (encode_attribute a ++ encode_attributes al) in *.
    rewrite <- app_assoc in Hd. autorewrite with lens in *.
    rewrite (decode_attributes_cons _ _ _ _ _ _ Hd) by (done || lia).
    erewrite IH; [done| |done|lia|lia|lia].
    by eapply drop_cursor.
Qed.

Lemma zlen_8 n : usize (8 + Z.of_nat n) = (8 + n)%nat.
Proof. lia. Qed.

Lemma encode_transform_length last t :
  length (encode_transform last t)
  = (8 + length (encode_attributes (attributes t)))%nat.
Proof. unfold encode_transform. len_lia. Qed.

Lemma decode_transforms_ok l tl : forall c s,
  drop c l = encode_transforms tl ++ s -> (c <= length l)%nat ->
  Forall wf_transform tl -> decode_transforms (length tl) l c = Ok tl.
Proof.
  induction tl as [|t tl IH]; intros c s Hd Hc Hwf; [done|].
  apply Forall_cons in Hwf as [(Hty & Hid & Hal & Hlen) Hwf].
  cbn [encode_transforms] in Hd. rewrite <- app_assoc in Hd.
  set (tail := encode_transforms tl ++ s) in *.
  pose proof (cursor_length _ _ _ Hd Hc) as Hll.
  assert (Hd' := drop_cursor _ _ _ _ _ Hd eq_refl).
  rewrite length_app, encode_transform_length in Hll.
  rewrite encode_transform_length in Hd'.
  unfold encode_transform in Hd. rewrite !to_be_2 in Hd. cbn [app] in Hd.
  cbn [length decode_transforms]. if_lia.
  rewrite (be16_cursor _ _ _ 2 Hd), (be16_cursor _ _ _ 6 Hd),
    (idx_cursor _ _ _ 4 Hd).
  cbn [be16_at idx lookup list_lookup Nat.add mbind outcome_bind].
  rewrite !from_be_2 by (done || by rewrite wrap_small).
  rewrite wrap_small by done. unfold zlen in *. rewrite zlen_8. if_lia.
  erewrite decode_attributes_ok; [| |done|lia|lia|lia].
  - cbn [mbind outcome_bind]. rewrite IH with (s := s) by (done || lia).
    by destruct t.
  - rewrite <- drop_drop, Hd. reflexivity.
Qed.

(** The wire form of a proposal that fits. *)
Definition proposal_bytes (last : bool) (p : Proposal) : list Z :=
  [if last then 0 else 2; 0]
  ++ to_be 2 (8 + zlen (spi p) + zlen (encode_transforms (transforms p)))
  ++ [number p; protocol p; zlen (spi p); zlen (transforms p)]
  ++ spi p ++ encode_transforms (transforms p).

Lemma encode_proposal_ok last p :
  wf_proposal p -> encode_proposal last p = Ok (proposal_bytes last p).
Proof.
  intros (_ & _ & Hs & Ht & _ & Hlen). unfold encode_proposal, proposal_bytes.
  if_lia. rewrite !(wrap_small 8) by done.
  replace (8 + zlen (spi p) + _) with
    (8 + zlen (spi p) + zlen (encode_transforms (transforms p))) by len_lia.
  by rewrite wrap_small.
Qed.

Lemma proposal_bytes_length last p :
  length (proposal_bytes last p)
  = (8 + length (spi p) + length (encode_transforms (transforms p)))%nat.
Proof. unfold proposal_bytes. len_lia. Qed.

Lemma decode_proposal_ok last p :
  wf_proposal p -> decode_proposal (proposal_bytes last p) = Ok p.
Proof.
  intros (Hn & Hp & Hs & Ht & Htl & Hlen).
  pose proof (proposal_bytes_length last p) as Hl.
  unfold decode_proposal. set (m := proposal_bytes last p) in *.
  assert (Hm : m = [if last then 0 else 2; 0]
    ++ to_be 2 (8 + zlen (spi p) + zlen (encode_transforms (transforms p)))
    ++ [number p; protocol p; zlen (spi p); zlen (transforms p)]
    ++ spi p ++ encode_transforms (transforms p)) by done.
  rewrite to_be_2 in Hm. cbn [app] in Hm. clearbody m.
  rewrite (idx_cursor m _ 0 4 Hm), (idx_cursor m _ 0 5 Hm),
    (idx_cursor m _ 0 6 Hm), (idx_cursor m _ 0 7 Hm).
  cbn [idx lookup list_lookup mbind outcome_bind]. unfold zlen in *.
  rewrite !Nat2Z.id. if_lia.
  assert (Hsl : slice (E:=IpsecError.t) m 8 (8 + length (spi p)) = Ok (spi p)).
  { rewrite Hm. refine (slice_mid (_ :: _ :: _ :: _ :: _ :: _ :: _ :: _ :: []) _ _ _ _ _ _);
      done. }
  rewrite Hsl. cbn [mbind outcome_bind].
  erewrite decode_transforms_ok with (s := []); [by destruct p| |lia|done].
  rewrite <- (drop_drop m (length (spi p)) 8), Hm, app_nil_r. cbn [drop].
  apply drop_app_length.
Qed.

Lemma decode_sa_loop_ok body ps : forall fuel c b,
  encode_sa ps = Ok b -> drop c body = b -> (c <= length body)%nat ->
  Forall wf_proposal ps -> (length b < fuel)%nat ->
  decode_sa_loop fuel body c = Ok ps.
Proof.
  induction ps as [|p ps IH]; intros fuel c b Henc Hd Hc Hwf Hf;
    (destruct fuel as [|fuel]; [lia|]); cbn [decode_sa_loop].
  - injection Henc as <-. pose proof (cursor_length _ _ _ Hd Hc).
    by if_lia.
  - apply Forall_cons in Hwf as [Hp Hwf]. cbn [encode_sa] in Henc.
    set (last := match ps with [] => true | _ => false end) in *.
    rewrite encode_proposal_ok in Henc by done. cbn [mbind outcome_bind] in Henc.
    apply bind_ok in Henc as (bs & Hbs & Heq).
    assert (b = proposal_bytes last p ++ bs) as -> by congruence. clear Heq.
    pose proof (cursor_length _ _ _ Hd Hc) as Hl.
    pose proof (proposal_bytes_length last p) as Hpl.
    rewrite length_app in Hl, Hf. if_lia. cbn [negb].
    assert (Hi : idx (E:=IpsecError.t) body c = Ok (if last then 0 else 2))
      by (by rewrite (idx_cursor_0 _ _ _ Hd)).
    assert (Hb : be16_at (E:=IpsecError.t) body (c + 2)
      = Ok (8 + zlen (spi p) + zlen (encode_transforms (transforms p)))).
    { rewrite (be16_cursor _ _ _ 2 Hd). unfold proposal_bytes.
      rewrite <- !app_assoc. apply be16_mid; [done|apply Hp]. }
    rewrite Hi, Hb. cbn [mbind outcome_bind]. unfold zlen.
    replace (usize _) with (length (proposal_bytes last p)) by lia.
    if_lia.
    assert (Hsl : slice (E:=IpsecError.t) body c (c + length (proposal_bytes last p))
      = Ok (proposal_bytes last p)).
    { rewrite (slice_cursor_0 _ _ _ _ Hc Hd). by apply slice_head. }
    rewrite Hsl. cbn [mbind outcome_bind]. rewrite decode_proposal_ok by done.
    cbn [mbind outcome_bind]. destruct ps as [|p' ps']; [done|].
    cbn match. change (2 =? 0) with false. cbn match.
    erewrite IH; [done|done| |lia|done|lia]. by eapply drop_cursor.
Qed.

Lemma decode_sa_ok ps b :
  encode_sa ps = Ok b -> Forall wf_proposal ps -> decode_sa b = Ok ps.
Proof. intros. unfold decode_sa. eapply decode_sa_loop_ok; eauto; lia. Qed.

Lemma collect_ok {E A B} (f : A -> outcome E B) (g : A -> B) l :
  Forall (fun a => f a = Ok (g a)) l -> collect f l = Ok (g <$> l).
Proof.
  induction 1 as [|a l Ha _ IH]; [done|]. cbn. rewrite Ha. cbn. by rewrite IH.
Qed.

(** Traffic selectors. *)

Definition addr_octets (a : IpAddr) : list Z :=
  match a with V4 l => l | V6 l => l end.

Definition selector_bytes (s : TsSelector) : list Z :=
  [ts_type s; ts_protocol s] ++ to_be 2 (if ts_type s =? 7 then 16 else 40)
  ++ to_be 2 (start_port s) ++ to_be 2 (end_port s)
  ++ addr_octets (ts_start s) ++ addr_octets (ts_end s).

Definition selector_len (s : TsSelector) : nat :=
  if ts_type s =? 7 then 16 else 40.

Lemma encode_selector_ok s :
  wf_selector s ->
  encode_ts_selector s = Ok (selector_bytes s)
  /\ length (selector_bytes s) = selector_len s.
Proof.
  intros (_ & _ & _ & H). unfold encode_ts_selector, selector_bytes, selector_len.
  destruct (ts_start s), (ts_end s); try done; destruct H as (-> & ? & ?);
    (split; [reflexivity|cbn [Z.eqb Pos.eqb addr_octets]; len_lia]).
Qed.

Lemma decode_ts_addresses_ok body c s tail :
  drop c body = selector_bytes s ++ tail -> (c <= length body)%nat ->
  wf_selector s ->
  decode_ts_addresses body c (ts_type s) (selector_len s)
  = Ok (ts_start s, ts_end s).
Proof.
  intros Hd Hc Hwf. destruct Hwf as (_ & _ & _ & H).
  unfold selector_bytes, selector_len in *.
  destruct (ts_start s) as [a|a], (ts_end s) as [b|b]; try done;
    destruct H as (Hty & Ha & Hb); rewrite Hty in *; rewrite !to_be_2 in Hd;
    cbn [Z.eqb Pos.eqb addr_octets app] in *; cbn [decode_ts_addresses].
  - do 5 (destruct a as [|? a]; try done). do 5 (destruct b as [|? b]; try done).
    rewrite (idx_cursor _ _ _ 8 Hd), (idx_cursor _ _ _ 9 Hd),
      (idx_cursor _ _ _ 10 Hd), (idx_cursor _ _ _ 11 Hd),
      (idx_cursor _ _ _ 12 Hd), (idx_cursor _ _ _ 13 Hd),
      (idx_cursor _ _ _ 14 Hd), (idx_cursor _ _ _ 15 Hd). reflexivity.
  - rewrite !(slice_cursor _ _ _ _ _ Hc Hd).
    assert (H1 : forall x0 x1 x2 x3 x4 x5 x6 x7 r,
      slice (E:=IpsecError.t) (x0::x1::x2::x3::x4::x5::x6::x7::(a ++ b) ++ r) 8 24 = Ok a).
    { intros. rewrite <- app_assoc.
      apply (slice_mid [x0;x1;x2;x3;x4;x5;x6;x7]); [done|cbn; lia]. }
    assert (H2 : forall x0 x1 x2 x3 x4 x5 x6 x7 r,
      slice (E:=IpsecError.t) (x0::x1::x2::x3::x4::x5::x6::x7::(a ++ b) ++ r) 24 40 = Ok b).
    { intros. rewrite <- app_assoc.
      apply (slice_mid ([x0;x1;x2;x3;x4;x5;x6;x7] ++ a)); len_lia. }
    rewrite H1, H2. reflexivity.
Qed.

Lemma decode_ts_loop_ok body sels : forall c tail,
  drop c body = concat (selector_bytes <$> sels) ++ tail ->
  (c <= length body)%nat -> Forall wf_selector sels ->
  decode_ts_loop (length sels) body c = Ok sels.
Proof.
  induction sels as [|s sels IH]; intros c tail Hd Hc Hwf; [done|].
  apply Forall_cons in Hwf as [Hs Hwf]. cbn [fmap list_fmap concat] in Hd.
  rewrite <- app_assoc in Hd. set (r := concat _ ++ tail) in *.
  destruct (encode_selector_ok s Hs) as [_ Hlen].
  pose proof (cursor_length _ _ _ Hd Hc) as Hl. rewrite length_app, Hlen in Hl.
  assert (Hd' := drop_cursor _ _ _ _ _ Hd eq_refl). rewrite Hlen in Hd'.
  pose proof (decode_ts_addresses_ok _ _ _ _ Hd Hc Hs) as Haddr.
  cbn [length decode_ts_loop].
  assert (Hsl : (16 <= selector_len s)%nat) by (unfold selector_len; case_match; lia).
  if_lia. unfold selector_bytes in Hd. rewrite !to_be_2 in Hd. cbn [app] in Hd.
  rewrite (idx_cursor_0 _ _ _ Hd), (idx_cursor _ _ _ 1 Hd),
    (be16_cursor _ _ _ 2 Hd), (be16_cursor _ _ _ 4 Hd), (be16_cursor _ _ _ 6 Hd).
  cbn [be16_at idx lookup list_lookup Nat.add mbind outcome_bind].
  destruct Hs as (? & ? & ? & Hty).
  rewrite !from_be_2 by (done || by destruct (ts_type s =? 7)).
  replace (usize (if ts_type s =? 7 then 16 else 40)) with (selector_len s)
    by (unfold selector_len; by destruct (ts_type s =? 7)).
  if_lia. rewrite Haddr. cbn [mbind outcome_bind]. rewrite (IH _ _ Hd') by (done || lia).
  by destruct s.
Qed.

(** Delete SPIs. *)

Lemma encode_delete_ok size spis :
  size = 4 \/ size = 8 ->
  collect (encode_delete_spi size) spis = Ok (to_be (usize size) <$> spis).
Proof.
  intros [-> | ->]; apply collect_ok, Forall_true; reflexivity.
Qed.

Lemma decode_delete_ok body size spis : forall k,
  size = 4 \/ size = 8 -> Forall (fits 32) spis ->
  drop (4 + k * usize size) body = concat (to_be (usize size) <$> spis) ->
  (4 + k * usize size <= length body)%nat ->
  collect (decode_delete_spi body (usize size)) (seq k (length spis)) = Ok spis.
Proof.
  induction spis as [|x spis IH]; intros k Hsize Hwf Hd Hc; [done|].
  apply Forall_cons in Hwf as [Hx Hwf]. cbn [fmap list_fmap concat] in Hd.
  cbn [length seq collect].
  assert (Hx' : decode_delete_spi body (usize size) k = Ok x).
  { unfold decode_delete_spi, be_at.
    set (start := (4 + k * usize size)%nat) in *.
    destruct Hsize as [-> | ->].
    - change (Z.to_nat 4) with 4%nat in *. cbn match.
      rewrite (slice_cursor_0 _ _ _ _ Hc Hd).
      rewrite slice_head by done. cbn. by rewrite from_be_to_be_small.
    - change (Z.to_nat 8) with 8%nat in *. cbn match.
      rewrite (to_be_app 4 4), Z.div_small in Hd by (unfold fits in Hx; lia).
      rewrite <- app_assoc in Hd.
      rewrite (slice_cursor_0 _ _ _ _ Hc Hd), <- Nat.add_assoc,
        (slice_cursor _ _ _ 4 _ Hc Hd).
      rewrite slice_head, slice_mid by (by rewrite ?length_to_be). cbn.
      by rewrite !from_be_to_be_small by done. }
  rewrite Hx'. cbn [mbind outcome_bind]. rewrite IH; [done|done|done| |].
  - replace (4 + S k * usize size)%nat with (4 + k * usize size + usize size)%nat by lia.
    eapply drop_cursor; [exact Hd|]. by rewrite length_to_be.
  - pose proof (cursor_length _ _ _ Hd Hc) as Hl.
    rewrite length_app, length_to_be in Hl. lia.
Qed.

(** Configuration attributes. *)

Definition config_bytes (a : ConfigAttribute) : list Z :=
  to_be 2 (cfg_type a) ++ to_be 2 (zlen (cfg_value a)) ++ cfg_value a.

Lemma encode_config_ok l :
  Forall wf_config_attribute l ->
  collect encode_config_attribute l = Ok (config_bytes <$> l).
Proof.
  intros Hwf. apply collect_ok. eapply Forall_impl; [exact Hwf|].
  intros a [Ht Hv]. unfold encode_config_attribute. if_lia.
  by rewrite wrap_small.
Qed.

Lemma decode_config_ok body l : forall fuel c,
  drop c body = concat (config_bytes <$> l) -> (c <= length body)%nat ->
  Forall wf_config_attribute l -> (length body - c < fuel)%nat ->
  decode_config fuel body c = Ok l.
Proof.
  induction l as [|a l IH]; intros fuel c Hd Hc Hwf Hf;
    pose proof (cursor_length _ _ _ Hd Hc) as Hl;
    (destruct fuel as [|fuel]; [lia|]); cbn [decode_config].
  - by if_lia.
  - apply Forall_cons in Hwf as [[Ht Hv] Hwf]. cbn [fmap list_fmap concat] in *.
    assert (Hd' := drop_cursor _ _ _ _ _ Hd eq_refl).
    assert (Hal : length (config_bytes a) = (4 + length (cfg_value a))%nat)
      by (unfold config_bytes; len_lia).
    rewrite length_app, Hal in Hl. rewrite Hal in Hd'. if_lia. cbn [negb].
    unfold config_bytes in Hd at 1. rewrite <- !app_assoc in Hd.
    rewrite (be16_cursor_0 _ _ _ Hd), be16_cons by (by apply fits_15_16).
    cbn [mbind outcome_bind].
    rewrite (be16_cursor _ _ _ 2 Hd), be16_mid by (done || len_lia).
    cbn [mbind outcome_bind]. unfold zlen. rewrite Nat2Z.id. if_lia.
    rewrite <- !Nat.add_assoc, (slice_cursor _ _ _ _ _ Hc Hd).
    rewrite app_assoc, slice_mid by len_lia. cbn [mbind outcome_bind].
    rewrite IH by (done || lia). rewrite land_15 by done. by destruct a.
Qed.

(** Payload bodies. *)

Ltac dispatch :=
  unfold decode_payload; cbn [payload_type_of];
  cbv [payload_type.SA payload_type.KE payload_type.IDI payload_type.IDR
       payload_type.CERT payload_type.CERTREQ payload_type.AUTH
       payload_type.NONCE payload_type.NOTIFY payload_type.DELETE
       payload_type.TSI payload_type.TSR payload_type.CP payload_type.EAP
       payload_type.SK];
  cbn [Z.eqb Pos.eqb orb].

Lemma decode_payload_delete protocol size spis b next :
  wf_payload (Delete protocol size spis) ->
  encode_body (Delete protocol size spis) = Ok b ->
  decode_payload payload_type.DELETE b next = Ok (Delete protocol size spis).
Proof.
  intros (Hp & Hn & Hs) Henc. cbn [encode_body] in Henc.
  assert (Hb : b = [protocol; size] ++ to_be 2 (zlen spis)
                   ++ concat (to_be (usize size) <$> spis)).
  { destruct Hs as [[Hs _]|[-> ->]]; [|by injection Henc as <-].
    rewrite encode_delete_ok, wrap_small in Henc by done. by injection Henc as <-. }
  assert (Hlen : length (concat (to_be (usize size) <$> spis))
                 = (length spis * usize size)%nat).
  { clear. induction spis; [done|]. cbn. rewrite length_app, length_to_be. lia. }
  rewrite to_be_2 in Hb. cbn [app] in Hb. dispatch.
  assert (Hl : length b = (4 + length spis * usize size)%nat) by (subst b; len_lia).
  if_lia. rewrite (idx_cursor b _ 0 0 Hb), (idx_cursor b _ 0 1 Hb),
    (be16_cursor b _ 0 2 Hb). cbn [be16_at idx lookup list_lookup Nat.add mbind outcome_bind].
  rewrite from_be_2 by done. unfold zlen. rewrite Nat2Z.id.
  assert (size = 0 \/ size = 4 \/ size = 8) as Hsize by intuition. if_lia.
  rewrite Z2Nat.id, wrap_small by (unfold fits; lia).
  destruct Hs as [[Hs Hf]|[-> ->]]; [|done].
  rewrite (decode_delete_ok b size spis 0); [done|done|done| |cbn; lia].
  by rewrite Hb.
Qed.

Lemma decode_payload_ts initiator sels b next :
  wf_payload (Ts initiator sels) -> encode_body (Ts initiator sels) = Ok b ->
  decode_payload (payload_type_of (Ts initiator sels)) b next
  = Ok (Ts initiator sels).
Proof.
  intros [Hn Hwf] Henc. cbn [encode_body] in Henc.
  rewrite (collect_ok _ selector_bytes), wrap_small in Henc; [|done|].
  2:{ eapply Forall_impl; [exact Hwf|]. intros s Hs. by apply encode_selector_ok. }
  cbn [mbind outcome_bind app] in Henc.
  assert (Hdec : decode_ts b = Ok sels).
  { injection Henc as <-. unfold decode_ts. cbn [length]. if_lia.
    cbn [idx lookup list_lookup mbind outcome_bind]. unfold zlen.
    rewrite Nat2Z.id. apply decode_ts_loop_ok with (tail := []);
      [|cbn; lia|done]. cbn [drop]. by rewrite app_nil_r. }
  destruct initiator; dispatch; by rewrite Hdec.
Qed.

Lemma decode_payload_ok p b next :
  wf_payload p -> encode_body p = Ok b ->
  (payload_type_of p = payload_type.SK -> next = payload_type.NONE) ->
  decode_payload (payload_type_of p) b next = Ok p.
Proof.
  intros Hwf Henc Hnext.
  destruct p; cbn [encode_body] in Henc; try (apply Ok_inj in Henc as <-; dispatch).
  - dispatch. by rewrite (decode_sa_ok _ _ Henc Hwf).
  - if_lia. rewrite be16_cons by done. cbn [mbind outcome_bind].
    rewrite app_assoc, slice_from_tail by done. done.
  - destruct initiator; cbn [Z.eqb Pos.eqb orb]; if_lia;
      rewrite slice_from_tail by done; done.
  - if_lia. change (encoding :: data) with ([encoding] ++ data).
    by rewrite slice_from_tail.
  - if_lia. change (encoding :: data) with ([encoding] ++ data).
    by rewrite slice_from_tail.
  - if_lia. by rewrite slice_from_tail.
  - done.
  - destruct Hwf as (Hp & Hs & Hty). replace (255 <? length spi0)%nat with false in Henc by len_lia.
    rewrite wrap_small in Henc by done. apply Ok_inj in Henc. rewrite to_be_2 in Henc.
    cbn [app] in Henc. symmetry in Henc. dispatch.
    assert (Hl : length b = (4 + length spi0 + length data)%nat) by (subst b; len_lia).
    if_lia. rewrite (idx_cursor b _ 0 0 Henc), (idx_cursor b _ 0 1 Henc),
      (be16_cursor b _ 0 2 Henc).
    cbn [be16_at idx lookup list_lookup Nat.add mbind outcome_bind].
    rewrite from_be_2 by done. unfold zlen. rewrite Nat2Z.id. if_lia.
    assert (H1 : slice (E:=IpsecError.t) b 4 (4 + length spi0) = Ok spi0)
      by (rewrite Henc; by apply (slice_mid [_; _; _; _])).
    assert (H2 : slice_from (E:=IpsecError.t) b (4 + length spi0) = Ok data)
      by (rewrite Henc; by apply (slice_from_tail (_ :: _ :: _ :: _ :: spi0))).
    cbn [Nat.add] in H1, H2. rewrite H1. cbn [mbind outcome_bind]. by rewrite H2.
  - by apply decode_payload_delete.
  - by apply decode_payload_ts.
  - dispatch. rewrite encode_config_ok in Henc by done.
    apply Ok_inj in Henc as <-. by rewrite decode_config_ok with (l := attrs)
      by (done || lia).
  - done.
  - cbn in Hwf. by rewrite Hwf, Hnext.
  - destruct Hwf as (Hk & H0 & Hother). 
    cbv [payload_type.SA payload_type.EAP payload_type.VENDOR_ID] in *. repeat if_lia. done.
Qed.

(** The chain. *)

Lemma payload_type_nonzero p : wf_payload p -> payload_type_of p <> payload_type.NONE.
Proof. destruct p; cbn; try (by intros; repeat case_match). by intros (_ & ? & _). Qed.

(** The encoder succeeds on well-formed payloads, one generic header each. *)
Lemma encode_chain_cons p ps :
  wf_chain (p :: ps) ->
  exists b tail,
    encode_body p = Ok b /\ fits 16 (4 + zlen b) /\ encode_chain ps = Ok tail
    /\ encode_chain (p :: ps)
       = Ok ([Message.first_type ps; 0] ++ to_be 2 (4 + zlen b) ++ b ++ tail).
Proof.
  revert p. induction ps as [|p' ps IH]; intros p (Hwf & Hfit & _ & Hrest);
    unfold fits_chain in Hfit; destruct (encode_body p) as [b| | |] eqn:Hb;
    try done; exists b.
  - exists []. split_and!; [done|done|done|].
    unfold encode_chain. cbn [collect]. rewrite Hb.
    cbn [mbind outcome_bind encode_chain_loop].
    if_lia. by rewrite wrap_small.
  - destruct (IH p' Hrest) as (b' & tail' & Hb' & _ & _ & Htail).
    eexists. split_and!; [done|done|exact Htail|].
    unfold encode_chain in *. cbn [collect] in *. rewrite Hb, Hb' in *.
    cbn [mbind outcome_bind] in *.
    destruct (collect _ ps) as [bodies| | |]; try done.
    cbn [mbind outcome_bind] in *.
    change (encode_chain_loop ((payload_type_of p, b) :: (payload_type_of p', b') :: bodies))
      with (if 65535 <? 4 + zlen b then ike_err "payload is too long" else
            tail ← encode_chain_loop ((payload_type_of p', b') :: bodies);
            Ok ([payload_type_of p'; 0] ++ to_be 2 (as_u16 (4 + zlen b)) ++ b ++ tail)).
    rewrite Htail. if_lia. by rewrite wrap_small.
Qed.

(** What [decode_chain] reports after the last payload. *)
Definition after_chain (junk : list Z) (ps : list Payload)
  : outcome IpsecError.t (list Payload) :=
  match junk with [] => Ok ps | _ => ike_err (trailing_bytes (length junk)) end.

Lemma decode_chain_loop_ok ps junk : forall fuel chain,
  wf_chain ps -> encode_chain ps = Ok chain ->
  (length (chain ++ junk) < fuel)%nat ->
  decode_chain_loop fuel (Message.first_type ps) (chain ++ junk)
  = after_chain junk ps.
Proof.
  induction ps as [|p ps IH]; intros fuel chain Hwf Henc Hf;
    (destruct fuel as [|fuel]; [lia|]); cbn [decode_chain_loop].
  - injection Henc as <-. by destruct junk.
  - destruct (encode_chain_cons p ps Hwf) as (b & tail & Hb & Hfit & Htail & Heq).
    rewrite Heq in Henc. apply Ok_inj in Henc as <-.
    destruct Hwf as (Hp & _ & Hsk & Hrest).
    pose proof (payload_type_nonzero p Hp). cbn [Message.first_type].
    if_lia. rewrite <- !app_assoc in *. autorewrite with lens in Hf. if_lia.
    set (next := Message.first_type ps) in *.
    set (data := [next; 0] ++ to_be 2 (4 + zlen b) ++ b ++ tail ++ junk).
    assert (Hbe : be16_at (E:=IpsecError.t) data 2 = Ok (4 + zlen b))
      by (by apply be16_mid).
    assert (Hlen : usize (4 + zlen b) = (4 + length b)%nat) by len_lia.
    assert (Hbody : slice (E:=IpsecError.t) data 4 (4 + length b) = Ok b)
      by (unfold data; rewrite app_assoc; by apply slice_mid).
    assert (Hdata : slice_from (E:=IpsecError.t) data (4 + length b)
                    = Ok (tail ++ junk))
      by (unfold data; rewrite 2!app_assoc; apply slice_from_tail; len_lia).
    assert (Hdl : length data = (4 + length b + length tail + length junk)%nat)
      by (unfold data; len_lia).
    change (idx data 0) with (@Ok IpsecError.t Z next). cbn [mbind outcome_bind].
    rewrite Hbe. cbn [mbind outcome_bind]. rewrite Hlen. if_lia.
    rewrite Hbody. cbn [mbind outcome_bind].
    assert (Hn : payload_type_of p = payload_type.SK -> next = payload_type.NONE)
      by (intros ->%Hsk; done).
    rewrite (decode_payload_ok p b next) by done. cbn [mbind outcome_bind].
    rewrite Hdata. cbn [mbind outcome_bind].
    destruct (Z.eqb_spec (payload_type_of p) payload_type.SK) as [Hk|_].
    + rewrite (Hsk Hk) in *. injection Htail as <-. by destruct junk.
    + unfold next. rewrite IH by (done || len_lia). by destruct junk.
Qed.

Lemma decode_chain_ok ps chain junk :
  wf_chain ps -> encode_chain ps = Ok chain ->
  decode_chain (Message.first_type ps) (chain ++ junk) = after_chain junk ps.
Proof. intros. apply decode_chain_loop_ok; [done|done|lia]. Qed.

Lemma encode_chain_succeeds ps : wf_chain ps -> exists chain, encode_chain ps = Ok chain.
Proof.
  destruct ps as [|p ps]; [by exists []|].
  intros (b & tail & _ & _ & _ & Heq)%encode_chain_cons. eauto.
Qed.

(** The header. *)

Lemma exchange_roundtrip x : ExchangeType.from_u8 (ExchangeType.as_u8 x) = Some x.
Proof. by destruct x. Qed.

Lemma header_encode_length h : length (IkeHeader.encode h) = IKE_HEADER_LEN.
Proof. unfold IkeHeader.encode. by autorewrite with lens. Qed.

Lemma header_roundtrip h rest :
  wf_header h -> fits 32 (IkeHeader.length h) ->
  Z.of_nat IKE_HEADER_LEN <= IkeHeader.length h ->
  IkeHeader.length h <= Z.of_nat IKE_HEADER_LEN + zlen rest ->
  IkeHeader.decode (IkeHeader.encode h ++ rest) = Ok h.
Proof.
  intros (Hi & Hr & Hv & Hv2 & Hfl & Hm) Hl Hmin Hmax.
  pose proof (header_encode_length h) as Hlen.
  set (buf := IkeHeader.encode h ++ rest).
  assert (Hbl : length buf = (IKE_HEADER_LEN + length rest)%nat)
    by (unfold buf; len_lia).
  assert (Hbuf : buf = to_be 8 (IkeHeader.initiator_spi h)
    ++ to_be 8 (IkeHeader.responder_spi h)
    ++ [IkeHeader.next_payload h; IkeHeader.version h;
        ExchangeType.as_u8 (IkeHeader.exchange h); IkeHeader.flags h]
    ++ to_be 4 (IkeHeader.message_id h) ++ to_be 4 (IkeHeader.length h) ++ rest)
    by (unfold buf, IkeHeader.encode; by rewrite <- !app_assoc).
  clearbody buf.
  assert (H0 : be_at (E:=IpsecError.t) 8 buf 0 = Ok (IkeHeader.initiator_spi h))
    by (rewrite Hbuf; by apply (be_mid 8 [])).
  assert (H8 : be_at (E:=IpsecError.t) 8 buf 8 = Ok (IkeHeader.responder_spi h))
    by (rewrite Hbuf; by apply be_mid).
  assert (H20 : be_at (E:=IpsecError.t) 4 buf 20 = Ok (IkeHeader.message_id h))
    by (rewrite Hbuf, app_assoc, app_assoc; by apply be_mid).
  assert (H24 : be_at (E:=IpsecError.t) 4 buf 24 = Ok (IkeHeader.length h))
    by (rewrite Hbuf, !app_assoc, <- (app_assoc _ (to_be 4 _) rest); by apply be_mid).
  unfold IkeHeader.decode. if_lia.
  assert (Hix : forall i k, i = (16 + k)%nat -> (k < 4)%nat -> idx (E:=IpsecError.t) buf i
    = idx [IkeHeader.next_payload h; IkeHeader.version h;
        ExchangeType.as_u8 (IkeHeader.exchange h); IkeHeader.flags h] k).
  { intros i k -> Hk. rewrite Hbuf, app_assoc.
    rewrite (idx_app_r (to_be 8 _ ++ to_be 8 _) _ k). unfold idx.
    by rewrite lookup_app_l by (cbn; lia). }
  rewrite H0, H8, H20, H24. cbn [mbind outcome_bind].
  rewrite (Hix 16 0)%nat, (Hix 17 1)%nat, (Hix 18 2)%nat, (Hix 19 3)%nat by lia.
  cbn [idx lookup list_lookup mbind outcome_bind]. rewrite exchange_roundtrip.
  cbn [ok_or mbind outcome_bind]. rewrite Hv2. change (IKE_VERSION_2 =? IKE_VERSION_2) with true.
  cbn [negb]. unfold IKE_HEADER_LEN in *. if_lia. by destruct h.
Qed.

(** The header [Message::encode] writes: the first payload's type and the real
    length replace whatever the caller had there. *)
Definition sent_header (m : Message.t) (length : Z) : IkeHeader.t :=
  let h := Message.header m in
  IkeHeader.mk (IkeHeader.initiator_spi h) (IkeHeader.responder_spi h)
    (Message.first_type (Message.payloads m)) (IkeHeader.version h)
    (IkeHeader.exchange h) (IkeHeader.flags h) (IkeHeader.message_id h) length.

Lemma message_encode_eq m chain :
  encode_chain (Message.payloads m) = Ok chain ->
  fits 32 (Z.of_nat IKE_HEADER_LEN + zlen chain) ->
  Message.encode m
  = Ok (IkeHeader.encode (sent_header m (Z.of_nat IKE_HEADER_LEN + zlen chain))
        ++ chain).
Proof.
  intros Hc Hfit. unfold Message.encode. rewrite Hc. cbn [mbind outcome_bind].
  set (h := IkeHeader.mk _ _ _ _ _ _ _ _).
  pose proof (header_encode_length h) as Hlen.
  replace (zlen (IkeHeader.encode h ++ chain))
    with (Z.of_nat IKE_HEADER_LEN + zlen chain) by len_lia.
  rewrite wrap_small by done. reflexivity.
Qed.

(** C9: a well-formed message is encoded, and decoding the encoding, whatever
    octets follow it in the datagram, gives back exactly its payloads and its
    header with the first payload type and the length filled in. *)
Theorem ike_message_roundtrip m chain junk :
  wf_header (Message.header m) -> wf_chain (Message.payloads m) ->
  encode_chain (Message.payloads m) = Ok chain ->
  fits 32 (Z.of_nat IKE_HEADER_LEN + zlen chain) ->
  exists b,
    Message.encode m = Ok b
    /\ Message.decode (b ++ junk)
       = Ok (Message.new (sent_header m (zlen b)) (Message.payloads m)).
Proof.
  intros Hh Hwf Hc Hfit.
  set (h := sent_header m (Z.of_nat IKE_HEADER_LEN + zlen chain)).
  pose proof (header_encode_length h) as Hlen.
  exists (IkeHeader.encode h ++ chain). split; [by apply message_encode_eq|].
  replace (zlen (IkeHeader.encode h ++ chain))
    with (Z.of_nat IKE_HEADER_LEN + zlen chain) by len_lia.
  unfold Message.decode.
  rewrite <- app_assoc, (header_roundtrip h) by (done || (cbn; len_lia)).
  cbn [mbind outcome_bind]. rewrite app_assoc, slice_head.
  2:{ cbn. unfold IKE_HEADER_LEN in *. len_lia. }
  cbn [mbind outcome_bind]. rewrite slice_from_tail by done.
  cbn [mbind outcome_bind]. pose proof (decode_chain_ok _ chain [] Hwf Hc) as Hd.
  rewrite app_nil_r in Hd.
  change (IkeHeader.next_payload h) with (Message.first_type (Message.payloads m)).
  by rewrite Hd.
Qed.

(** A chain of well-formed payloads is always encodable, decodes to itself,
    and is refused with the number of octets left over when anything follows
    the last payload. *)
Theorem ike_chain_exact ps :
  wf_chain ps ->
  exists chain,
    encode_chain ps = Ok chain
    /\ decode_chain (Message.first_type ps) chain = Ok ps
    /\ forall junk, junk <> [] ->
         decode_chain (Message.first_type ps) (chain ++ junk)
         = ike_err (trailing_bytes (length junk)).
Proof.
  intros Hwf. destruct (encode_chain_succeeds ps Hwf) as [chain Hc].
  exists chain. split; [done|]. split.
  - rewrite <- (app_nil_r chain). by apply (decode_chain_ok ps chain []).
  - intros junk Hj. rewrite (decode_chain_ok ps chain junk) by done. by destruct junk.
Qed.

Definition sample_payloads : list Payload :=
  [Sa [mkProposal 1 protocol_id.IKE []
         [mkTransform transform_type.ENCR 20 [key_length 256];
          mkTransform transform_type.PRF 5 []];
       mkProposal 2 protocol_id.ESP [1; 2; 3; 4]
         [mkTransform transform_type.DH 31 [mkTransformAttribute 20 [7; 7; 7]]]];
   Ke 31 [9; 8; 7]; Nonce [1; 2; 3];
   Notify 0 [] notify_type.COOKIE [5; 5];
   Delete protocol_id.ESP 4 [4294967295; 17];
   Ts true [mkTsSelector 7 0 0 65535 (V4 [10; 0; 0; 1]) (V4 [10; 0; 0; 9])];
   Config [mkConfigAttribute 1 []; mkConfigAttribute 3 [1; 1; 1; 1]];
   Other payload_type.VENDOR_ID [1]].

Definition sample_message : Message.t :=
  Message.new (IkeHeader.new 77 0 ExchangeType.IkeSaInit FLAG_INITIATOR 0)
    sample_payloads.

Lemma sample_wf : wf_header (Message.header sample_message) /\ wf_chain sample_payloads.
Proof.
  split; refine (bool_decide_unpack _ _); vm_compute; exact I.
Qed.

Lemma ike_message_roundtrip_witness :
  exists b,
    Message.encode sample_message = Ok b
    /\ Message.decode (b ++ [0; 0])
       = Ok (Message.new (sent_header sample_message (zlen b)) sample_payloads).
Proof.
  apply (ike_message_roundtrip sample_message
    (match encode_chain sample_payloads with Ok c => c | _ => [] end) [0; 0]).
  - apply sample_wf.
  - apply sample_wf.
  - vm_compute. reflexivity.
  - refine (bool_decide_unpack _ _). vm_compute. exact I.
Defined.

Lemma ike_chain_exact_witness :
  exists chain, encode_chain sample_payloads = Ok chain
    /\ decode_chain (Message.first_type sample_payloads) chain = Ok sample_payloads.
Proof.
  destruct (ike_chain_exact sample_payloads (proj2 sample_wf)) as (c & H1 & H2 & _).
  exists c. split; assumption.
Defined.

End IkeCodecFacts.
