(* ===== verification/TrafficSelector.v ===== *)
(** * Traffic selectors and prefixes

    The selector part of [src/src/ipsec/config.rs] (ordering of addresses,
    [TrafficSelector], [TrafficSelectorPair], [IpNet]) and the narrowing code
    of [src/src/ipsec/ikev2/engine.rs] ([narrow], [narrow_request_selectors],
    [narrow_response_selectors], [ts_from_payloads], [selector_to_net]).
    [Module SelectorSpec] gives a selector its meaning, the set of packets it
    matches; the theorems say what the operations do to that set. *)

From S2P Require Import Prelude Errors Net IpText IkeCodec.

(** ** [std::net::IpAddr] *)

Definition is_ipv4 (a : IpAddr) : bool :=
  match a with V4 _ => true | V6 _ => false end.

(** [u32::from(Ipv4Addr)] and [u128::from(Ipv6Addr)]. *)
Definition addr_value (a : IpAddr) : Z :=
  match a with V4 l | V6 l => from_be l end.

(** [Ord for IpAddr]: every IPv4 address is below every IPv6 address, and
    within a family the octets are compared, most significant first. *)
Definition addr_leb (a b : IpAddr) : bool :=
  match a, b with
  | V4 x, V4 y | V6 x, V6 y => from_be x <=? from_be y
  | V4 _, V6 _ => true
  | V6 _, V4 _ => false
  end.

(** [Ord::max] returns its second argument when the two are equal,
    [Ord::min] its first. *)
Definition addr_max (a b : IpAddr) : IpAddr := if addr_leb a b then b else a.
Definition addr_min (a b : IpAddr) : IpAddr := if addr_leb a b then a else b.

(** [fn family]. *)
Definition addr_family (a : IpAddr) : Z := if is_ipv4 a then 4 else 6.

(** ** [IpNet] *)

Module IpNet.

Record t := mk {
  address : IpAddr;
  prefix_len : Z;
}.

#[global] Instance t_eq_dec : EqDecision t.
Proof. solve_decision. Defined.

(** The width of an address. *)
Definition width (a : IpAddr) : Z := if is_ipv4 a then 32 else 128.

(** An address of the family of [a]. *)
Definition of_value (a : IpAddr) (x : Z) : IpAddr :=
  if is_ipv4 a then V4 (to_be 4 x) else V6 (to_be 16 x).

(** [IpNet::new]; [shown] is the address as the message prints it. *)
Definition new (shown : string) (address : IpAddr) (prefix_len : Z)
  : outcome IpsecError.t t :=
  let max := width address in
  if max <? prefix_len then
    Err (IpsecError.config ("prefix length " +:+ pretty prefix_len
                            +:+ " is invalid for " +:+ shown))
  else Ok (mk address prefix_len).

(** [!0 << (w - prefix_len)], in [w] bits; the subtraction is checked. *)
Definition first (n : t) : outcome IpsecError.t IpAddr :=
  let a := address n in
  let w := width a in
  if prefix_len n =? 0 then Ok (of_value a 0) else
  if w <? prefix_len n then Panic else
  Ok (of_value a
        (Z.land (addr_value a)
           (wrap w (Z.shiftl (2 ^ w - 1) (w - prefix_len n))))).

Definition last (n : t) : outcome IpsecError.t IpAddr :=
  let a := address n in
  let w := width a in
  if prefix_len n =? 0 then Ok (of_value a (Z.lor (addr_value a) (2 ^ w - 1)))
  else if w <? prefix_len n then Panic
  else Ok (of_value a
             (Z.lor (addr_value a) (Z.shiftl 1 (w - prefix_len n) - 1))).

(** [impl Display for IpNet]. *)
Definition to_string (n : t) : string := ip_string (address n) +:+ "/" +:+ pretty (prefix_len n).

(** [impl FromStr for IpNet]. *)
Definition from_str (value : string) : outcome IpsecError.t t :=
  match split_once 47 (as_bytes value) with
  | None => Err (IpsecError.config ("invalid prefix " +:+ value))
  | Some (address, prefix) =>
      match parse_ip (of_bytes address) with
      | None => Err (IpsecError.config ("invalid address " +:+ of_bytes address))
      | Some a =>
          match u8_from_str_radix 10 prefix with
          | inl _ => Err (IpsecError.config ("invalid prefix length " +:+ of_bytes prefix))
          | inr prefix_len => new (ip_string a) a prefix_len
          end
      end
  end.

End IpNet.

(** [leading_zeros] of a [w]-bit integer. *)
Definition leading_zeros (w x : Z) : Z :=
  if x =? 0 then w else w - (Z.log2 x + 1).

Definition common_prefix_len (a b : IpAddr) : Z :=
  match a, b with
  | V4 x, V4 y => as_u8 (leading_zeros 32 (Z.lxor (from_be x) (from_be y)))
  | V6 x, V6 y => as_u8 (leading_zeros 128 (Z.lxor (from_be x) (from_be y)))
  | _, _ => 0
  end.

(** ** Traffic selectors *)

Module TrafficSelector.

Record t := mk {
  start : IpAddr;
  end_ : IpAddr;
  protocol : Z;
  start_port : Z;
  end_port : Z;
}.

#[global] Instance t_eq_dec : EqDecision t.
Proof. solve_decision. Defined.

Definition host (address : IpAddr) : t := mk address address 0 0 65535.

Definition net (n : IpNet.t) : outcome IpsecError.t t :=
  a ← IpNet.first n;
  b ← IpNet.last n;
  Ok (mk a b 0 0 65535).

Definition family (s : t) : Z := addr_family (start s).

Definition validate (s : t) : outcome IpsecError.t unit :=
  if negb (addr_family (start s) =? addr_family (end_ s)) then
    Err (IpsecError.config
           "traffic selector start and end use different address families")
  else if negb (addr_leb (start s) (end_ s)) then
    Err (IpsecError.config "traffic selector start is greater than its end")
  else if end_port s <? start_port s then
    Err (IpsecError.config
           "traffic selector start port is greater than its end port")
  else Ok tt.

Definition contains (s : t) (address : IpAddr) : bool :=
  (addr_family address =? addr_family (start s))
  && addr_leb (start s) address && addr_leb address (end_ s).

(** The [match] on the two protocols. *)
Definition meet_protocol (a b : Z) : option Z :=
  if (a =? 0) && (b =? 0) then Some 0
  else if a =? 0 then Some b
  else if b =? 0 then Some a
  else if a =? b then Some a
  else None.

Definition intersection (s o : t) : option t :=
  if negb (family s =? family o) then None else
  protocol ← meet_protocol (protocol s) (protocol o);
  let start := addr_max (start s) (start o) in
  let end_ := addr_min (end_ s) (end_ o) in
  if negb (addr_leb start end_) then None else
  let start_port := Z.max (start_port s) (start_port o) in
  let end_port := Z.min (end_port s) (end_port o) in
  if end_port <? start_port then None else
  Some (mk start end_ protocol start_port end_port).

Definition is_subset_of (s o : t) : bool :=
  (family s =? family o)
  && ((protocol o =? 0) || (protocol s =? protocol o))
  && addr_leb (start o) (start s) && addr_leb (end_ s) (end_ o)
  && (start_port o <=? start_port s) && (end_port s <=? end_port o).

End TrafficSelector.

(** [impl From<TrafficSelector> for IpNet]. *)
Definition net_from_selector (s : TrafficSelector.t) : IpNet.t :=
  IpNet.mk (TrafficSelector.start s)
    (common_prefix_len (TrafficSelector.start s) (TrafficSelector.end_ s)).

(** [selector_to_net] of the engine. *)
Definition selector_to_net (shown : string) (s : TrafficSelector.t)
  : option IpNet.t :=
  let a := TrafficSelector.start s in
  let b := TrafficSelector.end_ s in
  let net w :=
    let prefix := as_u8 (leading_zeros w (Z.lxor (addr_value a) (addr_value b))) in
    match IpNet.new shown a prefix with Ok n => Some n | _ => None end in
  match a, b with
  | V4 _, V4 _ => net 32
  | V6 _, V6 _ => net 128
  | _, _ => None
  end.

Module TrafficSelectorPair.

Record t := new {
  local : list TrafficSelector.t;
  remote : list TrafficSelector.t;
}.

Definition hosts (local remote : IpAddr) : t :=
  new [TrafficSelector.host local] [TrafficSelector.host remote].

Fixpoint validate_all (l : list TrafficSelector.t) : outcome IpsecError.t unit :=
  match l with
  | [] => Ok tt
  | s :: l => _ ← TrafficSelector.validate s; validate_all l
  end.

Definition validate (p : t) : outcome IpsecError.t unit :=
  match local p, remote p with
  | [], _ | _, [] =>
      Err (IpsecError.config
             ("traffic selectors must contain at least one local and one "
              +:+ "remote prefix"))
  | first :: _, _ =>
      _ ← validate_all (local p ++ remote p);
      let local_family := addr_family (TrafficSelector.start first) in
      if existsb (fun s => negb (TrafficSelector.family s =? local_family)) (local p)
      then Err (IpsecError.config "local traffic selectors mix address families")
      else
      if existsb (fun s => negb (TrafficSelector.family s =? local_family)) (remote p)
      then Err (IpsecError.config
                  ("local and remote traffic selectors must use the same address "
                   +:+ "family"))
      else Ok tt
  end.

End TrafficSelectorPair.

(** ** Selectors on the wire and their narrowing ([engine.rs]) *)

Definition ts_wire (s : TrafficSelector.t) : TsSelector :=
  mkTsSelector (if is_ipv4 (TrafficSelector.start s) then 7 else 8)
    (TrafficSelector.protocol s) (TrafficSelector.start_port s)
    (TrafficSelector.end_port s) (TrafficSelector.start s)
    (TrafficSelector.end_ s).

Definition ts_from_wire (s : TsSelector) : TrafficSelector.t :=
  TrafficSelector.mk (ts_start s) (ts_end s) (ts_protocol s)
    (start_port s) (end_port s).

(** The selectors of all TSi payloads and of all TSr payloads. *)
Definition ts_collect (initiator : bool) (payloads : list Payload)
  : list TrafficSelector.t :=
  concat ((fun p => match p with
                    | Ts i sels => if Bool.eqb i initiator
                                   then ts_from_wire <$> sels else []
                    | _ => []
                    end) <$> payloads).

Definition ts_from_payloads (payloads : list Payload)
  : outcome IpsecError.t (list TrafficSelector.t * list TrafficSelector.t) :=
  match ts_collect true payloads, ts_collect false payloads with
  | [], _ | _, [] => ike_err "IKE_AUTH is missing traffic selectors"
  | local, remote => Ok (local, remote)
  end.

(** The two loops of [narrow]; [selected] is the vector built so far. *)
Fixpoint narrow_inner (selector : TrafficSelector.t)
  (configured selected : list TrafficSelector.t) : list TrafficSelector.t :=
  match configured with
  | [] => selected
  | allowed :: configured =>
      let selected :=
        match TrafficSelector.intersection selector allowed with
        | Some i => if bool_decide (i ∈ selected) then selected else selected ++ [i]
        | None => selected
        end in
      narrow_inner selector configured selected
  end.

Fixpoint narrow_outer (requested configured selected : list TrafficSelector.t)
  : list TrafficSelector.t :=
  match requested with
  | [] => selected
  | selector :: requested =>
      narrow_outer requested configured (narrow_inner selector configured selected)
  end.

Definition narrow (requested configured : list TrafficSelector.t)
  : outcome IpsecError.t (list TrafficSelector.t) :=
  match narrow_outer requested configured [] with
  | [] => Err (IpsecError.new IpsecError.Proposal
                 "traffic selectors do not overlap with the configured selectors")
  | selected => Ok selected
  end.

Definition narrow_request_selectors (configured : TrafficSelectorPair.t)
  (payloads : list Payload)
  : outcome IpsecError.t (list TrafficSelector.t * list TrafficSelector.t) :=
  pr ← ts_from_payloads payloads;
  let (peer_local, peer_remote) :=
    (pr : list TrafficSelector.t * list TrafficSelector.t) in
  local ← narrow peer_remote (TrafficSelectorPair.local configured);
  remote ← narrow peer_local (TrafficSelectorPair.remote configured);
  Ok (local, remote).

Definition narrow_response_selectors (configured : TrafficSelectorPair.t)
  (payloads : list Payload)
  : outcome IpsecError.t (list TrafficSelector.t * list TrafficSelector.t) :=
  pr ← ts_from_payloads payloads;
  let (selected_local, selected_remote) :=
    (pr : list TrafficSelector.t * list TrafficSelector.t) in
  local ← narrow selected_local (TrafficSelectorPair.local configured);
  remote ← narrow selected_remote (TrafficSelectorPair.remote configured);
  Ok (local, remote).

(** The TS payloads of a request: our selectors, initiator's first. *)
Definition request_ts (configured : TrafficSelectorPair.t) : list Payload :=
  [Ts true (ts_wire <$> TrafficSelectorPair.local configured);
   Ts false (ts_wire <$> TrafficSelectorPair.remote configured)].

(** The TS payloads of a response: the initiator's end is our remote one. *)
Definition response_ts (local_selectors remote_selectors : list TrafficSelector.t)
  : list Payload :=
  [Ts true (ts_wire <$> remote_selectors); Ts false (ts_wire <$> local_selectors)].

(** ** The meaning of a selector *)

Module SelectorSpec.
Import TrafficSelector.

(** One end of a packet: its address, its IP protocol and its port. *)
Record endpoint := mkEndpoint { ep_addr : IpAddr; ep_proto : Z; ep_port : Z }.

Definition matches (s : t) (e : endpoint) : bool :=
  contains s (ep_addr e)
  && ((protocol s =? 0) || (protocol s =? ep_proto e))
  && (start_port s <=? ep_port e) && (ep_port e <=? end_port s).

Definition matches_any (l : list t) (e : endpoint) : bool :=
  existsb (fun s => matches s e) l.

(** Addresses compare as pairs of a family and a number. *)
Lemma addr_leb_spec a b :
  addr_leb a b = (addr_family a <? addr_family b)
                 || (addr_family a =? addr_family b)
                    && (addr_value a <=? addr_value b).
Proof. by destruct a, b. Qed.

Lemma addr_max_leb a b x :
  addr_leb (addr_max a b) x = addr_leb a x && addr_leb b x.
Proof.
  unfold addr_max. destruct (addr_leb a b) eqn:H; rewrite !addr_leb_spec in *; lia.
Qed.

Lemma addr_min_leb a b x :
  addr_leb x (addr_min a b) = addr_leb x a && addr_leb x b.
Proof.
  unfold addr_min. destruct (addr_leb a b) eqn:H; rewrite !addr_leb_spec in *; lia.
Qed.

Lemma addr_family_max a b :
  addr_family a = addr_family b -> addr_family (addr_max a b) = addr_family a.
Proof. intros. unfold addr_max. by case_match. Qed.

Lemma meet_protocol_spec a b p :
  match meet_protocol a b with
  | Some c => (c =? 0) || (c =? p)
  | None => false
  end = ((a =? 0) || (a =? p)) && ((b =? 0) || (b =? p)).
Proof.
  unfold meet_protocol.
  destruct (Z.eqb_spec a 0) as [->|], (Z.eqb_spec b 0) as [->|]; cbn [andb orb];
    try lia.
  destruct (Z.eqb_spec a b); lia.
Qed.

(** [intersection] matches exactly the packets both selectors match. *)
Lemma intersection_exact s o e :
  match intersection s o with Some i => matches i e | None => false end
  = matches s e && matches o e.
Proof.
  unfold intersection. destruct (negb _) eqn:Hf.
  { unfold matches, contains, family in *. lia. }
  pose proof (meet_protocol_spec (protocol s) (protocol o) (ep_proto e)) as Hp.
  assert (Hfam : addr_family (start s) = addr_family (start o))
    by (unfold family in *; lia).
  pose proof (addr_family_max _ _ Hfam) as Hmax.
  pose proof (addr_max_leb (start s) (start o)) as Hlo.
  pose proof (addr_min_leb (end_ s) (end_ o)) as Hhi.
  destruct (meet_protocol _ _) as [c|]; cbn [mbind option_bind];
    [|unfold matches; destruct (contains s _), (contains o _); lia].
  assert (Htrans : forall a b c,
    addr_leb a b = true -> addr_leb b c = true -> addr_leb a c = true)
    by (intros a b c'; rewrite !addr_leb_spec; lia).
  specialize (Hlo (ep_addr e)). specialize (Hhi (ep_addr e)).
  specialize (Htrans (addr_max (start s) (start o)) (ep_addr e)
                (addr_min (end_ s) (end_ o))).
  unfold matches, contains in *. cbn [start end_ protocol start_port end_port].
  destruct (negb (addr_leb _ _)) eqn:He; [lia|].
  destruct (_ <? _) eqn:Hports; cbn; lia.
Qed.

(** [is_subset_of] is sound: what the smaller selector matches, the larger
    one matches. *)
Lemma subset_sound s o e :
  is_subset_of s o = true -> matches s e = true -> matches o e = true.
Proof.
  unfold is_subset_of, matches, contains, family. rewrite !addr_leb_spec. lia.
Qed.

Lemma intersection_subset s o i :
  intersection s o = Some i ->
  is_subset_of i s = true /\ is_subset_of i o = true.
Proof.
  unfold intersection. destruct (negb _) eqn:Hf; [done|].
  destruct (meet_protocol _ _) as [c|] eqn:Hp; cbn [mbind option_bind]; [|done].
  destruct (negb (addr_leb _ _)) eqn:He; [done|].
  destruct (_ <? _) eqn:Hports; [done|]. intros [= <-].
  assert (Hfam : addr_family (start s) = addr_family (start o))
    by (unfold family in *; lia).
  pose proof (addr_family_max _ _ Hfam) as Hmax.
  assert (Hc : (protocol s =? 0) || (c =? protocol s) = true
               /\ (protocol o =? 0) || (c =? protocol o) = true).
  { unfold meet_protocol in Hp. repeat case_match; simplify_eq; lia. }
  assert (Hlo : addr_leb (start s) (addr_max (start s) (start o)) = true
                /\ addr_leb (start o) (addr_max (start s) (start o)) = true).
  { pose proof (addr_max_leb (start s) (start o) (addr_max (start s) (start o))) as H.
    rewrite addr_leb_spec in H at 1. lia. }
  assert (Hhi : addr_leb (addr_min (end_ s) (end_ o)) (end_ s) = true
                /\ addr_leb (addr_min (end_ s) (end_ o)) (end_ o) = true).
  { pose proof (addr_min_leb (end_ s) (end_ o) (addr_min (end_ s) (end_ o))) as H.
    rewrite addr_leb_spec in H at 1. lia. }
  unfold is_subset_of, family in *. cbn [start end_ protocol start_port end_port].
  lia.
Qed.

(** A selector that matches something: its first address and port, for its protocol. *)
Definition nonempty (s : t) : Prop :=
  matches s (mkEndpoint (start s) (protocol s) (start_port s)) = true.

Lemma intersection_nonempty s o i : intersection s o = Some i -> nonempty i.
Proof.
  unfold intersection. destruct (negb _) eqn:Hf; [done|].
  destruct (meet_protocol _ _) as [c|]; cbn [mbind option_bind]; [|done].
  destruct (negb (addr_leb _ _)) eqn:He; [done|].
  destruct (_ <? _) eqn:Hports; [done|]. intros [= <-].
  unfold nonempty, matches, contains. cbn.
  rewrite (addr_leb_spec (addr_max _ _) (addr_max _ _)). lia.
Qed.

(** *** Narrowing *)

Lemma narrow_inner_elem sel configured acc i :
  i ∈ narrow_inner sel configured acc <->
  i ∈ acc \/ exists c, c ∈ configured /\ intersection sel c = Some i.
Proof.
  revert acc. induction configured as [|c cs IH]; intros acc; cbn.
  - split; [by left|]. intros [?|(? & ?%not_elem_of_nil & _)]; done.
  - rewrite IH. setoid_rewrite elem_of_cons.
    destruct (intersection sel c) as [j|] eqn:Hj.
    + assert (Hacc : i ∈ (if bool_decide (j ∈ acc) then acc else acc ++ [j])
                     <-> i ∈ acc \/ i = j)
        by (case_bool_decide; rewrite ?elem_of_app, ?list_elem_of_singleton;
            intuition congruence).
      rewrite Hacc. split.
      * intros [[? | -> ] | (c' & ? & ?)]; eauto 6.
      * intros [?|(c' & [->|?] & ?)]; [auto| |eauto 6]. left. right. congruence.
    + split.
      * intros [?|(c' & ? & ?)]; eauto 6.
      * intros [?|(c' & [->|?] & ?)]; [auto|congruence|eauto 6].
Qed.

Lemma narrow_outer_elem requested configured acc i :
  i ∈ narrow_outer requested configured acc <->
  i ∈ acc \/ exists r c, r ∈ requested /\ c ∈ configured /\ intersection r c = Some i.
Proof.
  revert acc. induction requested as [|r rs IH]; intros acc; cbn.
  - split; [by left|]. intros [?|(? & ? & ?%not_elem_of_nil & _)]; done.
  - rewrite IH, narrow_inner_elem. setoid_rewrite elem_of_cons. split.
    + intros [[?|(c & ? & ?)]|(r' & c & ? & ? & ?)]; eauto 8.
    + intros [?|(r' & c & [->|?] & ? & ?)]; eauto 8.
Qed.

Lemma narrow_inner_nodup sel configured acc :
  NoDup acc -> NoDup (narrow_inner sel configured acc).
Proof.
  revert acc. induction configured as [|c cs IH]; intros acc Hnd; cbn; [done|].
  apply IH. destruct (intersection sel c) as [i|]; [|done].
  case_bool_decide; [done|]. apply NoDup_app. split_and!; [done| |].
  - by intros x Hx ->%list_elem_of_singleton.
  - apply NoDup_singleton.
Qed.

Lemma narrow_outer_nodup requested configured acc :
  NoDup acc -> NoDup (narrow_outer requested configured acc).
Proof.
  revert acc. induction requested as [|r rs IH]; intros acc Hnd; cbn; [done|].
  by apply IH, narrow_inner_nodup.
Qed.

Lemma matches_any_true l e :
  matches_any l e = true <-> exists s, s ∈ l /\ matches s e = true.
Proof.
  unfold matches_any. rewrite existsb_exists. by setoid_rewrite list_elem_of_In.
Qed.

Lemma narrow_outer_matches requested configured e :
  matches_any (narrow_outer requested configured []) e
  = matches_any requested e && matches_any configured e.
Proof.
  apply eq_true_iff_eq. rewrite andb_true_iff, !matches_any_true. split.
  - intros (i & Hi & Hm). apply narrow_outer_elem in Hi as
      [?%not_elem_of_nil|(r & c & Hr & Hc & Hrc)]; [done|].
    pose proof (intersection_exact r c e) as Hx. rewrite Hrc, Hm in Hx.
    symmetry in Hx. apply andb_prop in Hx as [? ?]. eauto 6.
  - intros [(r & Hr & Hmr) (c & Hc & Hmc)].
    pose proof (intersection_exact r c e) as Hx. rewrite Hmr, Hmc in Hx.
    destruct (intersection r c) as [i|] eqn:Hi; [|done]. exists i.
    split; [|done]. apply narrow_outer_elem. right. eauto 6.
Qed.

(** What [narrow] returns, in terms of packets. *)
(** A selector of the result: one of each side, cut down to both. *)
Definition cut_from (requested configured : list t) (i : t) : Prop :=
  nonempty i /\ exists r c, r ∈ requested /\ c ∈ configured
    /\ is_subset_of i r = true /\ is_subset_of i c = true.

Lemma narrow_cut requested configured :
  Forall (cut_from requested configured) (narrow_outer requested configured []).
Proof.
  apply Forall_forall. intros i Hi.
  apply narrow_outer_elem in Hi as [Hi|(r & c & Hr & Hc & Hx)]; [by apply elem_of_nil in Hi|].
  split; [by eapply intersection_nonempty|]. exists r, c.
  destruct (intersection_subset _ _ _ Hx). by split_and!.
Qed.

Lemma narrow_spec requested configured :
  match narrow requested configured with
  | Ok sel =>
      sel <> [] /\ NoDup sel /\ Forall (cut_from requested configured) sel
      /\ forall e, matches_any sel e
                   = matches_any requested e && matches_any configured e
  | Err _ => forall e, matches_any requested e && matches_any configured e = false
  | _ => False
  end.
Proof.
  unfold narrow. pose proof (narrow_outer_matches requested configured) as Hm.
  pose proof (narrow_outer_nodup requested configured [] ltac:(constructor)).
  pose proof (narrow_cut requested configured) as Hc.
  destruct (narrow_outer requested configured []).
  - intros e. by rewrite <- Hm.
  - by split_and!.
Qed.

(** *** The exchange *)

Lemma ts_from_wire_wire s : ts_from_wire (ts_wire s) = s.
Proof. by destruct s. Qed.

Lemma ts_fmap_wire (l : list t) : ts_from_wire <$> (ts_wire <$> l) = l.
Proof.
  rewrite <- list_fmap_compose. induction l as [|s l IH]; [done|]. cbn.
  by rewrite ts_from_wire_wire, IH.
Qed.

Lemma ts_from_payloads_pair (i r : list t) :
  i <> [] -> r <> [] ->
  ts_from_payloads [Ts true (ts_wire <$> i); Ts false (ts_wire <$> r)] = Ok (i, r).
Proof.
  intros Hi Hr. unfold ts_from_payloads, ts_collect. cbn.
  rewrite !ts_fmap_wire, !app_nil_r. by destruct i, r.
Qed.

Lemma narrow_ok requested configured sel :
  narrow requested configured = Ok sel ->
  sel <> [] /\ NoDup sel
  /\ forall e, matches_any sel e
               = matches_any requested e && matches_any configured e.
Proof.
  intros H. pose proof (narrow_spec requested configured) as Hs. rewrite H in Hs. by destruct Hs as (? & ? & _ & ?).
Qed.

(** The initiator's local end is the responder's remote end. *)
Definition agree (initiator responder : list t * list t) : Prop :=
  forall e, matches_any initiator.1 e = matches_any responder.2 e
            /\ matches_any initiator.2 e = matches_any responder.1 e.

End SelectorSpec.

(** ** Prefixes *)

Module PrefixSpec.
Import TrafficSelector SelectorSpec.

Definition wf_addr (a : IpAddr) : Prop :=
  match a with
  | V4 l => bytes l /\ length l = 4%nat
  | V6 l => bytes l /\ length l = 16%nat
  end.

#[global] Instance wf_addr_dec a : Decision (wf_addr a).
Proof. destruct a; cbn; unfold bytes; apply _. Defined.

Definition wf_net (n : IpNet.t) : Prop :=
  wf_addr (IpNet.address n)
  /\ 0 <= IpNet.prefix_len n <= IpNet.width (IpNet.address n).

Lemma addr_value_bound a : wf_addr a -> 0 <= addr_value a < 2 ^ IpNet.width a.
Proof.
  destruct a as [l|l]; intros [Hb Hl]; pose proof (from_be_bound l Hb) as H;
    unfold zlen in H; rewrite Hl in H; exact H.
Qed.

Lemma width_pos a : 0 < IpNet.width a <= 128.
Proof. by destruct a. Qed.

Lemma of_value_value a x :
  0 <= x < 2 ^ IpNet.width a -> addr_value (IpNet.of_value a x) = x.
Proof. destruct a; intros; cbn; by rewrite from_be_to_be_small. Qed.

Lemma of_value_family a x : addr_family (IpNet.of_value a x) = addr_family a.
Proof. by destruct a. Qed.

Lemma testbit_split h r k n :
  0 <= k -> 0 <= n -> 0 <= r < 2 ^ k ->
  Z.testbit (h * 2 ^ k + r) n
  = if n <? k then Z.testbit r n else Z.testbit h (n - k).
Proof.
  intros Hk Hn Hr. destruct (Z.ltb_spec n k).
  - rewrite <- (Z.mod_pow2_bits_low _ k n) by lia.
    by rewrite Z.add_comm, Z_mod_plus_full, Z.mod_small by lia.
  - replace h with ((h * 2 ^ k + r) / 2 ^ k) at 2
      by (rewrite Z.div_add_l, Z.div_small; lia).
    rewrite Z.div_pow2_bits by lia. f_equal. lia.
Qed.

(** Clearing and setting the low [k] bits. *)
Lemma land_high w k a :
  0 <= k <= w -> 0 <= a < 2 ^ w ->
  Z.land a (wrap w (Z.shiftl (2 ^ w - 1) k)) = a / 2 ^ k * 2 ^ k.
Proof.
  intros Hk Ha. apply Z.bits_inj'. intros n Hn. unfold wrap.
  rewrite Z.land_spec, <- (Z.add_0_r (_ * _)), testbit_split by lia.
  rewrite Z.bits_0. destruct (Z.ltb_spec n k).
  - rewrite Z.mod_pow2_bits_low, Z.shiftl_spec_low by lia. apply andb_false_r.
  - rewrite Z.div_pow2_bits by lia. replace (n - k + k) with n by lia.
    destruct (Z.ltb_spec n w).
    + rewrite Z.mod_pow2_bits_low, Z.shiftl_spec_high by lia.
      replace (2 ^ w - 1) with (Z.ones w) by (rewrite Z.ones_equiv; lia).
      rewrite Z.ones_spec_low by lia. apply andb_true_r.
    + rewrite Z.mod_pow2_bits_high, andb_false_r by lia. symmetry.
      destruct (Z.eq_dec a 0) as [->|]; [apply Z.bits_0|].
      apply Z.bits_above_log2; [lia|]. enough (Z.log2 a < w) by lia.
      apply Z.log2_lt_pow2; lia.
Qed.

Lemma lor_low k a :
  0 <= k -> Z.lor a (2 ^ k - 1) = a / 2 ^ k * 2 ^ k + (2 ^ k - 1).
Proof.
  intros Hk. apply Z.bits_inj'. intros n Hn.
  assert (0 < 2 ^ k) by (apply Z.pow_pos_nonneg; lia).
  rewrite Z.lor_spec, testbit_split by lia.
  replace (2 ^ k - 1) with (Z.ones k) by (rewrite Z.ones_equiv; lia).
  destruct (Z.ltb_spec n k).
  - rewrite Z.ones_spec_low by lia. apply orb_true_r.
  - rewrite Z.ones_spec_high, orb_false_r, Z.div_pow2_bits by lia. f_equal. lia.
Qed.

(** The two ends of a prefix, as numbers. *)
Lemma net_ends n :
  wf_net n ->
  let a := IpNet.address n in
  let v := addr_value a in
  let k := IpNet.width a - IpNet.prefix_len n in
  IpNet.first n = Ok (IpNet.of_value a (v / 2 ^ k * 2 ^ k))
  /\ IpNet.last n = Ok (IpNet.of_value a (v / 2 ^ k * 2 ^ k + (2 ^ k - 1))).
Proof.
  intros [Ha Hp] a v k. pose proof (addr_value_bound a Ha) as Hv.
  fold a in Hp. fold v in Hv. unfold IpNet.first, IpNet.last. fold a v.
  destruct (Z.eqb_spec (IpNet.prefix_len n) 0) as [H0|Hn0].
  - replace k with (IpNet.width a) by (unfold k; lia).
    rewrite lor_low by (pose proof (width_pos a); lia).
    by rewrite Z.div_small.
  - if_lia. fold k. rewrite land_high, Z.shiftl_1_l, lor_low by (unfold k; lia).
    done.
Qed.

(** The block of addresses of a prefix stays within the family. *)
Lemma block_bounds w k v :
  0 <= k <= w -> 0 <= v < 2 ^ w ->
  0 <= v / 2 ^ k * 2 ^ k /\ v / 2 ^ k * 2 ^ k + (2 ^ k - 1) < 2 ^ w.
Proof.
  intros Hk Hv. assert (Hpk : 0 < 2 ^ k) by (apply Z.pow_pos_nonneg; lia).
  pose proof (Z.div_pos v (2 ^ k) ltac:(lia) Hpk).
  assert (v / 2 ^ k < 2 ^ (w - k)).
  { apply Z.div_lt_upper_bound; [lia|].
    rewrite <- Z.pow_add_r by lia. replace (k + (w - k)) with w by lia. lia. }
  assert (2 ^ w = 2 ^ (w - k) * 2 ^ k)
    by (rewrite <- Z.pow_add_r by lia; f_equal; lia). nia.
Qed.

Lemma block_iff k v x :
  0 <= k ->
  ((v / 2 ^ k * 2 ^ k <=? x) && (x <=? v / 2 ^ k * 2 ^ k + (2 ^ k - 1)))
  = (x / 2 ^ k =? v / 2 ^ k).
Proof.
  intros Hk. assert (Hpk : 0 < 2 ^ k) by (apply Z.pow_pos_nonneg; lia).
  pose proof (Z.div_mod x (2 ^ k) ltac:(lia)).
  pose proof (Z.mod_pos_bound x (2 ^ k) Hpk).
  apply eq_true_iff_eq. rewrite andb_true_iff, Z.eqb_eq, !Z.leb_le. nia.
Qed.

Lemma net_selector n :
  wf_net n ->
  let a := IpNet.address n in
  let k := IpNet.width a - IpNet.prefix_len n in
  let lo := addr_value a / 2 ^ k * 2 ^ k in
  net n = Ok (mk (IpNet.of_value a lo) (IpNet.of_value a (lo + (2 ^ k - 1))) 0 0 65535)
  /\ addr_value (IpNet.of_value a lo) = lo
  /\ addr_value (IpNet.of_value a (lo + (2 ^ k - 1))) = lo + (2 ^ k - 1)
  /\ 0 <= k <= IpNet.width a.
Proof.
  intros Hwf a k lo. destruct (net_ends n Hwf) as [Hf Hl].
  fold a in Hf, Hl. fold k in Hf, Hl. fold lo in Hf, Hl.
  destruct Hwf as [Ha Hp]. fold a in Ha, Hp.
  assert (Hk : 0 <= k <= IpNet.width a) by (unfold k; lia).
  destruct (block_bounds _ _ _ Hk (addr_value_bound a Ha)) as [Hlo Hhi]. fold lo in Hlo, Hhi.
  assert (0 < 2 ^ k) by (apply Z.pow_pos_nonneg; lia).
  split_and!; [|apply of_value_value; lia|apply of_value_value; lia|lia|lia].
  unfold net. by rewrite Hf, Hl.
Qed.

Lemma lxor_block k h :
  0 <= k -> Z.lxor (h * 2 ^ k) (h * 2 ^ k + (2 ^ k - 1)) = 2 ^ k - 1.
Proof.
  intros Hk. assert (0 < 2 ^ k) by (apply Z.pow_pos_nonneg; lia).
  apply Z.bits_inj'. intros n Hn.
  rewrite Z.lxor_spec, <- (Z.add_0_r (h * 2 ^ k)) at 1.
  rewrite !testbit_split by lia.
  replace (2 ^ k - 1) with (Z.ones k) by (rewrite Z.ones_equiv; lia).
  destruct (Z.ltb_spec n k).
  - rewrite Z.bits_0. apply xorb_false_l.
  - rewrite Z.ones_spec_high by lia. apply xorb_nilpotent.
Qed.

Lemma leading_zeros_ones w k :
  0 <= k <= w -> leading_zeros w (2 ^ k - 1) = w - k.
Proof.
  intros Hk. unfold leading_zeros. destruct (Z.eqb_spec (2 ^ k - 1) 0) as [H|H].
  - destruct (Z.eq_dec k 0) as [->|]; [lia|].
    assert (2 ^ 1 <= 2 ^ k) by (apply Z.pow_le_mono_r; lia). lia.
  - assert (k <> 0) by (intros ->; done).
    rewrite Z.sub_1_r, Z.log2_pred_pow2 by lia. lia.
Qed.

(** *** The text of a prefix *)

Lemma wf_addr_text a : wf_addr a -> IpTextFacts.wf a.
Proof. by destruct a as [l|l]; intros [Hb Hl]; (split; [done|exact Hb]). Qed.

Lemma net_text n : wf_net n ->
  as_bytes (IpNet.to_string n) = as_bytes (ip_string (IpNet.address n)) ++ 47 :: as_bytes (pretty (IpNet.prefix_len n))
  /\ split_once 47 (as_bytes (IpNet.to_string n))
     = Some (as_bytes (ip_string (IpNet.address n)), as_bytes (pretty (IpNet.prefix_len n)))
  /\ parse_ip (ip_string (IpNet.address n)) = Some (IpNet.address n)
  /\ u8_from_str_radix 10 (as_bytes (pretty (IpNet.prefix_len n))) = inr (IpNet.prefix_len n)
  /\ IpNet.new (ip_string (IpNet.address n)) (IpNet.address n) (IpNet.prefix_len n) = Ok n.
Proof.
  intros [Ha Hp]. pose proof (wf_addr_text _ Ha) as Ht.
  assert (as_bytes (IpNet.to_string n)
          = as_bytes (ip_string (IpNet.address n)) ++ 47 :: as_bytes (pretty (IpNet.prefix_len n))) as Hs
    by (unfold IpNet.to_string; by rewrite !IpTextFacts.as_bytes_append).
  assert (47 ∉ as_bytes (ip_string (IpNet.address n))) as Hn.
  { intros Hin. pose proof (IpTextFacts.ip_string_chars _ Ht) as Hf. rewrite Forall_forall in Hf.
    by destruct (Hf 47 Hin) as [[d Hd]|[?|?]]. }
  split_and!; [done| | | |].
  - rewrite Hs. by apply IpTextFacts.split_once_app.
  - by apply IpTextFacts.parse_ip_string.
  - apply IpTextFacts.u8_pretty. unfold IpTextFacts.octet. pose proof (width_pos (IpNet.address n)). lia.
  - unfold IpNet.new. by destruct (Z.ltb_spec (IpNet.width (IpNet.address n)) (IpNet.prefix_len n)); [lia|destruct n].
Qed.

(** A prefix is read back from its text. *)
Lemma net_text_read n : wf_net n -> IpNet.from_str (IpNet.to_string n) = Ok n.
Proof.
  intros Hn. destruct (net_text n Hn) as (_ & Hs & Hip & Hu & Hnew). unfold IpNet.from_str.
  by rewrite Hs, of_bytes_as_bytes, Hip, Hu, Hnew.
Qed.

End PrefixSpec.

Module SelectorContract.
Import TrafficSelector SelectorSpec.

(** [TrafficSelector::intersection] is exactly the intersection: its result
    matches a packet if and only if both selectors do, it is [None] only when
    no packet matches both, and the result is a subset of each. *)
Theorem selector_intersection_exact s o :
  match intersection s o with
  | Some i => (forall e, matches i e = matches s e && matches o e)
              /\ is_subset_of i s = true /\ is_subset_of i o = true
  | None => forall e, matches s e && matches o e = false
  end.
Proof.
  pose proof (intersection_exact s o) as Hx. pose proof (intersection_subset s o) as Hs.
  destruct (intersection s o) as [i|]; [|done]. split; [done|]. by apply Hs.
Qed.

(** C14: [narrow] returns duplicate-free selectors that together match exactly
    the packets that some requested and some configured selector match, so
    nothing outside the configuration is ever agreed to; each of them matches a
    packet and lies within a requested and a configured selector; it succeeds
    exactly when there is such a packet, and never panics. *)
Theorem narrow_exact requested configured :
  ((exists sel, narrow requested configured = Ok sel)
   <-> exists e, matches_any requested e && matches_any configured e = true)
  /\ match narrow requested configured with
     | Ok sel =>
         NoDup sel /\ Forall (cut_from requested configured) sel
         /\ forall e, matches_any sel e
                      = matches_any requested e && matches_any configured e
     | Err _ => True
     | _ => False
     end.
Proof.
  pose proof (narrow_spec requested configured) as Hs.
  destruct (narrow requested configured) as [sel|x| |]; try done.
  - destruct Hs as (Hne & Hd & Hc & Hm). split; [|done]. split; [intros _|by eexists].
    destruct sel as [|i sel]; [done|]. apply Forall_cons in Hc as [[Hi _] _].
    eexists. rewrite <- Hm. cbn. rewrite Hi. done.
  - split; [|done]. split; [by intros []|]. intros [e He]. by rewrite Hs in He.
Qed.

(** After a request and the response to it, initiator and responder have
    selectors for the same traffic in both directions, within what both have
    configured: each end's narrowing of the other's payloads agrees. *)
Theorem narrowing_agrees ci cr lr rr li ri :
  TrafficSelectorPair.local ci <> [] -> TrafficSelectorPair.remote ci <> [] ->
  narrow_request_selectors cr (request_ts ci) = Ok (lr, rr) ->
  narrow_response_selectors ci (response_ts lr rr) = Ok (li, ri) ->
  agree (li, ri) (lr, rr)
  /\ forall e,
       matches_any li e = matches_any (TrafficSelectorPair.local ci) e
                          && matches_any (TrafficSelectorPair.remote cr) e
       /\ matches_any ri e = matches_any (TrafficSelectorPair.remote ci) e
                             && matches_any (TrafficSelectorPair.local cr) e.
Proof.
  intros Hl Hr Hreq Hresp.
  unfold narrow_request_selectors, request_ts in Hreq.
  rewrite ts_from_payloads_pair in Hreq by done. cbn [mbind outcome_bind] in Hreq.
  apply bind_ok in Hreq as (l1 & H1 & Hreq).
  apply bind_ok in Hreq as (r1 & H2 & Heq1). simplify_eq.
  apply narrow_ok in H1 as (Hn1 & _ & Hm1), H2 as (Hn2 & _ & Hm2).
  unfold narrow_response_selectors, response_ts in Hresp.
  rewrite ts_from_payloads_pair in Hresp by done. cbn [mbind outcome_bind] in Hresp.
  apply bind_ok in Hresp as (l2 & H3 & Hresp).
  apply bind_ok in Hresp as (r2 & H4 & Heq2). simplify_eq.
  apply narrow_ok in H3 as (_ & _ & Hm3), H4 as (_ & _ & Hm4).
  unfold agree. cbn [fst snd].
  split; intros e; rewrite Hm3, Hm4, Hm1, Hm2; split; lia.
Qed.

Definition net_10 (c : Z) : t := mk (V4 [10; c; 0; 0]) (V4 [10; c; 255; 255]) 0 0 65535.

Lemma narrowing_agrees_witness :
  agree ([net_10 1], [net_10 2]) ([net_10 2], [net_10 1]).
Proof.
  apply (narrowing_agrees
    (TrafficSelectorPair.new [net_10 1; net_10 7] [net_10 2])
    (TrafficSelectorPair.new [mk (V4 [10; 2; 0; 0]) (V4 [10; 5; 255; 255]) 0 0 65535]
       [net_10 1])); try discriminate; vm_compute; reflexivity.
Defined.

Import PrefixSpec.

(** The selector [TrafficSelector::net] makes from a prefix contains exactly
    the addresses of the same family that agree with it in the prefix's bits;
    computing it never overflows a shift. *)
Theorem net_contains_iff n x :
  wf_net n ->
  exists s, net n = Ok s /\
    contains s x =
      (addr_family x =? addr_family (IpNet.address n))
      && (addr_value x / 2 ^ (IpNet.width (IpNet.address n) - IpNet.prefix_len n)
          =? addr_value (IpNet.address n)
             / 2 ^ (IpNet.width (IpNet.address n) - IpNet.prefix_len n)).
Proof.
  intros Hwf. destruct (net_selector n Hwf) as (Hn & Hlo & Hhi & Hk).
  eexists. split; [exact Hn|]. unfold contains. cbn [start end_].
  rewrite !addr_leb_spec, !of_value_family, Hlo, Hhi.
  rewrite <- block_iff by lia. lia.
Qed.

Lemma net_contains_iff_witness :
  exists s, net (IpNet.mk (V4 [10; 2; 3; 4]) 24) = Ok s
    /\ contains s (V4 [10; 2; 3; 99]) = true.
Proof.
  destruct (net_contains_iff (IpNet.mk (V4 [10; 2; 3; 4]) 24) (V4 [10; 2; 3; 99]))
    as (s & Hs & Hc).
  - split; [refine (bool_decide_unpack _ _); vm_compute; exact I|cbn; lia].
  - exists s. split; [exact Hs|]. rewrite Hc. vm_compute. reflexivity.
Defined.

(** Turning the selector of a prefix back into a prefix, by either of the
    two conversions in the code, gives its network address and its length. *)
Theorem net_selector_roundtrip shown n :
  wf_net n ->
  exists s network, net n = Ok s /\ IpNet.first n = Ok network
    /\ selector_to_net shown s = Some (IpNet.mk network (IpNet.prefix_len n))
    /\ net_from_selector s = IpNet.mk network (IpNet.prefix_len n).
Proof.
  intros Hwf. destruct (net_selector n Hwf) as (Hn & Hlo & Hhi & Hk).
  destruct (net_ends n Hwf) as [Hf _].
  set (a := IpNet.address n) in *. set (k := IpNet.width a - IpNet.prefix_len n) in *.
  pose proof (lxor_block k (addr_value a / 2 ^ k) ltac:(lia)) as Hx.
  pose proof (leading_zeros_ones (IpNet.width a) k Hk) as Hz.
  assert (Hp : IpNet.width a - k = IpNet.prefix_len n) by (unfold k; lia).
  pose proof (width_pos a).
  assert (Hw : as_u8 (IpNet.prefix_len n) = IpNet.prefix_len n)
    by (apply wrap_small; unfold fits; lia).
  assert (Hmax : (IpNet.width a <? IpNet.prefix_len n) = false) by lia.
  do 2 eexists. split; [exact Hn|]. split; [exact Hf|].
  unfold selector_to_net, net_from_selector, common_prefix_len, IpNet.new.
  cbn [start end_].
  destruct a as [l|l]; cbn [IpNet.of_value is_ipv4 addr_value IpNet.width] in *;
    by rewrite Hlo, Hhi, Hx, Hz, Hp, Hw, ?Hmax.
Qed.

Lemma net_selector_roundtrip_witness :
  exists s network, net (IpNet.mk (V4 [10; 2; 3; 4]) 24) = Ok s
    /\ IpNet.first (IpNet.mk (V4 [10; 2; 3; 4]) 24) = Ok network
    /\ net_from_selector s = IpNet.mk network 24.
Proof.
  destruct (net_selector_roundtrip "10.2.3.4" (IpNet.mk (V4 [10; 2; 3; 4]) 24))
    as (s & w & H1 & H2 & _ & H3).
  - split; [refine (bool_decide_unpack _ _); vm_compute; exact I|cbn; lia].
  - exists s, w. split; [exact H1|]. split; [exact H2|exact H3].
Defined.

End SelectorContract.
