(* ===== verification/Identity.v ===== *)
(** * IKE identities

    [src/src/ipsec/identity.rs]: the identity of a peer, its ID payload
    encoding, the comparison with a configured identity, the hexadecimal form of
    key ids and distinguished names, and the text of an identity in a configuration
    file ([Display] and [FromStr], which serialisation uses). *)

From S2P Require Import Prelude Errors Net IpText.

(** [String::from_utf8]: the well-formed UTF-8 sequences. *)
Fixpoint utf8_valid (l : list Z) : bool :=
  let cont b := (128 <=? b) && (b <=? 191) in
  match l with
  | [] => true
  | a :: l1 =>
      if a <? 128 then utf8_valid l1 else
      match l1 with
      | [] => false
      | b :: l2 =>
          if (194 <=? a) && (a <=? 223) then cont b && utf8_valid l2 else
          match l2 with
          | [] => false
          | c :: l3 =>
              if a =? 224 then
                (160 <=? b) && (b <=? 191) && cont c && utf8_valid l3
              else if a =? 237 then
                (128 <=? b) && (b <=? 159) && cont c && utf8_valid l3
              else if (225 <=? a) && (a <=? 239) then
                cont b && cont c && utf8_valid l3
              else
              match l3 with
              | [] => false
              | d :: l4 =>
                  if a =? 240 then
                    (144 <=? b) && (b <=? 191) && cont c && cont d && utf8_valid l4
                  else if (241 <=? a) && (a <=? 243) then
                    cont b && cont c && cont d && utf8_valid l4
                  else if a =? 244 then
                    (128 <=? b) && (b <=? 143) && cont c && cont d && utf8_valid l4
                  else false
              end
          end
      end
  end.

Definition from_utf8 (l : list Z) : option string :=
  if utf8_valid l then Some (of_bytes l) else None.

(** [str::eq_ignore_ascii_case]. *)
Definition to_ascii_lowercase (b : Z) : Z :=
  if (65 <=? b) && (b <=? 90) then b + 32 else b.

Definition eq_ignore_ascii_case (s t : string) : bool :=
  bool_decide (to_ascii_lowercase <$> as_bytes s = to_ascii_lowercase <$> as_bytes t).

Module Identity.

Inductive t :=
| Ip (a : IpAddr)
| Fqdn (s : string)
| Email (s : string)
| DerAsn1Dn (l : list Z)
| KeyId (l : list Z)
| Any.

#[global] Instance t_eq_dec : EqDecision t.
Proof. solve_decision. Defined.

Definition id_type (i : t) : option Z :=
  match i with
  | Ip (V4 _) => Some 1
  | Fqdn _ => Some 2
  | Email _ => Some 3
  | Ip (V6 _) => Some 5
  | KeyId _ => Some 11
  | DerAsn1Dn _ => Some 9
  | Any => None
  end.

Definition encode (i : t) : outcome IpsecError.t (list Z) :=
  match i with
  | Ip (V4 octets) | Ip (V6 octets) => Ok octets
  | Fqdn value | Email value => Ok (as_bytes value)
  | DerAsn1Dn value | KeyId value => Ok value
  | Any => Err (IpsecError.config
                  "the wildcard identity cannot be sent on the wire")
  end.

Definition decode (id_type : Z) (data : list Z) : outcome IpsecError.t t :=
  match id_type with
  | 1 => if (length data =? 4)%nat then Ok (Ip (V4 data))
         else ike_err "IPv4 identity payload has the wrong length"
  | 2 => s ← ok_or (from_utf8 data)
               (IpsecError.ike "FQDN identity is not valid UTF-8"); Ok (Fqdn s)
  | 3 => s ← ok_or (from_utf8 data)
               (IpsecError.ike "RFC 822 identity is not valid UTF-8"); Ok (Email s)
  | 11 => Ok (KeyId data)
  | 5 => if (length data =? 16)%nat then Ok (Ip (V6 data))
         else ike_err "IPv6 identity payload has the wrong length"
  | 9 => Ok (DerAsn1Dn data)
  | other => Err (IpsecError.new IpsecError.NoSupport
                    ("unsupported IKE identity type " +:+ pretty other))
  end.

Definition is_wildcard (i : t) : bool :=
  match i with Any => true | _ => false end.

Definition as_text (i : t) : option string :=
  match i with Fqdn value | Email value => Some value | _ => None end.

Definition matches (i other : t) : bool :=
  match i, other with
  | Any, _ | _, Any => true
  | Ip l, Ip r => bool_decide (l = r)
  | Fqdn l, Fqdn r => eq_ignore_ascii_case l r
  | Email l, Email r => eq_ignore_ascii_case l r
  | DerAsn1Dn l, DerAsn1Dn r => bool_decide (l = r)
  | KeyId l, KeyId r => bool_decide (l = r)
  | _, _ => false
  end.

End Identity.

(** ** Hexadecimal *)

(** One digit as [{:02x}] writes it. *)
Definition hex_digit (d : Z) : Z := if d <? 10 then 48 + d else 87 + d.

(** The octets of the text [hex] makes. *)
Definition hex (value : list Z) : list Z :=
  concat ((fun b => [hex_digit (b / 16); hex_digit (b mod 16)]) <$> value).

Definition is_ascii_hexdigit (c : Z) : bool :=
  (48 <=? c) && (c <=? 57) || (65 <=? c) && (c <=? 70)
  || (97 <=? c) && (c <=? 102).

(** [char::to_digit(16)]. *)
Definition digit_value (c : Z) : Z :=
  if c <=? 57 then c - 48 else if c <=? 70 then c - 55 else c - 87.

(** The [chunks_exact(2)] loop. *)
Fixpoint unhex_pairs (digits : list Z) : list Z :=
  match digits with
  | hi :: lo :: rest => digit_value hi * 16 + digit_value lo :: unhex_pairs rest
  | _ => []
  end.

Definition unhex (value : list Z) : outcome IpsecError.t (list Z) :=
  if negb (Nat.even (length value)) then
    Err (IpsecError.config "identity hex value has an odd length")
  else if negb (forallb is_ascii_hexdigit value) then
    Err (IpsecError.config "identity contains invalid hex")
  else Ok (unhex_pairs value).

(** [impl Display for Identity]. *)
Definition identity_string (i : Identity.t) : string :=
  match i with
  | Identity.Ip a => ip_string a
  | Identity.Fqdn value | Identity.Email value => value
  | Identity.DerAsn1Dn value => "dn:" +:+ of_bytes (hex value)
  | Identity.KeyId value => "keyid:" +:+ of_bytes (hex value)
  | Identity.Any => "*"
  end.

(** [str::strip_prefix]. *)
Fixpoint strip_prefix (prefix s : string) : option string :=
  match prefix, s with
  | EmptyString, _ => Some s
  | String c prefix, String d s => if Ascii.eqb c d then strip_prefix prefix s else None
  | String _ _, EmptyString => None
  end.

Definition contains_at (s : string) : bool := existsb (Z.eqb 64) (as_bytes s).

(** What stands without a prefix. *)
Definition from_bare (value : string) : outcome IpsecError.t Identity.t :=
  match parse_ip value with
  | Some address => Ok (Identity.Ip address)
  | None =>
      if contains_at value then Ok (Identity.Email value)
      else if bool_decide (value = "") then Err (IpsecError.config "identity must not be empty")
      else Ok (Identity.Fqdn value)
  end.

(** [impl FromStr for Identity]. *)
Definition from_str (value : string) : outcome IpsecError.t Identity.t :=
  if bool_decide (value = "*") then Ok Identity.Any else
  match strip_prefix "keyid:" value with
  | Some rest => l ← unhex (as_bytes rest); Ok (Identity.KeyId l)
  | None =>
      match strip_prefix "dn:" value with
      | Some rest => l ← unhex (as_bytes rest); Ok (Identity.DerAsn1Dn l)
      | None =>
          match strip_prefix "fqdn:" value with
          | Some rest => Ok (Identity.Fqdn rest)
          | None =>
              match strip_prefix "email:" value with
              | Some rest => Ok (Identity.Email rest)
              | None => from_bare value
              end
          end
      end
  end.

(** ** Properties *)

Module IdentityFacts.
Import Identity.

(** An identity that can be sent. *)
Definition wf (i : t) : Prop :=
  match i with
  | Ip (V4 l) => length l = 4%nat
  | Ip (V6 l) => length l = 16%nat
  | Fqdn s | Email s => utf8_valid (as_bytes s) = true
  | DerAsn1Dn _ | KeyId _ => True
  | Any => False
  end.

(** An identity put in an ID payload is read back unchanged by the peer;
    the wildcard has no type and cannot be encoded. *)
Theorem identity_roundtrip i :
  wf i ->
  exists ty data, id_type i = Some ty /\ encode i = Ok data
    /\ decode ty data = Ok i.
Proof.
  destruct i as [[l|l]|s|s|l|l|]; cbn; intros Hwf; try done;
    do 2 eexists; (split; [done|]); (split; [done|]); cbn; rewrite ?Hwf; try done;
    unfold from_utf8; rewrite Hwf; cbn; by rewrite of_bytes_as_bytes.
Qed.

Lemma identity_roundtrip_witness :
  exists ty data, id_type (Fqdn "gw.example.org") = Some ty
    /\ encode (Fqdn "gw.example.org") = Ok data
    /\ decode ty data = Ok (Fqdn "gw.example.org").
Proof. apply (identity_roundtrip (Fqdn "gw.example.org")). vm_compute. reflexivity. Defined.

Lemma hex_digit_spec d :
  0 <= d < 16 ->
  is_ascii_hexdigit (hex_digit d) = true /\ digit_value (hex_digit d) = d.
Proof.
  intros Hd. unfold hex_digit, is_ascii_hexdigit, digit_value.
  destruct (Z.ltb_spec d 10); split; try lia; repeat case_match; lia.
Qed.

Lemma hex_length l : length (hex l) = (2 * length l)%nat.
Proof. induction l as [|b l IH]; [done|]. cbn in *. unfold hex in IH. lia. Qed.

Lemma bytes_hex l : bytes l -> bytes (hex l).
Proof.
  induction 1 as [|b l Hb _ IH]; [constructor|].
  change (hex (b :: l)) with (hex_digit (b / 16) :: hex_digit (b mod 16) :: hex l).
  assert (forall d, 0 <= d < 16 -> fits 8 (hex_digit d)) as Hd.
  { intros d Hd. unfold fits, hex_digit. change (2 ^ 8) with 256. destruct (d <? 10); lia. }
  unfold fits in Hb. change (2 ^ 8) with 256 in Hb. constructor; [|constructor; [|done]]; apply Hd.
  - split; [apply Z.div_pos; lia|apply Z.div_lt_upper_bound; lia].
  - apply Z.mod_pos_bound. lia.
Qed.

Lemma unhex_hex l : bytes l -> unhex (hex l) = Ok l.
Proof.
  intros Hl. unfold unhex. rewrite hex_length, Nat.even_mul. cbn [Nat.even orb negb].
  assert (H : forallb is_ascii_hexdigit (hex l) = true /\ unhex_pairs (hex l) = l).
  { induction Hl as [|b l Hb _ [IH1 IH2]]; [done|].
    destruct (hex_digit_spec (b / 16)) as [H1 H2].
    { unfold fits in Hb. split; [apply Z.div_pos; lia|apply Z.div_lt_upper_bound; lia]. }
    destruct (hex_digit_spec (b mod 16)) as [H3 H4]; [apply Z.mod_pos_bound; lia|].
    change (hex (b :: l)) with (hex_digit (b / 16) :: hex_digit (b mod 16) :: hex l).
    cbn [forallb unhex_pairs]. rewrite H1, H2, H3, H4, IH1, IH2. split; [done|].
    f_equal. pose proof (Z.div_mod b 16). lia. }
  destruct H as [-> ->]. done.
Qed.

(** The hexadecimal text of a key id or a distinguished name reads back as
    the same octets, and every octet string [unhex] accepts is made of octets. *)
Theorem unhex_total value :
  match unhex value with
  | Ok l => bytes l /\ length value = (2 * length l)%nat /\ unhex (hex l) = Ok l
  | Err _ => forall l, bytes l -> value <> hex l
  | _ => False
  end.
Proof.
  unfold unhex at 1. destruct (negb (Nat.even _)) eqn:He.
  { intros l Hb ->. rewrite hex_length, Nat.even_mul in He. done. }
  destruct (negb (forallb is_ascii_hexdigit value)) eqn:Hh.
  - intros l Hb ->. pose proof (unhex_hex l Hb) as Hx. unfold unhex in Hx.
    rewrite He, Hh in Hx. done.
  - assert (H : bytes (unhex_pairs value)
                /\ length value = (2 * length (unhex_pairs value))%nat).
    { apply negb_false_iff in He, Hh. clear -He Hh.
      remember (length value) as n eqn:Hn. revert value Hn He Hh.
      induction n as [n IH] using lt_wf_ind. intros [|hi [|lo rest]] Hn He Hh;
        cbn in Hn; subst n; [by split; [constructor|]|done|].
      cbn [forallb] in Hh. apply andb_prop in Hh as [Hhi Hh].
      apply andb_prop in Hh as [Hlo Hh].
      destruct (IH (length rest) ltac:(lia) rest eq_refl He Hh) as [Hb Hl].
      cbn [unhex_pairs length]. split; [constructor; [|done]|lia].
      unfold fits, digit_value, is_ascii_hexdigit in *. repeat case_match; lia. }
    destruct H as [Hb Hl]. split_and!; [done|done|by apply unhex_hex].
Qed.

(** *** The text of an identity *)

(** An identity of the types of the source. *)
Definition well_typed (i : t) : Prop :=
  match i with
  | Ip a => IpTextFacts.wf a
  | DerAsn1Dn l | KeyId l => bytes l
  | Fqdn _ | Email _ | Any => True
  end.

(** No text that means something else. *)
Definition bare (s : string) : Prop :=
  s <> "*" /\ parse_ip s = None
  /\ Forall (fun p => strip_prefix p s = None) ["keyid:"; "dn:"; "fqdn:"; "email:"].

(** The identities whose text is theirs alone. *)
Definition text_exact (i : t) : Prop :=
  match i with
  | Fqdn s => bare s /\ s <> "" /\ contains_at s = false
  | Email s => bare s /\ contains_at s = true
  | Ip _ | DerAsn1Dn _ | KeyId _ | Any => True
  end.

Lemma strip_prefix_append p s : strip_prefix p (p +:+ s) = Some s.
Proof.
  induction p as [|c p IH]; [done|]. change (String c p +:+ s) with (String c (p +:+ s)). cbn [strip_prefix].
  by rewrite Ascii.eqb_refl.
Qed.

Lemma strip_prefix_some p s r : strip_prefix p s = Some r -> s = p +:+ r.
Proof.
  revert s. induction p as [|c p IH]; intros s; [by intros [= ->]|]. destruct s as [|d s]; [done|]. cbn.
  destruct (Ascii.eqb_spec c d) as [->|]; [|done]. intros H%IH. by rewrite H.
Qed.

(** A prefix with a letter that no address has. *)
Lemma ip_no_prefix a p c : IpTextFacts.wf a -> c ∈ as_bytes p -> ~ IpTextFacts.ip_char c ->
  strip_prefix p (ip_string a) = None.
Proof.
  intros Ha Hc Hn. destruct (strip_prefix p (ip_string a)) as [r|] eqn:Hp; [|done].
  apply strip_prefix_some in Hp. exfalso. apply Hn. pose proof (IpTextFacts.ip_string_chars a Ha) as Hf.
  rewrite Hp, IpTextFacts.as_bytes_append, Forall_app in Hf. destruct Hf as [Hf _].
  rewrite Forall_forall in Hf. by apply Hf.
Qed.

Lemma not_ip_char c : to_digit 16 c = None -> c <> 58 -> c <> 46 -> ~ IpTextFacts.ip_char c.
Proof. intros H1 H2 H3 [[d Hd]|[?|?]]; congruence. Qed.

Lemma from_str_bare s : bare s -> from_str s
  = if contains_at s then Ok (Email s)
    else if bool_decide (s = "") then Err (IpsecError.config "identity must not be empty") else Ok (Fqdn s).
Proof.
  intros (Hs & Hip & Hp). unfold from_str, from_bare. rewrite bool_decide_eq_false_2 by done.
  repeat (apply Forall_cons in Hp as [-> Hp]). by rewrite Hip.
Qed.

Lemma from_str_ip a : IpTextFacts.wf a -> from_str (ip_string a) = Ok (Ip a).
Proof.
  intros Ha. unfold from_str, from_bare.
  rewrite (ip_no_prefix a "keyid:" 107), (ip_no_prefix a "dn:" 110), (ip_no_prefix a "fqdn:" 113),
    (ip_no_prefix a "email:" 109), IpTextFacts.parse_ip_string
    by (done || (apply not_ip_char; done) || (apply list_elem_of_In; vm_compute; tauto)).
  case_bool_decide as He; [|done]. pose proof (ip_no_prefix a "*" 42 Ha) as Hn. rewrite He in Hn.
  discriminate Hn; [apply list_elem_of_In; by left|by apply not_ip_char].
Qed.

Lemma append_length p s : String.length (p +:+ s) = (String.length p + String.length s)%nat.
Proof. induction p as [|c p IH]; [done|]. exact (f_equal S IH). Qed.

(** A text that is read as itself has no prefix and is not an address. *)
Lemma from_str_self s i : from_str s = Ok i -> i = Fqdn s \/ i = Email s -> bare s.
Proof.
  unfold from_str. intros Hf Hi. case_bool_decide as Hs; [by destruct Hi as [->| ->]|].
  assert (forall p r, strip_prefix p s = Some r -> p <> "" -> r <> s) as Hp.
  { intros p r H%strip_prefix_some Hne ->. apply (f_equal String.length) in H. rewrite append_length in H.
    destruct p; [done|]. cbn in H. lia. }
  destruct (strip_prefix "keyid:" s) as [r|] eqn:H1.
  { destruct (unhex (as_bytes r)); try done. injection Hf as <-. by destruct Hi. }
  destruct (strip_prefix "dn:" s) as [r|] eqn:H2.
  { destruct (unhex (as_bytes r)); try done. injection Hf as <-. by destruct Hi. }
  destruct (strip_prefix "fqdn:" s) as [r|] eqn:H3; [exfalso; apply (Hp _ _ H3); [done|destruct Hi; congruence]|].
  destruct (strip_prefix "email:" s) as [r|] eqn:H4; [exfalso; apply (Hp _ _ H4); [done|destruct Hi; congruence]|].
  unfold from_bare in Hf. destruct (parse_ip s) as [a|] eqn:Hip; [destruct Hi; congruence|].
  split_and!; [done|done|]. by repeat apply Forall_cons_2.
Qed.

(** The text of an identity, which [Display] and serialisation write, is read back by
    [FromStr] as the same identity exactly for addresses, key ids, distinguished names and the
    wildcard, and for those names and mail addresses that do not look like something else: no
    prefix of another form, no address, and an at sign in a mail address only.  Others are
    read back as another identity, or not at all. *)
Theorem identity_text_roundtrip i :
  well_typed i -> from_str (identity_string i) = Ok i <-> text_exact i.
Proof.
  destruct i as [a|s|s|l|l|]; cbn [well_typed identity_string text_exact]; intros Hw.
  - split; [done|]. intros _. by apply from_str_ip.
  - split.
    + intros Hf. pose proof (from_str_self s _ Hf (or_introl eq_refl)) as Hb. split; [done|].
      rewrite (from_str_bare s Hb) in Hf. destruct (contains_at s); [done|]. by case_bool_decide.
    + intros (Hb & Hs & Hat). rewrite (from_str_bare s Hb), Hat. by rewrite bool_decide_eq_false_2.
  - split.
    + intros Hf. pose proof (from_str_self s _ Hf (or_intror eq_refl)) as Hb. split; [done|].
      rewrite (from_str_bare s Hb) in Hf. destruct (contains_at s); [done|]. by case_bool_decide.
    + intros (Hb & Hat). by rewrite (from_str_bare s Hb), Hat.
  - split; [done|]. intros _. unfold from_str. rewrite bool_decide_eq_false_2 by done.
    change (strip_prefix "keyid:" ("dn:" +:+ of_bytes (hex l))) with (@None string).
    rewrite strip_prefix_append, as_bytes_of_bytes by (by apply bytes_hex). by rewrite unhex_hex.
  - split; [done|]. intros _. unfold from_str. rewrite bool_decide_eq_false_2 by done.
    rewrite strip_prefix_append, as_bytes_of_bytes by (by apply bytes_hex). by rewrite unhex_hex.
  - done.
Qed.

(** A name that looks like an address comes back as the address. *)
Lemma identity_text_roundtrip_witness :
  from_str (identity_string (Ip (V6 ([32; 1; 13; 184] ++ replicate 11 0 ++ [1]))))
    = Ok (Ip (V6 ([32; 1; 13; 184] ++ replicate 11 0 ++ [1])))
  /\ ~ from_str (identity_string (Fqdn "192.0.2.10")) = Ok (Fqdn "192.0.2.10").
Proof.
  split.
  - apply identity_text_roundtrip; [|exact I]. split; [reflexivity|].
    repeat (constructor; [unfold IpTextFacts.octet; lia|]). constructor.
  - intros H. apply (identity_text_roundtrip (Fqdn "192.0.2.10") I) in H.
    destruct H as ((_ & Hip & _) & _). vm_compute in Hip. discriminate Hip.
Defined.

End IdentityFacts.
