(* ===== verification/IpsecConfig.v ===== *)
(** * The IPsec configuration

    [src/src/ipsec/config.rs] without its traffic selectors (they are in
    [TrafficSelector]): the algorithm enumerations with their transform ids and
    sizes, the proposals, the defaults, and [IpsecConfig::validate].  Secrets
    and certificates are byte strings, paths are strings, durations are
    seconds. *)

From S2P Require Import Prelude Errors TrafficSelector Identity.

(** ** Algorithms *)

Module EncryptionAlgorithm.

Inductive t := AesCbc128 | AesCbc192 | AesCbc256 | AesGcm16_128 | AesGcm16_256.

#[global] Instance t_eq_dec : EqDecision t.
Proof. solve_decision. Defined.

Definition transform_id (e : t) : Z :=
  match e with
  | AesCbc128 | AesCbc192 | AesCbc256 => 12
  | AesGcm16_128 | AesGcm16_256 => 20
  end.

Definition key_len (e : t) : nat :=
  match e with
  | AesCbc128 | AesGcm16_128 => 16
  | AesCbc192 => 24
  | AesCbc256 | AesGcm16_256 => 32
  end.

Definition key_len_bits (e : t) : option Z :=
  match e with
  | AesCbc128 | AesGcm16_128 => Some 128
  | AesCbc192 => Some 192
  | AesCbc256 | AesGcm16_256 => Some 256
  end.

Definition is_aead (e : t) : bool :=
  match e with AesGcm16_128 | AesGcm16_256 => true | _ => false end.

Definition iv_len (e : t) : nat := if is_aead e then 8 else 16.
Definition salt_len (e : t) : nat := if is_aead e then 4 else 0.
Definition block_len (e : t) : nat := 16.

End EncryptionAlgorithm.

Module PrfAlgorithm.

Inductive t := HmacSha1 | HmacSha2_256.

#[global] Instance t_eq_dec : EqDecision t.
Proof. solve_decision. Defined.

Definition transform_id (p : t) : Z :=
  match p with HmacSha1 => 2 | HmacSha2_256 => 5 end.
Definition key_len (p : t) : nat :=
  match p with HmacSha1 => 20 | HmacSha2_256 => 32 end.

End PrfAlgorithm.

Module IntegrityAlgorithm.

Inductive t := None | HmacSha1_96 | HmacSha2_256_128.

#[global] Instance t_eq_dec : EqDecision t.
Proof. solve_decision. Defined.

Definition transform_id (i : t) : Z :=
  match i with None => 0 | HmacSha1_96 => 2 | HmacSha2_256_128 => 12 end.
Definition output_len (i : t) : nat :=
  match i with None => 0 | HmacSha1_96 => 12 | HmacSha2_256_128 => 16 end.
Definition key_len (i : t) : nat :=
  match i with None => 0 | HmacSha1_96 => 20 | HmacSha2_256_128 => 32 end.

End IntegrityAlgorithm.

Module DhGroup.

Inductive t := None | Modp2048 | Ecp256 | Ecp384 | X25519.

#[global] Instance t_eq_dec : EqDecision t.
Proof. solve_decision. Defined.

Definition transform_id (d : t) : Z :=
  match d with
  | None => 0 | Modp2048 => 14 | Ecp256 => 19 | Ecp384 => 20 | X25519 => 31
  end.

Definition from_transform_id (id : Z) : option t :=
  match id with
  | 0 => Some None
  | 14 => Some Modp2048
  | 19 => Some Ecp256
  | 20 => Some Ecp384
  | 31 => Some X25519
  | _ => Datatypes.None
  end.

End DhGroup.

(** ** Proposals *)

Module IkeProposal.

Record t := mk {
  encryption : EncryptionAlgorithm.t;
  prf : PrfAlgorithm.t;
  integrity : IntegrityAlgorithm.t;
  dh : DhGroup.t;
}.

#[global] Instance t_eq_dec : EqDecision t.
Proof. solve_decision. Defined.

Definition is_valid (p : t) : bool :=
  Bool.eqb (EncryptionAlgorithm.is_aead (encryption p))
    (bool_decide (integrity p = IntegrityAlgorithm.None)).

End IkeProposal.

Module ChildProposal.

Record t := mk {
  encryption : EncryptionAlgorithm.t;
  integrity : IntegrityAlgorithm.t;
  esn : bool;
  dh : DhGroup.t;
}.

#[global] Instance t_eq_dec : EqDecision t.
Proof. solve_decision. Defined.

Definition is_valid (p : t) : bool :=
  Bool.eqb (EncryptionAlgorithm.is_aead (encryption p))
    (bool_decide (integrity p = IntegrityAlgorithm.None)).

End ChildProposal.

(** ** The configuration of a connection *)

Inductive Topology := PointToPoint | AdHoc | SiteToSite.
Inductive ChildMode := Transport | Tunnel.

#[global] Instance Topology_eq_dec : EqDecision Topology.
Proof. solve_decision. Defined.
#[global] Instance ChildMode_eq_dec : EqDecision ChildMode.
Proof. solve_decision. Defined.

(** [impl Display for Topology]. *)
Definition topology_str (t : Topology) : string :=
  match t with
  | PointToPoint => "point-to-point"
  | AdHoc => "ad-hoc"
  | SiteToSite => "site-to-site"
  end.

Record IkeConfig := mkIkeConfig {
  ike_proposals : list IkeProposal.t;
  ike_lifetime : Z;
}.

Definition IkeConfig_default : IkeConfig :=
  mkIkeConfig
    [IkeProposal.mk EncryptionAlgorithm.AesGcm16_256 PrfAlgorithm.HmacSha2_256
       IntegrityAlgorithm.None DhGroup.Ecp256;
     IkeProposal.mk EncryptionAlgorithm.AesGcm16_128 PrfAlgorithm.HmacSha2_256
       IntegrityAlgorithm.None DhGroup.X25519;
     IkeProposal.mk EncryptionAlgorithm.AesCbc256 PrfAlgorithm.HmacSha2_256
       IntegrityAlgorithm.HmacSha2_256_128 DhGroup.Modp2048;
     IkeProposal.mk EncryptionAlgorithm.AesCbc128 PrfAlgorithm.HmacSha2_256
       IntegrityAlgorithm.HmacSha2_256_128 DhGroup.Ecp256]
    (8 * 60 * 60).

Record ChildConfig := mkChildConfig {
  child_proposals : list ChildProposal.t;
  child_mode : ChildMode;
  child_lifetime : Z;
  replay_window : Z;
}.

Definition ChildConfig_default : ChildConfig :=
  mkChildConfig
    [ChildProposal.mk EncryptionAlgorithm.AesGcm16_256 IntegrityAlgorithm.None
       false DhGroup.Ecp256;
     ChildProposal.mk EncryptionAlgorithm.AesGcm16_128 IntegrityAlgorithm.None
       false DhGroup.X25519;
     ChildProposal.mk EncryptionAlgorithm.AesCbc256
       IntegrityAlgorithm.HmacSha2_256_128 false DhGroup.Modp2048;
     ChildProposal.mk EncryptionAlgorithm.AesCbc128
       IntegrityAlgorithm.HmacSha2_256_128 true DhGroup.Ecp256]
    Tunnel (60 * 60) 512.

Record CertificateConfig := mkCertificateConfig {
  ca_certificates : list (list Z);
  certificates : list (list Z);
  private_key : list Z;
  certificate_requests : list (list Z);
}.

Record EapTlsConfig := mkEapTlsConfig {
  eap_identity : string;
  ca_cert : option string;
  client_cert : option string;
  client_key : option string;
  server_name : option string;
}.

(** [EapTlsConfig::validate]. *)
Definition validate_eap_tls (c : EapTlsConfig) : outcome IpsecError.t unit :=
  let required (field : string) (value : option string)
    : outcome IpsecError.t unit :=
    match value with
    | Some _ => Ok tt
    | None => Err (IpsecError.config ("EAP-TLS " +:+ field +:+ " is required"))
    end in
  if bool_decide (eap_identity c = "") then
    Err (IpsecError.config "EAP-TLS identity is required") else
  _ ← required "ca_cert" (ca_cert c);
  _ ← required "client_cert" (client_cert c);
  _ ← required "client_key" (client_key c);
  match server_name c with
  | None | Some "" => Err (IpsecError.config "EAP-TLS server_name is required")
  | Some _ => Ok tt
  end.

Inductive AuthConfig :=
| Psk (secret : list Z)
| Certificate (cert : CertificateConfig)
| EapTls (eap : EapTlsConfig).

Record RekeyConfig := mkRekeyConfig {
  ike_margin_percent : Z;
  child_margin_percent : Z;
  grace : Z;
}.

Definition RekeyConfig_default : RekeyConfig := mkRekeyConfig 90 90 10.

Record DpdConfig := mkDpdConfig {
  dpd_interval : Z;
  dpd_timeout : Z;
  dpd_retries : Z;
  dpd_enabled : bool;
}.

Definition DpdConfig_default : DpdConfig := mkDpdConfig 30 10 3 true.

Record XfrmConfig := mkXfrmConfig {
  xfrm_interface : option string;
  if_id : option Z;
  reqid : option Z;
  priority : Z;
  mark : option Z;
  mark_mask : Z;
  underlay_interface : option string;
  xfrm_esn : bool;
}.

Record LocalConfig := mkLocalConfig {
  local_address : option IpAddr;
  local_interface : option string;
  local_identity : Identity.t;
  local_port : Z;
  nat_t : bool;
  request_inner_address : bool;
  request_dns : bool;
}.

Definition LocalConfig_default : LocalConfig :=
  mkLocalConfig None None (Identity.Fqdn "localhost") 500 true false false.

Record RemoteConfig := mkRemoteConfig {
  remote_address : option IpAddr;
  remote_identity : Identity.t;
  remote_port : Z;
}.

Definition RemoteConfig_default : RemoteConfig :=
  mkRemoteConfig None (Identity.Fqdn "remote.example.org") 500.

Record PeerConfig := mkPeerConfig {
  remote : RemoteConfig;
  selectors : TrafficSelectorPair.t;
  auth : AuthConfig;
}.

(** [name.trim().is_empty()] on UTF-8: every character is white space. *)
Fixpoint blank (s : list Z) : bool :=
  match s with
  | [] => true
  | b :: s1 =>
      if (9 <=? b) && (b <=? 13) || (b =? 32) then blank s1 else
      match s1 with
      | [] => false
      | c :: s2 =>
          if (b =? 194) && ((c =? 133) || (c =? 160)) then blank s2 else
          match s2 with
          | [] => false
          | d :: s3 =>
              if (b =? 225) && (c =? 154) && (d =? 128)
                 || (b =? 226) && (c =? 128)
                    && ((128 <=? d) && (d <=? 138) || (d =? 168) || (d =? 169)
                        || (d =? 175))
                 || (b =? 226) && (c =? 129) && (d =? 159)
                 || (b =? 227) && (c =? 128) && (d =? 128)
              then blank s3 else false
          end
      end
  end.

Module IpsecConfig.

Record t := mk {
  name : string;
  topology : Topology;
  local : LocalConfig;
  peers : list PeerConfig;
  ike : IkeConfig;
  child : ChildConfig;
  xfrm : XfrmConfig;
  rekey : RekeyConfig;
  dpd : DpdConfig;
}.

Definition validate_auth (a : AuthConfig) : outcome IpsecError.t unit :=
  match a with
  | Psk [] => Err (IpsecError.config "PSK must not be empty")
  | Psk _ => Ok tt
  | Certificate cert =>
      match ca_certificates cert, certificates cert, private_key cert with
      | [], _, _ => Err (IpsecError.config
                           "certificate authentication requires a CA certificate")
      | _, [], _ => Err (IpsecError.config
                           "certificate authentication requires a local certificate")
      | _, _, [] => Err (IpsecError.config
                           "certificate authentication requires a private key")
      | _, _, _ => Ok tt
      end
  | EapTls eap => validate_eap_tls eap
  end.

(** [for peer in &self.peers]. *)
Fixpoint validate_peers (l : list PeerConfig) : outcome IpsecError.t unit :=
  match l with
  | [] => Ok tt
  | p :: l =>
      _ ← TrafficSelectorPair.validate (selectors p);
      _ ← validate_auth (auth p);
      validate_peers l
  end.

(** A peer whose local selector is not a single host. *)
Definition has_subnet (p : PeerConfig) : bool :=
  existsb (fun s => negb (bool_decide (TrafficSelector.start s
                                       = TrafficSelector.end_ s)))
    (TrafficSelectorPair.local (selectors p)).

Definition validate (c : t) : outcome IpsecError.t unit :=
  if blank (as_bytes (name c)) then
    Err (IpsecError.config "connection name is required") else
  if (length (peers c) =? 0)%nat then
    Err (IpsecError.config ("connection " +:+ name c +:+ " has no peers")) else
  if bool_decide (topology c = PointToPoint) && negb (length (peers c) =? 1)%nat
  then Err (IpsecError.config
              "point-to-point connections require exactly one peer") else
  if (length (ike_proposals (ike c)) =? 0)%nat then
    Err (IpsecError.config "at least one IKE proposal is required") else
  if (length (child_proposals (child c)) =? 0)%nat then
    Err (IpsecError.config "at least one Child SA proposal is required") else
  if negb (forallb IkeProposal.is_valid (ike_proposals (ike c))) then
    Err (IpsecError.config
           ("IKE proposals require an integrity transform unless they "
            +:+ "use an AEAD cipher")) else
  if negb (forallb ChildProposal.is_valid (child_proposals (child c))) then
    Err (IpsecError.config
           ("ESP proposals require an integrity transform unless they "
            +:+ "use an AEAD cipher")) else
  if bool_decide (child_mode (child c) = Transport)
     && existsb has_subnet (peers c)
  then Err (IpsecError.config "transport mode requires host traffic selectors")
  else validate_peers (peers c).

End IpsecConfig.

(** ** What a valid configuration is *)

Module ConfigSpec.
Import IpsecConfig.

Definition valid_selector (s : TrafficSelector.t) : Prop :=
  addr_family (TrafficSelector.start s) = addr_family (TrafficSelector.end_ s)
  /\ addr_leb (TrafficSelector.start s) (TrafficSelector.end_ s) = true
  /\ TrafficSelector.start_port s <= TrafficSelector.end_port s.

Definition valid_pair (p : TrafficSelectorPair.t) : Prop :=
  let l := TrafficSelectorPair.local p in
  let r := TrafficSelectorPair.remote p in
  l <> [] /\ r <> [] /\ Forall valid_selector (l ++ r)
  /\ exists f, Forall (fun s => TrafficSelector.family s = f) (l ++ r).

Definition valid_auth (a : AuthConfig) : Prop :=
  match a with
  | Psk secret => secret <> []
  | Certificate c =>
      ca_certificates c <> [] /\ certificates c <> [] /\ private_key c <> []
  | EapTls e =>
      eap_identity e <> "" /\ is_Some (ca_cert e) /\ is_Some (client_cert e)
      /\ is_Some (client_key e) /\ exists n, server_name e = Some n /\ n <> ""
  end.

Definition valid_config (c : t) : Prop :=
  blank (as_bytes (name c)) = false
  /\ peers c <> [] /\ (topology c = PointToPoint -> length (peers c) = 1%nat)
  /\ ike_proposals (ike c) <> [] /\ child_proposals (child c) <> []
  /\ Forall (fun p => IkeProposal.is_valid p = true) (ike_proposals (ike c))
  /\ Forall (fun p => ChildProposal.is_valid p = true) (child_proposals (child c))
  /\ (child_mode (child c) = Transport ->
      Forall (fun p => Forall (fun s => TrafficSelector.start s = TrafficSelector.end_ s)
                         (TrafficSelectorPair.local (selectors p))) (peers c))
  /\ Forall (fun p => valid_pair (selectors p) /\ valid_auth (auth p)) (peers c).

Lemma selector_validate_iff s :
  TrafficSelector.validate s = Ok tt <-> valid_selector s.
Proof.
  unfold TrafficSelector.validate, valid_selector.
  repeat case_match; split; try done; try (intros (? & ? & ?); lia); lia.
Qed.

Lemma validate_all_iff l :
  TrafficSelectorPair.validate_all l = Ok tt <-> Forall valid_selector l.
Proof.
  induction l as [|s l IH]; cbn; [split; [constructor|done]|].
  rewrite bind_ok, Forall_cons, <- selector_validate_iff, <- IH. split.
  - intros ([] & ? & ?). done.
  - intros [? ?]. by exists tt.
Qed.

Lemma existsb_false {A} (f : A -> bool) l :
  existsb f l = false <-> Forall (fun x => f x = false) l.
Proof.
  induction l as [|x l IH]; cbn; [split; [constructor|done]|].
  rewrite orb_false_iff, Forall_cons, IH. done.
Qed.

Lemma forallb_true {A} (f : A -> bool) l :
  forallb f l = true <-> Forall (fun x => f x = true) l.
Proof.
  induction l as [|x l IH]; cbn; [split; [constructor|done]|].
  rewrite andb_true_iff, Forall_cons, IH. done.
Qed.

Lemma family_check f l :
  existsb (fun s => negb (TrafficSelector.family s =? f)) l = false
  <-> Forall (fun s => TrafficSelector.family s = f) l.
Proof.
  rewrite existsb_false. apply Forall_iff. intros s. lia.
Qed.

Lemma pair_validate_iff p :
  TrafficSelectorPair.validate p = Ok tt <-> valid_pair p.
Proof.
  unfold TrafficSelectorPair.validate, valid_pair. destruct p as [[|s l] [|r rs]];
    cbn [TrafficSelectorPair.local TrafficSelectorPair.remote];
    try (split; [done|by intros (? & ? & _)]).
  pose proof (family_check (addr_family (TrafficSelector.start s)) (s :: l)) as Hl.
  pose proof (family_check (addr_family (TrafficSelector.start s)) (r :: rs)) as Hr.
  rewrite bind_ok, <- validate_all_iff. split.
  - intros ([] & Hv & Hf). split_and!; [done|done|done|].
    destruct (existsb _ (s :: l)); [done|]. destruct (existsb _ (r :: rs)); [done|].
    eexists. apply Forall_app. split; [by apply Hl|by apply Hr].
  - intros (_ & _ & Hv & f & Hf). exists tt. split; [done|].
    assert (f = addr_family (TrafficSelector.start s)) as ->
      by (cbn in Hf; apply Forall_cons in Hf as [<- _]; done).
    apply Forall_app in Hf as [Hf1 Hf2].
    by rewrite (proj2 Hl Hf1), (proj2 Hr Hf2).
Qed.

Lemma auth_validate_iff a : validate_auth a = Ok tt <-> valid_auth a.
Proof.
  destruct a as [[|]|c|e]; cbn; [by split|by split| |].
  - destruct (ca_certificates c), (certificates c), (private_key c);
      split; try done; intuition.
  - unfold validate_eap_tls. case_bool_decide; [split; [done|by intros [? _]]|].
    destruct (ca_cert e), (client_cert e), (client_key e), (server_name e) as [[|]|];
      cbn; split; try done; try (intros (_ & [? ?] & [? ?] & [? ?] & ? & ? & ?); congruence).
    intros _. split_and!; [done|by eexists|by eexists|by eexists|by eexists].
Qed.

Lemma peers_validate_iff l :
  validate_peers l = Ok tt
  <-> Forall (fun p => valid_pair (selectors p) /\ valid_auth (auth p)) l.
Proof.
  induction l as [|p l IH]; cbn; [split; [constructor|done]|].
  rewrite bind_ok, Forall_cons, <- IH, <- pair_validate_iff, <- auth_validate_iff.
  split.
  - intros ([] & ? & H). apply bind_ok in H as ([] & ? & ?). done.
  - intros [[? Ha] ?]. exists tt. split; [done|]. by rewrite Ha.
Qed.

Lemma length_zero {A} (l : list A) : (length l =? 0)%nat = false <-> l <> [].
Proof. destruct l; by split. Qed.

Lemma no_subnet_iff l :
  existsb has_subnet l = false
  <-> Forall (fun p => Forall (fun s => TrafficSelector.start s = TrafficSelector.end_ s)
                         (TrafficSelectorPair.local (selectors p))) l.
Proof.
  rewrite existsb_false. apply Forall_iff. intros p. unfold has_subnet.
  rewrite existsb_false. apply Forall_iff. intros s.
  rewrite negb_false_iff. apply bool_decide_eq_true.
Qed.

(** The shape of a check: an error when the condition holds. *)
Lemma if_err_iff {E} (b : bool) (e : E) (k : outcome E unit) :
  (if b then Err e else k) = Ok tt <-> b = false /\ k = Ok tt.
Proof. destruct b; intuition congruence. Qed.

(** The shape of a conditional check. *)
Lemma guarded_iff (P : Prop) `{!Decision P} b :
  bool_decide P && b = false <-> (P -> b = false).
Proof. case_bool_decide; cbn; intuition. Qed.

(** [IpsecConfig::validate] accepts exactly the valid configurations: a
    named connection with peers (one for point-to-point), proposals whose
    integrity and cipher fit together, host selectors in transport mode, and
    for every peer well-formed selectors of one address family and complete
    credentials. *)
Theorem ipsec_validate_iff c : validate c = Ok tt <-> valid_config c.
Proof.
  unfold validate, valid_config. rewrite !if_err_iff, !length_zero, !negb_false_iff.
  rewrite !guarded_iff, !forallb_true, peers_validate_iff, no_subnet_iff.
  by rewrite negb_false_iff, Nat.eqb_eq.
Qed.

(** The default IKE and Child SA settings pass every check. *)
Lemma ipsec_defaults_valid name topo local peer xfrm :
  blank (as_bytes name) = false -> valid_pair (selectors peer) ->
  valid_auth (auth peer) ->
  valid_config (mk name topo local [peer] IkeConfig_default ChildConfig_default xfrm
                  RekeyConfig_default DpdConfig_default).
Proof.
  intros Hn Hs Ha. unfold valid_config.
  split_and!; try done; try (by repeat constructor). by apply Forall_singleton.
Qed.

End ConfigSpec.
