(* ===== verification/IkeProposals.v ===== *)
(** * Proposal construction and selection

    [src/src/ipsec/ikev2/proposal.rs] and the two helpers of [codec.rs] that
    turn a suite into transforms.  [Module ProposalFacts] characterises when an
    offer matches a configured suite and proves that the two ends of a
    negotiation agree on one suite that both have configured. *)

From S2P Require Import Prelude Errors IkeCodec TrafficSelector Identity IpsecConfig.

(** ** Transforms of a suite ([codec.rs]) *)

Definition encr_transform (e : EncryptionAlgorithm.t) : Transform :=
  mkTransform transform_type.ENCR (EncryptionAlgorithm.transform_id e)
    (match EncryptionAlgorithm.key_len_bits e with
     | Some bits => [key_length bits]
     | None => []
     end).

Definition integ_transforms (i : IntegrityAlgorithm.t) : list Transform :=
  if bool_decide (i = IntegrityAlgorithm.None) then []
  else [mkTransform transform_type.INTEG (IntegrityAlgorithm.transform_id i) []].

Definition dh_transforms (d : DhGroup.t) : list Transform :=
  if bool_decide (d = DhGroup.None) then []
  else [mkTransform transform_type.DH (DhGroup.transform_id d) []].

Definition ike_transforms (encryption : EncryptionAlgorithm.t)
  (prf : PrfAlgorithm.t) (integrity : IntegrityAlgorithm.t) (dh : DhGroup.t)
  : list Transform :=
  [encr_transform encryption;
   mkTransform transform_type.PRF (PrfAlgorithm.transform_id prf) []]
  ++ integ_transforms integrity ++ dh_transforms dh.

Definition esp_transforms (encryption : EncryptionAlgorithm.t)
  (integrity : IntegrityAlgorithm.t) (esn : bool) (dh : DhGroup.t)
  : list Transform :=
  [encr_transform encryption] ++ integ_transforms integrity
  ++ [mkTransform transform_type.ESN (if esn then 1 else 0) []]
  ++ dh_transforms dh.

(** ** Building offers *)

Definition build_ike (proposals : list IkeProposal.t) : list Proposal :=
  imap (fun index p =>
          mkProposal (as_u8 (Z.of_nat (index + 1))) protocol_id.IKE []
            (ike_transforms (IkeProposal.encryption p) (IkeProposal.prf p)
               (IkeProposal.integrity p) (IkeProposal.dh p)))
    proposals.

Definition build_esp (proposals : list ChildProposal.t) (spi : Z)
  (include_dh : bool) : list Proposal :=
  imap (fun index p =>
          mkProposal (as_u8 (Z.of_nat (index + 1))) protocol_id.ESP (to_be 4 spi)
            (esp_transforms (ChildProposal.encryption p)
               (ChildProposal.integrity p) (ChildProposal.esn p)
               (if include_dh then ChildProposal.dh p else DhGroup.None)))
    proposals.

(** ** Matching an offer *)

(** [attributes.iter().find_map(|a| a.key_length_bits())]. *)
Fixpoint find_key_length (l : list TransformAttribute) : option Z :=
  match l with
  | [] => None
  | a :: l => match key_length_bits a with
              | Some bits => Some bits
              | None => find_key_length l
              end
  end.

(** A transform of a type with an id is offered. *)
Definition offers (kind id : Z) (l : list Transform) : bool :=
  existsb (fun t => (transform_type_ t =? kind) && (transform_id t =? id)) l.

Definition encryption_offered (e : EncryptionAlgorithm.t) (l : list Transform)
  : bool :=
  existsb (fun t =>
    if negb (transform_type_ t =? transform_type.ENCR)
       || negb (transform_id t =? EncryptionAlgorithm.transform_id e)
    then false
    else if (EncryptionAlgorithm.transform_id e =? 12)
            || (EncryptionAlgorithm.transform_id e =? 20)
    then bool_decide (find_key_length (attributes t)
                      = EncryptionAlgorithm.key_len_bits e)
    else true) l.

Definition transform_offer_matches (l : list Transform)
  (encryption : EncryptionAlgorithm.t) (prf : option PrfAlgorithm.t)
  (integrity : IntegrityAlgorithm.t) (dh : DhGroup.t) : bool :=
  if negb (encryption_offered encryption l) then false else
  if (match prf with
      | Some prf => negb (offers transform_type.PRF (PrfAlgorithm.transform_id prf) l)
      | None => false
      end) then false else
  if negb (bool_decide (integrity = IntegrityAlgorithm.None))
     && negb (offers transform_type.INTEG
                (IntegrityAlgorithm.transform_id integrity) l)
  then false else
  if bool_decide (integrity = IntegrityAlgorithm.None)
     && negb (EncryptionAlgorithm.is_aead encryption)
  then false else
  if negb (bool_decide (dh = DhGroup.None))
     && negb (offers transform_type.DH (DhGroup.transform_id dh) l)
  then false else
  bool_decide (dh = DhGroup.None)
  || offers transform_type.DH (DhGroup.transform_id dh) l.

Definition esn_offer_matches (l : list Transform) (esn : bool) : bool :=
  existsb (fun t => (transform_type_ t =? transform_type.ESN)
                    && Bool.eqb (transform_id t =? 1) esn) l.

(** ** Selecting *)

Definition ike_matches (offer : Proposal) (c : IkeProposal.t) : bool :=
  transform_offer_matches (transforms offer) (IkeProposal.encryption c)
    (Some (IkeProposal.prf c)) (IkeProposal.integrity c) (IkeProposal.dh c).

Fixpoint select_ike (configured : list IkeProposal.t) (received : list Proposal)
  : outcome IpsecError.t (IkeProposal.t * Z) :=
  match received with
  | [] => Err (IpsecError.new IpsecError.Proposal
                 "no mutually supported IKE proposal")
  | offer :: received =>
      if negb (protocol offer =? protocol_id.IKE)
      then select_ike configured received else
      match List.find (ike_matches offer) configured with
      | Some candidate => Ok (candidate, number offer)
      | None => select_ike configured received
      end
  end.

Definition esp_matches (include_dh : bool) (offer : Proposal)
  (c : ChildProposal.t) : bool :=
  transform_offer_matches (transforms offer) (ChildProposal.encryption c) None
    (ChildProposal.integrity c)
    (if include_dh then ChildProposal.dh c else DhGroup.None)
  && esn_offer_matches (transforms offer) (ChildProposal.esn c).

(** [candidate.dh = DhGroup::None] when no DH exchange is allowed. *)
Definition drop_dh (include_dh : bool) (c : ChildProposal.t) : ChildProposal.t :=
  if include_dh then c
  else ChildProposal.mk (ChildProposal.encryption c) (ChildProposal.integrity c)
         (ChildProposal.esn c) DhGroup.None.

Fixpoint select_esp_with_dh (configured : list ChildProposal.t)
  (received : list Proposal) (include_dh : bool)
  : outcome IpsecError.t (ChildProposal.t * Z) :=
  match received with
  | [] => Err (IpsecError.new IpsecError.Proposal
                 "no mutually supported ESP proposal")
  | offer :: received =>
      if negb (protocol offer =? protocol_id.ESP)
      then select_esp_with_dh configured received include_dh else
      match List.find (esp_matches include_dh offer) configured with
      | Some candidate => Ok (drop_dh include_dh candidate, number offer)
      | None => select_esp_with_dh configured received include_dh
      end
  end.

Definition select_esp (configured : list ChildProposal.t)
  (received : list Proposal) := select_esp_with_dh configured received true.

Definition select_esp_initial (configured : list ChildProposal.t)
  (received : list Proposal) := select_esp_with_dh configured received false.

(** ** Reading the peer's choice *)

Definition select_transform (l : list Transform) (kind : Z) : option Transform :=
  List.find (fun t => transform_type_ t =? kind) l.

Definition parse_encryption (t : Transform) : option EncryptionAlgorithm.t :=
  match transform_id t with
  | 12 =>
      bits ← find_key_length (attributes t);
      match bits with
      | 128 => Some EncryptionAlgorithm.AesCbc128
      | 192 => Some EncryptionAlgorithm.AesCbc192
      | 256 => Some EncryptionAlgorithm.AesCbc256
      | _ => None
      end
  | 20 =>
      match find_key_length (attributes t) with
      | Some 256 => Some EncryptionAlgorithm.AesGcm16_256
      | Some 128 | None => Some EncryptionAlgorithm.AesGcm16_128
      | _ => None
      end
  | _ => None
  end.

Definition parse_prf (t : Transform) : option PrfAlgorithm.t :=
  match transform_id t with
  | 2 => Some PrfAlgorithm.HmacSha1
  | 5 => Some PrfAlgorithm.HmacSha2_256
  | _ => None
  end.

Definition parse_integrity (t : Transform) : option IntegrityAlgorithm.t :=
  match transform_id t with
  | 0 => Some IntegrityAlgorithm.None
  | 2 => Some IntegrityAlgorithm.HmacSha1_96
  | 12 => Some IntegrityAlgorithm.HmacSha2_256_128
  | _ => None
  end.

Definition parse_dh (t : Transform) : option DhGroup.t :=
  DhGroup.from_transform_id (transform_id t).

Definition proposal_err (m : string) : IpsecError.t :=
  IpsecError.new IpsecError.Proposal m.

Definition parse_selected_ike (proposals : list Proposal)
  : outcome IpsecError.t IkeProposal.t :=
  offer ← ok_or (List.find (fun p => protocol p =? protocol_id.IKE) proposals)
            (proposal_err "no IKE proposal in response");
  let get kind := select_transform (transforms offer) kind in
  encryption ← ok_or (get transform_type.ENCR ≫= parse_encryption)
                 (proposal_err "unsupported IKE encryption");
  prf ← ok_or (get transform_type.PRF ≫= parse_prf)
          (proposal_err "unsupported IKE PRF");
  let integrity := default IntegrityAlgorithm.None
                     (get transform_type.INTEG ≫= parse_integrity) in
  dh ← ok_or (get transform_type.DH ≫= parse_dh)
         (proposal_err "unsupported IKE DH group");
  Ok (IkeProposal.mk encryption prf integrity dh).

Definition parse_selected_esp (proposals : list Proposal)
  : outcome IpsecError.t ChildProposal.t :=
  offer ← ok_or (List.find (fun p => protocol p =? protocol_id.ESP) proposals)
            (proposal_err "no ESP proposal in response");
  let get kind := select_transform (transforms offer) kind in
  encryption ← ok_or (get transform_type.ENCR ≫= parse_encryption)
                 (proposal_err "unsupported ESP encryption");
  let integrity := default IntegrityAlgorithm.None
                     (get transform_type.INTEG ≫= parse_integrity) in
  let esn := match get transform_type.ESN with
             | Some t => transform_id t =? 1
             | None => false
             end in
  let dh := default DhGroup.None (get transform_type.DH ≫= parse_dh) in
  Ok (ChildProposal.mk encryption integrity esn dh).

(** The SA payload of a responder's IKE_SA_INIT ([engine.rs]). *)
Definition response_sa (suite : IkeProposal.t) (proposal_number : Z)
  : list Proposal :=
  [mkProposal proposal_number protocol_id.IKE []
     (ike_transforms (IkeProposal.encryption suite) (IkeProposal.prf suite)
        (IkeProposal.integrity suite) (IkeProposal.dh suite))].

(** ** Negotiation *)

Module ProposalFacts.

(** What an offer for [p] matches. *)
Definition ike_compatible (p c : IkeProposal.t) : Prop :=
  IkeProposal.encryption c = IkeProposal.encryption p
  /\ IkeProposal.prf c = IkeProposal.prf p
  /\ IkeProposal.integrity c = IkeProposal.integrity p
  /\ (IkeProposal.dh c = DhGroup.None \/ IkeProposal.dh c = IkeProposal.dh p).

(** What an IKE or ESP offer offers, one transform type at a time. *)

Section offered.
Context (e : EncryptionAlgorithm.t) (p : PrfAlgorithm.t)
  (i : IntegrityAlgorithm.t) (d : DhGroup.t) (esn : bool).

Lemma ike_offers_encryption c :
  encryption_offered c (ike_transforms e p i d) = bool_decide (c = e).
Proof using Type. by destruct c, e, i, d. Qed.

Lemma ike_offers_prf c :
  offers transform_type.PRF (PrfAlgorithm.transform_id c) (ike_transforms e p i d)
  = bool_decide (c = p).
Proof using Type. by destruct c, p, i, d. Qed.

Lemma ike_offers_integrity c :
  c <> IntegrityAlgorithm.None ->
  offers transform_type.INTEG (IntegrityAlgorithm.transform_id c)
    (ike_transforms e p i d) = bool_decide (c = i).
Proof using Type. by destruct c, i, d. Qed.

Lemma ike_offers_dh c :
  c <> DhGroup.None ->
  offers transform_type.DH (DhGroup.transform_id c) (ike_transforms e p i d)
  = bool_decide (c = d).
Proof using Type. by destruct c, i, d. Qed.

Lemma esp_offers_encryption c :
  encryption_offered c (esp_transforms e i esn d) = bool_decide (c = e).
Proof using Type. by destruct c, e, i, d. Qed.

Lemma esp_offers_integrity c :
  c <> IntegrityAlgorithm.None ->
  offers transform_type.INTEG (IntegrityAlgorithm.transform_id c)
    (esp_transforms e i esn d) = bool_decide (c = i).
Proof using Type. by destruct c, i, d. Qed.

Lemma esp_offers_dh c :
  c <> DhGroup.None ->
  offers transform_type.DH (DhGroup.transform_id c) (esp_transforms e i esn d)
  = bool_decide (c = d).
Proof using Type. by destruct c, i, d. Qed.

Lemma esp_offers_esn c : esn_offer_matches (esp_transforms e i esn d) c = Bool.eqb esn c.
Proof using Type. by destruct c, i, d, esn. Qed.

End offered.

(** The integrity part of a match, between valid suites, is equality. *)
Lemma valid_integrity e i c :
  Bool.eqb (EncryptionAlgorithm.is_aead e) (bool_decide (i = IntegrityAlgorithm.None))
    = true ->
  Bool.eqb (EncryptionAlgorithm.is_aead e) (bool_decide (c = IntegrityAlgorithm.None))
    = true ->
  (c = IntegrityAlgorithm.None -> EncryptionAlgorithm.is_aead e = true)
  /\ (c = IntegrityAlgorithm.None -> i = IntegrityAlgorithm.None).
Proof. by destruct e, i, c. Qed.

(** [transform_offer_matches] of a list that offers [e], [i] and [d]. *)
Lemma offer_matches_iff l e i d (prf : option PrfAlgorithm.t) p ce ci cd :
  (forall c, encryption_offered c l = bool_decide (c = e)) ->
  (forall c, prf = Some c -> offers transform_type.PRF (PrfAlgorithm.transform_id c) l
             = bool_decide (c = p)) ->
  (forall c, c <> IntegrityAlgorithm.None ->
     offers transform_type.INTEG (IntegrityAlgorithm.transform_id c) l
     = bool_decide (c = i)) ->
  (forall c, c <> DhGroup.None ->
     offers transform_type.DH (DhGroup.transform_id c) l = bool_decide (c = d)) ->
  Bool.eqb (EncryptionAlgorithm.is_aead e) (bool_decide (i = IntegrityAlgorithm.None))
    = true ->
  Bool.eqb (EncryptionAlgorithm.is_aead ce) (bool_decide (ci = IntegrityAlgorithm.None))
    = true ->
  transform_offer_matches l ce prf ci cd = true
  <-> ce = e /\ (forall c, prf = Some c -> c = p) /\ ci = i
      /\ (cd = DhGroup.None \/ cd = d).
Proof.
  intros He Hp Hi Hd Hv Hv'. unfold transform_offer_matches. rewrite He.
  destruct (decide (ce = e)) as [->|Hne];
    [|rewrite bool_decide_eq_false_2 by done; split; [done|by intros [? _]]].
  rewrite bool_decide_eq_true_2 by done. cbn [negb].
  destruct (valid_integrity e i ci Hv Hv') as [Haead Hnone].
  assert (Hpm : match prf with
    | Some prf => negb (offers transform_type.PRF (PrfAlgorithm.transform_id prf) l)
    | None => false end = false <-> forall c, prf = Some c -> c = p).
  { destruct prf as [c|]; [|by split].
    rewrite (Hp c eq_refl), negb_false_iff, bool_decide_eq_true.
    split; [by intros -> ? [= <-]|by intros H; apply H]. }
  destruct (match prf with Some _ => _ | None => _ end);
    [split; [done|]; intros (_ & H & _); by apply Hpm in H|].
  assert (Hprf : forall c, prf = Some c -> c = p) by (by apply Hpm).
  clear Hpm Hp He.
  assert (Hdh : (if negb (bool_decide (cd = DhGroup.None))
       && negb (offers transform_type.DH (DhGroup.transform_id cd) l) then false
     else bool_decide (cd = DhGroup.None)
          || offers transform_type.DH (DhGroup.transform_id cd) l) = true
     <-> cd = DhGroup.None \/ cd = d).
  { destruct (decide (cd = DhGroup.None)) as [->|Hcd]; [by split; [left|]|].
    rewrite Hd, (bool_decide_eq_false_2 (cd = DhGroup.None)) by done. cbn.
    destruct (bool_decide_reflect (cd = d)); cbn; intuition congruence. }
  destruct (decide (ci = IntegrityAlgorithm.None)) as [->|Hci].
  - rewrite (Haead eq_refl), (Hnone eq_refl). cbn [bool_decide_eq_true_2].
    rewrite bool_decide_eq_true_2 by done. cbn [negb andb]. rewrite Hdh. intuition.
  - rewrite Hi, !(bool_decide_eq_false_2 (ci = IntegrityAlgorithm.None)) by done.
    cbn [negb andb].
    destruct (bool_decide_reflect (ci = i)); cbn [negb]; [rewrite Hdh; intuition|].
    split; [done|]. by intros (_ & _ & ? & _).
Qed.

Lemma ike_matches_iff p c num :
  IkeProposal.is_valid p = true -> IkeProposal.is_valid c = true ->
  ike_matches (mkProposal num protocol_id.IKE []
    (ike_transforms (IkeProposal.encryption p) (IkeProposal.prf p)
       (IkeProposal.integrity p) (IkeProposal.dh p))) c = true
  <-> ike_compatible p c.
Proof.
  intros H1 H2. unfold ike_matches, ike_compatible. cbn [transforms].
  rewrite (offer_matches_iff _ (IkeProposal.encryption p)
    (IkeProposal.integrity p) (IkeProposal.dh p) _ (IkeProposal.prf p)); [|
    apply ike_offers_encryption | intros; apply ike_offers_prf
    | apply ike_offers_integrity | apply ike_offers_dh | done | done].
  split; intros (-> & Hp & -> & ?); split_and!; auto. by intros ? [= <-].
Qed.

Definition esp_compatible (include_dh : bool) (p c : ChildProposal.t) : Prop :=
  ChildProposal.encryption c = ChildProposal.encryption p
  /\ ChildProposal.integrity c = ChildProposal.integrity p
  /\ ChildProposal.esn c = ChildProposal.esn p
  /\ (include_dh = true -> ChildProposal.dh c = DhGroup.None
                           \/ ChildProposal.dh c = ChildProposal.dh p).

Lemma esp_matches_iff inc p c num spi :
  ChildProposal.is_valid p = true -> ChildProposal.is_valid c = true ->
  esp_matches inc (mkProposal num protocol_id.ESP spi
    (esp_transforms (ChildProposal.encryption p) (ChildProposal.integrity p)
       (ChildProposal.esn p)
       (if inc then ChildProposal.dh p else DhGroup.None))) c = true
  <-> esp_compatible inc p c.
Proof.
  intros H1 H2. unfold esp_matches, esp_compatible. cbn [transforms].
  rewrite andb_true_iff, esp_offers_esn.
  rewrite (offer_matches_iff _ (ChildProposal.encryption p)
    (ChildProposal.integrity p) (if inc then ChildProposal.dh p else DhGroup.None)
    _ PrfAlgorithm.HmacSha1); [|
    apply esp_offers_encryption | done
    | apply esp_offers_integrity | apply esp_offers_dh | done | done].
  rewrite Bool.eqb_true_iff. destruct inc; intuition congruence.
Qed.

(** The first acceptable offer wins, and of the configured suites the first
    that matches it. *)
Lemma select_ike_spec configured received :
  match select_ike configured received with
  | Ok (c, n) => exists pre offer post,
      received = pre ++ offer :: post
      /\ protocol offer = protocol_id.IKE /\ n = number offer
      /\ c ∈ configured /\ ike_matches offer c = true
      /\ Forall (fun o => protocol o = protocol_id.IKE ->
                   Forall (fun c => ike_matches o c = false) configured) pre
  | Err _ => Forall (fun o => protocol o = protocol_id.IKE ->
               Forall (fun c => ike_matches o c = false) configured) received
  | _ => False
  end.
Proof.
  induction received as [|o received IH]; cbn; [constructor|].
  destruct (Z.eqb_spec (protocol o) protocol_id.IKE) as [Hp|Hp]; cbn [negb].
  - destruct (List.find (ike_matches o) configured) as [c|] eqn:Hf.
    + apply List.find_some in Hf as [Hin Hm]. exists [], o, received.
      split_and!; try done. by apply list_elem_of_In.
    + assert (Hnone : Forall (fun c => ike_matches o c = false) configured).
      { apply Forall_forall. intros c Hc. apply (List.find_none _ _ Hf).
        by apply list_elem_of_In. }
      destruct (select_ike configured received) as [[c n]| | |]; try done.
      * destruct IH as (pre & offer & post & -> & ? & ? & ? & ? & Hpre).
        exists (o :: pre), offer, post. split_and!; try done. by constructor.
      * by constructor.
  - destruct (select_ike configured received) as [[c n]| | |]; try done.
    + destruct IH as (pre & offer & post & -> & ? & ? & ? & ? & Hpre).
      exists (o :: pre), offer, post. split_and!; try done. by constructor.
    + by constructor.
Qed.

Lemma build_ike_lookup ps o :
  o ∈ build_ike ps -> exists i p, ps !! i = Some p
    /\ o = mkProposal (as_u8 (Z.of_nat (i + 1))) protocol_id.IKE []
             (ike_transforms (IkeProposal.encryption p) (IkeProposal.prf p)
                (IkeProposal.integrity p) (IkeProposal.dh p)).
Proof.
  intros Ho. unfold build_ike in Ho. apply elem_of_lookup_imap in Ho as (i & p & -> & Hp).
  eauto.
Qed.

Lemma parse_response suite n :
  IkeProposal.dh suite <> DhGroup.None ->
  parse_selected_ike (response_sa suite n) = Ok suite.
Proof. by destruct suite as [[] [] [] []]. Qed.

(** The suite an initiator reads from the response to its own offer is one
    both ends have configured: when a responder selects from what the
    initiator's [build_ike] offered and answers with the engine's response
    payload, both have the same suite, and the answer carries the number of
    the initiator's first offer that any of the responder's suites matches. *)
Theorem ike_negotiation_agrees initiator responder suite n :
  Forall (fun p => IkeProposal.is_valid p = true) initiator ->
  Forall (fun p => IkeProposal.is_valid p = true /\ IkeProposal.dh p <> DhGroup.None)
    responder ->
  (length initiator <= 255)%nat ->
  select_ike responder (build_ike initiator) = Ok (suite, n) ->
  suite ∈ responder
  /\ initiator !! (usize n - 1)%nat = Some suite
  /\ (forall j p, (j < usize n - 1)%nat -> initiator !! j = Some p -> p ∉ responder)
  /\ parse_selected_ike (response_sa suite n) = Ok suite.
Proof.
  intros Hi Hr Hlen Hsel. rewrite Forall_forall in Hr.
  pose proof (select_ike_spec responder (build_ike initiator)) as Hs.
  rewrite Hsel in Hs. destruct Hs as (pre & o & post & Heq & _ & -> & Hin & Hm & Hpre).
  assert (Hlk : build_ike initiator !! length pre = Some o)
    by (by rewrite Heq, list_lookup_middle).
  unfold build_ike in Hlk. rewrite list_lookup_imap in Hlk.
  apply fmap_Some in Hlk as (p & Hp & ->).
  pose proof (lookup_lt_Some _ _ _ Hp) as Hlt.
  destruct (Hr _ Hin) as [Hv Hdh].
  assert (Hvp : IkeProposal.is_valid p = true) by (by eapply Forall_lookup_1 in Hi).
  apply ike_matches_iff in Hm as (H1 & H2 & H3 & [?|H4]); [done| |done|done].
  assert (suite = p) as -> by (destruct suite, p; cbn in *; congruence).
  cbn [number]. rewrite wrap_small by (unfold fits; lia).
  replace (usize (Z.of_nat (length pre + 1)) - 1)%nat with (length pre) by lia.
  split_and!; [done|done| |by apply parse_response].
  intros j q Hj Hq Hqr.
  assert (Hlk : build_ike initiator !! j = Some (mkProposal (as_u8 (Z.of_nat (j + 1)))
    protocol_id.IKE [] (ike_transforms (IkeProposal.encryption q) (IkeProposal.prf q)
       (IkeProposal.integrity q) (IkeProposal.dh q)))).
  { unfold build_ike. by rewrite list_lookup_imap, Hq. }
  rewrite Heq, lookup_app_l in Hlk by lia.
  eapply Forall_lookup_1 in Hpre; [|exact Hlk].
  specialize (Hpre eq_refl). rewrite Forall_forall in Hpre. specialize (Hpre q Hqr).
  assert (Hvq : IkeProposal.is_valid q = true) by (by apply Hr).
  rewrite (proj2 (ike_matches_iff q q _ Hvq Hvq)) in Hpre; [done|].
  split_and!; auto.
Qed.

Lemma ike_negotiation_agrees_witness :
  exists n suite, select_ike (reverse (ike_proposals IkeConfig_default))
      (build_ike (ike_proposals IkeConfig_default)) = Ok (suite, n)
    /\ parse_selected_ike (response_sa suite n) = Ok suite.
Proof.
  exists 1, (IkeProposal.mk EncryptionAlgorithm.AesGcm16_256
    PrfAlgorithm.HmacSha2_256 IntegrityAlgorithm.None DhGroup.Ecp256).
  assert (Hsel : select_ike (reverse (ike_proposals IkeConfig_default))
    (build_ike (ike_proposals IkeConfig_default))
    = Ok (IkeProposal.mk EncryptionAlgorithm.AesGcm16_256
    PrfAlgorithm.HmacSha2_256 IntegrityAlgorithm.None DhGroup.Ecp256, 1))
    by (vm_compute; reflexivity).
  split; [exact Hsel|].
  eapply (ike_negotiation_agrees (ike_proposals IkeConfig_default)
    (reverse (ike_proposals IkeConfig_default)) _ 1).
  - repeat constructor.
  - vm_compute. repeat constructor; discriminate.
  - vm_compute. lia.
  - exact Hsel.
Defined.

(** An ESP proposal survives the wire in both directions: the selection a
    peer makes from [build_esp] is a configured suite equal to the offered one
    up to the PFS group, which IKE_AUTH leaves out, and [parse_selected_esp]
    of the offer gives it back. *)
Theorem esp_negotiation_agrees initiator responder spi include_dh suite n :
  Forall (fun p => ChildProposal.is_valid p = true) initiator ->
  Forall (fun p => ChildProposal.is_valid p = true) responder ->
  select_esp_with_dh responder (build_esp initiator spi include_dh) include_dh
    = Ok (suite, n) ->
  exists c p, c ∈ responder /\ p ∈ initiator
    /\ suite = drop_dh include_dh c /\ esp_compatible include_dh p c
    /\ parse_selected_esp (build_esp [p] spi include_dh) = Ok (drop_dh include_dh p).
Proof.
  intros Hi Hr Hsel. rewrite Forall_forall in Hr, Hi.
  assert (Hgen : forall received,
    (forall o, o ∈ received -> exists num p, p ∈ initiator /\
       o = mkProposal num protocol_id.ESP (to_be 4 spi)
         (esp_transforms (ChildProposal.encryption p) (ChildProposal.integrity p)
            (ChildProposal.esn p)
            (if include_dh then ChildProposal.dh p else DhGroup.None))) ->
    select_esp_with_dh responder received include_dh = Ok (suite, n) ->
    exists c p, c ∈ responder /\ p ∈ initiator /\ suite = drop_dh include_dh c
      /\ esp_compatible include_dh p c).
  { induction received as [|o received IH]; intros Ho Hs; [done|]. cbn in Hs.
    destruct (Ho o) as (num & p & Hp & ->); [by left|]. cbn in Hs.
    destruct (List.find _ responder) as [c|] eqn:Hf.
    - apply List.find_some in Hf as [Hin Hm]. apply list_elem_of_In in Hin.
      injection Hs as <- <-. exists c, p. split_and!; try done.
      eapply esp_matches_iff; [by apply Hi|by apply Hr|exact Hm].
    - apply IH; [|done]. intros o Hin. apply Ho. by right. }
  apply Hgen in Hsel as (c & p & Hc & Hp & Hs & Hcomp).
  - exists c, p. split_and!; try done. clear.
    destruct p as [[] [] [] []], include_dh; reflexivity.
  - intros o Ho. unfold build_esp in Ho.
    apply elem_of_lookup_imap in Ho as (j & p & -> & Hp).
    do 2 eexists. split; [by eapply list_elem_of_lookup_2|done].
Qed.

Lemma esp_negotiation_agrees_witness :
  exists c p, c ∈ child_proposals ChildConfig_default
    /\ p ∈ child_proposals ChildConfig_default
    /\ esp_compatible false p c.
Proof.
  destruct (esp_negotiation_agrees (child_proposals ChildConfig_default)
    (child_proposals ChildConfig_default) 7 false
    (ChildProposal.mk EncryptionAlgorithm.AesGcm16_256 IntegrityAlgorithm.None
       false DhGroup.None) 1) as (c & p & Hc & Hp & _ & H & _).
  - repeat constructor.
  - repeat constructor.
  - vm_compute. reflexivity.
  - exists c, p. split; [exact Hc|]. split; [exact Hp|exact H].
Defined.

End ProposalFacts.
