(* ===== verification/IkeCrypto.v ===== *)
(** * The IKEv2 cryptographic wrappers

    [src/src/ipsec/ikev2/crypto.rs].  The primitives come from the [ring],
    [aes] and [cbc] crates: HMAC, AES-GCM and AES-CBC are the operations of
    [Class CryptoLib], with their documented behaviour as [CryptoLaws].  What
    the file builds from them is modelled: prf and prf+, truncated integrity
    tags, the AEAD and CBC framing with its length checks, MODP Diffie-Hellman
    (the ECDH groups are calls into [ring]) and the fragment codec. *)

From Stdlib Require Import Zpow_facts.
From S2P Require Import Prelude Errors IkeCodec TrafficSelector Identity IpsecConfig.

(** ** The libraries *)

Class CryptoLib := {
  hmac_sha1 : list Z -> list Z -> list Z;
  hmac_sha256 : list Z -> list Z -> list Z;
  (** [seal_in_place_append_tag] and [open_in_place]: key, nonce, AAD, text. *)
  gcm_seal : list Z -> list Z -> list Z -> list Z -> option (list Z);
  gcm_open : list Z -> list Z -> list Z -> list Z -> option (list Z);
  (** Unpadded CBC: key, IV, text. *)
  cbc_encrypt : list Z -> list Z -> list Z -> list Z;
  cbc_decrypt : list Z -> list Z -> list Z -> list Z;
}.

(** What the crates document. *)
Class CryptoLaws `{CryptoLib} : Prop := {
  hmac_sha1_len k d : length (hmac_sha1 k d) = 20%nat;
  hmac_sha256_len k d : length (hmac_sha256 k d) = 32%nat;
  gcm_seal_open k n a p :
    (length k = 16 \/ length k = 32)%nat -> length n = 12%nat ->
    exists c, gcm_seal k n a p = Some c /\ length c = (length p + 16)%nat
              /\ gcm_open k n a c = Some p;
  cbc_roundtrip k iv p :
    (length k = 16 \/ length k = 24 \/ length k = 32)%nat -> length iv = 16%nat ->
    (length p mod 16 = 0)%nat ->
    length (cbc_encrypt k iv p) = length p
    /\ cbc_decrypt k iv (cbc_encrypt k iv p) = p;
}.

Section crypto.
Context `{CryptoLib}.

(** ** prf and prf+ *)

Definition prf (algorithm : PrfAlgorithm.t) (key data : list Z) : list Z :=
  match algorithm with
  | PrfAlgorithm.HmacSha1 => hmac_sha1 key data
  | PrfAlgorithm.HmacSha2_256 => hmac_sha256 key data
  end.

(** [while output.len() < output_len]. *)
Fixpoint prf_plus_loop (fuel : nat) (algorithm : PrfAlgorithm.t)
  (key seed : list Z) (output_len : nat) (output previous : list Z)
  (counter : Z) : outcome IpsecError.t (list Z) :=
  match fuel with
  | O => Diverge
  | S fuel =>
      if (length output <? output_len)%nat then
        let block := prf algorithm key (previous ++ seed ++ [counter]) in
        let n := Nat.min (output_len - length output) (length block) in
        prf_plus_loop fuel algorithm key seed output_len
          (output ++ firstn n block) block (as_u8 (counter + 1))
      else Ok output
  end.

Definition prf_plus (algorithm : PrfAlgorithm.t) (key seed : list Z)
  (output_len : nat) : outcome IpsecError.t (list Z) :=
  prf_plus_loop (S output_len) algorithm key seed output_len [] [] 1.

(** ** Integrity *)

Definition integrity (algorithm : IntegrityAlgorithm.t) (key data : list Z)
  : outcome IpsecError.t (list Z) :=
  match algorithm with
  | IntegrityAlgorithm.HmacSha1_96 =>
      let tag := hmac_sha1 key data in
      Ok (firstn (Nat.min 12 (length tag)) tag)
  | IntegrityAlgorithm.HmacSha2_256_128 =>
      let tag := hmac_sha256 key data in
      Ok (firstn (Nat.min 16 (length tag)) tag)
  | IntegrityAlgorithm.None =>
      Err (IpsecError.internal "cannot compute integrity with the NONE algorithm")
  end.

Definition verify_integrity (algorithm : IntegrityAlgorithm.t)
  (key data expected : list Z) : outcome IpsecError.t unit :=
  actual ← integrity algorithm key data;
  if (length actual =? length expected)%nat && bool_decide (actual = expected)
  then Ok tt
  else Err (IpsecError.authentication "IKE integrity check failed").

(** ** Encryption *)

(** The nonce: the salt from the end of the key, then the explicit IV. *)
Definition gcm_key (algorithm : EncryptionAlgorithm.t) (key iv : list Z)
  : outcome IpsecError.t (list Z * list Z) :=
  if (length key <? EncryptionAlgorithm.key_len algorithm)%nat then Panic else
  let salt := drop (EncryptionAlgorithm.key_len algorithm) key in
  if negb (length salt =? 4)%nat || negb (length iv =? 8)%nat
  then Err (IpsecError.internal "invalid IKE AEAD key or IV length")
  else Ok (take (EncryptionAlgorithm.key_len algorithm) key, salt ++ iv).

Definition encrypt_gcm (algorithm : EncryptionAlgorithm.t)
  (key iv plaintext aad : list Z) : outcome IpsecError.t (list Z) :=
  kn ← gcm_key algorithm key iv;
  let (key, nonce) := (kn : list Z * list Z) in
  if negb (EncryptionAlgorithm.is_aead algorithm)
  then Err (IpsecError.internal "not an AEAD algorithm") else
  ok_or (gcm_seal key nonce aad plaintext)
    (IpsecError.internal "AEAD encryption failed").

Definition decrypt_gcm (algorithm : EncryptionAlgorithm.t)
  (key iv ciphertext aad : list Z) : outcome IpsecError.t (list Z) :=
  kn ← gcm_key algorithm key iv;
  let (key, nonce) := (kn : list Z * list Z) in
  if negb (EncryptionAlgorithm.is_aead algorithm)
  then Err (IpsecError.internal "not an AEAD algorithm") else
  ok_or (gcm_open key nonce aad ciphertext)
    (IpsecError.authentication "IKE AEAD authentication failed").

(** [key.try_into()] in the arm of the algorithm. *)
Definition cbc_key (algorithm : EncryptionAlgorithm.t) (key : list Z)
  : outcome IpsecError.t unit :=
  if EncryptionAlgorithm.is_aead algorithm
  then Err (IpsecError.internal "not an AES-CBC algorithm")
  else if negb (length key =? EncryptionAlgorithm.key_len algorithm)%nat
  then Err (IpsecError.internal "invalid AES key")
  else Ok tt.

Definition encrypt_cbc (algorithm : EncryptionAlgorithm.t)
  (key iv plaintext : list Z) : outcome IpsecError.t (list Z) :=
  if negb (length plaintext mod 16 =? 0)%nat
  then Err (IpsecError.internal "AES-CBC plaintext is not block aligned") else
  if negb (length iv =? 16)%nat
  then Err (IpsecError.internal "invalid AES-CBC IV length") else
  _ ← cbc_key algorithm key;
  Ok (cbc_encrypt key iv plaintext).

Definition decrypt_cbc (algorithm : EncryptionAlgorithm.t)
  (key iv ciphertext : list Z) : outcome IpsecError.t (list Z) :=
  if negb (length ciphertext mod 16 =? 0)%nat || (length ciphertext =? 0)%nat
  then ike_err "invalid AES-CBC ciphertext length" else
  if negb (length iv =? 16)%nat
  then Err (IpsecError.internal "invalid AES-CBC IV length") else
  _ ← cbc_key algorithm key;
  Ok (cbc_decrypt key iv ciphertext).

Definition encrypt (algorithm : EncryptionAlgorithm.t)
  (key iv plaintext aad : list Z) : outcome IpsecError.t (list Z) :=
  if EncryptionAlgorithm.is_aead algorithm
  then encrypt_gcm algorithm key iv plaintext aad
  else encrypt_cbc algorithm key iv plaintext.

Definition decrypt (algorithm : EncryptionAlgorithm.t)
  (key iv ciphertext aad : list Z) : outcome IpsecError.t (list Z) :=
  if EncryptionAlgorithm.is_aead algorithm
  then decrypt_gcm algorithm key iv ciphertext aad
  else decrypt_cbc algorithm key iv ciphertext.

End crypto.

(** ** MODP Diffie-Hellman *)

(** RFC 3526 group 14. *)
Definition modp_prime : Z :=
  0xFFFFFFFFFFFFFFFFC90FDAA22168C234C4C6628B80DC1CD129024E088A67CC74020BBEA63B139B22514A08798E3404DDEF9519B3CD3A431B302B0A6DF25F14374FE1356D6D51C245E485B576625E7EC6F44C42E9A637ED6B0BFF5CB6F406B7EDEE386BFB5A899FA5AE9F24117C4B1FE649286651ECE45B3DC2007CB8A163BF0598DA48361C55D39A69163FA8FD24CF5F83655D23DCA3AD961C62F356208552BB9ED529077096966D670C354E4ABC9804F1746C08CA18217C32905E462E36CE3BE39E772C180E86039B2783A2EC07A28FB5C55DF06F4C52C9DE2BCBF6955817183995497CEA956AE515D2261898FA051015728E5A8AACAA68FFFFFFFFFFFFFFFF.

(** [BigUint::to_bytes_be]: no leading zeros, a single zero octet for 0. *)
Definition to_bytes_be (x : Z) : list Z :=
  if x =? 0 then [0] else to_be (Z.to_nat (Z.log2 x / 8 + 1)) x.

Definition pad_left (value : list Z) (length : nat) : list Z :=
  if (length <=? List.length value)%nat
  then drop (List.length value - length) value
  else replicate (length - List.length value) 0 ++ value.

(** [DhKeyPair::generate] for Modp2048, from 256 random octets: the exponent
    and the public value. *)
Definition modp_generate (random : list Z) : list Z * list Z :=
  let exponent := from_be random mod (modp_prime - 2) + 2 in
  let public := Zpow_mod 2 exponent modp_prime in
  (to_bytes_be exponent, pad_left (to_bytes_be public) 256).

(** [DhKeyPair::agree] for Modp2048. *)
Definition modp_agree (private peer_public : list Z)
  : outcome IpsecError.t (list Z) :=
  let peer := from_be peer_public in
  if (peer <=? 1) || (modp_prime - 1 <=? peer)
  then ike_err "peer MODP public value is out of range"
  else
    let exponent := from_be private in
    Ok (pad_left (to_bytes_be (Zpow_mod peer exponent modp_prime)) 256).

(** ** Fragments *)

Record Fragment := mkFragment {
  fragment_number : Z;
  total_fragments : Z;
  fragment_data : list Z;
}.

Definition encode_fragment (f : Fragment) : list Z :=
  to_be 2 (fragment_number f) ++ to_be 2 (total_fragments f) ++ fragment_data f.

Definition decode_fragment (body : list Z) : outcome IpsecError.t Fragment :=
  if (length body <? 4)%nat then ike_err "truncated IKE fragment payload" else
  number ← be16_at body 0;
  total ← be16_at body 2;
  data ← slice_from body 4;
  Ok (mkFragment number total data).

(** ** Facts *)

Module CryptoFacts.

Section prf_plus.
Context `{CryptoLaws}.
Context (algorithm : PrfAlgorithm.t) (key seed : list Z).

Lemma prf_len data : length (prf algorithm key data) = PrfAlgorithm.key_len algorithm.
Proof using All.
  destruct algorithm; [apply hmac_sha1_len|apply hmac_sha256_len].
Qed.

(** The blocks T1, T2, ... of RFC 7296 section 2.13. *)
Fixpoint T (n : nat) : list Z :=
  match n with
  | O => []
  | S m => prf algorithm key (T m ++ seed ++ [Z.of_nat n])
  end.

Definition blocks (n : nat) : list Z := concat (T <$> seq 1 n).

Lemma T_len n : length (T (S n)) = PrfAlgorithm.key_len algorithm.
Proof using All. cbn [T]. apply prf_len. Qed.

Lemma blocks_S n : blocks (S n) = blocks n ++ T (S n).
Proof using All.
  unfold blocks. rewrite seq_S, fmap_app, concat_app. cbn. by rewrite app_nil_r.
Qed.

Lemma blocks_len n : length (blocks n) = (n * PrfAlgorithm.key_len algorithm)%nat.
Proof using All.
  induction n as [|n IH]; [done|]. rewrite blocks_S, length_app, IH, T_len. lia.
Qed.

Lemma blocks_prefix n m : (n <= m)%nat -> exists r, blocks m = blocks n ++ r.
Proof using All.
  induction 1 as [|m _ [r IH]]; [exists []; by rewrite app_nil_r|].
  exists (r ++ T (S m)). by rewrite blocks_S, IH, app_assoc.
Qed.

Lemma key_len_pos : (0 < PrfAlgorithm.key_len algorithm)%nat.
Proof using Type. destruct algorithm; cbn; lia. Qed.

Lemma prf_plus_loop_spec fuel n output_len :
  (output_len <= 255 * PrfAlgorithm.key_len algorithm)%nat ->
  (n * PrfAlgorithm.key_len algorithm <= output_len)%nat ->
  (output_len - n * PrfAlgorithm.key_len algorithm < fuel)%nat ->
  prf_plus_loop fuel algorithm key seed output_len (blocks n) (T n)
    (as_u8 (Z.of_nat n + 1))
  = Ok (take output_len (blocks 255)).
Proof using All.
  pose proof key_len_pos as HL. set (L := PrfAlgorithm.key_len algorithm) in *.
  intros Hmax. revert n. induction fuel as [|fuel IH]; intros n Hn Hf; [lia|].
  cbn [prf_plus_loop]. rewrite blocks_len. fold L.
  destruct (Nat.ltb_spec (n * L) output_len) as [Hlt|Hge].
  - assert (n < 255)%nat by nia.
    rewrite wrap_small by (unfold fits; lia).
    change (prf algorithm key (T n ++ seed ++ [Z.of_nat n + 1])) with
      (prf algorithm key (T n ++ seed ++ [Z.of_nat n + 1])).
    replace (Z.of_nat n + 1) with (Z.of_nat (S n)) by lia.
    change (prf algorithm key (T n ++ seed ++ [Z.of_nat (S n)])) with (T (S n)).
    rewrite T_len. fold L.
    destruct (Nat.le_gt_cases L (output_len - n * L)) as [Hfull|Hpart].
    + rewrite Nat.min_r, firstn_all2 by (rewrite ?T_len; lia).
      rewrite <- blocks_S. apply IH; lia.
    + rewrite Nat.min_l by lia.
      destruct fuel as [|fuel]; [lia|]. cbn [prf_plus_loop].
      rewrite length_app, blocks_len, length_take, T_len. fold L.
      replace (_ <? output_len)%nat with false by lia.
      destruct (blocks_prefix (S n) 255 ltac:(lia)) as [r Hr].
      rewrite Hr, blocks_S, <- app_assoc, take_app_ge by (rewrite blocks_len; lia).
      rewrite blocks_len. fold L. by rewrite take_app_le by (rewrite T_len; lia).
  - assert (n * L = output_len)%nat by lia.
    destruct (blocks_prefix n 255 ltac:(nia)) as [r ->].
    rewrite take_app_le, take_ge by (rewrite blocks_len; lia). done.
Qed.

(** prf+ yields the first [output_len] octets of T1 | T2 | ... *)
Lemma prf_plus_spec output_len :
  (output_len <= 255 * PrfAlgorithm.key_len algorithm)%nat ->
  prf_plus algorithm key seed output_len = Ok (take output_len (blocks 255)).
Proof using All.
  intros. apply (prf_plus_loop_spec (S output_len) 0); lia.
Qed.

End prf_plus.

(** Encryption, whatever the algorithm. *)
Section encryption.
Context `{CryptoLaws}.

Definition wf_key (algorithm : EncryptionAlgorithm.t) (key : list Z) : Prop :=
  length key = (EncryptionAlgorithm.key_len algorithm
                + EncryptionAlgorithm.salt_len algorithm)%nat.

Lemma gcm_key_ok algorithm key iv :
  wf_key algorithm key -> EncryptionAlgorithm.is_aead algorithm = true ->
  length iv = 8%nat ->
  exists k n, gcm_key algorithm key iv = Ok (k, n)
    /\ (length k = 16 \/ length k = 32)%nat /\ length n = 12%nat.
Proof using Type.
  unfold wf_key. intros Hk Ha Hiv. unfold gcm_key.
  assert (Hs : EncryptionAlgorithm.salt_len algorithm = 4%nat)
    by (unfold EncryptionAlgorithm.salt_len; by rewrite Ha).
  rewrite Hs in Hk. replace (_ <? _)%nat with false by lia.
  rewrite length_drop, Hk, Hiv.
  replace (negb _ || negb _) with false by lia.
  do 2 eexists. split; [done|]. rewrite length_take, length_app, length_drop, Hk, Hiv.
  split; [destruct algorithm; cbn in *; lia|lia].
Qed.

Lemma encrypt_decrypt algorithm key iv plaintext aad :
  wf_key algorithm key -> length iv = EncryptionAlgorithm.iv_len algorithm ->
  (EncryptionAlgorithm.is_aead algorithm = false ->
   (length plaintext mod 16 = 0 /\ 0 < length plaintext)%nat) ->
  exists c, encrypt algorithm key iv plaintext aad = Ok c
    /\ length c = (length plaintext
                   + if EncryptionAlgorithm.is_aead algorithm then 16 else 0)%nat
    /\ decrypt algorithm key iv c aad = Ok plaintext.
Proof using All.
  intros Hk Hiv Hp. unfold encrypt, decrypt, EncryptionAlgorithm.iv_len in *.
  destruct (EncryptionAlgorithm.is_aead algorithm) eqn:Ha.
  - destruct (gcm_key_ok algorithm key iv Hk Ha Hiv) as (k & n & Hkn & Hlk & Hln).
    destruct (gcm_seal_open k n aad plaintext Hlk Hln) as (c & Hc & Hcl & Ho).
    exists c. unfold encrypt_gcm, decrypt_gcm. rewrite Hkn. cbn [mbind outcome_bind].
    rewrite Ha. cbn [negb]. by rewrite Hc, Ho.
  - destruct (Hp eq_refl) as [Hm Hpos].
    assert (Hkl : length key = EncryptionAlgorithm.key_len algorithm).
    { unfold wf_key, EncryptionAlgorithm.salt_len in Hk. rewrite Ha in Hk. lia. }
    destruct (cbc_roundtrip key iv plaintext) as [Hl Hd]; [|done|done|].
    { rewrite Hkl. destruct algorithm; cbn in *; try done; lia. }
    assert (Hck : cbc_key algorithm key = Ok tt).
    { unfold cbc_key. rewrite Ha, Hkl, Nat.eqb_refl. done. }
    eexists. split; [|split].
    + unfold encrypt_cbc. rewrite Hm, Hiv, Hck. reflexivity.
    + by rewrite Hl, Nat.add_0_r.
    + unfold decrypt_cbc. rewrite Hl, Hm, Hiv, Hck.
      replace (length plaintext =? 0)%nat with false by lia. cbn. by rewrite Hd.
Qed.

Lemma decrypt_returns algorithm key iv p aad :
  wf_key algorithm key -> returns (decrypt algorithm key iv p aad).
Proof using Type.
  intros Hk. unfold decrypt, decrypt_gcm, gcm_key, decrypt_cbc, cbc_key.
  destruct (EncryptionAlgorithm.is_aead algorithm) eqn:Ha.
  - replace (length key <? _)%nat with false by (unfold wf_key in Hk; lia).
    destruct (negb (length (drop _ _) =? 4)%nat || _); [done|].
    cbn [mbind outcome_bind negb]. apply returns_ok_or.
  - repeat case_match; done.
Qed.

Lemma integrity_len i key data :
  i <> IntegrityAlgorithm.None ->
  exists t, integrity i key data = Ok t
    /\ length t = IntegrityAlgorithm.output_len i.
Proof using All.
  destruct i; [done| |]; intros _; eexists; (split; [done|]);
    rewrite length_take, ?hmac_sha1_len, ?hmac_sha256_len; done.
Qed.

Lemma verify_integrity_ok i key data t :
  verify_integrity i key data t = Ok tt <-> integrity i key data = Ok t.
Proof using Type.
  unfold verify_integrity. rewrite bind_ok. split.
  - intros (a & Ha & Hc). case_match eqn:He; [|done]. apply andb_prop in He as [_ He].
    by apply bool_decide_eq_true in He as ->.
  - intros Ha. exists t. split; [done|]. by rewrite Nat.eqb_refl, bool_decide_eq_true_2.
Qed.

End encryption.

(** *** MODP *)

Lemma from_be_zeros n l : from_be (replicate n 0 ++ l) = from_be l.
Proof.
  induction n as [|n IH]; [done|]. cbn [replicate app].
  change (from_be (0 :: ?x)) with (0 * 2 ^ (8 * Z.of_nat (length x)) + from_be x).
  rewrite IH. lia.
Qed.

Lemma to_bytes_be_spec x :
  0 <= x -> from_be (to_bytes_be x) = x
            /\ (forall n, 0 < n -> x < 2 ^ (8 * n) -> zlen (to_bytes_be x) <= n).
Proof.
  intros Hx. unfold to_bytes_be. destruct (Z.eqb_spec x 0) as [->|Hne].
  { split; [done|]. intros n Hn _. unfold zlen. cbn [length]. lia. }
  pose proof (Z.log2_nonneg x) as Hl. pose proof (Z.log2_spec x ltac:(lia)) as [_ Hs].
  pose proof (Z.div_mod (Z.log2 x) 8 ltac:(lia)) as Hd.
  pose proof (Z.mod_pos_bound (Z.log2 x) 8 ltac:(lia)).
  assert (0 <= Z.log2 x / 8) by (apply Z.div_pos; lia).
  split.
  - apply from_be_to_be_small. unfold fits. rewrite Z2Nat.id by lia.
    split; [lia|]. eapply Z.lt_le_trans; [exact Hs|]. apply Z.pow_le_mono_r; lia.
  - intros n Hn Hxn. unfold zlen. rewrite length_to_be, Z2Nat.id by lia.
    apply Z.log2_lt_pow2 in Hxn; lia.
Qed.

Lemma modp_public_read x :
  0 <= x < modp_prime -> from_be (pad_left (to_bytes_be x) 256) = x.
Proof.
  intros Hx. destruct (to_bytes_be_spec x ltac:(lia)) as [Hv Hl].
  assert (Hp : modp_prime < 2 ^ (8 * 256)) by (vm_compute; done).
  specialize (Hl 256 ltac:(lia) ltac:(lia)). unfold pad_left, zlen in *.
  destruct (Nat.leb_spec 256 (length (to_bytes_be x))).
  - replace (length (to_bytes_be x) - 256)%nat with 0%nat by lia. done.
  - by rewrite from_be_zeros.
Qed.

Lemma if_ok {A} (b : bool) m (v s : A) :
  (if b then ike_err m else Ok v) = Ok s -> b = false /\ v = s.
Proof. destruct b; [done|]. by intros [= ->]. Qed.

Lemma modp_prime_pos : 2 < modp_prime.
Proof. vm_compute. done. Qed.

Lemma modp_pow a e : Zpow_mod a e modp_prime = (a ^ e) mod modp_prime.
Proof. apply Zpow_mod_correct. pose proof modp_prime_pos. lia. Qed.

(** Two MODP peers that accept each other's public value compute the same
    2048-bit shared secret, 256 octets long; and a value outside 2..p-2 is
    refused. *)
Theorem modp_agreement ra rb sa sb :
  bytes ra -> bytes rb ->
  let (a, pub_a) := modp_generate ra in
  let (b, pub_b) := modp_generate rb in
  modp_agree a pub_b = Ok sa -> modp_agree b pub_a = Ok sb ->
  sa = sb /\ length sa = 256%nat
  /\ (1 < from_be pub_a < modp_prime - 1) /\ (1 < from_be pub_b < modp_prime - 1).
Proof.
  intros Ha Hb. pose proof modp_prime_pos as Hp. unfold modp_generate, modp_agree.
  set (x := from_be ra mod (modp_prime - 2) + 2).
  set (y := from_be rb mod (modp_prime - 2) + 2).
  assert (Hx : 0 <= x) by (unfold x; pose proof (Z.mod_pos_bound (from_be ra) (modp_prime - 2)); lia).
  assert (Hy : 0 <= y) by (unfold y; pose proof (Z.mod_pos_bound (from_be rb) (modp_prime - 2)); lia).
  rewrite !modp_pow.
  rewrite !modp_public_read by (apply Z.mod_pos_bound; lia).
  rewrite (proj1 (to_bytes_be_spec x Hx)), (proj1 (to_bytes_be_spec y Hy)).
  rewrite <- !Zpower_mod, <- !Z.pow_mul_r by lia.
  intros [H1 <-]%if_ok [H2 <-]%if_ok.
  rewrite (Z.mul_comm y x). split; [done|]. split; [|lia].
  set (s := 2 ^ (x * y) mod modp_prime).
  assert (Hs : 0 <= s < modp_prime) by (apply Z.mod_pos_bound; lia).
  destruct (to_bytes_be_spec s ltac:(lia)) as [_ Hl].
  assert (Hpl : modp_prime < 2 ^ (8 * 256)) by (vm_compute; done).
  specialize (Hl 256 ltac:(lia) ltac:(lia)). unfold zlen in Hl. unfold pad_left.
  case_match; len_lia.
Qed.

Definition sample_shared (private public : list Z) : list Z :=
  match modp_agree private public with Ok s => s | _ => [] end.

Lemma modp_agreement_witness :
  let a := modp_generate [1] in
  let b := modp_generate [2] in
  sample_shared a.1 b.2 = sample_shared b.1 a.2
  /\ length (sample_shared a.1 b.2) = 256%nat.
Proof.
  intros a b.
  pose proof (modp_agreement [1] [2] (sample_shared a.1 b.2) (sample_shared b.1 a.2)
    ltac:(by repeat constructor) ltac:(by repeat constructor)) as Hm.
  change (modp_generate [1]) with (a.1, a.2) in Hm.
  change (modp_generate [2]) with (b.1, b.2) in Hm.
  destruct Hm as (H1 & H2 & _); [vm_compute; reflexivity|vm_compute; reflexivity|].
  split; [exact H1|exact H2].
Defined.

(** A fragment payload reads back as the fragment it was made from, and
    [decode_fragment] is total. *)
Lemma fragment_roundtrip f body :
  returns (decode_fragment body)
  /\ (fits 16 (fragment_number f) -> fits 16 (total_fragments f) ->
      decode_fragment (encode_fragment f) = Ok f).
Proof.
  split; [unfold decode_fragment; returns_tac; done|]. intros Hn Ht.
  unfold decode_fragment, encode_fragment. if_lia.
  rewrite be16_cons by done. cbn [mbind outcome_bind].
  rewrite be16_mid by done. cbn [mbind outcome_bind].
  rewrite app_assoc, slice_from_tail by done. by destruct f.
Qed.

End CryptoFacts.
