(* ===== verification/IkeSa.v ===== *)
(** * IKE SA keys and the encrypted payload

    [src/src/ipsec/ikev2/sa.rs]: the key derivations of the IKE SA and of a
    Child SA, and sealing and opening of a message.  The random IV is an
    argument.  [Module IkeSaFacts] proves that a sealed message, decoded by the
    peer's codec and opened with the mirrored keys, gives back the payloads. *)

From S2P Require Import Prelude Errors IkeCodec TrafficSelector Identity IpsecConfig IkeCrypto.

Inductive Role := Initiator | Responder.

#[global] Instance Role_eq_dec : EqDecision Role.
Proof. solve_decision. Defined.

Definition is_initiator (r : Role) : bool :=
  match r with Initiator => true | Responder => false end.

Module IkeKeys.

Record t := mk {
  sk_d : list Z;
  sk_ai : list Z;
  sk_ar : list Z;
  sk_ei : list Z;
  sk_er : list Z;
  sk_pi : list Z;
  sk_pr : list Z;
}.

(** [IkeKeys::derive]; each [take] slices the material at the running offset. *)
Definition derive `{CryptoLib} (algorithm : PrfAlgorithm.t)
  (shared_secret nonce_i nonce_r : list Z) (spi_i spi_r : Z)
  (encryption : EncryptionAlgorithm.t) (integ : IntegrityAlgorithm.t)
  : outcome IpsecError.t t :=
  let seed := nonce_i ++ nonce_r ++ to_be 8 spi_i ++ to_be 8 spi_r in
  let skeyseed := prf algorithm (nonce_i ++ nonce_r) shared_secret in
  let prf_len := PrfAlgorithm.key_len algorithm in
  let enc_len := (EncryptionAlgorithm.key_len encryption
                  + EncryptionAlgorithm.salt_len encryption)%nat in
  let integ_len := IntegrityAlgorithm.key_len integ in
  let total := (prf_len * 3 + enc_len * 2 + integ_len * 2)%nat in
  material ← prf_plus algorithm skeyseed seed total;
  let offset := 0%nat in
  d ← slice material offset (offset + prf_len);
  let offset := (offset + prf_len)%nat in
  ai ← slice material offset (offset + integ_len);
  let offset := (offset + integ_len)%nat in
  ar ← slice material offset (offset + integ_len);
  let offset := (offset + integ_len)%nat in
  ei ← slice material offset (offset + enc_len);
  let offset := (offset + enc_len)%nat in
  er ← slice material offset (offset + enc_len);
  let offset := (offset + enc_len)%nat in
  pi ← slice material offset (offset + prf_len);
  let offset := (offset + prf_len)%nat in
  pr ← slice material offset (offset + prf_len);
  Ok (mk d ai ar ei er pi pr).

Definition outbound_encryption (k : t) (role : Role) : list Z :=
  if is_initiator role then sk_ei k else sk_er k.
Definition inbound_encryption (k : t) (role : Role) : list Z :=
  if is_initiator role then sk_er k else sk_ei k.
Definition outbound_integrity (k : t) (role : Role) : list Z :=
  if is_initiator role then sk_ai k else sk_ar k.
Definition inbound_integrity (k : t) (role : Role) : list Z :=
  if is_initiator role then sk_ar k else sk_ai k.

End IkeKeys.

(** [ChildSaHandle] of [client.rs]. *)
Module ChildSaHandle.

Record t := mk {
  local_spi : Z;
  remote_spi : Z;
  encryption : EncryptionAlgorithm.t;
  integrity : option IntegrityAlgorithm.t;
  esn : bool;
  mode : ChildMode;
  local_selectors : list TrafficSelector.t;
  remote_selectors : list TrafficSelector.t;
  outbound_key : list Z;
  outbound_integrity_key : option (list Z);
  inbound_key : list Z;
  inbound_integrity_key : option (list Z);
}.

End ChildSaHandle.

Section sa.
Context `{CryptoLib}.

Definition derive_child_keys (algorithm : PrfAlgorithm.t)
  (sk_d nonce_i nonce_r : list Z) (dh_shared : option (list Z)) (role : Role)
  (encryption : EncryptionAlgorithm.t) (integ : IntegrityAlgorithm.t)
  (local_spi remote_spi : Z) (mode : ChildMode)
  (local_selectors remote_selectors : list TrafficSelector.t) (esn : bool)
  : outcome IpsecError.t ChildSaHandle.t :=
  let seed := default [] dh_shared ++ nonce_i ++ nonce_r in
  let enc_len := (EncryptionAlgorithm.key_len encryption
                  + EncryptionAlgorithm.salt_len encryption)%nat in
  let integ_len := IntegrityAlgorithm.key_len integ in
  let total := (enc_len * 2 + integ_len * 2)%nat in
  material ← prf_plus algorithm sk_d seed total;
  encryption_i ← slice material 0 enc_len;
  encryption_r ← slice material enc_len (enc_len * 2);
  integrity_i ← slice material (enc_len * 2) (enc_len * 2 + integ_len);
  integrity_r ← slice material (enc_len * 2 + integ_len)
                  (enc_len * 2 + integ_len * 2);
  let none := bool_decide (integ = IntegrityAlgorithm.None) in
  let then_some (k : list Z) := if none then None else Some k in
  let '(outbound_key, inbound_key, outbound_integrity_key, inbound_integrity_key) :=
    if is_initiator role
    then (encryption_i, encryption_r, integrity_i, integrity_r)
    else (encryption_r, encryption_i, integrity_r, integrity_i) in
  Ok (ChildSaHandle.mk local_spi remote_spi encryption
        (if none then None else Some integ) esn mode local_selectors
        remote_selectors outbound_key (then_some outbound_integrity_key)
        inbound_key (then_some inbound_integrity_key)).

(** The padding of [seal_message]. *)
Definition padding_len (encryption : EncryptionAlgorithm.t) (plaintext : nat) : nat :=
  let block := EncryptionAlgorithm.block_len encryption in
  if EncryptionAlgorithm.is_aead encryption then 0
  else ((block - (plaintext + 1) mod block) mod block)%nat.

Definition set_header (h : IkeHeader.t) (next_payload length : Z) : IkeHeader.t :=
  IkeHeader.mk (IkeHeader.initiator_spi h) (IkeHeader.responder_spi h) next_payload
    (IkeHeader.version h) (IkeHeader.exchange h) (IkeHeader.flags h)
    (IkeHeader.message_id h) length.

(** [seal_message]; [random] is what [random_bytes] fills the IV with. *)
Definition seal_message (random : nat -> outcome IpsecError.t (list Z))
  (header : IkeHeader.t) (payloads : list Payload)
  (encryption : EncryptionAlgorithm.t) (integ : IntegrityAlgorithm.t)
  (key_e key_a : list Z) : outcome IpsecError.t (list Z) :=
  chain ← encode_chain payloads;
  let iv_len := EncryptionAlgorithm.iv_len encryption in
  let padding := padding_len encryption (length chain) in
  let plaintext := chain ++ replicate padding 0 ++ [as_u8 (Z.of_nat padding)] in
  let ciphertext_len :=
    if EncryptionAlgorithm.is_aead encryption
    then (length plaintext + 16)%nat else length plaintext in
  let icv_len := IntegrityAlgorithm.output_len integ in
  let total := (IKE_HEADER_LEN + 4 + iv_len + ciphertext_len + icv_len)%nat in
  let header := set_header header payload_type.SK (as_u32 (Z.of_nat total)) in
  let aad := IkeHeader.encode header in
  iv ← random iv_len;
  ciphertext ← encrypt encryption key_e iv plaintext aad;
  let message :=
    aad ++ [Message.first_type payloads; 0]
    ++ to_be 2 (as_u16 (Z.of_nat (4 + length iv + length ciphertext + icv_len)))
    ++ iv ++ ciphertext in
  message ← (if bool_decide (integ = IntegrityAlgorithm.None) then Ok message
             else icv ← integrity integ key_a message; Ok (message ++ icv));
  if negb (length message =? total)%nat
  then Err (IpsecError.internal "IKE encrypted message length mismatch")
  else Ok message.

(** The octets the integrity check covers. *)
Definition signed_octets (header : IkeHeader.t) (next : Z) (data : list Z)
  (split : nat) : list Z :=
  IkeHeader.encode header ++ [next; 0]
  ++ to_be 2 (as_u16 (Z.of_nat (4 + length data))) ++ take split data.

Definition open_message (header : IkeHeader.t) (encrypted : Payload)
  (encryption : EncryptionAlgorithm.t) (integ : IntegrityAlgorithm.t)
  (key_e key_a : list Z) : outcome IpsecError.t (list Payload) :=
  match encrypted with
  | Encrypted next data =>
      let iv_len := EncryptionAlgorithm.iv_len encryption in
      let icv_len := IntegrityAlgorithm.output_len integ in
      if (length data <? iv_len + icv_len)%nat
      then ike_err "truncated encrypted IKE payload" else
      _ ← (if bool_decide (integ = IntegrityAlgorithm.None) then Ok tt
           else
             let split := (length data - icv_len)%nat in
             tag ← slice_from data split;
             verify_integrity integ key_a (signed_octets header next data split) tag);
      iv ← slice data 0 iv_len;
      rest ← slice_from data iv_len;
      ciphertext ← slice rest 0 (length rest - icv_len);
      plaintext ← decrypt encryption key_e iv ciphertext (IkeHeader.encode header);
      padding ← ok_or (last plaintext) (IpsecError.ike "empty encrypted IKE payload");
      let padding := usize padding in
      if (length plaintext <? padding + 1)%nat
      then ike_err "invalid IKE padding length" else
      body ← slice plaintext 0 (length plaintext - padding - 1);
      decode_chain next body
  | _ => ike_err "expected an encrypted IKE payload"
  end.

End sa.

Module IkeSaFacts.
Import CryptoFacts IkeWf IkeCodecTotal IkeCodecFacts.

Section facts.
Context `{CryptoLaws}.

Lemma open_message_returns header encrypted encryption integ key_e key_a :
  wf_key encryption key_e ->
  returns (open_message header encrypted encryption integ key_e key_a).
Proof using All.
  intros Hk. unfold open_message. destruct encrypted; auto with returns.
  destruct (_ <? _)%nat eqn:Hl; [done|].
  apply returns_bind.
  { destruct (bool_decide_reflect (integ = IntegrityAlgorithm.None)); [done|].
    returns_tac. unfold verify_integrity.
    edestruct integrity_len as (t & Ht & _); [done|]. rewrite Ht. cbn. by case_match. }
  intros _ _. returns_tac; [by apply decrypt_returns|apply decode_chain_returns].
Qed.

(** Opening an encrypted payload is total: whatever the payload, with keys
    of the negotiated sizes it returns payloads or an error, never an
    out-of-range slice. *)
Theorem open_message_total header encrypted encryption integ key_e key_a :
  wf_key encryption key_e ->
  returns (open_message header encrypted encryption integ key_e key_a).
Proof using All. apply open_message_returns. Qed.

(** C12: with a separate integrity algorithm, payloads are only ever returned
    from a message whose trailing tag is the keyed tag of everything before
    it: the header, the payload's generic header, the IV and the ciphertext. *)
Theorem open_message_authenticated header next data encryption integ key_e key_a ps :
  integ <> IntegrityAlgorithm.None ->
  open_message header (Encrypted next data) encryption integ key_e key_a = Ok ps ->
  exists covered tag,
    data = covered ++ tag /\ length tag = IntegrityAlgorithm.output_len integ
    /\ integrity integ key_a
         (IkeHeader.encode header ++ [next; 0]
          ++ to_be 2 (as_u16 (4 + zlen data)) ++ covered) = Ok tag.
Proof using All.
  intros Hi Ho. unfold open_message in Ho.
  destruct (_ <? _)%nat eqn:Hl; [done|].
  apply bind_ok in Ho as ([] & Hv & _).
  rewrite bool_decide_eq_false_2 in Hv by done.
  apply bind_ok in Hv as (tag & Ht & Hv). apply verify_integrity_ok in Hv.
  unfold slice_from in Ht. apply slice_ok in Ht as [Hb Htag].
  set (split := (length data - _)%nat) in *.
  exists (take split data), tag.
  assert (tag = drop split data) as -> by (subst tag; by rewrite take_ge by len_lia).
  split; [by rewrite take_drop|]. split; [rewrite length_drop; unfold split; lia|].
  unfold signed_octets in Hv. by replace (4 + zlen data) with
    (Z.of_nat (4 + length data)) by len_lia.
Qed.

(** The plaintext of a sealed chain and its last octet. *)
Lemma padding_bound encryption n :
  (padding_len encryption n < 16)%nat
  /\ (EncryptionAlgorithm.is_aead encryption = false ->
      ((n + padding_len encryption n + 1) mod 16 = 0)%nat).
Proof using Type.
  unfold padding_len, EncryptionAlgorithm.block_len.
  destruct (EncryptionAlgorithm.is_aead encryption); [split; [lia|done]|].
  split; [apply Nat.mod_upper_bound; lia|intros _].
  pose proof (Nat.mod_upper_bound (n + 1) 16 ltac:(lia)).
  pose proof (Nat.div_mod_eq (n + 1) 16) as Hd.
  destruct (Nat.eq_dec ((n + 1) mod 16) 0) as [Hz|Hz].
  - rewrite Hz. cbn. by rewrite Nat.add_0_r.
  - rewrite (Nat.mod_small (16 - (n + 1) mod 16)) by lia.
    replace (n + (16 - (n + 1) mod 16) + 1)%nat
      with ((1 + (n + 1) / 16) * 16)%nat by lia.
    apply Nat.Div0.mod_mul.
Qed.

Lemma decode_sk next body rest :
  fits 16 (4 + zlen body) -> rest = [] ->
  decode_chain payload_type.SK
    ([next; 0] ++ to_be 2 (4 + zlen body) ++ body ++ rest) = Ok [Encrypted next body].
Proof using Type.
  intros Hfit ->. rewrite app_nil_r. unfold decode_chain.
  set (data := [next; 0] ++ to_be 2 (4 + zlen body) ++ body).
  assert (Hl : length data = (4 + length body)%nat) by (unfold data; len_lia).
  cbn [decode_chain_loop]. change (payload_type.SK =? payload_type.NONE) with false.
  cbn match. if_lia. change (idx data 0) with (@Ok IpsecError.t Z next).
  assert (Hbe : be16_at (E:=IpsecError.t) data 2 = Ok (4 + zlen body))
    by (by apply be16_mid).
  cbn [mbind outcome_bind]. rewrite Hbe. cbn [mbind outcome_bind].
  replace (usize (4 + zlen body)) with (4 + length body)%nat by len_lia. if_lia.
  assert (Hb : slice (E:=IpsecError.t) data 4 (4 + length body) = Ok body).
  { unfold data. rewrite app_assoc. apply slice_tail; len_lia. }
  rewrite Hb. cbn [mbind outcome_bind].
  assert (Hr : slice_from (E:=IpsecError.t) data (4 + length body) = Ok []).
  { rewrite <- (app_nil_r data). apply slice_from_tail. lia. }
  change (decode_payload payload_type.SK body next)
    with (@Ok IpsecError.t Payload (Encrypted next body)).
  cbn [mbind outcome_bind]. by rewrite Hr.
Qed.

(** The tag appended to a message: none without a separate integrity algorithm. *)
Lemma append_tag integ key_a msg :
  exists icv, length icv = IntegrityAlgorithm.output_len integ
    /\ (if bool_decide (integ = IntegrityAlgorithm.None) then Ok msg
        else icv ← integrity integ key_a msg; Ok (msg ++ icv)) = Ok (msg ++ icv)
    /\ (integ <> IntegrityAlgorithm.None -> integrity integ key_a msg = Ok icv).
Proof using All.
  destruct (bool_decide_reflect (integ = IntegrityAlgorithm.None)) as [->|Hi].
  - exists []. by rewrite app_nil_r.
  - destruct (integrity_len integ key_a msg Hi) as (t & Ht & Htl). exists t. by rewrite Ht.
Qed.

(** A body with the right tag whose ciphertext decrypts to a padded chain. *)
Lemma open_body h first iv ct icv chain pad encryption integ key_e key_a :
  length iv = EncryptionAlgorithm.iv_len encryption ->
  length icv = IntegrityAlgorithm.output_len integ ->
  (pad < 256)%nat -> 4 + zlen (iv ++ ct ++ icv) < 65536 ->
  decrypt encryption key_e iv ct (IkeHeader.encode h)
    = Ok (chain ++ replicate pad 0 ++ [as_u8 (Z.of_nat pad)]) ->
  (integ <> IntegrityAlgorithm.None ->
     integrity integ key_a
       (IkeHeader.encode h ++ [first; 0] ++ to_be 2 (4 + zlen (iv ++ ct ++ icv))
        ++ iv ++ ct) = Ok icv) ->
  open_message h (Encrypted first (iv ++ ct ++ icv)) encryption integ key_e key_a
    = decode_chain first chain.
Proof using All.
  intros Hivl Hil Hpad Hfit Hdec Htag. unfold open_message.
  set (data := iv ++ ct ++ icv) in *.
  assert (Hbl : length data = (length iv + length ct + length icv)%nat)
    by (unfold data; len_lia).
  rewrite <- Hivl, <- Hil. if_lia.
  assert (Hver : (if bool_decide (integ = IntegrityAlgorithm.None) then Ok tt
    else tag ← slice_from data (length data - length icv);
         verify_integrity integ key_a
           (signed_octets h first data (length data - length icv)) tag) = Ok tt).
  { destruct (bool_decide_reflect (integ = IntegrityAlgorithm.None)) as [|Hi]; [done|].
    assert (Hs : slice_from (E:=IpsecError.t) data (length data - length icv) = Ok icv)
      by (unfold data; rewrite app_assoc; apply slice_from_tail; len_lia).
    rewrite Hs. cbn [mbind outcome_bind]. apply verify_integrity_ok. unfold signed_octets.
    replace (Z.of_nat (4 + length data)) with (4 + zlen data) by len_lia.
    rewrite wrap_small by (unfold fits; len_lia).
    assert (Ht : take (length data - length icv) data = iv ++ ct)
      by (unfold data; rewrite app_assoc, take_app_le, take_ge; [done|len_lia..]).
    rewrite Ht. by apply Htag. }
  rewrite Hver. cbn [mbind outcome_bind]. unfold data.
  rewrite slice_head by done. cbn [mbind outcome_bind].
  rewrite slice_from_tail by done. cbn [mbind outcome_bind].
  rewrite slice_head by len_lia. cbn [mbind outcome_bind]. rewrite Hdec.
  cbn [mbind outcome_bind]. rewrite app_assoc, last_snoc. cbn [ok_or mbind outcome_bind].
  rewrite wrap_small, Nat2Z.id by (unfold fits; lia).
  rewrite !length_app, length_replicate. cbn [length]. if_lia.
  rewrite <- app_assoc, slice_head by lia. reflexivity.
Qed.

(** Sealing with an IV of the right size succeeds and produces the header, the
    SK generic header and a body that opens to the same chain. *)
Lemma seal_message_shape random header payloads encryption integ key_e key_a iv chain :
  random (EncryptionAlgorithm.iv_len encryption) = Ok iv ->
  length iv = EncryptionAlgorithm.iv_len encryption ->
  wf_key encryption key_e -> encode_chain payloads = Ok chain ->
  zlen chain + 100 < 65536 ->
  exists body,
    let h := set_header header payload_type.SK (32 + zlen body) in
    seal_message random header payloads encryption integ key_e key_a
      = Ok (IkeHeader.encode h ++ [Message.first_type payloads; 0]
            ++ to_be 2 (4 + zlen body) ++ body)
    /\ 32 + zlen body < 65536
    /\ open_message h (Encrypted (Message.first_type payloads) body) encryption
         integ key_e key_a = decode_chain (Message.first_type payloads) chain.
Proof using All.
  intros Hiv Hivl Hk Hc Hfit.
  destruct (padding_bound encryption (length chain)) as [Hpb Hpm].
  set (pad := padding_len encryption (length chain)) in *.
  set (pt := chain ++ replicate pad 0 ++ [as_u8 (Z.of_nat pad)]).
  assert (Hptl : length pt = (length chain + pad + 1)%nat) by (unfold pt; len_lia).
  set (icv_len := IntegrityAlgorithm.output_len integ).
  set (aead := EncryptionAlgorithm.is_aead encryption) in *.
  set (ct_len := (length pt + if aead then 16 else 0)%nat).
  set (iv_len := EncryptionAlgorithm.iv_len encryption) in *.
  set (n := Z.of_nat (iv_len + ct_len + icv_len)).
  set (h := set_header header payload_type.SK (32 + n)).
  destruct (encrypt_decrypt encryption key_e iv pt (IkeHeader.encode h))
    as (ct & Henc & Hctl & Hdec); [done|done| |].
  { intros Ha. rewrite Hptl. split; [by apply Hpm|lia]. }
  fold aead in Hctl. fold ct_len in Hctl.
  set (first := Message.first_type payloads).
  set (msg := IkeHeader.encode h ++ [first; 0] ++ to_be 2 (4 + n) ++ iv ++ ct).
  pose proof (header_encode_length h) as Hhl. unfold IKE_HEADER_LEN in Hhl.
  destruct (append_tag integ key_a msg) as (icv & Hil & Hmsg & Htag). fold icv_len in Hil.
  assert (Hicvb : (icv_len <= 16)%nat) by (unfold icv_len; destruct integ; cbn; lia).
  assert (Hivb : (iv_len <= 16)%nat)
    by (unfold iv_len; clear; destruct encryption; cbn; lia).
  assert (Hn : n = zlen (iv ++ ct ++ icv)) by (unfold n; len_lia).
  assert (Hnb : n + 32 < 65536)
    by (unfold n, ct_len; rewrite Hptl; destruct aead; len_lia).
  exists (iv ++ ct ++ icv). rewrite <- Hn. fold h. split; [|split; [lia|]].
  - unfold seal_message. rewrite Hc. cbn [mbind outcome_bind]. fold pad pt iv_len icv_len aead.
    replace (if aead then (length pt + 16)%nat else length pt) with ct_len
      by (unfold ct_len; by destruct aead; rewrite ?Nat.add_0_r).
    replace (Z.of_nat (IKE_HEADER_LEN + 4 + iv_len + ct_len + icv_len)) with (32 + n)
      by (unfold n, IKE_HEADER_LEN; lia).
    rewrite (wrap_small 32) by (unfold fits; lia). fold h. rewrite Hiv. cbn [mbind outcome_bind]. rewrite Henc.
    cbn [mbind outcome_bind]. rewrite Hivl, Hctl.
    replace (Z.of_nat (4 + iv_len + ct_len + icv_len)) with (4 + n) by (unfold n; lia).
    rewrite (wrap_small 16) by (unfold fits; lia).
    fold first msg. rewrite Hmsg. cbn [mbind outcome_bind].
    replace (length (msg ++ icv) =? _)%nat with true
      by (unfold msg, IKE_HEADER_LEN; len_lia).
    cbn [negb]. unfold msg. by rewrite <- !app_assoc.
  - eapply open_body; [done|done| | |exact Hdec|].
    + fold pad. lia.
    + rewrite <- Hn. lia.
    + rewrite <- Hn. exact Htag.
Qed.

(** C11: a sealed message is opened by the peer to the same payloads: the wire
    message decodes to one encrypted payload, whatever the cipher suite, and
    opening it with the same keys gives back the chain. *)
Theorem seal_open_roundtrip random header payloads encryption integ key_e key_a iv chain :
  random (EncryptionAlgorithm.iv_len encryption) = Ok iv ->
  length iv = EncryptionAlgorithm.iv_len encryption ->
  wf_key encryption key_e -> wf_header header -> wf_chain payloads ->
  encode_chain payloads = Ok chain -> zlen chain + 100 < 65536 ->
  exists wire h encrypted,
    seal_message random header payloads encryption integ key_e key_a = Ok wire
    /\ Message.decode wire = Ok (Message.new h [encrypted])
    /\ open_message h encrypted encryption integ key_e key_a = Ok payloads.
Proof using All.
  intros Hiv Hivl Hk Hh Hwf Hc Hfit.
  destruct (seal_message_shape random header payloads encryption integ key_e key_a
    iv chain Hiv Hivl Hk Hc Hfit) as (body & Hseal & Hb & Hopen).
  set (h := set_header header payload_type.SK (32 + zlen body)) in *.
  do 2 eexists. exists (Encrypted (Message.first_type payloads) body).
  split; [exact Hseal|]. split.
  - unfold Message.decode.
    rewrite (header_roundtrip h) by (done || (unfold IKE_HEADER_LEN; cbn; len_lia)).
    cbn [mbind outcome_bind].
    pose proof (header_encode_length h) as Hhl.
    set (rest := [Message.first_type payloads; 0] ++ to_be 2 (4 + zlen body) ++ body).
    replace (usize (IkeHeader.length h)) with (length (IkeHeader.encode h ++ rest))
      by (unfold rest, IKE_HEADER_LEN in *; cbn [IkeHeader.length h set_header]; len_lia).
    rewrite slice_all. cbn [mbind outcome_bind]. rewrite slice_from_tail by done.
    cbn [mbind outcome_bind]. unfold rest. rewrite <- (app_nil_r body) at 2.
    change (IkeHeader.next_payload h) with payload_type.SK.
    rewrite decode_sk by (done || len_lia). reflexivity.
  - rewrite Hopen. rewrite <- (app_nil_r chain).
    by rewrite (decode_chain_ok payloads chain []).
Qed.

(** The seven pieces of the material, in order. *)
Lemma pieces_concat (m : list Z) a b c d e f g :
  length m = (a + b + c + d + e + f + g)%nat ->
  take a (drop 0 m) ++ take b (drop a m) ++ take c (drop (a + b) m)
  ++ take d (drop (a + b + c) m) ++ take e (drop (a + b + c + d) m)
  ++ take f (drop (a + b + c + d + e) m)
  ++ take g (drop (a + b + c + d + e + f) m) = m.
Proof using Type.
  intros Hl.
  assert (Hstep : forall o n (r : list Z), r = drop (o + n) m ->
            take n (drop o m) ++ r = drop o m).
  { intros o n r ->. rewrite <- drop_drop. apply take_drop. }
  rewrite (take_ge (drop (a + b + c + d + e + f) m)) by (rewrite length_drop; lia).
  rewrite (Hstep _ f), (Hstep _ e), (Hstep _ d), (Hstep _ c), (Hstep _ b) by done.
  by rewrite (Hstep 0%nat a).
Qed.

Definition other (r : Role) : Role :=
  match r with Initiator => Responder | Responder => Initiator end.

Lemma ike_keys_spec algorithm shared nonce_i nonce_r spi_i spi_r encryption integ :
  exists k, IkeKeys.derive algorithm shared nonce_i nonce_r spi_i spi_r encryption integ
    = Ok k
  /\ IkeKeys.sk_d k ++ IkeKeys.sk_ai k ++ IkeKeys.sk_ar k ++ IkeKeys.sk_ei k
     ++ IkeKeys.sk_er k ++ IkeKeys.sk_pi k ++ IkeKeys.sk_pr k
     = take (PrfAlgorithm.key_len algorithm * 3
             + (EncryptionAlgorithm.key_len encryption
                + EncryptionAlgorithm.salt_len encryption) * 2
             + IntegrityAlgorithm.key_len integ * 2)
         (blocks algorithm (prf algorithm (nonce_i ++ nonce_r) shared)
            (nonce_i ++ nonce_r ++ to_be 8 spi_i ++ to_be 8 spi_r) 255)
  /\ wf_key encryption (IkeKeys.sk_ei k) /\ wf_key encryption (IkeKeys.sk_er k)
  /\ length (IkeKeys.sk_ai k) = IntegrityAlgorithm.key_len integ
  /\ length (IkeKeys.sk_ar k) = IntegrityAlgorithm.key_len integ
  /\ length (IkeKeys.sk_d k) = PrfAlgorithm.key_len algorithm
  /\ forall role,
       IkeKeys.outbound_encryption k role = IkeKeys.inbound_encryption k (other role)
       /\ IkeKeys.outbound_integrity k role = IkeKeys.inbound_integrity k (other role).
Proof using All.
  unfold IkeKeys.derive. set (seed := nonce_i ++ _).
  set (key := prf algorithm _ _). set (p := PrfAlgorithm.key_len algorithm).
  set (e := (EncryptionAlgorithm.key_len encryption + _)%nat).
  set (i := IntegrityAlgorithm.key_len integ).
  assert (Hmax : (p * 3 + e * 2 + i * 2 <= 255 * p)%nat)
    by (unfold p, e, i; destruct algorithm, encryption, integ; cbn; lia).
  rewrite prf_plus_spec by done. cbn [mbind outcome_bind].
  set (m := take _ _).
  assert (Hm : length m = (p + i + i + e + e + p + p)%nat).
  { unfold m. rewrite length_take, blocks_len. fold p. lia. }
  cbn zeta. rewrite !Nat.add_0_l.
  rewrite !slice_in by lia. cbn [mbind outcome_bind].
  eexists. split; [reflexivity|]. cbn [IkeKeys.sk_d IkeKeys.sk_ai IkeKeys.sk_ar
    IkeKeys.sk_ei IkeKeys.sk_er IkeKeys.sk_pi IkeKeys.sk_pr].
  rewrite !Nat.sub_0_r.
  replace (p + i - p)%nat with i by lia. replace (p + i + i - (p + i))%nat with i by lia.
  replace (p + i + i + e - (p + i + i))%nat with e by lia.
  replace (p + i + i + e + e - (p + i + i + e))%nat with e by lia.
  replace (p + i + i + e + e + p - (p + i + i + e + e))%nat with p by lia.
  replace (p + i + i + e + e + p + p - (p + i + i + e + e + p))%nat with p by lia.
  split; [by apply pieces_concat|]. unfold wf_key. fold e.
  split_and!; try (rewrite length_take, length_drop; lia). by intros [].
Qed.

(** [IkeKeys::derive] always succeeds and cuts SK_d, SK_ai, SK_ar, SK_ei,
    SK_er, SK_pi and SK_pr, in this order and without overlap or gap, from the
    prf+ stream keyed with SKEYSEED; every key has the size its algorithm
    wants, and what one role sends with, the other role receives with. *)
Theorem ike_keys_partition algorithm shared nonce_i nonce_r spi_i spi_r encryption integ :
  exists k, IkeKeys.derive algorithm shared nonce_i nonce_r spi_i spi_r encryption integ
    = Ok k
  /\ IkeKeys.sk_d k ++ IkeKeys.sk_ai k ++ IkeKeys.sk_ar k ++ IkeKeys.sk_ei k
     ++ IkeKeys.sk_er k ++ IkeKeys.sk_pi k ++ IkeKeys.sk_pr k
     = take (PrfAlgorithm.key_len algorithm * 3
             + (EncryptionAlgorithm.key_len encryption
                + EncryptionAlgorithm.salt_len encryption) * 2
             + IntegrityAlgorithm.key_len integ * 2)
         (blocks algorithm (prf algorithm (nonce_i ++ nonce_r) shared)
            (nonce_i ++ nonce_r ++ to_be 8 spi_i ++ to_be 8 spi_r) 255)
  /\ wf_key encryption (IkeKeys.sk_ei k) /\ wf_key encryption (IkeKeys.sk_er k)
  /\ length (IkeKeys.sk_ai k) = IntegrityAlgorithm.key_len integ
  /\ length (IkeKeys.sk_ar k) = IntegrityAlgorithm.key_len integ
  /\ length (IkeKeys.sk_d k) = PrfAlgorithm.key_len algorithm
  /\ forall role,
       IkeKeys.outbound_encryption k role = IkeKeys.inbound_encryption k (other role)
       /\ IkeKeys.outbound_integrity k role = IkeKeys.inbound_integrity k (other role).
Proof using All. apply ike_keys_spec. Qed.

Lemma child_keys_spec algorithm sk_d nonce_i nonce_r dh encryption integ
    spi_i spi_r mode li ri lr rr esn :
  exists hi hr,
    derive_child_keys algorithm sk_d nonce_i nonce_r dh Initiator encryption integ
      spi_i spi_r mode li ri esn = Ok hi
    /\ derive_child_keys algorithm sk_d nonce_i nonce_r dh Responder encryption integ
         spi_r spi_i mode lr rr esn = Ok hr
    /\ ChildSaHandle.outbound_key hi = ChildSaHandle.inbound_key hr
    /\ ChildSaHandle.inbound_key hi = ChildSaHandle.outbound_key hr
    /\ ChildSaHandle.outbound_integrity_key hi = ChildSaHandle.inbound_integrity_key hr
    /\ ChildSaHandle.inbound_integrity_key hi = ChildSaHandle.outbound_integrity_key hr
    /\ wf_key encryption (ChildSaHandle.outbound_key hi)
    /\ wf_key encryption (ChildSaHandle.inbound_key hi)
    /\ (ChildSaHandle.outbound_integrity_key hi = None
        <-> integ = IntegrityAlgorithm.None).
Proof using All.
  unfold derive_child_keys. set (seed := default [] dh ++ _).
  set (e := (EncryptionAlgorithm.key_len encryption + _)%nat).
  set (i := IntegrityAlgorithm.key_len integ).
  assert (Hmax : (e * 2 + i * 2 <= 255 * PrfAlgorithm.key_len algorithm)%nat)
    by (unfold e, i; destruct algorithm, encryption, integ; cbn; lia).
  rewrite prf_plus_spec by done. cbn [mbind outcome_bind]. set (m := take _ _).
  assert (Hm : length m = (e * 2 + i * 2)%nat).
  { unfold m. rewrite length_take, blocks_len. lia. }
  rewrite !slice_in by lia. cbn [mbind outcome_bind is_initiator].
  do 2 eexists. split; [reflexivity|]. split; [reflexivity|]. cbn.
  unfold wf_key. fold e. split_and!; try done.
  - rewrite length_take, length_drop. lia.
  - rewrite length_take, length_drop. lia.
  - destruct (bool_decide_reflect (integ = IntegrityAlgorithm.None)); by split.
Qed.


End facts.

(** A stand-in for the crates that satisfies their laws. *)

#[local] Instance toy : CryptoLib := {|
  hmac_sha1 k d := replicate 20 (zlen k mod 256);
  hmac_sha256 k d := replicate 32 (zlen d mod 256);
  gcm_seal k n a p := Some (p ++ replicate 16 7);
  gcm_open k n a c := Some (take (length c - 16) c);
  cbc_encrypt k iv p := p;
  cbc_decrypt k iv c := c;
|}.

#[local] Instance toy_laws : CryptoLaws.
Proof.
  split; [done|done| |done]. intros k n a p _ _. exists (p ++ replicate 16 7).
  split; [done|]. split; [len_lia|]. cbn [gcm_open toy].
  rewrite take_app_le, take_ge by len_lia. done.
Qed.

Lemma open_message_total_witness :
  returns (open_message (IkeHeader.new 1 2 ExchangeType.IkeAuth 8 1)
    (Encrypted 0 [1; 2; 3]) EncryptionAlgorithm.AesGcm16_128 IntegrityAlgorithm.None
    (repeat 5 20) []).
Proof. apply open_message_total. vm_compute. reflexivity. Defined.

Definition sample_wire : list Z :=
  match seal_message (fun n => Ok (repeat 1 n))
          (IkeHeader.new 1 2 ExchangeType.IkeAuth 8 1)
          sample_payloads EncryptionAlgorithm.AesCbc128
          IntegrityAlgorithm.HmacSha2_256_128 (repeat 5 16) (repeat 6 32) with
  | Ok w => w | _ => [] end.

Lemma open_message_authenticated_witness :
  exists covered tag, drop 32 sample_wire = covered ++ tag /\ length tag = 16%nat.
Proof.
  edestruct (open_message_authenticated
    (set_header (IkeHeader.new 1 2 ExchangeType.IkeAuth 8 1) payload_type.SK
       (zlen sample_wire)) payload_type.SA (drop 32 sample_wire)
    EncryptionAlgorithm.AesCbc128 IntegrityAlgorithm.HmacSha2_256_128
    (repeat 5 16) (repeat 6 32) sample_payloads) as (covered & tag & H1 & H2 & _).
  - discriminate.
  - vm_compute. reflexivity.
  - exists covered, tag. split; [exact H1|exact H2].
Defined.

Lemma seal_open_roundtrip_witness :
  exists wire h encrypted,
    seal_message (fun n => Ok (repeat 1 n)) (Message.header sample_message)
      sample_payloads EncryptionAlgorithm.AesGcm16_128 IntegrityAlgorithm.None
      (repeat 5 20) [] = Ok wire
    /\ Message.decode wire = Ok (Message.new h [encrypted])
    /\ open_message h encrypted EncryptionAlgorithm.AesGcm16_128
         IntegrityAlgorithm.None (repeat 5 20) [] = Ok sample_payloads.
Proof.
  apply (seal_open_roundtrip (fun n => Ok (repeat 1 n)) (Message.header sample_message)
    sample_payloads EncryptionAlgorithm.AesGcm16_128 IntegrityAlgorithm.None
    (repeat 5 20) [] (repeat 1 8)
    (match encode_chain sample_payloads with Ok c => c | _ => [] end)).
  - reflexivity.
  - reflexivity.
  - reflexivity.
  - apply sample_wf.
  - apply sample_wf.
  - vm_compute. reflexivity.
  - vm_compute. reflexivity.
Defined.

Lemma ike_keys_partition_witness :
  exists k, IkeKeys.derive PrfAlgorithm.HmacSha2_256 [1; 2] [3] [4] 5 6
    EncryptionAlgorithm.AesCbc256 IntegrityAlgorithm.HmacSha2_256_128 = Ok k
  /\ length (IkeKeys.sk_ai k) = 32%nat.
Proof.
  destruct (ike_keys_partition PrfAlgorithm.HmacSha2_256 [1; 2] [3] [4] 5 6
    EncryptionAlgorithm.AesCbc256 IntegrityAlgorithm.HmacSha2_256_128)
    as (k & H1 & _ & _ & _ & H2 & _).
  exists k. split; [exact H1|exact H2].
Defined.


End IkeSaFacts.
