(* ===== verification/IkeWorld.v ===== *)
(** * What the IKE engine asks of the outside

    Randomness, clocks, UDP sockets, the elliptic-curve key agreement of [ring]
    and SHA-1.  They are the operations of [Class IkeWorld], which act on an
    abstract world; [Class IkeWorldLaws] is what their documentation says.  The
    rest of the file is [src/src/ipsec/ikev2/crypto.rs] as far as it needs them:
    random integers and [DhKeyPair].  Instants are integers of milliseconds,
    [SystemTime] of seconds; adding a duration to one panics when it leaves the
    signed 64-bit seconds of the type. *)

From S2P Require Import Prelude Errors Net IkeCodec TrafficSelector Identity IpsecConfig IkeCrypto.

Class IkeWorld := {
  World : Type;
  (** [getrandom::fill] of a buffer of that many octets; the error as printed. *)
  getrandom : nat -> World -> World * (string + list Z);
  (** [tokio::time::Instant::now] and [SystemTime::now]. *)
  instant_now : World -> World * Z;
  system_now : World -> World * Z;
  (** [ring::agreement]: an ephemeral key, its public value, the agreement. *)
  EcdhKey : Type;
  ecdh_generate : DhGroup.t -> World -> World * option EcdhKey;
  ecdh_public : EcdhKey -> option (list Z);
  ecdh_agree : DhGroup.t -> EcdhKey -> list Z -> option (list Z);
  (** [ring::digest] with SHA-1. *)
  sha1 : list Z -> list Z;
  (** UDP sockets; an error as printed. *)
  Socket : Type;
  udp_bind : SocketAddr.t -> World -> World * (string + Socket);
  udp_local_addr : Socket -> World -> World * (string + SocketAddr.t);
  udp_connect : Socket -> SocketAddr.t -> World -> World * option string;
  udp_send_to : Socket -> list Z -> SocketAddr.t -> World -> World * option string;
  (** [Duration::mul_f64] by a number of hundredths. *)
  mul_percent : Z -> Z -> Z;
}.

Class IkeWorldLaws `{IkeWorld} : Prop := {
  getrandom_len n w w' l : getrandom n w = (w', inr l) -> length l = n /\ bytes l;
  sha1_len l : length (sha1 l) = 20%nat;
  (** The kernel's clocks are signed 64-bit counts of nanoseconds (ktime_t). *)
  instant_now_range w : 0 <= (instant_now w).2 < 2 ^ 63 / 10 ^ 6;
  system_now_range w : 0 <= (system_now w).2 <= 2 ^ 63 / 10 ^ 9;
  (** [Duration::mul_f64] by at most 99 hundredths rounds to nanoseconds. *)
  mul_percent_range d p : 0 <= d -> 1 <= p <= 99 -> 0 <= mul_percent d p <= d;
}.

(** [Instant + Duration] and [SystemTime + Duration]: i64 seconds, checked. *)
Definition instant_add {E} (t d : Z) : outcome E Z :=
  if t + d <? 2 ^ 63 * 1000 then Ok (t + d) else Panic.
Definition system_add {E} (t d : Z) : outcome E Z :=
  if t + d <? 2 ^ 63 then Ok (t + d) else Panic.
(** [Duration * 2]: u64 seconds, checked. *)
Definition duration_double {E} (d : Z) : outcome E Z :=
  if d * 2 <? 2 ^ 64 * 1000 then Ok (d * 2) else Panic.

Section world.
Context `{IkeWorld}.

(** A call on the world. *)
Abbreviation io := (st World IpsecError.t).

Definition io_err (e : string) : IpsecError.t := IpsecError.new IpsecError.Io e.

(** [operation?], with the conversion of its error. *)
Definition ask {A} (f : World -> World * (string + A)) (err : string -> IpsecError.t)
  : io A :=
  fun w => let '(w', r) := f w in
           (w', match r with inl e => Err (err e) | inr a => Ok a end).

Definition ask_unit (f : World -> World * option string) (err : string -> IpsecError.t)
  : io unit :=
  fun w => let '(w', r) := f w in
           (w', match r with Some e => Err (err e) | None => Ok tt end).

Definition read_clock {A} (f : World -> World * A) : io A :=
  fun w => let '(w', a) := f w in (w', Ok a).

(** ** Random numbers *)

Definition random_bytes (n : nat) : io (list Z) :=
  ask (getrandom n) (fun e => IpsecError.internal ("random: " +:+ e)).

Definition random_u64 : io Z := b ← random_bytes 8; mret (from_be b).
Definition random_u32 : io Z := b ← random_bytes 4; mret (from_be b).

(** ** Key pairs *)

Inductive DhPrivate :=
| Ephemeral (key : EcdhKey)
| Modp (exponent : list Z).

Record DhKeyPair := mkDhKeyPair {
  dh_group : DhGroup.t;
  dh_public : list Z;
  dh_private : DhPrivate;
}.

Definition dh_group_debug (g : DhGroup.t) : string :=
  match g with
  | DhGroup.None => "None" | DhGroup.Modp2048 => "Modp2048" | DhGroup.Ecp256 => "Ecp256"
  | DhGroup.Ecp384 => "Ecp384" | DhGroup.X25519 => "X25519"
  end.

(** [agreement_algorithm]: the groups [ring] has. *)
Definition agreement_algorithm (g : DhGroup.t) : outcome IpsecError.t DhGroup.t :=
  match g with
  | DhGroup.Ecp256 | DhGroup.Ecp384 | DhGroup.X25519 => Ok g
  | _ => Err (IpsecError.new IpsecError.NoSupport
                ("unsupported DH group " +:+ dh_group_debug g))
  end.

Definition dh_generate (g : DhGroup.t) : io DhKeyPair :=
  match g with
  | DhGroup.Ecp256 | DhGroup.Ecp384 | DhGroup.X25519 =>
      algorithm ← lift (agreement_algorithm g);
      private ← (fun w => let '(w', k) := ecdh_generate algorithm w in
                          (w', ok_or k (IpsecError.internal "DH key generation failed")));
      public ← lift (ok_or (ecdh_public private)
                       (IpsecError.internal "DH public key generation failed"));
      mret (mkDhKeyPair g public (Ephemeral private))
  | DhGroup.Modp2048 =>
      random ← random_bytes 256;
      let (exponent, public) := modp_generate random in
      mret (mkDhKeyPair g public (Modp exponent))
  | DhGroup.None =>
      throw (IpsecError.ike "cannot generate a key pair for DH group NONE")
  end.

Definition dh_agree (pair : DhKeyPair) (peer_public : list Z)
  : outcome IpsecError.t (list Z) :=
  match dh_private pair with
  | Ephemeral private =>
      algorithm ← agreement_algorithm (dh_group pair);
      ok_or (ecdh_agree algorithm private peer_public)
        (IpsecError.ike "Diffie-Hellman key agreement failed")
  | Modp private => modp_agree private peer_public
  end.

End world.

Abbreviation io := (st World IpsecError.t).

(** ** Totality of the calls *)

Section returns.
Context `{IkeWorld}.

Lemma ask_returns {A} (f : World -> World * (string + A)) err w :
  returns (ask f err w).2.
Proof using Type. unfold ask. by destruct (f w) as [w' [e|a]]. Qed.

Lemma ask_unit_returns f err w : returns (ask_unit f err w).2.
Proof using Type. unfold ask_unit. by destruct (f w) as [w' [e|]]. Qed.

Lemma st_bind_returns {S E A B} (m : st S E A) (k : A -> st S E B) s :
  returns (m s).2 -> (forall a s', returns (k a s').2) -> returns ((m ≫= k) s).2.
Proof using Type.
  unfold mbind, st_bind. destruct (m s) as [s' [a|e| |]]; cbn; auto.
Qed.

Lemma agreement_algorithm_returns g : returns (agreement_algorithm g).
Proof using Type. by destruct g. Qed.

Lemma dh_generate_returns g w : returns (dh_generate g w).2.
Proof using Type.
  assert (He : forall g, returns
    ((algorithm ← lift (agreement_algorithm g);
      private ← (fun w => let '(w', k) := ecdh_generate algorithm w in
                   (w', ok_or k (IpsecError.internal "DH key generation failed")));
      public ← lift (ok_or (ecdh_public private)
                       (IpsecError.internal "DH public key generation failed"));
      mret (mkDhKeyPair g public (Ephemeral private)) : io DhKeyPair) w).2).
  { intros g'. apply st_bind_returns; [apply agreement_algorithm_returns|]. intros a s'.
    apply st_bind_returns.
    - destruct (ecdh_generate a s') as [w' k]. apply returns_ok_or.
    - intros k s2. apply st_bind_returns; [apply returns_ok_or|done]. }
  destruct g; cbn [dh_generate]; try done; try apply He.
  apply st_bind_returns; [apply ask_returns|]. intros l s'. by destruct (modp_generate l).
Qed.

Lemma dh_agree_returns pair public : returns (dh_agree pair public).
Proof using Type.
  unfold dh_agree. destruct (dh_private pair).
  - apply returns_bind; [apply agreement_algorithm_returns|intros; apply returns_ok_or].
  - unfold modp_agree. by case_match.
Qed.

End returns.
