(* ===== verification/IkeTransport.v ===== *)
(** * The IKE transport

    [src/src/ipsec/ikev2/transport.rs]: the UDP socket on port 500 or 4500 with
    the non-ESP marker of NAT traversal, the retransmission timer and the NAT
    detection hashes.  Durations and instants are in milliseconds. *)

From S2P Require Import Prelude Errors Net IkeCodec TrafficSelector Identity IpsecConfig IkeCrypto IkeWorld.

Definition NAT_T_PORT : Z := 4500.

Module IkeTransport.

Section transport.
Context `{IkeWorld}.

Record t := mk {
  socket : Socket;
  remote : SocketAddr.t;
  nat_t : bool;
  encapsulated : bool;
}.

(** A method with [&mut self]. *)
Abbreviation method := (st (World * t) IpsecError.t).

Definition on_world {A} (f : io A) : method A :=
  fun '(w, self) => let '(w', r) := f w in ((w', self), r).

Definition self : method t := fun s => (s, Ok s.2).
Definition put (f : t -> t) : method unit := modify (fun '(w, self) => (w, f self)).

Definition bind (local_address : option IpAddr) (local_port : Z)
  (remote : SocketAddr.t) (nat_t : bool) : io t :=
  let bind_address :=
    match local_address with
    | Some address => SocketAddr.mk address local_port
    | None => if is_ipv4 (SocketAddr.ip remote) then any_v4 local_port else any_v6 local_port
    end in
  socket ← ask (udp_bind bind_address)
    (fun e => io_err ("bind IKE socket " +:+ SocketAddr.to_string bind_address +:+ ": " +:+ e));
  mret (mk socket remote nat_t false).

Definition local_addr (self : t) : io SocketAddr.t :=
  ask (udp_local_addr (socket self)) io_err.

Definition set_remote (a : SocketAddr.t) (self : t) : t :=
  mk (socket self) a (nat_t self) (encapsulated self).

Definition enable_nat_t : method unit :=
  put (fun s => set_remote (SocketAddr.set_port (remote s) NAT_T_PORT) s);;
  s ← self;
  if negb (nat_t s) || encapsulated s then mret tt else
  local ← on_world (local_addr s);
  let bind_address := SocketAddr.mk (SocketAddr.ip local) NAT_T_PORT in
  socket ← on_world (ask (udp_bind bind_address)
    (fun e => io_err ("bind NAT-T socket " +:+ SocketAddr.to_string bind_address +:+ ": " +:+ e)));
  put (fun s => mk socket (remote s) (nat_t s) true).

Definition route_source_ip (self : t) (remote : SocketAddr.t) : io IpAddr :=
  local ← ask (udp_local_addr (socket self)) io_err;
  if negb (is_unspecified (SocketAddr.ip local)) then mret (SocketAddr.ip local) else
  let bind_address := if is_ipv4 (SocketAddr.ip remote) then any_v4 0 else any_v6 0 in
  probe ← ask (udp_bind bind_address)
    (fun e => io_err ("bind route probe socket " +:+ SocketAddr.to_string bind_address
                      +:+ ": " +:+ e));
  ask_unit (udp_connect probe remote)
    (fun e => io_err ("connect route probe to " +:+ SocketAddr.to_string remote +:+ ": " +:+ e));;
  local ← ask (udp_local_addr probe) io_err;
  mret (SocketAddr.ip local).

(** What [send] hands to the socket. *)
Definition datagram (self : t) (message : list Z) : list Z :=
  if encapsulated self then [0; 0; 0; 0] ++ message else message.

Definition send (self : t) (message : list Z) : io unit :=
  ask_unit (udp_send_to (socket self) (datagram self message) (remote self)) io_err.

(** [recv], from what the socket received. *)
Definition recv (self : t) (buffer : list Z) (source : SocketAddr.t)
  : outcome IpsecError.t (list Z * SocketAddr.t) :=
  if encapsulated self || (SocketAddr.port source =? NAT_T_PORT) then
    if (4 <=? length buffer)%nat && bool_decide (take 4 buffer = [0; 0; 0; 0])
    then Ok (drop 4 buffer, source)
    else match buffer with
         | b :: _ =>
             if Z.shiftr b 4 =? 4
             then ike_err "received non-IKE packet on the NAT-T socket"
             else Ok (buffer, source)
         | [] => Ok (buffer, source)
         end
  else Ok (buffer, source).

End transport.

End IkeTransport.

(** ** Retransmission *)

Module Retransmit.

Record t := mk {
  message : list Z;
  deadline : Z;
  timeout : Z;
  attempts : Z;
  max_attempts : Z;
}.

Definition new (message : list Z) (timeout max_attempts now : Z) : outcome IpsecError.t t :=
  deadline ← instant_add now timeout;
  Ok (mk message deadline timeout 0 max_attempts).

(** [retry]; the increment of the [u8] counter is checked, and so is the time. *)
Definition retry (now : Z) (r : t) : outcome IpsecError.t (t * bool) :=
  if attempts r + 1 <? 256 then
    doubled ← duration_double (timeout r);
    let timeout := Z.min doubled 60000 in
    deadline ← instant_add now timeout;
    Ok (mk (message r) deadline timeout (attempts r + 1) (max_attempts r),
        attempts r + 1 <? max_attempts r)
  else Panic.

End Retransmit.

(** ** NAT detection *)

Section nat_detection.
Context `{IkeWorld}.

Definition nat_detection_hash (spi_i spi_r : Z) (address : IpAddr) (port : Z) : list Z :=
  sha1 (to_be 8 spi_i ++ to_be 8 spi_r
        ++ (match address with V4 octets | V6 octets => octets end) ++ to_be 2 port).

Definition nat_detection_matches (notify_data : list Z) (spi_i spi_r : Z)
  (address : IpAddr) (port : Z) : bool :=
  let expected := nat_detection_hash spi_i spi_r address port in
  (length expected =? length notify_data)%nat && bool_decide (expected = notify_data).

End nat_detection.

(** ** Facts *)

Module TransportFacts.
Import IkeTransport.

Section facts.
Context `{IkeWorld}.

(** What one end sends is what the other end reads, when they agree on the
    encapsulation: an encapsulated message arrives at an end that expects the
    marker, a plain one at an end that does not. *)
Lemma framing_roundtrip sender receiver source message :
  (encapsulated sender
   = encapsulated receiver || (SocketAddr.port source =? NAT_T_PORT)) ->
  recv receiver (datagram sender message) source = Ok (message, source).
Proof using Type.
  intros Hsame. unfold recv, datagram. rewrite <- Hsame.
  by destruct (encapsulated sender).
Qed.

Lemma recv_returns t buffer source : returns (recv t buffer source).
Proof using Type. unfold recv. repeat case_match; done. Qed.

End facts.

(** The state after a number of retries at the given times. *)
Fixpoint retries (times : list Z) (r : Retransmit.t) : outcome IpsecError.t (Retransmit.t * bool) :=
  match times with
  | [] => Ok (r, true)
  | now :: times =>
      x ← Retransmit.retry now r;
      let (r', again) := (x : Retransmit.t * bool) in
      if again then retries times r' else Ok (r', false)
  end.

Lemma recv_bytes `{IkeWorld} self buffer source data from :
  bytes buffer -> IkeTransport.recv self buffer source = Ok (data, from) -> bytes data.
Proof.
  intros Hb. unfold IkeTransport.recv. repeat case_match; intros; simplify_eq; try done.
  by apply Forall_drop.
Qed.

Definition fresh (r : Retransmit.t) : Prop :=
  0 <= Retransmit.attempts r < 255 /\ 1 <= Retransmit.max_attempts r <= 255
  /\ Retransmit.attempts r < Retransmit.max_attempts r
  /\ Retransmit.timeout r < 2 ^ 63 * 1000.

(** An instant a clock may show. *)
Definition clock_value (now : Z) : Prop := 0 <= now < 2 ^ 63 / 10 ^ 6.

Lemma retry_fresh now r :
  clock_value now -> fresh r ->
  exists r', Retransmit.retry now r = Ok (r', Retransmit.attempts r + 1 <? Retransmit.max_attempts r)
    /\ Retransmit.attempts r' = Retransmit.attempts r + 1
    /\ Retransmit.max_attempts r' = Retransmit.max_attempts r
    /\ Retransmit.message r' = Retransmit.message r
    /\ ((Retransmit.attempts r + 1 <? Retransmit.max_attempts r) = true -> fresh r').
Proof.
  intros Hnow (Ha & Hm & Hlt & Ht). unfold Retransmit.retry, duration_double, instant_add.
  unfold clock_value in Hnow. change (2 ^ 63 / 10 ^ 6) with 9223372036854 in Hnow.
  replace (_ + 1 <? 256) with true by lia. replace (_ * 2 <? _) with true by lia.
  cbn [mbind outcome_bind]. replace (_ + _ <? _ * 1000) with true by lia.
  eexists. split; [done|]. cbn [Retransmit.attempts Retransmit.max_attempts Retransmit.message].
  split; [done|]. split; [done|]. split; [done|]. unfold fresh.
  cbn [Retransmit.attempts Retransmit.max_attempts Retransmit.timeout]. lia.
Qed.

(** A timer that was set is fresh. *)
Lemma new_fresh message timeout max now r :
  0 <= now -> 1 <= max <= 255 -> Retransmit.new message timeout max now = Ok r -> fresh r.
Proof.
  unfold Retransmit.new, instant_add. intros Hnow Hmax.
  destruct (Z.ltb_spec (now + timeout) (2 ^ 63 * 1000)) as [Hlt|_]; [|done].
  intros [= <-]. unfold fresh. cbn [Retransmit.attempts Retransmit.max_attempts Retransmit.timeout].
  lia.
Qed.

Lemma retries_fresh times r :
  Forall clock_value times -> fresh r ->
  exists r', retries times r
    = Ok (r', Retransmit.attempts r + zlen times <? Retransmit.max_attempts r).
Proof.
  intros Htimes. revert r. induction Htimes as [|now times Hnow _ IH]; intros r Hr.
  - exists r. cbn. destruct Hr as (? & ? & ? & ?). do 2 f_equal. symmetry.
    apply Z.ltb_lt. unfold zlen. cbn. lia.
  - cbn [retries]. destruct (retry_fresh now r Hnow Hr) as (r1 & -> & Ha & Hm & _ & Hf).
    cbn [mbind outcome_bind].
    destruct (Z.ltb_spec (Retransmit.attempts r + 1) (Retransmit.max_attempts r)) as [Hlt|Hge].
    + destruct (IH r1 (Hf eq_refl)) as (r' & ->). exists r'. rewrite Ha, Hm.
      unfold zlen. cbn [length]. do 2 f_equal. f_equal. lia.
    + exists r1. do 2 f_equal. unfold zlen. cbn [length]. lia.
Qed.

End TransportFacts.
