(* ===== verification/IkeAuth.v ===== *)
(** * IKE authentication

    [src/src/ipsec/ikev2/auth]: the signed octets and the pre-shared-key AUTH
    value ([mod.rs], [psk.rs]), certificates ([cert.rs]) and the EAP-TLS bridge
    ([eap.rs]).  X.509 validation and the signature algorithms are [webpki] and
    [ring], the operations of [Class CertLib]; reading PEM and base64, choosing
    algorithms and key usages, and binding a certificate to an identity are
    modelled. *)

From S2P Require Import Prelude Errors Net Eap EapTls IkeCodec TrafficSelector Identity IpsecConfig IkeCrypto IkeWorld.

Definition AUTH_RSA : Z := 1.
Definition AUTH_PSK : Z := 2.
Definition AUTH_ECDSA_P256_SHA256 : Z := 9.
Definition AUTH_ECDSA_P384_SHA384 : Z := 10.

(** ** Signed octets and the pre-shared key *)

Section psk.
Context `{CryptoLib}.

Definition auth_signed_octets (real_message1 nonce_r : list Z) (algorithm : PrfAlgorithm.t)
  (sk_p id : list Z) : list Z :=
  let id_hash := prf algorithm sk_p id in
  real_message1 ++ nonce_r ++ id_hash.

Definition psk_compute (psk : list Z) (algorithm : PrfAlgorithm.t) (signed : list Z)
  : list Z :=
  let key := prf algorithm psk (as_bytes "Key Pad for IKEv2") in
  prf algorithm key signed.

Definition psk_verify (psk : list Z) (algorithm : PrfAlgorithm.t) (signed auth : list Z)
  : outcome IpsecError.t unit :=
  let expected := psk_compute psk algorithm signed in
  if (length expected =? length auth)%nat && bool_decide (expected = auth)
  then Ok tt
  else Err (IpsecError.authentication "pre-shared key authentication failed").

Lemma psk_verify_ok psk algorithm signed auth :
  psk_verify psk algorithm signed auth = Ok tt <-> auth = psk_compute psk algorithm signed.
Proof using Type.
  unfold psk_verify. case_bool_decide as He.
  - rewrite He, Nat.eqb_refl. done.
  - rewrite andb_false_r. by split; [|intros ->].
Qed.

Lemma psk_verify_returns psk algorithm signed auth :
  returns (psk_verify psk algorithm signed auth).
Proof using Type. unfold psk_verify. by case_match. Qed.

End psk.

(** ** Reading certificates *)

Definition cert_err {A} (m : string) : outcome IpsecError.t A :=
  Err (IpsecError.new IpsecError.Certificate m).

(** [digit] of [base64_decode]. *)
Definition b64_digit (b : Z) : option Z :=
  if (65 <=? b) && (b <=? 90) then Some (b - 65)
  else if (97 <=? b) && (b <=? 122) then Some (b - 97 + 26)
  else if (48 <=? b) && (b <=? 57) then Some (b - 48 + 52)
  else if b =? 43 then Some 62
  else if b =? 47 then Some 63
  else None.

Definition b64_required (b : Z) : outcome IpsecError.t Z :=
  ok_or (b64_digit b) (IpsecError.new IpsecError.Certificate "invalid base64").

(** A digit, or the padding character [=]. *)
Definition b64_padded (b : Z) : outcome IpsecError.t Z :=
  if b =? 61 then Ok 0 else b64_required b.

Definition b64_chunk (w x y z : Z) : outcome IpsecError.t (list Z) :=
  a ← b64_required w;
  b ← b64_required x;
  c ← b64_padded y;
  d ← b64_padded z;
  let value := Z.lor (Z.lor (Z.lor (Z.shiftl a 18) (Z.shiftl b 12)) (Z.shiftl c 6)) d in
  Ok ([as_u8 (Z.shiftr value 16)]
      ++ (if y =? 61 then [] else [as_u8 (Z.shiftr value 8)])
      ++ (if z =? 61 then [] else [as_u8 value])).

(** [for chunk in bytes.chunks(4)], of a length that 4 divides. *)
Fixpoint b64_chunks (l : list Z) : outcome IpsecError.t (list Z) :=
  match l with
  | w :: x :: y :: z :: rest =>
      o ← b64_chunk w x y z;
      os ← b64_chunks rest;
      Ok (o ++ os)
  | _ => Ok []
  end.

Definition base64_decode (value : list Z) : outcome IpsecError.t (list Z) :=
  if negb (length value mod 4 =? 0)%nat then cert_err "invalid base64 length"
  else b64_chunks value.

(** [chars().filter(|c| !c.is_whitespace())] on UTF-8 octets. *)
Fixpoint remove_whitespace (s : list Z) : list Z :=
  match s with
  | [] => []
  | b :: s1 =>
      if (9 <=? b) && (b <=? 13) || (b =? 32) then remove_whitespace s1 else
      match s1 with
      | [] => [b]
      | c :: s2 =>
          if (b =? 194) && ((c =? 133) || (c =? 160)) then remove_whitespace s2 else
          match s2 with
          | [] => b :: remove_whitespace s1
          | d :: s3 =>
              if (b =? 225) && (c =? 154) && (d =? 128)
                 || (b =? 226) && (c =? 128)
                    && ((128 <=? d) && (d <=? 138) || (d =? 168) || (d =? 169)
                        || (d =? 175))
                 || (b =? 226) && (c =? 129) && (d =? 159)
                 || (b =? 227) && (c =? 128) && (d =? 128)
              then remove_whitespace s3 else b :: remove_whitespace s1
          end
      end
  end.

Definition starts_with (p l : list Z) : bool := bool_decide (take (length p) l = p).

(** [str::find]: the position of the first occurrence. *)
Fixpoint find_sub (p l : list Z) : option nat :=
  if starts_with p l then Some 0%nat
  else match l with
       | [] => None
       | _ :: l => S <$> find_sub p l
       end.

Definition PEM_BEGIN : list Z := as_bytes "-----BEGIN CERTIFICATE-----".
Definition PEM_END : list Z := as_bytes "-----END CERTIFICATE-----".

(** [while let Some(start) = rest.find(..)]. *)
Fixpoint parse_pem_loop (fuel : nat) (rest : list Z) (certificates : list (list Z))
  : outcome IpsecError.t (list (list Z)) :=
  match fuel with
  | O => Diverge
  | S fuel =>
      match find_sub PEM_BEGIN rest with
      | None => Ok certificates
      | Some start =>
          let after := drop (start + length PEM_BEGIN) rest in
          match find_sub PEM_END after with
          | None => cert_err "unterminated PEM certificate"
          | Some stop =>
              let body := remove_whitespace (take stop after) in
              der ← base64_decode body;
              parse_pem_loop fuel (drop (stop + length PEM_END) after) (certificates ++ [der])
          end
      end
  end.

Definition parse_pem (data : list Z) : outcome IpsecError.t (list (list Z)) :=
  if negb (utf8_valid data) then cert_err "PEM data is not UTF-8" else
  certificates ← parse_pem_loop (S (length data)) data [];
  match certificates with
  | [] => cert_err "no PEM certificate found"
  | _ => Ok certificates
  end.

Definition parse_certificates (data : list Z) : outcome IpsecError.t (list (list Z)) :=
  if starts_with (as_bytes "-----BEGIN") data then parse_pem data else Ok [data].

(** [for certificate in ..: chain.extend(parse_certificates(certificate)?)]. *)
Definition parse_all (l : list (list Z)) : outcome IpsecError.t (list (list Z)) :=
  ders ← collect parse_certificates l; Ok (concat ders).

(** ** X.509 and signatures *)

Inductive PeerRole := PeerInitiator | PeerResponder.

Definition CERT_ENCODING_X509 : Z := 4.
Definition EKU_SERVER_AUTH : list Z := [43; 6; 1; 5; 5; 7; 3; 1].
Definition EKU_CLIENT_AUTH : list Z := [43; 6; 1; 5; 5; 7; 3; 2].
Definition EKU_IPSEC_IKE : list Z := [43; 6; 1; 5; 5; 7; 3; 17].

(** The signature algorithms of [webpki::ring]. *)
Inductive SigAlg :=
| RsaSha256 | RsaSha384 | RsaSha512 | EcdsaP256 | EcdsaP384 | Ed25519Alg.

Class CertLib `{IkeWorld} := {
  (** [PrivateKeyDer::from_pem_slice]. *)
  key_from_pem : list Z -> string + list Z;
  (** PKCS#8 keys of [ring]. *)
  RsaKey : Type;
  EcdsaKey : Type;
  Ed25519Key : Type;
  rsa_from_pkcs8 : list Z -> option RsaKey;
  ecdsa_p256_from_pkcs8 : list Z -> World -> World * option EcdsaKey;
  ecdsa_p384_from_pkcs8 : list Z -> World -> World * option EcdsaKey;
  ed25519_from_pkcs8 : list Z -> option Ed25519Key;
  rsa_sign : RsaKey -> list Z -> World -> World * option (list Z);
  ecdsa_sign : EcdsaKey -> list Z -> World -> World * option (list Z);
  ed25519_sign : Ed25519Key -> list Z -> list Z;
  (** [webpki]: trust anchors, end-entity certificates, names; errors as printed. *)
  Anchor : Type;
  EndEntity : Type;
  ServerName : Type;
  anchor_from_cert : list Z -> string + Anchor;
  end_entity : list Z -> string + EndEntity;
  verify_for_usage : EndEntity -> list Anchor -> list (list Z) -> Z -> list Z -> option string;
  name_of_ip : IpAddr -> ServerName;
  name_of_string : string -> string + ServerName;
  name_debug : ServerName -> string;
  valid_for_name : EndEntity -> ServerName -> option string;
  verify_with : EndEntity -> SigAlg -> list Z -> list Z -> option string;
}.

Section cert.
Context `{CertLib}.

Inductive LocalCredentials :=
| RsaCred (key : RsaKey)
| EcdsaCred (key : EcdsaKey) (method : Z)
| Ed25519Cred (key : Ed25519Key).

Record LocalAuth := mkLocalAuth {
  la_chain : list (list Z);
  la_credentials : LocalCredentials;
}.

Definition parse_private_key (data : list Z) : outcome IpsecError.t (list Z) :=
  match key_from_pem data with
  | inl e => cert_err ("invalid private key: " +:+ e)
  | inr key => Ok key
  end.

Definition attempt {A} (f : World -> World * option A) : io (option A) :=
  fun w => let '(w', r) := f w in (w', Ok r).

(** [LocalAuth::load]. *)
Definition load (config : CertificateConfig) : io LocalAuth :=
  chain ← lift (parse_all (certificates config));
  match chain with
  | [] => throw (IpsecError.config "certificate authentication requires a local certificate")
  | _ =>
      key ← lift (parse_private_key (private_key config));
      match rsa_from_pkcs8 key with
      | Some key => mret (mkLocalAuth chain (RsaCred key))
      | None =>
          p256 ← attempt (ecdsa_p256_from_pkcs8 key);
          match p256 with
          | Some key => mret (mkLocalAuth chain (EcdsaCred key AUTH_ECDSA_P256_SHA256))
          | None =>
              p384 ← attempt (ecdsa_p384_from_pkcs8 key);
              match p384 with
              | Some key => mret (mkLocalAuth chain (EcdsaCred key AUTH_ECDSA_P384_SHA384))
              | None =>
                  match ed25519_from_pkcs8 key with
                  | Some key => mret (mkLocalAuth chain (Ed25519Cred key))
                  | None => throw (IpsecError.new IpsecError.Certificate
                                     "unsupported private key format")
                  end
              end
          end
      end
  end.

(** [LocalAuth::sign]: the method and the signature. *)
Definition sign (self : LocalAuth) (signed : list Z) : io (Z * list Z) :=
  match la_credentials self with
  | RsaCred key =>
      signature ← attempt (rsa_sign key signed);
      signature ← lift (ok_or signature
        (IpsecError.new IpsecError.Certificate "RSA signing failed"));
      mret (AUTH_RSA, signature)
  | EcdsaCred key method =>
      signature ← attempt (ecdsa_sign key signed);
      signature ← lift (ok_or signature
        (IpsecError.new IpsecError.Certificate "ECDSA signing failed"));
      mret (method, signature)
  | Ed25519Cred key => mret (13, ed25519_sign key signed)
  end.

Definition certificate_payloads (chain : list (list Z)) : list Payload :=
  Cert CERT_ENCODING_X509 <$> chain.

Definition leaf_of (der : list Z) : outcome IpsecError.t EndEntity :=
  match end_entity der with
  | inl e => cert_err ("invalid peer certificate: " +:+ e)
  | inr leaf => Ok leaf
  end.

Definition anchor_of (der : list Z) : outcome IpsecError.t Anchor :=
  match anchor_from_cert der with
  | inl e => cert_err ("invalid CA certificate: " +:+ e)
  | inr anchor => Ok anchor
  end.

(** [for eku in extended_key_usage]: the error left when no usage is accepted. *)
Fixpoint check_usages (leaf : EndEntity) (anchors : list Anchor) (intermediates : list (list Z))
  (time : Z) (ekus : list (list Z)) (usage_error : option string) : option string :=
  match ekus with
  | [] => usage_error
  | eku :: ekus =>
      match verify_for_usage leaf anchors intermediates time eku with
      | None => None
      | Some e => check_usages leaf anchors intermediates time ekus (Some e)
      end
  end.

Definition identity_err {A} (m : string) : outcome IpsecError.t A :=
  Err (IpsecError.new IpsecError.Identity m).

(** The end of [verify_peer]: binding the certificate to the identity. *)
Definition bind_identity (leaf : EndEntity) (identity : Identity.t)
  : outcome IpsecError.t unit :=
  match identity with
  | Identity.Ip address =>
      match valid_for_name leaf (name_of_ip address) with
      | None => Ok tt
      | Some e => identity_err ("certificate does not match identity "
                                +:+ ip_string address +:+ ": " +:+ e)
      end
  | Identity.Fqdn name =>
      match name_of_string name with
      | inl e => identity_err ("invalid peer identity " +:+ name +:+ ": " +:+ e)
      | inr name =>
          match valid_for_name leaf name with
          | None => Ok tt
          | Some e => identity_err ("certificate does not match identity "
                                    +:+ name_debug name +:+ ": " +:+ e)
          end
      end
  | Identity.Email _ | Identity.DerAsn1Dn _ | Identity.KeyId _ | Identity.Any => Ok tt
  end.

(** [verify_peer] at a given time. *)
Definition verify_peer (time : Z) (ca_certificates peer_chain : list (list Z))
  (identity : Identity.t) (role : PeerRole) : outcome IpsecError.t unit :=
  match peer_chain with
  | [] => cert_err "peer did not send a certificate"
  | leaf_der :: intermediates =>
      anchor_certs ← parse_all ca_certificates;
      match anchor_certs with
      | [] => cert_err "no trust anchors configured"
      | _ =>
          anchors ← collect anchor_of anchor_certs;
          leaf ← leaf_of leaf_der;
          let ekus := match role with
                      | PeerInitiator => [EKU_CLIENT_AUTH; EKU_IPSEC_IKE]
                      | PeerResponder => [EKU_SERVER_AUTH; EKU_IPSEC_IKE]
                      end in
          match check_usages leaf anchors intermediates time ekus None with
          | Some e => cert_err ("peer certificate validation failed: " +:+ e)
          | None => bind_identity leaf identity
          end
      end
  end.

(** The algorithms an AUTH method stands for. *)
Definition method_algorithms (method : Z) : option (list SigAlg) :=
  if method =? AUTH_RSA then Some [RsaSha256; RsaSha384; RsaSha512]
  else if method =? AUTH_ECDSA_P256_SHA256 then Some [EcdsaP256]
  else if method =? AUTH_ECDSA_P384_SHA384 then Some [EcdsaP384]
  else if method =? 13 then Some [Ed25519Alg]
  else None.

(** [for algorithm in algorithms]: [None] when one accepts the signature. *)
Fixpoint try_algorithms (leaf : EndEntity) (signed auth : list Z) (algorithms : list SigAlg)
  (last_error : option string) : option (option string) :=
  match algorithms with
  | [] => Some last_error
  | a :: algorithms =>
      match verify_with leaf a signed auth with
      | None => None
      | Some e => try_algorithms leaf signed auth algorithms (Some e)
      end
  end.

Definition verify_signature (peer_chain : list (list Z)) (method : Z) (signed auth : list Z)
  : outcome IpsecError.t unit :=
  match peer_chain with
  | [] => cert_err "peer did not send a certificate"
  | leaf_der :: _ =>
      leaf ← leaf_of leaf_der;
      match method_algorithms method with
      | None => Err (IpsecError.new IpsecError.NoSupport
                       ("unsupported AUTH method " +:+ pretty method))
      | Some algorithms =>
          match try_algorithms leaf signed auth algorithms None with
          | None => Ok tt
          | Some last_error =>
              Err (IpsecError.authentication
                     ("peer AUTH signature verification failed: "
                      +:+ default "no signature algorithm" last_error))
          end
      end
  end.

End cert.

(** ** EAP *)

(** The EAP method of a session: [EapTlsMethod::from_config], which reads files
    and builds the TLS configuration. *)
Class EapTlsSetup `{IkeWorld} := {
  EapTlsM : Type;
  eap_tls_method :: EapMethod EapTlsM;
  eap_tls_from_config : EapTlsConfig -> World -> World * outcome WifiError.t EapTlsM;
}.

Section eap.
Context `{EapTlsSetup}.

Definition EapSession : Type := EapPeer.t EapTlsM.

(** [EapSession::new]. *)
Definition eap_session_new (config : EapTlsConfig) : io EapSession :=
  lift (validate_eap_tls config);;
  method ← ((fun w => let '(w', r) := eap_tls_from_config config w in
                      (w', map_err IpsecError.from_wifi r)) : io EapTlsM);
  mret (EapPeer.set_method (EapPeer.new (as_bytes (eap_identity config))) method).

(** [EapSession::handle]: the response, if any, and whether authentication
    completed. *)
Definition eap_session_handle (packet : list Z)
  : st EapSession IpsecError.t (option (list Z) * bool) :=
  fun self =>
    match EapPacket.parse packet with
    | Ok (Some packet) =>
        let '(self', action) := EapPeer.handle_packet self packet in
        (self', action ← map_err IpsecError.from_wifi action;
                match action with
                | Respond response => Ok (Some response, false)
                | Success => Ok (None, true)
                | Failure => Err (IpsecError.authentication
                                    "EAP authentication rejected by the peer")
                | Wait => Ok (None, false)
                end)
    | Ok None => (self, Err (IpsecError.new IpsecError.Eap "malformed EAP packet"))
    | Err e => (self, Err (IpsecError.from_wifi e))
    | Panic => (self, Panic)
    | Diverge => (self, Diverge)
    end.

Definition eap_session_msk (self : EapSession) : option (list Z) := EapPeer.peer_msk self.

End eap.

(** ** Facts *)

Module AuthFacts.

(** *** Base64 and PEM *)

(** The encoder of RFC 4648, as a reference. *)
Definition b64_char (v : Z) : Z :=
  if v <? 26 then 65 + v else if v <? 52 then 71 + v
  else if v <? 62 then v - 4 else if v =? 62 then 43 else 47.

Fixpoint base64_encode (l : list Z) : list Z :=
  match l with
  | a :: b :: c :: rest =>
      [b64_char (a / 4); b64_char (a mod 4 * 16 + b / 16);
       b64_char (b mod 16 * 4 + c / 64); b64_char (c mod 64)] ++ base64_encode rest
  | [a; b] => [b64_char (a / 4); b64_char (a mod 4 * 16 + b / 16);
               b64_char (b mod 16 * 4); 61]
  | [a] => [b64_char (a / 4); b64_char (a mod 4 * 16); 61; 61]
  | [] => []
  end.

(** A certificate in PEM, and several. *)
Definition pem_encode (der : list Z) : list Z :=
  PEM_BEGIN ++ [10] ++ base64_encode der ++ [10] ++ PEM_END ++ [10].

(** [lia] with quotients and remainders by constants. *)
Ltac div_lia := Z.div_mod_to_equations; lia.

Lemma b64_digit_char v : 0 <= v < 64 -> b64_digit (b64_char v) = Some v.
Proof.
  intros Hv. unfold b64_char, b64_digit.
  destruct (Z.ltb_spec v 26); [|destruct (Z.ltb_spec v 52); [|destruct (Z.ltb_spec v 62);
    [|destruct (Z.eqb_spec v 62) as [->|]]]];
    repeat first [ replace (_ && _) with true by lia | replace (_ && _) with false by lia
                 | replace (_ =? _) with true by lia | replace (_ =? _) with false by lia ];
    cbn; f_equal; lia.
Qed.

(** The characters of the encoding: letters, digits, [+], [/] and [=]. *)
Definition b64_text (b : Z) : Prop := 43 <= b < 128 /\ b <> 45.

Lemma b64_char_text v : 0 <= v < 64 -> b64_text (b64_char v) /\ b64_char v <> 61.
Proof. intros Hv. unfold b64_text, b64_char. repeat case_match; lia. Qed.

Lemma b64_padded_char v : 0 <= v < 64 -> b64_padded (b64_char v) = Ok v.
Proof.
  intros Hv. unfold b64_padded. destruct (b64_char_text v Hv) as [_ Hne].
  replace (_ =? 61) with false by lia. unfold b64_required. by rewrite b64_digit_char.
Qed.

Lemma lor_shift_add x k y : 0 <= k -> 0 <= y < 2 ^ k -> Z.lor (Z.shiftl x k) y = x * 2 ^ k + y.
Proof.
  intros Hk Hy. rewrite <- Z.shiftl_mul_pow2 by done.
  assert (Hand : Z.land (Z.shiftl x k) y = 0).
  { apply Z.bits_inj'. intros i Hi. rewrite Z.land_spec, Z.shiftl_spec, Z.bits_0 by done.
    destruct (Z.ltb_spec i k); [by rewrite Z.testbit_neg_r by lia|].
    replace (Z.testbit y i) with false; [apply andb_false_r|]. symmetry.
    apply Z.testbit_false; [done|]. rewrite Z.div_small; [done|]. split; [lia|].
    apply Z.lt_le_trans with (2 ^ k); [lia|]. apply Z.pow_le_mono_r; lia. }
  rewrite <- Z.lxor_lor by done. by rewrite <- Z.add_nocarry_lxor.
Qed.

Lemma b64_value a b c d :
  0 <= a < 64 -> 0 <= b < 64 -> 0 <= c < 64 -> 0 <= d < 64 ->
  Z.lor (Z.lor (Z.lor (Z.shiftl a 18) (Z.shiftl b 12)) (Z.shiftl c 6)) d
  = a * 262144 + b * 4096 + c * 64 + d.
Proof.
  intros. rewrite <- !Z.lor_assoc, (lor_shift_add c 6 d) by lia.
  rewrite (lor_shift_add b 12) by lia. rewrite (lor_shift_add a 18) by lia. lia.
Qed.

(** One group of four characters, of which the last two may be padding. *)
Lemma b64_chunk_ok a b (c d : Z) (y z : Z) :
  0 <= a < 64 -> 0 <= b < 64 -> 0 <= c < 64 -> 0 <= d < 64 ->
  y = b64_char c \/ y = 61 /\ c = 0 -> z = b64_char d \/ z = 61 /\ d = 0 ->
  b64_chunk (b64_char a) (b64_char b) y z
  = Ok ([a * 4 + b / 16] ++ (if y =? 61 then [] else [b mod 16 * 16 + c / 4])
        ++ (if z =? 61 then [] else [c mod 4 * 64 + d])).
Proof.
  intros Ha Hb Hc Hd Hy Hz. unfold b64_chunk, b64_required. rewrite !b64_digit_char by done.
  assert (Hp : forall v w, 0 <= v < 64 -> w = b64_char v \/ w = 61 /\ v = 0 -> b64_padded w = Ok v).
  { intros v w Hv [->|[-> ->]]; [by apply b64_padded_char|done]. }
  cbn [ok_or mbind outcome_bind]. rewrite (Hp c y), (Hp d z) by done. cbn [mbind outcome_bind].
  rewrite b64_value, !Z.shiftr_div_pow2 by lia. unfold wrap.
  change (2 ^ 16) with 65536. change (2 ^ 8) with 256.
  f_equal. f_equal; [f_equal; div_lia|].
  f_equal; repeat case_match; try done; f_equal; div_lia.
Qed.

Lemma triple_ind (P : list Z -> Prop) :
  P [] -> (forall a, P [a]) -> (forall a b, P [a; b]) ->
  (forall a b c l, P l -> P (a :: b :: c :: l)) -> forall l, P l.
Proof.
  intros H0 H1 H2 H3 l. assert (Hall : P l /\ (forall a, P (a :: l)) /\ forall a b, P (a :: b :: l));
    [|apply Hall]. induction l as [|c l (IH & IH1 & IH2)]; auto.
Qed.

Lemma base64_chunks_encode l : bytes l -> b64_chunks (base64_encode l) = Ok l.
Proof.
  induction l as [|a|a b|a b c l IH] using triple_ind; intros Hl; [done|..];
    repeat (apply Forall_cons in Hl as [? Hl]); unfold fits in *;
    cbn [base64_encode app b64_chunks].
  - rewrite (b64_chunk_ok _ _ 0 0) by first [div_lia | auto]. cbn. do 2 f_equal. div_lia.
  - rewrite (b64_chunk_ok _ _ (b mod 16 * 4) 0) by first [div_lia | auto].
    replace (_ =? 61) with false by (pose proof (b64_char_text (b mod 16 * 4) ltac:(div_lia)); lia).
    cbn. f_equal. f_equal; [div_lia|]. f_equal. div_lia.
  - rewrite (b64_chunk_ok _ _ (b mod 16 * 4 + c / 64) (c mod 64)) by first [div_lia | auto].
    pose proof (b64_char_text (b mod 16 * 4 + c / 64) ltac:(div_lia)).
    pose proof (b64_char_text (c mod 64) ltac:(div_lia)).
    replace (b64_char (b mod 16 * 4 + c / 64) =? 61) with false by lia.
    replace (b64_char (c mod 64) =? 61) with false by lia.
    cbn [mbind outcome_bind app]. rewrite IH by done. cbn. f_equal.
    f_equal; [div_lia|]. f_equal; [div_lia|]. f_equal. div_lia.
Qed.

Lemma base64_encode_text l : bytes l -> Forall b64_text (base64_encode l).
Proof.
  induction l as [|a|a b|a b c l IH] using triple_ind; intros Hl; [constructor|..];
    repeat (apply Forall_cons in Hl as [? Hl]); unfold fits in *; cbn [base64_encode app];
    repeat apply Forall_cons_2; auto; try (apply b64_char_text; div_lia); try (unfold b64_text; lia);
    constructor.
Qed.

Lemma base64_encode_length l : (length (base64_encode l) mod 4 = 0)%nat.
Proof.
  induction l as [|a|a b|a b c l IH] using triple_ind; [done..|]. cbn [base64_encode app length].
  by rewrite (Nat.Div0.add_mod 4 (length (base64_encode l))), IH.
Qed.

Lemma base64_roundtrip l : bytes l -> base64_decode (base64_encode l) = Ok l.
Proof.
  intros Hl. unfold base64_decode. rewrite base64_encode_length. by apply base64_chunks_encode.
Qed.

Lemma starts_with_app p l : starts_with p (p ++ l) = true.
Proof. unfold starts_with. by rewrite take_app_length, bool_decide_true. Qed.

Lemma starts_with_head b p l :
  match l with [] => True | c :: _ => c <> b end -> starts_with (b :: p) l = false.
Proof.
  intros Hl. apply bool_decide_false. destruct l as [|c l]; cbn; [done|congruence].
Qed.

(** Text without the first character of the pattern is skipped. *)
Lemma find_sub_skip b p pre l :
  head p = Some b -> Forall (fun c => c <> b) pre ->
  find_sub p (pre ++ p ++ l) = Some (length pre).
Proof.
  destruct p as [|b' p]; [done|]. intros [= ->]. induction 1 as [|c pre Hc Hpre IH]; cbn [app].
  - pose proof (starts_with_app (b :: p) l) as Hs. cbn [app] in Hs.
    cbn [find_sub]. by rewrite Hs.
  - cbn [find_sub]. rewrite starts_with_head by done.
    cbn [app] in IH. by rewrite IH.
Qed.

Lemma find_sub_none b p pre :
  head p = Some b -> Forall (fun c => c <> b) pre -> find_sub p pre = None.
Proof.
  destruct p as [|b' p]; [done|]. intros [= ->]. induction 1 as [|c pre Hc Hpre IH]; cbn [find_sub]; rewrite starts_with_head by done; [done|].
  by rewrite IH.
Qed.

Lemma remove_whitespace_text l :
  Forall b64_text l -> remove_whitespace (l ++ [10]) = l.
Proof.
  unfold b64_text. induction 1 as [|b l Hb Hl IH]; [done|]. cbn [app remove_whitespace].
  replace (_ || _) with false by lia.
  destruct (l ++ [10]) as [|c s2] eqn:Hs; [by destruct l|].
  replace (b =? 194) with false by lia. cbn [andb]. destruct s2 as [|d s3]; [by rewrite IH|].
  replace (b =? 225) with false by lia. replace (b =? 226) with false by lia.
  replace (b =? 227) with false by lia. cbn [andb orb]. by rewrite IH.
Qed.

Lemma ascii_utf8 l : Forall (fun b => b < 128) l -> utf8_valid l = true.
Proof.
  induction 1 as [|b l Hb Hl IH]; [done|]. cbn [utf8_valid].
  by replace (b <? 128) with true by lia.
Qed.

Lemma pem_body_text l : bytes l -> Forall (fun c => c <> 45) ([10] ++ base64_encode l ++ [10]).
Proof.
  intros Hl. repeat apply Forall_app_2; try (repeat constructor; lia).
  eapply Forall_impl; [by apply base64_encode_text|]. unfold b64_text. lia.
Qed.

Lemma parse_pem_loop_ok ders pre fuel acc :
  Forall bytes ders -> Forall (fun c => c <> 45) pre -> (length ders < fuel)%nat ->
  parse_pem_loop fuel (pre ++ concat (pem_encode <$> ders)) acc = Ok (acc ++ ders).
Proof.
  intros Hd. revert pre fuel acc. induction Hd as [|der ders Hder Hd IH];
    intros pre [|fuel] acc Hpre Hf; try (cbn in Hf; lia); cbn [parse_pem_loop].
  - cbn [fmap list_fmap concat]. rewrite !app_nil_r. by rewrite (find_sub_none 45).
  - cbn [fmap list_fmap concat]. set (rest := concat (pem_encode <$> ders)) in *.
    unfold pem_encode. rewrite <- !app_assoc.
    rewrite (find_sub_skip 45 _ pre) by done.
    rewrite drop_app_ge, Nat.add_comm, Nat.add_sub, drop_app_length by lia.
    set (body := [10] ++ base64_encode der ++ [10]).
    replace ([10] ++ base64_encode der ++ [10] ++ PEM_END ++ [10] ++ rest)
      with (body ++ PEM_END ++ [10] ++ rest) by (unfold body; by rewrite <- !app_assoc).
    rewrite (find_sub_skip 45 _ body) by first [done | by apply pem_body_text].
    rewrite take_app_length.
    replace (remove_whitespace body) with (base64_encode der)
      by (symmetry; exact (remove_whitespace_text _ (base64_encode_text der Hder))).
    rewrite base64_roundtrip by done. cbn [mbind outcome_bind].
    rewrite drop_app_ge, Nat.add_comm, Nat.add_sub, drop_app_length by lia.
    rewrite IH; [by rewrite <- app_assoc|repeat constructor; lia|cbn in Hf; lia].
Qed.

Lemma pem_encode_ascii der : bytes der -> Forall (fun b => b < 128) (pem_encode der).
Proof.
  intros Hd. unfold pem_encode. repeat apply Forall_app_2;
    try (apply Forall_forall; intros x Hx; vm_compute in Hx;
         repeat (apply elem_of_cons in Hx as [->|Hx]; [lia|]); by apply elem_of_nil in Hx).
  eapply Forall_impl; [by apply base64_encode_text|]. unfold b64_text. lia.
Qed.

Lemma pem_encode_length der : (1 <= length (pem_encode der))%nat.
Proof. unfold pem_encode. rewrite length_app. cbn. lia. Qed.

Lemma concat_pem_length ders : (length ders <= length (concat (pem_encode <$> ders)))%nat.
Proof.
  induction ders as [|d l IH]; [done|]. rewrite fmap_cons. cbn [concat length].
  rewrite length_app. pose proof (pem_encode_length d). lia.
Qed.

(** A PEM bundle is read back as the certificates it was made from: every
    non-empty list of certificates, whatever their length modulo three, each
    written in base64 between its markers. *)
Theorem pem_roundtrip ders :
  Forall bytes ders -> ders <> [] ->
  parse_certificates (concat (pem_encode <$> ders)) = Ok ders.
Proof.
  intros Hd Hne. set (text := concat (pem_encode <$> ders)).
  assert (Ha : Forall (fun b => b < 128) text).
  { apply Forall_concat, Forall_fmap. eapply Forall_impl; [exact Hd|]. apply pem_encode_ascii. }
  unfold parse_certificates. replace (starts_with _ text) with true.
  - unfold parse_pem. rewrite ascii_utf8 by done. cbn [negb].
    pose proof (parse_pem_loop_ok ders [] (S (length text)) [] Hd) as Hloop.
    cbn [app] in Hloop. fold text in Hloop.
    pose proof (concat_pem_length ders) as Hlen. fold text in Hlen.
    rewrite Hloop; [|apply Forall_nil_2|lia].
    cbn [mbind outcome_bind]. by destruct ders.
  - destruct ders as [|d ders]; [done|]. by vm_compute.
Qed.

Lemma pem_roundtrip_witness :
  parse_certificates (concat (pem_encode <$> [[48; 130]; [1; 2; 3]; [7]]))
  = Ok [[48; 130]; [1; 2; 3]; [7]].
Proof.
  apply (pem_roundtrip [[48; 130]; [1; 2; 3]; [7]]); [|done].
  repeat constructor; unfold fits; lia.
Defined.

(** *** Totality *)

Lemma find_sub_bound p l n : find_sub p l = Some n -> (n + length p <= length l)%nat.
Proof.
  assert (Hs : forall l, starts_with p l = true -> (length p <= length l)%nat).
  { intros l' Ht%bool_decide_eq_true. rewrite <- Ht at 1. rewrite length_take. lia. }
  revert n. induction l as [|b l IH]; intros n; cbn [find_sub].
  - destruct (starts_with p []) eqn:Hp; [|done]. intros [= <-]. by apply Hs in Hp.
  - destruct (starts_with p (b :: l)) eqn:Hp; [intros [= <-]; by apply Hs in Hp|].
    destruct (find_sub p l) as [m|]; [|done]. intros [= <-]. specialize (IH m eq_refl). cbn. lia.
Qed.

Lemma b64_padded_returns b : returns (b64_padded b).
Proof. unfold b64_padded, b64_required. case_match; [done|apply returns_ok_or]. Qed.

Lemma b64_chunks_returns n l : (length l <= n)%nat -> returns (b64_chunks l).
Proof.
  revert l. induction n as [|n IH]; intros [|w [|x [|y [|z l]]]] Hl; try done; cbn in Hl; [lia|].
  cbn [b64_chunks]. apply returns_bind.
  - unfold b64_chunk. repeat (apply returns_bind; [apply returns_ok_or || apply b64_padded_returns|intros ??]).
    done.
  - intros o _. apply returns_bind; [apply IH; lia|done].
Qed.

Lemma base64_decode_returns l : returns (base64_decode l).
Proof. unfold base64_decode. case_match; [done|]. by eapply b64_chunks_returns. Qed.

Lemma parse_pem_loop_returns fuel rest acc :
  (length rest < fuel)%nat -> returns (parse_pem_loop fuel rest acc).
Proof.
  revert rest acc. induction fuel as [|fuel IH]; intros rest acc Hf; [lia|]. cbn [parse_pem_loop].
  destruct (find_sub PEM_BEGIN rest) as [start|] eqn:Hb; [|done]. apply find_sub_bound in Hb.
  case_match; [|done]. apply returns_bind; [apply base64_decode_returns|].
  intros der _. apply IH. rewrite !length_drop. change (length PEM_BEGIN) with 27%nat in *. lia.
Qed.

Lemma parse_certificates_returns data : returns (parse_certificates data).
Proof.
  unfold parse_certificates, parse_pem. repeat case_match; try done.
  apply returns_bind; [apply parse_pem_loop_returns; lia|]. by intros [|].
Qed.

Lemma parse_all_returns l : returns (parse_all l).
Proof.
  apply returns_bind; [apply returns_collect, parse_certificates_returns|done].
Qed.

Section cert_total.
Context `{CertLib}.

Lemma leaf_of_returns der : returns (leaf_of der).
Proof using Type. unfold leaf_of. by case_match. Qed.

Lemma verify_peer_returns time cas chain id role : returns (verify_peer time cas chain id role).
Proof using Type.
  unfold verify_peer. destruct chain as [|leaf rest]; [done|].
  apply returns_bind; [apply parse_all_returns|]. intros [|a l] _; [done|].
  apply returns_bind; [apply returns_collect; intros; unfold anchor_of; by case_match|].
  intros anchors _. apply returns_bind; [apply leaf_of_returns|]. intros e _.
  case_match; [done|]. unfold bind_identity. repeat case_match; done.
Qed.

Lemma verify_signature_returns chain m s a : returns (verify_signature chain m s a).
Proof using Type.
  unfold verify_signature. destruct chain; [done|].
  apply returns_bind; [apply leaf_of_returns|]. intros. repeat case_match; done.
Qed.

Lemma attempt_returns {A} (f : World -> World * option A) w : returns (attempt f w).2.
Proof using Type. unfold attempt. by destruct (f w). Qed.

Lemma sign_returns la s w : returns (sign la s w).2.
Proof using Type.
  unfold sign. case_match; try done;
    (apply st_bind_returns; [apply attempt_returns|]; intros a s';
     apply st_bind_returns; [apply returns_ok_or|done]).
Qed.

Lemma load_returns c w : returns (load c w).2.
Proof using Type.
  unfold load. apply st_bind_returns; [apply parse_all_returns|]. intros [|d l] s; [done|].
  apply st_bind_returns; [unfold lift, parse_private_key; cbn; by case_match|]. intros k s1.
  case_match; [done|]. apply st_bind_returns; [apply attempt_returns|]. intros [|] s2; [done|].
  apply st_bind_returns; [apply attempt_returns|]. intros [|] s3; [done|]. by case_match.
Qed.

End cert_total.

End AuthFacts.
