(* ===== verification/IkeEngine.v ===== *)
(** * The IKEv2 engine

    [src/src/ipsec/ikev2/engine.rs], the connection task, with the event and
    handle types of [src/src/ipsec/client.rs].  [Runner.t] is the source's struct
    with the world it runs in (sockets, clocks, randomness) and the events it has
    sent; the shared table of connection states is a map.  Every handler is a
    computation in the [st] monad over it.  The wait of [run] is the step relation
    [Engine.step].  Logging is left out; instants are in milliseconds, [SystemTime]
    in seconds, and a deadline past the range of its type panics. *)

From stdpp Require Import gmap.
From S2P Require Import Prelude Errors Net Eap EapTls IkeCodec TrafficSelector Identity IpsecConfig IkeProposals IkeCrypto IkeSa IkeWorld IkeTransport IkeAuth.

Definition NONCE_LEN : nat := 32.
Definition RETRANSMIT_TIMEOUT : Z := 2000.
Definition MAX_RETRANSMITS : Z := 6.

(** A configured duration, in seconds, as milliseconds. *)
Definition secs (d : Z) : Z := d * 1000.

(** ** Events ([client.rs]) *)

Inductive IpsecState := Idle | Connecting | Established | Rekeying | Failed | Closed.

#[global] Instance IpsecState_eq_dec : EqDecision IpsecState.
Proof. solve_decision. Defined.

Inductive ChildSaRemovalReason := PeerDelete | LocalDelete | Expired | PeerDead | Reconfigured.

Module IpsecLease.

Record t := mk {
  connection : string;
  peer_index : nat;
  xfrm_interface : option string;
  if_id : Z;
  reqid : Z;
  local_selectors : list TrafficSelector.t;
  remote_selectors : list TrafficSelector.t;
  local_inner_addresses : list IpNet.t;
  remote_inner_addresses : list IpNet.t;
  local_address : option IpAddr;
  remote_address : option IpAddr;
  nat_t : bool;
  dns : list IpAddr;
  expires_at : option Z;
}.

End IpsecLease.

Inductive IpsecEvent :=
| State (connection : string) (state : IpsecState)
| ChildSaReady (connection : string) (peer_index : nat) (child : ChildSaHandle.t)
    (lease : IpsecLease.t)
| ChildSaRefreshed (connection : string) (peer_index : nat) (child : ChildSaHandle.t)
    (lease : IpsecLease.t)
| ChildSaRemoved (connection : string) (peer_index : nat) (reason : ChildSaRemovalReason)
| Error (connection : string) (error : IpsecError.t).

Definition error_event (connection : string) (error : IpsecError.t) : IpsecEvent :=
  Error connection (IpsecError.with_connection error connection).

(** ** The state of a connection *)

Inductive Phase := Init | SaInitSent | AuthSent | EapAuth | PhaseEstablished | PhaseClosed.

#[global] Instance Phase_eq_dec : EqDecision Phase.
Proof. solve_decision. Defined.

Module PendingSaInit.

Section pending.
Context `{IkeWorld}.

Record t := mk {
  private : DhKeyPair;
  nonce : list Z;
  proposals : list IkeProposal.t;
  real_message1 : list Z;
  local_spi : Z;
  local_address : IpAddr;
  local_port : Z;
}.

End pending.

End PendingSaInit.

Module PendingRekey.

Section pending.
Context `{IkeWorld}.

Record t := mk {
  private : option DhKeyPair;
  nonce_i : list Z;
  local_spi : Z;
  suite : ChildProposal.t;
}.

End pending.

End PendingRekey.

Record ChildRuntime := mkChildRuntime { handle : ChildSaHandle.t }.

Module IkeRuntime.

Record t := mk {
  role : Role;
  local_spi : Z;
  remote_spi : Z;
  keys : IkeKeys.t;
  suite : IkeProposal.t;
  nonce_i : list Z;
  nonce_r : list Z;
  real_message1 : list Z;
  real_message2 : list Z;
  local_child_spi : Z;
  child : option ChildRuntime;
  inner_addresses : list IpNet.t;
  dns : list IpAddr;
}.

Definition put_child (child' : option ChildRuntime) (i : t) : t :=
  mk (role i) (local_spi i) (remote_spi i) (keys i) (suite i) (nonce_i i) (nonce_r i)
    (real_message1 i) (real_message2 i) (local_child_spi i) child' (inner_addresses i)
    (dns i).
Definition put_addresses (inner_addresses' : list IpNet.t) (dns' : list IpAddr) (i : t) : t :=
  mk (role i) (local_spi i) (remote_spi i) (keys i) (suite i) (nonce_i i) (nonce_r i)
    (real_message1 i) (real_message2 i) (local_child_spi i) (child i) inner_addresses'
    dns'.

End IkeRuntime.

Module Runner.

Section runner.
Context `{IkeWorld} `{!EapTlsSetup}.

Record t := mk {
  world : World;
  config : IpsecConfig.t;
  events : list IpsecEvent;
  states : gmap string IpsecState;
  transport : IkeTransport.t;
  phase : Phase;
  ike : option IkeRuntime.t;
  peer_index : nat;
  retransmit : option Retransmit.t;
  next_message_id : Z;
  pending_sa_init : option PendingSaInit.t;
  eap : option EapSession;
  dpd_deadline : option Z;
  dpd_failures : Z;
  rekey_deadline : option Z;
  pending_rekey : option PendingRekey.t;
  started : bool;
}.

Definition put_world (x : World) (s : t) : t :=
  mk x (config s) (events s) (states s) (transport s) (phase s) (ike s) (peer_index s)
    (retransmit s) (next_message_id s) (pending_sa_init s) (eap s) (dpd_deadline s)
    (dpd_failures s) (rekey_deadline s) (pending_rekey s) (started s).
Definition put_events (x : list IpsecEvent) (s : t) : t :=
  mk (world s) (config s) x (states s) (transport s) (phase s) (ike s) (peer_index s)
    (retransmit s) (next_message_id s) (pending_sa_init s) (eap s) (dpd_deadline s)
    (dpd_failures s) (rekey_deadline s) (pending_rekey s) (started s).
Definition put_states (x : gmap string IpsecState) (s : t) : t :=
  mk (world s) (config s) (events s) x (transport s) (phase s) (ike s) (peer_index s)
    (retransmit s) (next_message_id s) (pending_sa_init s) (eap s) (dpd_deadline s)
    (dpd_failures s) (rekey_deadline s) (pending_rekey s) (started s).
Definition put_transport (x : IkeTransport.t) (s : t) : t :=
  mk (world s) (config s) (events s) (states s) x (phase s) (ike s) (peer_index s)
    (retransmit s) (next_message_id s) (pending_sa_init s) (eap s) (dpd_deadline s)
    (dpd_failures s) (rekey_deadline s) (pending_rekey s) (started s).
Definition put_phase (x : Phase) (s : t) : t :=
  mk (world s) (config s) (events s) (states s) (transport s) x (ike s) (peer_index s)
    (retransmit s) (next_message_id s) (pending_sa_init s) (eap s) (dpd_deadline s)
    (dpd_failures s) (rekey_deadline s) (pending_rekey s) (started s).
Definition put_ike (x : option IkeRuntime.t) (s : t) : t :=
  mk (world s) (config s) (events s) (states s) (transport s) (phase s) x (peer_index s)
    (retransmit s) (next_message_id s) (pending_sa_init s) (eap s) (dpd_deadline s)
    (dpd_failures s) (rekey_deadline s) (pending_rekey s) (started s).
Definition put_peer_index (x : nat) (s : t) : t :=
  mk (world s) (config s) (events s) (states s) (transport s) (phase s) (ike s) x
    (retransmit s) (next_message_id s) (pending_sa_init s) (eap s) (dpd_deadline s)
    (dpd_failures s) (rekey_deadline s) (pending_rekey s) (started s).
Definition put_retransmit (x : option Retransmit.t) (s : t) : t :=
  mk (world s) (config s) (events s) (states s) (transport s) (phase s) (ike s)
    (peer_index s) x (next_message_id s) (pending_sa_init s) (eap s) (dpd_deadline s)
    (dpd_failures s) (rekey_deadline s) (pending_rekey s) (started s).
Definition put_next_message_id (x : Z) (s : t) : t :=
  mk (world s) (config s) (events s) (states s) (transport s) (phase s) (ike s)
    (peer_index s) (retransmit s) x (pending_sa_init s) (eap s) (dpd_deadline s)
    (dpd_failures s) (rekey_deadline s) (pending_rekey s) (started s).
Definition put_pending_sa_init (x : option PendingSaInit.t) (s : t) : t :=
  mk (world s) (config s) (events s) (states s) (transport s) (phase s) (ike s)
    (peer_index s) (retransmit s) (next_message_id s) x (eap s) (dpd_deadline s)
    (dpd_failures s) (rekey_deadline s) (pending_rekey s) (started s).
Definition put_eap (x : option EapSession) (s : t) : t :=
  mk (world s) (config s) (events s) (states s) (transport s) (phase s) (ike s)
    (peer_index s) (retransmit s) (next_message_id s) (pending_sa_init s) x
    (dpd_deadline s) (dpd_failures s) (rekey_deadline s) (pending_rekey s) (started s).
Definition put_dpd_deadline (x : option Z) (s : t) : t :=
  mk (world s) (config s) (events s) (states s) (transport s) (phase s) (ike s)
    (peer_index s) (retransmit s) (next_message_id s) (pending_sa_init s) (eap s) x
    (dpd_failures s) (rekey_deadline s) (pending_rekey s) (started s).
Definition put_dpd_failures (x : Z) (s : t) : t :=
  mk (world s) (config s) (events s) (states s) (transport s) (phase s) (ike s)
    (peer_index s) (retransmit s) (next_message_id s) (pending_sa_init s) (eap s)
    (dpd_deadline s) x (rekey_deadline s) (pending_rekey s) (started s).
Definition put_rekey_deadline (x : option Z) (s : t) : t :=
  mk (world s) (config s) (events s) (states s) (transport s) (phase s) (ike s)
    (peer_index s) (retransmit s) (next_message_id s) (pending_sa_init s) (eap s)
    (dpd_deadline s) (dpd_failures s) x (pending_rekey s) (started s).
Definition put_pending_rekey (x : option PendingRekey.t) (s : t) : t :=
  mk (world s) (config s) (events s) (states s) (transport s) (phase s) (ike s)
    (peer_index s) (retransmit s) (next_message_id s) (pending_sa_init s) (eap s)
    (dpd_deadline s) (dpd_failures s) (rekey_deadline s) x (started s).
Definition put_started (x : bool) (s : t) : t :=
  mk (world s) (config s) (events s) (states s) (transport s) (phase s) (ike s)
    (peer_index s) (retransmit s) (next_message_id s) (pending_sa_init s) (eap s)
    (dpd_deadline s) (dpd_failures s) (rekey_deadline s) (pending_rekey s) x.

End runner.

End Runner.

(** ** Looking into payloads *)

Definition first_sa (l : list Payload) : option (list Proposal) :=
  head (omap (fun p => match p with Sa x => Some x | _ => None end) l).
Definition first_nonce (l : list Payload) : option (list Z) :=
  head (omap (fun p => match p with Nonce x => Some x | _ => None end) l).
Definition first_ke (l : list Payload) : option (Z * list Z) :=
  head (omap (fun p => match p with Ke g x => Some (g, x) | _ => None end) l).
Definition first_eap (l : list Payload) : option (list Z) :=
  head (omap (fun p => match p with IkeCodec.Eap x => Some x | _ => None end) l).
Definition first_auth (l : list Payload) : option (Z * list Z) :=
  head (omap (fun p => match p with Auth m x => Some (m, x) | _ => None end) l).
(** [Payload::Auth { method, data } if *method == AUTH_PSK]. *)
Definition first_psk_auth (l : list Payload) : option (list Z) :=
  head (omap (fun p => match p with
                       | Auth m x => if m =? AUTH_PSK then Some x else None
                       | _ => None end) l).

Definition find_id (l : list Payload) (initiator : bool) : option Payload :=
  List.find (fun p => match p with Id i _ _ => Bool.eqb i initiator | _ => false end) l.

Definition initiator_id_identity (p : Payload) : outcome IpsecError.t Identity.t :=
  match p with
  | Id _ id_type data => Identity.decode id_type data
  | _ => ike_err "expected an identification payload"
  end.

Definition id_payload_body (p : Payload) : list Z :=
  match p with
  | Id _ id_type data => [id_type] ++ [0; 0; 0] ++ data
  | _ => []
  end.

Definition certificate_chain (l : list Payload) : list (list Z) :=
  omap (fun p => match p with Cert e data => if e =? 4 then Some data else None
                            | _ => None end) l.

(** [proposal.spi.get(..4)] as an integer. *)
Definition spi_of (p : Proposal) : option Z :=
  if (4 <=? length (spi p))%nat then Some (from_be (take 4 (spi p))) else None.

(** The SPI of the ESP proposal with a number. *)
Definition esp_spi (sa : list Proposal) (n : Z) : option Z :=
  p ← List.find (fun p => (number p =? n) && (protocol p =? protocol_id.ESP)) sa;
  spi_of p.

(** The attributes of one Configuration payload. *)
Definition config_attribute (acc : list IpNet.t * list IpAddr) (a : ConfigAttribute)
  : list IpNet.t * list IpAddr :=
  let '(addresses, dns) := acc in
  let v := cfg_value a in
  let net address prefix :=
    match IpNet.new (ip_string address) address prefix with Ok n => [n] | _ => [] end in
  if (cfg_type a =? 1) && (length v =? 4)%nat then (addresses ++ net (V4 v) 32, dns)
  else if (cfg_type a =? 8) && (16 <=? length v)%nat
  then (addresses ++ net (V6 (take 16 v)) 128, dns)
  else if (cfg_type a =? 3) && (length v =? 4)%nat then (addresses, dns ++ [V4 v])
  else if (cfg_type a =? 10) && (16 <=? length v)%nat
  then (addresses, dns ++ [V6 (take 16 v)])
  else (addresses, dns).

Definition parse_config_payload (l : list Payload) : list IpNet.t * list IpAddr :=
  foldl (fun acc p => match p with
                      | IkeCodec.Config attributes => foldl config_attribute acc attributes
                      | _ => acc end) ([], []) l.

(** FNV-1a over the octets of the name, never zero. *)
Definition stable_id (name : string) : Z :=
  Z.max 1 (foldl (fun hash b => as_u32 (Z.lxor hash b * 16777619)) 2166136261 (as_bytes name)).

#[global] Instance CertificateConfig_eq_dec : EqDecision CertificateConfig.
Proof. solve_decision. Defined.
#[global] Instance EapTlsConfig_eq_dec : EqDecision EapTlsConfig.
Proof. solve_decision. Defined.
#[global] Instance AuthConfig_eq_dec : EqDecision AuthConfig.
Proof. solve_decision. Defined.
#[global] Instance RemoteConfig_eq_dec : EqDecision RemoteConfig.
Proof. solve_decision. Defined.
#[global] Instance SelectorPair_eq_dec : EqDecision TrafficSelectorPair.t.
Proof. solve_decision. Defined.
#[global] Instance PeerConfig_eq_dec : EqDecision PeerConfig.
Proof. solve_decision. Defined.

(** [Iterator::position]. *)
Fixpoint index_of {A} (f : A -> bool) (l : list A) : option nat :=
  match l with
  | [] => None
  | x :: l => if f x then Some 0%nat else S <$> index_of f l
  end.

Module Engine.
Import Runner.

Section engine.
Context `{IkeWorld} `{!EapTlsSetup} `{!CertLib} `{CryptoLib}.

Abbreviation method := (st Runner.t IpsecError.t).

Definition gets {A} (f : Runner.t -> A) : method A := fun s => (s, Ok (f s)).
Definition require {A} (o : option A) (e : IpsecError.t) : method A := lift (ok_or o e).

(** A call on the world, and a method of the transport. *)
Definition on_world {A} (m : io A) : method A :=
  fun s => let '(w, r) := m (world s) in (put_world w s, r).

Definition on_transport {A} (m : st (World * IkeTransport.t) IpsecError.t A) : method A :=
  fun s => let '((w, t), r) := m (world s, transport s) in
           (put_transport t (put_world w s), r).

(** The outcome of a call as a value: [let Ok(..) = ..] or [let _ = ..]. *)
Definition try_ {A} (m : method A) : method (option A) :=
  fun s => match m s with
           | (s', Ok a) => (s', Ok (Some a))
           | (s', Err _) => (s', Ok None)
           | (s', Panic) => (s', Panic)
           | (s', Diverge) => (s', Diverge)
           end.

Definition now : method Z := on_world (read_clock instant_now).

(** [Instant::now() + d]. *)
Definition after (d : Z) : method Z := t ← now; lift (instant_add t d).

Definition push_event (e : IpsecEvent) : method unit :=
  modify (fun s => put_events (events s ++ [e]) s).

Definition set_state (state : IpsecState) : method unit :=
  modify (fun s =>
    let name := IpsecConfig.name (config s) in
    put_events (events s ++ [State name state])
      (put_states (<[name := state]> (states s)) s)).

Definition report_error (error : IpsecError.t) : method unit :=
  s ← get; push_event (error_event (IpsecConfig.name (config s)) error).

Definition send (message : list Z) : method unit :=
  s ← get; on_world (IkeTransport.send (transport s) message).

(** [self.retransmit = Some(Retransmit::new(message, timeout, max))]. *)
Definition arm_retransmit (message : list Z) (timeout max : Z) : method unit :=
  t ← now; r ← lift (Retransmit.new message timeout max t); modify (put_retransmit (Some r)).

(** [self.config.dpd.timeout.max(RETRANSMIT_TIMEOUT)]. *)
Definition exchange_timeout (s : Runner.t) : Z :=
  Z.max (secs (dpd_timeout (IpsecConfig.dpd (config s)))) RETRANSMIT_TIMEOUT.

Definition arm_exchange (message : list Z) : method unit :=
  s ← get; arm_retransmit message (exchange_timeout s) MAX_RETRANSMITS.

(** ** Headers, sealing and opening *)

Definition header_for (s : Runner.t) (exchange : ExchangeType.t) (message_id : Z)
  (request : bool) : IkeHeader.t :=
  let '(spi_i, spi_r, initiator) :=
    match ike s with
    | Some ike =>
        if bool_decide (IkeRuntime.role ike = Initiator)
        then (IkeRuntime.local_spi ike, IkeRuntime.remote_spi ike, true)
        else (IkeRuntime.remote_spi ike, IkeRuntime.local_spi ike, false)
    | None => (0, 0, bool_decide (is_Some (pending_sa_init s)))
    end in
  let flags := if initiator then FLAG_INITIATOR else 0 in
  let flags := if request then flags else Z.lor flags FLAG_RESPONSE in
  IkeHeader.new spi_i spi_r exchange flags message_id.

(** The IV [seal_message] draws, once the payloads are encoded. *)
Definition draw_iv (payloads : list Payload) (n : nat)
  : method (nat -> outcome IpsecError.t (list Z)) :=
  match encode_chain payloads with
  | Ok _ => fun s => let '(w, r) := random_bytes n (world s) in
                     (put_world w s, Ok (fun _ => r))
  | _ => mret (fun _ => Err (IpsecError.internal "random: not reached"))
  end.

Definition seal (header : IkeHeader.t) (payloads : list Payload) : method (list Z) :=
  s ← get;
  ike ← require (ike s) (IpsecError.internal "no IKE SA");
  let suite := IkeRuntime.suite ike in
  random ← draw_iv payloads (EncryptionAlgorithm.iv_len (IkeProposal.encryption suite));
  lift (seal_message random header payloads (IkeProposal.encryption suite)
          (IkeProposal.integrity suite)
          (IkeKeys.outbound_encryption (IkeRuntime.keys ike) (IkeRuntime.role ike))
          (IkeKeys.outbound_integrity (IkeRuntime.keys ike) (IkeRuntime.role ike))).

Definition open_encrypted (s : Runner.t) (message : Message.t)
  : outcome IpsecError.t (list Payload) :=
  ike ← ok_or (ike s) (IpsecError.ike "encrypted message before IKE SA was created");
  payload ← ok_or (head (Message.payloads message))
              (IpsecError.ike "empty encrypted IKE message");
  let suite := IkeRuntime.suite ike in
  open_message (Message.header message) payload (IkeProposal.encryption suite)
    (IkeProposal.integrity suite)
    (IkeKeys.inbound_encryption (IkeRuntime.keys ike) (IkeRuntime.role ike))
    (IkeKeys.inbound_integrity (IkeRuntime.keys ike) (IkeRuntime.role ike)).

(** ** Identities *)

Definition local_id_payload (s : Runner.t) (initiator : bool) : Payload :=
  let identity := local_identity (IpsecConfig.local (config s)) in
  match identity with
  | Identity.Any => Id initiator 2 (as_bytes "localhost")
  | _ => Id initiator (default 2 (Identity.id_type identity))
           (match Identity.encode identity with Ok data => data | _ => [] end)
  end.

Definition local_id_body (s : Runner.t) : outcome IpsecError.t (list Z) :=
  let identity := local_identity (IpsecConfig.local (config s)) in
  let id_type := default 2 (Identity.id_type identity) in
  data ← (if Identity.is_wildcard identity then Ok (as_bytes "localhost")
          else Identity.encode identity);
  Ok ([id_type] ++ [0; 0; 0] ++ data).

(** The octets AUTH covers, for the initiator and for the responder. *)
Definition signed_i (ike : IkeRuntime.t) (id_body : list Z) : list Z :=
  auth_signed_octets (IkeRuntime.real_message1 ike) (IkeRuntime.nonce_r ike)
    (IkeProposal.prf (IkeRuntime.suite ike)) (IkeKeys.sk_pi (IkeRuntime.keys ike)) id_body.

Definition signed_r (ike : IkeRuntime.t) (id_body : list Z) : list Z :=
  auth_signed_octets (IkeRuntime.real_message2 ike) (IkeRuntime.nonce_i ike)
    (IkeProposal.prf (IkeRuntime.suite ike)) (IkeKeys.sk_pr (IkeRuntime.keys ike)) id_body.

Definition the_ike : method IkeRuntime.t := s ← get; lift (unwrap (ike s)).

(** [self.config.peers.get(self.peer_index)]. *)
Definition current_peer (s : Runner.t) : option PeerConfig :=
  IpsecConfig.peers (config s) !! peer_index s.

(** ** Installing and removing a Child SA *)

Definition lease (s : Runner.t) (handle : ChildSaHandle.t) (expires_at : Z) : IpsecLease.t :=
  let '(local_inner, dns) :=
    match ike s with
    | Some ike => (IkeRuntime.inner_addresses ike, IkeRuntime.dns ike)
    | None => ([], [])
    end in
  let nets l := omap (fun x => selector_to_net (ip_string (TrafficSelector.start x)) x) l in
  let local_inner :=
    match local_inner with
    | [] => nets (ChildSaHandle.local_selectors handle)
    | _ => local_inner
    end in
  let c := config s in
  let name := IpsecConfig.name c in
  IpsecLease.mk name (peer_index s) (xfrm_interface (IpsecConfig.xfrm c))
    (default (stable_id name) (if_id (IpsecConfig.xfrm c)))
    (default (as_u32 (stable_id name + 1)) (reqid (IpsecConfig.xfrm c)))
    (ChildSaHandle.local_selectors handle) (ChildSaHandle.remote_selectors handle)
    local_inner (nets (ChildSaHandle.remote_selectors handle))
    (local_address (IpsecConfig.local c))
    (match current_peer s ≫= (fun p => remote_address (remote p)) with
     | Some a => Some a
     | None => Some (SocketAddr.ip (IkeTransport.remote (transport s)))
     end)
    (IkeTransport.encapsulated (transport s)) dns
    (Some expires_at).

(** [child_margin_percent.clamp(1, 99)] of the lifetime. *)
Definition rekey_after (s : Runner.t) : Z :=
  mul_percent (secs (child_lifetime (IpsecConfig.child (config s))))
    (Z.max 1 (Z.min 99 (child_margin_percent (IpsecConfig.rekey (config s))))).

Definition install_child (handle : ChildSaHandle.t) : method unit :=
  t ← on_world (read_clock system_now);
  s ← get;
  expires_at ← lift (system_add t (child_lifetime (IpsecConfig.child (config s))));
  let l := lease s handle expires_at in
  let connection := IpsecConfig.name (config s) in
  (match ike s with
   | Some ike =>
       modify (put_ike (Some (IkeRuntime.put_child (Some (mkChildRuntime handle)) ike)));;
       push_event
         (if bool_decide (is_Some (IkeRuntime.child ike))
          then ChildSaRefreshed connection (peer_index s) handle l
          else ChildSaReady connection (peer_index s) handle l)
   | None => mret tt
   end);;
  modify (put_phase PhaseEstablished);;
  modify (put_retransmit None);;
  set_state Established;;
  (if dpd_enabled (IpsecConfig.dpd (config s))
   then t ← after (secs (dpd_interval (IpsecConfig.dpd (config s))));
        modify (put_dpd_deadline (Some t))
   else mret tt);;
  t ← after (rekey_after s);
  modify (put_rekey_deadline (Some t)).

Definition remove_child (reason : ChildSaRemovalReason) : method unit :=
  modify (fun s => put_ike (IkeRuntime.put_child None <$> ike s) s);;
  s ← get;
  push_event (ChildSaRemoved (IpsecConfig.name (config s)) (peer_index s) reason).

(** ** IKE_SA_INIT *)

Definition nat_notify (notify_type : Z) (hash : list Z) : Payload :=
  Notify protocol_id.IKE [] notify_type hash.

(** [self.config.local.address], or the address the route to [remote] uses. *)
Definition source_address (remote : SocketAddr.t) : method IpAddr :=
  s ← get;
  match local_address (IpsecConfig.local (config s)) with
  | Some address => mret address
  | None => on_world (IkeTransport.route_source_ip (transport s) remote)
  end.

Definition own_port : method Z :=
  s ← get; a ← on_world (IkeTransport.local_addr (transport s)); mret (SocketAddr.port a).

(** The payloads of [send_sa_init]. *)
Definition sa_init_payloads (proposals : list IkeProposal.t) (key_pair : DhKeyPair)
  (dh : DhGroup.t) (nonce : list Z) (local_spi : Z) (source : IpAddr) (local_port : Z)
  (remote : SocketAddr.t) : list Payload :=
  [Sa (build_ike proposals);
   Ke (DhGroup.transform_id dh) (dh_public key_pair);
   Nonce nonce;
   nat_notify notify_type.NAT_DETECTION_SOURCE_IP
     (nat_detection_hash local_spi 0 source local_port);
   nat_notify notify_type.NAT_DETECTION_DESTINATION_IP
     (nat_detection_hash local_spi 0 (SocketAddr.ip remote) (SocketAddr.port remote))].

Definition send_sa_init : method unit :=
  s ← get;
  peer ← require (current_peer s) (IpsecError.config "peer index out of range");
  let proposals := ike_proposals (IpsecConfig.ike (config s)) in
  let dh := match proposals with p :: _ => IkeProposal.dh p | [] => DhGroup.Ecp256 end in
  key_pair ← on_world (dh_generate dh);
  nonce ← on_world (random_bytes NONCE_LEN);
  local_spi ← on_world random_u64;
  source ← source_address (IkeTransport.remote (transport s));
  port ← own_port;
  let payloads := sa_init_payloads proposals key_pair dh nonce local_spi source port
                    (IkeTransport.remote (transport s)) in
  match remote_address (remote peer) with
  | None => mret tt
  | Some _ =>
      let header := IkeHeader.new local_spi 0 ExchangeType.IkeSaInit FLAG_INITIATOR 0 in
      message ← lift (Message.encode (Message.new header payloads));
      send message;;
      modify (put_pending_sa_init
        (Some (PendingSaInit.mk key_pair nonce proposals message local_spi source port)));;
      arm_exchange message;;
      modify (put_phase SaInitSent)
  end.

Definition send_plain_notify (initiator_spi responder_spi message_id notify_type : Z)
  (data : list Z) : method unit :=
  let header := IkeHeader.new initiator_spi responder_spi ExchangeType.IkeSaInit
                  FLAG_RESPONSE message_id in
  message ← lift (Message.encode
    (Message.new header [Notify protocol_id.IKE [] notify_type data]));
  send message.

(** The suite of an IKE_SA_INIT request, its nonce and the peer's public value. *)
Definition sa_init_suite (message : Message.t) : method (IkeProposal.t * Z * list Z * list Z) :=
  s ← get;
  sa ← require (Message.payload message payload_type.SA)
         (IpsecError.ike "IKE_SA_INIT without SA payload");
  offers ← lift (match sa with Sa offers => Ok offers | _ => ike_err "malformed SA payload" end);
  x ← lift (select_ike (ike_proposals (IpsecConfig.ike (config s))) offers);
  let '(suite, proposal_number) := x in
  ke ← require (Message.payload message payload_type.KE)
         (IpsecError.ike "IKE_SA_INIT without KE payload");
  y ← lift (match ke with Ke g d => Ok (g, d) | _ => ike_err "malformed KE payload" end);
  let '(group, peer_public) := y in
  (if negb (group =? DhGroup.transform_id (IkeProposal.dh suite)) then
     send_plain_notify (IkeHeader.initiator_spi (Message.header message)) 0 0
       notify_type.INVALID_KE_PAYLOAD (to_be 2 (DhGroup.transform_id (IkeProposal.dh suite)));;
     throw (IpsecError.new IpsecError.Proposal "peer used an unexpected DH group")
   else mret tt);;
  nonce_i ← lift (match Message.payload message payload_type.NONCE with
                  | Some (Nonce ((_ :: _) as nonce)) => Ok nonce
                  | _ => ike_err "IKE_SA_INIT without a nonce"
                  end);
  mret (suite, proposal_number, peer_public, nonce_i).

(** The payloads of the IKE_SA_INIT response. *)
Definition sa_init_response_payloads (suite : IkeProposal.t) (proposal_number : Z)
  (public nonce_r : list Z) (spi_i spi_r : Z) (local_address : IpAddr) (local_port : Z)
  (source : SocketAddr.t) : list Payload :=
  [Sa [mkProposal proposal_number protocol_id.IKE []
         (ike_transforms (IkeProposal.encryption suite) (IkeProposal.prf suite)
            (IkeProposal.integrity suite) (IkeProposal.dh suite))];
   Ke (DhGroup.transform_id (IkeProposal.dh suite)) public;
   Nonce nonce_r;
   nat_notify notify_type.NAT_DETECTION_SOURCE_IP
     (nat_detection_hash spi_i spi_r local_address local_port);
   nat_notify notify_type.NAT_DETECTION_DESTINATION_IP
     (nat_detection_hash spi_i spi_r (SocketAddr.ip source) (SocketAddr.port source))].

Definition peer_accepts (source : SocketAddr.t) (p : PeerConfig) : bool :=
  match remote_address (remote p) with
  | None => true
  | Some a => bool_decide (a = SocketAddr.ip source)
  end.

Definition handle_sa_init_request (raw : list Z) (source : SocketAddr.t)
  (message : Message.t) : method unit :=
  s ← get;
  if bool_decide (is_Some (ike s)) then mret tt else
  let peers := IpsecConfig.peers (config s) in
  peer ← require (List.find (peer_accepts source) peers)
           (IpsecError.authentication "no configured peer for IKE_SA_INIT");
  modify (fun s => put_transport (IkeTransport.set_remote source (transport s)) s);;
  x ← sa_init_suite message;
  let '(suite, proposal_number, peer_public, nonce_i) := x in
  private ← on_world (dh_generate (IkeProposal.dh suite));
  shared ← lift (dh_agree private peer_public);
  let spi_i := IkeHeader.initiator_spi (Message.header message) in
  remote_spi ← on_world random_u64;
  nonce_r ← on_world (random_bytes NONCE_LEN);
  keys ← lift (IkeKeys.derive (IkeProposal.prf suite) shared nonce_i nonce_r spi_i remote_spi
                 (IkeProposal.encryption suite) (IkeProposal.integrity suite));
  local_address ← source_address source;
  local_port ← own_port;
  let payloads := sa_init_response_payloads suite proposal_number (dh_public private) nonce_r
                    spi_i remote_spi local_address local_port source in
  let header := IkeHeader.new spi_i remote_spi ExchangeType.IkeSaInit FLAG_RESPONSE 0 in
  response ← lift (Message.encode (Message.new header payloads));
  send response;;
  arm_exchange response;;
  modify (put_ike (Some (IkeRuntime.mk Responder remote_spi spi_i keys suite nonce_i nonce_r
                           raw response 0 None [] [])));;
  modify (fun s => put_peer_index
    (default (peer_index s) (index_of (fun c => bool_decide (c = peer)) peers)) s);;
  modify (put_phase AuthSent);;
  set_state Connecting.

(** The suite, the nonce and the public value of an IKE_SA_INIT response. *)
Definition sa_init_answer (offered : list IkeProposal.t) (message : Message.t)
  : outcome IpsecError.t (IkeProposal.t * list Z * list Z) :=
  sa ← ok_or (Message.payload message payload_type.SA)
         (IpsecError.ike "IKE_SA_INIT response without SA");
  proposals ← match sa with Sa l => Ok l | _ => ike_err "malformed SA payload" end;
  suite ← parse_selected_ike proposals;
  if negb (bool_decide (suite ∈ offered)) then
    Err (IpsecError.new IpsecError.Proposal "peer selected an IKE proposal that was not offered")
  else
  ke ← ok_or (Message.payload message payload_type.KE)
         (IpsecError.ike "IKE_SA_INIT response without KE");
  y ← match ke with Ke g d => Ok (g, d) | _ => ike_err "malformed KE payload" end;
  let '(group, peer_public) := (y : Z * list Z) in
  if negb (group =? DhGroup.transform_id (IkeProposal.dh suite)) then
    Err (IpsecError.new IpsecError.Proposal "peer selected an unexpected DH group")
  else
  match Message.payload message payload_type.NONCE with
  | Some (Nonce ((_ :: _) as nonce)) => Ok (suite, peer_public, nonce)
  | _ => ike_err "IKE_SA_INIT response without a nonce"
  end.

(** [nat_detected]: a NAT detection hash that does not match. *)
Definition nat_detected (message : Message.t) (local_spi remote_spi : Z)
  (source : SocketAddr.t) (local_address : IpAddr) (local_port : Z) : bool :=
  existsb (fun p =>
    match p with
    | Notify _ _ notify data =>
        if notify =? notify_type.NAT_DETECTION_SOURCE_IP
        then negb (nat_detection_matches data local_spi remote_spi (SocketAddr.ip source)
                     (SocketAddr.port source))
        else if notify =? notify_type.NAT_DETECTION_DESTINATION_IP
        then negb (nat_detection_matches data local_spi remote_spi local_address local_port)
        else false
    | _ => false
    end) (Message.payloads message).

(** ** IKE_AUTH *)

(** The AUTH payloads of this end: its certificates and the AUTH value over
    [signed]; [None] when the peer is configured for EAP. *)
Definition certificate_auth (config : CertificateConfig) (requests : list Payload)
  (signed : IkeRuntime.t -> list Z) : method (list Payload) :=
  local ← on_world (load config);
  ike ← the_ike;
  x ← on_world (sign local (signed ike));
  let '(method_, signature) := x in
  mret (certificate_payloads (la_chain local) ++ requests ++ [Auth method_ signature]).

Definition psk_auth (secret : list Z) (signed : IkeRuntime.t -> list Z)
  : method (list Payload) :=
  ike ← the_ike;
  mret [Auth AUTH_PSK (psk_compute secret (IkeProposal.prf (IkeRuntime.suite ike)) (signed ike))].

(** The [match &peer.auth] of [send_auth]. *)
Definition initiator_auth (auth : AuthConfig) (id_body : list Z)
  : method (list Payload * bool) :=
  match auth with
  | Psk secret => l ← psk_auth secret (fun ike => signed_i ike id_body); mret (l, false)
  | Certificate config =>
      l ← certificate_auth config (CertReq 4 <$> certificate_requests config)
            (fun ike => signed_i ike id_body);
      mret (l, false)
  | EapTls config =>
      session ← on_world (eap_session_new config);
      modify (put_eap (Some session));;
      mret ([], true)
  end.

(** The Configuration request of [send_auth]. *)
Definition config_request (s : Runner.t) : list Payload :=
  let local := IpsecConfig.local (config s) in
  if request_inner_address local || request_dns local then
    [IkeCodec.Config
       ((if request_inner_address local then
           [mkConfigAttribute
              (match current_peer s ≫= (fun p => remote_address (remote p)) with
               | Some (V6 _) => 8
               | _ => 1
               end) []]
         else [])
        ++ (if request_dns local then [mkConfigAttribute 3 []; mkConfigAttribute 10 []]
            else []))]
  else [].

(** [self.config.peers[self.peer_index].selectors]. *)
Definition peer_selectors : method TrafficSelectorPair.t :=
  s ← get; p ← lift (idx (IpsecConfig.peers (config s)) (peer_index s)); mret (selectors p).

Definition send_auth : method unit :=
  s ← get;
  peer ← require (current_peer s) (IpsecError.config "peer index out of range");
  ike ← the_ike;
  id_body ← lift (local_id_body s);
  x ← initiator_auth (auth peer) id_body;
  let '(auth_payloads, eap_mode) := x in
  pair ← peer_selectors;
  let payloads :=
    [local_id_payload s true] ++ auth_payloads ++ config_request s
    ++ [Sa (build_esp (child_proposals (IpsecConfig.child (config s)))
              (IkeRuntime.local_child_spi ike) false)]
    ++ request_ts pair in
  modify (put_next_message_id 2);;
  s ← get;
  encrypted ← seal (header_for s ExchangeType.IkeAuth 1 true) payloads;
  send encrypted;;
  arm_exchange encrypted;;
  modify (put_phase (if eap_mode : bool then EapAuth else AuthSent)).

Definition handle_sa_init_response (raw : list Z) (source : SocketAddr.t)
  (message : Message.t) : method unit :=
  s ← get;
  modify (put_pending_sa_init None);;
  pending ← require (pending_sa_init s) (IpsecError.internal "unexpected IKE_SA_INIT response");
  let local_spi := PendingSaInit.local_spi pending in
  x ← lift (sa_init_answer (PendingSaInit.proposals pending) message);
  let '(suite, peer_public, nonce_r) := x in
  shared ← lift (dh_agree (PendingSaInit.private pending) peer_public);
  let remote_spi := IkeHeader.responder_spi (Message.header message) in
  keys ← lift (IkeKeys.derive (IkeProposal.prf suite) shared (PendingSaInit.nonce pending)
                 nonce_r local_spi remote_spi (IkeProposal.encryption suite)
                 (IkeProposal.integrity suite));
  modify (put_retransmit None);;
  (if nat_detected message local_spi remote_spi source
        (PendingSaInit.local_address pending) (PendingSaInit.local_port pending)
      && nat_t (IpsecConfig.local (config s))
   then on_transport IkeTransport.enable_nat_t else mret tt);;
  local_child_spi ← on_world random_u32;
  modify (put_ike (Some (IkeRuntime.mk Initiator local_spi remote_spi keys suite
                           (PendingSaInit.nonce pending) nonce_r
                           (PendingSaInit.real_message1 pending) raw local_child_spi None [] [])));;
  send_auth.

(** The identity of an ID payload against the configured one. *)
Definition identity_error (who configured : Identity.t) : IpsecError.t :=
  IpsecError.new IpsecError.Identity
    ("peer identity " +:+ identity_string who +:+ " does not match configured identity "
     +:+ identity_string configured).

(** The [match &peer.auth] with which a responder verifies the initiator. *)
Definition verify_initiator (auth : AuthConfig) (payloads : list Payload)
  (identity : Identity.t) (id_body : list Z) : method unit :=
  let missing := IpsecError.authentication "IKE_AUTH without AUTH" in
  match auth with
  | Psk secret =>
      value ← require (first_psk_auth payloads) missing;
      ike ← the_ike;
      lift (psk_verify secret (IkeProposal.prf (IkeRuntime.suite ike)) (signed_i ike id_body)
              value)
  | Certificate config =>
      let chain := certificate_chain payloads in
      x ← require (first_auth payloads) missing;
      ike ← the_ike;
      time ← on_world (read_clock system_now);
      lift (verify_peer (Z.max 0 time) (ca_certificates config) chain identity PeerInitiator);;
      lift (verify_signature chain x.1 (signed_i ike id_body) x.2)
  | EapTls _ =>
      throw (IpsecError.new IpsecError.NoSupport
               "EAP-TLS responder authentication is not supported")
  end.

(** The [match &peer.auth] with which a responder authenticates itself. *)
Definition responder_auth (auth : AuthConfig) (id_body : list Z) : method (list Payload) :=
  match auth with
  | Psk secret => psk_auth secret (fun ike => signed_r ike id_body)
  | Certificate config => certificate_auth config [] (fun ike => signed_r ike id_body)
  | EapTls _ => lift Panic
  end.

(** [sa::derive_child_keys] with the keys of the IKE SA. *)
Definition child_keys (ike : IkeRuntime.t) (nonce_i nonce_r : list Z)
  (shared : option (list Z)) (suite : ChildProposal.t) (local_spi remote_spi : Z)
  (mode : ChildMode) (local_selectors remote_selectors : list TrafficSelector.t)
  : outcome IpsecError.t ChildSaHandle.t :=
  derive_child_keys (IkeProposal.prf (IkeRuntime.suite ike)) (IkeKeys.sk_d (IkeRuntime.keys ike))
    nonce_i nonce_r shared (IkeRuntime.role ike) (ChildProposal.encryption suite)
    (ChildProposal.integrity suite) local_spi remote_spi mode local_selectors remote_selectors
    (ChildProposal.esn suite).

(** The ESP proposal of a response. *)
Definition esp_answer (n local_spi : Z) (suite : ChildProposal.t) : Payload :=
  Sa [mkProposal n protocol_id.ESP (to_be 4 local_spi)
        (esp_transforms (ChildProposal.encryption suite) (ChildProposal.integrity suite)
           (ChildProposal.esn suite) (ChildProposal.dh suite))].

Definition handle_auth_request (message : Message.t) (source : SocketAddr.t) : method unit :=
  modify (fun s => put_transport (IkeTransport.set_remote source (transport s)) s);;
  modify (put_retransmit None);;
  s ← get;
  payloads ← lift (open_encrypted s message);
  peer ← require (current_peer s) (IpsecError.config "no configured peer");
  initiator_id ← require (find_id payloads true) (IpsecError.ike "IKE_AUTH without IDi");
  identity ← lift (initiator_id_identity initiator_id);
  (if negb (Identity.matches (remote_identity (remote peer)) identity)
   then throw (identity_error identity (remote_identity (remote peer))) else mret tt);;
  verify_initiator (auth peer) payloads identity (id_payload_body initiator_id);;
  sa ← require (first_sa payloads) (IpsecError.ike "IKE_AUTH without SA payload");
  x ← lift (select_esp_initial (child_proposals (IpsecConfig.child (config s))) sa);
  let '(child_suite, child_proposal_number) := x in
  remote_child_spi ← require (esp_spi sa child_proposal_number)
                       (IpsecError.ike "IKE_AUTH SA without an SPI");
  local_child_spi ← on_world random_u32;
  pair ← peer_selectors;
  y ← lift (narrow_request_selectors pair payloads);
  let '(local_selectors, remote_selectors) := y in
  id_body ← lift (local_id_body s);
  auth_payloads ← responder_auth (auth peer) id_body;
  let response :=
    [local_id_payload s false] ++ auth_payloads
    ++ [esp_answer child_proposal_number local_child_spi child_suite]
    ++ response_ts local_selectors remote_selectors in
  encrypted ← seal (header_for s ExchangeType.IkeAuth
                      (IkeHeader.message_id (Message.header message)) false) response;
  send encrypted;;
  ike ← the_ike;
  handle ← lift (child_keys ike (IkeRuntime.nonce_i ike) (IkeRuntime.nonce_r ike) None
                   child_suite local_child_spi remote_child_spi
                   (child_mode (IpsecConfig.child (config s))) local_selectors remote_selectors);
  install_child handle.

(** The [match &peer.auth] with which an initiator verifies the responder. *)
Definition verify_responder (auth : AuthConfig) (payloads : list Payload)
  (identity : Identity.t) (id_body : list Z) : method unit :=
  let missing := IpsecError.authentication "IKE_AUTH response without AUTH" in
  match auth with
  | Psk secret =>
      value ← require (first_psk_auth payloads) missing;
      ike ← the_ike;
      lift (psk_verify secret (IkeProposal.prf (IkeRuntime.suite ike)) (signed_r ike id_body)
              value)
  | Certificate config =>
      let chain := certificate_chain payloads in
      x ← require (first_auth payloads) missing;
      ike ← the_ike;
      time ← on_world (read_clock system_now);
      lift (verify_peer (Z.max 0 time) (ca_certificates config) chain identity PeerResponder);;
      lift (verify_signature chain x.1 (signed_r ike id_body) x.2)
  | EapTls _ =>
      x ← require (first_auth payloads)
            (IpsecError.authentication "EAP IKE_AUTH response without AUTH");
      s ← get;
      msk ← require (eap s ≫= eap_session_msk)
              (IpsecError.authentication "EAP-TLS MSK is not available");
      ike ← the_ike;
      lift (psk_verify msk (IkeProposal.prf (IkeRuntime.suite ike)) (signed_r ike id_body) x.2)
  end.

(** [self.header_for(IkeAuth, self.next_message_id, true)] and the increment. *)
Definition next_request (exchange : ExchangeType.t) : method IkeHeader.t :=
  s ← get;
  modify (put_next_message_id (as_u32 (next_message_id s + 1)));;
  mret (header_for s exchange (next_message_id s) true).

Definition handle_eap (eap_data : list Z) : method unit :=
  s ← get;
  session ← require (eap s) (IpsecError.ike "unexpected EAP payload");
  x ← (fun s => let '(session', r) := eap_session_handle eap_data session in
                (put_eap (Some session') s, r));
  let '(response, success) := (x : option (list Z) * bool) in
  match response with
  | Some response =>
      header ← next_request ExchangeType.IkeAuth;
      encrypted ← seal header [IkeCodec.Eap response];
      send encrypted;;
      arm_exchange encrypted
  | None =>
      if success then
        s ← get;
        msk ← require (eap s ≫= eap_session_msk)
                (IpsecError.authentication "EAP-TLS did not export an MSK");
        id_body ← lift (local_id_body s);
        ike ← the_ike;
        let value := psk_compute msk (IkeProposal.prf (IkeRuntime.suite ike))
                       (signed_i ike id_body) in
        header ← next_request ExchangeType.IkeAuth;
        encrypted ← seal header [Auth AUTH_PSK value];
        send encrypted;;
        arm_exchange encrypted
      else mret tt
  end.

Definition handle_auth_response (message : Message.t) : method unit :=
  modify (put_retransmit None);;
  s ← get;
  payloads ← lift (open_encrypted s message);
  match first_eap payloads with
  | Some data => handle_eap data
  | None =>
      peer ← require (current_peer s) (IpsecError.config "no configured peer");
      responder_id ← require (find_id payloads false)
                       (IpsecError.ike "IKE_AUTH response without IDr");
      identity ← lift (initiator_id_identity responder_id);
      let configured := remote_identity (remote peer) in
      (if negb (Identity.matches configured identity)
          && negb (Identity.is_wildcard configured)
       then throw (IpsecError.new IpsecError.Identity
              ("responder identity " +:+ identity_string identity +:+ " does not match "
               +:+ identity_string configured))
       else mret tt);;
      verify_responder (auth peer) payloads identity (id_payload_body responder_id);;
      sa ← require (first_sa payloads) (IpsecError.ike "IKE_AUTH response without SA");
      x ← lift (select_esp_initial (child_proposals (IpsecConfig.child (config s))) sa);
      let '(child_suite, child_proposal_number) := x in
      remote_child_spi ← require (esp_spi sa child_proposal_number)
                           (IpsecError.ike "responder SA without an SPI");
      pair ← peer_selectors;
      y ← lift (narrow_response_selectors pair payloads);
      let '(local_selectors, remote_selectors) := y in
      ike ← the_ike;
      let '(inner, dns) := parse_config_payload payloads in
      modify (fun s => put_ike (IkeRuntime.put_addresses inner dns <$> Runner.ike s) s);;
      ike ← the_ike;
      handle ← lift (child_keys ike (IkeRuntime.nonce_i ike) (IkeRuntime.nonce_r ike) None
                       child_suite (IkeRuntime.local_child_spi ike) remote_child_spi
                       (child_mode (IpsecConfig.child (config s))) local_selectors
                       remote_selectors);
      install_child handle
  end.

(** ** INFORMATIONAL *)

(** [for payload in &payloads] of [handle_informational_request]. *)
Fixpoint informational_loop (payloads : list Payload) (response : list Payload)
  : method (list Payload) :=
  match payloads with
  | [] => mret response
  | Notify _ _ notify data :: rest =>
      informational_loop rest
        (if notify =? notify_type.COOKIE
         then response ++ [Notify protocol_id.IKE [] notify_type.COOKIE data] else response)
  | Delete protocol _ spis :: rest =>
      if protocol =? protocol_id.ESP then
        s ← get;
        match ike s ≫= IkeRuntime.child with
        | Some child =>
            if bool_decide (ChildSaHandle.remote_spi (handle child) ∈ spis) then
              remove_child PeerDelete;;
              informational_loop rest
                (response ++ [Delete protocol_id.ESP 4 [ChildSaHandle.local_spi (handle child)]])
            else informational_loop rest response
        | None => informational_loop rest response
        end
      else informational_loop rest response
  | _ :: rest => informational_loop rest response
  end.

Definition handle_informational_request (message : Message.t) : method unit :=
  s ← get;
  payloads ← lift (open_encrypted s message);
  response ← informational_loop payloads [];
  s ← get;
  encrypted ← seal (header_for s ExchangeType.Informational
                      (IkeHeader.message_id (Message.header message)) false) response;
  send encrypted.

(** ** CREATE_CHILD_SA *)

Definition initiate_rekey : method unit :=
  modify (put_rekey_deadline None);;
  s ← get;
  if negb (bool_decide (phase s = PhaseEstablished)) || bool_decide (ike s = None)
  then mret tt else
  if bool_decide (is_Some (pending_rekey s)) then
    t ← after (secs 5); modify (put_rekey_deadline (Some t))
  else
  let proposals := child_proposals (IpsecConfig.child (config s)) in
  suite ← require (head proposals) (IpsecError.config "no Child SA proposal");
  local_spi ← on_world random_u32;
  nonce_i ← on_world (random_bytes NONCE_LEN);
  private ← (if bool_decide (ChildProposal.dh suite = DhGroup.None) then mret None
             else p ← on_world (dh_generate (ChildProposal.dh suite)); mret (Some p));
  pair ← peer_selectors;
  let payloads :=
    [Sa (build_esp proposals local_spi true)]
    ++ (match private with
        | Some p => [Ke (DhGroup.transform_id (ChildProposal.dh suite)) (dh_public p)]
        | None => []
        end)
    ++ [Nonce nonce_i] ++ request_ts pair in
  header ← next_request ExchangeType.CreateChildSa;
  encrypted ← seal header payloads;
  send encrypted;;
  arm_exchange encrypted;;
  modify (put_pending_rekey (Some (PendingRekey.mk private nonce_i local_spi suite)));;
  set_state Rekeying.

Definition handle_create_child_response (message : Message.t) : method unit :=
  modify (put_retransmit None);;
  s ← get;
  payloads ← lift (open_encrypted s message);
  modify (put_pending_rekey None);;
  pending ← require (pending_rekey s) (IpsecError.internal "unexpected CREATE_CHILD_SA response");
  sa ← require (first_sa payloads) (IpsecError.ike "CREATE_CHILD_SA response without SA");
  x ← lift (select_esp (child_proposals (IpsecConfig.child (config s))) sa);
  let '(suite, _) := x in
  (if negb (bool_decide (ChildProposal.dh suite = ChildProposal.dh (PendingRekey.suite pending)))
   then throw (IpsecError.new IpsecError.Proposal "responder selected a different PFS group")
   else mret tt);;
  remote_spi ← require (head sa ≫= spi_of)
                 (IpsecError.ike "CREATE_CHILD_SA response SA without SPI");
  nonce_r ← require (first_nonce payloads)
              (IpsecError.ike "CREATE_CHILD_SA response without nonce");
  shared ← (match PendingRekey.private pending, first_ke payloads with
            | Some private, Some ke =>
                shared ← lift (dh_agree private ke.2); mret (Some shared)
            | None, None => mret None
            | _, _ => throw (IpsecError.ike "CREATE_CHILD_SA KE mismatch")
            end);
  pair ← peer_selectors;
  y ← lift (narrow_response_selectors pair payloads);
  let '(local_selectors, remote_selectors) := y in
  ike ← the_ike;
  handle ← lift (child_keys ike (PendingRekey.nonce_i pending) nonce_r shared suite
                   (PendingRekey.local_spi pending) remote_spi
                   (child_mode (IpsecConfig.child (config s))) local_selectors remote_selectors);
  install_child handle.

(** The KE payload of the response and the shared secret. *)
Definition create_child_ke (suite : ChildProposal.t) (peer_ke : option (Z * list Z))
  : method (list Payload * option (list Z)) :=
  let err m := throw (IpsecError.new IpsecError.Proposal m) in
  match peer_ke with
  | Some (group, peer_public) =>
      if bool_decide (ChildProposal.dh suite = DhGroup.None)
      then err "CREATE_CHILD_SA sent KE but no DH transform was selected" else
      if negb (group =? DhGroup.transform_id (ChildProposal.dh suite))
      then err "CREATE_CHILD_SA KE group does not match the selected DH transform" else
      private ← on_world (dh_generate (ChildProposal.dh suite));
      shared ← lift (dh_agree private peer_public);
      mret ([Ke group (dh_public private)], Some shared)
  | None =>
      if negb (bool_decide (ChildProposal.dh suite = DhGroup.None))
      then err "CREATE_CHILD_SA selected a DH transform but omitted KE" else
      mret ([], None)
  end.

Definition handle_create_child_request (message : Message.t) : method unit :=
  s ← get;
  payloads ← lift (open_encrypted s message);
  sa ← require (first_sa payloads) (IpsecError.ike "CREATE_CHILD_SA without SA");
  x ← lift (select_esp (child_proposals (IpsecConfig.child (config s))) sa);
  let '(suite, proposal_number) := x in
  remote_spi ← require (List.find (fun p => number p =? proposal_number) sa ≫= spi_of)
                 (IpsecError.ike "CREATE_CHILD_SA SA without SPI");
  local_spi ← on_world random_u32;
  nonce_i ← require (first_nonce payloads) (IpsecError.ike "CREATE_CHILD_SA without a nonce");
  nonce_r ← on_world (random_bytes NONCE_LEN);
  pair ← peer_selectors;
  y ← lift (narrow_request_selectors pair payloads);
  let '(local_selectors, remote_selectors) := y in
  z ← create_child_ke suite (first_ke payloads);
  let '(ke, shared) := z in
  let response :=
    [esp_answer proposal_number local_spi suite] ++ ke ++ [Nonce nonce_r]
    ++ response_ts local_selectors remote_selectors in
  encrypted ← seal (header_for s ExchangeType.CreateChildSa
                      (IkeHeader.message_id (Message.header message)) false) response;
  send encrypted;;
  ike ← the_ike;
  handle ← lift (child_keys ike nonce_i nonce_r shared suite local_spi remote_spi
                   (child_mode (IpsecConfig.child (config s))) local_selectors remote_selectors);
  install_child handle.

(** ** Datagrams, timers and the end *)

Definition handle_response (data : list Z) (source : SocketAddr.t) (message : Message.t)
  : method unit :=
  s ← get;
  match phase s with
  | SaInitSent => handle_sa_init_response data source message
  | AuthSent | EapAuth => handle_auth_response message
  | PhaseEstablished =>
      match IkeHeader.exchange (Message.header message) with
      | ExchangeType.CreateChildSa => handle_create_child_response message
      | ExchangeType.Informational =>
          modify (put_retransmit None);;
          modify (put_dpd_failures 0);;
          t ← after (secs (dpd_interval (IpsecConfig.dpd (config s))));
          modify (put_dpd_deadline (Some t))
      | _ => mret tt
      end
  | _ => mret tt
  end.

Definition handle_request (data : list Z) (source : SocketAddr.t) (message : Message.t)
  : method unit :=
  match IkeHeader.exchange (Message.header message) with
  | ExchangeType.IkeSaInit => handle_sa_init_request data source message
  | ExchangeType.IkeAuth => handle_auth_request message source
  | ExchangeType.Informational => handle_informational_request message
  | ExchangeType.CreateChildSa => handle_create_child_request message
  end.

Definition handle_datagram (data : list Z) (source : SocketAddr.t) : method unit :=
  s ← get;
  (if SocketAddr.port source =? NAT_T_PORT then
     modify (fun s => put_transport (IkeTransport.set_remote source (transport s)) s);;
     on_transport IkeTransport.enable_nat_t
   else if nat_t (IpsecConfig.local (config s)) && IkeTransport.encapsulated (transport s)
   then modify (fun s => put_transport (IkeTransport.set_remote source (transport s)) s)
   else mret tt);;
  message ← lift (Message.decode data);
  if IkeHeader.is_response (Message.header message)
  then handle_response data source message
  else handle_request data source message.

Definition on_retransmit : method unit :=
  s ← get;
  match retransmit s with
  | None => mret tt
  | Some r =>
      t ← now;
      x ← lift (Retransmit.retry t r);
      let '(r', again) := x in
      modify (put_retransmit (Some r'));;
      if again : bool then
        lift (IkeHeader.decode (Retransmit.message r'));;
        send (Retransmit.message r')
      else
        modify (put_retransmit None);;
        (if bool_decide (phase s = PhaseEstablished)
         then remove_child PeerDead;; modify (put_phase PhaseClosed)
         else mret tt);;
        set_state Failed;;
        throw (IpsecError.new IpsecError.Timeout "peer did not respond to IKE retransmissions")
  end.

Definition on_dpd : method unit :=
  modify (put_dpd_deadline None);;
  s ← get;
  let dpd := IpsecConfig.dpd (config s) in
  if negb (bool_decide (phase s = PhaseEstablished)) then mret tt else
  if dpd_retries dpd <=? dpd_failures s then
    remove_child PeerDead;;
    modify (put_phase PhaseClosed);;
    set_state Failed;;
    throw (IpsecError.new IpsecError.Timeout "dead peer detection declared the peer dead")
  else
    header ← next_request ExchangeType.Informational;
    encrypted ← seal header [];
    send encrypted;;
    arm_retransmit encrypted (secs (dpd_timeout dpd)) (Z.max (dpd_retries dpd) 1);;
    modify (fun s => put_dpd_failures (Z.min 255 (dpd_failures s + 1)) s);;
    t ← after (secs (dpd_interval dpd));
    t ← lift (instant_add t (secs (dpd_timeout dpd)));
    modify (put_dpd_deadline (Some t)).

Definition shutdown_connection : method unit :=
  s ← get;
  (match bool_decide (phase s = PhaseEstablished), ike s with
   | true, Some ike =>
       match IkeRuntime.child ike with
       | Some child =>
           encrypted ← try_ (seal (header_for s ExchangeType.Informational
                                     (next_message_id s) true)
                     [Delete protocol_id.ESP 4 [ChildSaHandle.local_spi (handle child)]]);
           match encrypted with
           | Some encrypted => try_ (send encrypted);; mret tt
           | None => mret tt
           end
       | None => mret tt
       end
   | _, _ => mret tt
   end);;
  set_state Closed.

(** [if let Err(error) = .. { self.report_error(error) }]. *)
Definition reported (m : method unit) : method unit :=
  fun s => match m s with
           | (s', Err e) => report_error e s'
           | r => r
           end.

(** The start of [run]. *)
Definition start : method unit :=
  s ← get;
  p ← lift (idx (IpsecConfig.peers (config s)) 0);
  if bool_decide (is_Some (remote_address (remote p))) then
    modify (put_started true);;
    reported send_sa_init
  else mret tt.

(** [spawn]: the runner of a configuration, once its socket is bound. *)
Definition spawn (config : IpsecConfig.t) (states : gmap string IpsecState) : io Runner.t :=
  peer ← lift (ok_or (head (IpsecConfig.peers config))
                 (IpsecError.config "connection has no peers"));
  let remote := match remote_address (remote peer) with
                | Some a => SocketAddr.mk a (remote_port (remote peer))
                | None => any_v4 0
                end in
  let local := IpsecConfig.local config in
  transport ← IkeTransport.bind (local_address local) (local_port local) remote (nat_t local);
  w ← get;
  mret (Runner.mk w config [] states transport Init None 0 None 1 None None None 0 None None
          false).

(** ** The event loop *)

Inductive wake :=
| Received (buffer : list Z) (source : SocketAddr.t)
| ReceiveError (e : IpsecError.t)
| RetransmitDue
| DpdDue
| RekeyDue.

(** One turn of the [select]. *)
Definition turn (e : wake) : method unit :=
  match e with
  | Received buffer source =>
      s ← get;
      reported (x ← lift (IkeTransport.recv (transport s) buffer source);
                let '(data, source) := (x : list Z * SocketAddr.t) in
                handle_datagram data source)
  | ReceiveError e => report_error e
  | RetransmitDue => reported on_retransmit
  | DpdDue => reported on_dpd
  | RekeyDue => reported initiate_rekey
  end.

(** [wait_until(None)] never returns, and a socket receives octets. *)
Definition ready (e : wake) (s : Runner.t) : Prop :=
  match e with
  | Received buffer _ => bytes buffer
  | RetransmitDue => is_Some (retransmit s)
  | DpdDue => is_Some (dpd_deadline s)
  | RekeyDue => is_Some (rekey_deadline s)
  | _ => True
  end.

(** Time and the state table, which other tasks share, may change between turns. *)
Inductive step : Runner.t -> wake -> Runner.t -> Prop :=
| Step s e s' : ready e s -> turn e s = (s', Ok tt) -> step s e s'
| Elsewhere s e w st : step s e (put_states st (put_world w s)).

Inductive reachable (s0 : Runner.t) : Runner.t -> Prop :=
| Reach_start s : start s0 = (s, Ok tt) -> reachable s0 s
| Reach_step s e s' : reachable s0 s -> step s e s' -> reachable s0 s'.

End engine.

End Engine.
