(* ===== verification/IpsecClient.v ===== *)
(** * The IPsec client

    [src/src/ipsec/client.rs]: the table of connections, each with the task that runs its
    engine.  A task has a number; [running] are the engines the runtime executes, [tasks]
    the handles the client holds.  Dropping a handle detaches the task, which goes on;
    [abort] and the end of a task take it from [running].  The events that the engines
    send are the events of [IkeEngine]; the queue has those of the client itself.

    [Module IpsecClientFacts]: with connections of different names the running engines are
    those of the table, and an update leaves exactly the engines of the new set. *)

From stdpp Require Import gmap list.
From S2P Require Import Prelude Errors Net Eap EapTls IkeCodec TrafficSelector Identity IpsecConfig IkeProposals IkeCrypto IkeSa IkeWorld IkeTransport IkeAuth IkeEngine.

Module IpsecClient.

Section client.
Context `{IkeWorld} `{!EapTlsSetup} `{!CertLib} `{CryptoLib}.

Record t := mk {
  world : World;
  configs : list IpsecConfig.t;
  (** The queue behind [events_tx] and [events_rx]. *)
  events : list IpsecEvent;
  states : gmap string IpsecState;
  (** The value of the watch channel. *)
  shutdown_sent : bool;
  tasks : gmap string nat;
  running : gmap nat Runner.t;
  next_task : nat;
}.

Definition put_world (v : World) (c : t) : t :=
  mk v (configs c) (events c) (states c) (shutdown_sent c) (tasks c) (running c) (next_task c).
Definition put_configs (v : list IpsecConfig.t) (c : t) : t :=
  mk (world c) v (events c) (states c) (shutdown_sent c) (tasks c) (running c) (next_task c).
Definition put_events (v : list IpsecEvent) (c : t) : t :=
  mk (world c) (configs c) v (states c) (shutdown_sent c) (tasks c) (running c) (next_task c).
Definition put_states (v : gmap string IpsecState) (c : t) : t :=
  mk (world c) (configs c) (events c) v (shutdown_sent c) (tasks c) (running c) (next_task c).
Definition put_shutdown (v : bool) (c : t) : t :=
  mk (world c) (configs c) (events c) (states c) v (tasks c) (running c) (next_task c).
Definition put_tasks (v : gmap string nat) (c : t) : t :=
  mk (world c) (configs c) (events c) (states c) (shutdown_sent c) v (running c) (next_task c).
Definition put_running (v : gmap nat Runner.t) (c : t) : t :=
  mk (world c) (configs c) (events c) (states c) (shutdown_sent c) (tasks c) v (next_task c).

Abbreviation method := (st t IpsecError.t).

Definition set_state (connection : string) (state : IpsecState) : method unit :=
  modify (fun c => put_events (events c ++ [State connection state])
                     (put_states (<[connection := state]> (states c)) c)).

(** [tokio::spawn]: the task runs; its handle is its number. *)
Definition execute (r : Runner.t) : method nat := fun c =>
  (mk (world c) (configs c) (events c) (states c) (shutdown_sent c) (tasks c)
     (<[next_task c := r]> (running c)) (S (next_task c)), Ok (next_task c)).

(** [engine::spawn]. *)
Definition spawn (config : IpsecConfig.t) : method nat :=
  runner ← (fun c => let '(w, r) := Engine.spawn config (states c) (world c) in (put_world w c, r));
  execute runner.

Definition start_connection (config : IpsecConfig.t) : method unit :=
  let name := IpsecConfig.name config in
  set_state name Connecting;;
  task ← spawn config;
  modify (fun c => put_tasks (<[name := task]> (tasks c)) c).

Fixpoint validate_all (configs : list IpsecConfig.t) : outcome IpsecError.t unit :=
  match configs with
  | [] => Ok tt
  | config :: configs => _ ← IpsecConfig.validate config; validate_all configs
  end.

Fixpoint start_all (configs : list IpsecConfig.t) : method unit :=
  match configs with
  | [] => mret tt
  | config :: configs => start_connection config;; start_all configs
  end.

Definition init (configs : list IpsecConfig.t) (w : World) : t * outcome IpsecError.t unit :=
  (lift (validate_all configs);; start_all configs) (mk w configs [] ∅ false ∅ ∅ 0).

(** The client holds a sender: the stream does not end, and an empty queue is a wait. *)
Definition run : method IpsecEvent := fun c =>
  match events c with
  | [] => (c, Diverge)
  | e :: rest => (put_events rest c, Ok e)
  end.

(** [tasks.remove(..)] and [abort]. *)
Definition stop_task (name : string) (c : t) : t :=
  match tasks c !! name with
  | Some task => put_running (delete task (running c)) (put_tasks (delete name (tasks c)) c)
  | None => c
  end.

(** A connection that is no longer wanted. *)
Definition close_connection (name : string) : method unit :=
  modify (stop_task name);; set_state name Closed.

Fixpoint close_all (names : list string) : method unit :=
  match names with
  | [] => mret tt
  | name :: names => close_connection name;; close_all names
  end.

Fixpoint restart_all (configs : list IpsecConfig.t) : method unit :=
  match configs with
  | [] => mret tt
  | config :: configs =>
      modify (stop_task (IpsecConfig.name config));; start_connection config;; restart_all configs
  end.

Definition update (configs : list IpsecConfig.t) : method unit :=
  lift (validate_all configs);;
  let desired := IpsecConfig.name <$> configs in
  c ← get;
  let removed := List.filter (fun n => negb (bool_decide (n ∈ desired))) (map_to_list (tasks c)).*1 in
  close_all removed;;
  modify (put_configs configs);;
  restart_all configs.

(** [shutdown]: each task ends within the grace period, or is aborted. *)
Definition shutdown : method unit :=
  modify (put_shutdown true);;
  c ← get;
  close_all (map_to_list (tasks c)).*1.

(** [try_lock] of the states, which may be held elsewhere. *)
Definition state_of (locked : bool) (connection : string) (c : t) : option IpsecState :=
  if locked then None else states c !! connection.

(** [Drop]. *)
Definition drop (c : t) : t :=
  put_tasks ∅ (put_running (foldr (fun x r => delete x.2 r) (running c) (map_to_list (tasks c))) (put_shutdown true c)).

End client.
End IpsecClient.

(** ** Facts *)

Module IpsecClientFacts.
Import IpsecClient.

Section facts.
Context {ikeworld : IkeWorld} {eap : EapTlsSetup} {certs : CertLib} {crypto : CryptoLib}.

(** The configuration that runs for a connection. *)
Definition engine_of (c : t) (n : string) : option IpsecConfig.t :=
  task ← tasks c !! n; Runner.config <$> running c !! task.

(** Each engine that runs belongs to one connection of the table. *)
Record owned (c : t) : Prop := {
  owned_runs n task : tasks c !! n = Some task -> is_Some (running c !! task);
  owned_by task : is_Some (running c !! task) -> exists n, tasks c !! n = Some task;
  owned_once n1 n2 task : tasks c !! n1 = Some task -> tasks c !! n2 = Some task -> n1 = n2;
  owned_fresh task : is_Some (running c !! task) -> (task < next_task c)%nat;
}.

(** Two clients with the same tasks. *)
Definition same_tasks (c c' : t) : Prop :=
  tasks c' = tasks c /\ running c' = running c /\ next_task c' = next_task c.

Lemma same_tasks_owned c c' : same_tasks c c' -> owned c -> owned c'.
Proof.
  intros (Ht & Hr & Hn) [H1 H2 H3 H4]. split; rewrite ?Ht, ?Hr, ?Hn; eauto. Qed.

Lemma same_tasks_engine c c' n : same_tasks c c' -> engine_of c' n = engine_of c n.
Proof. intros (Ht & Hr & _). unfold engine_of. by rewrite Ht, Hr. Qed.

Lemma stop_task_owned n c : owned c -> owned (stop_task n c).
Proof.
  intros [H1 H2 H3 H4]. unfold stop_task. destruct (tasks c !! n) as [task|] eqn:Hn; [|by split]. split; cbn.
  - intros m id [Hne Hm]%lookup_delete_Some. rewrite lookup_delete_ne; [by eapply H1|]. intros <-.
    by apply Hne, (H3 n m task).
  - intros id [r [Hne Hr]%lookup_delete_Some]. destruct (H2 id) as [m Hm]; [by exists r|].
    exists m. apply lookup_delete_Some. split; [|done]. intros <-. congruence.
  - intros m1 m2 id [_ Hm1]%lookup_delete_Some [_ Hm2]%lookup_delete_Some. eauto.
  - intros id [r [_ Hr]%lookup_delete_Some]. apply H4. by exists r.
Qed.

Lemma stop_task_engine n m c : owned c -> engine_of (stop_task n c) m = if decide (n = m) then None else engine_of c m.
Proof.
  intros Ho. unfold stop_task, engine_of. destruct (tasks c !! n) as [task|] eqn:Hn; cbn.
  - destruct (decide (n = m)) as [<-|Hne]; [by rewrite lookup_delete_eq|].
    rewrite lookup_delete_ne by done. destruct (tasks c !! m) as [id|] eqn:Hm; [|done]. cbn.
    rewrite lookup_delete_ne; [done|]. intros <-. by apply Hne, (owned_once c Ho n m task).
  - destruct (decide (n = m)) as [<-|Hne]; [by rewrite Hn|done].
Qed.

Lemma stop_task_gone n c : tasks (stop_task n c) !! n = None.
Proof. unfold stop_task. destruct (tasks c !! n) eqn:Hn; [|done]. cbn. apply lookup_delete_eq. Qed.

Lemma close_all_spec names c c' r :
  owned c -> close_all names c = (c', r) ->
  r = Ok tt /\ owned c' /\ forall n, engine_of c' n = if decide (n ∈ names) then None else engine_of c n.
Proof.
  revert c. induction names as [|n names IH]; intros c Ho; cbn [close_all].
  { intros [= <- <-]. split; [done|]. split; [done|]. intros n. by rewrite decide_False by apply not_elem_of_nil. }
  unfold close_connection, set_state, mbind at 1 2, st_bind, modify. intros Hc.
  match type of Hc with close_all names ?x = _ => assert (same_tasks (stop_task n c) x) as Hs by done end.
  apply IH in Hc as (-> & Ho' & He); [|by eapply same_tasks_owned, stop_task_owned]. split; [done|]. split; [done|].
  intros m. rewrite He, (same_tasks_engine _ _ m Hs), stop_task_engine by done.
  destruct (decide (m ∈ names)), (decide (n = m)), (decide (m ∈ n :: names)); set_solver.
Qed.

Lemma spawn_config config states w w' runner :
  Engine.spawn config states w = (w', Ok runner) -> Runner.config runner = config.
Proof.
  unfold Engine.spawn. intros (s1 & a & _ & H1)%st_bind_ok_inv.
  apply st_bind_ok_inv in H1 as (s2 & tr & _ & H2). apply st_bind_ok_inv in H2 as (s3 & x & _ & H3).
  by injection H3 as <- <-.
Qed.

Lemma spawn_spec config c c' r :
  spawn config c = (c', r) ->
  (exists runner, r = Ok (next_task c) /\ Runner.config runner = config /\ tasks c' = tasks c
     /\ running c' = <[next_task c := runner]> (running c) /\ next_task c' = S (next_task c))
  \/ ((forall task, r <> Ok task) /\ same_tasks c c').
Proof.
  unfold spawn, mbind, st_bind. destruct (Engine.spawn config (states c) (world c)) as [w [runner|e| |]] eqn:Hs;
    intros [= <- <-]; [left|by right..].
  exists runner. repeat split. by eapply spawn_config.
Qed.

(** A connection that has no task yet. *)
Lemma start_connection_spec config c c' r :
  owned c -> tasks c !! IpsecConfig.name config = None -> start_connection config c = (c', r) ->
  owned c' /\ (forall n, n <> IpsecConfig.name config -> engine_of c' n = engine_of c n)
  /\ (r = Ok tt -> engine_of c' (IpsecConfig.name config) = Some config).
Proof.
  intros Ho Hnone. unfold start_connection, set_state, mbind at 1, st_bind, modify at 1.
  match goal with |- (_ ≫= _) ?x = _ -> _ => assert (same_tasks c x) as Hs by done; revert Hs; generalize x end.
  intros c1 Hs. assert (owned c1) as Ho1 by (by eapply same_tasks_owned).
  assert (tasks c1 !! IpsecConfig.name config = None) as Hn1 by (by destruct Hs as [-> _]).
  unfold mbind, st_bind. destruct (spawn config c1) as [c2 r2] eqn:Hsp.
  apply spawn_spec in Hsp as [(runner & -> & Hcfg & Ht & Hr & Hnx)|[Hno Hs2]].
  2: { assert (same_tasks c c2) as Hc2 by (destruct Hs as (?&?&?), Hs2 as (?&?&?); repeat split; congruence).
       destruct r2; intros [= <- <-]; try (by destruct (Hno a)); (split; [by eapply same_tasks_owned|]);
         (split; [|done]); intros n _; by apply same_tasks_engine. }
  intros [= <- <-]. destruct Ho1 as [H1 H2 H3 H4].
  assert (running c1 !! next_task c1 = None) as Hfree.
  { apply eq_None_not_Some. intros Hx%H4. lia. }
  split; [|split].
  - split; cbn; rewrite ?Ht, ?Hr, ?Hnx.
    + intros n task [[<- <-]|[_ Hn]]%lookup_insert_Some; [by rewrite lookup_insert_eq|].
      destruct (decide (next_task c1 = task)) as [<-|Hne]; [by rewrite lookup_insert_eq|].
      rewrite lookup_insert_ne by done. eauto.
    + intros task [x [[<- <-]|[Hne Hx]]%lookup_insert_Some].
      * exists (IpsecConfig.name config). by rewrite lookup_insert_eq.
      * destruct (H2 task) as [n Hn]; [by exists x|]. exists n. rewrite lookup_insert_ne; [done|]. intros <-. congruence.
    + intros n1 n2 task [[<- <-]|[_ Ha]]%lookup_insert_Some [[<- Hb]|[_ Hb]]%lookup_insert_Some; try done; eauto.
      * apply H1 in Hb. rewrite Hfree in Hb. by destruct Hb.
      * subst task. apply H1 in Ha. rewrite Hfree in Ha. by destruct Ha.
    + intros task [x [[<- _]|[_ Hx]]%lookup_insert_Some]; [lia|]. assert (task < next_task c1)%nat by (apply H4; by exists x). lia.
  - intros n Hn. rewrite <- (same_tasks_engine c c1 n Hs). unfold engine_of. cbn. rewrite Ht, Hr.
    rewrite lookup_insert_ne by done. destruct (tasks c1 !! n) as [task|] eqn:Hx; [|done]. cbn.
    rewrite lookup_insert_ne; [done|]. intros <-. apply H1 in Hx. rewrite Hfree in Hx. by destruct Hx.
  - intros _. unfold engine_of. cbn. rewrite Ht, Hr, lookup_insert_eq. cbn. rewrite lookup_insert_eq. cbn. by rewrite Hcfg.
Qed.

(** The configuration a list asks for: the last one of a name. *)
Fixpoint wanted (configs : list IpsecConfig.t) (n : string) : option IpsecConfig.t :=
  match configs with
  | [] => None
  | config :: configs =>
      match wanted configs n with
      | Some x => Some x
      | None => if decide (IpsecConfig.name config = n) then Some config else None
      end
  end.

Lemma wanted_None configs n : n ∉ IpsecConfig.name <$> configs -> wanted configs n = None.
Proof.
  induction configs as [|config configs IH]; cbn [wanted fmap list_fmap]; [done|].
  intros [Hne Hn]%not_elem_of_cons. rewrite IH by done. by rewrite decide_False.
Qed.

Lemma wanted_Some configs n : n ∈ IpsecConfig.name <$> configs -> is_Some (wanted configs n).
Proof.
  induction configs as [|config configs IH]; cbn [wanted fmap list_fmap]; [by intros ?%not_elem_of_nil|].
  intros [->|Hn]%elem_of_cons; [|by destruct (IH Hn) as [x ->]].
  destruct (wanted configs _); [done|]. by rewrite decide_True.
Qed.

Lemma wanted_name configs n config : wanted configs n = Some config -> IpsecConfig.name config = n.
Proof.
  induction configs as [|x configs IH]; cbn [wanted]; [done|]. destruct (wanted configs n); [done|].
  case_decide; [|done]. by intros [= <-].
Qed.

Lemma restart_all_spec configs c c' r :
  owned c -> restart_all configs c = (c', r) ->
  owned c' /\ (r = Ok tt -> forall n, engine_of c' n =
    match wanted configs n with Some config => Some config | None => engine_of c n end).
Proof.
  revert c. induction configs as [|config configs IH]; intros c Ho; cbn [restart_all].
  { intros [= <- <-]. by split. }
  unfold mbind at 1, st_bind, modify. cbn [fst snd].
  pose proof (stop_task_owned (IpsecConfig.name config) c Ho) as Ho1.
  unfold mbind, st_bind. destruct (start_connection config (stop_task (IpsecConfig.name config) c)) as [c2 r2] eqn:Hs.
  destruct (start_connection_spec _ _ _ _ Ho1 (stop_task_gone _ c) Hs) as (Ho2 & Hother & Hself).
  destruct r2 as [[]|e| |]; try (by intros [= <- <-]). intros Hr.
  destruct (IH c2 Ho2 Hr) as [Ho' He]. split; [done|]. intros ->. intros n. rewrite (He eq_refl n). cbn [wanted].
  destruct (wanted configs n); [done|]. case_decide as Hn; [subst n; by apply Hself|].
  rewrite (Hother n), stop_task_engine by done. by rewrite decide_False.
Qed.

Lemma start_all_spec configs c c' r :
  owned c -> NoDup (IpsecConfig.name <$> configs) -> (forall n, n ∈ IpsecConfig.name <$> configs -> tasks c !! n = None) ->
  start_all configs c = (c', r) -> owned c'.
Proof.
  revert c. induction configs as [|config configs IH]; intros c Ho Hnd Hnew; cbn [start_all]; [by intros [= <- _]|].
  cbn [fmap list_fmap] in Hnd, Hnew. apply NoDup_cons in Hnd as [Hn Hnd].
  unfold mbind, st_bind. destruct (start_connection config c) as [c2 r2] eqn:Hs.
  assert (tasks c !! IpsecConfig.name config = None) as Hnone by (apply Hnew; by left).
  destruct (start_connection_spec _ _ _ _ Ho Hnone Hs) as (Ho2 & Hother & _).
  destruct r2 as [[]|e| |]; try (by intros [= <- _]). apply IH; [done|done|].
  intros n Hin. assert (engine_of c2 n = engine_of c n) as He by (apply Hother; by intros ->).
  assert (tasks c !! n = None) as Hx by (apply Hnew; by right).
  unfold engine_of in He. rewrite Hx in He. destruct (tasks c2 !! n) as [task|] eqn:Ht; [|done].
  destruct (owned_runs c2 Ho2 n task Ht) as [x Hrun]. cbn in He. by rewrite Hrun in He.
Qed.

Lemma init_owned configs w c r :
  NoDup (IpsecConfig.name <$> configs) -> init configs w = (c, r) -> owned c.
Proof.
  intros Hnd. unfold init, lift, mbind, st_bind.
  assert (owned (mk w configs [] ∅ false ∅ ∅ 0)) as H0.
  { split; cbn; try done; by intros task [x Hx]. }
  destruct (validate_all configs) as [[]|e| |]; try (by intros [= <- _]). by apply start_all_spec.
Qed.

(** The calls of a client, whatever they return. *)
Definition api_call (o : list IpsecConfig.t + bool) (c : t) : t :=
  match o with
  | inl configs => (update configs c).1
  | inr true => (run c).1
  | inr false => (shutdown c).1
  end.

Lemma update_spec configs c c' r :
  owned c -> update configs c = (c', r) -> owned c' /\ (r = Ok tt -> forall n, engine_of c' n = wanted configs n).
Proof.
  intros Ho. unfold update, lift, mbind at 1, st_bind.
  destruct (validate_all configs) as [[]|e| |]; try (by intros [= <- <-]).
  unfold mbind at 1, st_bind, get. unfold mbind at 1, st_bind.
  destruct (close_all _ c) as [c1 r1] eqn:Hc. destruct (close_all_spec _ _ _ _ Ho Hc) as (-> & Ho1 & He1).
  unfold mbind, st_bind, modify.
  assert (same_tasks c1 (put_configs configs c1)) as Hs by done. intros Hr.
  destruct (restart_all_spec _ _ _ _ (same_tasks_owned _ _ Hs Ho1) Hr) as [Ho' He]. split; [done|].
  intros -> n. rewrite (He eq_refl n), (same_tasks_engine _ _ n Hs), He1.
  destruct (wanted configs n) eqn:Hw; [done|]. case_decide as Hin; [done|].
  unfold engine_of. destruct (tasks c !! n) as [task|] eqn:Ht; [|done]. destruct Hin.
  apply list_elem_of_In, filter_In. split.
  - apply list_elem_of_In, list_elem_of_fmap. exists (n, task). split; [done|]. by apply elem_of_map_to_list.
  - rewrite negb_true_iff. apply bool_decide_eq_false_2. intros Hd. apply wanted_Some in Hd as [x Hx]. congruence.
Qed.

Lemma api_call_owned o c : owned c -> owned (api_call o c).
Proof.
  intros Ho. destruct o as [configs|[|]]; cbn [api_call].
  - destruct (update configs c) as [c' r] eqn:Hu. by destruct (update_spec _ _ _ _ Ho Hu).
  - unfold run. destruct (events c); [done|]. by apply (same_tasks_owned c).
  - unfold shutdown, mbind at 1, st_bind, modify. cbn. unfold mbind, st_bind, get.
    destruct (close_all _ (put_shutdown true c)) as [c' r] eqn:Hc.
    apply close_all_spec in Hc as (-> & Ho' & _); [done|]. by apply (same_tasks_owned c).
Qed.

(** C16: an update of the IPsec client leaves the engines of the new set and no other
    one: from a client that was made for connections of different names, after any calls
    and their errors, an update that succeeds leaves for each name the engine of the last
    configuration with it, no engine for a name that is not in the set, and no engine
    that runs without being in the table. *)
Theorem update_leaves_wanted_engines configs0 w c0 r0 calls configs c' :
  NoDup (IpsecConfig.name <$> configs0) -> init configs0 w = (c0, r0) ->
  update configs (fold_left (fun c o => api_call o c) calls c0) = (c', Ok tt) ->
  (forall n, engine_of c' n = wanted configs n)
  /\ (forall task runner, running c' !! task = Some runner ->
       wanted configs (IpsecConfig.name (Runner.config runner)) = Some (Runner.config runner)).
Proof.
  intros Hnd Hi Hu. assert (owned (fold_left (fun c o => api_call o c) calls c0)) as Ho.
  { apply init_owned in Hi; [|done]. clear Hu. revert c0 Hi. induction calls as [|o calls IH]; intros c0 Hi; [done|].
    cbn [fold_left]. by apply IH, api_call_owned. }
  destruct (update_spec _ _ _ _ Ho Hu) as [Ho' He]. specialize (He eq_refl). split; [done|].
  intros task runner Hr. destruct (owned_by c' Ho' task) as [n Hn]; [by exists runner|].
  specialize (He n). unfold engine_of in He. rewrite Hn in He. cbn in He. rewrite Hr in He. cbn in He.
  rewrite (wanted_name configs n (Runner.config runner) (eq_sym He)). by symmetry.
Qed.

End facts.
End IpsecClientFacts.
