(* ===== verification/IkeEngineFacts.v ===== *)
(** * The engine returns from every event

    [Module EngineTotal]: an invariant of the connection task (a configured peer
    is selected, keys have the sizes of their ciphers, retransmission counters are
    in range, the EAP method is sound) that every turn of the event loop keeps,
    and under which every turn returns: no index out of range, no [unwrap] of
    [None], no unreachable arm and no loop without end. *)

From stdpp Require Import gmap.
From S2P Require Import Prelude Errors Net Eap EapTls IkeCodec TrafficSelector Identity IpsecConfig IkeProposals IkeCrypto IkeSa IkeWorld IkeTransport IkeAuth IkeEngine.

(** Octets decrypt to octets. *)
Class CryptoBytes `{CryptoLib} : Prop := {
  gcm_open_bytes k n a c p : bytes c -> gcm_open k n a c = Some p -> bytes p;
  cbc_decrypt_bytes k iv c : bytes c -> bytes (cbc_decrypt k iv c);
}.

(** What the engine needs of the EAP method: an invariant that a fresh method
    has and that requests keep, under which requests return. *)
Class EapTlsSetupLaws `{EapTlsSetup} := {
  eap_inv : EapTlsM -> Prop;
  from_config_returns c w : returns (eap_tls_from_config c w).2;
  from_config_inv c w w' m : eap_tls_from_config c w = (w', Ok m) -> eap_inv m;
  eap_request_ok m id body :
    eap_inv m -> bytes body ->
    returns (handle_request m id body).2 /\ eap_inv (handle_request m id body).1;
}.

Create HintDb keeps.

Module EngineTotal.
Import Runner Engine TransportFacts AuthFacts CryptoFacts IkeCodecTotal IkeSaFacts.

(** ** Parts that return *)

Lemma encode_chain_loop_returns bodies : returns (encode_chain_loop bodies).
Proof.
  induction bodies as [|[k b] l IH]; [done|]. cbn [encode_chain_loop].
  case_match; [done|]. apply returns_bind; [done|done].
Qed.

Lemma encode_sa_returns l : returns (encode_sa l).
Proof.
  induction l as [|p l IH]; [done|]. cbn [encode_sa]. unfold encode_proposal.
  returns_tac; auto with returns.
Qed.

Lemma encode_body_returns p : returns (encode_body p).
Proof.
  destruct p; cbn [encode_body]; auto using encode_sa_returns with returns;
    returns_tac; auto with returns;
    try (apply returns_collect; intros;
         unfold encode_ts_selector, encode_delete_spi, encode_config_attribute;
         repeat case_match; auto with returns; returns_tac).
Qed.

Lemma encode_chain_returns l : returns (encode_chain l).
Proof.
  unfold encode_chain. apply returns_bind.
  - apply returns_collect. intros. apply returns_bind; [apply encode_body_returns|done].
  - intros. apply encode_chain_loop_returns.
Qed.

Lemma message_encode_returns m : returns (Message.encode m).
Proof. unfold Message.encode. apply returns_bind; [apply encode_chain_returns|done]. Qed.

Lemma select_ike_returns c r : returns (select_ike c r).
Proof. induction r as [|o r IH]; [done|]. cbn [select_ike]. repeat case_match; done. Qed.

Lemma select_esp_returns c r b : returns (select_esp_with_dh c r b).
Proof. induction r as [|o r IH]; [done|]. cbn [select_esp_with_dh]. repeat case_match; done. Qed.

Lemma select_esp_all_returns c r : returns (select_esp c r).
Proof. apply select_esp_returns. Qed.

Lemma select_esp_initial_returns c r : returns (select_esp_initial c r).
Proof. apply select_esp_returns. Qed.

Lemma narrow_returns a b : returns (narrow a b).
Proof. unfold narrow. by case_match. Qed.

Lemma ts_from_payloads_returns l : returns (ts_from_payloads l).
Proof. unfold ts_from_payloads. repeat case_match; done. Qed.

Lemma narrow_request_returns c l : returns (narrow_request_selectors c l).
Proof.
  apply returns_bind; [apply ts_from_payloads_returns|]. intros [a b] _.
  apply returns_bind; [apply narrow_returns|]. intros. apply returns_bind; [apply narrow_returns|done].
Qed.

Lemma narrow_response_returns c l : returns (narrow_response_selectors c l).
Proof.
  apply returns_bind; [apply ts_from_payloads_returns|]. intros [a b] _.
  apply returns_bind; [apply narrow_returns|]. intros. apply returns_bind; [apply narrow_returns|done].
Qed.

Lemma identity_decode_returns ty data : returns (Identity.decode ty data).
Proof.
  unfold Identity.decode. repeat case_match; try done; apply returns_bind; auto with returns.
Qed.

Lemma id_identity_returns p : returns (initiator_id_identity p).
Proof. destruct p; try done. apply identity_decode_returns. Qed.

Lemma message_decode_returns data : returns (Message.decode data).
Proof.
  unfold Message.decode. apply returns_bind; [apply header_decode_returns|].
  intros h Hh%header_decode_length. returns_tac. apply decode_chain_returns.
Qed.

(** The data of an EAP or an encrypted payload. *)
Definition opaque_data (p : Payload) : option (list Z) :=
  match p with
  | IkeCodec.Eap x | Encrypted _ x => Some x
  | _ => None
  end.

Lemma decode_payload_opaque kind body next p x :
  decode_payload kind body next = Ok p -> opaque_data p = Some x -> x = body.
Proof.
  unfold decode_payload. intros Hp Hx.
  repeat match type of Hp with
    | (if ?b then _ else _) = _ => destruct b
    | mbind _ _ = Ok _ => apply bind_ok in Hp as (? & _ & Hp)
    | context [let spi_size := _ in _] => cbv zeta in Hp
    end; by simplify_eq/=.
Qed.

(** It is part of what was decoded. *)
Lemma decode_chain_opaque fuel ty data ps p x :
  bytes data -> decode_chain_loop fuel ty data = Ok ps -> p ∈ ps -> opaque_data p = Some x ->
  bytes x.
Proof.
  revert ty data ps. induction fuel as [|fuel IH]; intros ty data ps Hb Hd Hin Hx; [done|].
  cbn [decode_chain_loop] in Hd.
  destruct (ty =? payload_type.NONE).
  { case_match; simplify_eq. by apply elem_of_nil in Hin. }
  case_match; [done|]. apply bind_ok in Hd as (next & _ & Hd).
  apply bind_ok in Hd as (len & _ & Hd). case_match; [done|].
  apply bind_ok in Hd as (body & Hbody & Hd). apply bind_ok in Hd as (q & Hq & Hd).
  apply bind_ok in Hd as (data' & Hdata' & Hd). apply bind_ok in Hd as (rest & Hrest & Hd).
  injection Hd as <-. unfold slice_from in Hdata'.
  apply slice_ok in Hbody as [_ ->]. apply slice_ok in Hdata' as [_ ->].
  apply elem_of_cons in Hin as [->|Hin].
  - rewrite (decode_payload_opaque _ _ _ _ _ Hq Hx). by apply Forall_take, Forall_drop.
  - destruct (ty =? payload_type.SK); [case_match; simplify_eq; by apply elem_of_nil in Hin|].
    eapply (IH next); [|exact Hrest|exact Hin|exact Hx]. by apply Forall_take, Forall_drop.
Qed.

(** The encrypted data of a message is made of octets. *)
Definition wire_bytes (m : Message.t) : Prop :=
  forall p x, p ∈ Message.payloads m -> opaque_data p = Some x -> bytes x.

Lemma message_decode_wire data m : bytes data -> Message.decode data = Ok m -> wire_bytes m.
Proof.
  intros Hb Hd p x Hp Hx. unfold Message.decode in Hd.
  repeat match type of Hd with
    | (if ?b then _ else _) = _ => destruct b; [done|]
    | mbind _ _ = Ok _ => let H := fresh "Hs" in apply bind_ok in Hd as (? & H & Hd)
    end. injection Hd as <-. cbn in Hp.
  match goal with H : decode_chain _ _ = Ok _ |- _ =>
    eapply decode_chain_opaque; [|exact H|exact Hp|exact Hx] end.
  repeat match goal with
    | H : slice_from _ _ = Ok _ |- _ => unfold slice_from in H
    | H : slice _ _ _ = Ok _ |- _ => apply slice_ok in H as [_ ->]
    end.
  by repeat apply Forall_take, Forall_drop.
Qed.

Section total.
Context `{HW : IkeWorld} `{HE : !EapTlsSetup} `{HL : !CertLib} `{HC : CryptoLib}.
Context `{HWL : !IkeWorldLaws} `{HCL : !CryptoLaws} `{HCB : !CryptoBytes} `{HEL : !EapTlsSetupLaws}.

(** The configuration, which no method changes. *)
Context (cfg : IpsecConfig.t).

(** Its durations are u64 seconds.  The deadlines computed from them stay in the range
    of the clocks when they are at most 2^61 seconds. *)
Definition moderate : Prop :=
  0 <= dpd_interval (IpsecConfig.dpd cfg) <= 2 ^ 61
  /\ 0 <= dpd_timeout (IpsecConfig.dpd cfg) <= 2 ^ 61
  /\ 0 <= child_lifetime (IpsecConfig.child cfg) <= 2 ^ 61.

(** What a method leaves: a value, an error, or a panic when a duration is not moderate. *)
Definition ewp {A} (m : st Runner.t IpsecError.t A) (Q : A -> Runner.t -> Prop)
  (R : IpsecError.t -> Runner.t -> Prop) (s : Runner.t) : Prop :=
  match m s with
  | (s', Ok a) => Q a s'
  | (s', Err e) => R e s'
  | (_, Panic) => ~ moderate
  | (_, Diverge) => False
  end.

Lemma ewp_bind {A B} (c : st Runner.t IpsecError.t A) (k : A -> st Runner.t IpsecError.t B) Q R s :
  ewp c (fun a s' => ewp (k a) Q R s') R s -> ewp (c ≫= k) Q R s.
Proof using Type. unfold ewp, mbind, st_bind. by destruct (c s) as [s' [a|e| |]]. Qed.

Lemma ewp_mono {A} (c : st Runner.t IpsecError.t A) (Q Q' : A -> Runner.t -> Prop) R R' s :
  ewp c Q R s -> (forall a s', Q a s' -> Q' a s') ->
  (forall e s', R e s' -> R' e s') -> ewp c Q' R' s.
Proof using Type. unfold ewp. destruct (c s) as [s' [a|e| |]]; auto. Qed.

Lemma ewp_mret {A} (a : A) (Q : A -> Runner.t -> Prop) R s : Q a s -> ewp (mret a) Q R s.
Proof using Type. done. Qed.

Lemma ewp_get (Q : Runner.t -> Runner.t -> Prop) R s : Q s s -> ewp get Q R s.
Proof using Type. done. Qed.

Lemma ewp_modify f (Q : unit -> Runner.t -> Prop) R s : Q tt (f s) -> ewp (modify f) Q R s.
Proof using Type. done. Qed.

Lemma ewp_lift {A} (m : outcome IpsecError.t A) (Q : A -> Runner.t -> Prop) R s :
  returns m -> (forall a, m = Ok a -> Q a s) -> (forall e, m = Err e -> R e s) -> ewp (lift m) Q R s.
Proof using Type. unfold ewp, lift. destruct m; cbn; auto; done. Qed.

(** A sum of a clock and durations. *)
Lemma ewp_add t d (Q : Z -> Runner.t -> Prop) R s :
  (moderate -> t + d < 2 ^ 63 * 1000) -> Q (t + d) s -> ewp (lift (instant_add t d)) Q R s.
Proof using Type.
  intros Hm HQ. unfold ewp, lift, instant_add.
  destruct (Z.ltb_spec (t + d) (2 ^ 63 * 1000)) as [_|Hge]; [exact HQ|].
  intros H. specialize (Hm H). lia.
Qed.

Lemma ewp_now (Q : Z -> Runner.t -> Prop) R s :
  (forall w t, clock_value t -> Q t (put_world w s)) -> ewp now Q R s.
Proof using All.
  intros HQ. unfold ewp, now, on_world, read_clock.
  pose proof (instant_now_range (world s)) as Hr. destruct (instant_now (world s)) as [w t].
  by apply HQ.
Qed.

(** What a clock shows leaves room for the durations. *)
Lemma clock_room t d : clock_value t -> d <= 2 ^ 62 * 1000 -> t + d < 2 ^ 63 * 1000.
Proof using Type. unfold clock_value. change (2 ^ 63 / 10 ^ 6) with 9223372036854. lia. Qed.

(** ** The invariant *)

Definition wf_runtime (i : IkeRuntime.t) : Prop :=
  let e := IkeProposal.encryption (IkeRuntime.suite i) in
  wf_key e (IkeKeys.sk_ei (IkeRuntime.keys i)) /\ wf_key e (IkeKeys.sk_er (IkeRuntime.keys i)).

Definition eap_ok (e : EapSession) : Prop :=
  forall m, EapPeer.method e = Some m -> eap_inv m.

Record inv_fields (c : IpsecConfig.t) (n : nat) (i : option IkeRuntime.t)
  (r : option Retransmit.t) (e : option EapSession) : Prop := {
  inv_config : c = cfg;
  inv_peer : (n < length (IpsecConfig.peers c))%nat;
  inv_retries : 0 <= dpd_retries (IpsecConfig.dpd c) <= 255;
  inv_ike : forall x, i = Some x -> wf_runtime x;
  inv_retransmit : forall x, r = Some x -> fresh x;
  inv_eap : forall x, e = Some x -> eap_ok x;
}.

(** The invariant of the task. *)
Definition inv (s : Runner.t) : Prop :=
  inv_fields (config s) (peer_index s) (ike s) (retransmit s) (eap s).

(** The invariant, with an IKE SA when [b]. *)
Definition holds (b : bool) (s : Runner.t) : Prop := inv s /\ (b = true -> is_Some (ike s)).

(** A method that returns and keeps it. *)
Definition keeps {A} (b : bool) (m : st Runner.t IpsecError.t A) : Prop :=
  forall s, holds b s -> ewp m (fun _ => holds b) (fun _ => holds b) s.

Lemma keeps_bind {A B} b (m : st _ _ A) (k : A -> st Runner.t IpsecError.t B) :
  keeps b m -> (forall a, keeps b (k a)) -> keeps b (m ≫= k).
Proof using Type.
  intros Hm Hk s Hs. apply ewp_bind. eapply ewp_mono; [by apply Hm| |done].
  intros a s' Hs'. by apply Hk.
Qed.

Lemma keeps_get {B} b (k : Runner.t -> st Runner.t IpsecError.t B) :
  (forall s, holds b s -> keeps b (k s)) -> keeps b (get ≫= k).
Proof using Type. intros Hk s Hs. apply ewp_bind, ewp_get. by apply Hk. Qed.

Lemma keeps_lift {A} b (m : outcome IpsecError.t A) : returns m -> keeps b (lift m).
Proof using Type. intros Hm s Hs. by apply ewp_lift. Qed.

Lemma keeps_lift_bind {A B} b (m : outcome IpsecError.t A) (k : A -> st Runner.t _ B) :
  returns m -> (forall a, m = Ok a -> keeps b (k a)) -> keeps b (lift m ≫= k).
Proof using Type.
  intros Hm Hk s Hs. apply ewp_bind, ewp_lift; [done|intros a Ha; by apply Hk|done].
Qed.

Lemma keeps_mret {A} b (a : A) : keeps b (mret a).
Proof using Type. by intros s Hs. Qed.

Lemma keeps_throw {A} b e : keeps b (throw (A := A) e).
Proof using Type. by intros s Hs. Qed.

Lemma keeps_require {A} b (o : option A) e : keeps b (require o e).
Proof using Type. apply keeps_lift, returns_ok_or. Qed.

Lemma keeps_modify b f : (forall s, holds b s -> holds b (f s)) -> keeps b (modify f).
Proof using Type. intros Hf s Hs. apply ewp_modify. by apply Hf. Qed.

Lemma keeps_on_world {A} b (m : io A) : (forall w, returns (m w).2) -> keeps b (on_world m).
Proof using Type.
  intros Hm s Hs. unfold ewp, on_world. specialize (Hm (world s)).
  by destruct (m (world s)) as [w [a|e| |]].
Qed.

Lemma keeps_weaken {A} (m : st _ _ A) : keeps true m -> forall s, holds true s ->
  ewp m (fun _ => holds false) (fun _ => holds false) s.
Proof using Type.
  intros Hm s Hs. eapply ewp_mono; [by apply Hm|..]; intros ? s' [Hi _]; by split.
Qed.

Lemma keeps_the_ike {B} (k : IkeRuntime.t -> st Runner.t IpsecError.t B) :
  (forall i, wf_runtime i -> keeps true (k i)) -> keeps true (the_ike ≫= k).
Proof using Type.
  intros Hk s [Hi Hs]. apply ewp_bind. unfold the_ike. apply ewp_bind, ewp_get.
  destruct (Hs eq_refl) as [i Hi']. rewrite Hi'. apply (ewp_lift (Ok i)); [done| |done].
  intros ? <-%Ok_inj. apply Hk; [by apply Hi|by split].
Qed.

Lemma keeps_selectors b : keeps b peer_selectors.
Proof using Type.
  intros s [Hi Hs]. unfold peer_selectors. apply ewp_bind, ewp_get, ewp_bind.
  apply ewp_lift; [apply returns_idx, Hi|by split|by split].
Qed.

Lemma keeps_io_read {A} b (f : World -> World * A) : keeps b (on_world (read_clock f)).
Proof using Type. apply keeps_on_world. intros w. unfold read_clock. by destruct (f w). Qed.

Lemma keeps_now b : keeps b now.
Proof using Type. apply keeps_io_read. Qed.

Lemma keeps_after b d : (moderate -> d <= 2 ^ 62 * 1000) -> keeps b (after d).
Proof using All.
  intros Hd s Hs. unfold after. apply ewp_bind, ewp_now. intros w t Ht. apply ewp_add; [|exact Hs].
  intros Hm. apply clock_room; auto.
Qed.

(** [Instant::now() + d + e]. *)
Lemma keeps_after_both {B} b d e (k : Z -> st Runner.t IpsecError.t B) :
  (moderate -> 0 <= e /\ d + e <= 2 ^ 62 * 1000) -> (forall t, keeps b (k t)) ->
  keeps b (t ← after d; t ← lift (instant_add t e); k t).
Proof using All.
  intros Hd Hk s Hs. unfold after. apply ewp_bind, ewp_bind, ewp_now. intros w t Ht.
  apply ewp_add; [intros Hm; apply clock_room; [done|]; specialize (Hd Hm); lia|].
  apply ewp_bind, ewp_add; [|by apply Hk].
  intros Hm. pose proof (clock_room t (d + e) Ht). specialize (Hd Hm). lia.
Qed.

Lemma keeps_random b n : keeps b (on_world (random_bytes n)).
Proof using Type. apply keeps_on_world. intros w. apply ask_returns. Qed.

Lemma keeps_random_u64 b : keeps b (on_world random_u64).
Proof using Type.
  apply keeps_on_world. intros w. apply st_bind_returns; [apply ask_returns|done].
Qed.

Lemma keeps_random_u32 b : keeps b (on_world random_u32).
Proof using Type.
  apply keeps_on_world. intros w. apply st_bind_returns; [apply ask_returns|done].
Qed.

Lemma keeps_dh b g : keeps b (on_world (dh_generate g)).
Proof using Type. apply keeps_on_world. intros w. apply dh_generate_returns. Qed.

Lemma keeps_send b m : keeps b (send m).
Proof using Type.
  apply keeps_get. intros s _. apply keeps_on_world. intros w. apply ask_unit_returns.
Qed.

Lemma keeps_push b e : keeps b (push_event e).
Proof using Type. by apply keeps_modify. Qed.

Lemma keeps_set_state b st : keeps b (set_state st).
Proof using Type. by apply keeps_modify. Qed.

Lemma holds_retransmit b r s :
  (forall x, r = Some x -> fresh x) -> holds b s -> holds b (put_retransmit r s).
Proof using Type. intros Hr [[] Hs]. split; [by split|done]. Qed.

Lemma keeps_no_retransmit b : keeps b (modify (put_retransmit None)).
Proof using Type. apply keeps_modify. intros s. by apply holds_retransmit. Qed.

Lemma keeps_arm b m d n :
  1 <= n <= 255 -> (moderate -> d <= 2 ^ 62 * 1000) -> keeps b (arm_retransmit m d n).
Proof using All.
  intros Hn Hd s Hs. unfold arm_retransmit. apply ewp_bind, ewp_now. intros w t Ht.
  apply ewp_bind. unfold ewp at 1, lift.
  pose proof (new_fresh m d n t) as Hf. unfold Retransmit.new in *.
  destruct (instant_add t d) as [x|e| |] eqn:Hx; unfold instant_add in Hx; case_match; try done.
  - apply ewp_modify, holds_retransmit; [|exact Hs]. intros r [= <-].
    apply Hf; [apply Ht|done|done].
  - intros Hm. pose proof (clock_room t d Ht (Hd Hm)). lia.
Qed.

Lemma keeps_arm_exchange b m : keeps b (arm_exchange m).
Proof using All.
  apply keeps_get. intros s [Hi _]. apply keeps_arm; [unfold MAX_RETRANSMITS; lia|].
  unfold moderate, exchange_timeout, secs, RETRANSMIT_TIMEOUT.
  rewrite (inv_config _ _ _ _ _ Hi). lia.
Qed.

(** ** Sealing, opening and the transport *)

Lemma encrypt_returns e k iv p aad : wf_key e k -> returns (encrypt e k iv p aad).
Proof using All.
  intros Hk. unfold encrypt, encrypt_gcm, encrypt_cbc, gcm_key, cbc_key.
  destruct (EncryptionAlgorithm.is_aead e) eqn:Ha.
  - apply returns_bind; [|intros [a n] _; repeat case_match; auto with returns].
    unfold wf_key in Hk. replace (_ <? _)%nat with false by lia. by case_match.
  - repeat case_match; try done; apply returns_bind; try done; by repeat case_match.
Qed.

Lemma seal_message_returns random header ps e i ke ka :
  (forall n, returns (random n)) -> wf_key e ke ->
  returns (seal_message random header ps e i ke ka).
Proof using All.
  intros Hr Hk. unfold seal_message. apply returns_bind; [apply encode_chain_returns|].
  intros chain _. apply returns_bind; [apply Hr|]. intros iv _.
  apply returns_bind; [by apply encrypt_returns|]. intros ct _. apply returns_bind.
  - case_bool_decide as Hi; [done|]. edestruct integrity_len as (t & Ht & _); [done|].
    rewrite Ht. done.
  - intros m _. by case_match.
Qed.

Lemma runtime_outbound i : wf_runtime i ->
  wf_key (IkeProposal.encryption (IkeRuntime.suite i))
    (IkeKeys.outbound_encryption (IkeRuntime.keys i) (IkeRuntime.role i)).
Proof using Type. intros [? ?]. unfold IkeKeys.outbound_encryption. by case_match. Qed.

Lemma runtime_inbound i : wf_runtime i ->
  wf_key (IkeProposal.encryption (IkeRuntime.suite i))
    (IkeKeys.inbound_encryption (IkeRuntime.keys i) (IkeRuntime.role i)).
Proof using Type. intros [? ?]. unfold IkeKeys.inbound_encryption. by case_match. Qed.

Lemma keeps_seal b h ps : keeps b (seal h ps).
Proof using All.
  apply keeps_get. intros s [Hi _]. apply keeps_lift_bind; [apply returns_ok_or|].
  intros i Hs. destruct (ike s) as [i'|] eqn:Hike; [|done]. injection Hs as <-.
  pose proof (inv_ike _ _ _ _ _ Hi i' Hike) as Hwf. intros s1 Hs1. apply ewp_bind.
  assert (Hend : forall random s2, holds b s2 -> (forall n, returns (random n)) ->
    ewp (lift (seal_message random h ps (IkeProposal.encryption (IkeRuntime.suite i'))
                (IkeProposal.integrity (IkeRuntime.suite i'))
                (IkeKeys.outbound_encryption (IkeRuntime.keys i') (IkeRuntime.role i'))
                (IkeKeys.outbound_integrity (IkeRuntime.keys i') (IkeRuntime.role i'))))
      (fun _ => holds b) (fun _ => holds b) s2).
  { intros random s2 Hs2 Hr. apply ewp_lift; [|done|done].
    apply seal_message_returns; [done|by apply runtime_outbound]. }
  unfold draw_iv. destruct (encode_chain ps); try (apply ewp_mret, Hend; done).
  unfold ewp at 1, random_bytes, ask. destruct (getrandom _ _) as [w [e|l]]; by apply Hend.
Qed.

Lemma open_encrypted_returns s m : inv s -> returns (open_encrypted s m).
Proof using All.
  intros Hi. unfold open_encrypted. apply returns_bind; [apply returns_ok_or|]. intros i Hs.
  destruct (ike s) as [i'|] eqn:Hike; [|done]. injection Hs as <-.
  apply returns_bind; [apply returns_ok_or|]. intros p _.
  apply open_message_returns, runtime_inbound. by apply Hi.
Qed.

Lemma open_message_eap h next data e i ke ka ps p x :
  bytes data -> open_message h (Encrypted next data) e i ke ka = Ok ps ->
  p ∈ ps -> opaque_data p = Some x -> bytes x.
Proof using All.
  intros Hb. unfold open_message. case_match; [done|]. intros Ho Hp Hx.
  apply bind_ok in Ho as (? & _ & Ho). apply bind_ok in Ho as (iv & _ & Ho).
  apply bind_ok in Ho as (rest & Hrest & Ho). apply bind_ok in Ho as (ct & Hct & Ho).
  apply bind_ok in Ho as (pt & Hpt & Ho). apply bind_ok in Ho as (pad & _ & Ho).
  case_match; [done|]. apply bind_ok in Ho as (body & Hbody & Ho).
  assert (Hctb : bytes ct).
  { unfold slice_from in Hrest. apply slice_ok in Hrest as [_ ->]. apply slice_ok in Hct as [_ ->].
    by repeat apply Forall_take, Forall_drop. }
  apply slice_ok in Hbody as [_ ->]. eapply decode_chain_opaque; [|exact Ho|exact Hp|exact Hx].
  apply Forall_take, Forall_drop. unfold decrypt, decrypt_gcm, decrypt_cbc in Hpt.
  destruct (EncryptionAlgorithm.is_aead e).
  - apply bind_ok in Hpt as ([k n] & _ & Hpt). cbn in Hpt.
    destruct (gcm_open _ _ _ _) eqn:Hg; [|done]. injection Hpt as <-. by eapply gcm_open_bytes.
  - repeat (case_match; [done|]). apply bind_ok in Hpt as (? & _ & Hpt). injection Hpt as <-.
    by apply cbc_decrypt_bytes.
Qed.

(** The payloads of an encrypted message, and the IKE SA they belong to. *)
Lemma keeps_open {B} m (k : Runner.t -> list Payload -> st Runner.t IpsecError.t B) :
  (forall s ps, holds true s ->
     (wire_bytes m -> forall x, first_eap ps = Some x -> bytes x) -> keeps true (k s ps)) ->
  keeps false (get ≫= fun s => lift (open_encrypted s m) ≫= k s).
Proof using All.
  intros Hk s [Hi Hs]. apply ewp_bind, ewp_get, ewp_bind, ewp_lift;
    [by apply open_encrypted_returns| |by split].
  intros ps Ho.
  assert (Hlive : holds true s).
  { split; [done|]. intros _. unfold open_encrypted in Ho. by destruct (ike s). }
  apply keeps_weaken; [|done]. apply Hk; [done|]. intros Hw x Hx.
  unfold open_encrypted in Ho. apply bind_ok in Ho as (i & _ & Ho).
  apply bind_ok in Ho as (p & Hp & Ho). destruct p as [| | | | | | | | | | | |next data|]; try done.
  assert (Hin : Encrypted next data ∈ Message.payloads m)
    by (destruct (Message.payloads m); simplify_eq/=; by left).
  eapply (open_message_eap _ _ _ _ _ _ _ _ (IkeCodec.Eap x)); [by eapply Hw|exact Ho| |done].
  unfold first_eap in Hx. apply head_Some in Hx as [l Hl].
  assert (Hx' : x ∈ omap (fun p => match p with IkeCodec.Eap x => Some x | _ => None end) ps)
    by (rewrite Hl; by left).
  apply list_elem_of_omap in Hx' as (q & Hq & Hx). by destruct q; simplify_eq.
Qed.

Lemma keeps_on_transport {A} b (m : st (World * IkeTransport.t) IpsecError.t A) :
  (forall x, returns (m x).2) -> keeps b (on_transport m).
Proof using Type.
  intros Hm s Hs. unfold ewp, on_transport. specialize (Hm (world s, transport s)).
  by destruct (m _) as [[w t] [a|e| |]].
Qed.

Lemma keeps_nat_t b : keeps b (on_transport IkeTransport.enable_nat_t).
Proof using Type.
  apply keeps_on_transport. intros [w t]. apply st_bind_returns; [done|]. intros _ [w1 t1].
  apply st_bind_returns; [done|]. intros t2 [w2 t3]. case_match; [done|].
  apply st_bind_returns; [|intros a [w4 t4]; apply st_bind_returns; [|done]];
    unfold IkeTransport.on_world, IkeTransport.local_addr, ask; by repeat case_match; simplify_eq.
Qed.

Lemma keeps_source b a : keeps b (source_address a).
Proof using Type.
  apply keeps_get. intros s _. case_match; [apply keeps_mret|]. apply keeps_on_world. intros w.
  apply st_bind_returns; [apply ask_returns|]. intros l w1. case_match; [done|].
  apply st_bind_returns; [apply ask_returns|]. intros p w2.
  apply st_bind_returns; [apply ask_unit_returns|]. intros _ w3.
  apply st_bind_returns; [apply ask_returns|done].
Qed.

Lemma keeps_own_port b : keeps b own_port.
Proof using Type.
  apply keeps_get. intros s _. apply keeps_bind; [|intros; apply keeps_mret].
  apply keeps_on_world. intros w. apply ask_returns.
Qed.

(** ** The handlers *)

#[local] Hint Resolve keeps_mret keeps_throw keeps_require keeps_now keeps_random
  keeps_random_u64 keeps_random_u32 keeps_dh keeps_send keeps_push keeps_set_state
  keeps_no_retransmit keeps_arm_exchange keeps_seal keeps_nat_t keeps_source keeps_own_port
  keeps_selectors keeps_io_read : keeps.

#[local] Hint Resolve message_encode_returns message_decode_returns select_ike_returns
  select_esp_all_returns select_esp_initial_returns narrow_request_returns narrow_response_returns id_identity_returns
  dh_agree_returns psk_verify_returns verify_peer_returns verify_signature_returns
  header_decode_returns : returns.

(** [keeps_tac] follows the binds of a handler. *)
Ltac keeps_step :=
  match goal with
  | |- forall _, keeps _ _ => intros ?
  | |- keeps _ (let _ := _ in _) => cbv zeta
  | |- keeps _ (get ≫= _) => apply keeps_get; intros ? ?
  | |- keeps true (the_ike ≫= _) => apply keeps_the_ike; intros ? ?
  | |- keeps _ (after _ ≫= fun t => lift (instant_add t _) ≫= _) =>
      apply keeps_after_both; [|intros ?]
  | |- keeps _ (lift _ ≫= _) => apply keeps_lift_bind; [solve [auto with returns]|intros ? _]
  | |- keeps _ (_ ≫= _) => apply keeps_bind; [|intros ?]
  | |- keeps _ _ => solve [auto with keeps]
  | |- keeps _ (modify _) => apply keeps_modify; intros ? Hkeep; exact Hkeep
  | |- keeps _ (lift _) => apply keeps_lift; solve [auto with returns]
  | |- keeps _ (match ?x with _ => _ end) => destruct x
  end.
Ltac keeps_tac := repeat keeps_step.

Lemma keeps_next_request b e : keeps b (next_request e).
Proof using Type. unfold next_request. keeps_tac. Qed.

Lemma keeps_plain_notify b a c d e f : keeps b (send_plain_notify a c d e f).
Proof using Type. unfold send_plain_notify. keeps_tac. Qed.
#[local] Hint Resolve keeps_next_request keeps_plain_notify : keeps.

Lemma holds_child b c s :
  holds b s -> holds b (put_ike (IkeRuntime.put_child c <$> ike s) s).
Proof using Type.
  intros [[? ? ? Hi ? ?] Hs]. split; [split; try done|].
  - cbn. intros x Hx. destruct (ike s) as [i|]; [|done]. injection Hx as <-. by apply (Hi i).
  - intros Hb. cbn. by destruct (Hs Hb) as [i ->].
Qed.

Lemma keeps_remove b r : keeps b (remove_child r).
Proof using Type.
  apply keeps_bind; [apply keeps_modify; intros s; by apply holds_child|]. keeps_tac.
Qed.

Lemma rekey_after_room s : inv s -> moderate -> rekey_after s <= 2 ^ 62 * 1000.
Proof using All.
  intros Hi Hm. unfold rekey_after, moderate in *. rewrite (inv_config _ _ _ _ _ Hi).
  pose proof (mul_percent_range (secs (child_lifetime (IpsecConfig.child cfg)))
    (Z.max 1 (Z.min 99 (child_margin_percent (IpsecConfig.rekey cfg))))) as Hr.
  unfold secs in *. lia.
Qed.

Lemma interval_room s :
  inv s -> moderate -> secs (dpd_interval (IpsecConfig.dpd (config s))) <= 2 ^ 62 * 1000.
Proof using Type. intros Hi. unfold moderate, secs. rewrite (inv_config _ _ _ _ _ Hi). lia. Qed.

Lemma ewp_expiry t s (Q : Z -> Runner.t -> Prop) R :
  0 <= t <= 2 ^ 63 / 10 ^ 9 -> (forall x, Q x s) ->
  ewp (lift (system_add t (child_lifetime (IpsecConfig.child cfg)))) Q R s.
Proof using Type.
  change (2 ^ 63 / 10 ^ 9) with 9223372036.
  intros Ht HQ. unfold ewp, lift, system_add.
  destruct (Z.ltb_spec (t + child_lifetime (IpsecConfig.child cfg)) (2 ^ 63)); [by apply HQ|].
  unfold moderate. lia.
Qed.

Lemma keeps_install b h : keeps b (install_child h).
Proof using All.
  intros s [Hi Hs]. unfold install_child. apply ewp_bind. unfold ewp at 1, on_world, read_clock.
  pose proof (system_now_range (world s)) as Hr. destruct (system_now (world s)) as [w t].
  apply ewp_bind, ewp_get, ewp_bind. set (s0 := put_world w s).
  assert (Hs0 : holds b s0) by by split.
  replace (config s0) with cfg by (symmetry; apply Hi). apply ewp_expiry; [done|]. intros x.
  revert s0 Hs0. intros s0 Hs0. rewrite <- (inv_config _ _ _ _ _ (proj1 Hs0)).
  match goal with |- ewp ?m _ _ _ => assert (keeps b m) as Hk; [|by apply Hk] end.
  apply keeps_bind.
  - destruct (ike s0) as [i|] eqn:Hike; [|apply keeps_mret]. apply keeps_bind; [|keeps_tac].
    apply keeps_modify. intros s1 [[] _]. split; [split; try done|done].
    cbn. intros y [= <-]. by apply (inv_ike _ _ _ _ _ (proj1 Hs0) i).
  - intros _. destruct Hs0 as [Hi0 _].
    keeps_tac; apply keeps_after; by first [apply interval_room|apply rekey_after_room].
Qed.

Lemma child_keys_returns i a b c d e f g l r : returns (child_keys i a b c d e f g l r).
Proof using All.
  unfold child_keys. destruct (child_keys_spec (IkeProposal.prf (IkeRuntime.suite i))
    (IkeKeys.sk_d (IkeRuntime.keys i)) a b c (ChildProposal.encryption d)
    (ChildProposal.integrity d) e f g l r l r (ChildProposal.esn d)) as (hi & _ & Hi & _).
  destruct (child_keys_spec (IkeProposal.prf (IkeRuntime.suite i))
    (IkeKeys.sk_d (IkeRuntime.keys i)) a b c (ChildProposal.encryption d)
    (ChildProposal.integrity d) f e g l r l r (ChildProposal.esn d)) as (_ & hr & _ & Hr & _).
  destruct (IkeRuntime.role i); [by rewrite Hi|by rewrite Hr].
Qed.
#[local] Hint Resolve keeps_remove keeps_install : keeps.
#[local] Hint Resolve child_keys_returns : returns.

Lemma local_id_body_returns s : returns (local_id_body s).
Proof using Type.
  unfold local_id_body. apply returns_bind; [|done]. by destruct (local_identity _) as [[]| | | | |].
Qed.
#[local] Hint Resolve local_id_body_returns : returns.

Lemma keeps_certificate_auth c l f : keeps true (certificate_auth c l f).
Proof using Type.
  unfold certificate_auth. apply keeps_bind; [apply keeps_on_world, load_returns|]. intros la.
  apply keeps_the_ike. intros i _.
  apply keeps_bind; [apply keeps_on_world; intros; apply sign_returns|keeps_tac].
Qed.

Lemma keeps_psk_auth c f : keeps true (psk_auth c f).
Proof using Type. unfold psk_auth. keeps_tac. Qed.
#[local] Hint Resolve keeps_certificate_auth keeps_psk_auth : keeps.

Lemma eap_new_ok c w w' e : eap_session_new c w = (w', Ok e) -> eap_ok e.
Proof using All.
  unfold eap_session_new. intros He. apply st_bind_inv in He as
    [(w1 & [] & _ & He)|[(x & _ & He)|[[_ He]|[_ He]]]]; try done.
  apply st_bind_inv in He as [(w2 & m & Hm & He)|[(x & _ & He)|[[_ He]|[_ He]]]]; try done.
  injection He as <- <-. intros m' [= <-]. destruct (eap_tls_from_config c w1) as [w3 r] eqn:Hc.
  injection Hm as <- Hr. destruct r; try done. injection Hr as <-. by eapply from_config_inv.
Qed.

Lemma eap_new_returns c w : returns (eap_session_new c w).2.
Proof using All.
  unfold eap_session_new. apply st_bind_returns.
  - unfold lift, validate_eap_tls. cbn. repeat case_match; try done;
      repeat (apply returns_bind; [by case_match|intros ? _]); by repeat case_match.
  - intros _ w1. apply st_bind_returns; [|done].
    pose proof (from_config_returns c w1) as Hr. destruct (eap_tls_from_config c w1) as [w2 r].
    by destruct r.
Qed.

Lemma holds_eap b e s : eap_ok e -> holds b s -> holds b (put_eap (Some e) s).
Proof using All. intros He [[] Hs]. split; [split; try done|done]. by intros x [= <-]. Qed.

Lemma keeps_initiator_auth a l : keeps true (initiator_auth a l).
Proof using All.
  destruct a as [secret|c|c]; cbn [initiator_auth]; [keeps_tac..|].
  intros s Hs. apply ewp_bind. unfold ewp at 1, on_world.
  pose proof (eap_new_returns c (world s)) as Hr.
  destruct (eap_session_new c (world s)) as [w [e|e| |]] eqn:He; try done.
  apply ewp_bind, ewp_modify, ewp_mret. apply holds_eap; [by eapply eap_new_ok|done].
Qed.
#[local] Hint Resolve keeps_initiator_auth : keeps.

Lemma keeps_send_auth : keeps true send_auth.
Proof using All. unfold send_auth. keeps_tac. Qed.
#[local] Hint Resolve keeps_send_auth : keeps.

Lemma keeps_send_sa_init b : keeps b send_sa_init.
Proof using All. unfold send_sa_init. keeps_tac. Qed.

Lemma keeps_sa_init_suite b m : keeps b (sa_init_suite m).
Proof using All. unfold sa_init_suite. keeps_tac; apply keeps_lift; by repeat case_match. Qed.
#[local] Hint Resolve keeps_send_sa_init keeps_sa_init_suite : keeps.

Lemma derive_wf p sh ni nr si sr e i k :
  IkeKeys.derive p sh ni nr si sr e i = Ok k ->
  wf_key e (IkeKeys.sk_ei k) /\ wf_key e (IkeKeys.sk_er k).
Proof using All.
  destruct (ike_keys_spec p sh ni nr si sr e i) as (k' & Hk & _ & Hei & Her & _).
  rewrite Hk. by intros [= <-].
Qed.

Lemma derive_returns p sh ni nr si sr e i : returns (IkeKeys.derive p sh ni nr si sr e i).
Proof using All. destruct (ike_keys_spec p sh ni nr si sr e i) as (k' & Hk & _). by rewrite Hk. Qed.

Lemma index_of_lt {A} (f : A -> bool) l n : index_of f l = Some n -> (n < length l)%nat.
Proof using Type.
  revert n. induction l as [|x l IH]; intros n; cbn [index_of]; [done|].
  destruct (f x); [intros [= <-]; cbn; lia|]. destruct (index_of f l) as [m|]; [|done].
  intros [= <-]. specialize (IH m eq_refl). cbn. lia.
Qed.

Lemma holds_new_ike b i s : wf_runtime i -> holds b s -> holds true (put_ike (Some i) s).
Proof using Type. intros Hi [[] Hs]. split; [split; try done|done]. by intros x [= <-]. Qed.

Lemma keeps_sa_init_request m raw source : keeps false (handle_sa_init_request raw source m).
Proof using All.
  unfold handle_sa_init_request. apply keeps_get. intros s0 [Hi0 _]. case_match; [keeps_tac|].
  apply keeps_bind; [keeps_tac|]. intros peer. apply keeps_bind; [keeps_tac|]. intros _.
  apply keeps_bind; [keeps_tac|]. intros [[[suite n] public] nonce_i].
  apply keeps_bind; [keeps_tac|]. intros private. apply keeps_lift_bind; [auto with returns|].
  intros shared _. apply keeps_bind; [keeps_tac|]. intros spi.
  apply keeps_bind; [keeps_tac|]. intros nonce_r.
  apply keeps_lift_bind; [apply derive_returns|]. intros keys Hkeys%derive_wf.
  do 2 (apply keeps_bind; [keeps_tac|]; intros ?). apply keeps_lift_bind; [auto with returns|].
  intros response _. do 2 (apply keeps_bind; [keeps_tac|]; intros ?).
  apply keeps_bind.
  { apply keeps_modify. intros s Hs. split; [|done]. by eapply holds_new_ike. }
  intros _. apply keeps_bind; [|keeps_tac]. apply keeps_modify. intros s [[Hc Hp ? ? ? ?] Hs].
  split; [split; try done|done]. cbn. rewrite Hc.
  destruct (index_of _ _) as [k|] eqn:Hx; cbn; [|by rewrite <- Hc].
  apply index_of_lt in Hx. by rewrite <- (inv_config _ _ _ _ _ Hi0).
Qed.

Lemma sa_init_answer_returns l m : returns (sa_init_answer l m).
Proof using Type.
  unfold sa_init_answer, parse_selected_ike. returns_tac; auto with returns.
Qed.

Lemma keeps_sa_init_response raw source m : keeps false (handle_sa_init_response raw source m).
Proof using All.
  unfold handle_sa_init_response. apply keeps_get. intros s0 [Hi0 _].
  do 2 (apply keeps_bind; [keeps_tac|]; intros ?).
  apply keeps_lift_bind; [apply sa_init_answer_returns|]. intros [[suite public] nonce_r] _.
  apply keeps_lift_bind; [auto with returns|]. intros shared _.
  apply keeps_lift_bind; [apply derive_returns|]. intros keys Hkeys%derive_wf.
  do 3 (apply keeps_bind; [keeps_tac|]; intros ?).
  intros s Hs. apply ewp_bind, ewp_modify. apply keeps_weaken; [apply keeps_send_auth|].
  by eapply holds_new_ike.
Qed.

Lemma keeps_verify_initiator a ps i l : keeps true (verify_initiator a ps i l).
Proof using All. unfold verify_initiator. keeps_tac. Qed.

Lemma keeps_verify_responder a ps i l : keeps true (verify_responder a ps i l).
Proof using All. unfold verify_responder. keeps_tac. Qed.
#[local] Hint Resolve keeps_verify_initiator keeps_verify_responder : keeps.

(** The arm of [responder_auth] that cannot be reached panics. *)
Lemma keeps_responder_auth a l :
  match a with EapTls _ => False | _ => True end -> keeps true (responder_auth a l).
Proof using All. destruct a; try done; intros _; cbn [responder_auth]; keeps_tac. Qed.

Lemma keeps_auth_request m source : keeps false (handle_auth_request m source).
Proof using All.
  unfold handle_auth_request. do 2 (apply keeps_bind; [keeps_tac|]; intros ?).
  apply keeps_open. intros s ps Hs _. apply keeps_bind; [keeps_tac|]. intros peer.
  apply keeps_bind; [keeps_tac|]. intros id. apply keeps_lift_bind; [auto with returns|].
  intros identity _. apply keeps_bind; [keeps_tac|]. intros _.
  destruct (match auth peer with EapTls _ => true | _ => false end) eqn:Ha.
  - destruct (auth peer); try done. by intros s1 Hs1.
  - assert (Hr : forall l, keeps true (responder_auth (auth peer) l))
      by (intros l; apply keeps_responder_auth; by destruct (auth peer)).
    apply keeps_bind; [keeps_tac|]. intros _. keeps_tac; apply Hr.
Qed.

Lemma eap_parse_bytes data p :
  bytes data -> EapPacket.parse data = Ok (Some p) -> bytes (EapPacket.body p).
Proof using Type.
  intros Hb Hp. unfold EapPacket.parse in Hp.
  repeat match type of Hp with
    | (if ?b then _ else _) = _ => destruct b
    | mbind _ _ = Ok _ => let H := fresh "Hx" in apply bind_ok in Hp as (? & H & Hp)
    end; try done;
  repeat match goal with
    | H : slice_from _ _ = Ok _ |- _ => unfold slice_from in H
    | H : slice _ _ _ = Ok _ |- _ => apply slice_ok in H as [_ ->]
    end; injection Hp as <-; cbn; repeat first [apply Forall_take | apply Forall_drop]; done.
Qed.

(** The session after a packet. *)
Lemma eap_handle_ok e data :
  eap_ok e -> bytes data ->
  returns (eap_session_handle data e).2 /\ eap_ok (eap_session_handle data e).1.
Proof using All.
  intros He Hb. unfold eap_session_handle.
  pose proof (EapPacketFacts.parse_returns data) as Hr.
  destruct (EapPacket.parse data) as [[p|]|x| |] eqn:Hp; try done.
  pose proof (eap_parse_bytes data p Hb Hp) as Hpb.
  assert (Hh : returns (EapPeer.handle_packet e p).2 /\ eap_ok (EapPeer.handle_packet e p).1).
  { unfold EapPeer.handle_packet, EapPeer.answer.
    destruct (EapPeer.method e) as [m|] eqn:Hm; [|repeat case_match; simplify_eq; cbn; auto;
      split; try done; intros m' Hm'; cbn in Hm'; congruence].
    destruct (eap_request_ok m (EapPacket.identifier p) (EapPacket.body p) (He m Hm) Hpb)
      as [Hret Hinv].
    destruct (Eap.handle_request m (EapPacket.identifier p) (EapPacket.body p)) as [m1 r1].
    cbn in Hret, Hinv. destruct r1; try done; repeat case_match; simplify_eq; cbn; auto;
      split; try done; intros m' Hm'; cbn in Hm'; simplify_eq; auto. }
  destruct (EapPeer.handle_packet e p) as [e' [a|x| |]]; cbn in *; try tauto. by destruct a.
Qed.

Lemma keeps_handle_eap data : bytes data -> keeps true (handle_eap data).
Proof using All.
  intros Hb. unfold handle_eap. apply keeps_get. intros s [Hi _].
  apply keeps_lift_bind; [apply returns_ok_or|]. intros e He.
  destruct (eap s) as [e'|] eqn:Hes; [|done]. injection He as <-.
  pose proof (inv_eap _ _ _ _ _ Hi e' Hes) as Hok.
  apply keeps_bind; [|intros [[r|] b]; keeps_tac].
  intros s1 Hs1. unfold ewp. pose proof (eap_handle_ok e' data Hok Hb) as [Hret Hok'].
  destruct (eap_session_handle data e') as [e2 [r|x| |]]; try done; by apply holds_eap.
Qed.

Lemma keeps_addresses b inner dns :
  keeps b (modify (fun s => put_ike (IkeRuntime.put_addresses inner dns <$> ike s) s)).
Proof using Type.
  apply keeps_modify. intros s [[? ? ? Hi ? ?] Hs]. split; [split; try done|].
  - cbn. intros x Hx. destruct (ike s) as [i|]; [|done]. injection Hx as <-. by apply (Hi i).
  - intros Hb. cbn. by destruct (Hs Hb) as [i ->].
Qed.
#[local] Hint Resolve keeps_addresses : keeps.

Lemma keeps_auth_response m : wire_bytes m -> keeps false (handle_auth_response m).
Proof using All.
  intros Hw. unfold handle_auth_response. apply keeps_bind; [keeps_tac|]. intros _.
  apply keeps_open. intros s ps Hs Heap.
  destruct (first_eap ps) as [x|]; [apply keeps_handle_eap; auto|].
  keeps_tac.
Qed.

Lemma keeps_informational_loop b ps r : keeps b (informational_loop ps r).
Proof using All.
  revert r. induction ps as [|p ps IH]; intros r; [apply keeps_mret|].
  destruct p; cbn [informational_loop]; try apply IH.
  case_match; [|apply IH]. apply keeps_get. intros s _. case_match; [|apply IH].
  case_match; [|apply IH]. apply keeps_bind; [keeps_tac|intros _; apply IH].
Qed.
#[local] Hint Resolve keeps_informational_loop : keeps.

Lemma keeps_informational m : keeps false (handle_informational_request m).
Proof using All. apply keeps_open. intros s ps Hs _. keeps_tac. Qed.

Lemma keeps_rekey : keeps false initiate_rekey.
Proof using All. unfold initiate_rekey. keeps_tac. apply keeps_after. unfold secs. lia. Qed.

Lemma keeps_create_child_response m : keeps false (handle_create_child_response m).
Proof using All.
  unfold handle_create_child_response. apply keeps_bind; [keeps_tac|]. intros _.
  apply keeps_open. intros s ps Hs _. keeps_tac.
Qed.

Lemma keeps_create_child_ke suite ke : keeps true (create_child_ke suite ke).
Proof using All. unfold create_child_ke. keeps_tac. Qed.
#[local] Hint Resolve keeps_create_child_ke : keeps.

Lemma keeps_create_child_request m : keeps false (handle_create_child_request m).
Proof using All. apply keeps_open. intros s ps Hs _. keeps_tac. Qed.

#[local] Hint Resolve keeps_sa_init_request keeps_sa_init_response keeps_auth_request
  keeps_auth_response keeps_informational keeps_rekey keeps_create_child_response
  keeps_create_child_request : keeps.

Lemma keeps_datagram data source : bytes data -> keeps false (handle_datagram data source).
Proof using All.
  intros Hb. unfold handle_datagram. apply keeps_get. intros s Hs.
  apply keeps_bind; [keeps_tac|]. intros _.
  apply keeps_lift_bind; [auto with returns|]. intros m Hm%message_decode_wire; [|done].
  unfold handle_response, handle_request. keeps_tac.
  apply keeps_after, interval_room. match goal with H : holds _ ?s |- inv ?s => apply H end.
Qed.

Lemma keeps_on_retransmit : keeps false on_retransmit.
Proof using All.
  unfold on_retransmit. apply keeps_get. intros s [Hi _].
  destruct (retransmit s) as [r|] eqn:Hr; [|apply keeps_mret].
  intros s0 Hs0. apply ewp_bind, ewp_now. intros w t Ht. revert w s0 Hs0. intros w s0 Hs0.
  revert Hs0. change (holds false s0) with (holds false (put_world w s0)).
  generalize (put_world w s0). clear w s0.
  match goal with |- forall s, holds _ s -> ewp ?m _ _ s => change (keeps false m) end.
  destruct (retry_fresh t r Ht (inv_retransmit _ _ _ _ _ Hi r Hr)) as (r' & -> & _ & _ & _ & Hf).
  apply keeps_lift_bind; [done|]. intros x Hx%Ok_inj. subst x.
  destruct (_ <? _); [specialize (Hf eq_refl)|clear Hf].
  - apply keeps_bind; [|keeps_tac]. apply keeps_modify. intros s1.
    apply holds_retransmit. by intros x [= <-].
  - intros s1 Hs1. apply ewp_bind, ewp_modify, ewp_bind, ewp_modify.
    assert (Hk : keeps false
      ((if bool_decide (phase s = PhaseEstablished)
        then remove_child PeerDead;; modify (put_phase PhaseClosed) else mret tt);;
       set_state Failed;;
       throw (IpsecError.new IpsecError.Timeout "peer did not respond to IKE retransmissions")
         : st Runner.t IpsecError.t unit)) by keeps_tac.
    apply Hk. destruct Hs1 as [[] Hs1]. split; [split; try done|done].
Qed.

Lemma keeps_on_dpd : keeps false on_dpd.
Proof using All.
  unfold on_dpd. apply keeps_bind; [keeps_tac|]. intros _. apply keeps_get. intros s [Hi _].
  pose proof (inv_retries _ _ _ _ _ Hi) as Hn. keeps_tac;
    [apply keeps_arm; [lia|]|]; unfold moderate, secs; rewrite (inv_config _ _ _ _ _ Hi); lia.
Qed.

(** A turn comes back with the invariant, or a duration is not moderate and it panics. *)
Definition turns_out (b : bool) (m : st Runner.t IpsecError.t unit) (s : Runner.t) : Prop :=
  (exists s', m s = (s', Ok tt) /\ holds b s') \/ ~ moderate /\ (m s).2 = Panic.

Lemma keeps_reported b (m : st Runner.t IpsecError.t unit) :
  keeps b m -> forall s, holds b s -> turns_out b (reported m) s.
Proof using Type.
  intros Hm s Hs. specialize (Hm s Hs). unfold ewp in Hm. unfold turns_out, reported.
  destruct (m s) as [s' [[]|e| |]]; try done; [left; by exists s'|left|by right].
  eexists. split; [done|]. exact Hm.
Qed.

Lemma turn_ok e s : ready e s -> holds false s -> turns_out false (turn e) s.
Proof using All.
  intros He Hs. destruct e as [buffer source|x| | |]; cbn [turn].
  - change (turns_out false (reported (x ← lift (IkeTransport.recv (transport s) buffer source);
                      let '(data, source) := (x : list Z * SocketAddr.t) in
                      handle_datagram data source)) s).
    apply keeps_reported; [|done]. apply keeps_lift_bind; [apply recv_returns|].
    intros [data src] Hr. apply keeps_datagram. by eapply recv_bytes.
  - left. eexists. split; [done|]. exact Hs.
  - apply keeps_reported; [apply keeps_on_retransmit|done].
  - apply keeps_reported; [apply keeps_on_dpd|done].
  - apply keeps_reported; [apply keeps_rekey|done].
Qed.

Lemma start_ok s : inv s -> turns_out false start s.
Proof using All.
  intros Hi. unfold turns_out, start. assert (Hs : holds false s) by done.
  destruct (lookup_lt_is_Some_2 (IpsecConfig.peers (config s)) 0) as [p Hp].
  { pose proof (inv_peer _ _ _ _ _ Hi). lia. }
  erewrite st_bind_ok by done. erewrite st_bind_ok by (unfold lift; by rewrite (proj2 (idx_ok _ _ _) Hp)).
  case_match; [|left; by exists s]. erewrite st_bind_ok by done.
  apply keeps_reported; [apply keeps_send_sa_init|done].
Qed.

Lemma reachable_holds s0 s : inv s0 -> reachable s0 s -> holds false s.
Proof using All.
  intros Hi. induction 1 as [s Hs|s e s' _ IH Hst].
  - destruct (start_ok s0 Hi) as [(s1 & Hs1 & Hh)|[_ Hp]]; [congruence|]. by rewrite Hs in Hp.
  - inversion Hst as [? ? ? Hready Ht|]; subst; [|exact IH].
    destruct (turn_ok e s Hready IH) as [(s1 & Hs1 & Hh)|[_ Hp]]; [congruence|]. by rewrite Ht in Hp.
Qed.



Lemma spawn_inv states w w' s0 :
  0 <= dpd_retries (IpsecConfig.dpd cfg) <= 255 ->
  spawn cfg states w = (w', Ok s0) -> inv s0.
Proof using Type.
  intros Hn Hs. unfold spawn in Hs.
  apply st_bind_inv in Hs as [(w1 & p & Hp & Hs)|[(x & _ & Hs)|[[_ Hs]|[_ Hs]]]]; try done.
  apply st_bind_inv in Hs as [(w2 & t & _ & Hs)|[(x & _ & Hs)|[[_ Hs]|[_ Hs]]]]; try done.
  injection Hs as <- <-. split; try done. cbn.
  destruct (IpsecConfig.peers cfg); [done|cbn; lia].
Qed.

Lemma try_ok b {A} (m : st Runner.t IpsecError.t A) s :
  moderate -> keeps b m -> holds b s -> exists a s1, try_ m s = (s1, Ok a) /\ holds b s1.
Proof using Type.
  intros Hmod Hm Hs. specialize (Hm s Hs). unfold ewp in Hm. unfold try_.
  destruct (m s) as [s' [a|e| |]]; try done; by eauto.
Qed.

Lemma shutdown_returns s : moderate -> holds false s -> exists s', shutdown_connection s = (s', Ok tt).
Proof using All.
  intros Hmod Hs. unfold shutdown_connection. rewrite (st_bind_ok _ _ _ s s) by done.
  match goal with |- context [(?m ≫= _) s] => set (body := m) end.
  assert (Hb : exists s1, body s = (s1, Ok tt)).
  { unfold body. case_match; [|by exists s]. destruct (ike s) as [i|]; [|by exists s].
    destruct (IkeRuntime.child i) as [c|]; [|by exists s].
    match goal with |- context [try_ (seal ?h ?p)] =>
      destruct (try_ok false (seal h p) s Hmod (keeps_seal false h p) Hs) as (a & s1 & Ht & Hs1)
    end.
    erewrite st_bind_ok by exact Ht. destruct a as [m|]; [|by exists s1].
    destruct (try_ok false (send m) s1 Hmod (keeps_send false m) Hs1) as (x & s2 & Hx & _).
    erewrite st_bind_ok by exact Hx. by exists s2. }
  destruct Hb as [s1 Hb]. erewrite st_bind_ok by exact Hb. by eexists.
Qed.

(** A configured lifetime of 2^63 seconds ends the task when a Child SA is installed. *)
Lemma long_lifetime_panics h s :
  2 ^ 63 <= child_lifetime (IpsecConfig.child (config s)) -> (install_child h s).2 = Panic.
Proof using All.
  intros Hl. unfold install_child, mbind, st_bind, on_world, read_clock.
  pose proof (system_now_range (world s)) as Hr. destruct (system_now (world s)) as [w t].
  cbn [get]. unfold lift, system_add. cbn [config put_world].
  by destruct (Z.ltb_spec (t + child_lifetime (IpsecConfig.child (config s))) (2 ^ 63)); [cbn in *; lia|].
Qed.

(** A method that returns without an error. *)
Definition comes_back (m : st Runner.t IpsecError.t unit) (s : Runner.t) : Prop :=
  exists s', m s = (s', Ok tt).

(** ** Giving up *)

Definition run_turns (es : list wake) (s : Runner.t) : Runner.t :=
  foldl (fun s e => (turn e s).1) s es.

(** What the peer's silence does not touch. *)
Definition same_connection (s s' : Runner.t) : Prop :=
  config s' = config s /\ phase s' = phase s /\ ike s' = ike s /\ peer_index s' = peer_index s.

Lemma resend_quiet m s :
  exists w r, (lift (IkeHeader.decode m);; send m) s = (put_world w s, r) /\ returns r.
Proof using Type.
  pose proof (header_decode_returns m) as Hd.
  destruct (IkeHeader.decode m) as [h|e| |]; try done.
  - rewrite st_bind_lift. unfold send. rewrite (st_bind_ok _ _ _ s s) by done.
    unfold on_world, IkeTransport.send, ask_unit.
    destruct (udp_send_to _ _ _ _) as [w [e|]]; by eauto.
  - exists (world s), (Err e). split; [by destruct s|done].
Qed.

Lemma retry_turn s r :
  retransmit s = Some r -> fresh r ->
  Retransmit.attempts r + 1 < Retransmit.max_attempts r ->
  exists r', retransmit (turn RetransmitDue s).1 = Some r'
    /\ Retransmit.attempts r' = Retransmit.attempts r + 1
    /\ Retransmit.max_attempts r' = Retransmit.max_attempts r
    /\ fresh r' /\ same_connection s (turn RetransmitDue s).1.
Proof using All.
  intros Hr Hf Hlt. cbn [turn]. unfold reported, on_retransmit.
  rewrite (st_bind_ok _ _ _ s s) by done. rewrite Hr.
  unfold now, on_world, read_clock. destruct (instant_now (world s)) as [w t] eqn:Hnow.
  erewrite st_bind_ok by (rewrite Hnow; reflexivity).
  assert (Ht : clock_value t)
    by (pose proof (instant_now_range (world s)) as Hrange; by rewrite Hnow in Hrange).
  destruct (retry_fresh t r Ht Hf) as (r' & Hretry & Ha & Hm & _ & Hf').
  rewrite Hretry. replace (_ <? _) with true in * by lia. specialize (Hf' eq_refl).
  rewrite st_bind_lift. cbn zeta. rewrite st_bind_modify.
  set (s1 := put_retransmit (Some r') (put_world w s)).
  assert (H1 : exists r', retransmit s1 = Some r'
    /\ Retransmit.attempts r' = Retransmit.attempts r + 1
    /\ Retransmit.max_attempts r' = Retransmit.max_attempts r
    /\ fresh r' /\ same_connection s s1) by (exists r'; done).
  destruct (resend_quiet (Retransmit.message r') s1) as (w2 & x & Hx & Hret). rewrite Hx.
  destruct x; try done; exact H1.
Qed.

Lemma last_turn s r :
  retransmit s = Some r -> fresh r ->
  Retransmit.max_attempts r <= Retransmit.attempts r + 1 ->
  let s' := (turn RetransmitDue s).1 in
  retransmit s' = None /\ states s' !! IpsecConfig.name (config s) = Some Failed
  /\ (phase s = PhaseEstablished -> phase s' = PhaseClosed /\ (ike s' ≫= IkeRuntime.child) = None).
Proof using All.
  intros Hr Hf Hge. cbn [turn]. unfold reported, on_retransmit.
  rewrite (st_bind_ok _ _ _ s s) by done. rewrite Hr.
  unfold now, on_world, read_clock. destruct (instant_now (world s)) as [w t] eqn:Hnow.
  erewrite st_bind_ok by (rewrite Hnow; reflexivity).
  assert (Ht : clock_value t)
    by (pose proof (instant_now_range (world s)) as Hrange; by rewrite Hnow in Hrange).
  destruct (retry_fresh t r Ht Hf) as (r' & Hretry & _).
  rewrite Hretry. replace (_ <? _) with false in * by lia.
  rewrite st_bind_lift. cbn zeta. rewrite !st_bind_modify.
  case_bool_decide as Hp;
    unfold mbind, st_bind, remove_child, set_state, push_event, report_error, mbind, st_bind;
    cbn; rewrite lookup_insert_eq; (split; [done|]; split; [done|]); [|done].
  intros _. split; [done|]. by destruct (ike s).
Qed.

Lemma gives_up n : forall s r,
  retransmit s = Some r -> fresh r -> n = Z.to_nat (Retransmit.max_attempts r - Retransmit.attempts r) ->
  let s' := run_turns (replicate n RetransmitDue) s in
  retransmit s' = None /\ states s' !! IpsecConfig.name (config s) = Some Failed
  /\ (phase s = PhaseEstablished -> phase s' = PhaseClosed /\ (ike s' ≫= IkeRuntime.child) = None).
Proof using All.
  induction n as [|n IH]; intros s r Hr Hf Hn; [destruct Hf; lia|].
  change (run_turns (replicate (S n) RetransmitDue) s)
    with (run_turns (replicate n RetransmitDue) (turn RetransmitDue s).1).
  destruct (decide (Retransmit.attempts r + 1 < Retransmit.max_attempts r)) as [Hlt|Hge].
  - destruct (retry_turn s r Hr Hf Hlt) as (r' & Hr' & Ha & Hm & Hf' & Hc & Hp & Hi & _).
    specialize (IH _ r' Hr' Hf'). cbn zeta in *. rewrite Hc, Hp in IH. apply IH. lia.
  - replace n with 0%nat by (destruct Hf; lia). apply (last_turn s r Hr Hf). lia.
Qed.

(** C7: with a configuration whose DPD retry count is a u8 and whose DPD interval, DPD
    timeout and Child SA lifetime are at most 2^61 seconds, on clocks within 2^63
    nanoseconds, whatever the answers of the network and the random generator and whatever
    octets arrive in whatever order with whatever expiries of armed timers, a turn of the engine's event
    loop always comes back (no panic, no endless loop) and so does the shutdown of the
    connection.  Longer durations overflow an [Instant] or a [SystemTime] and panic:
    [long_lifetime_panics]. *)
Theorem engine_turns_return states w w' s0 s e :
  0 <= dpd_retries (IpsecConfig.dpd cfg) <= 255 -> moderate ->
  spawn cfg states w = (w', Ok s0) -> reachable s0 s -> ready e s ->
  comes_back (turn e) s /\ comes_back shutdown_connection s.
Proof using All.
  intros Hn Hm Hs Hr He. pose proof (reachable_holds _ _ (spawn_inv _ _ _ _ Hn Hs) Hr) as Hh.
  split; [|by apply shutdown_returns].
  destruct (turn_ok e s He Hh) as [(s' & Ht & _)|[Hno _]]; [by exists s'|done].
Qed.

(** C24: the engine does not wait for a silent peer for ever: in every reachable state with
    a request outstanding, as many expiries of the retransmission timer as the request has
    attempts left end the wait - the connection is reported Failed, and an established one
    is Closed with its Child SA dropped. *)
Theorem retransmit_gives_up states w w' s0 s r :
  0 <= dpd_retries (IpsecConfig.dpd cfg) <= 255 ->
  spawn cfg states w = (w', Ok s0) -> reachable s0 s -> retransmit s = Some r ->
  let s' := run_turns
    (replicate (Z.to_nat (Retransmit.max_attempts r - Retransmit.attempts r)) RetransmitDue) s in
  retransmit s' = None /\ Runner.states s' !! IpsecConfig.name (config s) = Some Failed
  /\ (phase s = PhaseEstablished -> phase s' = PhaseClosed /\ (ike s' ≫= IkeRuntime.child) = None).
Proof using All.
  intros Hn Hs Hr Hrt. pose proof (reachable_holds _ _ (spawn_inv _ _ _ _ Hn Hs) Hr) as [Hi _].
  apply (gives_up _ s r Hrt); [by apply (inv_retransmit _ _ _ _ _ Hi)|done].
Qed.

End total.
End EngineTotal.
