(* ===== verification/IkeAuthSafety.v ===== *)
(** * What establishes a connection

    [Module AuthSafety]: the calls of the engine (engine.rs) that make a connection
    Established or replace its Child SA, and what each of them has verified when it
    does. [post m Q E s] is the postcondition of a method that may fail: [Q] when it
    returns a value, [E] of the state otherwise; [still] methods leave the IKE SA
    and the phase alone, so a failure on the way leaves the connection as it was. *)

From stdpp Require Import gmap.
From S2P Require Import Prelude Errors Net Eap EapTls IkeCodec TrafficSelector Identity IpsecConfig IkeProposals IkeCrypto IkeSa IkeWorld IkeTransport IkeAuth IkeEngine.

Create HintDb still.

Module AuthSafety.
Import Runner Engine.

Section safety.
Context `{HW : IkeWorld} `{HE : !EapTlsSetup} `{HL : !CertLib} `{HC : CryptoLib}.

(** ** Quiet methods *)

(** The part of the task that decides who the peer is and what is installed. *)
Record same (s s' : Runner.t) : Prop := {
  same_config : config s' = config s;
  same_peer : peer_index s' = peer_index s;
  same_ike : ike s' = ike s;
  same_phase : phase s' = phase s;
  same_eap : eap s' = eap s;
}.

#[global] Instance same_preorder : PreOrder same.
Proof.
  split; [by split|]. intros x y z [] []. split; congruence.
Qed.

Definition still {A} (m : st Runner.t IpsecError.t A) : Prop := forall s, same s (m s).1.

Definition post {A} (m : st Runner.t IpsecError.t A) (Q : A -> Runner.t -> Prop)
  (E : Runner.t -> Prop) (s : Runner.t) : Prop :=
  match m s with
  | (s', Ok a) => Q a s'
  | (s', _) => E s'
  end.

Lemma post_bind {A B} (m : st Runner.t IpsecError.t A) (k : A -> st _ _ B) Q E s :
  post m (fun a => post (k a) Q E) E s -> post (m ≫= k) Q E s.
Proof using Type. unfold post, mbind, st_bind. by destruct (m s) as [s' [a|e| |]]. Qed.

Lemma post_mono {A} (m : st Runner.t IpsecError.t A) (Q Q' : A -> _ -> Prop) (E E' : _ -> Prop) s :
  post m Q E s -> (forall a s', Q a s' -> Q' a s') -> (forall s', E s' -> E' s') ->
  post m Q' E' s.
Proof using Type. unfold post. destruct (m s) as [s' [a|e| |]]; auto. Qed.

Lemma still_bind {A B} (m : st Runner.t IpsecError.t A) (k : A -> st _ _ B) :
  still m -> (forall a, still (k a)) -> still (m ≫= k).
Proof using Type.
  intros Hm Hk s. specialize (Hm s). unfold mbind, st_bind.
  destruct (m s) as [s' [a|e| |]]; try done. etrans; [exact Hm|apply Hk].
Qed.

Lemma still_get {B} (k : Runner.t -> st Runner.t IpsecError.t B) :
  (forall s, still (k s)) -> still (get ≫= k).
Proof using Type. intros Hk s. apply Hk. Qed.

Lemma still_lift {A} (m : outcome IpsecError.t A) : still (lift m).
Proof using Type. done. Qed.

Lemma still_mret {A} (a : A) : still (mret a).
Proof using Type. done. Qed.

Lemma still_throw {A} e : still (throw (A := A) e).
Proof using Type. done. Qed.

Lemma still_modify f : (forall s, same s (f s)) -> still (modify f).
Proof using Type. done. Qed.

Lemma still_on_world {A} (m : io A) : still (on_world m).
Proof using Type. intros s. unfold on_world. by destruct (m (world s)). Qed.

Lemma still_on_transport {A} (m : st (World * IkeTransport.t) IpsecError.t A) :
  still (on_transport m).
Proof using Type. intros s. unfold on_transport. by destruct (m _) as [[w t] r]. Qed.

#[local] Hint Resolve still_mret still_lift still_throw still_on_world still_on_transport : still.

Ltac still_step :=
  match goal with
  | |- forall _, still _ => intros ?
  | |- still (let _ := _ in _) => cbv zeta
  | |- still (get ≫= _) => apply still_get; intros ?
  | |- still (_ ≫= _) => apply still_bind; [|intros ?]
  | |- still (modify _) => apply still_modify; by intros []
  | |- still (match ?x with _ => _ end) => destruct x
  | |- still _ => solve [auto with still]
  end.
Ltac still_tac := repeat still_step.

Lemma still_send m : still (send m).
Proof using Type. unfold send. still_tac. Qed.

Lemma still_seal h ps : still (seal h ps).
Proof using Type.
  unfold seal, draw_iv, require. still_tac.
  intros ?. by destruct (random_bytes _ _).
Qed.

Lemma still_arm m : still (arm_exchange m).
Proof using Type. unfold arm_exchange, arm_retransmit, now. still_tac. Qed.

Lemma still_next_request e : still (next_request e).
Proof using Type. unfold next_request. still_tac. Qed.

Lemma still_push e : still (push_event e).
Proof using Type. unfold push_event. still_tac. Qed.

Lemma still_set_state x : still (set_state x).
Proof using Type. unfold set_state. still_tac. Qed.

Lemma still_the_ike : still the_ike.
Proof using Type. unfold the_ike. still_tac. Qed.

Lemma still_require {A} (o : option A) e : still (require o e).
Proof using Type. done. Qed.

Lemma still_now : still now.
Proof using Type. unfold now. still_tac. Qed.

Lemma still_after d : still (after d).
Proof using Type. unfold after, now. still_tac. Qed.

Lemma still_peer_selectors : still peer_selectors.
Proof using Type. unfold peer_selectors. still_tac. Qed.

#[local] Hint Resolve still_send still_seal still_arm still_next_request still_push still_now still_after
  still_set_state still_the_ike still_require still_peer_selectors : still.

Lemma still_psk_auth c f : still (psk_auth c f).
Proof using Type. unfold psk_auth. still_tac. Qed.

Lemma still_certificate_auth c l f : still (certificate_auth c l f).
Proof using Type. unfold certificate_auth. still_tac. Qed.

#[local] Hint Resolve still_psk_auth still_certificate_auth : still.

Lemma still_responder_auth a l : still (responder_auth a l).
Proof using Type. unfold responder_auth. still_tac. Qed.

Lemma still_create_child_ke suite ke : still (create_child_ke suite ke).
Proof using Type. unfold create_child_ke. still_tac. Qed.

#[local] Hint Resolve still_responder_auth still_create_child_ke : still.

Lemma open_encrypted_same s s' m :
  same s s' -> open_encrypted s' m = open_encrypted s m.
Proof using Type. intros Hs. unfold open_encrypted. by rewrite (same_ike _ _ Hs). Qed.

(** ** Steps of a proof about a handler started in [s0] *)

Lemma step_get {B} (k : Runner.t -> st Runner.t IpsecError.t B) Q E s :
  post (k s) Q E s -> post (get ≫= k) Q E s.
Proof using Type. done. Qed.

Lemma step_lift {A B} (m : outcome IpsecError.t A) (k : A -> st Runner.t IpsecError.t B) Q E s :
  E s -> (forall a, m = Ok a -> post (k a) Q E s) -> post (lift m ≫= k) Q E s.
Proof using Type. intros HE' Hk. apply post_bind. unfold post at 1, lift. destruct m; auto. Qed.

Lemma step_require {A B} (o : option A) e (k : A -> st Runner.t IpsecError.t B) Q E s :
  E s -> (forall a, o = Some a -> post (k a) Q E s) -> post (require o e ≫= k) Q E s.
Proof using Type.
  intros HE' Hk. apply step_lift; [done|]. intros a Ha. apply Hk. by destruct o; simplify_eq/=.
Qed.

Lemma step_the_ike {B} (k : IkeRuntime.t -> st Runner.t IpsecError.t B) Q E s :
  E s -> (forall i, ike s = Some i -> post (k i) Q E s) -> post (the_ike ≫= k) Q E s.
Proof using Type.
  intros HE' Hk. apply post_bind. unfold the_ike. apply step_get.
  unfold post at 1, lift. destruct (ike s) as [i|]; cbn; [by apply Hk|done].
Qed.

Lemma step_quiet {A B} (m : st Runner.t IpsecError.t A) (k : A -> st _ _ B) Q (E : _ -> Prop) s0 s :
  still m -> (forall s', same s0 s' -> E s') -> same s0 s ->
  (forall a s', same s0 s' -> post (k a) Q E s') -> post (m ≫= k) Q E s.
Proof using Type.
  intros Hm HE' Hs Hk. apply post_bind. specialize (Hm s). unfold post at 1.
  destruct (m s) as [s' [a|e| |]]; [apply Hk|apply HE'..]; by etrans.
Qed.

Ltac post_step :=
  cbv beta;
  lazymatch goal with
  | |- post (the_ike ≫= _) _ _ _ => apply step_the_ike; [|intros ? ?]
  | |- post (let _ := _ in _) _ _ _ => cbv zeta
  | |- post (get ≫= _) _ _ _ => apply step_get
  | |- post (require _ _ ≫= _) _ _ _ => apply step_require; [|intros ? ?]
  | |- post (lift _ ≫= _) _ _ _ => apply step_lift; [|intros ? ?]
  | |- post (let '(_, _) := ?x in _) _ _ _ => destruct x
  end.

(** A still call, before or after which the connection is as in [s0]. *)
Ltac still_call s0 :=
  eapply (step_quiet _ _ _ _ s0); [solve [auto with still | still_tac]|auto|try done|intros ? ? ?].

(** ** Installing *)

Definition child_of (s : Runner.t) : option ChildRuntime := ike s ≫= IkeRuntime.child.

(** What holds of every state after a method. *)
Lemma post_always {A} (m : st Runner.t IpsecError.t A) (Q : A -> Runner.t -> Prop) E s :
  (forall a s', Q a s') -> (forall s', E s') -> post m Q E s.
Proof using Type. intros HQ HE'. unfold post. destruct (m s) as [s' [a|e| |]]; auto. Qed.

(** The end of a handler: still calls and the installation. *)
Ltac finish s0 :=
  repeat first [by apply post_always; auto | post_step; [by auto|..] | post_step | still_call s0].

(** ** The initiator authenticates to a responder *)

(** AUTH over what the initiator signs, by the configured method. *)
Definition initiator_proof (auth : AuthConfig) (i : IkeRuntime.t) (payloads : list Payload)
  (identity : Identity.t) (id_body : list Z) : Prop :=
  match auth with
  | Psk secret =>
      first_psk_auth payloads
      = Some (psk_compute secret (IkeProposal.prf (IkeRuntime.suite i)) (signed_i i id_body))
  | Certificate c =>
      exists time x, first_auth payloads = Some x
        /\ verify_peer time (ca_certificates c) (certificate_chain payloads) identity PeerInitiator
           = Ok tt
        /\ verify_signature (certificate_chain payloads) x.1 (signed_i i id_body) x.2 = Ok tt
  | EapTls _ => False
  end.

(** [message], under the keys of the IKE SA of [s], names the configured initiator
    and proves it. *)
Definition initiator_authenticated (s : Runner.t) (message : Message.t) : Prop :=
  exists i peer payloads idp identity,
    ike s = Some i /\ current_peer s = Some peer
    /\ open_encrypted s message = Ok payloads
    /\ find_id payloads true = Some idp
    /\ initiator_id_identity idp = Ok identity
    /\ Identity.matches (remote_identity (remote peer)) identity = true
    /\ initiator_proof (auth peer) i payloads identity (id_payload_body idp).

Lemma verify_initiator_post auth payloads identity id_body s0 s (E : Runner.t -> Prop) :
  (forall s', same s0 s' -> E s') -> same s0 s ->
  post (verify_initiator auth payloads identity id_body)
    (fun _ s' => same s0 s' /\ exists i, ike s0 = Some i
                 /\ initiator_proof auth i payloads identity id_body) E s.
Proof using Type.
  intros HE' Hs. destruct auth as [secret|c|c]; cbn [verify_initiator]; [| |by apply HE'].
  - do 2 (post_step; [by apply HE'|]). rewrite (same_ike _ _ Hs) in *.
    unfold post, lift. destruct (psk_verify _ _ _ _) as [[]| | |] eqn:Hv; try by apply HE'.
    split; [done|]. eexists. split; [done|]. apply psk_verify_ok in Hv. cbn. congruence.
  - do 2 (post_step; [by apply HE'|]). rewrite (same_ike _ _ Hs) in *. still_call s0.
    post_step; [by apply HE'|]. destruct a1.
    unfold post, lift. destruct (verify_signature _ _ _ _) as [[]| | |] eqn:Hv; try by apply HE'.
    split; [done|]. eexists. split; [done|]. cbn. eauto 10.
Qed.

(** The Child SA and the phase are as they were. *)
Definition untouched (s s' : Runner.t) : Prop := child_of s' = child_of s /\ phase s' = phase s.

Lemma same_untouched s s' : same s s' -> untouched s s'.
Proof using Type. intros []. by split; unfold child_of; congruence. Qed.

#[local] Hint Resolve same_untouched : core.

Lemma auth_request_post message source s :
  post (handle_auth_request message source)
    (fun _ _ => initiator_authenticated s message)
    (fun s' => untouched s s' \/ initiator_authenticated s message) s.
Proof using Type.
  unfold handle_auth_request. do 2 still_call s. apply step_get. rename s'0 into s1, H0 into Hs1.
  apply step_lift; [by auto|intros payloads Hopen].
  apply step_require; [by auto|intros peer Hpeer].
  apply step_require; [by auto|intros idp Hid].
  apply step_lift; [by auto|intros identity Hident].
  destruct (Identity.matches _ _) eqn:Hmatch; cbn [negb];
    [|apply post_bind; unfold post at 1; cbn; by auto].
  still_call s. apply post_bind.
  eapply post_mono with (E := fun s' => untouched s s' \/ initiator_authenticated s message);
    [apply verify_initiator_post with (s0 := s); by auto| |done].
  intros _ s3 [Hs3 (i & Hi & Hproof)].
  assert (Hauth : initiator_authenticated s message).
  { exists i, peer, payloads, idp, identity. unfold open_encrypted, current_peer in *.
    destruct Hs1 as [Hc Hp Hik _ _]. rewrite Hik in Hopen. rewrite Hc, Hp in Hpeer. done. }
  finish s.
Qed.

(** ** The responder authenticates to an initiator *)

Definition responder_proof (auth : AuthConfig) (session : option EapSession) (i : IkeRuntime.t)
  (payloads : list Payload) (identity : Identity.t) (id_body : list Z) : Prop :=
  match auth with
  | Psk secret =>
      first_psk_auth payloads
      = Some (psk_compute secret (IkeProposal.prf (IkeRuntime.suite i)) (signed_r i id_body))
  | Certificate c =>
      exists time x, first_auth payloads = Some x
        /\ verify_peer time (ca_certificates c) (certificate_chain payloads) identity PeerResponder
           = Ok tt
        /\ verify_signature (certificate_chain payloads) x.1 (signed_r i id_body) x.2 = Ok tt
  | EapTls _ =>
      exists method_ msk, session ≫= eap_session_msk = Some msk
        /\ first_auth payloads
           = Some (method_,
                   psk_compute msk (IkeProposal.prf (IkeRuntime.suite i)) (signed_r i id_body))
  end.

Definition responder_authenticated (s : Runner.t) (message : Message.t) : Prop :=
  exists i peer payloads idp identity,
    ike s = Some i /\ current_peer s = Some peer
    /\ open_encrypted s message = Ok payloads
    /\ find_id payloads false = Some idp
    /\ initiator_id_identity idp = Ok identity
    /\ (Identity.matches (remote_identity (remote peer)) identity
        || Identity.is_wildcard (remote_identity (remote peer))) = true
    /\ responder_proof (auth peer) (eap s) i payloads identity (id_payload_body idp).

Lemma verify_responder_post auth payloads identity id_body s0 s (E : Runner.t -> Prop) :
  (forall s', same s0 s' -> E s') -> same s0 s ->
  post (verify_responder auth payloads identity id_body)
    (fun _ s' => same s0 s' /\ exists i, ike s0 = Some i
                 /\ responder_proof auth (eap s0) i payloads identity id_body) E s.
Proof using Type.
  intros HE' Hs. destruct auth as [secret|c|c]; cbn [verify_responder].
  - do 2 (post_step; [by apply HE'|]). rewrite (same_ike _ _ Hs) in *.
    unfold post, lift. destruct (psk_verify _ _ _ _) as [[]| | |] eqn:Hv; try by apply HE'.
    split; [done|]. eexists. split; [done|]. apply psk_verify_ok in Hv. cbn. congruence.
  - do 2 (post_step; [by apply HE'|]). rewrite (same_ike _ _ Hs) in *. still_call s0.
    post_step; [by apply HE'|]. destruct a1.
    unfold post, lift. destruct (verify_signature _ _ _ _) as [[]| | |] eqn:Hv; try by apply HE'.
    split; [done|]. eexists. split; [done|]. cbn. eauto 10.
  - post_step; [by apply HE'|]. post_step. do 2 (post_step; [by apply HE'|]).
    rewrite (same_ike _ _ Hs) in *. rewrite (same_eap _ _ Hs) in *.
    unfold post, lift. destruct (psk_verify _ _ _ _) as [[]| | |] eqn:Hv; try by apply HE'.
    split; [done|]. eexists. split; [done|]. apply psk_verify_ok in Hv. destruct a. cbn in *.
    subst. eauto.
Qed.

Lemma handle_eap_untouched data s :
  post (handle_eap data) (fun _ => untouched s) (untouched s) s.
Proof using Type.
  unfold handle_eap. apply step_get. apply step_require; [done|intros session _].
  apply post_bind. unfold post at 1.
  destruct (eap_session_handle data session) as [session' [[response success]| | |]]; try done.
  set (s1 := put_eap (Some session') s).
  assert (Hs1 : forall s', same s1 s' -> untouched s s') by (intros s' H%same_untouched; exact H).
  assert (Hend : forall m : st Runner.t IpsecError.t unit, still m -> post m (fun _ => untouched s) (untouched s) s1).
  { intros m Hm. specialize (Hm s1). unfold post. destruct (m s1) as [s' [a|e| |]]; auto. }
  apply Hend. destruct response; [|destruct success]; still_tac.
Qed.

Lemma auth_response_post message s :
  post (handle_auth_response message)
    (fun _ s' => untouched s s' \/ responder_authenticated s message)
    (fun s' => untouched s s' \/ responder_authenticated s message) s.
Proof using Type.
  unfold handle_auth_response. still_call s. apply step_get. rename s' into s1, H into Hs1.
  apply step_lift; [by auto|intros payloads Hopen].
  destruct (first_eap payloads) as [data|].
  { eapply post_mono; [apply handle_eap_untouched|cbn|].
    - intros _ s2 [Hc Hp]. left. destruct (same_untouched _ _ Hs1). split; congruence.
    - intros s2 [Hc Hp]. left. destruct (same_untouched _ _ Hs1). split; congruence. }
  apply step_require; [by auto|intros peer Hpeer].
  apply step_require; [by auto|intros idp Hid].
  apply step_lift; [by auto|intros identity Hident]. cbv zeta.
  destruct (negb _ && negb _) eqn:Hmatch; [apply post_bind; unfold post at 1; cbn; by auto|].
  still_call s. apply post_bind.
  eapply post_mono with (E := fun s' => untouched s s' \/ responder_authenticated s message);
    [apply verify_responder_post with (s0 := s); by auto| |done].
  intros _ s3 [Hs3 (i & Hi & Hproof)].
  assert (Hauth : responder_authenticated s message).
  { exists i, peer, payloads, idp, identity. unfold open_encrypted, current_peer in *.
    destruct Hs1 as [Hc Hp Hik _ _]. rewrite Hik in Hopen. rewrite Hc, Hp in Hpeer.
    rewrite <- negb_orb in Hmatch. apply negb_false_iff in Hmatch. done. }
  eapply post_mono; [|intros ? ? HQ; right; exact HQ|intros s4 HE'; exact HE'].
  apply step_require; [by auto|intros sa _]. apply step_lift; [by auto|intros [suite n] _].
  apply step_require; [by auto|intros spi _]. still_call s.
  apply step_lift; [by auto|intros [l r] _]. apply step_the_ike; [by auto|intros i' Hi'].
  destruct (parse_config_payload payloads) as [inner dns].
  apply post_bind. unfold post at 1. cbn. rewrite Hi'. cbn.
  assert (Hput : forall x, untouched s (put_ike x s'0) <-> (x ≫= IkeRuntime.child) = child_of s).
  { intros x. destruct (same_untouched _ _ H0) as [Hc Hp]. unfold untouched, child_of. cbn.
    split; [by intros []|]. by split. }
  assert (Hkept : untouched s (put_ike (Some (IkeRuntime.put_addresses inner dns i')) s'0)).
  { apply Hput. cbn. destruct (same_untouched _ _ H0) as [<- _]. unfold child_of. by rewrite Hi'. }
  apply step_the_ike; [by left|intros i2 Hi2]. apply step_lift; [by left|intros handle _].
  by apply post_always; auto.
Qed.

(** ** Methods that install nothing *)

(** The Child SA of [s'] is that of [s] or none, and the connection is not
    established in [s'] unless it was. *)
Definition no_gain (s s' : Runner.t) : Prop :=
  (child_of s' = child_of s \/ child_of s' = None)
  /\ (phase s' = PhaseEstablished -> phase s = PhaseEstablished).

#[global] Instance no_gain_preorder : PreOrder no_gain.
Proof.
  split; [by split; [left|]|]. intros x y z [Hc Hp] [Hc' Hp'].
  split; [|auto]. destruct Hc' as [->|]; [exact Hc|by right].
Qed.

Lemma untouched_no_gain s s' : untouched s s' -> no_gain s s'.
Proof using Type. intros [Hc Hp]. split; [by left|congruence]. Qed.

Definition calm {A} (m : st Runner.t IpsecError.t A) : Prop := forall s, no_gain s (m s).1.

Lemma calm_quiet {A} (m : st Runner.t IpsecError.t A) : still m -> calm m.
Proof using Type. intros Hm s. by apply untouched_no_gain, same_untouched. Qed.

Lemma calm_bind {A B} (m : st Runner.t IpsecError.t A) (k : A -> st _ _ B) :
  calm m -> (forall a, calm (k a)) -> calm (m ≫= k).
Proof using Type.
  intros Hm Hk s. specialize (Hm s). unfold mbind, st_bind.
  destruct (m s) as [s' [a|e| |]]; try done. etrans; [exact Hm|apply Hk].
Qed.

Lemma calm_get {B} (k : Runner.t -> st Runner.t IpsecError.t B) :
  (forall s, calm (k s)) -> calm (get ≫= k).
Proof using Type. intros Hk s. apply Hk. Qed.

Lemma calm_modify f : (forall s, no_gain s (f s)) -> calm (modify f).
Proof using Type. done. Qed.

(** The assignments the handlers make. *)
Lemma calm_eap e : calm (modify (put_eap e)).
Proof using Type. apply calm_modify. intros s. split; [by left|done]. Qed.

Lemma calm_phase p : p <> PhaseEstablished -> calm (modify (put_phase p)).
Proof using Type. intros Hp. apply calm_modify. intros s. by split; [left|]. Qed.

Lemma calm_no_child i : IkeRuntime.child i = None -> calm (modify (put_ike (Some i))).
Proof using Type. intros Hi. apply calm_modify. intros s. split; [by right|done]. Qed.

Lemma calm_peer f : calm (modify (fun s => put_peer_index (f s) s)).
Proof using Type. apply calm_modify. intros s. split; [by left|done]. Qed.

Lemma calm_remove r : calm (remove_child r).
Proof using Type.
  apply calm_bind; [|intros; apply calm_get; intros; apply calm_quiet; still_tac].
  apply calm_modify. intros s. split; [right|done]. unfold child_of. cbn. by destruct (ike s).
Qed.

#[local] Hint Resolve calm_eap calm_no_child calm_peer calm_remove : still.
#[local] Hint Extern 1 (calm (modify (put_phase _))) => apply calm_phase; done : still.

Ltac calm_step :=
  match goal with
  | |- forall _, calm _ => intros ?
  | |- calm (let _ := _ in _) => cbv zeta
  | |- calm (get ≫= _) => apply calm_get; intros ?
  | |- calm (_ ≫= _) => apply calm_bind; [|intros ?]
  | |- calm _ => solve [auto with still | apply calm_quiet; still_tac]
  | |- calm (match ?x with _ => _ end) => destruct x
  end.
Ltac calm_tac := repeat calm_step.

Lemma calm_send_sa_init : calm send_sa_init.
Proof using Type. unfold send_sa_init, source_address, own_port. calm_tac. Qed.

Lemma calm_initiator_auth a l : calm (initiator_auth a l).
Proof using Type. unfold initiator_auth. calm_tac. Qed.

#[local] Hint Resolve calm_initiator_auth : still.

Lemma calm_send_auth : calm send_auth.
Proof using Type. unfold send_auth. calm_tac. apply calm_phase. by case_match. Qed.

#[local] Hint Resolve calm_send_auth : still.

Lemma calm_sa_init_request raw source m : calm (handle_sa_init_request raw source m).
Proof using Type.
  unfold handle_sa_init_request, sa_init_suite, send_plain_notify, source_address, own_port.
  calm_tac.
Qed.

Lemma calm_sa_init_response raw source m : calm (handle_sa_init_response raw source m).
Proof using Type. unfold handle_sa_init_response. calm_tac. Qed.

Lemma calm_informational_loop ps : forall r, calm (informational_loop ps r).
Proof using Type.
  induction ps as [|p ps IH]; intros r; [calm_tac|]. destruct p; cbn [informational_loop]; auto.
  case_match; auto. apply calm_get. intros s. case_match; auto. case_match; auto.
  apply calm_bind; [apply calm_remove|auto].
Qed.

#[local] Hint Resolve calm_informational_loop : still.

Lemma calm_informational_request m : calm (handle_informational_request m).
Proof using Type. unfold handle_informational_request. calm_tac. Qed.

Lemma calm_rekey : calm initiate_rekey.
Proof using Type. unfold initiate_rekey. calm_tac. Qed.

Lemma calm_on_retransmit : calm on_retransmit.
Proof using Type. unfold on_retransmit. calm_tac. Qed.

Lemma calm_on_dpd : calm on_dpd.
Proof using Type. unfold on_dpd, arm_retransmit. calm_tac. Qed.

(** ** What establishes a connection *)

Abbreviation exchange_of message := (IkeHeader.exchange (Message.header message)).
Abbreviation is_response_of message := (IkeHeader.is_response (Message.header message)).

(** The grounds on which [message] may install a Child SA: an authenticated IKE_AUTH
    request; while the answer to IKE_AUTH is awaited, a response that authenticates the
    responder, of whatever exchange type, which the source does not look at; or a
    CREATE_CHILD_SA under the keys of the IKE SA, as a response only to a pending rekey. *)
Inductive grounds (s : Runner.t) (message : Message.t) : Prop :=
| ByAuthRequest :
    is_response_of message = false -> exchange_of message = ExchangeType.IkeAuth ->
    initiator_authenticated s message -> grounds s message
| ByAuthResponse :
    is_response_of message = true -> phase s = AuthSent \/ phase s = EapAuth ->
    responder_authenticated s message -> grounds s message
| ByChildRequest payloads :
    is_response_of message = false -> exchange_of message = ExchangeType.CreateChildSa ->
    open_encrypted s message = Ok payloads -> grounds s message
| ByChildResponse payloads :
    is_response_of message = true -> exchange_of message = ExchangeType.CreateChildSa ->
    phase s = PhaseEstablished -> is_Some (pending_rekey s) ->
    open_encrypted s message = Ok payloads -> grounds s message.

(** The same of a return, an error and a panic. *)
Lemma post_ends {A} (m : st Runner.t IpsecError.t A) (X : Runner.t -> Prop) s :
  post m (fun _ => X) X s <-> X (m s).1.
Proof using Type. unfold post. by destruct (m s) as [s' [a|e| |]]. Qed.

Lemma child_request_ends message s :
  no_gain s (handle_create_child_request message s).1
  \/ exists payloads, open_encrypted s message = Ok payloads.
Proof using Type.
  apply post_ends. unfold handle_create_child_request. apply step_get.
  apply step_lift; [by left|intros payloads Hopen]. apply post_always; eauto.
Qed.

Lemma child_response_ends message s :
  no_gain s (handle_create_child_response message s).1
  \/ is_Some (pending_rekey s) /\ exists payloads, open_encrypted s message = Ok payloads.
Proof using Type.
  apply post_ends. unfold handle_create_child_response. apply post_bind.
  unfold post at 1. cbn. set (s1 := put_retransmit None s).
  assert (Hs1 : no_gain s s1) by (by split; [left|]). apply step_get.
  apply step_lift; [by left|intros payloads Hopen]. apply post_bind.
  unfold post at 1. cbn. apply step_require; [by left|intros pending Hpending].
  apply post_always; eauto 6.
Qed.

Lemma auth_response_ends message s :
  no_gain s (handle_auth_response message s).1 \/ responder_authenticated s message.
Proof using Type.
  pose proof (auth_response_post message s) as Hp. apply post_ends in Hp.
  destruct Hp as [Hu|Ha]; [left; by apply untouched_no_gain|by right].
Qed.

Lemma auth_request_ends message source s :
  no_gain s (handle_auth_request message source s).1 \/ initiator_authenticated s message.
Proof using Type.
  pose proof (auth_request_post message source s) as Hp. unfold post in Hp.
  destruct (handle_auth_request message source s) as [s' [a|e| |]]; cbn; [by right|..];
    (destruct Hp as [Hu|Ha]; [left; by apply untouched_no_gain|by right]).
Qed.

Lemma response_ends data source message s :
  is_response_of message = true ->
  no_gain s (handle_response data source message s).1 \/ grounds s message.
Proof using Type.
  intros Hr.
  assert (Hc : forall m : st Runner.t IpsecError.t unit, calm m ->
    no_gain s (m s).1 \/ grounds s message) by (intros m Hm; left; apply Hm).
  unfold handle_response. unfold mbind at 1, st_bind at 1. cbn [get].
  destruct (phase s) eqn:Hp; try (apply Hc; by calm_tac).
  - apply Hc, calm_sa_init_response.
  - destruct (auth_response_ends message s); [by left|right]. eapply ByAuthResponse; eauto.
  - destruct (auth_response_ends message s); [by left|right]. eapply ByAuthResponse; eauto.
  - destruct (exchange_of message) eqn:He; try (apply Hc; by calm_tac).
    destruct (child_response_ends message s) as [Hu|(Hrk & payloads & Ho)]; [by left|right].
    eapply ByChildResponse; eauto.
Qed.

Lemma datagram_request_ends data source message s :
  is_response_of message = false ->
  no_gain s (Engine.handle_request data source message s).1 \/ grounds s message.
Proof using Type.
  intros Hr. unfold Engine.handle_request. destruct (exchange_of message) eqn:He.
  - left. apply calm_sa_init_request.
  - destruct (auth_request_ends message source s); [by left|right]. by eapply ByAuthRequest.
  - destruct (child_request_ends message s) as [Hu|(payloads & Ho)]; [by left|right].
    eapply ByChildRequest; eauto.
  - left. apply calm_informational_request.
Qed.

(** Another transport changes neither who the peer is nor what is installed. *)
Lemma grounds_transport t w s message :
  grounds (put_transport t (put_world w s)) message -> grounds s message.
Proof using Type.
  intros [? ? H|? H' H|? ? ? H|? ? ? ? ? H].
  - by eapply ByAuthRequest.
  - by eapply ByAuthResponse.
  - by eapply ByChildRequest.
  - by eapply ByChildResponse.
Qed.

Lemma datagram_ends data source s :
  no_gain s (handle_datagram data source s).1
  \/ exists message, Message.decode data = Ok message /\ grounds s message.
Proof using Type.
  apply post_ends. unfold handle_datagram. apply step_get. apply post_bind.
  match goal with |- post ?m _ _ _ => set (prepare := m) end.
  assert (Hp : exists w t, (prepare s).1 = put_transport t (put_world w s)).
  { unfold prepare. case_match.
    - unfold mbind, st_bind. cbn. unfold on_transport. destruct (IkeTransport.enable_nat_t _) as [[w t] r].
      by exists w, t.
    - case_match; [by eexists (world s), _; destruct s|].
      by exists (world s), (transport s); destruct s. }
  destruct Hp as (w & t & Hp). unfold post at 1. set (s1 := put_transport t (put_world w s)) in Hp.
  assert (Hng : no_gain s s1) by (split; [by left|done]).
  destruct (prepare s) as [s2 [[]|e| |]]; cbn in Hp; subst s2; try by left.
  apply step_lift; [by left|intros message Hm]. apply post_ends.
  assert (Hg : forall s2, no_gain s1 s2 \/ grounds s1 message ->
    no_gain s s2 \/ exists message, Message.decode data = Ok message /\ grounds s message).
  { intros s2 [Hn|Hg]; [left; by etrans|right]. exists message. by eapply grounds_transport in Hg. }
  apply Hg. destruct (is_response_of message) eqn:Hr;
    [by apply response_ends|by apply datagram_request_ends].
Qed.

Lemma reported_calm m : calm m -> calm (reported m).
Proof using Type.
  intros Hm s. specialize (Hm s). unfold reported. by destruct (m s) as [s' [a|e| |]].
Qed.

(** C1: in any state and for any wake-up of the event loop, the connection becomes
    Established, or its Child SA is replaced, only by a datagram that decodes to a message
    with grounds for it: an IKE_AUTH request that opens under the IKE SA's keys, names the
    configured initiator and proves it (the PSK's AUTH value, or a certificate that
    verifies and its signature) - while the answer to IKE_AUTH is awaited, a response of
    any exchange type that opens under those keys, names the configured responder and
    proves it likewise (or by the EAP MSK) - a CREATE_CHILD_SA request that opens under the
    keys of the IKE SA, in any phase - or, in an established connection with a rekey
    pending, a CREATE_CHILD_SA response that does. Every other turn, errors and panics
    included, leaves the Child SA as it was or removes it. *)
Theorem established_only_by e s :
  no_gain s (turn e s).1
  \/ exists buffer source data from message,
       e = Received buffer source
       /\ IkeTransport.recv (transport s) buffer source = Ok (data, from)
       /\ Message.decode data = Ok message /\ grounds s message.
Proof using Type.
  destruct e as [buffer source|e| | |].
  - cbn [turn]. unfold mbind, st_bind at 1. cbn [get].
    unfold reported, mbind, st_bind, lift.
    destruct (IkeTransport.recv (transport s) buffer source) as [[data from]|x| |] eqn:Hr.
    2-4: left; by split; [left|].
    pose proof (datagram_ends data from s) as Hd.
    assert (Hd' : no_gain s (handle_datagram data from s).1
      \/ exists buffer0 source0 data0 from0 message,
           Received buffer source = Received buffer0 source0
           /\ IkeTransport.recv (transport s) buffer0 source0 = Ok (data0, from0)
           /\ Message.decode data0 = Ok message /\ grounds s message).
    { destruct Hd as [Hn|(m & Hm & Hg)]; [by left|right]. by exists buffer, source, data, from, m. }
    destruct (handle_datagram data from s) as [s' [[]|x| |]]; exact Hd'.
  - left. apply (calm_quiet (report_error e)). unfold report_error. still_tac.
  - left. apply (reported_calm _ calm_on_retransmit).
  - left. apply (reported_calm _ calm_on_dpd).
  - left. apply (reported_calm _ calm_rekey).
Qed.

(** ** A replayed IKE_AUTH request *)

Abbreviation keys_of h :=
  (ChildSaHandle.outbound_key h, ChildSaHandle.inbound_key h,
   ChildSaHandle.outbound_integrity_key h, ChildSaHandle.inbound_integrity_key h).

(** The keys do not depend on the SPIs, the mode and the selectors. *)
Lemma child_keys_same i ni nr shared suite l r mode ls rs l' r' mode' ls' rs' h h' :
  child_keys i ni nr shared suite l r mode ls rs = Ok h ->
  child_keys i ni nr shared suite l' r' mode' ls' rs' = Ok h' -> keys_of h = keys_of h'.
Proof using Type.
  unfold child_keys, derive_child_keys. intros Hh Hh'.
  repeat match type of Hh with mbind _ _ = Ok _ =>
    let E := fresh "E" in apply bind_ok in Hh as (? & E & Hh); rewrite E in Hh';
    cbn [mbind outcome_bind] in Hh' end.
  destruct (is_initiator _); by simplify_eq.
Qed.

(** [install_child] on a task with an IKE SA. *)
Lemma install_child_post handle i s :
  ike s = Some i ->
  post (install_child handle)
    (fun _ s' => ike s' = Some (IkeRuntime.put_child (Some (mkChildRuntime handle)) i)
                 /\ config s' = config s) (fun _ => True) s.
Proof using Type.
  intros Hi. unfold install_child. apply post_bind. unfold post at 1, on_world, read_clock.
  destruct (system_now _) as [w t]. apply step_get. cbn [config put_world ike].
  apply step_lift; [done|intros x _]. rewrite Hi. apply post_bind. unfold post at 1. cbn.
  do 2 (apply post_bind; unfold post at 1; cbn). apply post_bind. unfold post at 1. cbn.
  match goal with |- post ?m _ _ ?x => set (tail := m); set (s1 := x) end.
  assert (Ht : still tail) by (unfold tail; still_tac). specialize (Ht s1). unfold post.
  destruct (tail s1) as [s2 [a|e| |]]; try done. destruct Ht as [Hc _ Hk _ _]. cbn in Hc, Hk.
  by rewrite Hc, Hk.
Qed.

(** Where the keys of the Child SA of an IKE_AUTH request come from. *)
Definition auth_child (s : Runner.t) (message : Message.t) (s' : Runner.t) : Prop :=
  exists i payloads sa suite n h l r mode ls rs,
    ike s = Some i /\ open_encrypted s message = Ok payloads
    /\ first_sa payloads = Some sa
    /\ select_esp_initial (child_proposals (IpsecConfig.child (config s))) sa = Ok (suite, n)
    /\ child_keys i (IkeRuntime.nonce_i i) (IkeRuntime.nonce_r i) None suite l r mode ls rs = Ok h
    /\ ike s' = Some (IkeRuntime.put_child (Some (mkChildRuntime h)) i)
    /\ config s' = config s.

Lemma auth_request_child message source s :
  post (handle_auth_request message source) (fun _ s' => auth_child s message s')
    (fun _ => True) s.
Proof using Type.
  unfold handle_auth_request. do 2 still_call s. apply step_get. rename s'0 into s1, H0 into Hs1.
  apply step_lift; [done|intros payloads Hopen].
  apply step_require; [done|intros peer Hpeer].
  apply step_require; [done|intros idp Hid].
  apply step_lift; [done|intros identity Hident].
  destruct (negb _); [done|]. still_call s. apply post_bind.
  eapply post_mono; [by apply (verify_initiator_post _ _ _ _ s _ (fun _ => True))| |done].
  intros _ s3 [Hs3 _]. apply step_require; [done|intros sa Hsa].
  apply step_lift; [done|intros [suite n] Hsuite].
  apply step_require; [done|intros spi Hspi]. do 2 still_call s.
  apply step_lift; [done|intros [ls rs] _]. apply step_lift; [done|intros id_body _].
  do 3 still_call s. apply step_the_ike; [done|intros i Hi].
  apply step_lift; [done|intros h Hh].
  eapply post_mono; [by apply (install_child_post h i)| |done].
  intros _ s9 [Hi9 Hc9]. rewrite (same_config _ _ Hs1) in Hsuite.
  rewrite (open_encrypted_same _ _ _ Hs1) in Hopen.
  match goal with H : same s ?x, Hi : ike ?x = Some i |- _ =>
    rewrite (same_ike _ _ H) in Hi; rewrite (same_config _ _ H) in Hc9 end.
  unfold auth_child. eauto 20.
Qed.

(** The responder accepts an IKE_AUTH request again. No message ID is checked, so the
    datagram of an IKE_AUTH request that was accepted, received a second time, installs a
    Child SA again, and its four keys are those of the first one: they depend on the nonces
    of IKE_SA_INIT only, not on the SPI drawn for the new SA. *)
Theorem replayed_auth_reuses_keys message source source' s s1 s2 :
  handle_auth_request message source s = (s1, Ok tt) ->
  handle_auth_request message source' s1 = (s2, Ok tt) ->
  exists c1 c2, child_of s1 = Some c1 /\ child_of s2 = Some c2
    /\ keys_of (handle c1) = keys_of (handle c2).
Proof using Type.
  intros H1 H2.
  pose proof (auth_request_child message source s) as C1. unfold post in C1. rewrite H1 in C1.
  pose proof (auth_request_child message source' s1) as C2. unfold post in C2. rewrite H2 in C2.
  destruct C1 as (i & ps & sa & suite & n & h & l & r & mo & ls & rs
                  & Hi & Ho & Hsa & Hse & Hk & Hi1 & Hc1).
  destruct C2 as (i2 & ps2 & sa2 & suite2 & n2 & h2 & l2 & r2 & mo2 & ls2 & rs2
                  & Hi2 & Ho2 & Hsa2 & Hse2 & Hk2 & Hi3 & Hc2).
  exists (mkChildRuntime h), (mkChildRuntime h2). unfold child_of. rewrite Hi1, Hi3.
  split; [done|]. split; [done|]. rewrite Hi1 in Hi2. injection Hi2 as <-.
  assert (ps2 = ps) as ->.
  { unfold open_encrypted in Ho, Ho2. rewrite Hi in Ho. rewrite Hi1 in Ho2. cbn in Ho, Ho2.
    congruence. }
  rewrite Hc1 in Hse2. assert (sa2 = sa) as -> by congruence.
  assert (suite2 = suite) as -> by congruence.
  exact (child_keys_same i _ _ _ _ _ _ _ _ _ _ _ _ _ _ _ _ Hk Hk2).
Qed.

(** ** What an unauthenticated datagram does *)

(** A datagram from [source] makes the engine bind no socket: it does not come from the
    port of NAT traversal, or NAT traversal is disabled or already on. *)
Definition binds_no_socket (source : SocketAddr.t) (s : Runner.t) : Prop :=
  SocketAddr.port source <> NAT_T_PORT \/ IkeTransport.nat_t (transport s) = false
  \/ IkeTransport.encapsulated (transport s) = true.

(** C40: in an established connection, a datagram that merely decodes to an INFORMATIONAL
    response - nothing of it is opened under the keys of the IKE SA, and neither its SPIs
    nor its message ID are compared - ends the outstanding retransmission and clears the
    count of unanswered dead-peer probes, while the phase, the keys and the Child SA stay:
    anyone who can send a datagram keeps a dead peer's Child SA installed and stops the
    retransmission of a rekey request.  The datagram comes from another port than 4500, or
    NAT traversal is disabled or already on, so that no socket has to be bound first. *)
Theorem dpd_answer_not_authenticated data source message s :
  Message.decode data = Ok message -> is_response_of message = true ->
  exchange_of message = ExchangeType.Informational -> phase s = PhaseEstablished ->
  binds_no_socket source s ->
  let s' := (handle_datagram data source s).1 in
  retransmit s' = None /\ dpd_failures s' = 0 /\ ike s' = ike s /\ phase s' = PhaseEstablished.
Proof using Type.
  intros Hd Hr He Hp Hport. unfold handle_datagram. rewrite (st_bind_ok _ _ _ s s) by done.
  match goal with |- context [(?m ≫= _) s] => set (prepare := m) end.
  assert (Hs1 : exists t, prepare s = (put_transport t s, Ok tt)).
  { unfold prepare. destruct (Z.eqb_spec (SocketAddr.port source) NAT_T_PORT) as [Heq|_].
    - destruct Hport as [Hport|Hport]; [done|]. unfold mbind, st_bind. cbn.
      unfold on_transport, IkeTransport.enable_nat_t, mbind, st_bind. cbn.
      destruct Hport as [->| ->]; cbn; [|rewrite orb_true_r]; by eexists.
    - case_match; [by eexists|]. exists (transport s). by destruct s. }
  destruct Hs1 as (t & Hs1). set (s1 := put_transport t s) in Hs1. rewrite (st_bind_ok _ _ s s1 tt Hs1).
  rewrite Hd, st_bind_lift, Hr. unfold handle_response. rewrite (st_bind_ok _ _ _ s1 s1) by done.
  replace (phase s1) with PhaseEstablished by (symmetry; exact Hp). rewrite He, !st_bind_modify.
  unfold after, now, on_world, read_clock, lift, mbind, st_bind.
  destruct (instant_now _) as [w x]. cbn. by destruct (instant_add _ _).
Qed.

End safety.
End AuthSafety.
