(* ===== verification/IkeDemo.v ===== *)
(** * The IKE engine on concrete inputs

    [rustls_setup]: the EAP-TLS method of [EapTls.v] is the method the engine's
    EAP sessions run, and its invariant discharges the engine's interface.
    [Module IkeDemo]: an executable world (a counter for randomness, an outbox for
    UDP), toy algorithms that satisfy the documented laws, and two configured ends;
    the witnesses of the engine's theorems and runs of the event loop. *)

From stdpp Require Import gmap.
From S2P Require Import Prelude Errors Net Eap EapTls IkeCodec TrafficSelector Identity IpsecConfig IkeProposals IkeCrypto IkeSa IkeWorld IkeTransport IkeAuth IkeEngine IpsecClient IkeEngineFacts IkeAuthSafety.

(** ** EAP-TLS inside the engine *)

Section rustls_setup.
Context `{IkeWorld} {Cfg C : Type} `{TlsConnLaws Cfg C}.
(** The TLS configuration and the server name read from the files. *)
Variable load_tls : EapTlsConfig -> World -> World * (WifiError.t + Cfg * string).

Definition rustls_setup : EapTlsSetup := {|
  EapTlsM := EapTlsMethod.t Cfg C;
  eap_tls_method := EapTlsMethod.eap_tls_method;
  eap_tls_from_config c w :=
    let '(w', r) := load_tls c w in
    (w', match r with inl e => Err e | inr (cfg, name) => EapTlsMethod.new cfg name end);
|}.

Lemma rustls_setup_laws : @EapTlsSetupLaws _ rustls_setup.
Proof using All.
  unshelve econstructor; [exact EapTlsFacts.inv|..].
  - intros c w. cbn. destruct (load_tls c w) as [w' [e|[cfg name]]]; [done|].
    unfold EapTlsMethod.new. by case_match.
  - intros c w w' m. cbn. destruct (load_tls c w) as [w1 [e|[cfg name]]]; [done|].
    intros [= _ Hm]. unfold EapTlsMethod.new in Hm. case_match; [done|]. injection Hm as <-.
    by split; cbn; [lia|lia|unfold REASSEMBLY_LIMIT; lia|..].
  - intros m id body Hm Hb. cbn.
    pose proof (EapTlsFacts.handle_request_wp id body m Hm Hb) as Hw. unfold wp in Hw.
    destruct (EapTlsMethod.handle_request id body m) as [m' [r|e| |]]; try done; by destruct Hw.
Qed.

End rustls_setup.

Module IkeDemo.
Import Runner Engine.

(** ** The world *)

Record net := mkNet {
  seed : Z;
  outbox : list (list Z * SocketAddr.t);
}.

(** Randomness is a counter; keys of the key agreement are numbers modulo 251. *)
#[local] Instance demo_world : IkeWorld := {|
  World := net;
  getrandom n w := (mkNet (seed w + 1) (outbox w), inr (replicate n (seed w mod 256)));
  instant_now w := (w, 0);
  system_now w := (w, 0);
  EcdhKey := Z;
  ecdh_generate _ w := (mkNet (seed w + 1) (outbox w), Some (seed w));
  ecdh_public k := Some [3 ^ k mod 251];
  ecdh_agree _ k p := Some [from_be p ^ k mod 251];
  sha1 _ := replicate 20 5;
  Socket := unit;
  udp_bind _ w := (w, inr tt);
  udp_local_addr _ w := (w, inr (any_v4 500));
  udp_connect _ _ w := (w, None);
  udp_send_to _ m to w := (mkNet (seed w) (outbox w ++ [(m, to)]), None);
  mul_percent d p := d * p / 100;
|}.

#[local] Instance demo_world_laws : IkeWorldLaws.
Proof.
  split; [|done|done|done|].
  - intros n w w' l. cbn. intros [= _ <-]. split; [by rewrite length_replicate|].
    apply Forall_replicate. apply Z.mod_pos_bound. lia.
  - intros d p Hd Hp. cbn. split; [apply Z.div_pos; nia|].
    apply Z.div_le_upper_bound; nia.
Qed.

(** ** The algorithms *)

Fixpoint checksum (l : list Z) : Z :=
  match l with
  | [] => 7
  | x :: l => (x + 5 * checksum l) mod 251
  end.

Definition mac (k d : list Z) : Z := (checksum k + 11 * checksum d) mod 251.

#[local] Instance demo_crypto : CryptoLib := {|
  hmac_sha1 k d := replicate 20 (mac k d);
  hmac_sha256 k d := replicate 32 (mac k d);
  gcm_seal k n a p := Some (p ++ replicate 16 (mac k p));
  gcm_open k n a c :=
    let p := take (length c - 16) c in
    if bool_decide (drop (length c - 16) c = replicate 16 (mac k p)) then Some p else None;
  cbc_encrypt k iv p := p;
  cbc_decrypt k iv c := c;
|}.

#[local] Instance demo_crypto_laws : CryptoLaws.
Proof.
  split; [done..| |done].
  intros k n a p _ _. eexists. split; [done|]. split; [len_lia|]. cbn [gcm_open demo_crypto].
  replace (length _ - 16)%nat with (length p) by len_lia.
  rewrite take_app_length, drop_app_length. by rewrite bool_decide_true.
Qed.

#[local] Instance demo_crypto_bytes : CryptoBytes.
Proof.
  split; [|done]. intros k n a c p Hc. cbn. case_bool_decide; [|done].
  intros [= <-]. by apply Forall_take.
Qed.

#[local] Instance demo_eap : EapTlsSetup :=
  @rustls_setup _ unit (list Z) EapTlsContract.toy_conn (fun _ w => (w, inr (tt, "server"))).

#[local] Instance demo_eap_laws : EapTlsSetupLaws.
Proof. exact (@rustls_setup_laws _ _ _ _ EapTlsContract.toy_laws _). Qed.

(** No certificates. *)
#[local] Instance demo_certs : CertLib := {|
  key_from_pem _ := inl "no key";
  RsaKey := Empty_set; EcdsaKey := Empty_set; Ed25519Key := Empty_set;
  rsa_from_pkcs8 _ := None;
  ecdsa_p256_from_pkcs8 _ w := (w, None);
  ecdsa_p384_from_pkcs8 _ w := (w, None);
  ed25519_from_pkcs8 _ := None;
  rsa_sign k := match k with end;
  ecdsa_sign k := match k with end;
  ed25519_sign k := match k with end;
  Anchor := Empty_set; EndEntity := Empty_set; ServerName := unit;
  anchor_from_cert _ := inl "no anchor";
  end_entity _ := inl "no certificate";
  verify_for_usage e := match e with end;
  name_of_ip _ := tt;
  name_of_string _ := inr tt;
  name_debug _ := "name";
  valid_for_name e := match e with end;
  verify_with e := match e with end;
|}.

(** ** Two ends *)

Definition west_ip : IpAddr := V4 [10; 0; 0; 1].
Definition east_ip : IpAddr := V4 [10; 0; 0; 2].

Definition ends (me peer : string) (my_ip peer_ip : IpAddr) (connects : bool) (secret : list Z)
  : IpsecConfig.t :=
  IpsecConfig.mk me PointToPoint
    (mkLocalConfig (Some my_ip) None (Identity.Fqdn me) 500 false false false)
    [mkPeerConfig
       (mkRemoteConfig (if connects then Some peer_ip else None) (Identity.Fqdn peer) 500)
       (TrafficSelectorPair.hosts my_ip peer_ip) (Psk secret)]
    IkeConfig_default ChildConfig_default
    (mkXfrmConfig None None None 0 None 0 None false) RekeyConfig_default DpdConfig_default.

Definition west_config : list Z -> IpsecConfig.t := ends "west" "east" west_ip east_ip true.
Definition east_config : list Z -> IpsecConfig.t := ends "east" "west" east_ip west_ip false.

(** What [spawn] makes of a configuration, and the task once started. *)
Definition idle (c : IpsecConfig.t) (seed : Z) : Runner.t :=
  Runner.mk (mkNet seed []) c [] ∅
    (IkeTransport.mk tt
       (match IpsecConfig.peers c with
        | p :: _ => match remote_address (remote p) with
                    | Some a => SocketAddr.mk a (remote_port (remote p))
                    | None => any_v4 0
                    end
        | [] => any_v4 0
        end) false false)
    Init None 0 None 1 None None None 0 None None false.

Lemma spawn_idle c seed p ps :
  IpsecConfig.peers c = p :: ps -> nat_t (IpsecConfig.local c) = false ->
  spawn c ∅ (mkNet seed []) = (mkNet seed [], Ok (idle c seed)).
Proof. intros Hp Hn. unfold spawn, idle. by rewrite Hp, Hn. Qed.

Definition boot (c : IpsecConfig.t) (seed : Z) : Runner.t := (start (idle c seed)).1.

Definition sent (s : Runner.t) : list (list Z) := (outbox (world s)).*1.

(** A turn for each datagram. *)
Definition receive (from : IpAddr) (ms : list (list Z)) (s : Runner.t) : Runner.t :=
  foldl (fun s m => (turn (Received m (SocketAddr.mk from 500)) s).1) s ms.

Definition last_sent (s : Runner.t) : list (list Z) := drop (length (sent s) - 1) (sent s).

(** Both ends after IKE_SA_INIT, then after IKE_AUTH. *)
Definition sa_init (psk_west psk_east : list Z) : Runner.t * Runner.t :=
  let west := boot (west_config psk_west) 1 in
  let east := receive west_ip (sent west) (boot (east_config psk_east) 100) in
  (receive east_ip (last_sent east) west, east).

Definition handshake (psk_west psk_east : list Z) : Runner.t * Runner.t :=
  let '(west, east) := sa_init psk_west psk_east in
  let east := receive west_ip (last_sent west) east in
  (receive east_ip (last_sent east) west, east).

(** ** A Child SA without authentication *)

(** The initiator completes IKE_SA_INIT and then asks for a Child SA instead of
    authenticating. *)
Definition intruder_run (psk_west psk_east : list Z) : Runner.t :=
  let '(west, east) := sa_init psk_west psk_east in
  let west := (initiate_rekey (put_phase PhaseEstablished west)).1 in
  receive west_ip (last_sent west) east.

Definition secret : list Z := as_bytes "correct horse battery staple".
Definition guess : list Z := as_bytes "guess".

(** What was announced to the user of the library: the connection and the traffic. *)
Definition installed (s : Runner.t) : list (string * TrafficSelectorPair.t) :=
  omap (fun e => match e with
    | ChildSaReady c _ h _ =>
        Some (c, TrafficSelectorPair.new (ChildSaHandle.local_selectors h)
                   (ChildSaHandle.remote_selectors h))
    | _ => None
    end) (events s).

(** A responder installs a Child SA for a peer that has proved nothing. With
    different pre-shared keys at both ends IKE_AUTH fails, as it should (the first
    conjunct); but the same initiator can complete IKE_SA_INIT, skip IKE_AUTH and send a CREATE_CHILD_SA request under the
    keys of the key exchange: the responder's connection is then Established, with a
    Child SA for the traffic selectors of the configured peer and a ChildSaReady event,
    for [handle_create_child_request] looks neither at the phase nor at an
    authentication. *)
Theorem child_sa_without_authentication :
  phase (handshake guess secret).2 = AuthSent
  /\ phase (intruder_run guess secret) = PhaseEstablished
  /\ is_Some (AuthSafety.child_of (intruder_run guess secret))
  /\ states (intruder_run guess secret) !! "east" = Some Established
  /\ installed (intruder_run guess secret) = [("east", TrafficSelectorPair.hosts east_ip west_ip)].
Proof.
  split; [by vm_compute|]. split; [by vm_compute|].
  split; [|split; [by vm_compute|by vm_compute]].
  apply (bool_decide_unpack _). by vm_compute.
Qed.

(** The two ends with the same key: both are established, and the keys mirror. *)
Example psk_handshake :
  phase (handshake secret secret).1 = PhaseEstablished
  /\ phase (handshake secret secret).2 = PhaseEstablished
  /\ option_map (fun c => (ChildSaHandle.outbound_key (handle c), ChildSaHandle.inbound_key (handle c)))
       (AuthSafety.child_of (handshake secret secret).1)
     = option_map (fun c => (ChildSaHandle.inbound_key (handle c), ChildSaHandle.outbound_key (handle c)))
         (AuthSafety.child_of (handshake secret secret).2).
Proof. by vm_compute. Qed.

(** ** Witnesses of the engine's theorems *)

Lemma booted c seed :
  (start (idle c seed)).2 = Ok tt -> reachable (idle c seed) (boot c seed).
Proof.
  intros H. apply Reach_start. unfold boot. rewrite <- H. apply surjective_pairing.
Qed.

Lemma engine_turns_return_witness :
  EngineTotal.comes_back (turn (Received [1; 2; 3] (any_v4 500))) (boot (east_config secret) 100).
Proof.
  apply (EngineTotal.engine_turns_return (HW := demo_world) (east_config secret) ∅ (mkNet 100 []) (mkNet 100 [])
           (idle (east_config secret) 100)).
  - cbn. lia.
  - unfold EngineTotal.moderate. cbn [east_config IpsecConfig.dpd IpsecConfig.child].
    repeat split; by apply (bool_decide_unpack _); vm_compute.
  - by eapply spawn_idle.
  - by apply booted; vm_compute.
  - apply (bool_decide_unpack _). by vm_compute.
Defined.

(** The first request of the initiator may be sent six times. *)
Lemma unanswered r :
  retransmit (boot (west_config secret) 1) = Some r ->
  Z.to_nat (Retransmit.max_attempts r - Retransmit.attempts r) = 6%nat.
Proof.
  intros Hr.
  assert (Hx : (fun r => Z.to_nat (Retransmit.max_attempts r - Retransmit.attempts r))
                 <$> retransmit (boot (west_config secret) 1) = Some 6%nat) by by vm_compute.
  rewrite Hr in Hx. by injection Hx.
Qed.

Lemma waits : is_Some (retransmit (boot (west_config secret) 1)).
Proof. apply (bool_decide_unpack _). by vm_compute. Qed.

Lemma retransmit_gives_up_witness :
  retransmit (EngineTotal.run_turns (replicate 6 RetransmitDue) (boot (west_config secret) 1))
  = None.
Proof.
  destruct waits as [r Hr]. pose proof (unanswered r Hr) as Hn.
  rewrite <- Hn.
  apply (EngineTotal.retransmit_gives_up (HW := demo_world) (west_config secret) ∅ (mkNet 1 []) (mkNet 1 [])
           (idle (west_config secret) 1)).
  - cbn. lia.
  - by eapply spawn_idle.
  - by apply booted; vm_compute.
  - exact Hr.
Defined.

(** The IKE_AUTH request, received twice by the responder. *)
Definition auth_message : outcome IpsecError.t Message.t :=
  match last_sent (sa_init secret secret).1 with
  | m :: _ => Message.decode m
  | [] => ike_err "nothing sent"
  end.

Definition west_addr : SocketAddr.t := SocketAddr.mk west_ip 500.

Abbreviation accept m s := (handle_auth_request m west_addr s).

Lemma auth_message_ok : exists m, auth_message = Ok m.
Proof. destruct auth_message as [m| | |] eqn:Hm; [by exists m|by vm_compute in Hm..]. Qed.

Lemma bind_known {E A B} (x : outcome E A) (f : A -> outcome E B) a :
  x = Ok a -> x ≫= f = f a.
Proof. by intros ->. Qed.

Lemma accept_first m :
  auth_message = Ok m -> (accept m (sa_init secret secret).2).2 = Ok tt.
Proof.
  intros Hm.
  assert (Hx : (m ← auth_message; (accept m (sa_init secret secret).2).2) = Ok tt) by by vm_compute.
  rewrite (bind_known _ _ _ Hm) in Hx. cbv beta in Hx. exact Hx.
Qed.

Lemma accept_again m :
  auth_message = Ok m -> (accept m (accept m (sa_init secret secret).2).1).2 = Ok tt.
Proof.
  intros Hm.
  assert (Hx : (m ← auth_message; (accept m (accept m (sa_init secret secret).2).1).2) = Ok tt)
    by by vm_compute.
  rewrite (bind_known _ _ _ Hm) in Hx. cbv beta in Hx. exact Hx.
Qed.

Lemma ok_pair {S E A} (x : S * outcome E A) a : x.2 = Ok a -> x = (x.1, Ok a).
Proof. destruct x. cbn. by intros ->. Qed.

Lemma replayed_auth_reuses_keys_witness :
  exists m c1 c2,
    auth_message = Ok m
    /\ AuthSafety.child_of (accept m (sa_init secret secret).2).1 = Some c1
    /\ AuthSafety.child_of (accept m (accept m (sa_init secret secret).2).1).1 = Some c2
    /\ ChildSaHandle.outbound_key (handle c1) = ChildSaHandle.outbound_key (handle c2).
Proof.
  destruct auth_message_ok as [m Hm].
  destruct (AuthSafety.replayed_auth_reuses_keys m west_addr west_addr
              (sa_init secret secret).2 (accept m (sa_init secret secret).2).1
              (accept m (accept m (sa_init secret secret).2).1).1
              (ok_pair _ _ (accept_first m Hm)) (ok_pair _ _ (accept_again m Hm)))
    as (c1 & c2 & Hc1 & Hc2 & Hk).
  exists m, c1, c2.
  exact (conj Hm (conj Hc1 (conj Hc2 (f_equal (fun k => k.1.1.1) Hk)))).
Defined.

(** An INFORMATIONAL response with SPIs and a message ID of nobody. *)
Definition forged_answer : Message.t :=
  Message.new (IkeHeader.new 0 0 ExchangeType.Informational FLAG_RESPONSE 77) [].

Lemma dpd_answer_not_authenticated_witness :
  exists data,
    Message.encode forged_answer = Ok data
    /\ retransmit (handle_datagram data (any_v4 500) (handshake secret secret).1).1 = None
    /\ dpd_failures (handle_datagram data (any_v4 500) (handshake secret secret).1).1 = 0.
Proof.
  destruct (Message.encode forged_answer) as [data| | |] eqn:He; [|by vm_compute in He..].
  destruct (Message.decode data) as [message| | |] eqn:Hd;
    [|by vm_compute in He; injection He as <-; vm_compute in Hd..].
  assert (Hh : Message.header message
               = IkeHeader.mk 0 0 0 32 ExchangeType.Informational FLAG_RESPONSE 77 28).
  { vm_compute in He. injection He as <-. vm_compute in Hd. by injection Hd as <-. }
  destruct (AuthSafety.dpd_answer_not_authenticated data (any_v4 500) message
              (handshake secret secret).1) as (Hs' & Hf & _).
  - exact Hd.
  - by rewrite Hh.
  - by rewrite Hh.
  - by vm_compute.
  - by left.
  - exists data. exact (conj eq_refl (conj Hs' Hf)).
Defined.

(** ** The client *)

Definition origin : @World demo_world := mkNet 1 [].

Definition one_call_later : IpsecClient.t :=
  fold_left (fun c o => IpsecClientFacts.api_call o c) [inr true; inl []; inr false]
    (IpsecClient.init [west_config secret; east_config secret] origin).1.

Lemma update_leaves_wanted_engines_witness :
  let c' := (IpsecClient.update [east_config secret] one_call_later).1 in
  (forall n, IpsecClientFacts.engine_of c' n = IpsecClientFacts.wanted [east_config secret] n)
  /\ (forall task runner, IpsecClient.running c' !! task = Some runner ->
       IpsecClientFacts.wanted [east_config secret] (IpsecConfig.name (Runner.config runner)) = Some (Runner.config runner)).
Proof.
  cbv zeta. destruct (IpsecClient.update [east_config secret] one_call_later) as [c1 r1] eqn:Hu. cbn [fst].
  assert (r1 = Ok tt) as Hr.
  { apply (f_equal snd) in Hu. cbn [snd] in Hu. rewrite <- Hu. vm_compute. reflexivity. }
  rewrite Hr in Hu. unfold one_call_later in Hu.
  destruct (IpsecClient.init [west_config secret; east_config secret] origin) as [c0 r0] eqn:Hi. cbn [fst] in Hu.
  refine (IpsecClientFacts.update_leaves_wanted_engines [west_config secret; east_config secret] origin c0 r0
           [inr true; inl []; inr false] [east_config secret] c1 _ Hi Hu).
  apply NoDup_cons. split; [|apply NoDup_singleton]. by intros [=]%list_elem_of_singleton.
Defined.

(** Two connections of the same name escape the client.  [init] does not refuse them
    and, unlike [update], does not stop the task it replaces: the handle of the first one
    is dropped, which detaches the task.  When an update then asks for no connection at
    all, the table is empty and the name is reported as closed, but the engine of the
    first one goes on. *)
Theorem duplicate_connection_keeps_running :
  let configs := [west_config secret; west_config secret] in
  let start := IpsecClient.init configs origin in
  let after := IpsecClient.update [] start.1 in
  start.2 = Ok tt /\ after.2 = Ok tt
  /\ IpsecClient.tasks after.1 = ∅ /\ IpsecClient.states after.1 !! "west" = Some Closed
  /\ (IpsecConfig.name ∘ Runner.config <$> IpsecClient.running after.1 !! 0%nat) = Some "west".
Proof. by vm_compute. Qed.

End IkeDemo.
