(* ===== verification/WifiKdf.v ===== *)
(** * WiFi key derivation

    [src/src/wifi/crypto/kdf.rs], [ft.rs] and [ocv.rs]: the 802.11 KDF and
    PRF, the MICs, the FT key hierarchy, the FTIE of a reassociation request and
    the operating-channel check.  Hashes and ciphers come from the RustCrypto
    crates ([Class WifiCryptoLib]); the element and key-frame codecs come from
    the [wl_nl80211] crate ([Class Nl80211]). *)

From S2P Require Import Prelude Errors Security Identity.

(** ** The libraries *)

Class WifiCryptoLib := {
  w_hmac_sha256 : list Z -> list Z -> list Z;
  w_hmac_sha1 : list Z -> list Z -> list Z;
  w_sha256 : list Z -> list Z;
  (** [Cmac<Aes128>], for a 16-octet key. *)
  w_cmac : list Z -> list Z -> list Z;
  (** [KwAes128::unwrap_key]: the plain key, or the error as it is printed. *)
  w_kw_unwrap : list Z -> list Z -> string + list Z;
}.

Class WifiCryptoLaws `{WifiCryptoLib} : Prop := {
  w_hmac_sha256_len k d : length (w_hmac_sha256 k d) = 32%nat;
  w_hmac_sha1_len k d : length (w_hmac_sha1 k d) = 20%nat;
  w_sha256_len d : length (w_sha256 d) = 32%nat;
  w_cmac_len k d : length (w_cmac k d) = 16%nat;
}.

(** A management group key (IGTK, BIGTK) of the key data. *)
Record MgmtKey := mkMgmtKey { mk_index : Z; mk_ipn : list Z; mk_key : list Z }.

(** The key data elements [parse_key_data_kdes] extracts, as far as the
    supplicant reads them. *)
Record Kdes := mkKdes {
  kde_gtk : option (Z * list Z);
  kde_key_id : option Z;
  kde_rsne : option (list Z);
  kde_rsnxe : option (list Z);
  kde_igtk : option MgmtKey;
  kde_bigtk : option MgmtKey;
}.

Definition Kdes_default : Kdes := mkKdes None None None None None None.

(** A parsed EAPOL-Key frame. *)
Record EapolKeyFrame := mkEapolKeyFrame {
  f_raw : list Z;
  f_replay_counter : Z;
  f_key_nonce : list Z;
  f_key_mic : list Z;
  f_key_data : list Z;
  f_key_rsc : list Z;
  f_is_encrypted_data : bool;
  f_desc_version : Z;
}.

Class Nl80211 := {
  ELEMENT_ID_FTIE : Z;
  Oci : Type;
  build_oci_kde : Oci -> list Z;
  parse_oci_kde : list Z -> option Oci;
  matches_freq : Oci -> Z -> bool;
  oci_to_bytes : Oci -> list Z;
  parse_key_data_kdes : list Z -> Kdes;
  rsne_match_ignore_pmkid : list Z -> list Z -> bool;
  (** SNonce, replay counter, key data, descriptor version. *)
  build_message_2 : list Z -> Z -> list Z -> Z -> list Z;
  (** SNonce, replay counter, descriptor version. *)
  build_message_4 : list Z -> Z -> Z -> list Z;
  (** Replay counter, RSC, descriptor version. *)
  build_group_message_2 : Z -> list Z -> Z -> list Z;
  pdu_with_zeroed_mic : list Z -> list Z;
  set_mic : list Z -> list Z -> list Z;
}.

(** [u16::to_le_bytes]. *)
Definition to_le16 (x : Z) : list Z := [x mod 256; x / 256 mod 256].

Section kdf.
Context `{WifiCryptoLib}.

(** ** [kdf.rs] *)

(** [while result.len() < length]; [counter += 1] is checked. *)
Fixpoint kdf_loop (fuel : nat) (key label context : list Z) (length : nat)
  (len_bits counter : Z) (result : list Z) : outcome WifiError.t (list Z) :=
  match fuel with
  | O => Diverge
  | S fuel =>
      if (List.length result <? length)%nat then
        let tag := w_hmac_sha256 key
                     (to_le16 counter ++ label ++ context ++ to_le16 len_bits) in
        if 65535 <=? counter then Panic else
        kdf_loop fuel key label context length len_bits (counter + 1)
          (result ++ tag)
      else Ok (take length result)
  end.

Definition kdf (key : list Z) (label : string) (context : list Z) (length : nat)
  : outcome WifiError.t (list Z) :=
  kdf_loop (S length) key (as_bytes label) context length
    (as_u16 (Z.of_nat length * 8)) 1 [].

Definition hkdf_extract_sha256 (salt ikm : list Z) : list Z := w_hmac_sha256 salt ikm.

Definition sae_confirm (kck : list Z) (send_confirm : Z)
  (scalar1 element1 scalar2 element2 : list Z) : list Z :=
  w_hmac_sha256 kck (to_le16 send_confirm ++ scalar1 ++ element1 ++ scalar2 ++ element2).

Definition hmac_sha256_mic (kck data : list Z) : list Z :=
  take 16 (w_hmac_sha256 kck data).

Fixpoint prf_sha1_loop (fuel : nat) (key label context : list Z) (length : nat)
  (counter : Z) (result : list Z) : outcome WifiError.t (list Z) :=
  match fuel with
  | O => Diverge
  | S fuel =>
      if (List.length result <? length)%nat then
        let tag := w_hmac_sha1 key (label ++ [0] ++ context ++ [counter]) in
        if 255 <=? counter then Panic else
        prf_sha1_loop fuel key label context length (counter + 1) (result ++ tag)
      else Ok (take length result)
  end.

Definition prf_sha1 (key : list Z) (label : string) (context : list Z)
  (length : nat) : outcome WifiError.t (list Z) :=
  prf_sha1_loop (S length) key (as_bytes label) context length 0 [].

Definition hmac_sha1_mic (kck data : list Z) : list Z :=
  take 16 (w_hmac_sha1 kck data).

Definition pmkid_sha256 (pmk aa spa : list Z) : list Z :=
  hmac_sha256_mic pmk (as_bytes "PMK Name" ++ aa ++ spa).

Definition pmkid_sha1 (pmk aa spa : list Z) : list Z :=
  hmac_sha1_mic pmk (as_bytes "PMK Name" ++ aa ++ spa).

(** ** AES ([handshake4.rs]) *)

(** The key is a [[u8; 16]], which [new_from_slice] accepts. *)
Definition aes_cmac (kck data : list Z) : outcome WifiError.t (list Z) :=
  Ok (w_cmac kck data).

Definition aes_key_unwrap (kek wrapped : list Z) : outcome WifiError.t (list Z) :=
  if (length wrapped <? 16)%nat || negb (length wrapped mod 8 =? 0)%nat
  then handshake_failed "invalid wrapped key length"
  else match w_kw_unwrap kek wrapped with
       | inr out => Ok out
       | inl e => handshake_failed ("key unwrap: " +:+ e)
       end.

(** ** [ft.rs] *)

Record PmkR0 := mkPmkR0 { r0_key : list Z; r0_name : list Z }.
Record PmkR1 := mkPmkR1 { r1_key : list Z; r1_name : list Z }.

Definition derive_pmk_r0 (xxkey : list Z) (ssid : string) (mdid r0kh_id s0kh_id : list Z)
  : outcome WifiError.t PmkR0 :=
  let context :=
    [as_u8 (zlen (as_bytes ssid))] ++ as_bytes ssid ++ mdid
    ++ [as_u8 (zlen r0kh_id)] ++ r0kh_id ++ s0kh_id in
  r0_key_data ← kdf xxkey "FT-R0" context 48;
  key ← slice r0_key_data 0 32;
  salt ← slice r0_key_data 32 48;
  let hash := w_sha256 (as_bytes "FT-R0N" ++ salt) in
  name ← slice hash 0 16;
  Ok (mkPmkR0 key name).

Definition derive_pmk_r1 (pmk_r0 : PmkR0) (r1kh_id s1kh_id : list Z)
  : outcome WifiError.t PmkR1 :=
  key ← kdf (r0_key pmk_r0) "FT-R1" (r1kh_id ++ s1kh_id) 32;
  let hash := w_sha256 (as_bytes "FT-R1N" ++ r0_name pmk_r0 ++ r1kh_id ++ s1kh_id) in
  name ← slice hash 0 16;
  Ok (mkPmkR1 key name).

Definition derive_ft_ptk (pmk_r1 : PmkR1) (snonce anonce bssid sta_addr : list Z)
  : outcome WifiError.t (list Z) :=
  kdf (r1_key pmk_r1) "FT-PTK" (snonce ++ anonce ++ bssid ++ sta_addr) 48.

Definition ft_mic (kck sta_addr ap_addr : list Z) (transaction_seqnum : Z)
  (elements : list Z) : outcome WifiError.t (list Z) :=
  aes_cmac kck (sta_addr ++ ap_addr ++ [transaction_seqnum] ++ elements).

Definition FTIE_SUBELEM_R1KH_ID : Z := 1.
Definition FTIE_SUBELEM_R0KH_ID : Z := 3.

(** The FTIE with a MIC field. *)
Definition ftie_with_mic `{Nl80211} (mic anonce snonce r0kh_id r1kh_id : list Z)
  (rsnxe : option (list Z)) : list Z :=
  let used := match rsnxe with Some _ => 1 | None => 0 end in
  let body_len := 2 + 16 + 32 + 32 + (2 + 6) + (2 + zlen r0kh_id) in
  [ELEMENT_ID_FTIE; as_u8 body_len] ++ [used; 3 + used] ++ mic ++ anonce ++ snonce
  ++ [FTIE_SUBELEM_R1KH_ID; 6] ++ r1kh_id
  ++ [FTIE_SUBELEM_R0KH_ID; as_u8 (zlen r0kh_id)] ++ r0kh_id.

Definition ftie_reassoc_request `{Nl80211} (kck sta_addr ap_addr anonce snonce r0kh_id r1kh_id
  rsne mdie : list Z) (rsnxe : option (list Z)) : outcome WifiError.t (list Z) :=
  let ftie mic := ftie_with_mic mic anonce snonce r0kh_id r1kh_id rsnxe in
  let mic_data := rsne ++ mdie ++ ftie (replicate 16 0) ++ default [] rsnxe in
  mic ← ft_mic kck sta_addr ap_addr 5 mic_data;
  Ok (ftie mic).

Definition unwrap_ft_key (kek wrapped_key : list Z) : outcome WifiError.t (list Z) :=
  map_err (fun e => WifiError.new WifiError.HandshakeFailed
                      ("FT key unwrap failed: " +:+ WifiError.to_string e))
    (aes_key_unwrap kek wrapped_key).

End kdf.

(** ** [ocv.rs] *)

(** [{:02x?}] of a byte vector. *)
Definition debug_hex (l : list Z) : string :=
  "[" +:+ String.concat ", " ((fun b => of_bytes (hex [b])) <$> l) +:+ "]".

Definition verify_oci `{Nl80211} (key_data : list Z) (freq_mhz : Z)
  : outcome WifiError.t unit :=
  match parse_oci_kde key_data with
  | None => handshake_failed "OCV: AP Message 3 carries no OCI KDE"
  | Some oci =>
      if negb (matches_freq oci freq_mhz)
      then handshake_failed ("OCV: AP OCI " +:+ debug_hex (oci_to_bytes oci)
                             +:+ " does not match freq " +:+ pretty freq_mhz)
      else Ok tt
  end.

(** ** Facts *)

Module KdfFacts.

Section facts.
Context `{WifiCryptoLaws}.

(** The output blocks of the KDF, counter 1, 2, ... *)
Definition kdf_block (key label context : list Z) (len_bits : Z) (i : nat) : list Z :=
  w_hmac_sha256 key
    (to_le16 (Z.of_nat i) ++ label ++ context ++ to_le16 len_bits).

Definition kdf_blocks (key label context : list Z) (len_bits : Z) (n : nat) : list Z :=
  concat (kdf_block key label context len_bits <$> seq 1 n).

Lemma kdf_blocks_S key label context lb n :
  kdf_blocks key label context lb (S n)
  = kdf_blocks key label context lb n ++ kdf_block key label context lb (S n).
Proof using Type.
  unfold kdf_blocks. rewrite seq_S, fmap_app, concat_app. cbn. by rewrite app_nil_r.
Qed.

Lemma kdf_blocks_len key label context lb n :
  length (kdf_blocks key label context lb n) = (32 * n)%nat.
Proof using All.
  induction n as [|n IH]; [done|]. rewrite kdf_blocks_S, length_app, IH.
  unfold kdf_block. rewrite w_hmac_sha256_len. lia.
Qed.

Lemma kdf_loop_spec fuel key label context length lb n :
  (n < 2000)%nat -> (length <= 32 * 2000)%nat -> (length - 32 * n < fuel)%nat ->
  (n = 0 \/ 32 * (n - 1) < length)%nat ->
  exists m, (length <= 32 * m)%nat /\
    kdf_loop fuel key label context length lb (Z.of_nat n + 1)
      (kdf_blocks key label context lb n)
    = Ok (take length (kdf_blocks key label context lb m)).
Proof using All.
  revert n. induction fuel as [|fuel IH]; intros n Hn Hl Hf Hprev; [lia|].
  cbn [kdf_loop]. rewrite kdf_blocks_len.
  destruct (Nat.ltb_spec (32 * n) length) as [Hlt|Hge].
  - replace (65535 <=? Z.of_nat n + 1) with false by lia.
    replace (Z.of_nat n + 1) with (Z.of_nat (S n)) by lia.
    change (w_hmac_sha256 key _) with (kdf_block key label context lb (S n)).
    rewrite <- kdf_blocks_S.
    destruct (Nat.eq_dec (S n) 2000) as [Heq|].
    + destruct fuel as [|fuel]; [lia|]. exists (S n). split; [lia|].
      cbn [kdf_loop]. rewrite kdf_blocks_len.
      by replace (32 * S n <? length)%nat with false by lia.
    + apply IH; lia.
  - exists n. split; [lia|done].
Qed.

(** The KDF returns exactly the octets asked for: the prefix of its block
    stream, for any length the 802.11 code uses. *)
Lemma kdf_spec key label context length :
  (length <= 32 * 2000)%nat ->
  exists m, (length <= 32 * m)%nat /\
    kdf key label context length
    = Ok (take length (kdf_blocks key (as_bytes label) context
                         (as_u16 (Z.of_nat length * 8)) m)).
Proof using All.
  intros Hl. unfold kdf.
  apply (kdf_loop_spec (S length) key (as_bytes label) context length _ 0); lia.
Qed.

Lemma kdf_len key label context length :
  (length <= 32 * 2000)%nat ->
  exists out, kdf key label context length = Ok out /\ List.length out = length.
Proof using All.
  intros Hl. destruct (kdf_spec key label context length Hl) as (m & Hm & ->).
  eexists. split; [done|]. rewrite length_take, kdf_blocks_len. lia.
Qed.

Lemma prf_sha1_loop_len fuel key label context length counter result :
  0 <= counter -> counter < 255 ->
  (Z.of_nat length <= 20 * (255 - counter) + zlen result) ->
  (length - List.length result < fuel)%nat ->
  exists out, prf_sha1_loop fuel key label context length counter result = Ok out
    /\ List.length out = length.
Proof using All.
  revert counter result. induction fuel as [|fuel IH]; intros counter result H1 H2 H3 H4;
    [lia|]. cbn [prf_sha1_loop].
  destruct (Nat.ltb_spec (List.length result) length).
  - replace (255 <=? counter) with false by lia.
    destruct (Z.eq_dec (counter + 1) 255) as [He|He].
    + destruct fuel as [|fuel]; [lia|]. cbn [prf_sha1_loop].
      rewrite length_app, w_hmac_sha1_len.
      replace (List.length result + 20 <? length)%nat with false by len_lia.
      eexists. split; [done|]. rewrite length_take, length_app, w_hmac_sha1_len.
      len_lia.
    + apply IH; [lia|lia| |];
        unfold zlen in *; rewrite length_app, w_hmac_sha1_len; lia.
  - eexists. split; [done|]. rewrite length_take. lia.
Qed.

Lemma prf_sha1_len key label context length :
  (length <= 5000)%nat ->
  exists out, prf_sha1 key label context length = Ok out /\ List.length out = length.
Proof using All.
  intros. unfold prf_sha1. apply prf_sha1_loop_len; unfold zlen; cbn [List.length]; lia.
Qed.

Lemma derive_pmk_r0_ok xxkey ssid mdid r0kh s0kh :
  exists r0, derive_pmk_r0 xxkey ssid mdid r0kh s0kh = Ok r0
    /\ length (r0_key r0) = 32%nat /\ length (r0_name r0) = 16%nat.
Proof using All.
  unfold derive_pmk_r0. set (ctx := [as_u8 _] ++ _).
  destruct (kdf_len xxkey "FT-R0" ctx 48 ltac:(lia)) as (d & -> & Hd).
  cbn [mbind outcome_bind]. rewrite !slice_in by lia. cbn [mbind outcome_bind].
  rewrite slice_in by (rewrite w_sha256_len; lia). cbn [mbind outcome_bind].
  eexists. split; [done|]. cbn [r0_key r0_name].
  rewrite !length_take, !length_drop, w_sha256_len. lia.
Qed.

Lemma derive_pmk_r1_ok r0 r1kh s1kh :
  exists r1, derive_pmk_r1 r0 r1kh s1kh = Ok r1
    /\ length (r1_key r1) = 32%nat /\ length (r1_name r1) = 16%nat.
Proof using All.
  unfold derive_pmk_r1.
  destruct (kdf_len (r0_key r0) "FT-R1" (r1kh ++ s1kh) 32 ltac:(lia)) as (k & -> & Hk).
  cbn [mbind outcome_bind]. rewrite slice_in by (rewrite w_sha256_len; lia).
  cbn [mbind outcome_bind]. eexists. split; [done|]. cbn [r1_key r1_name].
  rewrite length_take, length_drop, w_sha256_len. lia.
Qed.

(** The FT key hierarchy is total and well sized: PMK-R0 and PMK-R1 have
    32-octet keys and 16-octet names and the FT PTK has 48 octets.  The MIC in
    the FTIE of a reassociation request covers the element with its MIC field
    zeroed: a receiver that zeroes the field recomputes the same MIC. *)
Theorem ft_hierarchy `{Nl80211} xxkey ssid mdid r0kh s0kh r1kh snonce anonce bssid
    sta rsne mdie rsnxe kck :
  exists r0 r1 ptk mic head tail,
    derive_pmk_r0 xxkey ssid mdid r0kh s0kh = Ok r0
    /\ derive_pmk_r1 r0 r1kh s0kh = Ok r1
    /\ derive_ft_ptk r1 snonce anonce bssid sta = Ok ptk
    /\ length (r0_key r0) = 32%nat /\ length (r0_name r0) = 16%nat
    /\ length (r1_key r1) = 32%nat /\ length (r1_name r1) = 16%nat
    /\ length ptk = 48%nat
    /\ ftie_reassoc_request kck sta bssid anonce snonce r0kh r1kh rsne mdie rsnxe
       = Ok (head ++ mic ++ tail)
    /\ length head = 4%nat /\ length mic = 16%nat
    /\ ft_mic kck sta bssid 5
         (rsne ++ mdie ++ (head ++ replicate 16 0 ++ tail) ++ default [] rsnxe)
       = Ok mic.
Proof using All.
  destruct (derive_pmk_r0_ok xxkey ssid mdid r0kh s0kh) as (r0 & Hr0 & Hl1 & Hl2).
  destruct (derive_pmk_r1_ok r0 r1kh s0kh) as (r1 & Hr1 & Hl3 & Hl4).
  destruct (kdf_len (r1_key r1) "FT-PTK" (snonce ++ anonce ++ bssid ++ sta) 48
    ltac:(lia)) as (ptk & Hptk & Hl5).
  set (used := match rsnxe with Some _ => 1 | None => 0 end).
  exists r0, r1, ptk,
    (w_cmac kck (sta ++ bssid ++ [5] ++ rsne ++ mdie
       ++ ftie_with_mic (replicate 16 0) anonce snonce r0kh r1kh rsnxe
       ++ default [] rsnxe)),
    [ELEMENT_ID_FTIE; as_u8 (2 + 16 + 32 + 32 + (2 + 6) + (2 + zlen r0kh));
     used; 3 + used],
    (anonce ++ snonce ++ [FTIE_SUBELEM_R1KH_ID; 6] ++ r1kh
     ++ [FTIE_SUBELEM_R0KH_ID; as_u8 (zlen r0kh)] ++ r0kh).
  split_and!; try done. apply w_cmac_len.
Qed.

End facts.

(** Stand-ins for the crates. *)

#[export] Instance toy_crypto : WifiCryptoLib := {|
  w_hmac_sha256 k d := replicate 32 (zlen d mod 256);
  w_hmac_sha1 k d := replicate 20 (zlen d mod 256);
  w_sha256 d := replicate 32 (zlen d mod 256);
  w_cmac k d := replicate 16 (from_be d mod 251);
  w_kw_unwrap k w := inr (drop 8 w);
|}.

#[export] Instance toy_crypto_laws : WifiCryptoLaws.
Proof. by split. Qed.

#[export] Instance toy_nl80211 : Nl80211 := {|
  ELEMENT_ID_FTIE := 55;
  Oci := list Z;
  build_oci_kde o := o;
  parse_oci_kde l := Some l;
  matches_freq o f := true;
  oci_to_bytes o := o;
  parse_key_data_kdes l :=
    mkKdes (Some (1, take 16 l)) None (Some (drop 16 l)) None None None;
  rsne_match_ignore_pmkid a b := bool_decide (a = b);
  build_message_2 sn rc kd v := replicate 16 0 ++ to_be 8 rc ++ sn ++ kd;
  build_message_4 sn rc v := replicate 16 0 ++ to_be 8 rc ++ sn;
  build_group_message_2 rc rsc v := replicate 16 0 ++ to_be 8 rc;
  pdu_with_zeroed_mic p := replicate 16 0 ++ drop 16 p;
  set_mic p m := m ++ drop 16 p;
|}.

Lemma ft_hierarchy_witness :
  exists r0 r1,
    derive_pmk_r0 (repeat 1 32) "home" [1; 2] [3] (repeat 4 6) = Ok r0
    /\ derive_pmk_r1 r0 (repeat 5 6) (repeat 4 6) = Ok r1
    /\ length (r1_key r1) = 32%nat.
Proof.
  destruct (ft_hierarchy (repeat 1 32) "home" [1; 2] [3] (repeat 4 6) (repeat 5 6)
    [] [] [] [] [] [] None (repeat 0 16))
    as (r0 & r1 & ptk & mic & h & t & H1 & H2 & _ & _ & _ & H3 & _).
  exists r0, r1. split; [exact H1|]. split; [exact H2|exact H3].
Defined.

End KdfFacts.
