(* ===== verification/FourWay.v ===== *)
(** * The 4-way handshake

    [src/src/wifi/crypto/handshake4.rs]: the supplicant's side of the 802.11
    4-way and group key handshakes.  [FourWayState] is the source's struct, each
    method that takes [&mut self] a computation in the [st] monad, so that the
    assignments made before an error stay visible.  The SNonce [getrandom]
    produces is an argument of the method that draws it.  [FourWayFacts] shows
    when the pairwise key is replaced, that authenticated counters only grow,
    what an accepted Message 3 guarantees, that retransmissions are answered
    alike, and that no method panics. *)

From Stdlib Require Import Sorting.Sorted.
From S2P Require Import Prelude Errors Security Identity WifiKdf.

Definition KCK_LEN : nat := 16.
Definition KEK_LEN : nat := 16.
Definition TK_LEN : nat := 16.
Definition PTK_LEN : nat := KCK_LEN + KEK_LEN + TK_LEN.

Definition u64_from_mac (mac : list Z) : Z := from_be ([0; 0] ++ mac).

Module FourWayState.

Section state.
Context `{WifiCryptoLib} `{Nl80211}.

Record t := mk {
  pmk : list Z;
  mac_sta : list Z;
  mac_ap : list Z;
  anonce : option (list Z);
  snonce : list Z;
  ptk : option (list Z);
  tptk : option (list Z);
  replay_counter : Z;
  replay_counter_set : bool;
  pending_replay_counter : option Z;
  rsne : list Z;
  ap_rsne : list Z;
  ap_rsnxe : list Z;
  gtk : option (list Z);
  gtk_index : Z;
  mic_alg : MicAlg;
  desc_version : Z;
  ft_pmk_r1 : option PmkR1;
  ocv : bool;
  oci : option Oci;
  freq_mhz : Z;
  ext_key_id : bool;
  key_id : option Z;
}.

(** Assignments to one field. *)
Definition put_anonce (v : option (list Z)) (s : t) : t :=
  mk (pmk s) (mac_sta s) (mac_ap s) v (snonce s) (ptk s) (tptk s)
    (replay_counter s) (replay_counter_set s) (pending_replay_counter s) (rsne
    s) (ap_rsne s) (ap_rsnxe s) (gtk s) (gtk_index s) (mic_alg s) (desc_version
    s) (ft_pmk_r1 s) (ocv s) (oci s) (freq_mhz s) (ext_key_id s) (key_id s).
Definition put_snonce (v : list Z) (s : t) : t :=
  mk (pmk s) (mac_sta s) (mac_ap s) (anonce s) v (ptk s) (tptk s)
    (replay_counter s) (replay_counter_set s) (pending_replay_counter s) (rsne
    s) (ap_rsne s) (ap_rsnxe s) (gtk s) (gtk_index s) (mic_alg s) (desc_version
    s) (ft_pmk_r1 s) (ocv s) (oci s) (freq_mhz s) (ext_key_id s) (key_id s).
Definition put_ptk (v : option (list Z)) (s : t) : t :=
  mk (pmk s) (mac_sta s) (mac_ap s) (anonce s) (snonce s) v (tptk s)
    (replay_counter s) (replay_counter_set s) (pending_replay_counter s) (rsne
    s) (ap_rsne s) (ap_rsnxe s) (gtk s) (gtk_index s) (mic_alg s) (desc_version
    s) (ft_pmk_r1 s) (ocv s) (oci s) (freq_mhz s) (ext_key_id s) (key_id s).
Definition put_tptk (v : option (list Z)) (s : t) : t :=
  mk (pmk s) (mac_sta s) (mac_ap s) (anonce s) (snonce s) (ptk s) v
    (replay_counter s) (replay_counter_set s) (pending_replay_counter s) (rsne
    s) (ap_rsne s) (ap_rsnxe s) (gtk s) (gtk_index s) (mic_alg s) (desc_version
    s) (ft_pmk_r1 s) (ocv s) (oci s) (freq_mhz s) (ext_key_id s) (key_id s).
Definition put_replay_counter (v : Z) (s : t) : t :=
  mk (pmk s) (mac_sta s) (mac_ap s) (anonce s) (snonce s) (ptk s) (tptk s) v
    (replay_counter_set s) (pending_replay_counter s) (rsne s) (ap_rsne s)
    (ap_rsnxe s) (gtk s) (gtk_index s) (mic_alg s) (desc_version s) (ft_pmk_r1
    s) (ocv s) (oci s) (freq_mhz s) (ext_key_id s) (key_id s).
Definition put_replay_counter_set (v : bool) (s : t) : t :=
  mk (pmk s) (mac_sta s) (mac_ap s) (anonce s) (snonce s) (ptk s) (tptk s)
    (replay_counter s) v (pending_replay_counter s) (rsne s) (ap_rsne s)
    (ap_rsnxe s) (gtk s) (gtk_index s) (mic_alg s) (desc_version s) (ft_pmk_r1
    s) (ocv s) (oci s) (freq_mhz s) (ext_key_id s) (key_id s).
Definition put_pending_replay_counter (v : option Z) (s : t) : t :=
  mk (pmk s) (mac_sta s) (mac_ap s) (anonce s) (snonce s) (ptk s) (tptk s)
    (replay_counter s) (replay_counter_set s) v (rsne s) (ap_rsne s) (ap_rsnxe
    s) (gtk s) (gtk_index s) (mic_alg s) (desc_version s) (ft_pmk_r1 s) (ocv s)
    (oci s) (freq_mhz s) (ext_key_id s) (key_id s).
Definition put_gtk (v : option (list Z)) (s : t) : t :=
  mk (pmk s) (mac_sta s) (mac_ap s) (anonce s) (snonce s) (ptk s) (tptk s)
    (replay_counter s) (replay_counter_set s) (pending_replay_counter s) (rsne
    s) (ap_rsne s) (ap_rsnxe s) v (gtk_index s) (mic_alg s) (desc_version s)
    (ft_pmk_r1 s) (ocv s) (oci s) (freq_mhz s) (ext_key_id s) (key_id s).
Definition put_gtk_index (v : Z) (s : t) : t :=
  mk (pmk s) (mac_sta s) (mac_ap s) (anonce s) (snonce s) (ptk s) (tptk s)
    (replay_counter s) (replay_counter_set s) (pending_replay_counter s) (rsne
    s) (ap_rsne s) (ap_rsnxe s) (gtk s) v (mic_alg s) (desc_version s)
    (ft_pmk_r1 s) (ocv s) (oci s) (freq_mhz s) (ext_key_id s) (key_id s).
Definition put_desc_version (v : Z) (s : t) : t :=
  mk (pmk s) (mac_sta s) (mac_ap s) (anonce s) (snonce s) (ptk s) (tptk s)
    (replay_counter s) (replay_counter_set s) (pending_replay_counter s) (rsne
    s) (ap_rsne s) (ap_rsnxe s) (gtk s) (gtk_index s) (mic_alg s) v (ft_pmk_r1
    s) (ocv s) (oci s) (freq_mhz s) (ext_key_id s) (key_id s).
Definition put_ocv (v : bool) (s : t) : t :=
  mk (pmk s) (mac_sta s) (mac_ap s) (anonce s) (snonce s) (ptk s) (tptk s)
    (replay_counter s) (replay_counter_set s) (pending_replay_counter s) (rsne
    s) (ap_rsne s) (ap_rsnxe s) (gtk s) (gtk_index s) (mic_alg s) (desc_version
    s) (ft_pmk_r1 s) v (oci s) (freq_mhz s) (ext_key_id s) (key_id s).
Definition put_oci (v : option Oci) (s : t) : t :=
  mk (pmk s) (mac_sta s) (mac_ap s) (anonce s) (snonce s) (ptk s) (tptk s)
    (replay_counter s) (replay_counter_set s) (pending_replay_counter s) (rsne
    s) (ap_rsne s) (ap_rsnxe s) (gtk s) (gtk_index s) (mic_alg s) (desc_version
    s) (ft_pmk_r1 s) (ocv s) v (freq_mhz s) (ext_key_id s) (key_id s).
Definition put_freq_mhz (v : Z) (s : t) : t :=
  mk (pmk s) (mac_sta s) (mac_ap s) (anonce s) (snonce s) (ptk s) (tptk s)
    (replay_counter s) (replay_counter_set s) (pending_replay_counter s) (rsne
    s) (ap_rsne s) (ap_rsnxe s) (gtk s) (gtk_index s) (mic_alg s) (desc_version
    s) (ft_pmk_r1 s) (ocv s) (oci s) v (ext_key_id s) (key_id s).
Definition put_ext_key_id (v : bool) (s : t) : t :=
  mk (pmk s) (mac_sta s) (mac_ap s) (anonce s) (snonce s) (ptk s) (tptk s)
    (replay_counter s) (replay_counter_set s) (pending_replay_counter s) (rsne
    s) (ap_rsne s) (ap_rsnxe s) (gtk s) (gtk_index s) (mic_alg s) (desc_version
    s) (ft_pmk_r1 s) (ocv s) (oci s) (freq_mhz s) v (key_id s).
Definition put_key_id (v : option Z) (s : t) : t :=
  mk (pmk s) (mac_sta s) (mac_ap s) (anonce s) (snonce s) (ptk s) (tptk s)
    (replay_counter s) (replay_counter_set s) (pending_replay_counter s) (rsne
    s) (ap_rsne s) (ap_rsnxe s) (gtk s) (gtk_index s) (mic_alg s) (desc_version
    s) (ft_pmk_r1 s) (ocv s) (oci s) (freq_mhz s) (ext_key_id s) v.

(** ** Construction *)

(** [snonce] is what [getrandom::fill] wrote. *)
Definition new_with_ap_ies (snonce pmk : list Z) (mic_alg : MicAlg)
  (mac_sta mac_ap rsne ap_rsne ap_rsnxe : list Z) : t :=
  mk pmk mac_sta mac_ap None snonce None None 0 false None rsne ap_rsne ap_rsnxe
    None 0 mic_alg 0 None false None 0 false None.

Definition new_ft (snonce : list Z) (ft_pmk_r1 : PmkR1) (mic_alg : MicAlg)
  (mac_sta mac_ap rsne ap_rsne ap_rsnxe : list Z) : t :=
  mk (replicate 32 0) mac_sta mac_ap None snonce None None 0 false None rsne ap_rsne
    ap_rsnxe None 0 mic_alg 0 (Some ft_pmk_r1) false None 0 false None.

Definition set_ocv (enabled : bool) (oci : Oci) (freq_mhz : Z) (s : t) : t :=
  put_freq_mhz freq_mhz (put_oci (Some oci) (put_ocv enabled s)).

Definition set_ext_key_id (enabled : bool) (s : t) : t := put_ext_key_id enabled s.

Definition update_replay_counter (replay_ctr : list Z) (s : t) : t :=
  put_replay_counter_set true (put_replay_counter (from_be replay_ctr) s).

Definition set_ptk (ptk : list Z) (s : t) : t := put_tptk None (put_ptk (Some ptk) s).

(** ** Keys *)

(** [copy_from_slice] panics when the lengths differ. *)
Definition derive_ptk (s : t) : outcome WifiError.t (list Z) :=
  anonce ← unwrap (anonce s);
  match ft_pmk_r1 s with
  | Some pmk_r1 => derive_ft_ptk pmk_r1 (snonce s) anonce (mac_ap s) (mac_sta s)
  | None =>
      let '(mac1, mac2) :=
        if u64_from_mac (mac_ap s) <? u64_from_mac (mac_sta s)
        then (mac_ap s, mac_sta s) else (mac_sta s, mac_ap s) in
      let '(nonce1, nonce2) :=
        if array_lt anonce (snonce s) then (anonce, snonce s) else (snonce s, anonce) in
      let context := mac1 ++ mac2 ++ nonce1 ++ nonce2 in
      result ← match mic_alg s with
               | HmacSha1 => prf_sha1 (pmk s) "Pairwise key expansion" context PTK_LEN
               | _ => kdf (pmk s) "Pairwise key expansion" context PTK_LEN
               end;
      if (length result =? PTK_LEN)%nat then Ok result else Panic
  end.

Definition compute_mic (s : t) (kck data : list Z) : outcome WifiError.t (list Z) :=
  match mic_alg s with
  | AesCmac => aes_cmac kck data
  | HmacSha256 => Ok (hmac_sha256_mic kck data)
  | HmacSha1 => Ok (hmac_sha1_mic kck data)
  end.

(** [self.tptk.or(self.ptk)]. *)
Definition handshake_ptk (s : t) : option (list Z) :=
  match tptk s with Some p => Some p | None => ptk s end.

(** The parts of a PTK, a [[u8; PTK_LEN]]. *)
Definition ptk_kck (p : list Z) : list Z := take KCK_LEN p.
Definition ptk_kek (p : list Z) : list Z := take KEK_LEN (drop KCK_LEN p).
Definition ptk_tk (p : list Z) : list Z := drop (KCK_LEN + KEK_LEN) p.

Definition kck (s : t) : option (list Z) := ptk_kck <$> handshake_ptk s.
Definition kek (s : t) : option (list Z) := ptk_kek <$> handshake_ptk s.
Definition committed_kck (s : t) : option (list Z) := ptk_kck <$> ptk s.
Definition committed_kek (s : t) : option (list Z) := ptk_kek <$> ptk s.
Definition tk (s : t) : option (list Z) := ptk_tk <$> ptk s.

Definition replay_counter_bytes (s : t) : list Z := to_be 8 (replay_counter s).

(** ** The methods *)

Definition method (A : Type) : Type := st t WifiError.t A.

Definition fail {A} (m : string) : method A := lift (handshake_failed m).

(** [if cond { return Err(..) }]. *)
Definition fail_if (bad : bool) (m : string) : method unit :=
  if bad then fail m else mret tt.

(** A PDU with its MIC patched in. *)
Definition sign (kck pdu : list Z) : method (list Z) :=
  s ← get;
  mic ← lift (compute_mic s kck (pdu_with_zeroed_mic pdu));
  mret (set_mic pdu mic).

(** The second half of [process_message_1]: record the Message 1, stage the new
    PTK and build Message 2. *)
Definition stage_handshake (m1_anonce : list Z) (m1_counter m1_version : Z)
  : method (list Z) :=
  modify (put_anonce (Some m1_anonce));;
  modify (put_pending_replay_counter (Some m1_counter));;
  modify (put_desc_version m1_version);;
  s ← get;
  new_ptk ← lift (derive_ptk s);
  modify (put_tptk (Some new_ptk));;
  s ← get;
  key ← lift (unwrap (kck s));
  let key_data := rsne s ++
    match ocv s, oci s with true, Some o => build_oci_kde o | _, _ => [] end in
  sign key (build_message_2 (snonce s) m1_counter key_data (desc_version s)).

(** [fresh] is what [getrandom::fill] writes to the SNonce. *)
Definition process_message_1 (fresh m1_anonce : list Z) (m1_counter m1_version : Z)
  : method (list Z) :=
  s ← get;
  fail_if (replay_counter_set s && (m1_counter <=? replay_counter s))
    ("Message 1 replay counter " +:+ pretty m1_counter
     +:+ " <= last                      accepted " +:+ pretty (replay_counter s));;
  let same_counter := bool_decide (pending_replay_counter s = Some m1_counter) in
  let duplicate := same_counter && bool_decide (anonce s = Some m1_anonce) in
  fail_if (same_counter && negb duplicate)
    "Message 1 reused a replay counter with a new ANonce";;
  (if negb duplicate then modify (put_snonce fresh) else mret tt);;
  stage_handshake m1_anonce m1_counter m1_version.

(** [{:02x?}] of an optional vector. *)
Definition debug_hex_opt (o : option (list Z)) : string :=
  match o with Some l => "Some(" +:+ debug_hex l +:+ ")" | None => "None" end.

Definition validate_ap_ies (s : t) (kdes : Kdes) : outcome WifiError.t unit :=
  match ap_rsne s with
  | [] => Ok tt
  | _ =>
      match kde_rsne kdes with
      | None => handshake_failed "Message 3 key data carries no RSNE"
      | Some rsne =>
          let rsne_ok :=
            match ft_pmk_r1 s with
            | Some _ => rsne_match_ignore_pmkid rsne (ap_rsne s)
            | None => bool_decide (rsne = ap_rsne s)
            end in
          if negb rsne_ok then
            handshake_failed ("RSNE downgrade detected: Message 3 RSNE "
              +:+ debug_hex rsne +:+ " differs from beacon RSNE "
              +:+ debug_hex (ap_rsne s))
          else if negb (bool_decide (ap_rsnxe s = []))
                  && negb (bool_decide (kde_rsnxe kdes = Some (ap_rsnxe s))) then
            handshake_failed ("RSNXE downgrade detected: Message 3 RSNXE "
              +:+ debug_hex_opt (kde_rsnxe kdes) +:+ " differs from beacon RSNXE "
              +:+ debug_hex (ap_rsnxe s))
          else Ok tt
      end
  end.

(** [if self.ext_key_id { .. } else { self.key_id = None }]. *)
Definition take_key_id (kdes : Kdes) : method unit :=
  s ← get;
  if ext_key_id s then
    key_id ← lift (ok_or (kde_key_id kdes)
      (WifiError.new WifiError.HandshakeFailed
         "Extended Key ID handshake without a Key ID KDE"));
    fail_if (1 <? key_id) ("invalid Extended Key ID " +:+ pretty key_id);;
    modify (put_key_id (Some key_id))
  else modify (put_key_id None).

(** The group key of the key data. *)
Definition store_gtk (gtk : Z * list Z) (s : t) : t :=
  put_gtk (Some (gtk.2)) (put_gtk_index (gtk.1) s).

(** The key data of a Message 3 that has any. *)
Definition message_3_key_data (frame : EapolKeyFrame) : method Kdes :=
  s ← get;
  key ← lift (ok_or (kek s)
    (WifiError.new WifiError.HandshakeFailed "KEK not derived"));
  fail_if (negb (f_is_encrypted_data frame)) "Message 3 key data is not encrypted";;
  plain ← lift (aes_key_unwrap key (f_key_data frame));
  (if ocv s then lift (verify_oci plain (freq_mhz s)) else mret tt);;
  let kdes := parse_key_data_kdes plain in
  take_key_id kdes;;
  s ← get;
  lift (validate_ap_ies s kdes);;
  (match kde_gtk kdes with Some g => modify (store_gtk g) | None => mret tt end);;
  mret kdes.

(** [if let Some(tptk) = self.tptk.take() { self.ptk = Some(tptk) }]. *)
Definition promote_tptk (s : t) : t :=
  match tptk s with
  | Some p => put_ptk (Some p) (put_tptk None s)
  | None => s
  end.

Definition process_message_3 (frame : EapolKeyFrame) : method (list Z * Kdes) :=
  s ← get;
  pending_counter ← lift (ok_or (pending_replay_counter s)
    (WifiError.new WifiError.HandshakeFailed
       "Message 3 without a preceding Message 1"));
  fail_if ((f_replay_counter frame <? pending_counter)
           || (replay_counter_set s && (f_replay_counter frame <=? replay_counter s)))
    ("Message 3 replay counter " +:+ pretty (f_replay_counter frame)
     +:+ " is not newer than the                      handshake counter "
     +:+ pretty pending_counter);;
  fail_if (negb (bool_decide (anonce s = Some (f_key_nonce frame))))
    "Message 3 Key Nonce does not match the ANonce from                  Message 1";;
  key ← lift (ok_or (kck s)
    (WifiError.new WifiError.HandshakeFailed "PTK not derived"));
  expected ← lift (compute_mic s key (pdu_with_zeroed_mic (f_raw frame)));
  fail_if (negb (bool_decide (expected = f_key_mic frame))) "MIC mismatch";;
  modify (put_replay_counter (f_replay_counter frame));;
  modify (put_replay_counter_set true);;
  modify (put_pending_replay_counter None);;
  kdes ← (if bool_decide (f_key_data frame = []) then mret Kdes_default
          else message_3_key_data frame);
  modify promote_tptk;;
  s ← get;
  msg4 ← sign key (build_message_4 (snonce s) (replay_counter s) (desc_version s));
  mret (msg4, kdes).

Definition process_group_rekey (frame : EapolKeyFrame) : method (list Z * Kdes) :=
  s ← get;
  fail_if (f_replay_counter frame <=? replay_counter s)
    ("group rekey replay counter " +:+ pretty (f_replay_counter frame)
     +:+ " <= last accepted " +:+ pretty (replay_counter s));;
  key ← lift (ok_or (committed_kck s)
    (WifiError.new WifiError.HandshakeFailed "PTK not derived"));
  expected ← lift (compute_mic s key (pdu_with_zeroed_mic (f_raw frame)));
  fail_if (negb (bool_decide (expected = f_key_mic frame))) "group rekey MIC mismatch";;
  modify (put_replay_counter (f_replay_counter frame));;
  modify (put_replay_counter_set true);;
  fail_if (bool_decide (f_key_data frame = [])) "group rekey carries no key data";;
  s ← get;
  kek_key ← lift (ok_or (committed_kek s)
    (WifiError.new WifiError.HandshakeFailed "KEK not derived"));
  fail_if (negb (f_is_encrypted_data frame)) "group rekey key data is not encrypted";;
  plain ← lift (aes_key_unwrap kek_key (f_key_data frame));
  (if ocv s then lift (verify_oci plain (freq_mhz s)) else mret tt);;
  let kdes := parse_key_data_kdes plain in
  gtk ← lift (ok_or (kde_gtk kdes)
    (WifiError.new WifiError.HandshakeFailed "no GTK KDE in group rekey"));
  modify (store_gtk gtk);;
  s ← get;
  msg2 ← sign key (build_group_message_2 (replay_counter s) (f_key_rsc frame)
                     (f_desc_version frame));
  mret (msg2, kdes).

End state.

End FourWayState.

(** ** Facts *)

Module FourWayFacts.
Import FourWayState.

Section facts.
Context `{WifiCryptoLaws} `{Nl80211}.
Implicit Types (s : t) (frame : EapolKeyFrame) (kdes : Kdes).

(** *** Weakest preconditions of the building blocks *)

Lemma wp_fail {A} m (Q : A -> t -> Prop) R s :
  R (WifiError.new WifiError.HandshakeFailed m) s -> wp (fail m) Q R s.
Proof using Type. done. Qed.

Lemma wp_fail_if b m (Q : unit -> t -> Prop) R s :
  (b = true -> R (WifiError.new WifiError.HandshakeFailed m) s) ->
  (b = false -> Q tt s) -> wp (fail_if b m) Q R s.
Proof using Type. destruct b; [intros HR _; by apply HR|intros _ HQ; by apply HQ]. Qed.

Lemma wp_ok_or {A} (o : option A) (e : WifiError.t) (Q : A -> t -> Prop) R s :
  (forall a, o = Some a -> Q a s) -> (o = None -> R e s) ->
  wp (lift (ok_or o e)) Q R s.
Proof using Type. destruct o; [intros HQ _; by apply HQ|intros _ HR; by apply HR]. Qed.

Lemma compute_mic_ok s key data :
  exists mic, compute_mic s key data = Ok mic /\ length mic = 16%nat.
Proof using All.
  unfold compute_mic, aes_cmac, hmac_sha256_mic, hmac_sha1_mic.
  destruct (mic_alg s); eexists; (split; [done|]);
    rewrite ?length_take, ?w_cmac_len, ?w_hmac_sha256_len, ?w_hmac_sha1_len; lia.
Qed.

(** The PDU [sign] produces. *)
Definition signed s (key pdu : list Z) : list Z :=
  match compute_mic s key (pdu_with_zeroed_mic pdu) with
  | Ok mic => set_mic pdu mic
  | _ => pdu
  end.

Lemma wp_sign key pdu (Q : list Z -> t -> Prop) R s :
  Q (signed s key pdu) s -> wp (sign key pdu) Q R s.
Proof using All.
  unfold sign, signed. intros HQ. apply wp_bind, wp_get, wp_bind.
  destruct (compute_mic_ok s key (pdu_with_zeroed_mic pdu)) as (mic & Hm & _).
  rewrite Hm in HQ |- *. exact HQ.
Qed.

Lemma ptk_len_small : (PTK_LEN <= 32 * 2000)%nat.
Proof using Type. unfold PTK_LEN, KCK_LEN, KEK_LEN, TK_LEN. lia. Qed.

Lemma derive_ptk_ok s a :
  anonce s = Some a -> exists p, derive_ptk s = Ok p /\ length p = PTK_LEN.
Proof using All.
  intros Ha. unfold derive_ptk. rewrite Ha. cbn [unwrap mbind outcome_bind].
  destruct (ft_pmk_r1 s) as [r1|].
  { by apply (KdfFacts.kdf_len _ _ _ PTK_LEN), ptk_len_small. }
  destruct (if u64_from_mac _ <? _ then _ else _) as [mac1 mac2].
  destruct (if array_lt _ _ then _ else _) as [n1 n2].
  set (ctx := mac1 ++ _).
  destruct (KdfFacts.kdf_len (pmk s) "Pairwise key expansion" ctx PTK_LEN
    ptk_len_small) as (k & Hk & Hl).
  destruct (KdfFacts.prf_sha1_len (pmk s) "Pairwise key expansion" ctx PTK_LEN
    ltac:(unfold PTK_LEN, KCK_LEN, KEK_LEN, TK_LEN; lia)) as (k' & Hk' & Hl').
  destruct (mic_alg s); rewrite ?Hk, ?Hk'; cbn [mbind outcome_bind];
    rewrite ?Hl, ?Hl', Nat.eqb_refl; eauto.
Qed.

Lemma returns_unwrap_key key w : returns (aes_key_unwrap key w).
Proof using Type.
  unfold aes_key_unwrap. destruct (_ || _); [done|]. by destruct (w_kw_unwrap key w).
Qed.

Lemma verify_oci_spec plain f :
  verify_oci plain f = Ok tt
    /\ (exists o, parse_oci_kde plain = Some o /\ matches_freq o f = true)
  \/ (exists e, verify_oci plain f = Err e)
    /\ ~ (exists o, parse_oci_kde plain = Some o /\ matches_freq o f = true).
Proof using Type.
  unfold verify_oci. destruct (parse_oci_kde plain) as [o|].
  - destruct (matches_freq o f) eqn:Hm; cbn [negb]; [left|right].
    + eauto.
    + split; [by eexists|]. intros (o' & [= <-] & ?). congruence.
  - right. split; [by eexists|]. by intros (o' & ? & _).
Qed.

(** The information elements Message 3 repeats are the beacon's. *)
Definition ies_match s kdes : Prop :=
  ap_rsne s = [] \/
  exists rsne, kde_rsne kdes = Some rsne
    /\ match ft_pmk_r1 s with
       | Some _ => rsne_match_ignore_pmkid rsne (ap_rsne s) = true
       | None => rsne = ap_rsne s
       end
    /\ (ap_rsnxe s = [] \/ kde_rsnxe kdes = Some (ap_rsnxe s)).

Lemma validate_ap_ies_spec s kdes :
  validate_ap_ies s kdes = Ok tt /\ ies_match s kdes
  \/ (exists e, validate_ap_ies s kdes = Err e) /\ ~ ies_match s kdes.
Proof using Type.
  unfold validate_ap_ies, ies_match.
  destruct (ap_rsne s) as [|x xs] eqn:Hap; [left; auto|].
  destruct (kde_rsne kdes) as [r|]; cycle 1.
  { right. split; [by eexists|]. by intros [|(? & ? & _)]. }
  set (ok := match ft_pmk_r1 s with Some _ => _ | None => _ end).
  assert (Hok : ok = true <-> match ft_pmk_r1 s with
     | Some _ => rsne_match_ignore_pmkid r (x :: xs) = true
     | None => r = x :: xs end).
  { unfold ok. destruct (ft_pmk_r1 s); [done|]. apply bool_decide_eq_true. }
  destruct ok; cbn [negb].
  - destruct (bool_decide_reflect (ap_rsnxe s = [])) as [Hx|Hx];
      destruct (bool_decide_reflect (kde_rsnxe kdes = Some (ap_rsnxe s))) as [Hk|Hk];
      cbn [negb andb]; try (left; split; [done|right; exists r; tauto]).
    right. split; [by eexists|]. intros [|(? & _ & _ & [|])]; done.
  - right. split; [by eexists|]. intros [|(r' & [= <-] & Hr & _)]; [done|].
    by apply Hok in Hr.
Qed.

(** *** Message 1 *)

(** A Message 1 is answered when its counter is new, or repeats the pending
    one with the same ANonce. *)
Definition msg1_admitted s (a : list Z) (rc : Z) : Prop :=
  (replay_counter_set s = true -> replay_counter s < rc)
  /\ (pending_replay_counter s = Some rc -> anonce s = Some a).

Definition msg1_duplicate s (a : list Z) (rc : Z) : Prop :=
  pending_replay_counter s = Some rc /\ anonce s = Some a.

#[local] Instance msg1_duplicate_dec s a rc : Decision (msg1_duplicate s a rc).
Proof. unfold msg1_duplicate. apply _. Defined.

(** The nonces of a new handshake, in a state with its SNonce. *)
Definition nonces (a : list Z) (rc v : Z) s : t :=
  put_desc_version v (put_pending_replay_counter (Some rc) (put_anonce (Some a) s)).

(** The state with the nonces of the handshake a Message 1 opens. *)
Definition msg1_nonces (fresh a : list Z) (rc v : Z) s : t :=
  nonces a rc v (if bool_decide (msg1_duplicate s a rc) then s else put_snonce fresh s).

(** The Message 2 of a state. *)
Definition msg2 s (key : list Z) (rc : Z) : list Z :=
  signed s key (build_message_2 (snonce s) rc
    (rsne s ++ match ocv s, oci s with true, Some o => build_oci_kde o | _, _ => [] end)
    (desc_version s)).

Lemma wp_stage a rc v (Q : list Z -> t -> Prop) R s :
  (forall p, derive_ptk (nonces a rc v s) = Ok p ->
     Q (msg2 (put_tptk (Some p) (nonces a rc v s)) (ptk_kck p) rc)
       (put_tptk (Some p) (nonces a rc v s))) ->
  wp (stage_handshake a rc v) Q R s.
Proof using All.
  intros HQ. unfold stage_handshake. do 3 apply wp_bind, wp_modify.
  change (put_desc_version _ _) with (nonces a rc v s).
  apply wp_bind, wp_get, wp_bind.
  destruct (derive_ptk_ok (nonces a rc v s) a eq_refl) as (p & Hd & _).
  rewrite Hd. apply (wp_lift (Ok p)); [done| |done].
  intros p' <-%Ok_inj. apply wp_bind, wp_modify, wp_bind, wp_get, wp_bind.
  apply (wp_lift (Ok (ptk_kck p))); [done| |done].
  intros k <-%Ok_inj. by apply wp_sign, HQ.
Qed.

Lemma wp_message_1 fresh a rc v s :
  wp (process_message_1 fresh a rc v)
    (fun m s' => msg1_admitted s a rc
       /\ exists p, derive_ptk (msg1_nonces fresh a rc v s) = Ok p
          /\ s' = put_tptk (Some p) (msg1_nonces fresh a rc v s)
          /\ m = msg2 s' (ptk_kck p) rc)
    (fun _ s' => s' = s /\ ~ msg1_admitted s a rc) s.
Proof using All.
  unfold process_message_1, msg1_admitted, msg1_nonces, msg1_duplicate.
  apply wp_bind, wp_get, wp_bind, wp_fail_if.
  { intros [Hs Hle]%andb_prop. split; [done|]. intros [Hn _]. specialize (Hn Hs). lia. }
  intros Hold.
  assert (Hnew : replay_counter_set s = true -> replay_counter s < rc).
  { intros Hs. rewrite Hs in Hold. cbn in Hold. lia. }
  destruct (bool_decide_reflect (pending_replay_counter s = Some rc)) as [Hp|Hp];
  destruct (bool_decide_reflect (anonce s = Some a)) as [Ha|Ha];
    apply wp_bind, wp_fail_if; [done|intros _|intros _|done|done|intros _|done|intros _].
  - rewrite bool_decide_true by done. apply wp_bind, wp_mret, wp_stage.
    intros p Hd. split; [tauto|]. by exists p.
  - split; [done|]. intros [_ Hd]. by apply Ha, Hd.
  - rewrite bool_decide_false by tauto. apply wp_bind, wp_modify, wp_stage.
    intros p Hd. split; [tauto|]. by exists p.
  - rewrite bool_decide_false by tauto. apply wp_bind, wp_modify, wp_stage.
    intros p Hd. split; [tauto|]. by exists p.
Qed.

(** *** Message 3 *)

(** Message 3 belongs to the pending handshake, is new, and carries the MIC of
    the handshake's key [p]. *)
Record msg3_authentic s frame (p : list Z) : Prop := {
  m3_pending : exists c, pending_replay_counter s = Some c /\ c <= f_replay_counter frame;
  m3_fresh : replay_counter_set s = true -> replay_counter s < f_replay_counter frame;
  m3_nonce : anonce s = Some (f_key_nonce frame);
  m3_key : handshake_ptk s = Some p;
  m3_mic : compute_mic s (ptk_kck p) (pdu_with_zeroed_mic (f_raw frame))
           = Ok (f_key_mic frame);
}.

(** What the key data [plain] of a Message 3 has to carry. *)
Record msg3_plain_ok s (plain : list Z) : Prop := {
  m3_oci : ocv s = true ->
    exists o, parse_oci_kde plain = Some o /\ matches_freq o (freq_mhz s) = true;
  m3_key_id : ext_key_id s = true ->
    exists k, kde_key_id (parse_key_data_kdes plain) = Some k /\ k <= 1;
  m3_ies : ies_match s (parse_key_data_kdes plain);
}.

Definition msg3_key_data_ok s frame (p : list Z) kdes : Prop :=
  (f_key_data frame = [] /\ kdes = Kdes_default)
  \/ (f_key_data frame <> [] /\ f_is_encrypted_data frame = true
      /\ exists plain, aes_key_unwrap (ptk_kek p) (f_key_data frame) = Ok plain
         /\ kdes = parse_key_data_kdes plain /\ msg3_plain_ok s plain).

(** The state with the frame's counter accepted. *)
Definition msg3_counted frame s : t :=
  put_pending_replay_counter None
    (put_replay_counter_set true (put_replay_counter (f_replay_counter frame) s)).

(** The effect of the key data. *)
Definition msg3_stored kdes s : t :=
  let s' := put_key_id (if ext_key_id s then kde_key_id kdes else None) s in
  match kde_gtk kdes with Some g => store_gtk g s' | None => s' end.

Definition msg3_result frame kdes s : t :=
  promote_tptk
    (if bool_decide (f_key_data frame = []) then msg3_counted frame s
     else msg3_stored kdes (msg3_counted frame s)).

(** States that differ in the key id only. *)
Definition same_but_key_id s s' : Prop := s' = put_key_id (key_id s') s.

Lemma same_but_key_id_refl s : same_but_key_id s s.
Proof using Type. by destruct s. Qed.

Lemma wp_take_key_id kdes s :
  wp (take_key_id kdes)
    (fun _ s' => s' = put_key_id (if ext_key_id s then kde_key_id kdes else None) s
       /\ (ext_key_id s = true -> exists k, kde_key_id kdes = Some k /\ k <= 1))
    (fun _ s' => s' = s
       /\ ~ (ext_key_id s = true -> exists k, kde_key_id kdes = Some k /\ k <= 1)) s.
Proof using Type.
  unfold take_key_id. apply wp_bind, wp_get. destruct (ext_key_id s).
  - apply wp_bind, wp_ok_or; [intros k ->|intros ->].
    + apply wp_bind, wp_fail_if; intros Hk.
      * split; [done|]. intros Hx. destruct (Hx eq_refl) as (k' & [= <-] & ?). lia.
      * apply wp_modify. split; [done|]. intros _. exists k. split; [done|lia].
    + split; [done|]. intros Hx. by destruct (Hx eq_refl) as (k' & ? & _).
  - by apply wp_modify.
Qed.

Lemma wp_check_oci plain s :
  wp (if ocv s then lift (verify_oci plain (freq_mhz s)) else mret tt)
    (fun _ s' => s' = s /\ (ocv s = true -> exists o, parse_oci_kde plain = Some o
                                  /\ matches_freq o (freq_mhz s) = true))
    (fun _ s' => s' = s /\ ~ msg3_plain_ok s plain) s.
Proof using Type.
  destruct (ocv s) eqn:Ho; [|by apply wp_mret].
  destruct (verify_oci_spec plain (freq_mhz s)) as [[-> Hx]|[[e ->] Hx]].
  - by apply wp_mret.
  - apply (wp_throw e). split; [done|]. intros [Hy _ _]. by apply Hx, Hy.
Qed.

Lemma wp_key_data frame p s :
  handshake_ptk s = Some p -> f_key_data frame <> [] ->
  wp (message_3_key_data frame)
    (fun kdes s' => msg3_key_data_ok s frame p kdes /\ s' = msg3_stored kdes s)
    (fun _ s' => same_but_key_id s s' /\ ~ exists kdes, msg3_key_data_ok s frame p kdes) s.
Proof using Type.
  intros Hp Hne. unfold message_3_key_data. apply wp_bind, wp_get, wp_bind.
  unfold kek. rewrite Hp. apply wp_ok_or; [|done]. intros _ [= <-].
  apply wp_bind, wp_fail_if; intros Henc.
  { split; [apply same_but_key_id_refl|]. intros (k & [[]|(_ & He & _)]); [done|].
    rewrite He in Henc. done. }
  apply negb_false_iff in Henc.
  apply wp_bind, wp_lift; [apply returns_unwrap_key|intros plain Hpl|intros e Hpl]; cycle 1.
  { split; [apply same_but_key_id_refl|].
    intros (k & [[]|(_ & _ & pl & Hpl' & _)]); congruence. }
  assert (Hinv : forall k, msg3_key_data_ok s frame p k -> msg3_plain_ok s plain).
  { intros k [[]|(_ & _ & pl & Hpl' & _ & Hok)]; [done|]. congruence. }
  apply wp_bind. eapply wp_mono; [apply wp_check_oci| |].
  2: { intros e s' [-> Hx]. split; [apply same_but_key_id_refl|].
       intros (k & Hk). by eapply Hx, Hinv. }
  intros _ s' [-> Hoci]. apply wp_bind. eapply wp_mono; [apply wp_take_key_id| |].
  2: { intros e s' [-> Hx]. split; [apply same_but_key_id_refl|].
       intros (k & Hk). apply Hx, (m3_key_id _ _ (Hinv _ Hk)). }
  intros _ s' [Hs' Hid]. apply wp_bind, wp_get, wp_bind.
  assert (Hies : forall k, ies_match s' k <-> ies_match s k) by by subst s'.
  destruct (validate_ap_ies_spec s' (parse_key_data_kdes plain)) as [[-> Hx]|[[e ->] Hx]];
    rewrite Hies in Hx.
  - apply (wp_lift (Ok tt)); [done| |done]. intros _ _. apply wp_bind.
    assert (Hok : msg3_key_data_ok s frame p (parse_key_data_kdes plain)).
    { right. repeat split; try done. by exists plain. }
    destruct (kde_gtk _) eqn:Hg; [apply wp_modify|apply wp_mret];
      apply wp_mret; (split; [done|]); unfold msg3_stored; by rewrite Hg, Hs'.
  - apply (wp_throw e). split; [by rewrite Hs'|]. intros (k & Hk).
    by apply Hx, (m3_ies _ _ (Hinv _ Hk)).
Qed.

(** What the station keeps after a Message 3 it refused: everything, or, when
    only the key data was refused, everything but the counters and the key id. *)
Definition msg3_refused frame s s' : Prop :=
  s' = s \/ (exists p, msg3_authentic s frame p)
            /\ same_but_key_id (msg3_counted frame s) s'.

Definition msg3_acceptable s frame : Prop :=
  exists p kdes, msg3_authentic s frame p /\ msg3_key_data_ok s frame p kdes.

Definition msg4 frame s (p : list Z) : list Z :=
  signed s (ptk_kck p)
    (build_message_4 (snonce s) (f_replay_counter frame) (desc_version s)).

(** The key data step of [process_message_3]. *)
Lemma wp_key_data_opt frame p s :
  handshake_ptk s = Some p ->
  wp (if bool_decide (f_key_data frame = []) then mret Kdes_default
      else message_3_key_data frame)
    (fun kdes s' => msg3_key_data_ok s frame p kdes
       /\ promote_tptk s' = promote_tptk
            (if bool_decide (f_key_data frame = []) then s else msg3_stored kdes s))
    (fun _ s' => same_but_key_id s s' /\ ~ exists kdes, msg3_key_data_ok s frame p kdes) s.
Proof using Type.
  intros Hp. destruct (bool_decide_reflect (f_key_data frame = [])) as [He|He].
  - apply wp_mret. split; [by left|done].
  - eapply wp_mono; [by apply wp_key_data|intros k s' [? ->]; by split|done].
Qed.

Lemma signed_promote frame kdes s key pdu :
  signed (msg3_result frame kdes s) key pdu = signed s key pdu
  /\ snonce (msg3_result frame kdes s) = snonce s
  /\ desc_version (msg3_result frame kdes s) = desc_version s
  /\ replay_counter (msg3_result frame kdes s) = f_replay_counter frame.
Proof using Type.
  unfold msg3_result, msg3_stored, promote_tptk, store_gtk.
  destruct (bool_decide _), (kde_gtk kdes); cbn;
    destruct (tptk s); cbn; repeat split; by destruct s.
Qed.

Lemma key_data_ok_counted s frame p kdes :
  msg3_key_data_ok (msg3_counted frame s) frame p kdes
  <-> msg3_key_data_ok s frame p kdes.
Proof using Type.
  assert (Hpl : forall pl, msg3_plain_ok (msg3_counted frame s) pl <-> msg3_plain_ok s pl).
  { intros pl. split; intros [Ho Hi Hm]; by split. }
  unfold msg3_key_data_ok. by setoid_rewrite Hpl.
Qed.

Lemma wp_message_3 frame s :
  wp (process_message_3 frame)
    (fun '(m4, kdes) s' => exists p, msg3_authentic s frame p
       /\ msg3_key_data_ok s frame p kdes
       /\ s' = msg3_result frame kdes s /\ m4 = msg4 frame s p)
    (fun _ s' => msg3_refused frame s s' /\ ~ msg3_acceptable s frame) s.
Proof using All.
  unfold process_message_3. apply wp_bind, wp_get, wp_bind, wp_ok_or.
  2: { intros Hc. split; [by left|]. intros (p & k & [(c & ? & _) _ _ _ _] & _). congruence. }
  intros c Hc. apply wp_bind, wp_fail_if; intros Hrc.
  { split; [by left|]. intros (p & k & [(c' & Hc' & ?) Hf _ _ _] & _).
    assert (c' = c) as -> by congruence. apply orb_prop in Hrc as [|[Hs ?]%andb_prop]; [lia|].
    specialize (Hf Hs). lia. }
  apply orb_false_elim in Hrc as [Hrc Hold].
  apply wp_bind, wp_fail_if; intros Hn.
  { split; [by left|]. apply negb_true_iff, bool_decide_eq_false in Hn.
    by intros (p & k & [_ _ ? _ _] & _). }
  apply negb_false_iff, bool_decide_eq_true in Hn.
  apply wp_bind. unfold kck. destruct (handshake_ptk s) as [p|] eqn:Hp; apply wp_ok_or; try done.
  2: { intros _. split; [by left|]. intros (p & k & [_ _ _ ? _] & _). congruence. }
  intros _ [= <-]. apply wp_bind.
  destruct (compute_mic_ok s (ptk_kck p) (pdu_with_zeroed_mic (f_raw frame))) as (mic & Hm & _).
  rewrite Hm. apply (wp_lift (Ok mic)); [done| |done]. intros mic' <-%Ok_inj.
  apply wp_bind, wp_fail_if; intros Heq.
  { split; [by left|]. apply negb_true_iff, bool_decide_eq_false in Heq.
    intros (p' & k & [_ _ _ Hp' Hmic] & _). congruence. }
  apply negb_false_iff, bool_decide_eq_true in Heq. subst mic.
  assert (Ha : msg3_authentic s frame p).
  { split; try done; [exists c; split; [done|lia]|]. intros Hs. rewrite Hs in Hold. cbn in Hold. lia. }
  do 3 apply wp_bind, wp_modify. change (put_pending_replay_counter _ _) with (msg3_counted frame s).
  apply wp_bind. eapply wp_mono; [by apply wp_key_data_opt| |].
  2: { intros e s' [Hsame Hno]. split; [right; eauto|]. intros (p' & k & Ha' & Hk).
       destruct Ha' as [_ _ _ Hp' _]. assert (p' = p) as -> by congruence. apply Hno. exists k.
       by apply key_data_ok_counted. }
  intros kdes s' [Hk Hs']. apply wp_bind, wp_modify. rewrite Hs'.
  change (promote_tptk _) with (msg3_result frame kdes s).
  apply wp_bind, wp_get, wp_bind, wp_sign, wp_mret.
  exists p. split; [exact Ha|]. split; [by apply key_data_ok_counted|]. split; [done|]. unfold msg4.
  destruct (signed_promote frame kdes s (ptk_kck p)
    (build_message_4 (snonce s) (f_replay_counter frame) (desc_version s)))
    as (Hsg & -> & -> & ->). exact Hsg.
Qed.

(** *** The group key handshake *)

(** A new frame with the MIC of the established key [p]; a staged key plays no
    part. *)
Record group_authentic s frame (p : list Z) : Prop := {
  gr_fresh : replay_counter s < f_replay_counter frame;
  gr_key : ptk s = Some p;
  gr_mic : compute_mic s (ptk_kck p) (pdu_with_zeroed_mic (f_raw frame))
           = Ok (f_key_mic frame);
}.

Definition group_counted frame s : t :=
  put_replay_counter_set true (put_replay_counter (f_replay_counter frame) s).

Record group_key_data s frame (p : list Z) kdes (g : Z * list Z) : Prop := {
  gr_encrypted : f_is_encrypted_data frame = true;
  gr_plain : exists plain, aes_key_unwrap (ptk_kek p) (f_key_data frame) = Ok plain
    /\ kdes = parse_key_data_kdes plain
    /\ (ocv s = true ->
        exists o, parse_oci_kde plain = Some o /\ matches_freq o (freq_mhz s) = true);
  gr_gtk : kde_gtk kdes = Some g;
}.

Lemma wp_group_rekey frame s :
  wp (process_group_rekey frame)
    (fun '(m2, kdes) s' => exists p g, group_authentic s frame p
       /\ group_key_data s frame p kdes g
       /\ s' = store_gtk g (group_counted frame s)
       /\ m2 = signed s (ptk_kck p) (build_group_message_2 (f_replay_counter frame)
                 (f_key_rsc frame) (f_desc_version frame)))
    (fun _ s' => s' = s \/ (exists p, group_authentic s frame p)
                           /\ s' = group_counted frame s) s.
Proof using All.
  unfold process_group_rekey. apply wp_bind, wp_get, wp_bind, wp_fail_if; [by left|].
  intros Hrc. apply wp_bind. unfold committed_kck.
  destruct (ptk s) as [p|] eqn:Hp; apply wp_ok_or; try done; [|by left].
  intros _ [= <-]. apply wp_bind.
  destruct (compute_mic_ok s (ptk_kck p) (pdu_with_zeroed_mic (f_raw frame))) as (mic & Hm & _).
  rewrite Hm. apply (wp_lift (Ok mic)); [done| |done]. intros mic' <-%Ok_inj.
  apply wp_bind, wp_fail_if; [by left|]. intros Heq.
  apply negb_false_iff, bool_decide_eq_true in Heq. subst mic.
  assert (Ha : group_authentic s frame p) by (split; [lia|done..]).
  do 2 apply wp_bind, wp_modify.
  change (put_replay_counter_set _ _) with (group_counted frame s).
  assert (Hr : (exists p, group_authentic s frame p)
               /\ group_counted frame s = group_counted frame s) by eauto.
  apply wp_bind, wp_fail_if; [by right|]. intros _. apply wp_bind, wp_get, wp_bind.
  unfold committed_kek. change (ptk (group_counted frame s)) with (ptk s). rewrite Hp.
  apply wp_ok_or; [|done]. intros _ [= <-].
  apply wp_bind, wp_fail_if; [by right|]. intros Henc%negb_false_iff.
  apply wp_bind, wp_lift; [apply returns_unwrap_key|intros plain Hpl|by right].
  apply wp_bind. eapply wp_mono; [apply (wp_check_oci plain (group_counted frame s))| |].
  2: { intros e s' [-> _]. by right. }
  intros _ s' [-> Hoci]. apply wp_bind, wp_ok_or; [|by right]. intros g Hg.
  apply wp_bind, wp_modify, wp_bind, wp_get, wp_bind, wp_sign, wp_mret.
  exists p, g. split; [done|]. split; [|done]. split; [done| |done]. by exists plain.
Qed.

(** *** Runs of the state machine *)

(** Everything the client does to a handshake. *)
Inductive event :=
| Message1 (fresh anonce : list Z) (counter version : Z)
| Message3 (frame : EapolKeyFrame)
| GroupRekey (frame : EapolKeyFrame)
| RekeyOffload (counter : list Z)
| InstallPtk (p : list Z)
| SetOcv (enabled : bool) (o : Oci) (freq : Z)
| SetExtKeyId (enabled : bool).

Definition step (e : event) (s : t) : t * outcome WifiError.t unit :=
  match e with
  | Message1 fresh a rc v => (process_message_1 fresh a rc v;; mret tt) s
  | Message3 f => (process_message_3 f;; mret tt) s
  | GroupRekey f => (process_group_rekey f;; mret tt) s
  | RekeyOffload c => (update_replay_counter c s, Ok tt)
  | InstallPtk p => (set_ptk p s, Ok tt)
  | SetOcv b o f => (set_ocv b o f s, Ok tt)
  | SetExtKeyId b => (set_ext_key_id b s, Ok tt)
  end.

Inductive reachable : t -> Prop :=
| reach_new snonce pmk alg sta ap rsne aprsne aprsnxe :
    reachable (new_with_ap_ies snonce pmk alg sta ap rsne aprsne aprsnxe)
| reach_ft snonce r1 alg sta ap rsne aprsne aprsnxe :
    reachable (new_ft snonce r1 alg sta ap rsne aprsne aprsnxe)
| reach_step s e : reachable s -> reachable (step e s).1.

(** The frame of an event that an AP authenticates. *)
Definition event_frame (e : event) : option EapolKeyFrame :=
  match e with Message3 f | GroupRekey f => Some f | _ => None end.

(** The cases of a step. *)
Definition step_spec (e : event) s (s' : t) (ok : bool) : Prop :=
  match e with
  | Message1 fresh a rc v =>
      if ok then msg1_admitted s a rc
        /\ exists p, derive_ptk (msg1_nonces fresh a rc v s) = Ok p
           /\ s' = put_tptk (Some p) (msg1_nonces fresh a rc v s)
      else s' = s
  | Message3 f =>
      if ok then exists p kdes, msg3_authentic s f p /\ msg3_key_data_ok s f p kdes
        /\ s' = msg3_result f kdes s
      else msg3_refused f s s'
  | GroupRekey f =>
      if ok then exists p kdes g, group_authentic s f p /\ group_key_data s f p kdes g
        /\ s' = store_gtk g (group_counted f s)
      else s' = s \/ (exists p, group_authentic s f p) /\ s' = group_counted f s
  | RekeyOffload c => ok = true /\ s' = update_replay_counter c s
  | InstallPtk p => ok = true /\ s' = set_ptk p s
  | SetOcv b o f => ok = true /\ s' = set_ocv b o f s
  | SetExtKeyId b => ok = true /\ s' = set_ext_key_id b s
  end.

Lemma step_cases e s :
  exists s' ok, step_spec e s s' ok /\ (step e s).1 = s'
    /\ (if ok then (step e s).2 = Ok tt else exists err, (step e s).2 = Err err).
Proof using All.
  assert (Hb : forall A (c : method A) Q R, wp c Q R s ->
    (exists a s', Q a s' /\ (c;; mret tt) s = (s', Ok tt))
    \/ (exists er s', R er s' /\ (c;; mret tt) s = (s', Err er))).
  { intros A c Q R. unfold wp, mbind, st_bind. destruct (c s) as [s' [a|er| |]]; try done;
      [left|right]; eauto. }
  destruct e as [fresh a rc v|f|f|c|p|b o f|b]; cbn [step];
    try (by eexists _, true).
  - destruct (Hb _ _ _ _ (wp_message_1 fresh a rc v s))
      as [(m & s' & (Had & p & Hd & Hs & _) & ->)|(er & s' & [Hs _] & ->)].
    + exists s', true. split; [split; [done|by exists p]|done].
    + exists s', false. split; [done|]. split; [done|by eexists].
  - destruct (Hb _ _ _ _ (wp_message_3 f s))
      as [([m k] & s' & (p & Ha & Hk & Hs & _) & ->)|(er & s' & [Hs _] & ->)].
    + exists s', true. split; [by exists p, k|done].
    + exists s', false. split; [done|]. split; [done|by eexists].
  - destruct (Hb _ _ _ _ (wp_group_rekey f s))
      as [([m k] & s' & (p & g & Ha & Hk & Hs & _) & ->)|(er & s' & Hs & ->)].
    + exists s', true. split; [by exists p, k, g|done].
    + exists s', false. split; [done|]. split; [done|by eexists].
Qed.

(** *** The staged key *)

(** A staged PTK is the one derived from the current nonces. *)
Definition staged_ok s : Prop := forall p, tptk s = Some p -> derive_ptk s = Ok p.

(** Every field a refused Message 3 may touch is irrelevant for the keys. *)
Lemma refused_keys frame s s' :
  msg3_refused frame s s' ->
  ptk s' = ptk s /\ tptk s' = tptk s /\ gtk s' = gtk s /\ derive_ptk s' = derive_ptk s.
Proof using Type.
  intros [->|[_ Hs]]; [done|]. unfold same_but_key_id in Hs. rewrite Hs. done.
Qed.

Lemma result_keys frame kdes s :
  tptk (msg3_result frame kdes s) = None
  /\ ptk (msg3_result frame kdes s) = handshake_ptk s.
Proof using Type.
  unfold msg3_result, promote_tptk, handshake_ptk, msg3_stored, store_gtk.
  destruct (bool_decide _), (kde_gtk kdes); cbn; destruct (tptk s) eqn:Ht; cbn;
    by rewrite ?Ht.
Qed.

Lemma derive_put_tptk o s : derive_ptk (put_tptk o s) = derive_ptk s.
Proof using Type. done. Qed.

Lemma reachable_staged s : reachable s -> staged_ok s.
Proof using All.
  induction 1 as [| |s e _ IH]; [done|done|].
  destruct (step_cases e s) as (s' & ok & Hspec & -> & _). intros p Hp.
  destruct e as [fresh a rc v|f|f|c|q|b o f|b]; destruct ok; cbn [step_spec] in Hspec.
  - destruct Hspec as (_ & q & Hq & ->). rewrite derive_put_tptk, Hq.
    by injection Hp as ->.
  - subst s'. by apply IH.
  - destruct Hspec as (q & k & _ & _ & ->). by rewrite (proj1 (result_keys f k s)) in Hp.
  - destruct (refused_keys _ _ _ Hspec) as (_ & Ht & _ & ->). apply IH. by rewrite <- Ht.
  - destruct Hspec as (q & k & g & _ & _ & ->). exact (IH p Hp).
  - destruct Hspec as [->|[_ ->]]; exact (IH p Hp).
  - destruct Hspec as [_ ->]. exact (IH p Hp).
  - by destruct Hspec.
  - by destruct Hspec as [_ ->].
  - by destruct Hspec.
  - destruct Hspec as [_ ->]. exact (IH p Hp).
  - by destruct Hspec.
  - destruct Hspec as [_ ->]. exact (IH p Hp).
  - by destruct Hspec.
Qed.

(** C3: in any run of the handshake the live pairwise key changes only when the
    client installs one, or when a Message 3 is accepted whose Key Nonce is the
    current ANonce and whose MIC verifies under the KCK of the new key; the new
    key is then the 48-octet PTK derived from the current nonces. *)
Theorem fourway_ptk_authenticated s e :
  reachable s -> ptk (step e s).1 <> ptk s ->
  (exists p, e = InstallPtk p /\ ptk (step e s).1 = Some p)
  \/ exists frame p, e = Message3 frame /\ (step e s).2 = Ok tt
       /\ ptk (step e s).1 = Some p /\ length p = PTK_LEN /\ derive_ptk s = Ok p
       /\ anonce s = Some (f_key_nonce frame)
       /\ compute_mic s (ptk_kck p) (pdu_with_zeroed_mic (f_raw frame))
          = Ok (f_key_mic frame).
Proof using All.
  intros Hr%reachable_staged Hne.
  destruct (step_cases e s) as (s' & ok & Hspec & Hs & Hok). rewrite Hs in Hne |- *.
  destruct e as [fresh a rc v|f|f|c|q|b o f|b]; destruct ok; cbn [step_spec] in Hspec.
  - destruct Hspec as (_ & q & _ & ->). destruct Hne. unfold msg1_nonces.
    by destruct (bool_decide _).
  - by subst s'.
  - right. destruct Hspec as (p & k & Ha & Hk & ->).
    rewrite (proj2 (result_keys f k s)) in *.
    exists f, p. destruct Ha as [_ _ Hn Hp Hm]. rewrite Hp in *.
    assert (Ht : tptk s = Some p).
    { unfold handshake_ptk in Hp. by destruct (tptk s). }
    destruct (derive_ptk_ok s _ Hn) as (p' & Hd & Hl). rewrite (Hr _ Ht) in Hd.
    apply Ok_inj in Hd as <-. rewrite (Hr _ Ht). done.
  - by destruct (refused_keys _ _ _ Hspec) as (Hp & _).
  - by destruct Hspec as (p & k & g & _ & _ & ->).
  - by destruct Hspec as [->|[_ ->]].
  - by destruct Hspec as [_ ->].
  - by destruct Hspec.
  - left. destruct Hspec as [_ ->]. by exists q.
  - by destruct Hspec.
  - by destruct Hspec as [_ ->].
  - by destruct Hspec.
  - by destruct Hspec as [_ ->].
  - by destruct Hspec.
Qed.

(** *** Counters *)

(** The counters of the authenticated frames a run accepts. *)
Fixpoint accepted_counters (es : list event) s : list Z :=
  match es with
  | [] => []
  | e :: es' =>
      let rest := accepted_counters es' (step e s).1 in
      match event_frame e, (step e s).2 with
      | Some f, Ok _ => f_replay_counter f :: rest
      | _, _ => rest
      end
  end.

Definition is_offload (e : event) : bool :=
  match e with RekeyOffload _ => true | _ => false end.

(** The floor below which frames are refused never sinks. *)
Definition above s (l : list Z) : Prop :=
  replay_counter_set s = true -> Forall (fun c => replay_counter s < c) l.

Lemma step_counters e s :
  is_offload e = false ->
  match event_frame e, (step e s).2 with
  | Some f, Ok _ =>
      (replay_counter_set s = true -> replay_counter s < f_replay_counter f)
      /\ replay_counter (step e s).1 = f_replay_counter f
      /\ replay_counter_set (step e s).1 = true
  | _, _ => replay_counter_set s = true ->
      replay_counter_set (step e s).1 = true
      /\ replay_counter s <= replay_counter (step e s).1
  end.
Proof using All.
  intros Ho. destruct (step_cases e s) as (s' & ok & Hspec & -> & Hok).
  destruct e as [fresh a rc v|f|f|c|q|b o f|b]; [| | |done|..]; destruct ok;
    cbn [step_spec event_frame] in *.
  - destruct Hspec as (_ & q & _ & ->). unfold msg1_nonces. destruct (bool_decide _); by split.
  - subst s'. by split.
  - rewrite Hok. destruct Hspec as (p & k & Ha & _ & ->). split; [apply Ha|]. split.
    + by apply (signed_promote f k s [] []).
    + unfold msg3_result, promote_tptk, msg3_stored, store_gtk.
      destruct (bool_decide _), (kde_gtk k); cbn; by destruct (tptk s).
  - destruct Hok as [er ->]. destruct Hspec as [->|[(p & Ha) Hs]]; [by split|].
    unfold same_but_key_id in Hs. rewrite Hs. cbn. intros Hset. split; [done|].
    pose proof (m3_fresh _ _ _ Ha Hset). lia.
  - rewrite Hok. destruct Hspec as (p & k & g & Ha & _ & ->). cbn.
    split; [intros _; apply Ha|done].
  - destruct Hok as [er ->]. destruct Hspec as [->|[(p & Ha) ->]]; [by split|]. cbn.
    intros _. split; [done|]. pose proof (gr_fresh _ _ _ Ha). lia.
  - destruct Hspec as [_ ->]. by split.
  - by destruct Hspec.
  - destruct Hspec as [_ ->]. by split.
  - by destruct Hspec.
  - destruct Hspec as [_ ->]. by split.
  - by destruct Hspec.
Qed.

Lemma accepted_sorted es s :
  Forall (fun e => is_offload e = false) es ->
  StronglySorted Z.lt (accepted_counters es s) /\ above s (accepted_counters es s).
Proof using All.
  revert s. induction es as [|e es IH]; intros s Hes; [split; [constructor|by intros ?]|].
  apply Forall_cons in Hes as [He Hes]. destruct (IH (step e s).1 Hes) as [Hso Hab].
  pose proof (step_counters e s He) as Hc. cbn [accepted_counters]. unfold above in *.
  assert (Hskip : (replay_counter_set s = true ->
      replay_counter_set (step e s).1 = true
      /\ replay_counter s <= replay_counter (step e s).1) ->
    replay_counter_set s = true ->
    Forall (fun c => replay_counter s < c) (accepted_counters es (step e s).1)).
  { intros Hm Hset. destruct (Hm Hset) as [H1' Hle].
    eapply Forall_impl; [exact (Hab H1')|]. intros c ?. cbn in *. lia. }
  destruct (event_frame e) as [f|]; [|by auto].
  destruct ((step e s).2) as [[]|er| |]; auto.
  destruct Hc as (Hf & Hr & Hset). specialize (Hab Hset). rewrite Hr in Hab. split.
  - by constructor.
  - intros Hs. constructor; [by apply Hf|].
    eapply Forall_impl; [exact Hab|]. intros c ?. cbn in *. specialize (Hf Hs). lia.
Qed.

(** C34: Along any run in which the driver does not overwrite the counter, the
    replay counters of the Message 3 and group rekey frames the station accepts
    strictly increase, so that no frame is accepted twice. *)
Theorem fourway_counters_increase es s :
  Forall (fun e => is_offload e = false) es ->
  StronglySorted Z.lt (accepted_counters es s).
Proof using All. intros Hes. apply (accepted_sorted es s Hes). Qed.

Lemma put_tptk_twice p s : put_tptk (Some p) (put_tptk (Some p) s) = put_tptk (Some p) s.
Proof using Type. done. Qed.

Lemma nonces_again fresh a rc v p s :
  nonces a rc v (put_tptk p (msg1_nonces fresh a rc v s)) = put_tptk p (msg1_nonces fresh a rc v s).
Proof using Type. unfold msg1_nonces. by destruct (bool_decide _). Qed.

(** A Message 1 is answered exactly when its counter is above the last
    accepted one and it does not reuse the pending counter with another ANonce.
    Sent again, it gets the same Message 2 and changes nothing, whatever the
    random source delivers; a refused Message 1 changes nothing either. *)
Theorem fourway_message1 fresh a rc v s :
  (msg1_admitted s a rc ->
     exists p, let s' := put_tptk (Some p) (msg1_nonces fresh a rc v s) in
       derive_ptk s' = Ok p
       /\ process_message_1 fresh a rc v s = (s', Ok (msg2 s' (ptk_kck p) rc))
       /\ ptk s' = ptk s
       /\ forall fresh', process_message_1 fresh' a rc v s'
                         = (s', Ok (msg2 s' (ptk_kck p) rc)))
  /\ (~ msg1_admitted s a rc ->
        exists er, process_message_1 fresh a rc v s = (s, Err er)).
Proof using All.
  pose proof (wp_message_1 fresh a rc v s) as Hw. unfold wp in Hw.
  destruct (process_message_1 fresh a rc v s) as [s1 [m|er| |]]; try done.
  - destruct Hw as (Had & p & Hd & -> & ->). split; [|done]. intros _.
    rewrite <- (derive_put_tptk (Some p)) in Hd.
    pose proof (put_tptk_twice p (msg1_nonces fresh a rc v s)) as Hpt.
    assert (Hptk : ptk (put_tptk (Some p) (msg1_nonces fresh a rc v s)) = ptk s)
      by (unfold msg1_nonces; by destruct (bool_decide _)).
    assert (Hdup : msg1_duplicate (put_tptk (Some p) (msg1_nonces fresh a rc v s)) a rc)
      by done.
    assert (Hrep : msg1_admitted (put_tptk (Some p) (msg1_nonces fresh a rc v s)) a rc).
    { split; [|intros _; apply Hdup]. unfold msg1_nonces. destruct (bool_decide _); apply Had. }
    assert (Hver : forall fresh', let s1 := put_tptk (Some p) (msg1_nonces fresh a rc v s) in
       msg1_nonces fresh' a rc v s1 = s1).
    { intros fresh'. cbn zeta. unfold msg1_nonces at 1. rewrite bool_decide_true by done.
      by rewrite nonces_again. }
    exists p. cbn zeta in *. set (s' := put_tptk (Some p) (msg1_nonces fresh a rc v s)) in *.
    clearbody s'. split; [exact Hd|]. split; [done|]. split; [done|]. intros fresh'.
    pose proof (wp_message_1 fresh' a rc v s') as Hw. unfold wp in Hw.
    specialize (Hver fresh').
    destruct (process_message_1 fresh' a rc v s') as [s2 [m|er| |]]; try done.
    + destruct Hw as (_ & p' & Hd' & Hs' & ->). rewrite Hver in Hd', Hs'.
      rewrite Hd in Hd'. apply Ok_inj in Hd' as <-. by rewrite Hs', Hpt.
    + by destruct Hw as [_ []].
  - destruct Hw as [-> Hno]. split; [done|]. intros _. by eexists.
Qed.

(** C13: Message 3 is accepted exactly when it belongs to the pending handshake,
    is newer than the last accepted frame, repeats the ANonce and verifies under
    the handshake key, and its key data, if any, is encrypted under that key,
    passes the operating-channel check when it is on, has a valid key id when
    extended key ids are on, and repeats the AP's beacon elements.  The station
    then promotes the key, stores the group key and answers with Message 4.  A
    refused Message 3 is an error that leaves the pairwise and group keys. *)
Theorem fourway_message3_iff frame s :
  (forall s' m4 kdes,
     process_message_3 frame s = (s', Ok (m4, kdes)) <->
     exists p, msg3_authentic s frame p /\ msg3_key_data_ok s frame p kdes
       /\ s' = msg3_result frame kdes s /\ m4 = msg4 frame s p)
  /\ (~ msg3_acceptable s frame ->
        exists s' er, process_message_3 frame s = (s', Err er)
          /\ ptk s' = ptk s /\ tptk s' = tptk s /\ gtk s' = gtk s).
Proof using All.
  pose proof (wp_message_3 frame s) as Hw. unfold wp in Hw.
  destruct (process_message_3 frame s) as [s1 [[m k]|er| |]]; try done.
  - split.
    + intros s' m4 kdes. split; [intros [= <- <- <-]; exact Hw|].
      destruct Hw as (p & Ha & Hk & -> & ->). intros (p' & Ha' & Hk' & -> & ->).
      pose proof (m3_key _ _ _ Ha). pose proof (m3_key _ _ _ Ha').
      assert (p' = p) as -> by congruence.
      assert (kdes = k) as ->; [|done].
      destruct Hk as [[He ->]|(Hne & _ & pl & Hpl & -> & _)],
        Hk' as [[He' ->]|(Hne' & _ & pl' & Hpl' & -> & _)]; congruence.
    + destruct Hw as (p & Ha & Hk & _). intros Hno. destruct Hno. by exists p, k.
  - destruct Hw as [Hr Hno]. split.
    + intros s' m4 kdes. split; [done|]. intros (p & Ha & Hk & _). destruct Hno.
      by exists p, kdes.
    + intros _. exists s1, er. split; [done|].
      destruct (refused_keys _ _ _ Hr) as (-> & -> & -> & _). done.
Qed.

(** No step of the handshake panics or diverges, whatever the frame and
    the state: a method returns its answer or an error. *)
Theorem fourway_total e s : returns (step e s).2.
Proof using All.
  destruct (step_cases e s) as (s' & [] & _ & _ & Hok); [by rewrite Hok|].
  by destruct Hok as [er ->].
Qed.

End facts.

(** *** A concrete handshake *)

Import KdfFacts.

Definition toy_start : FourWayState.t :=
  new_with_ap_ies (repeat 9 32) (repeat 1 32) AesCmac (repeat 2 6) (repeat 3 6)
    [48; 2; 1; 0] (repeat 7 8) [].

Definition toy_message1 : event := Message1 (repeat 8 32) (repeat 5 32) 6 0.

Definition toy_pending : FourWayState.t := (step toy_message1 toy_start).1.

(** A Message 3 with wrapped key data: a GTK, then the RSNE. *)
Definition toy_frame : EapolKeyFrame :=
  let raw := repeat 0 16 ++ [2; 3; 4] in
  let mic :=
    match compute_mic toy_pending (default [] (kck toy_pending))
            (pdu_with_zeroed_mic raw) with
    | Ok m => m | _ => []
    end in
  mkEapolKeyFrame raw 7 (repeat 5 32) mic (repeat 0 8 ++ repeat 6 16 ++ repeat 7 8)
    [] true 0.

Lemma fourway_ptk_authenticated_witness :
  exists frame p, Message3 toy_frame = Message3 frame
    /\ ptk (step (Message3 toy_frame) toy_pending).1 = Some p /\ length p = PTK_LEN
    /\ derive_ptk toy_pending = Ok p.
Proof.
  destruct (fourway_ptk_authenticated toy_pending (Message3 toy_frame))
    as [(p & Hp & _)|(f & p & Hf & _ & Hp & Hl & Hd & _)].
  - unfold toy_pending. apply reach_step, reach_new.
  - vm_compute. discriminate.
  - discriminate.
  - exists f, p. split; [exact Hf|]. split; [exact Hp|]. split; [exact Hl|exact Hd].
Defined.

Lemma fourway_counters_increase_witness :
  accepted_counters [Message3 toy_frame; Message3 toy_frame] toy_pending = [7]
  /\ StronglySorted Z.lt
       (accepted_counters [Message3 toy_frame; Message3 toy_frame] toy_pending).
Proof.
  split; [vm_compute; reflexivity|].
  apply (fourway_counters_increase [Message3 toy_frame; Message3 toy_frame] toy_pending).
  repeat constructor.
Defined.

Lemma fourway_message1_witness :
  exists er, process_message_1 (repeat 8 32) (repeat 4 32) 6 0 toy_pending
             = (toy_pending, Err er).
Proof.
  apply (fourway_message1 (repeat 8 32) (repeat 4 32) 6 0 toy_pending).
  intros [_ Hn]. specialize (Hn eq_refl). vm_compute in Hn. discriminate.
Defined.

Lemma fourway_message3_iff_witness :
  exists m4 kdes,
    process_message_3 toy_frame toy_pending
    = ((process_message_3 toy_frame toy_pending).1, Ok (m4, kdes))
    /\ exists p, msg3_key_data_ok toy_pending toy_frame p kdes.
Proof.
  assert (Hok : match (process_message_3 toy_frame toy_pending).2 with
                | Ok _ => true | _ => false end = true) by (vm_compute; reflexivity).
  pose proof (fourway_message3_iff toy_frame toy_pending) as [Hiff _].
  revert Hok Hiff. generalize (process_message_3 toy_frame toy_pending).
  intros [s' [[m4 kdes]|er| |]] Hok Hiff; [|discriminate Hok..].
  exists m4, kdes. split; [reflexivity|].
  destruct (proj1 (Hiff s' m4 kdes) eq_refl) as (p & _ & Hk & _).
  exists p. exact Hk.
Defined.

Lemma fourway_total_witness :
  (step (Message3 toy_frame) toy_start).2
  = handshake_failed "Message 3 without a preceding Message 1"
  /\ returns (step (Message3 toy_frame) toy_start).2.
Proof. split; [vm_compute; reflexivity|apply fourway_total]. Defined.

End FourWayFacts.
