(* ===== verification/Sae.v ===== *)
(** * SAE: the Dragonfly handshake of WPA3

    [src/src/wifi/crypto/sae.rs] and the frame handling of
    [src/src/wifi/auth.rs].  The curve is the [p256] crate: [Class P256] has its
    points, its scalars (integers modulo the group order) and its field square
    root, with [P256Laws] what a group of prime order is.  Field elements are
    integers modulo the prime that [sae.rs] spells out.  A random generator is
    the list of its answers.  [Module SaeFacts]: both ends derive the same keys
    and accept each other's Confirm, a Confirm is accepted only when it verifies,
    and the password element is that of the standard. *)

From Stdlib Require Import Zpow_facts.
From stdpp Require Import pretty.
From S2P Require Import Prelude Errors Security WifiKdf.

Definition SAE_GROUP19_ID : Z := 19.
Definition SAE_FIELD_LEN : nat := 32.
Definition SAE_KCK_LEN : nat := 32.
Definition SAE_PMK_LEN : nat := 32.
Definition SAE_STATUS_H2E : Z := 126.
Definition SAE_STATUS_ANTI_CLOGGING : Z := 76.
Definition SAE_STATUS_UNKNOWN_PASSWORD_IDENTIFIER : Z := 123.
Definition EXT_ANTI_CLOGGING_TOKEN : Z := 93.
Definition EXT_PASSWORD_IDENTIFIER : Z := 33.
Definition EXT_AKM_SUITE_SELECTOR : Z := 114.
Definition HNP_MAX_ITER : nat := 200.

Definition P256_PRIME : list Z :=
  [0xff; 0xff; 0xff; 0xff; 0x00; 0x00; 0x00; 0x01; 0x00; 0x00; 0x00; 0x00;
   0x00; 0x00; 0x00; 0x00; 0x00; 0x00; 0x00; 0x00; 0xff; 0xff; 0xff; 0xff;
   0xff; 0xff; 0xff; 0xff; 0xff; 0xff; 0xff; 0xff].

Definition P256_B : list Z :=
  [0x5a; 0xc6; 0x35; 0xd8; 0xaa; 0x3a; 0x93; 0xe7; 0xb3; 0xeb; 0xbd; 0x55;
   0x76; 0x98; 0x86; 0xbc; 0x65; 0x1d; 0x06; 0xb0; 0xcc; 0x53; 0xb0; 0xf6;
   0x3b; 0xce; 0x3c; 0x3e; 0x27; 0xd2; 0x60; 0x4b].

(** The prime of the field and the constant of the curve, as numbers. *)
Definition prime : Z := from_be P256_PRIME.
Definition curve_b : Z := from_be P256_B.

(** ** The curve *)

Class P256 := {
  Point : Type;
  IDENTITY : Point;
  point_add : Point -> Point -> Point;
  point_neg : Point -> Point;
  (** [point * scalar]. *)
  point_mul : Point -> Z -> Point;
  is_identity : Point -> bool;
  (** [NistP256::ORDER]. *)
  order : Z;
  (** The coordinates of an affine point; none for the identity. *)
  affine_xy : Point -> option (list Z * list Z);
  (** [AffinePoint::from_sec1_point] of an uncompressed point. *)
  from_affine : list Z -> list Z -> option Point;
  (** [FieldElement::sqrt], on representatives. *)
  field_sqrt : Z -> option Z;
  (** [MapToCurve::map_to_curve] of a field element. *)
  map_to_curve : Z -> Point;
  (** [Hkdf::<Sha256>::expand]: PRK, info, length. *)
  hkdf_expand : list Z -> list Z -> nat -> list Z;
}.

Class P256Laws `{P256} : Prop := {
  order_range : 2 < order < 2 ^ 256;
  add_comm p q : point_add p q = point_add q p;
  add_assoc p q r : point_add p (point_add q r) = point_add (point_add p q) r;
  add_identity p : point_add p IDENTITY = p;
  add_neg p : point_add p (point_neg p) = IDENTITY;
  mul_add p a b : point_mul p ((a + b) mod order) = point_add (point_mul p a) (point_mul p b);
  mul_mul p a b : point_mul (point_mul p a) b = point_mul p ((a * b) mod order);
  mul_identity p a :
    0 <= a < order -> (point_mul p a = IDENTITY <-> a = 0 \/ p = IDENTITY);
  is_identity_true p : is_identity p = true <-> p = IDENTITY;
  affine_identity p : affine_xy p = None <-> p = IDENTITY;
  affine_len p x y : affine_xy p = Some (x, y) -> length x = 32%nat /\ length y = 32%nat;
  affine_from p x y : affine_xy p = Some (x, y) -> from_affine x y = Some p;
  hkdf_expand_len k i n : length (hkdf_expand k i n) = n;
}.

(** The curve equation, for the hunting-and-pecking derivation. *)
Class P256Curve `{P256} : Prop := {
  identity_true : is_identity IDENTITY = true;
  from_affine_identity p x y : from_affine x y = Some p -> is_identity p = false;
  from_affine_xy p x y : from_affine x y = Some p -> affine_xy p = Some (x, y);
  (** An uncompressed point is accepted exactly when it is on the curve. *)
  from_affine_curve x y :
    length x = 32%nat -> length y = 32%nat ->
    (is_Some (from_affine x y)
     <-> from_be x < prime /\ from_be y < prime
         /\ from_be y ^ 2 mod prime = (from_be x ^ 3 - 3 * from_be x + curve_b) mod prime);
  field_sqrt_some a r :
    0 <= a < prime -> field_sqrt a = Some r -> 0 <= r < prime /\ r ^ 2 mod prime = a;
}.

(** HMAC yields octets. *)
Class WifiCryptoBytes `{WifiCryptoLib} : Prop := {
  w_hmac_sha256_bytes k d : bytes (w_hmac_sha256 k d);
}.

Definition sae_err {A} (m : string) : outcome WifiError.t A :=
  Err (WifiError.new WifiError.SaeFailed m).

(** A random generator: what it answers, in order. *)
Abbreviation draws := (list (string + Z)).

(** [Scalar::try_random], again while it is zero.  A generator that answers zero
    for ever is one that never ends the loop. *)
Fixpoint nonzero_scalar (rng : draws) : outcome WifiError.t (Z * draws) :=
  match rng with
  | [] => Diverge
  | inl e :: _ => sae_err ("rng failure: " +:+ e)
  | inr x :: rng => if x =? 0 then nonzero_scalar rng else Ok (x, rng)
  end.

Section sae.
Context `{WifiCryptoLib} `{P256}.

(** ** Helpers *)

Definition u64_from_mac (mac : list Z) : Z := from_be ([0; 0] ++ mac).

Definition scalar_to_array (s : Z) : list Z := to_be 32 s.

Definition scalar_from_bytes (bytes : list Z) : outcome WifiError.t Z :=
  if (length bytes <? 32)%nat
  then sae_err ("peer scalar too short: " +:+ pretty (length bytes) +:+ " bytes") else
  let s := from_be (take 32 bytes) in
  if order <=? s then sae_err "peer scalar out of range" else
  if s =? 0 then sae_err "peer scalar is zero" else Ok s.

Definition projective_from_elem (elem_bytes : list Z) : Point :=
  if (length elem_bytes <? 64)%nat then IDENTITY
  else default IDENTITY (from_affine (take 32 elem_bytes) (take 32 (drop 32 elem_bytes))).

(** The octets of [out] after [point_to_x_y(point, &mut out)], from zeros. *)
Definition point_to_x_y (point : Point) : list Z :=
  match affine_xy point with
  | Some (x, y) => x ++ y
  | None => replicate 64 0
  end.

(** [MAX(mac) || MIN(mac)]. *)
Definition max_min (mac_sta mac_ap : list Z) : list Z :=
  if u64_from_mac mac_ap <? u64_from_mac mac_sta then mac_sta ++ mac_ap else mac_ap ++ mac_sta.

(** ** The password element *)

Definition sswu_from_label (pwd_seed label : list Z) : Point :=
  let okm := hkdf_expand pwd_seed label 48 in
  map_to_curve (from_be okm mod prime).

Definition derive_pt_ecc (ssid password : list Z) (password_id : option (list Z))
  : outcome WifiError.t Point :=
  let pwd_seed := hkdf_extract_sha256 ssid (password ++ default [] password_id) in
  let p1 := sswu_from_label pwd_seed (as_bytes "SAE Hash to Element u1 P1") in
  let p2 := sswu_from_label pwd_seed (as_bytes "SAE Hash to Element u2 P2") in
  let pt := point_add p1 p2 in
  if is_identity pt then sae_err "PT is identity" else Ok pt.

Definition derive_pwe_from_pt (pt : Point) (mac_sta mac_ap : list Z)
  : outcome WifiError.t Point :=
  let val_hash := hkdf_extract_sha256 (replicate 32 0) (max_min mac_sta mac_ap) in
  let val := from_be val_hash mod (order - 1) + 1 in
  if order <=? val then sae_err "val out of range" else
  let pwe := point_mul pt val in
  if is_identity pwe then sae_err "PWE is identity" else Ok pwe.

Definition compute_pwe_h2e_with_id (password ssid mac_sta mac_ap : list Z)
  (password_id : option (list Z)) : outcome WifiError.t Point :=
  pt ← derive_pt_ecc ssid password password_id;
  derive_pwe_from_pt pt mac_sta mac_ap.

Definition compute_pwe_h2e (password ssid mac_sta mac_ap : list Z)
  : outcome WifiError.t Point :=
  compute_pwe_h2e_with_id password ssid mac_sta mac_ap None.

(** [x^3 - 3x + b] in the field. *)
Definition y_sqr (x : Z) : Z := (x ^ 3 - 3 * x + curve_b) mod prime.

(** The body of [for counter in 1..=HNP_MAX_ITER]: [None] is [continue]. *)
Definition hnp_candidate (addrs password : list Z) (counter : Z)
  : outcome WifiError.t (option Point) :=
  let pwd_seed := hkdf_extract_sha256 addrs (password ++ [as_u8 counter]) in
  pwd_value ← kdf pwd_seed "SAE Hunting and Pecking" P256_PRIME SAE_FIELD_LEN;
  let x := from_be pwd_value in
  if prime <=? x then Ok None else
  match field_sqrt (y_sqr x) with
  | None => Ok None
  | Some y0 =>
      seed_last ← idx pwd_seed 31;
      let y := if Z.land y0 1 =? Z.land seed_last 1 then y0 else (- y0) mod prime in
      let pwe := projective_from_elem (to_be 32 x ++ to_be 32 y) in
      if is_identity pwe then sae_err "PWE derivation produced the identity" else Ok (Some pwe)
  end.

Fixpoint hnp_loop (n : nat) (addrs password : list Z) (counter : Z)
  : outcome WifiError.t Point :=
  match n with
  | O => sae_err ("could not derive PWE within " +:+ pretty HNP_MAX_ITER +:+ " iterations")
  | S n =>
      c ← hnp_candidate addrs password counter;
      match c with
      | Some pwe => Ok pwe
      | None => hnp_loop n addrs password (counter + 1)
      end
  end.

Definition compute_pwe_hnp (password mac_sta mac_ap : list Z) : outcome WifiError.t Point :=
  hnp_loop HNP_MAX_ITER (max_min mac_sta mac_ap) password 1.

(** ** Commit elements *)

(** An extended element: FF, length, extension, data.  [1 + len as u8] is
    computed in a u8. *)
Definition extended (extension : Z) (data : list Z) : outcome WifiError.t (list Z) :=
  let len := as_u8 (Z.of_nat (length data)) in
  if len =? 255 then Panic else Ok ([255; 1 + len; extension] ++ data).

Definition extended_opt (extension : Z) (data : option (list Z))
  : outcome WifiError.t (list Z) :=
  match data with Some d => extended extension d | None => Ok [] end.

Definition build_commit_auth_data (h2e : bool) (group : Z) (scalar element : list Z)
  (token password_id akm_selector : option (list Z)) : outcome WifiError.t (list Z) :=
  id ← extended_opt EXT_PASSWORD_IDENTIFIER password_id;
  container ← (if h2e then extended_opt EXT_ANTI_CLOGGING_TOKEN token else Ok []);
  akm ← extended_opt EXT_AKM_SUITE_SELECTOR akm_selector;
  Ok (to_le16 1 ++ to_le16 (if h2e then SAE_STATUS_H2E else 0) ++ to_le16 group
      ++ (if h2e then [] else default [] token) ++ scalar ++ element
      ++ id ++ container ++ akm).

(** [while offset < elements.len()] on what is left of [elements]. *)
Fixpoint parse_commit_loop (fuel : nat) (elements : list Z)
  : outcome WifiError.t (list (Z * list Z)) :=
  match fuel with
  | O => Diverge
  | S fuel =>
      match elements with
      | [] => Ok []
      | [_] => sae_err "truncated SAE commit element"
      | id :: l :: rest =>
          let len := usize l in
          if (len =? 0)%nat || (length rest <? len)%nat
          then sae_err "invalid SAE commit element length" else
          parsed ← parse_commit_loop fuel (drop len rest);
          Ok (if id =? 255
              then match take len rest with
                   | ext :: data => (ext, data) :: parsed
                   | [] => parsed
                   end
              else parsed)
      end
  end.

Definition parse_commit_elements (elements : list Z) : outcome WifiError.t (list (Z * list Z)) :=
  parse_commit_loop (S (length elements)) elements.

Definition parse_anti_clogging_token (h2e : bool) (payload : list Z)
  : outcome WifiError.t (list Z) :=
  if (length payload <? 2)%nat then sae_err "anti-clogging response too short" else
  let rest := drop 2 payload in
  if h2e then
    match rest with
    | id :: elen :: ext :: token =>
        if negb (id =? 255) || negb (ext =? EXT_ANTI_CLOGGING_TOKEN)
        then sae_err "malformed anti-clogging token container" else
        let elen := usize elen in
        if (elen =? 0)%nat || (length rest - 2 <? elen)%nat
        then sae_err "bad anti-clogging token container length" else
        slice rest 3 (3 + elen - 1)
    | _ => sae_err "malformed anti-clogging token container"
    end
  else Ok rest.

(** ** The state *)

Record SaeAuth := mkSaeAuth {
  pwe : Point;
  rand : Z;
  scalar : Z;
  elem : Point;
  peer_scalar : option Z;
  peer_elem : option Point;
  kck : option (list Z);
  pmk : option (list Z);
  pmkid : option (list Z);
  confirmed : bool;
  send_confirm : Z;
  peer_send_confirm : option Z;
  is_h2e : bool;
  hnp_fallback : bool;
  own_scalar_bytes : list Z;
  own_elem_bytes : list Z;
  password_id : option (list Z);
  akm_selector : option (list Z);
}.

(** A method with [&mut self]. *)
Abbreviation method := (st SaeAuth WifiError.t).

Definition new_with_password_id (password ssid mac_sta mac_ap : list Z) (h2e hnp_fallback : bool)
  (password_id : option (list Z)) : outcome WifiError.t SaeAuth :=
  pwe ← (if h2e then compute_pwe_h2e_with_id password ssid mac_sta mac_ap password_id
         else compute_pwe_hnp password mac_sta mac_ap);
  Ok (mkSaeAuth pwe 0 0 IDENTITY None None None None None false 0 None h2e hnp_fallback
        (replicate 32 0) (replicate 64 0) password_id None).

Definition set_akm_selector (selector : option (list Z)) (s : SaeAuth) : SaeAuth :=
  mkSaeAuth (pwe s) (rand s) (scalar s) (elem s) (peer_scalar s) (peer_elem s) (kck s) (pmk s)
    (pmkid s) (confirmed s) (send_confirm s) (peer_send_confirm s) (is_h2e s) (hnp_fallback s)
    (own_scalar_bytes s) (own_elem_bytes s) (password_id s) selector.

(** The assignments of [generate_commit]. *)
Definition put_commit (rand' scalar' : Z) (elem' : Point) (sb eb : list Z) (s : SaeAuth) : SaeAuth :=
  mkSaeAuth (pwe s) rand' scalar' elem' (peer_scalar s) (peer_elem s) (kck s) (pmk s)
    (pmkid s) (confirmed s) (send_confirm s) (peer_send_confirm s) (is_h2e s) (hnp_fallback s)
    sb eb (password_id s) (akm_selector s).

(** The assignments of [process_commit_with_elements]. *)
Definition put_peer (ps : Z) (pe : Point) (k p i : list Z) (s : SaeAuth) : SaeAuth :=
  mkSaeAuth (pwe s) (rand s) (scalar s) (elem s) (Some ps) (Some pe) (Some k) (Some p)
    (Some i) (confirmed s) 1 (peer_send_confirm s) (is_h2e s) (hnp_fallback s)
    (own_scalar_bytes s) (own_elem_bytes s) (password_id s) (akm_selector s).

Definition put_send_confirm (n : Z) (s : SaeAuth) : SaeAuth :=
  mkSaeAuth (pwe s) (rand s) (scalar s) (elem s) (peer_scalar s) (peer_elem s) (kck s) (pmk s)
    (pmkid s) (confirmed s) n (peer_send_confirm s) (is_h2e s) (hnp_fallback s)
    (own_scalar_bytes s) (own_elem_bytes s) (password_id s) (akm_selector s).

Definition put_confirmed (n : Z) (s : SaeAuth) : SaeAuth :=
  mkSaeAuth (pwe s) (rand s) (scalar s) (elem s) (peer_scalar s) (peer_elem s) (kck s) (pmk s)
    (pmkid s) true (send_confirm s) (Some n) (is_h2e s) (hnp_fallback s)
    (own_scalar_bytes s) (own_elem_bytes s) (password_id s) (akm_selector s).

Definition generate_commit (rng : draws) : method draws :=
  x ← lift (nonzero_scalar rng);
  let '(rand, rng) := (x : Z * draws) in
  y ← lift (nonzero_scalar rng);
  let '(mask, rng) := (y : Z * draws) in
  s ← get;
  let scalar := (rand + mask) mod order in
  let elem := point_neg (point_mul (pwe s) mask) in
  modify (put_commit rand scalar elem (scalar_to_array scalar) (point_to_x_y elem));;
  mret rng.

(** The data of the first element with that extension. *)
Definition find_element (extension : Z) (parsed : list (Z * list Z)) : option (list Z) :=
  snd <$> List.find (fun '(id, _) => id =? extension) parsed.

(** The checks of the extended elements. *)
Definition check_akm (s : SaeAuth) (parsed : list (Z * list Z)) : outcome WifiError.t unit :=
  match akm_selector s with
  | None => Ok tt
  | Some expected =>
      peer ← ok_or (find_element EXT_AKM_SUITE_SELECTOR parsed)
               (WifiError.new WifiError.SaeFailed "peer SAE commit has no AKM Suite Selector");
      if bool_decide (peer = expected) && (length peer =? 4)%nat then Ok tt
      else sae_err "SAE AKM Suite Selector mismatch"
  end.

Definition check_password_id (s : SaeAuth) (parsed : list (Z * list Z))
  : outcome WifiError.t unit :=
  match password_id s with
  | None => Ok tt
  | Some own_id =>
      peer ← ok_or (find_element EXT_PASSWORD_IDENTIFIER parsed)
               (WifiError.new WifiError.SaeFailed "peer SAE commit has no password identifier");
      if bool_decide (peer = own_id) then Ok tt else sae_err "SAE password identifier mismatch"
  end.

Definition process_commit_with_elements (peer_scalar_bytes peer_elem_bytes elements : list Z)
  : method (list Z) :=
  s ← get;
  peer_scalar ← lift (scalar_from_bytes peer_scalar_bytes);
  let peer_elem := projective_from_elem peer_elem_bytes in
  if is_identity peer_elem then lift (sae_err "failed to reconstruct peer element") else
  if bool_decide (take 32 peer_scalar_bytes = own_scalar_bytes s)
     && bool_decide (take 64 peer_elem_bytes = own_elem_bytes s)
  then lift (sae_err "peer commit reflects our own commit") else
  parsed ← lift (parse_commit_elements elements);
  lift (check_akm s parsed);;
  lift (check_password_id s parsed);;
  let k_point := point_mul (point_add (point_mul (pwe s) peer_scalar) peer_elem) (rand s) in
  if is_identity k_point then lift (sae_err "shared secret is identity") else
  let k := from_option fst [] (affine_xy k_point) in
  let keyseed := hkdf_extract_sha256 (replicate 32 0) k in
  let val_bytes := to_be 32 ((scalar s + peer_scalar) mod order) in
  keys ← lift (kdf keyseed "SAE KCK and PMK" val_bytes (SAE_KCK_LEN + SAE_PMK_LEN));
  kck ← lift (slice keys 0 SAE_KCK_LEN);
  pmk ← lift (slice keys SAE_KCK_LEN (length keys));
  pmkid ← lift (slice val_bytes 0 16);
  modify (put_peer peer_scalar peer_elem kck pmk pmkid);;
  mret (sae_confirm kck 1 (own_scalar_bytes s) (own_elem_bytes s) peer_scalar_bytes
          peer_elem_bytes).

Definition process_commit (peer_scalar_bytes peer_elem_bytes : list Z) : method (list Z) :=
  process_commit_with_elements peer_scalar_bytes peer_elem_bytes [].

Definition no_commit : WifiError.t :=
  WifiError.new WifiError.SaeFailed "no peer commit processed".

Definition retransmit_confirm : method (Z * list Z) :=
  s ← get;
  kck ← lift (ok_or (kck s) (WifiError.new WifiError.SaeFailed "no KCK derived"));
  peer_scalar ← lift (ok_or (peer_scalar s) no_commit);
  peer_elem ← lift (ok_or (peer_elem s) no_commit);
  let next := send_confirm s + 1 in
  if (65535 <? next) || (next =? 65535)
  then lift (sae_err "SAE Send-Confirm exhausted") else
  let confirm := sae_confirm kck next (own_scalar_bytes s) (own_elem_bytes s)
                   (scalar_to_array peer_scalar) (point_to_x_y peer_elem) in
  modify (put_send_confirm next);;
  mret (next, confirm).

(** [u16::from_le_bytes]. *)
Definition from_le16 (a b : Z) : Z := a + 256 * b.

Definition process_confirm (peer_confirm_body : list Z) : method (list Z) :=
  s ← get;
  kck ← lift (ok_or (kck s)
    (WifiError.new WifiError.SaeFailed "no KCK derived - process commit first"));
  peer_scalar ← lift (ok_or (peer_scalar s) no_commit);
  peer_elem ← lift (ok_or (peer_elem s) no_commit);
  if (length peer_confirm_body <? 34)%nat then lift (sae_err "confirm too short") else
  b0 ← lift (idx peer_confirm_body 0);
  b1 ← lift (idx peer_confirm_body 1);
  let sc := from_le16 b0 b1 in
  if from_option (fun last => sc <=? last) false (peer_send_confirm s) then
    match confirmed s, pmk s with
    | true, Some pmk => mret pmk
    | _, _ => lift (sae_err ("SAE Send-Confirm " +:+ pretty sc +:+ " did not increase"))
    end
  else
  peer_hash ← lift (slice peer_confirm_body 2 34);
  let expected := sae_confirm kck sc (scalar_to_array peer_scalar) (point_to_x_y peer_elem)
                    (own_scalar_bytes s) (own_elem_bytes s) in
  if negb (bool_decide (expected = peer_hash)) then
    lift (Err (WifiError.new WifiError.WrongPassword "wrong password (SAE confirm mismatch)"))
  else
  pmk ← lift (ok_or (pmk s) (WifiError.new WifiError.SaeFailed "no PMK derived"));
  modify (put_confirmed sc);;
  mret pmk.

(** [.expect("OS random number generator failure")]. *)
Definition build_init_auth_msg (rng : draws) : method (list Z) :=
  (fun s => match generate_commit rng s with
            | (s', Err _) => (s', Panic)
            | r => r
            end);;
  s ← get;
  lift (build_commit_auth_data (is_h2e s) SAE_GROUP19_ID (own_scalar_bytes s) (own_elem_bytes s)
          None (password_id s) (akm_selector s)).

Definition build_commit_with_token (rng : draws) (token : list Z) : method (list Z) :=
  s ← get;
  if bool_decide (is_Some (peer_scalar s)) || confirmed s
  then lift (sae_err "cannot retry commit with token after processing the peer") else
  (if bool_decide (own_scalar_bytes s = replicate 32 0)
   then generate_commit rng;; mret tt else mret tt);;
  s ← get;
  lift (build_commit_auth_data (is_h2e s) SAE_GROUP19_ID (own_scalar_bytes s) (own_elem_bytes s)
          (Some token) (password_id s) (akm_selector s)).

(** ** Authentication frames ([auth.rs]) *)

Inductive AuthAction :=
| Continue
| SendConfirm (frame : list Z)
| SendCommitWithToken (token : list Z)
| RetryWithHnp
| RetryTemporarily
| Complete.

Definition is_temporary_reject_status (status : Z) : bool :=
  bool_decide (status ∈ [17; 30; 32; 33; 34; 35]).

Definition auth_err {A} (m : string) : outcome WifiError.t A :=
  Err (WifiError.new WifiError.AuthFailed m).

Definition process_sae_frame (auth_seq status : Z) (payload : list Z) : method AuthAction :=
  s ← get;
  if confirmed s then mret Continue else
  if (auth_seq =? 1) && (status =? SAE_STATUS_ANTI_CLOGGING) then
    token ← lift (parse_anti_clogging_token (is_h2e s) payload);
    mret (SendCommitWithToken token)
  else if (auth_seq =? 1) && (status =? SAE_STATUS_UNKNOWN_PASSWORD_IDENTIFIER) then
    lift (auth_err "SAE auth failed: unknown password identifier")
  else if (auth_seq =? 2) && (status =? 15) then
    lift (Err (WifiError.new WifiError.WrongPassword
                 "wrong password (SAE confirm rejected by AP)"))
  else if (auth_seq =? 1) && (status =? 127) then
    lift (auth_err "SAE-PK required by AP but shuli does not implement SAE-PK")
  else if (auth_seq =? 1) && is_temporary_reject_status status then
    mret RetryTemporarily
  else
  let status_ok := if auth_seq =? 1 then (status =? 0) || (status =? SAE_STATUS_H2E)
                   else status =? 0 in
  if negb status_ok then
    if (auth_seq =? 1) && is_h2e s && hnp_fallback s then mret RetryWithHnp
    else lift (auth_err ("SAE auth failed: seq=" +:+ pretty auth_seq +:+ " status="
                         +:+ pretty status))
  else if auth_seq =? 1 then
    if (length payload <? 98)%nat
    then lift (auth_err ("SAE commit too short: " +:+ pretty (length payload) +:+ " bytes")) else
    b0 ← lift (idx payload 0);
    b1 ← lift (idx payload 1);
    let group := from_le16 b0 b1 in
    if negb (group =? SAE_GROUP19_ID)
    then lift (auth_err ("unsupported SAE group " +:+ pretty group)) else
    scalar ← lift (slice payload 2 34);
    element ← lift (slice payload 34 98);
    elements ← lift (slice_from payload 98);
    confirm ← process_commit_with_elements scalar element elements;
    mret (SendConfirm confirm)
  else if auth_seq =? 2 then
    process_confirm payload;;
    mret Complete
  else mret Continue.

End sae.

(** The method of an authentication: SAE is the only one. *)
Module AuthMethod.
Section auth_method.
Context `{WifiCryptoLib} `{P256}.

Inductive t := Sae (sae : SaeAuth).

Definition sae (m : t) : SaeAuth := match m with Sae s => s end.

(** A method of the state inside. *)
Definition on_sae {A} (act : st SaeAuth WifiError.t A) : st t WifiError.t A :=
  fun m => let '(s, r) := act (sae m) in (Sae s, r).

Definition new_sae (password ssid sta_mac bssid : list Z) (h2e hnp_fallback : bool)
  (password_id : option (list Z)) : outcome WifiError.t t :=
  s ← new_with_password_id password ssid sta_mac bssid h2e hnp_fallback password_id;
  Ok (Sae s).

Definition set_akm_selector (selector : option (list Z)) (m : t) : t :=
  Sae (Sae.set_akm_selector selector (sae m)).

Definition initial_frame (rng : draws) : st t WifiError.t (list Z) :=
  on_sae (build_init_auth_msg rng).

Definition commit_with_token (rng : draws) (token : list Z) : st t WifiError.t (list Z) :=
  on_sae (build_commit_with_token rng token).

Definition process_frame (auth_seq status : Z) (payload : list Z) : st t WifiError.t AuthAction :=
  on_sae (process_sae_frame auth_seq status payload).

Definition pmk (m : t) : option (list Z) := Sae.pmk (sae m).
Definition pmkid (m : t) : option (list Z) := Sae.pmkid (sae m).

End auth_method.
End AuthMethod.

Module SaeFacts.
Import KdfFacts.
Section facts.
Context `{HW : WifiCryptoLib} `{HP : P256} `{HPL : !P256Laws} `{HWL : !WifiCryptoLaws}.

(** ** The group *)

Lemma neg_identity p : point_neg p = IDENTITY -> p = IDENTITY.
Proof using HPL. intros Hp. by rewrite <- (add_neg p), Hp, add_identity. Qed.

Lemma not_identity p : p <> IDENTITY -> is_identity p = false.
Proof using HPL. intros Hp. apply not_true_iff_false. by rewrite is_identity_true. Qed.

Lemma commit_sum p a b :
  point_add (point_mul p ((a + b) mod order)) (point_neg (point_mul p b)) = point_mul p a.
Proof using HPL. by rewrite mul_add, <- add_assoc, add_neg, add_identity. Qed.

(** The secret both ends compute. *)
Lemma shared_secret p r m r' m' :
  point_mul (point_add (point_mul p ((r' + m') mod order)) (point_neg (point_mul p m'))) r
  = point_mul (point_add (point_mul p ((r + m) mod order)) (point_neg (point_mul p m))) r'.
Proof using HPL. by rewrite !commit_sum, !mul_mul, Z.mul_comm. Qed.

Lemma shared_not_identity p r r' m' :
  p <> IDENTITY -> 0 < r < order -> 0 < r' < order ->
  point_mul (point_add (point_mul p ((r' + m') mod order)) (point_neg (point_mul p m'))) r
  <> IDENTITY.
Proof using HPL.
  intros Hp Hr Hr'. rewrite commit_sum. rewrite mul_identity by lia.
  intros [?|Hx]; [lia|]. apply mul_identity in Hx as [?|?]; [lia|done|lia].
Qed.

Lemma elem_not_identity p m :
  p <> IDENTITY -> 0 < m < order -> point_neg (point_mul p m) <> IDENTITY.
Proof using HPL.
  intros Hp Hm Hx%neg_identity. apply mul_identity in Hx as [?|?]; [lia|done|lia].
Qed.

(** ** Encodings *)

Lemma point_octets p :
  p <> IDENTITY -> length (point_to_x_y p) = 64%nat /\ projective_from_elem (point_to_x_y p) = p.
Proof using HPL.
  intros Hp. unfold point_to_x_y.
  destruct (affine_xy p) as [[x y]|] eqn:Ha; [|by apply affine_identity in Ha].
  destruct (affine_len _ _ _ Ha) as [Hx Hy]. split; [rewrite length_app; lia|].
  unfold projective_from_elem. rewrite length_app, Hx, Hy. cbn [Nat.ltb Nat.leb Nat.add].
  rewrite take_app_le, take_ge by lia. rewrite drop_app_ge, Hx, Nat.sub_diag, drop_0 by lia.
  rewrite take_ge by lia. by rewrite (affine_from _ _ _ Ha).
Qed.

Lemma scalar_octets s : 0 < s < order -> scalar_from_bytes (scalar_to_array s) = Ok s.
Proof using HPL.
  intros Hs. pose proof order_range. unfold scalar_from_bytes, scalar_to_array.
  rewrite length_to_be. cbn [Nat.ltb Nat.leb]. rewrite take_ge by (rewrite length_to_be; lia).
  rewrite from_be_to_be_small by (unfold fits; change (8 * Z.of_nat 32) with 256; lia).
  replace (order <=? s) with false by lia. by replace (s =? 0) with false by lia.
Qed.

(** ** Commit elements *)

Lemma parse_fuel fuel : forall fuel' l,
  (length l < fuel)%nat -> (length l < fuel')%nat ->
  parse_commit_loop fuel l = parse_commit_loop fuel' l.
Proof using Type.
  induction fuel as [|fuel IH]; intros fuel' l Hl Hl'; [lia|]. destruct fuel' as [|fuel']; [lia|].
  destruct l as [|id [|n rest]]; try done. cbn [parse_commit_loop length] in *.
  case_match; [done|]. by rewrite (IH fuel') by (rewrite length_drop; lia).
Qed.

Lemma parse_step fuel id l rest :
  parse_commit_loop (S fuel) (id :: l :: rest)
  = (if (usize l =? 0)%nat || (length rest <? usize l)%nat
     then sae_err "invalid SAE commit element length" else
     parsed ← parse_commit_loop fuel (drop (usize l) rest);
     Ok (if id =? 255
         then match take (usize l) rest with
              | ext :: data => (ext, data) :: parsed
              | [] => parsed
              end
         else parsed)).
Proof using Type. done. Qed.

Lemma parse_extended ext d e rest :
  (length d <= 254)%nat -> extended ext d = Ok e ->
  parse_commit_elements (e ++ rest) = (parsed ← parse_commit_elements rest; Ok ((ext, d) :: parsed)).
Proof using Type.
  intros Hd He. unfold extended in He.
  assert (Hlen : as_u8 (Z.of_nat (length d)) = Z.of_nat (length d))
    by (apply wrap_small; unfold fits; lia).
  rewrite Hlen in He. case_match; [done|]. injection He as <-.
  unfold parse_commit_elements at 1. cbn [app length].
  rewrite parse_step. replace (usize (1 + Z.of_nat (length d))) with (S (length d)) by lia.
  cbn [Nat.eqb orb length]. rewrite length_app.
  replace (S (length d + length rest) <? S (length d))%nat with false
    by (symmetry; apply Nat.ltb_ge; lia).
  cbn [drop take]. rewrite drop_app_length, take_app_length.
  rewrite (parse_fuel _ (S (length rest)) rest) by len_lia. done.
Qed.

Lemma parse_extended_opt ext d e rest :
  (forall x, d = Some x -> (length x <= 254)%nat) -> extended_opt ext d = Ok e ->
  parse_commit_elements (e ++ rest)
  = (parsed ← parse_commit_elements rest; Ok (from_option (fun x => [(ext, x)]) [] d ++ parsed)).
Proof using Type.
  intros Hd He. destruct d as [d|]; cbn [extended_opt from_option] in He |- *.
  - by rewrite (parse_extended _ d _ _ (Hd d eq_refl) He).
  - injection He as <-. cbn [app]. by destruct (parse_commit_elements rest).
Qed.

Lemma extended_opt_ok ext d :
  (forall x, d = Some x -> (length x <= 254)%nat) -> exists e, extended_opt ext d = Ok e.
Proof using Type.
  intros Hd. destruct d as [d|]; cbn; [|by eexists]. unfold extended. rewrite wrap_small.
  - replace (_ =? 255) with false by (specialize (Hd d eq_refl); lia). by eexists.
  - specialize (Hd d eq_refl). unfold fits. lia.
Qed.

(** ** The exchange *)

(** The state after our commit, with its secrets [r] and [m]. *)
Record committed (s : SaeAuth) (r m : Z) : Prop := {
  c_rand_range : 0 < r < order;
  c_mask_range : 0 < m < order;
  c_pwe : pwe s <> IDENTITY;
  c_rand : rand s = r;
  c_scalar : scalar s = (r + m) mod order;
  c_scalar_bytes : own_scalar_bytes s = scalar_to_array (scalar s);
  c_elem_bytes : own_elem_bytes s = point_to_x_y (point_neg (point_mul (pwe s) m));
  c_confirmed : confirmed s = false;
  c_peer_confirm : peer_send_confirm s = None;
}.

(** The keys of a pair of commits. *)
Definition agreed (p : Point) (r m r' m' : Z) : outcome WifiError.t (list Z) :=
  kdf (hkdf_extract_sha256 (replicate 32 0)
         (from_option fst [] (affine_xy (point_mul p ((r' * r) mod order)))))
    "SAE KCK and PMK"
    (to_be 32 (((r + m) mod order + (r' + m') mod order) mod order))
    (SAE_KCK_LEN + SAE_PMK_LEN).

Lemma agreed_sym p r m r' m' : agreed p r m r' m' = agreed p r' m' r m.
Proof using Type. unfold agreed. by rewrite (Z.mul_comm r'), (Z.add_comm ((r + m) mod _)). Qed.

(** The elements a peer with the same identifier and selector sends. *)
Definition accepts (s : SaeAuth) (elements : list Z) : Prop :=
  exists parsed, parse_commit_elements elements = Ok parsed
    /\ check_akm s parsed = Ok tt /\ check_password_id s parsed = Ok tt.

Lemma scalar_range x s : s = x mod order -> s <> 0 -> 0 < s < order.
Proof using HPL.
  intros Hs Hz. destruct order_range as [Ho _].
  assert (0 <= s < order) by (rewrite Hs; apply Z.mod_pos_bound; lia). lia.
Qed.

Lemma commit_accepted a b r m r' m' elements :
  committed a r m -> committed b r' m' -> pwe a = pwe b -> scalar b <> 0 ->
  (own_scalar_bytes b, own_elem_bytes b) <> (own_scalar_bytes a, own_elem_bytes a) ->
  accepts a elements ->
  exists keys, agreed (pwe a) r m r' m' = Ok keys /\ length keys = 64%nat
    /\ process_commit_with_elements (own_scalar_bytes b) (own_elem_bytes b) elements a
       = (put_peer (scalar b) (point_neg (point_mul (pwe b) m')) (take 32 keys)
            (take 32 (drop 32 keys)) (take 16 (to_be 32 ((scalar a + scalar b) mod order))) a,
          Ok (sae_confirm (take 32 keys) 1 (own_scalar_bytes a) (own_elem_bytes a)
                (own_scalar_bytes b) (own_elem_bytes b))).
Proof using All.
  intros Ha Hb Hpwe Hnz Hne (parsed & Hparse & Hakm & Hid).
  destruct (kdf_len (hkdf_extract_sha256 (replicate 32 0)
      (from_option fst [] (affine_xy (point_mul (pwe a) ((r' * r) mod order)))))
      "SAE KCK and PMK" (to_be 32 (((r + m) mod order + (r' + m') mod order) mod order))
      (SAE_KCK_LEN + SAE_PMK_LEN)) as (keys & Hkeys & Hlen); [unfold SAE_KCK_LEN, SAE_PMK_LEN; lia|].
  exists keys. split; [exact Hkeys|]. split; [exact Hlen|].
  destruct Ha as [Hr Hm Hp Hra Hsa Hsba Heba _ _], Hb as [Hr' Hm' Hp' Hrb Hsb Hsbb Hebb _ _].
  pose proof order_range as Ho.
  assert (Hsr : 0 < scalar b < order) by by apply (scalar_range (r' + m')).
  assert (He : point_neg (point_mul (pwe b) m') <> IDENTITY) by by apply elem_not_identity.
  destruct (point_octets _ He) as [Hl64 Hproj].
  unfold process_commit_with_elements. rewrite (st_bind_ok _ _ a a a) by done.
  rewrite Hsbb, scalar_octets by done. rewrite st_bind_lift.
  rewrite Hebb, Hproj. cbv zeta.
  rewrite (not_identity _ He).
  rewrite take_ge by (unfold scalar_to_array; rewrite length_to_be; lia).
  rewrite (take_ge (point_to_x_y _)) by lia.
  rewrite <- Hsbb, <- Hebb.
  replace (bool_decide _ && bool_decide _) with false
    by (symmetry; apply andb_false_iff; destruct (decide (own_scalar_bytes b = own_scalar_bytes a));
        [right|left]; apply bool_decide_eq_false; congruence).
  rewrite Hparse, st_bind_lift. rewrite Hakm, st_bind_lift, Hid, st_bind_lift.
  rewrite Hpwe, Hra, Hsb in *.
  rewrite not_identity by by apply shared_not_identity.
  rewrite commit_sum, mul_mul, Hsa, Hkeys, st_bind_lift.
  unfold SAE_KCK_LEN, SAE_PMK_LEN in *. rewrite Hlen.
  rewrite (slice_in keys 0 32), (slice_in keys 32), (slice_in (to_be _ _))
    by (rewrite ?length_to_be; clear -Hlen; lia).
  rewrite !st_bind_lift.
  by rewrite st_bind_modify, !drop_0.
Qed.

(** The Confirm of the peer, for a state that has processed its commit. *)
Lemma confirm_accepted s ps pe k key id c :
  confirmed s = false -> peer_send_confirm s = None -> length c = 32%nat ->
  c = sae_confirm k 1 (scalar_to_array ps) (point_to_x_y pe) (own_scalar_bytes s) (own_elem_bytes s) ->
  process_sae_frame 2 0 (to_le16 1 ++ c) (put_peer ps pe k key id s)
  = (put_confirmed 1 (put_peer ps pe k key id s), Ok Complete).
Proof using Type.
  intros Hc Hp Hlen Heq. unfold process_sae_frame. rewrite (st_bind_ok _ _ _ (put_peer ps pe k key id s) _) by done.
  cbn [confirmed put_peer]. rewrite Hc. cbn -[process_confirm].
  assert (Hpc : process_confirm (to_le16 1 ++ c) (put_peer ps pe k key id s)
                = (put_confirmed 1 (put_peer ps pe k key id s), Ok key)).
  { unfold process_confirm. rewrite (st_bind_ok _ _ _ (put_peer ps pe k key id s) _) by done.
    cbn [kck peer_scalar peer_elem put_peer ok_or]. rewrite !st_bind_lift.
    replace (_ <? 34)%nat with false
      by (symmetry; apply Nat.ltb_ge; rewrite length_app, Hlen; cbn; lia).
    cbn [to_le16 app idx lookup list_lookup]. rewrite !st_bind_lift. cbv zeta.
    cbn [peer_send_confirm put_peer]. rewrite Hp. cbn [from_option].
    rewrite slice_in by (cbn [length]; rewrite Hlen; lia). rewrite st_bind_lift.
    cbn [drop Nat.sub]. rewrite (take_ge c) by (rewrite Hlen; lia).
    change (from_le16 _ _) with 1. rewrite bool_decide_true by done.
    cbn [negb pmk put_peer ok_or]. by rewrite st_bind_lift, st_bind_modify. }
  change (to_le16 1 ++ c) with (1 :: 0 :: c) in Hpc. by rewrite (st_bind_ok _ _ _ _ _ Hpc).
Qed.

(** A commit frame of the peer. *)
Lemma commit_frame status sb eb elements t :
  status = 0 \/ status = SAE_STATUS_H2E -> confirmed t = false ->
  length sb = 32%nat -> length eb = 64%nat ->
  process_sae_frame 1 status (to_le16 SAE_GROUP19_ID ++ sb ++ eb ++ elements) t
  = (c ← process_commit_with_elements sb eb elements; mret (SendConfirm c)) t.
Proof using Type.
  intros Hst Hc Hsb Heb. unfold process_sae_frame. rewrite (st_bind_ok _ _ _ t _) by done.
  rewrite Hc. cbv zeta.
  replace ((1 =? 1) && (status =? SAE_STATUS_ANTI_CLOGGING)) with false by (destruct Hst; by subst).
  replace ((1 =? 1) && (status =? SAE_STATUS_UNKNOWN_PASSWORD_IDENTIFIER)) with false
    by (destruct Hst; by subst).
  replace ((1 =? 2) && (status =? 15)) with false by done.
  replace ((1 =? 1) && (status =? 127)) with false by (destruct Hst; by subst).
  replace ((1 =? 1) && is_temporary_reject_status status) with false
    by (destruct Hst; by subst).
  replace (if 1 =? 1 then (status =? 0) || (status =? SAE_STATUS_H2E) else status =? 0)
    with true by (destruct Hst; by subst).
  cbn [negb]. change (1 =? 1) with true. cbv iota.
  set (payload := to_le16 SAE_GROUP19_ID ++ sb ++ eb ++ elements).
  assert (Hlen : length payload = (98 + length elements)%nat)
    by (unfold payload; rewrite !length_app, Hsb, Heb; cbn; lia).
  replace (length payload <? 98)%nat with false by (symmetry; apply Nat.ltb_ge; lia).
  change (idx payload 0) with (Ok (E := WifiError.t) 19). change (idx payload 1) with (Ok (E := WifiError.t) 0).
  rewrite !st_bind_lift. change (negb (from_le16 19 0 =? SAE_GROUP19_ID)) with false. cbv iota.
  unfold slice_from. rewrite !slice_in by (rewrite Hlen; lia). rewrite !st_bind_lift.
  assert (H1 : take (34 - 2) (drop 2 payload) = sb)
    by (change (drop 2 payload) with (sb ++ eb ++ elements); apply take_app_length'; by rewrite Hsb).
  assert (H2 : take (98 - 34) (drop 34 payload) = eb).
  { replace (drop 34 payload) with (drop 32 (drop 2 payload)) by (by rewrite drop_drop).
    change (drop 2 payload) with (sb ++ eb ++ elements).
    rewrite drop_app_length' by (by rewrite Hsb). apply take_app_length'. by rewrite Heb. }
  assert (H3 : take (length payload - 98) (drop 98 payload) = elements).
  { rewrite take_ge by (rewrite length_drop; lia).
    replace (drop 98 payload) with (drop 64 (drop 32 (drop 2 payload))) by (by rewrite !drop_drop).
    change (drop 2 payload) with (sb ++ eb ++ elements).
    rewrite drop_app_length' by (by rewrite Hsb).
    apply drop_app_length'. by rewrite Heb. }
  by rewrite H1, H2, H3.
Qed.

(** What [Scalar::try_random] answers. *)
Definition scalars (rng : draws) : Prop := forall x, inr x ∈ rng -> 0 <= x < order.

Lemma nonzero_ok rng x rng' :
  scalars rng -> nonzero_scalar rng = Ok (x, rng') -> 0 < x < order /\ scalars rng'.
Proof using Type.
  induction rng as [|[e|y] rng IH]; intros Hs Hn; [done..|]. cbn in Hn.
  assert (Hs' : scalars rng) by (intros z Hz; apply Hs; by right).
  destruct (Z.eqb_spec y 0); [by apply IH|]. injection Hn as <- <-.
  split; [|done]. specialize (Hs y ltac:(by left)). lia.
Qed.

(** A state before its commit. *)
Record initial (s : SaeAuth) : Prop := {
  i_pwe : pwe s <> IDENTITY;
  i_confirmed : confirmed s = false;
  i_peer : peer_send_confirm s = None;
}.

(** Two ends configured alike. *)
Record alike (a b : SaeAuth) : Prop := {
  a_pwe : pwe a = pwe b;
  a_password_id : password_id a = password_id b;
  a_akm : akm_selector a = akm_selector b;
}.

(** Lengths that fit their elements. *)
Definition element_sizes (s : SaeAuth) : Prop :=
  (forall x, password_id s = Some x -> (length x <= 254)%nat)
  /\ (forall x, akm_selector s = Some x -> length x = 4%nat).

Definition commit_elements (s : SaeAuth) : outcome WifiError.t (list Z) :=
  id ← extended_opt EXT_PASSWORD_IDENTIFIER (password_id s);
  akm ← extended_opt EXT_AKM_SUITE_SELECTOR (akm_selector s);
  Ok (id ++ akm).

Lemma init_committed rng s s1 f :
  scalars rng -> initial s -> build_init_auth_msg rng s = (s1, Ok f) ->
  exists r m els, committed s1 r m /\ alike s1 s
    /\ commit_elements s1 = Ok els
    /\ f = to_le16 1 ++ to_le16 (if is_h2e s then SAE_STATUS_H2E else 0)
           ++ (to_le16 SAE_GROUP19_ID ++ own_scalar_bytes s1 ++ own_elem_bytes s1 ++ els).
Proof using Type.
  intros Hs [Hp Hc Hn] Hb. unfold build_init_auth_msg in Hb.
  apply st_bind_inv in Hb as [(s2 & rng' & Hg & Hb)|[(x & _ & Hb)|[[_ Hb]|[_ Hb]]]]; try done.
  destruct (generate_commit rng s) as [s3 [rng3|e| |]] eqn:Hgen; try done.
  injection Hg as -> _. unfold generate_commit in Hgen.
  destruct (nonzero_scalar rng) as [[r rng1]|e| |] eqn:H1; try done.
  destruct (nonzero_ok _ _ _ Hs H1) as [Hr Hs1]. rewrite st_bind_lift in Hgen.
  destruct (nonzero_scalar rng1) as [[m rng2]|e| |] eqn:H2; try done.
  destruct (nonzero_ok _ _ _ Hs1 H2) as [Hm _]. rewrite st_bind_lift in Hgen.
  injection Hgen as Hs2 _. rewrite (st_bind_ok get _ s2 s2 s2) in Hb by done.
  injection Hb as <- Hf. subst s2.
  unfold build_commit_auth_data in Hf. apply bind_ok in Hf as (id & Hid & Hf).
  apply bind_ok in Hf as (container & Hcon & Hf). apply bind_ok in Hf as (akm & Hakm & Hf).
  injection Hf as <-. exists r, m, (id ++ akm). split; [by split|]. split; [by split|].
  split; [unfold commit_elements; by rewrite Hid; cbn [mbind outcome_bind]; rewrite Hakm|].
  assert (container = []) as -> by (cbn in Hcon; destruct (is_h2e s); by injection Hcon).
  cbn [is_h2e put_commit default app]. by destruct (is_h2e s).
Qed.

Lemma elements_accepted a b els :
  element_sizes b -> alike a b -> commit_elements b = Ok els -> accepts a els.
Proof using Type.
  intros [Hi Hk] [_ Hid Hakm] He. unfold commit_elements in He.
  apply bind_ok in He as (id & Hid' & He). apply bind_ok in He as (akm & Hakm' & He).
  injection He as <-.
  assert (Hk' : forall x, akm_selector b = Some x -> (length x <= 254)%nat)
    by (intros x Hx; rewrite (Hk x Hx); lia).
  eexists. split.
  { rewrite (parse_extended_opt _ _ _ _ Hi Hid'), <- (app_nil_r akm),
      (parse_extended_opt _ _ _ _ Hk' Hakm'). done. }
  cbn [app]. rewrite app_nil_r. unfold check_akm, check_password_id, find_element. rewrite Hid, Hakm.
  destruct (password_id b) as [i|], (akm_selector b) as [k|] eqn:Hak; cbn;
    rewrite ?bool_decide_true by done; try done;
    rewrite (Hk k eq_refl); done.
Qed.

(** One end: the peer's commit, then the peer's Confirm [c']. *)
Lemma one_end a b r m r' m' els status key :
  committed a r m -> committed b r' m' -> pwe a = pwe b -> scalar b <> 0 ->
  (own_scalar_bytes b, own_elem_bytes b) <> (own_scalar_bytes a, own_elem_bytes a) ->
  accepts a els -> status = 0 \/ status = SAE_STATUS_H2E ->
  agreed (pwe a) r m r' m' = Ok key ->
  exists a2 a3,
    process_sae_frame 1 status
      (to_le16 SAE_GROUP19_ID ++ own_scalar_bytes b ++ own_elem_bytes b ++ els) a
    = (a2, Ok (SendConfirm (sae_confirm (take 32 key) 1 (own_scalar_bytes a) (own_elem_bytes a)
                              (own_scalar_bytes b) (own_elem_bytes b))))
    /\ process_sae_frame 2 0
         (to_le16 1 ++ sae_confirm (take 32 key) 1 (own_scalar_bytes b) (own_elem_bytes b)
                         (own_scalar_bytes a) (own_elem_bytes a)) a2
       = (a3, Ok Complete)
    /\ confirmed a3 = true /\ kck a3 = Some (take 32 key) /\ pmk a3 = Some (drop 32 key)
    /\ pmkid a3 = Some (take 16 (to_be 32 ((scalar a + scalar b) mod order))).
Proof using All.
  intros Ha Hb Hp Hz Hne Hacc Hst Hkey.
  destruct (commit_accepted a b r m r' m' els Ha Hb Hp Hz Hne Hacc) as (k & Hk & Hlen & Hpc).
  assert (k = key) as -> by congruence.
  destruct Ha as [_ _ _ _ _ _ _ Hc Hpsc], Hb as [Hr' Hm' Hpb _ _ Hsb Heb _ _].
  destruct (point_octets _ (elem_not_identity _ m' Hpb Hm')) as [Hl64 _].
  assert (Hl32 : length (own_scalar_bytes b) = 32%nat)
    by (rewrite Hsb; unfold scalar_to_array; by rewrite length_to_be).
  do 2 eexists. split.
  - rewrite commit_frame by (done || by rewrite Heb). by rewrite (st_bind_ok _ _ _ _ _ Hpc).
  - rewrite (take_ge (drop 32 key)) by (rewrite length_drop; lia).
    split; [apply confirm_accepted; [done|done|apply w_hmac_sha256_len|by rewrite Hsb, Heb]|done].
Qed.

(** An authentication frame, from its transaction on, at the other end: transaction and
    status, little-endian, then the body. *)
Definition receive (frame : list Z) : st SaeAuth WifiError.t AuthAction :=
  match frame with
  | t0 :: t1 :: s0 :: s1 :: body => process_sae_frame (from_le16 t0 t1) (from_le16 s0 s1) body
  | _ => lift (sae_err "authentication frame too short")
  end.

(** The Confirm frame the client sends for [c]: transaction 2, status 0, the
    send-confirm counter 1. *)
Definition confirm_frame (c : list Z) : list Z := to_le16 2 ++ to_le16 0 ++ to_le16 1 ++ c.

Definition commit_status (s : SaeAuth) : Z := if is_h2e s then SAE_STATUS_H2E else 0.

Lemma commit_status_ok s : commit_status s = 0 \/ commit_status s = SAE_STATUS_H2E.
Proof using Type. unfold commit_status. destruct (is_h2e s); auto. Qed.

Lemma receive_commit s body t :
  receive (to_le16 1 ++ to_le16 (if is_h2e s then SAE_STATUS_H2E else 0) ++ body) t
  = process_sae_frame 1 (commit_status s) body t.
Proof using Type. unfold commit_status. by destruct (is_h2e s). Qed.

(** C28: SAE agrees.  Two ends with the same password element (not the identity), the same
    password identifier (of at most 254 octets) and the same AKM selector, that have each
    built their commit from random scalars below the group order and not yet heard the
    other, whose commit scalars (the sum of each end's two random scalars) are not zero and
    whose commits are not equal, accept each other's commit frame, each with the status it
    carries (126 from an end that uses hash-to-element, else 0) and its elements, and answer
    it with a Confirm; each accepts the other's Confirm frame, and both end confirmed with
    the same KCK, the same PMK and the same PMKID.  The group laws
    of the curve library hold (no point but the identity has an order below the group's),
    points survive their encoding, and HKDF-Expand and the MAC give their lengths. *)
Theorem sae_exchange_agrees rng_a rng_b a b a1 b1 fa fb :
  scalars rng_a -> scalars rng_b -> initial a -> initial b -> alike a b -> element_sizes a ->
  build_init_auth_msg rng_a a = (a1, Ok fa) -> build_init_auth_msg rng_b b = (b1, Ok fb) ->
  scalar a1 <> 0 -> scalar b1 <> 0 ->
  (own_scalar_bytes b1, own_elem_bytes b1) <> (own_scalar_bytes a1, own_elem_bytes a1) ->
  exists ca cb a2 b2 a3 b3 k p i,
    receive fb a1 = (a2, Ok (SendConfirm ca)) /\ receive fa b1 = (b2, Ok (SendConfirm cb))
    /\ receive (confirm_frame cb) a2 = (a3, Ok Complete)
    /\ receive (confirm_frame ca) b2 = (b3, Ok Complete)
    /\ confirmed a3 = true /\ confirmed b3 = true
    /\ kck a3 = Some k /\ kck b3 = Some k /\ pmk a3 = Some p /\ pmk b3 = Some p
    /\ pmkid a3 = Some i /\ pmkid b3 = Some i.
Proof using All.
  intros Hra Hrb Hia Hib [Hp Hid Hak] [Hsz1 Hsz2] Hba Hbb Hza Hzb Hne.
  destruct (init_committed _ _ _ _ Hra Hia Hba) as (r & m & ea & Ca & [Pa Ia Ka] & Ea & ->).
  destruct (init_committed _ _ _ _ Hrb Hib Hbb) as (r' & m' & eb & Cb & [Pb Ib Kb] & Eb & ->).
  assert (Hpw : pwe a1 = pwe b1) by congruence.
  assert (Aab : alike a1 b1) by (split; congruence).
  assert (Aba : alike b1 a1) by (split; congruence).
  assert (Sa : element_sizes a1) by (split; [rewrite Ia|rewrite Ka]; done).
  assert (Sb : element_sizes b1)
    by (split; [rewrite Ib, <- Hid|rewrite Kb, <- Hak]; done).
  pose proof (elements_accepted _ _ _ Sb Aab Eb) as Hacca.
  pose proof (elements_accepted _ _ _ Sa Aba Ea) as Haccb.
  destruct (commit_accepted a1 b1 r m r' m' eb Ca Cb Hpw Hzb Hne Hacca) as (key & Hkey & _ & _).
  assert (Hkey' : agreed (pwe b1) r' m' r m = Ok key) by (by rewrite agreed_sym, <- Hpw).
  destruct (one_end a1 b1 r m r' m' eb (commit_status b) key Ca Cb Hpw Hzb Hne Hacca
              (commit_status_ok b) Hkey)
    as (a2 & a3 & A2 & A3 & Ac & Ak & Ap & Ai).
  destruct (one_end b1 a1 r' m' r m ea (commit_status a) key Cb Ca (eq_sym Hpw) Hza ltac:(congruence) Haccb
              (commit_status_ok a) Hkey') as (b2 & b3 & B2 & B3 & Bc & Bk & Bp & Bi).
  rewrite Z.add_comm in Bi. do 9 eexists.
  split; [rewrite receive_commit; exact A2|]. split; [rewrite receive_commit; exact B2|].
  split; [exact A3|]. split; [exact B3|]. eauto 10.
Qed.

(** A commit that is reflected is refused. Our own commit frame sent back to us - elements
    included, whatever they are - ends in the error for reflected commits and changes
    nothing: no key is derived from it. *)
Theorem sae_reflection_refused rng s s1 f :
  scalars rng -> initial s -> build_init_auth_msg rng s = (s1, Ok f) -> scalar s1 <> 0 ->
  process_sae_frame 1 0 (drop 4 f) s1
  = (s1, Err (WifiError.new WifiError.SaeFailed "peer commit reflects our own commit")).
Proof using All.
  intros Hr Hi Hb Hz.
  destruct (init_committed _ _ _ _ Hr Hi Hb) as (r & m & els & C & _ & _ & ->).
  destruct C as [Hrr Hm Hp _ Hs Hsb Heb Hc _].
  pose proof (elem_not_identity _ m Hp Hm) as He. destruct (point_octets _ He) as [Hl64 Hproj].
  assert (Hl32 : length (own_scalar_bytes s1) = 32%nat)
    by (rewrite Hsb; unfold scalar_to_array; by rewrite length_to_be).
  change (drop 4 (to_le16 1 ++ to_le16 (if is_h2e s then SAE_STATUS_H2E else 0) ++ ?x)) with x.
  rewrite commit_frame by (by left || done || by rewrite Heb).
  unfold process_commit_with_elements, mbind at 1, st_bind at 1. rewrite (st_bind_ok _ _ s1 s1 s1) by done.
  rewrite Hsb, scalar_octets, <- Hsb by by apply (scalar_range (r + m)). rewrite st_bind_lift.
  rewrite Heb, Hproj, (not_identity _ He), <- Heb, !take_ge by (rewrite ?Hl32, ?Heb; lia).
  by rewrite !bool_decide_true.
Qed.

(** ** Confirm *)

(** The Confirm frame that [s] accepts. *)
Definition verifies (s : SaeAuth) (payload : list Z) (sc : Z) : Prop :=
  exists b0 b1 rest k ps pe key,
    payload = b0 :: b1 :: rest /\ sc = from_le16 b0 b1 /\ (32 <= length rest)%nat
    /\ kck s = Some k /\ peer_scalar s = Some ps /\ peer_elem s = Some pe /\ pmk s = Some key
    /\ (forall last, peer_send_confirm s = Some last -> last < sc)
    /\ take 32 rest = sae_confirm k sc (scalar_to_array ps) (point_to_x_y pe)
                        (own_scalar_bytes s) (own_elem_bytes s).

Lemma process_confirm_verifies payload s s' key :
  confirmed s = false -> process_confirm payload s = (s', Ok key) ->
  exists sc, verifies s payload sc /\ s' = put_confirmed sc s.
Proof using Type.
  intros Hc Hp. unfold process_confirm in Hp. rewrite (st_bind_ok _ _ s s s) in Hp by done.
  destruct (kck s) as [k|] eqn:Hk; [|done]. cbn [ok_or] in Hp. rewrite st_bind_lift in Hp.
  destruct (peer_scalar s) as [ps|] eqn:Hps; [|done]. cbn [ok_or] in Hp. rewrite st_bind_lift in Hp.
  destruct (peer_elem s) as [pe|] eqn:Hpe; [|done]. cbn [ok_or] in Hp. rewrite st_bind_lift in Hp.
  destruct (Nat.ltb_spec (length payload) 34) as [|Hlen]; [done|].
  destruct payload as [|b0 [|b1 rest]]; [cbn in Hlen; lia..|].
  cbn [idx lookup list_lookup] in Hp. rewrite !st_bind_lift in Hp. cbv zeta in Hp.
  destruct (from_option _ _ (peer_send_confirm s)) eqn:Hold; [by rewrite Hc in Hp|].
  rewrite slice_in in Hp by lia. rewrite st_bind_lift in Hp.
  case_bool_decide as Hh; [|done]. cbn [negb] in Hp.
  destruct (pmk s) as [key'|] eqn:Hpmk; [|done]. cbn [ok_or] in Hp.
  rewrite st_bind_lift, st_bind_modify in Hp. injection Hp as <- <-.
  exists (from_le16 b0 b1). split; [|done].
  exists b0, b1, rest, k, ps, pe, key'. cbn [length] in Hlen.
  split_and!; try done; [lia|]. intros last Hl. rewrite Hl in Hold. cbn in Hold. lia.
Qed.

Lemma verifies_process payload s sc :
  verifies s payload sc -> exists key, process_confirm payload s = (put_confirmed sc s, Ok key).
Proof using Type.
  intros (b0 & b1 & rest & k & ps & pe & key & -> & -> & Hlen & Hk & Hps & Hpe & Hpmk & Hinc & Hh).
  exists key. unfold process_confirm. rewrite (st_bind_ok _ _ s s s) by done.
  rewrite Hk, Hps, Hpe. cbn [ok_or]. rewrite !st_bind_lift.
  replace (_ <? 34)%nat with false by (symmetry; apply Nat.ltb_ge; cbn [length]; lia).
  cbn [idx lookup list_lookup]. rewrite !st_bind_lift. cbv zeta.
  replace (from_option _ _ (peer_send_confirm s)) with false.
  2:{ destruct (peer_send_confirm s) as [last|]; [|done]. cbn. specialize (Hinc last eq_refl). lia. }
  rewrite slice_in by (cbn [length]; lia). rewrite st_bind_lift.
  change (take (34 - 2) (drop 2 (b0 :: b1 :: rest))) with (take 32 rest).
  rewrite Hh, bool_decide_true by done. cbn [negb]. rewrite Hpmk. cbn [ok_or].
  by rewrite st_bind_lift, st_bind_modify.
Qed.

Ltac inv_bind H :=
  apply st_bind_inv in H as [(? & ? & _ & H)|[(? & _ & H)|[[_ H]|[_ H]]]]; [|done..].

(** C29: authentication completes exactly on a verified Confirm. A frame makes SAE complete
    if and only if it is not complete yet and the frame is a Confirm (transaction 2, status
    0) whose Send-Confirm is larger than the last one accepted and whose hash is the one
    over the KCK and both commits; the state then only records the counter and that the
    peer is confirmed. *)
Theorem sae_complete_iff seq status payload s s' :
  process_sae_frame seq status payload s = (s', Ok Complete)
  <-> confirmed s = false /\ seq = 2 /\ status = 0
      /\ exists sc, verifies s payload sc /\ s' = put_confirmed sc s.
Proof using Type.
  split.
  - unfold process_sae_frame. rewrite (st_bind_ok _ _ s s s) by done.
    destruct (confirmed s) eqn:Hc; [done|]. cbv zeta. intros Hp.
    destruct ((seq =? 1) && (status =? SAE_STATUS_ANTI_CLOGGING)); [by inv_bind Hp|].
    destruct ((seq =? 1) && (status =? SAE_STATUS_UNKNOWN_PASSWORD_IDENTIFIER)); [done|].
    destruct ((seq =? 2) && (status =? 15)); [done|]. destruct ((seq =? 1) && (status =? 127)); [done|].
    destruct ((seq =? 1) && is_temporary_reject_status _); [done|].
    destruct (negb (if seq =? 1 then _ else _)) eqn:Hst;
      [by destruct ((seq =? 1) && is_h2e s && hnp_fallback s)|].
    destruct (Z.eqb_spec seq 1) as [|H1].
    { destruct (_ <? 98)%nat; [done|]. do 2 inv_bind Hp.
      destruct (negb (from_le16 _ _ =? _)); [done|].
      do 4 inv_bind Hp. done. }
    destruct (Z.eqb_spec seq 2) as [->|]; [|done].
    apply st_bind_inv in Hp as [(s1 & key & Hpc & Hp)|[(? & _ & Hp)|[[_ Hp]|[_ Hp]]]]; try done.
    injection Hp as <-. apply negb_false_iff in Hst.
    split; [done|]. split; [done|]. split; [lia|]. by eapply process_confirm_verifies.
  - intros (Hc & -> & -> & sc & Hv & ->).
    destruct (verifies_process _ _ _ Hv) as [key Hkey].
    unfold process_sae_frame. rewrite (st_bind_ok _ _ s s s) by done. rewrite Hc.
    change (2 =? 1) with false. change (0 =? 15) with false. cbn [andb negb].
    change (2 =? 2) with true. change (0 =? 0) with true. cbn [andb negb].
    by rewrite (st_bind_ok _ _ _ _ _ Hkey).
Qed.

(** ** Hash to element *)

Lemma u64_mac mac : u64_from_mac mac = from_be mac.
Proof using Type. done. Qed.

Lemma max_min_sym a b :
  length a = 6%nat -> length b = 6%nat -> bytes a -> bytes b -> max_min a b = max_min b a.
Proof using Type.
  intros Ha Hb Ba Bb. unfold max_min.
  rewrite (u64_mac a), (u64_mac b).
  destruct (Z.ltb_spec (from_be b) (from_be a)) as [H1|H1],
    (Z.ltb_spec (from_be a) (from_be b)) as [H2|H2]; try done; [lia|].
  assert (Hab : from_be a = from_be b) by lia.
  rewrite <- (to_be_from_be a Ba), <- (to_be_from_be b Bb). by rewrite Ha, Hb, Hab.
Qed.

(** The scalar of [derive_pwe_from_pt]. *)
Definition pwe_scalar (mac_sta mac_ap : list Z) : Z :=
  from_be (hkdf_extract_sha256 (replicate 32 0) (max_min mac_sta mac_ap)) mod (order - 1) + 1.

(** The password element of hash-to-element. For any password, SSID, identifier and
    pair of MAC addresses the derivation yields the point [val * PT], [val] between 1 and
    the group order less one and the point not the identity (so the checks for a scalar out
    of range and for an identity PWE never fire), unless PT itself is the identity; and
    both stations compute the same element although each puts its own address first. *)
Theorem sae_h2e_element password ssid a b id :
  length a = 6%nat -> length b = 6%nat -> bytes a -> bytes b ->
  match derive_pt_ecc ssid password id with
  | Ok pt =>
      compute_pwe_h2e_with_id password ssid a b id = Ok (point_mul pt (pwe_scalar a b))
      /\ 1 <= pwe_scalar a b < order /\ point_mul pt (pwe_scalar a b) <> IDENTITY
  | e => compute_pwe_h2e_with_id password ssid a b id = e
  end
  /\ compute_pwe_h2e_with_id password ssid b a id
     = compute_pwe_h2e_with_id password ssid a b id.
Proof using HPL.
  intros Ha Hb Ba Bb. pose proof order_range as [Ho _].
  pose proof (max_min_sym b a Hb Ha Bb Ba) as Hsym.
  assert (Hv : 1 <= pwe_scalar a b < order).
  { unfold pwe_scalar. assert (Ho1 : 0 < order - 1) by lia.
    pose proof (Z.mod_pos_bound
      (from_be (hkdf_extract_sha256 (replicate 32 0) (max_min a b))) _ Ho1). lia. }
  unfold compute_pwe_h2e_with_id, derive_pwe_from_pt. rewrite Hsym. split; [|done].
  destruct (derive_pt_ecc ssid password id) as [pt|e| |] eqn:Hpt; try done.
  fold (pwe_scalar a b). cbn [mbind outcome_bind].
  replace (order <=? pwe_scalar a b) with false by (clear -Hv; lia).
  assert (Hne : point_mul pt (pwe_scalar a b) <> IDENTITY).
  { rewrite mul_identity by (clear -Hv; lia). intros [Hz|Hi]; [clear -Hv Hz; lia|].
    unfold derive_pt_ecc in Hpt. destruct (is_identity _) eqn:Hid; [done|].
    injection Hpt as <-. rewrite Hi in Hid. by rewrite (proj2 (is_identity_true _) eq_refl) in Hid. }
  by rewrite (not_identity _ Hne).
Qed.

End facts.

(** ** Hunting and pecking *)

Section hunting.
Context `{HW : WifiCryptoLib} `{HP : P256} `{HC : !P256Curve} `{HWL : !WifiCryptoLaws}
  `{HWB : !WifiCryptoBytes}.

(** The seed and the candidate of a counter. *)
Definition hnp_seed (addrs password : list Z) (counter : Z) : list Z :=
  hkdf_extract_sha256 addrs (password ++ [as_u8 counter]).

Definition hnp_x (addrs password : list Z) (counter x : Z) : Prop :=
  exists value, kdf (hnp_seed addrs password counter) "SAE Hunting and Pecking" P256_PRIME 32
                = Ok value /\ x = from_be value.

(** The candidate is not a coordinate of the curve. *)
Definition hnp_rejected (addrs password : list Z) (counter : Z) : Prop :=
  exists x, hnp_x addrs password counter x /\ (prime <= x \/ field_sqrt (y_sqr x) = None).

(** The point of the standard for the candidate: on the curve, with the parity of
    the seed. *)
Definition hnp_point (addrs password : list Z) (counter : Z) (p : Point) : Prop :=
  exists x y, hnp_x addrs password counter x
    /\ 0 <= x < prime /\ 0 <= y < prime
    /\ affine_xy p = Some (to_be 32 x, to_be 32 y)
    /\ y ^ 2 mod prime = (x ^ 3 - 3 * x + curve_b) mod prime
    /\ (y <> 0 -> exists octet, last (hnp_seed addrs password counter) = Some octet
                               /\ Z.odd y = Z.odd octet).

Lemma kdf_bytes key label context n out :
  kdf key label context n = Ok out -> (n <= 32 * 2000)%nat -> bytes out.
Proof using All.
  intros Hk Hn. destruct (kdf_spec key label context n Hn) as (m & _ & Hk').
  rewrite Hk in Hk'. injection Hk' as ->. apply Forall_take. unfold kdf_blocks.
  apply Forall_concat. apply Forall_fmap, Forall_forall. intros i _. apply w_hmac_sha256_bytes.
Qed.

Lemma prime_value : prime = 0xffffffff00000001000000000000000000000000ffffffffffffffffffffffff.
Proof using Type. by vm_compute. Qed.

Lemma neg_square y : (prime - y) ^ 2 mod prime = y ^ 2 mod prime.
Proof using Type.
  replace ((prime - y) ^ 2) with (y ^ 2 + (prime - 2 * y) * prime) by ring.
  by rewrite Z_mod_plus_full.
Qed.

(** The square root with the parity of the seed. *)
Lemma root_parity y0 octet :
  0 <= y0 < prime ->
  let y := if Z.land y0 1 =? Z.land octet 1 then y0 else (- y0) mod prime in
  0 <= y < prime /\ y ^ 2 mod prime = y0 ^ 2 mod prime /\ (y <> 0 -> Z.odd y = Z.odd octet).
Proof using Type.
  intros Hy0. cbv zeta.
  assert (Hland : forall z, Z.land z 1 = if Z.odd z then 1 else 0).
  { intros z. change 1 with (Z.ones 1) at 1. rewrite Z.land_ones by done. apply Zmod_odd. }
  rewrite !Hland. assert (Hp : 0 < prime /\ Z.odd prime = true) by (rewrite prime_value; done).
  destruct (Z.eqb_spec (if Z.odd y0 then 1 else 0) (if Z.odd octet then 1 else 0)) as [He|He].
  - split; [done|]. split; [done|]. intros _. by destruct (Z.odd y0), (Z.odd octet).
  - destruct (decide (y0 = 0)) as [->|Hz]; [by rewrite Z.mod_0_l by lia|].
    assert (Hneg : (- y0) mod prime = prime - y0).
    { symmetry. apply (Z.mod_unique _ _ (-1)); lia. }
    rewrite Hneg. split; [lia|]. split; [apply neg_square|]. intros _.
    rewrite Z.odd_sub, (proj2 Hp). by destruct (Z.odd y0), (Z.odd octet).
Qed.

Lemma seed_octet addrs password counter :
  exists octet, idx (E := WifiError.t) (hnp_seed addrs password counter) 31 = Ok octet
    /\ last (hnp_seed addrs password counter) = Some octet.
Proof using HWL.
  assert (Hl : length (hnp_seed addrs password counter) = 32%nat) by apply w_hmac_sha256_len.
  destruct (lookup_lt_is_Some_2 (hnp_seed addrs password counter) 31 ltac:(lia)) as [o Ho].
  exists o. split; [by apply idx_ok|]. by rewrite last_lookup, Hl.
Qed.

Lemma candidate_spec addrs password counter :
  match hnp_candidate addrs password counter with
  | Ok (Some p) => hnp_point addrs password counter p
  | Ok None => hnp_rejected addrs password counter
  | _ => False
  end.
Proof using All.
  unfold hnp_candidate. fold (hnp_seed addrs password counter).
  destruct (kdf_len (hnp_seed addrs password counter) "SAE Hunting and Pecking" P256_PRIME
              SAE_FIELD_LEN) as (value & Hv & Hlen); [unfold SAE_FIELD_LEN; lia|].
  pose proof (kdf_bytes _ _ _ _ _ Hv ltac:(unfold SAE_FIELD_LEN; lia)) as Hb.
  rewrite Hv. cbn [mbind outcome_bind]. set (x := from_be value).
  assert (Hx : hnp_x addrs password counter x) by (by exists value).
  pose proof (from_be_bound value Hb) as Hx0. fold x in Hx0.
  destruct (Z.leb_spec prime x) as [Hge|Hlt]; [exists x; auto|].
  assert (Hp : 0 < prime < 2 ^ 256) by (rewrite prime_value; done).
  destruct (field_sqrt (y_sqr x)) as [y0|] eqn:Hsq; [|exists x; auto].
  destruct (field_sqrt_some (y_sqr x) y0) as [Hy0 Hsq2]; [by apply Z.mod_pos_bound|done|].
  destruct (seed_octet addrs password counter) as (octet & -> & Hlast).
  cbn [mbind outcome_bind]. destruct (root_parity y0 octet Hy0) as (Hy & Hyy & Hpar).
  set (y := if _ =? _ then y0 else _) in *.
  assert (Hfx : from_be (to_be 32 x) = x) by (apply from_be_to_be_small; split; [|change (8 * Z.of_nat 32) with 256]; lia).
  assert (Hfy : from_be (to_be 32 y) = y) by (apply from_be_to_be_small; split; [|change (8 * Z.of_nat 32) with 256]; lia).
  assert (Hon : is_Some (from_affine (to_be 32 x) (to_be 32 y))).
  { apply from_affine_curve; [by rewrite length_to_be..|]. rewrite Hfx, Hfy, Hyy.
    split; [lia|]. split; [lia|]. exact Hsq2. }
  destruct Hon as [p Hon].
  assert (Hpe : projective_from_elem (to_be 32 x ++ to_be 32 y) = p).
  { unfold projective_from_elem. rewrite length_app, !length_to_be. cbn [Nat.ltb Nat.leb Nat.add].
    rewrite take_app_length' by (by rewrite length_to_be).
    rewrite drop_app_length' by (by rewrite length_to_be).
    rewrite take_ge by (rewrite length_to_be; lia). by rewrite Hon. }
  rewrite Hpe, (from_affine_identity _ _ _ Hon). exists x, y.
  split; [done|]. split; [lia|]. split; [done|].
  split; [by apply from_affine_xy|]. split; [by rewrite Hyy|]. intros Hz. exists octet. auto.
Qed.

Lemma hnp_loop_spec n : forall counter addrs password,
  match hnp_loop n addrs password counter with
  | Ok p => exists k, counter <= k < counter + Z.of_nat n /\ hnp_point addrs password k p
                      /\ forall j, counter <= j < k -> hnp_rejected addrs password j
  | Err _ => forall j, counter <= j < counter + Z.of_nat n -> hnp_rejected addrs password j
  | _ => False
  end.
Proof using All.
  induction n as [|n IH]; intros counter addrs password; [cbn; intros j; lia|].
  cbn [hnp_loop]. pose proof (candidate_spec addrs password counter) as Hc.
  destruct (hnp_candidate addrs password counter) as [[p|]|e| |]; try done; cbn [mbind outcome_bind].
  - exists counter. split; [lia|]. split; [done|]. intros j; lia.
  - specialize (IH (counter + 1) addrs password).
    destruct (hnp_loop n addrs password (counter + 1)) as [p|e| |]; try done.
    + destruct IH as (k & Hk & Hp & Hrej). exists k. split; [lia|]. split; [done|].
      intros j Hj. destruct (decide (j = counter)) as [->|]; [done|]. apply Hrej. lia.
    + intros j Hj. destruct (decide (j = counter)) as [->|]; [done|]. apply IH. lia.
Qed.

(** Hunting and pecking finds the point of the standard. The loop returns the point of
    the first counter from 1 to 200 whose candidate is a coordinate of the curve: the
    candidate as x, and a y with y^2 = x^3 - 3x + b (mod p) that is odd exactly when the
    last octet of the seed is; it fails only when all 200 candidates are rejected, and
    never panics. *)
Theorem sae_hnp_element password mac_sta mac_ap :
  match compute_pwe_hnp password mac_sta mac_ap with
  | Ok p => exists k, 1 <= k <= 200 /\ hnp_point (max_min mac_sta mac_ap) password k p
                      /\ forall j, 1 <= j < k -> hnp_rejected (max_min mac_sta mac_ap) password j
  | Err _ => forall j, 1 <= j <= 200 -> hnp_rejected (max_min mac_sta mac_ap) password j
  | _ => False
  end.
Proof using All.
  pose proof (hnp_loop_spec HNP_MAX_ITER 1 (max_min mac_sta mac_ap) password) as Hl.
  unfold compute_pwe_hnp. destruct (hnp_loop _ _ _ _) as [p|e| |]; try done.
  - destruct Hl as (k & Hk & Hp & Hrej). exists k. split; [unfold HNP_MAX_ITER in Hk; lia|done].
  - intros j Hj. apply Hl. unfold HNP_MAX_ITER. lia.
Qed.

End hunting.
(** ** Instances for the witnesses *)

#[local] Instance toy_hmac : WifiCryptoLib := {|
  w_hmac_sha256 k d := replicate 32 ((7 + foldr Z.add 0 d + 3 * foldr Z.add 0 k) mod 256);
  w_hmac_sha1 k d := replicate 20 0;
  w_sha256 d := replicate 32 0;
  w_cmac k d := replicate 16 0;
  w_kw_unwrap k d := inr [];
|}.

#[local] Instance toy_hmac_laws : WifiCryptoLaws.
Proof. by split. Qed.

#[local] Instance toy_hmac_bytes : WifiCryptoBytes.
Proof. split. intros k d. apply Forall_replicate. apply Z.mod_pos_bound. lia. Qed.

(** A group of three elements. *)
Inductive g3 := G0 | G1 | G2.

Definition g3_of (x : Z) : g3 :=
  match x mod 3 with 0 => G0 | 1 => G1 | _ => G2 end.
Definition g3_to (g : g3) : Z :=
  match g with G0 => 0 | G1 => 1 | G2 => 2 end.

Lemma g3_of_to g : g3_of (g3_to g) = g.
Proof. by destruct g. Qed.

Lemma g3_of_mod x : g3_of (x mod 3) = g3_of x.
Proof. unfold g3_of. by rewrite Z.mod_mod. Qed.

Lemma g3_to_of x : g3_to (g3_of x) = x mod 3.
Proof.
  unfold g3_of. pose proof (Z.mod_pos_bound x 3 ltac:(lia)).
  destruct (x mod 3) as [|[[]|[]|]|]; cbn; lia.
Qed.

#[local] Instance toy_group : P256 := {|
  Point := g3;
  IDENTITY := G0;
  point_add p q := g3_of (g3_to p + g3_to q);
  point_neg p := g3_of (- g3_to p);
  point_mul p a := g3_of (g3_to p * a);
  is_identity p := match p with G0 => true | _ => false end;
  order := 3;
  affine_xy p := match p with G0 => None | _ => Some (to_be 32 5, to_be 32 (g3_to p)) end;
  from_affine x y := if bool_decide (x = to_be 32 5) && bool_decide (y = to_be 32 1) then Some G1
                     else if bool_decide (x = to_be 32 5) && bool_decide (y = to_be 32 2)
                     then Some G2 else None;
  field_sqrt a := None;
  map_to_curve u := G1;
  hkdf_expand k i n := replicate n 0;
|}.

#[local] Instance toy_group_laws : P256Laws.
Proof.
  split; cbn -[to_be Z.modulo].
  - lia.
  - intros p q. f_equal. lia.
  - intros p q r. rewrite !g3_to_of, <- (g3_of_mod (_ + _)), <- (g3_of_mod (_ mod _ + _)).
    rewrite Zplus_mod_idemp_r, Zplus_mod_idemp_l, !g3_of_mod. f_equal. lia.
  - intros p. by rewrite Z.add_0_r, g3_of_to.
  - by intros [].
  - intros p a b. rewrite !g3_to_of, <- (g3_of_mod (_ * _)), <- (g3_of_mod (_ mod _ + _)).
    rewrite Zmult_mod_idemp_r, <- Zplus_mod. f_equal. f_equal. lia.
  - intros p a b. rewrite g3_to_of, <- (g3_of_mod (_ mod _ * _)), <- (g3_of_mod (g3_to p * _)).
    rewrite Zmult_mod_idemp_l, Zmult_mod_idemp_r. f_equal. f_equal. lia.
  - intros p a Ha. assert (a = 0 \/ a = 1 \/ a = 2) as [->|[->| ->]] by lia; destruct p;
      vm_compute; split; intros; try done; auto; by destruct_or?.
  - by intros [].
  - by intros [].
  - intros [] x y [= <- <-]; done.
  - intros [] x y [= <- <-]; by vm_compute.
  - intros k i n. by rewrite length_replicate.
Qed.

(** Two ends with the element [G1], and their commits. *)
Definition toy_end : SaeAuth :=
  mkSaeAuth G1 0 0 G0 None None None None None false 0 None true false
    (replicate 32 0) (replicate 64 0) (Some (as_bytes "corp")) (Some [0; 15; 172; 24]).

Definition toy_commit (x : Z) : SaeAuth * outcome WifiError.t (list Z) :=
  build_init_auth_msg [inr x; inr x] toy_end.

Lemma toy_scalars x : 0 <= x < 3 -> scalars [inr x; inr x].
Proof. intros Hx y Hy. by apply elem_of_cons in Hy as [[= ->]|[[= ->]|[]%elem_of_nil]%elem_of_cons]. Qed.

Lemma toy_initial : initial toy_end.
Proof. by split. Qed.

Definition ok_value {E A} (d : A) (r : outcome E A) : A :=
  match r with Ok x => x | _ => d end.

Definition toy_frame (x : Z) : list Z := ok_value [] (toy_commit x).2.

Definition is_ok {E A} (r : outcome E A) : bool :=
  match r with Ok _ => true | _ => false end.

Lemma toy_commit_ok x :
  is_ok (toy_commit x).2 = true ->
  toy_commit x = ((toy_commit x).1, Ok (toy_frame x)).
Proof. unfold toy_frame. destruct (toy_commit x) as [a r]. cbn. by destruct r. Qed.

Lemma toy_commit_1 : exists a f,
  toy_commit 1 = (a, Ok f) /\ scalar a = 2 /\ own_scalar_bytes a = to_be 32 2.
Proof.
  exists (toy_commit 1).1, (toy_frame 1). refine (conj _ (conj _ _)).
  - apply toy_commit_ok. vm_compute. exact eq_refl.
  - vm_compute. exact eq_refl.
  - vm_compute. exact eq_refl.
Qed.

Lemma toy_commit_2 : exists a f,
  toy_commit 2 = (a, Ok f) /\ scalar a = 1 /\ own_scalar_bytes a = to_be 32 1.
Proof.
  exists (toy_commit 2).1, (toy_frame 2). refine (conj _ (conj _ _)).
  - apply toy_commit_ok. vm_compute. exact eq_refl.
  - vm_compute. exact eq_refl.
  - vm_compute. exact eq_refl.
Qed.

Lemma sae_exchange_agrees_witness :
  exists a1 b1 a2 b2 ca cb fa fb,
    toy_commit 1 = (a1, Ok fa) /\ toy_commit 2 = (b1, Ok fb)
    /\ receive fb a1 = (a2, Ok (SendConfirm ca))
    /\ receive fa b1 = (b2, Ok (SendConfirm cb)).
Proof.
  destruct toy_commit_1 as (a1 & fa & Ha & Hs1 & Hb1).
  destruct toy_commit_2 as (b1 & fb & Hb & Hs2 & Hb2).
  destruct (sae_exchange_agrees [inr 1; inr 1] [inr 2; inr 2] toy_end toy_end a1 b1 fa fb)
    as (ca & cb & a2 & b2 & a3 & b3 & k & p & i & HA & HB & _).
  - apply toy_scalars. lia.
  - apply toy_scalars. lia.
  - apply toy_initial.
  - apply toy_initial.
  - by split.
  - split; intros x [= <-]; cbn; lia.
  - exact Ha.
  - exact Hb.
  - by rewrite Hs1.
  - by rewrite Hs2.
  - rewrite Hb1, Hb2. by intros [= ?].
  - exists a1, b1, a2, b2, ca, cb, fa, fb. exact (conj Ha (conj Hb (conj HA HB))).
Defined.

Lemma sae_reflection_refused_witness :
  exists a1 fa, toy_commit 1 = (a1, Ok fa)
    /\ process_sae_frame 1 0 (drop 4 fa) a1
       = (a1, Err (WifiError.new WifiError.SaeFailed "peer commit reflects our own commit")).
Proof.
  destruct toy_commit_1 as (a1 & fa & Ha & Hs1 & _). exists a1, fa. split; [exact Ha|].
  apply (sae_reflection_refused [inr 1; inr 1] toy_end).
  - apply toy_scalars. lia.
  - apply toy_initial.
  - exact Ha.
  - by rewrite Hs1.
Defined.

Lemma sae_h2e_element_witness :
  compute_pwe_h2e_with_id (as_bytes "pw") (as_bytes "ssid") (repeat 1 6) (repeat 2 6) None
  = compute_pwe_h2e_with_id (as_bytes "pw") (as_bytes "ssid") (repeat 2 6) (repeat 1 6) None.
Proof.
  apply (sae_h2e_element (as_bytes "pw") (as_bytes "ssid") (repeat 2 6) (repeat 1 6) None);
    [done|done|apply (bool_decide_unpack _); by vm_compute..].
Defined.

(** The points of the curve, for the derivation by hunting. *)
Definition on_curve (x y : list Z) : bool :=
  (from_be x <? prime) && (from_be y <? prime)
  && (from_be y ^ 2 mod prime =? (from_be x ^ 3 - 3 * from_be x + curve_b) mod prime).

Definition checked (a r : Z) : option Z :=
  if (0 <=? r) && (r <? prime) && (r ^ 2 mod prime =? a) then Some r else None.

Definition toy_sqrt (a : Z) : option Z := checked a (Zpow_mod a ((prime + 1) / 4) prime).

Lemma checked_root a r0 r : checked a r0 = Some r -> 0 <= r < prime /\ r ^ 2 mod prime = a.
Proof.
  unfold checked. destruct (_ && _ && _) eqn:Hc; [|discriminate].
  intros H. apply Some_inj in H. subst r0.
  rewrite !andb_true_iff, Z.leb_le, Z.ltb_lt, Z.eqb_eq in Hc. tauto.
Qed.

Definition toy_curve : P256 := {|
  Point := option (list Z * list Z);
  IDENTITY := None;
  point_add p q := None;
  point_neg p := p;
  point_mul p a := p;
  is_identity p := bool_decide (p = None);
  order := 3;
  affine_xy p := p;
  from_affine x y := if on_curve x y then Some (Some (x, y)) else None;
  field_sqrt := toy_sqrt;
  map_to_curve u := None;
  hkdf_expand k i n := replicate n 0;
|}.

Lemma on_curve_iff x y :
  on_curve x y = true <->
  from_be x < prime /\ from_be y < prime
  /\ from_be y ^ 2 mod prime = (from_be x ^ 3 - 3 * from_be x + curve_b) mod prime.
Proof. unfold on_curve. rewrite !andb_true_iff, !Z.ltb_lt, Z.eqb_eq. tauto. Qed.

Lemma toy_curve_laws : @P256Curve toy_curve.
Proof.
  split; cbn -[Z.pow].
  - done.
  - intros p x y. by destruct (on_curve x y); intros [= <-].
  - intros p x y. by destruct (on_curve x y); intros [= <-].
  - intros x y _ _. rewrite <- on_curve_iff.
    destruct (on_curve x y); split; intros H; [done|by eexists|by destruct H|done].
  - intros a r Ha. apply checked_root.
Qed.

Lemma sae_hnp_element_witness :
  exists p, compute_pwe_hnp (H0 := toy_curve) (as_bytes "password") (repeat 1 6) (repeat 2 6) = Ok p
    /\ exists k, 1 <= k <= 200
         /\ hnp_point (HP := toy_curve) (max_min (repeat 1 6) (repeat 2 6)) (as_bytes "password") k p.
Proof.
  pose proof (sae_hnp_element (HP := toy_curve) (HC := toy_curve_laws) (as_bytes "password")
                (repeat 1 6) (repeat 2 6)) as Hp.
  assert (is_ok (compute_pwe_hnp (H0 := toy_curve) (as_bytes "password") (repeat 1 6) (repeat 2 6))
          = true) as Hc by (vm_compute; exact eq_refl).
  revert Hc Hp. generalize (compute_pwe_hnp (H0 := toy_curve) (as_bytes "password") (repeat 1 6)
                              (repeat 2 6)).
  intros [p|e| |] Hc Hp; [|discriminate Hc..].
  destruct Hp as (k & Hk & Hp & _). exists p.
  exact (conj eq_refl (ex_intro _ k (conj Hk Hp))).
Defined.

End SaeFacts.
