(* ===== verification/Owe.v ===== *)
(** * OWE: opportunistic wireless encryption, and the walk over elements

    [src/src/wifi/crypto/owe.rs].  [Class ElementBuffer] is
    [Ieee80211ElementBuffer] of the [wl-nl80211] crate: the split of a buffer
    into its first element and its header; [ElementBufferLaws] is the element
    format.  [Class OweCurve] adds to the curve of [Sae.v] what a Diffie-Hellman
    exchange uses.  [Module OweFacts]: the walk finds the first complete element
    with the extension and always ends, and a client agrees with an access point
    that follows RFC 8110 although only x-coordinates are exchanged. *)

From stdpp Require Import pretty.
From S2P Require Import Prelude Errors Security WifiKdf Sae.

(** ** Elements *)

Class ElementBuffer := {
  ElementHeader : Type;
  (** [Ieee80211ElementBuffer::split]: header and body, none when the buffer does
      not hold a complete element. *)
  split_element : list Z -> option (ElementHeader * list Z);
  element_id : ElementHeader -> Z;
  element_id_ext : ElementHeader -> list Z -> option Z;
  buffer_len : ElementHeader -> nat;
}.

(** Identifier, length, that many octets; 255 has an extension first. *)
Class ElementBufferLaws `{ElementBuffer} : Prop := {
  split_complete id l body rest :
    fits 8 l -> length body = usize l ->
    exists h, split_element (id :: l :: body ++ rest) = Some (h, body)
      /\ element_id h = id /\ buffer_len h = (2 + length body)%nat;
  split_incomplete ies :
    match ies with id :: l :: rest => (length rest < usize l)%nat | _ => True end ->
    split_element ies = None;
  ext_of h body :
    element_id_ext h body = if element_id h =? 255 then head body else None;
}.

Section elements.
Context `{ElementBuffer}.

Inductive visit (A : Type) := Next (acc : A) | Stop (acc : A).
Arguments Next {A}. Arguments Stop {A}.

(** [while let Ok((header, body)) = split(&ies[pos..])], with the state [A] of
    the loop; the body sees [pos]. *)
Fixpoint walk {A} (fuel : nat) (f : nat -> ElementHeader -> list Z -> A -> outcome WifiError.t (visit A))
  (ies : list Z) (pos : nat) (acc : A) : outcome WifiError.t A :=
  match fuel with
  | O => Diverge
  | S fuel =>
      rest ← slice_from ies pos;
      match split_element rest with
      | None => Ok acc
      | Some (h, body) =>
          v ← f pos h body acc;
          match v with
          | Stop acc => Ok acc
          | Next acc => walk fuel f ies (pos + buffer_len h) acc
          end
      end
  end.

(** An element has at least two octets. *)
Definition walk_fuel (ies : list Z) : nat := S (length ies).

Definition OWE_DH_EXTENSION_ID : Z := 32.

Definition owe_visit (pos : nat) (header : ElementHeader) (body : list Z) (acc : option (list Z))
  : outcome WifiError.t (visit (option (list Z))) :=
  if bool_decide (element_id_ext header body = Some OWE_DH_EXTENSION_ID)
  then data ← slice_from body 1; Ok (Stop (Some data))
  else Ok (Next acc).

Definition find_owe_dh_element (ies : list Z) : outcome WifiError.t (option (list Z)) :=
  walk (walk_fuel ies) owe_visit ies 0 None.

End elements.
Arguments Next {A}. Arguments Stop {A}.

(** ** The exchange *)

Definition GROUP_19 : Z := 19.
Definition P256_COORD_LEN : nat := 32.
Definition P256_PUBKEY_LEN : nat := P256_COORD_LEN.
Definition PMK_LEN : nat := 32.

(** A secret key is a scalar. *)
Class OweCurve `{P256} := {
  GENERATOR : Point;
  (** [PublicKey::from_sec1_bytes] of [0x02 || x], or what it says. *)
  decompress : list Z -> string + Point;
  sha256 : list Z -> list Z;
}.

Class OweCurveLaws `{OweCurve} : Prop := {
  generator_not_identity : GENERATOR <> IDENTITY;
  mul_neg p a : point_mul (point_neg p) a = point_neg (point_mul p a);
  neg_coordinates p x y :
    affine_xy p = Some (x, y) -> exists y', affine_xy (point_neg p) = Some (x, y');
  (** The point with that x-coordinate and an even y. *)
  decompress_x p x y :
    affine_xy p = Some (x, y) -> decompress x = inr p \/ decompress x = inr (point_neg p);
  sha256_len d : length (sha256 d) = 32%nat;
}.

Record OweAuth := mkOweAuth {
  secret : Z;
  our_pubkey_raw : list Z;
  owe_pmk : option (list Z);
  owe_pmkid : option (list Z);
}.

Section owe.
Context `{WifiCryptoLib} `{P256} `{!OweCurve}.

(** The x-coordinate of a point; zeros for the identity, which has none. *)
Definition x_coordinate (p : Point) : list Z :=
  from_option fst (replicate P256_COORD_LEN 0) (affine_xy p).

(** [OweAuth::new] with the generated secret. *)
Definition owe_new (secret : Z) : OweAuth :=
  mkOweAuth secret (x_coordinate (point_mul GENERATOR secret)) None None.

Definition build_dh_element (o : OweAuth) : list Z :=
  let body_len := 1 + 2 + zlen (our_pubkey_raw o) in
  [255; as_u8 body_len; 32] ++ to_le16 GROUP_19 ++ our_pubkey_raw o.

Definition process_ap_dh_element (dh_data : list Z) : st OweAuth WifiError.t unit :=
  o ← get;
  if (length dh_data <? 2 + P256_PUBKEY_LEN)%nat
  then lift (auth_err ("OWE DH element too short: " +:+ pretty (length dh_data) +:+ " bytes")) else
  b0 ← lift (idx dh_data 0);
  b1 ← lift (idx dh_data 1);
  let group := from_le16 b0 b1 in
  if negb (group =? GROUP_19)
  then lift (auth_err ("unsupported OWE group " +:+ pretty group)) else
  ap_pubkey_raw ← lift (slice dh_data 2 (2 + P256_PUBKEY_LEN));
  match decompress ap_pubkey_raw with
  | inl e => lift (auth_err ("invalid OWE AP public key: " +:+ e))
  | inr ap_pubkey =>
      let z := x_coordinate (point_mul ap_pubkey (secret o)) in
      let salt := our_pubkey_raw o ++ ap_pubkey_raw ++ to_le16 GROUP_19 in
      let prk := hkdf_extract_sha256 salt z in
      let pmk := hkdf_expand prk (as_bytes "OWE Key Generation") PMK_LEN in
      let hash := sha256 (our_pubkey_raw o ++ ap_pubkey_raw) in
      modify (fun o => mkOweAuth (secret o) (our_pubkey_raw o) (Some pmk) (owe_pmkid o));;
      pmkid ← lift (slice hash 0 16);
      modify (fun o => mkOweAuth (secret o) (our_pubkey_raw o) (owe_pmk o) (Some pmkid))
  end.

End owe.

Module OweFacts.

(** ** The walk *)

(** The complete elements at the front of a buffer. *)
Fixpoint split_all (fuel : nat) (ies : list Z) : list (Z * list Z) :=
  match fuel, ies with
  | S fuel, id :: l :: rest =>
      if (usize l <=? length rest)%nat
      then (id, take (usize l) rest) :: split_all fuel (drop (usize l) rest) else []
  | _, _ => []
  end.

Definition elements (ies : list Z) : list (Z * list Z) := split_all (length ies) ies.

(** A loop over them. *)
Fixpoint visits {A} (g : nat -> Z -> list Z -> A -> outcome WifiError.t (visit A)) (pos : nat)
  (es : list (Z * list Z)) (acc : A) : outcome WifiError.t A :=
  match es with
  | [] => Ok acc
  | (id, body) :: es =>
      v ← g pos id body acc;
      match v with
      | Stop acc => Ok acc
      | Next acc => visits g (pos + (2 + length body))%nat es acc
      end
  end.

Section walk.
Context `{HE : ElementBuffer} `{HL : !ElementBufferLaws}.

Lemma split_all_fuel fuel : forall fuel' ies,
  (length ies <= fuel)%nat -> (length ies <= fuel')%nat -> split_all fuel ies = split_all fuel' ies.
Proof.
  induction fuel as [|fuel IH]; intros fuel' ies H H'.
  { destruct ies; [|cbn in H; lia]. by destruct fuel'. }
  destruct ies as [|id [|l rest]]; [by destruct fuel'..|].
  destruct fuel' as [|fuel']; [cbn in H'; lia|]. cbn in *.
  destruct (_ <=? _)%nat; [|done]. f_equal. apply IH; rewrite length_drop; lia.
Qed.

Lemma elements_cons id l rest :
  elements (id :: l :: rest)
  = if (usize l <=? length rest)%nat
    then (id, take (usize l) rest) :: elements (drop (usize l) rest) else [].
Proof.
  unfold elements. cbn [length split_all]. destruct (_ <=? _)%nat; [|done].
  f_equal. apply (split_all_fuel (S (length rest))); rewrite length_drop; lia.
Qed.

Lemma walk_spec {A} (f : nat -> ElementHeader -> list Z -> A -> outcome WifiError.t (visit A)) g
    (Hf : forall pos h body acc, f pos h body acc = g pos (element_id h) body acc) ies :
  bytes ies -> forall fuel pos acc,
  (pos <= length ies)%nat -> (length ies - pos < fuel)%nat ->
  walk fuel f ies pos acc = visits g pos (elements (drop pos ies)) acc.
Proof using Type*.
  intros Hb fuel. induction fuel as [|fuel IH]; intros pos acc Hp Hn; [lia|].
  cbn [walk]. rewrite slice_from_in by lia. cbn [mbind outcome_bind].
  assert (bytes (drop pos ies)) as Hd by by apply Forall_drop.
  assert (length (drop pos ies) = length ies - pos)%nat as Hlen by apply length_drop.
  remember (drop pos ies) as r eqn:Hr.
  destruct r as [|id [|l rest]]; [by rewrite split_incomplete..|].
  rewrite elements_cons. destruct (usize l <=? length rest)%nat eqn:Hle; [|rewrite split_incomplete; [done|lia]].
  apply Forall_cons in Hd as [_ Hd]. apply Forall_cons in Hd as [Hl _].
  assert (length (take (usize l) rest) = usize l) as Ht by (rewrite length_take; lia).
  destruct (split_complete id l (take (usize l) rest) (drop (usize l) rest) Hl Ht)
    as (h & Hs & Hid & Hbl).
  rewrite take_drop in Hs. rewrite Hs. cbn [visits]. rewrite Hf, Hid.
  destruct (g pos id _ acc) as [[a|a]|e| |]; cbn; try done.
  rewrite Hbl, Ht. cbn in Hlen. rewrite IH by lia. f_equal.
  by rewrite <- drop_drop, <- Hr.
Qed.

(** The Diffie-Hellman Parameter element. *)
Definition owe_element (e : Z * list Z) : bool :=
  (e.1 =? 255) && bool_decide (head e.2 = Some OWE_DH_EXTENSION_ID).

Definition owe_found (e : Z * list Z) : list Z := drop 1 e.2.

Lemma find_owe_spec ies :
  bytes ies ->
  find_owe_dh_element ies = Ok (owe_found <$> List.find owe_element (elements ies)).
Proof using Type*.
  intros Hb. unfold find_owe_dh_element, walk_fuel.
  rewrite (walk_spec owe_visit (fun pos id body acc =>
    if owe_element (id, body) then Ok (Stop (Some (owe_found (id, body)))) else Ok (Next acc)));
    [|intros pos h body acc|done|lia..].
  - rewrite drop_0. generalize 0%nat. induction (elements ies) as [|[id body] es IH]; [done|].
    intros pos. cbn [visits List.find]. by destruct (owe_element (id, body)); cbn.
  - unfold owe_visit, owe_element. rewrite ext_of. cbn [fst snd].
    destruct (element_id h =? 255); [|done]. cbn [andb].
    destruct (bool_decide_reflect (head body = Some OWE_DH_EXTENSION_ID)) as [Hh|]; [|done].
    destruct body; [done|]. rewrite slice_from_in by (cbn; lia). done.
Qed.

End walk.

(** ** The exchange *)

Section exchange.
Context `{HE : ElementBuffer} `{HL : !ElementBufferLaws}.
Context `{HW : WifiCryptoLib} `{HP : P256} `{HPL : !P256Laws} `{HC : !OweCurve} `{HCL : !OweCurveLaws}.

(** The PMK and PMKID of RFC 8110, section 4.4, from the public keys of the client
    and of the access point and the shared secret. *)
Definition rfc8110_keys (C A z : list Z) : list Z * list Z :=
  (hkdf_expand (hkdf_extract_sha256 (C ++ A ++ to_le16 GROUP_19) z)
     (as_bytes "OWE Key Generation") 32,
   take 16 (sha256 (C ++ A))).

Lemma public_coordinates a :
  0 < a < order -> exists y, affine_xy (point_mul GENERATOR a) = Some (x_coordinate (point_mul GENERATOR a), y).
Proof using HPL HCL.
  intros Ha. unfold x_coordinate.
  destruct (affine_xy (point_mul GENERATOR a)) as [[x y]|] eqn:Hxy; [by exists y|].
  apply affine_identity, mul_identity in Hxy; [|lia].
  destruct Hxy; [lia|]. by destruct generator_not_identity.
Qed.

Lemma x_neg p y : affine_xy p = Some (x_coordinate p, y) -> x_coordinate (point_neg p) = x_coordinate p.
Proof using HPL HCL.
  intros Hp. destruct (neg_coordinates _ _ _ Hp) as [y' Hn]. unfold x_coordinate at 1. by rewrite Hn.
Qed.

Lemma shared_coordinate a b p :
  0 < a < order -> 0 < b < order ->
  decompress (x_coordinate (point_mul GENERATOR b)) = inr p ->
  x_coordinate (point_mul p a) = x_coordinate (point_mul GENERATOR ((b * a) mod order)).
Proof using HPL HCL.
  intros Ha Hb Hp. destruct (public_coordinates b Hb) as [y Hy].
  rewrite <- mul_mul.
  destruct (decompress_x _ _ _ Hy) as [Hd|Hd]; rewrite Hd in Hp; injection Hp as <-; [done|].
  rewrite mul_neg.
  destruct (affine_xy (point_mul (point_mul GENERATOR b) a)) as [[x y']|] eqn:Hxy.
  - apply (x_neg _ y'). unfold x_coordinate. by rewrite Hxy.
  - exfalso. apply affine_identity, mul_identity in Hxy; [|lia].
    destruct Hxy as [|Hxy]; [lia|]. apply mul_identity in Hxy; [|lia].
    destruct Hxy; [lia|]. by destruct generator_not_identity.
Qed.

(** C36: When the elements of an association response have, as their first
    Diffie-Hellman Parameter element, the one that an access point with the secret
    [b] builds, a client with the secret [a] finds it, accepts it, and derives the
    PMK and PMKID that RFC 8110 gives the access point, which decompresses the
    client's x-coordinate and multiplies by its own secret: the lost sign of y does
    not matter. *)
Theorem owe_agrees a b ies :
  0 < a < order -> 0 < b < order -> bytes ies ->
  List.find owe_element (elements ies) = Some (255, drop 2 (build_dh_element (owe_new b))) ->
  exists data Y o',
    find_owe_dh_element ies = Ok (Some data)
    /\ decompress (our_pubkey_raw (owe_new a)) = inr Y
    /\ process_ap_dh_element data (owe_new a) = (o', Ok tt)
    /\ let '(pmk, pmkid) := rfc8110_keys (our_pubkey_raw (owe_new a)) (our_pubkey_raw (owe_new b))
                              (x_coordinate (point_mul Y b)) in
       owe_pmk o' = Some pmk /\ owe_pmkid o' = Some pmkid.
Proof using HL HPL HCL.
  intros Ha Hb Hies Hf.
  destruct (public_coordinates a Ha) as [ya Hya]. destruct (public_coordinates b Hb) as [yb Hyb].
  assert (exists Y, decompress (our_pubkey_raw (owe_new a)) = inr Y) as [Y HY]
    by (destruct (decompress_x _ _ _ Hya); eauto).
  assert (exists p, decompress (our_pubkey_raw (owe_new b)) = inr p) as [p Hp]
    by (destruct (decompress_x _ _ _ Hyb); eauto).
  assert (length (our_pubkey_raw (owe_new b)) = 32%nat) as Hlen
    by (by destruct (affine_len _ _ _ Hyb)).
  exists (to_le16 GROUP_19 ++ our_pubkey_raw (owe_new b)), Y.
  set (C := our_pubkey_raw (owe_new a)). set (A := our_pubkey_raw (owe_new b)) in *.
  eexists. refine (conj _ (conj HY (conj _ _))).
  - by rewrite find_owe_spec, Hf.
  - unfold process_ap_dh_element. rewrite st_bind_get.
    replace (length (to_le16 GROUP_19 ++ A)) with 34%nat by (rewrite length_app, Hlen; done).
    change (34 <? 2 + P256_PUBKEY_LEN)%nat with false. cbn match.
    change (idx (to_le16 GROUP_19 ++ A) 0) with (Ok (E:=WifiError.t) 19).
    change (idx (to_le16 GROUP_19 ++ A) 1) with (Ok (E:=WifiError.t) 0). rewrite !st_bind_lift.
    change (negb (from_le16 _ _ =? GROUP_19)) with false. cbn match.
    change (2 + P256_PUBKEY_LEN)%nat with 34%nat.
    rewrite slice_in by (rewrite length_app, Hlen; cbn; lia). rewrite st_bind_lift.
    rewrite take_ge by (rewrite length_drop, length_app, Hlen; cbn; lia).
    change (drop 2 (to_le16 GROUP_19 ++ A)) with A. fold A in Hp. rewrite Hp.
    rewrite !st_bind_modify.
    rewrite slice_in by (rewrite sha256_len; lia). rewrite st_bind_lift. reflexivity.
  - cbn. split; [|done].
    assert (x_coordinate (point_mul p a) = x_coordinate (point_mul Y b)) as Hx
      by (rewrite (shared_coordinate a b), (shared_coordinate b a) by done; by rewrite Z.mul_comm).
    by rewrite Hx.
Qed.

End exchange.

(** ** Executable instances *)

Import SaeFacts.

Definition toy_split (ies : list Z) : option (Z * nat * list Z) :=
  match ies with
  | id :: l :: rest =>
      if (length rest <? usize l)%nat then None
      else Some ((id, (2 + usize l)%nat), take (usize l) rest)
  | _ => None
  end.

#[local] Instance toy_elements : ElementBuffer := {|
  ElementHeader := (Z * nat)%type;
  split_element := toy_split;
  element_id := fst;
  element_id_ext h body := if h.1 =? 255 then head body else None;
  buffer_len := snd;
|}.

#[local] Instance toy_elements_laws : ElementBufferLaws.
Proof.
  split; cbn -[Z.to_nat Nat.ltb].
  - intros id l body rest _ Hl. exists (id, (2 + length body)%nat). rewrite length_app, Hl.
    destruct (usize l + length rest <? usize l)%nat eqn:Hc; [lia|].
    rewrite take_app_length' by done. done.
  - intros [|id [|l rest]]; try done. intros Hl. cbn -[Z.to_nat Nat.ltb].
    destruct (length rest <? usize l)%nat eqn:Hc; [done|lia].
  - done.
Qed.

#[local] Existing Instance toy_hmac.
#[local] Existing Instance toy_group.
#[local] Existing Instance toy_group_laws.

#[local] Instance toy_owe : OweCurve := {|
  GENERATOR := G1;
  decompress x := if bool_decide (x = to_be 32 5) then inr G2 else inl "no such point";
  sha256 d := take 32 (d ++ replicate 32 0);
|}.

#[local] Instance toy_owe_laws : OweCurveLaws.
Proof.
  split; cbn -[to_be Z.modulo replicate take].
  - done.
  - intros p a. rewrite !g3_to_of, <- (g3_of_mod (_ mod 3 * a)), <- (g3_of_mod (- (_ mod 3))).
    rewrite Zmult_mod_idemp_l.
    replace (- ((g3_to p * a) mod 3)) with (0 - (g3_to p * a) mod 3) by lia.
    rewrite Zminus_mod_idemp_r. f_equal. f_equal. lia.
  - intros [] x y [= <- <-]; by eexists.
  - intros [] x y [= <- <-]; auto.
  - intros d. rewrite length_take, length_app, length_replicate. lia.
Qed.

(** A vendor element and then the access point's. *)
Definition toy_response : list Z := [221; 2; 7; 7] ++ build_dh_element (owe_new 2).

Lemma owe_agrees_witness :
  exists data o', find_owe_dh_element toy_response = Ok (Some data)
    /\ process_ap_dh_element data (owe_new 1) = (o', Ok tt) /\ is_Some (owe_pmk o').
Proof.
  destruct (owe_agrees 1 2 toy_response) as (data & Y & o' & H1 & _ & H2 & H3 & _).
  - cbn. lia.
  - cbn. lia.
  - apply (bool_decide_unpack _). by vm_compute.
  - by vm_compute.
  - exists data, o'. rewrite H3. exact (conj H1 (conj H2 (ex_intro _ _ eq_refl))).
Defined.

End OweFacts.
