(* ===== verification/WifiConfig.v ===== *)
(** * WiFi networks and BSSes

    [src/src/wifi/config.rs]; [BssInfo] and [MdieInfo] of [src/src/wifi/scan.rs];
    [EapConfig] of [src/src/core/config.rs].  The fields of the records that two
    of them share are kept apart by a module per record.  [Module WifiConfigFacts]:
    the scan-free target has what the network asks for. *)

From S2P Require Import Prelude Errors Security.

(** [Ieee80211CipherSuite]: the suites the code names, and the others. *)
Inductive CipherSuite :=
| BipCmac128 | BipGmac128 | BipGmac256 | BipCmac256 | Tkip | OtherCipher (suite : Z).

#[global] Instance CipherSuite_eq_dec : EqDecision CipherSuite.
Proof. solve_decision. Defined.

Record EapConfig := mkEapConfig {
  eap_identity : string;
  ca_cert : option string;
  client_cert : option string;
  client_key : option string;
  server_name : option string;
}.

#[global] Instance EapConfig_eq_dec : EqDecision EapConfig.
Proof. solve_decision. Defined.

Record MdieInfo := mkMdieInfo { mdid : list Z; ft_capab : Z }.

#[global] Instance MdieInfo_eq_dec : EqDecision MdieInfo.
Proof. solve_decision. Defined.

Record BssInfo := mkBssInfo {
  bssid : list Z;
  freq_mhz : Z;
  signal_dbm : Z;
  security : SecurityType;
  ap_rsne : list Z;
  ap_rsnxe : list Z;
  group_mgmt_cipher : CipherSuite;
  mdie : option MdieInfo;
  hidden : bool;
  btm_support : bool;
  rm_neighbor_report : bool;
}.

#[global] Instance BssInfo_eq_dec : EqDecision BssInfo.
Proof. solve_decision. Defined.

Definition NO_BSSID : list Z := replicate 6 0.

Definition BssInfo_default : BssInfo :=
  mkBssInfo NO_BSSID 0 0 Open [] [] BipCmac128 None false false false.

Definition ap_supports_signal_roam (b : BssInfo) : bool := btm_support b || rm_neighbor_report b.

Definition DEFAULT_ROAM_THRESHOLD_DBM : Z := -70.
Definition DEFAULT_SWITCH_SSID_LOWER_THAN_DBM : Z := -80.

Inductive SaePwe := H2E | HnP | Auto.

Definition starts_h2e (s : SaePwe) (ap_supports_h2e : bool) : bool :=
  match s with H2E => true | HnP => false | Auto => ap_supports_h2e end.

Definition allows_hnp_fallback (s : SaePwe) : bool := match s with Auto => true | _ => false end.

#[global] Instance SaePwe_eq_dec : EqDecision SaePwe.
Proof. solve_decision. Defined.

Record KnownBss := mkKnownBss { known_bssid : list Z; frequency_mhz : Z }.

#[global] Instance KnownBss_eq_dec : EqDecision KnownBss.
Proof. solve_decision. Defined.

Module Hints.
Record t := mk {
  frequencies_mhz : list Z;
  known_bss : list KnownBss;
  bssid : option (list Z);
  frequency_mhz : option Z;
  security : option SecurityType;
  ap_rsne : option (list Z);
  ap_rsnxe : option (list Z);
  group_mgmt_cipher : option CipherSuite;
  mdid : option (list Z);
  ft_capab : option Z;
  btm_support : option bool;
  rm_neighbor_report : option bool;
}.

#[global] Instance t_eq_dec : EqDecision t.
Proof. solve_decision. Defined.

Definition new : t := mk [] [] None None None None None None None None None None.

Definition with_frequencies_mhz (f : list Z) (h : t) : t :=
  mk f (known_bss h) (bssid h) (frequency_mhz h) (security h) (ap_rsne h) (ap_rsnxe h)
    (group_mgmt_cipher h) (mdid h) (ft_capab h) (btm_support h) (rm_neighbor_report h).

Definition with_known_bss (k : list KnownBss) (h : t) : t :=
  mk (frequencies_mhz h) k (bssid h) (frequency_mhz h) (security h) (ap_rsne h) (ap_rsnxe h)
    (group_mgmt_cipher h) (mdid h) (ft_capab h) (btm_support h) (rm_neighbor_report h).

Definition knows_bssid (h : t) (b : list Z) : bool :=
  existsb (fun known => bool_decide (known_bssid known = b)) (known_bss h).

Definition bss_info (h : t) : option BssInfo :=
  b ← bssid h;
  if bool_decide (b = NO_BSSID) then None else
  freq ← frequency_mhz h;
  if freq =? 0 then None else
  sec ← security h;
  if bool_decide (sec = Unsupported) then None else
  rsne ← ap_rsne h;
  rsnxe ← ap_rsnxe h;
  cipher ← group_mgmt_cipher h;
  Some (mkBssInfo b freq 0 sec rsne rsnxe cipher
          (match mdid h, ft_capab h with
           | Some m, Some f => Some (mkMdieInfo m f)
           | _, _ => None
           end)
          false (default false (btm_support h)) (default false (rm_neighbor_report h))).
End Hints.

Module NetworkConfig.
Record t := mk {
  ssid : string;
  password : option string;
  bssid : option (list Z);
  hints : Hints.t;
  prefered : bool;
  roaming : bool;
  roaming_threshold : Z;
  switch_ssid_lower_than_dbm : Z;
  wowlan : bool;
  hidden : bool;
  eap : option EapConfig;
  sae_pwe : SaePwe;
  sae_password_id : option string;
  ocv : bool;
  ext_key_id : bool;
}.

#[global] Instance t_eq_dec : EqDecision t.
Proof. solve_decision. Defined.

Definition new (ssid : string) : t :=
  mk ssid None None Hints.new false true DEFAULT_ROAM_THRESHOLD_DBM
    DEFAULT_SWITCH_SSID_LOWER_THAN_DBM false false None Auto None false false.

Definition set_password (p : string) (n : t) : t :=
  mk (ssid n) (Some p) (bssid n) (hints n) (prefered n) (roaming n) (roaming_threshold n)
    (switch_ssid_lower_than_dbm n) (wowlan n) (hidden n) (eap n) (sae_pwe n) (sae_password_id n)
    (ocv n) (ext_key_id n).
Definition set_bssid (b : option (list Z)) (n : t) : t :=
  mk (ssid n) (password n) b (hints n) (prefered n) (roaming n) (roaming_threshold n)
    (switch_ssid_lower_than_dbm n) (wowlan n) (hidden n) (eap n) (sae_pwe n) (sae_password_id n)
    (ocv n) (ext_key_id n).
Definition set_hints (h : Hints.t) (n : t) : t :=
  mk (ssid n) (password n) (bssid n) h (prefered n) (roaming n) (roaming_threshold n)
    (switch_ssid_lower_than_dbm n) (wowlan n) (hidden n) (eap n) (sae_pwe n) (sae_password_id n)
    (ocv n) (ext_key_id n).
Definition set_prefered (p : bool) (n : t) : t :=
  mk (ssid n) (password n) (bssid n) (hints n) p (roaming n) (roaming_threshold n)
    (switch_ssid_lower_than_dbm n) (wowlan n) (hidden n) (eap n) (sae_pwe n) (sae_password_id n)
    (ocv n) (ext_key_id n).
Definition set_wowlan (w : bool) (n : t) : t :=
  mk (ssid n) (password n) (bssid n) (hints n) (prefered n) (roaming n) (roaming_threshold n)
    (switch_ssid_lower_than_dbm n) w (hidden n) (eap n) (sae_pwe n) (sae_password_id n)
    (ocv n) (ext_key_id n).
Definition set_hidden (h : bool) (n : t) : t :=
  mk (ssid n) (password n) (bssid n) (hints n) (prefered n) (roaming n) (roaming_threshold n)
    (switch_ssid_lower_than_dbm n) (wowlan n) h (eap n) (sae_pwe n) (sae_password_id n)
    (ocv n) (ext_key_id n).
Definition set_eap (e : EapConfig) (n : t) : t :=
  mk (ssid n) (password n) (bssid n) (hints n) (prefered n) (roaming n) (roaming_threshold n)
    (switch_ssid_lower_than_dbm n) (wowlan n) (hidden n) (Some e) (sae_pwe n) (sae_password_id n)
    (ocv n) (ext_key_id n).
Definition set_sae_password_id (i : option string) (n : t) : t :=
  mk (ssid n) (password n) (bssid n) (hints n) (prefered n) (roaming n) (roaming_threshold n)
    (switch_ssid_lower_than_dbm n) (wowlan n) (hidden n) (eap n) (sae_pwe n) i
    (ocv n) (ext_key_id n).
Definition set_ocv (o : bool) (n : t) : t :=
  mk (ssid n) (password n) (bssid n) (hints n) (prefered n) (roaming n) (roaming_threshold n)
    (switch_ssid_lower_than_dbm n) (wowlan n) (hidden n) (eap n) (sae_pwe n) (sae_password_id n)
    o (ext_key_id n).
Definition set_ext_key_id (e : bool) (n : t) : t :=
  mk (ssid n) (password n) (bssid n) (hints n) (prefered n) (roaming n) (roaming_threshold n)
    (switch_ssid_lower_than_dbm n) (wowlan n) (hidden n) (eap n) (sae_pwe n) (sae_password_id n)
    (ocv n) e.

Definition matches_bssid (n : t) (b : list Z) : bool :=
  match bssid n with None => true | Some pin => bool_decide (pin = b) end.

Definition accepts_security (n : t) (s : SecurityType) : bool :=
  match s with
  | Unsupported => false
  | Open | Owe => bool_decide (password n = None) && bool_decide (eap n = None)
  | Wpa2Psk | Wpa2PskSha256 | Sae | SaeExtKey | FtPsk | FtSae | FtSaeExtKey =>
      bool_decide (is_Some (password n)) && bool_decide (eap n = None)
  | Wpa2Ent | Wpa2EntSha256 => bool_decide (is_Some (eap n)) && bool_decide (password n = None)
  end.

Definition can_roam_to_security (n : t) (s : SecurityType) : bool := accepts_security n s.

Definition scan_free_bss_info (n : t) : option BssInfo :=
  bss ← Hints.bss_info (hints n);
  if matches_bssid n (WifiConfig.bssid bss) && accepts_security n (WifiConfig.security bss)
  then Some bss else None.
End NetworkConfig.

Record WifiConfig := mkWifiConfig { iface_name : string; networks : list NetworkConfig.t }.

Definition WifiConfig_new (iface_name : string) : WifiConfig := mkWifiConfig iface_name [].

Definition add_network (ssid : string) (password : option string) (c : WifiConfig) : WifiConfig :=
  let network := NetworkConfig.new ssid in
  let network := match password with
                 | Some p => NetworkConfig.set_password p network
                 | None => network
                 end in
  mkWifiConfig (iface_name c) (networks c ++ [network]).

Definition ssids (c : WifiConfig) : list string := NetworkConfig.ssid <$> networks c.

Definition hidden_ssids (c : WifiConfig) : list string :=
  NetworkConfig.ssid <$> List.filter NetworkConfig.hidden (networks c).

