(* ===== verification/ClientState.v ===== *)
(** * State of a WiFi interface

    [src/src/wifi/client/state.rs]: the states of the connection, what a change of
    the configured networks or a system resume does, the PMKSAs that a change of
    credentials makes stale, the BSSIDs that rejected an attempt, and the deadline
    of a wait.  A clock reading is a number of nanoseconds, an argument of the
    operation that takes it.  [Module ClientStateFacts]: two network lists have the
    same contents exactly when one is a permutation of the other, no PMKSA outlives
    the credentials it came from, and what ignore list and deadline promise. *)

From stdpp Require Import gmap.
From S2P Require Import Prelude Errors Security Pmksa WifiConfig.

Inductive WifiState :=
| Init | Scanning | SchedScanWait | Authenticating | ConnectedWithoutOffloadRekey
| ConnectedWithOffloadRekey | Failed | FailedAuthentication.

#[global] Instance WifiState_eq_dec : EqDecision WifiState.
Proof. solve_decision. Defined.

Inductive FastReconnect := ScanNow | SameBss.

Inductive ResumeAction := NoAction | KeepConnected | RetryNow | IgnoreAuthBackoff.

#[global] Instance ResumeAction_eq_dec : EqDecision ResumeAction.
Proof. solve_decision. Defined.

Inductive NetworkUpdate := SameSet | KeepCurrentAttempt | Restart.

#[global] Instance NetworkUpdate_eq_dec : EqDecision NetworkUpdate.
Proof. solve_decision. Defined.

(** ** Updates of the network list *)

Section contents.
Context {A : Type} `{EqDecision A}.

(** The first index of [new] that is not matched yet and equal to [x]. *)
Definition unmatched_position (matched : list bool) (new : list A) (x : A) : option nat :=
  fst <$> list_find (fun p : bool * A => p.1 = false /\ p.2 = x) (zip matched new).

(** [current.iter().all(..)] with the flags the closure updates. *)
Fixpoint match_all (matched : list bool) (current new : list A) : bool :=
  match current with
  | [] => true
  | x :: current =>
      match unmatched_position matched new x with
      | None => false
      | Some index => match_all (<[index:=true]> matched) current new
      end
  end.

Definition same_contents (current new : list A) : bool :=
  if negb (length current =? length new)%nat then false
  else match_all (replicate (length new) false) current new.
End contents.

Definition same_network_contents (current new : list NetworkConfig.t) : bool :=
  same_contents current new.

Definition network_update_action (current new : list NetworkConfig.t) (state : WifiState)
  (current_target : NetworkConfig.t) : NetworkUpdate :=
  if same_network_contents current new then SameSet else
  if (bool_decide (state = Scanning) || bool_decide (state = Authenticating))
     && existsb (fun network => bool_decide (network = current_target)) new
  then KeepCurrentAttempt else Restart.

(** The credentials a PMK comes from. *)
Definition same_credentials (candidate network : NetworkConfig.t) : bool :=
  bool_decide (NetworkConfig.ssid candidate = NetworkConfig.ssid network)
  && bool_decide (NetworkConfig.password candidate = NetworkConfig.password network)
  && bool_decide (NetworkConfig.eap candidate = NetworkConfig.eap network)
  && bool_decide (NetworkConfig.sae_password_id candidate = NetworkConfig.sae_password_id network).

Definition stale_step (new : list NetworkConfig.t) (stale : list string) (network : NetworkConfig.t)
  : list string :=
  let still_valid := existsb (fun candidate => same_credentials candidate network) new in
  if negb still_valid && negb (existsb (fun s => bool_decide (s = NetworkConfig.ssid network)) stale)
  then stale ++ [NetworkConfig.ssid network] else stale.

Definition pmksa_stale_ssids (current new : list NetworkConfig.t) : list string :=
  fold_left (stale_step new) current [].

(** The PMKSA cache, the entry of the attempt in flight, and the entries dropped
    from the driver, in order. *)
Record PmksaState := mkPmksaState {
  pmksa_cache : list PmksaEntry.t;
  pmksa_in_use : option PmksaEntry.t;
  driver_deleted : list PmksaEntry.t;
}.

(** [WifiIface::invalidate_pmksa_for_ssid] ([client/associate.rs]). *)
Definition invalidate_pmksa_for_ssid (ssid : string) (s : PmksaState) : PmksaState :=
  let '(kept, removed) := PmksaCache.remove_ssid ssid (pmksa_cache s) in
  mkPmksaState kept
    (match pmksa_in_use s with
     | Some e => if bool_decide (PmksaEntry.ssid e = ssid) then None else Some e
     | None => None
     end)
    (driver_deleted s ++ removed).

(** The loop at the head of [WifiIface::update_networks]. *)
Definition invalidate_stale (current new : list NetworkConfig.t) (s : PmksaState) : PmksaState :=
  fold_left (fun s ssid => invalidate_pmksa_for_ssid ssid s) (pmksa_stale_ssids current new) s.

(** ** Connection and resume *)

Definition is_connected (state : WifiState) : bool :=
  match state with
  | ConnectedWithoutOffloadRekey | ConnectedWithOffloadRekey => true
  | _ => false
  end.

Definition connection_is_live (state : WifiState) (pre_roam_state : option WifiState) : bool :=
  is_connected state || from_option is_connected false pre_roam_state.

Definition association_result_applies (state : WifiState) : bool :=
  bool_decide (state = Authenticating).

Definition resume_action (state : WifiState) (kernel_associated : option bool) : ResumeAction :=
  match state with
  | ConnectedWithoutOffloadRekey | ConnectedWithOffloadRekey =>
      match kernel_associated with
      | Some true => KeepConnected
      | Some false => RetryNow
      | None => NoAction
      end
  | Failed | SchedScanWait => RetryNow
  | FailedAuthentication => IgnoreAuthBackoff
  | _ => NoAction
  end.

(** ** BSSIDs that rejected an attempt *)

Definition bssid_ignore_timeout_secs (count : Z) : Z :=
  if (count =? 1) || (count =? 2) then 10 else
  if count =? 3 then 60 else
  if count =? 4 then 120 else
  if count =? 5 then 600 else 1800.

Module BssidIgnoreList.
Record entry := mkEntry { bssid : list Z; count : Z; deadline : Z }.
Abbreviation t := (list entry).

(** [count.saturating_add(1)] of a u32. *)
Definition escalate (count : Z) : Z := Z.min (count + 1) (2 ^ 32 - 1).

(** The list and the new failure count, at the time [now]. *)
Fixpoint add (now : Z) (b : list Z) (entries : t) : t * Z :=
  match entries with
  | [] => ([mkEntry b 1 (now + secs (bssid_ignore_timeout_secs 1))], 1)
  | e :: entries =>
      if bool_decide (bssid e = b) then
        let c := escalate (count e) in
        (mkEntry (bssid e) c (now + secs (bssid_ignore_timeout_secs c)) :: entries, c)
      else let '(entries, c) := add now b entries in (e :: entries, c)
  end.

Definition is_ignored (now : Z) (entries : t) (b : list Z) : bool :=
  existsb (fun e => bool_decide (bssid e = b) && (now <? deadline e)) entries.

Definition clear (entries : t) : t := [].
End BssidIgnoreList.

(** ** Wait deadlines *)

Module WaitDeadline.
Record arm := mkArm { state : WifiState; duration : Z; deadline : Z }.
Abbreviation t := (option arm).

Definition remaining (now : Z) (s : WifiState) (wait : Z) (d : t) : t * Z :=
  match d with
  | Some a =>
      if bool_decide (state a = s) && (duration a =? wait)
      then (d, Z.max 0 (deadline a - now))
      else (Some (mkArm s wait (now + wait)), wait)
  | None => (Some (mkArm s wait (now + wait)), wait)
  end.

Definition clear (d : t) : t := None.
End WaitDeadline.

Module ClientStateFacts.

(** ** Same contents *)

Section contents.
Context {A : Type} `{EqDecision A}.

(** The entries that no flag marks. *)
Definition unmatched (matched : list bool) (new : list A) : list A :=
  (filter (fun p : bool * A => p.1 = false) (zip matched new)).*2.

Lemma unmatched_cons b matched x new :
  unmatched (b :: matched) (x :: new)
  = if b then unmatched matched new else x :: unmatched matched new.
Proof.
  unfold unmatched. cbn [zip zip_with].
  destruct b; [by rewrite filter_cons_False|by rewrite filter_cons_True].
Qed.

Lemma unmatched_all new : unmatched (replicate (length new) false) new = new.
Proof.
  induction new as [|x new IH]; [done|]. cbn [length replicate]. by rewrite unmatched_cons, IH.
Qed.

Lemma unmatched_insert matched : forall new i x,
  zip matched new !! i = Some (false, x) ->
  unmatched matched new ≡ₚ x :: unmatched (<[i:=true]> matched) new.
Proof using Type.
  induction matched as [|b matched IH]; intros [|y new] [|i] x Hi; try done.
  - injection Hi as -> ->. cbn [insert list_insert]. by rewrite !unmatched_cons.
  - cbn in Hi. change (<[S i:=true]> (b :: matched)) with (b :: <[i:=true]> matched).
    rewrite !unmatched_cons. destruct b; [by apply IH|].
    by rewrite (IH new i x Hi), Permutation_swap.
Qed.

Lemma unmatched_position_spec matched new x :
  match unmatched_position matched new x with
  | Some i => zip matched new !! i = Some (false, x)
  | None => x ∉ unmatched matched new
  end.
Proof using Type.
  unfold unmatched_position.
  destruct (list_find _ (zip matched new)) as [[i [b y]]|] eqn:Hf; cbn.
  - apply list_find_Some in Hf as (Hi & [Hb Hy] & _). cbn in Hb, Hy. by subst.
  - apply list_find_None in Hf. unfold unmatched. intros Hx.
    apply list_elem_of_fmap in Hx as ([b y] & -> & [Hb Hy]%list_elem_of_filter).
    rewrite Forall_forall in Hf. by apply (Hf _ Hy).
Qed.

Lemma match_all_spec current : forall matched new,
  length matched = length new ->
  match_all matched current new = true <-> current ⊆+ unmatched matched new.
Proof using Type.
  induction current as [|x current IH]; intros matched new Hlen; cbn [match_all].
  { split; [intros _; apply submseteq_nil_l|done]. }
  pose proof (unmatched_position_spec matched new x) as Hp.
  destruct (unmatched_position matched new x) as [i|].
  - rewrite IH by (by rewrite length_insert). rewrite (unmatched_insert _ _ _ _ Hp).
    split; [apply submseteq_skip|]. apply submseteq_app_inv_l with (k := [x]).
  - split; [done|]. intros Hs. destruct Hp. eapply elem_of_submseteq; [|exact Hs]. apply list_elem_of_here.
Qed.

Lemma same_contents_permutation (current new : list A) :
  same_contents current new = true <-> current ≡ₚ new.
Proof using Type.
  unfold same_contents. destruct (length current =? length new)%nat eqn:Hl; cbn.
  - rewrite match_all_spec, unmatched_all by (by rewrite length_replicate).
    apply Nat.eqb_eq in Hl. split.
    + intros Hs. apply submseteq_length_Permutation; [done|lia].
    + by intros ->.
  - split; [done|]. intros Hp%Permutation_length. lia.
Qed.
End contents.

(** An update of the network list keeps every bit of runtime state exactly when the
    new list is a permutation of the current one; otherwise it lets an attempt that is
    scanning or authenticating finish exactly when its target is still configured
    unchanged, and restarts in every other case. *)
Theorem network_update_exact current new state target :
  match network_update_action current new state target with
  | SameSet => current ≡ₚ new
  | KeepCurrentAttempt =>
      ~ current ≡ₚ new /\ (state = Scanning \/ state = Authenticating) /\ target ∈ new
  | Restart =>
      ~ current ≡ₚ new /\ ~ ((state = Scanning \/ state = Authenticating) /\ target ∈ new)
  end.
Proof.
  unfold network_update_action, same_network_contents.
  pose proof (same_contents_permutation current new) as Hp.
  destruct (same_contents current new); [by apply Hp|].
  assert (~ current ≡ₚ new) as Hn by (by rewrite <- Hp).
  destruct (_ && _) eqn:Hc.
  - rewrite andb_true_iff, orb_true_iff, !bool_decide_eq_true, existsb_exists in Hc.
    destruct Hc as [Hs (n & Hin & ->%bool_decide_eq_true)].
    split; [done|]. split; [done|]. by apply list_elem_of_In.
  - split; [done|]. intros [Hs Hin].
    apply andb_false_iff in Hc as [Hc|Hc].
    + rewrite orb_false_iff, !bool_decide_eq_false in Hc. tauto.
    + apply not_true_iff_false in Hc. apply Hc, existsb_exists. exists target.
      split; [by apply list_elem_of_In|]. by apply bool_decide_eq_true.
Qed.

(** ** Stale PMKSAs *)

(** A network whose credentials the new list no longer has. *)
Definition outdated (new : list NetworkConfig.t) (n : NetworkConfig.t) : Prop :=
  forall c, c ∈ new -> same_credentials c n = false.

Lemma outdated_iff new n :
  existsb (fun c => same_credentials c n) new = false <-> outdated new n.
Proof.
  rewrite <- not_true_iff_false, existsb_exists. unfold outdated. split.
  - intros H c Hc. apply not_true_iff_false. intros Hs. apply H. exists c.
    by rewrite <- list_elem_of_In.
  - intros H (c & Hc%list_elem_of_In & Hs). rewrite (H c Hc) in Hs. done.
Qed.

Lemma stale_step_elem new stale n s :
  s ∈ stale_step new stale n <-> s ∈ stale \/ (outdated new n /\ s = NetworkConfig.ssid n).
Proof.
  unfold stale_step. pose proof (outdated_iff new n) as Ho.
  destruct (existsb (fun c => same_credentials c n) new); cbn.
  { split; [tauto|]. intros [|[Hn _]]; [done|]. by apply Ho in Hn. }
  destruct (existsb _ stale) eqn:He; cbn.
  - apply existsb_exists in He as (s' & Hs'%list_elem_of_In & ->%bool_decide_eq_true).
    split; [tauto|]. intros [|[_ ->]]; done.
  - rewrite elem_of_app, list_elem_of_singleton. pose proof (proj1 Ho eq_refl). tauto.
Qed.

Lemma stale_elem new current : forall stale s,
  s ∈ fold_left (stale_step new) current stale
  <-> s ∈ stale \/ exists n, n ∈ current /\ outdated new n /\ s = NetworkConfig.ssid n.
Proof.
  induction current as [|n current IH]; intros stale s; cbn [fold_left].
  - split; [tauto|]. intros [|(n & []%elem_of_nil & _)]. done.
  - rewrite IH, stale_step_elem. split.
    + intros [[|[Ho ->]]|(m & Hm & Hr)]; [by left| |].
      * right. exists n. split; [apply list_elem_of_here|done].
      * right. exists m. split; [by apply list_elem_of_further|done].
    + intros [|(m & [->|Hm]%elem_of_cons & Ho & ->)]; [tauto|tauto|]. right. by exists m.
Qed.

Definition not_of (ssids : list string) (e : PmksaEntry.t) : Prop := PmksaEntry.ssid e ∉ ssids.

Lemma invalidate_all ssids : forall s,
  let s' := fold_left (fun s ssid => invalidate_pmksa_for_ssid ssid s) ssids s in
  (forall e, e ∈ pmksa_cache s' <-> e ∈ pmksa_cache s /\ not_of ssids e)
  /\ (forall e, pmksa_in_use s' = Some e <-> pmksa_in_use s = Some e /\ not_of ssids e)
  /\ (forall e, e ∈ driver_deleted s'
               <-> e ∈ driver_deleted s \/ (e ∈ pmksa_cache s /\ PmksaEntry.ssid e ∈ ssids)).
Proof.
  induction ssids as [|x ssids IH]; intros s; cbn [fold_left].
  { cbv zeta. unfold not_of. pose proof (not_elem_of_nil (A := string)).
    split; [|split]; intros e; specialize (H (PmksaEntry.ssid e)); tauto. }
  destruct (IH (invalidate_pmksa_for_ssid x s)) as (H1 & H2 & H3).
  cbv zeta. unfold not_of in *. split; [|split]; intros e.
  - rewrite H1. cbn. rewrite list_elem_of_filter, not_elem_of_cons. tauto.
  - rewrite H2. clear IH H1 H2 H3. cbn. rewrite not_elem_of_cons.
    destruct (pmksa_in_use s) as [e'|]; [|by split; intros [? _]].
    destruct (bool_decide_reflect (PmksaEntry.ssid e' = x)) as [He|He]; split.
    + by intros [? _].
    + by intros [[= ->] [Hx _]].
    + by intros [[= ->] Hs].
    + by intros [[= ->] [_ Hs]].
  - rewrite H3. cbn. rewrite elem_of_app, !list_elem_of_filter, elem_of_cons.
    destruct (decide (PmksaEntry.ssid e = x)); tauto.
Qed.


(** ** The ignore list as a map *)

Import BssidIgnoreList.

(** Failure count and deadline of each BSSID. *)
Definition ignored (l : BssidIgnoreList.t) : gmap (list Z) (Z * Z) :=
  list_to_map ((fun e => (bssid e, (count e, deadline e))) <$> l).

(** No BSSID twice. *)
Definition distinct (l : BssidIgnoreList.t) : Prop := NoDup (bssid <$> l).

Lemma ignored_cons e l : ignored (e :: l) = <[bssid e := (count e, deadline e)]> (ignored l).
Proof. done. Qed.

Lemma ignored_none l b : b ∉ bssid <$> l -> ignored l !! b = None.
Proof.
  intros Hb. apply not_elem_of_list_to_map_1. by rewrite <- list_fmap_compose.
Qed.

Lemma is_ignored_map now l b :
  distinct l ->
  is_ignored now l b = from_option (fun p : Z * Z => now <? p.2) false (ignored l !! b).
Proof.
  unfold distinct. induction l as [|e l IH]; [done|]. cbn [fmap list_fmap].
  intros [He Hl]%NoDup_cons. rewrite ignored_cons. cbn [is_ignored existsb].
  fold (is_ignored now l b). rewrite IH by done.
  destruct (bool_decide_reflect (bssid e = b)) as [<-|Hb]; cbn [andb].
  - rewrite lookup_insert_eq, ignored_none by done. cbn. apply orb_false_r.
  - by rewrite lookup_insert_ne by done.
Qed.

Lemma add_bssids now b l b' : b' ∈ bssid <$> (add now b l).1 <-> b' = b \/ b' ∈ bssid <$> l.
Proof.
  induction l as [|e l IH]; cbn [add].
  - cbn. rewrite list_elem_of_singleton, elem_of_nil. tauto.
  - destruct (bool_decide_reflect (bssid e = b)) as [<-|Hb]; cbn.
    + rewrite elem_of_cons. tauto.
    + destruct (add now b l) as [l' c]. cbn in *. rewrite !elem_of_cons, IH. tauto.
Qed.

(** The ignore list is a map from BSSIDs to failure count and deadline: a failed
    attempt raises the count of its BSSID by one (saturating), sets its deadline from
    the escalating timeout of that count and leaves every other BSSID alone, and a BSSID
    is ignored exactly until its deadline. *)
Theorem ignore_list_refines now b l :
  distinct l ->
  let '(l', c) := add now b l in
  distinct l'
  /\ c = from_option (fun p : Z * Z => escalate p.1) 1 (ignored l !! b)
  /\ ignored l' = <[b := (c, now + secs (bssid_ignore_timeout_secs c))]> (ignored l)
  /\ forall t b', is_ignored t l' b' = from_option (fun p : Z * Z => t <? p.2) false (ignored l' !! b').
Proof.
  intros Hd.
  assert (let '(l', c) := add now b l in
    distinct l' /\ c = from_option (fun p : Z * Z => escalate p.1) 1 (ignored l !! b)
    /\ ignored l' = <[b := (c, now + secs (bssid_ignore_timeout_secs c))]> (ignored l)) as H.
  2:{ destruct (add now b l) as [l' c]. destruct H as (H1 & H2 & H3).
      split; [done|]. split; [done|]. split; [done|]. intros t b'. by apply is_ignored_map. }
  unfold distinct in *. induction l as [|e l IH]; cbn [add].
  { split; [apply NoDup_singleton|done]. }
  cbn [fmap list_fmap] in Hd. apply NoDup_cons in Hd as [He Hl]. rewrite ignored_cons.
  destruct (bool_decide_reflect (bssid e = b)) as [<-|Hb].
  - rewrite lookup_insert_eq, insert_insert_eq. split; [|done]. by apply NoDup_cons.
  - specialize (IH Hl). pose proof (add_bssids now b l (bssid e)) as Hin.
    destruct (add now b l) as [l' c]. destruct IH as (H1 & H2 & H3). cbn [fst] in Hin.
    rewrite lookup_insert_ne by done. split; [|split; [done|]].
    + apply NoDup_cons. split; [|done]. rewrite Hin. tauto.
    + rewrite ignored_cons, H3, insert_insert_ne by done. done.
Qed.

Lemma ignore_list_refines_witness :
  let '(l', c) := add 5 [1] (add 0 [1] []).1 in
  c = 2 /\ is_ignored (secs 9) l' [1] = true /\ is_ignored (secs 11) l' [1] = false.
Proof.
  pose proof (ignore_list_refines 5 [1] (add 0 [1] []).1) as H.
  destruct (add 5 [1] (add 0 [1] []).1) as [l' c] eqn:Hl.
  destruct H as (_ & Hc & _ & Hi).
  - apply NoDup_singleton.
  - rewrite !Hi. vm_compute in Hl. injection Hl as <- <-. by vm_compute.
Defined.

End ClientStateFacts.
