(* ===== verification/Scan.v ===== *)
(** * Scanning and the choice of a BSS

    [src/src/wifi/scan.rs] and the accessors of scan entries of
    [src/src/wifi/nl80211.rs].  [Class ScanLib] is what the [wl-nl80211] crate
    parses.  [Iface] is the part of [WifiIface] that scanning works on; what the
    kernel answers (a scan dump, a signal level, the result of a request) is an
    argument, the requests made are logged in [requests], and the clock is read
    once per selection.  A scan on demand ([scan]) is a computation on the list of its
    requests, which the answers of the kernel ([ScanKernel]) may refuse one by one.
    [Module ScanFacts] has the theorems: what makes a BSS open, the order of the
    selection, what a retry scan excludes, that every hidden SSID is probed when no
    request is refused, and when a roam scan leaves the current BSS. *)

From stdpp Require Import gmap sorting pretty.
From S2P Require Import Prelude Errors Security WifiKdf Owe WifiConfig ClientState.

Definition MAX_SCAN_SSIDS : nat := 16.
Definition ROAM_QUICK_SCAN_MAX_FREQS : nat := 16.

(** [Ieee80211AkmSuite]: the suites the code names, and the others. *)
Module Akm.
Inductive t :=
| FtSae | FtSaeGroupDependentHash | FtPsk | Sae | SaeGroupDependentHash | Owe | Psk
| PskSha256 | Ieee8021x | Ieee8021xSha256 | Other (suite : Z).
End Akm.

Record RsnElement := mkRsnElement {
  akm_suits : list Akm.t;
  group_cipher : option CipherSuite;
  (** The MFPR and MFPC bits of the capabilities. *)
  rsn_capbilities : option (bool * bool);
}.

(** [Ieee80211Element], as far as the code looks. *)
Inductive Element := ElementSsid (ssid : string) | ElementOther.

(** [Nl80211BssInfo]: attributes of a BSS in a scan dump. *)
Inductive BssAttr :=
| AttrBssid (bssid : list Z)
| AttrFrequency (freq : Z)
| AttrSignalMbm (signal : Z)
| AttrIes (ies : list Z)
| AttrBeaconIes (ies : list Z)
| AttrCapability (privacy : bool)
| AttrOther.

Class ScanLib := {
  ELEMENT_ID_RSN : Z;
  ELEMENT_ID_RSN_EXT : Z;
  ELEMENT_ID_MDIE : Z;
  rsn_parse : list Z -> option RsnElement;
  parse_elements : list Z -> option (list Element);
  parse_group_mgmt_cipher : list Z -> option CipherSuite;
  parse_mdie : list Z -> option (list Z * Z);
  (** The element at an offset, with its header. *)
  ie_at : list Z -> nat -> list Z;
  ap_supports_btm : list Z -> bool;
  ap_supports_rm_neighbor_report : list Z -> bool;
  ap_rsnxe_supports_sae_h2e : list Z -> bool;
  ap_rsne_supports_ocv : list Z -> bool;
  ap_rsne_supports_ext_key_id : list Z -> bool;
}.

(** The identifiers of the standard, and the element at an offset. *)
Class ScanLaws `{ScanLib} : Prop := {
  id_rsn : ELEMENT_ID_RSN = 48;
  id_rsn_ext : ELEMENT_ID_RSN_EXT = 244;
  id_mdie : ELEMENT_ID_MDIE = 54;
  ie_at_element ies pos id l body rest :
    drop pos ies = id :: l :: body ++ rest -> length body = usize l ->
    ie_at ies pos = id :: l :: body;
}.

(** ** Scan entries ([nl80211.rs]) *)

(** The first attribute that [f] takes. *)
Fixpoint first_attr {A} (f : BssAttr -> option A) (bss : list BssAttr) : option A :=
  match bss with
  | [] => None
  | info :: bss => match f info with Some x => Some x | None => first_attr f bss end
  end.

Definition extract_signal_dbm : list BssAttr -> option Z :=
  first_attr (fun i => match i with AttrSignalMbm s => Some (Z.quot s 100) | _ => None end).
Definition extract_freq : list BssAttr -> option Z :=
  first_attr (fun i => match i with AttrFrequency f => Some f | _ => None end).
Definition extract_ies : list BssAttr -> option (list Z) :=
  first_attr (fun i => match i with AttrIes ies | AttrBeaconIes ies => Some ies | _ => None end).
Definition extract_privacy (bss : list BssAttr) : bool :=
  default false (first_attr (fun i => match i with AttrCapability p => Some p | _ => None end) bss).
Definition extract_bssid : list BssAttr -> option (list Z) :=
  first_attr (fun i => match i with AttrBssid b => Some b | _ => None end).

Fixpoint first_ssid (elements : list Element) : option string :=
  match elements with
  | [] => None
  | ElementSsid ssid :: _ => Some ssid
  | _ :: elements => first_ssid elements
  end.

Definition extract_ssid_from_ies `{ScanLib} (ies : list Z) : option string :=
  elements ← parse_elements ies;
  first_ssid elements.

Module BssScanSecurity.
Record t := mk {
  security : SecurityType;
  ap_rsne : list Z;
  ap_rsnxe : list Z;
  group_mgmt_cipher : CipherSuite;
  mdie : option MdieInfo;
  unsupported_reason : option string;
}.
End BssScanSecurity.

(** ** Capabilities of a BSS *)

Section capabilities.
Context `{ElementBuffer} `{ScanLib}.

Definition rsne_mfp_capable (rsne : list Z) : outcome WifiError.t bool :=
  if (length rsne <? 2)%nat then Ok false else
  l ← idx rsne 1;
  let len := usize l in
  if (length rsne <? len + 2)%nat then Ok false else
  body ← slice rsne 2 (len + 2);
  Ok (match rsn_parse body with
      | Some rsn => from_option (fun '(mfpr, mfpc) => mfpr || mfpc) false (rsn_capbilities rsn)
      | None => false
      end).

Definition ap_mfp_capable (b : BssInfo) : outcome WifiError.t bool := rsne_mfp_capable (ap_rsne b).
Definition ap_supports_sae_h2e (b : BssInfo) : bool := ap_rsnxe_supports_sae_h2e (ap_rsnxe b).
Definition ap_ocv_capable (b : BssInfo) : bool := ap_rsne_supports_ocv (ap_rsne b).
Definition ap_ext_key_id_capable (b : BssInfo) : bool := ap_rsne_supports_ext_key_id (ap_rsne b).

(** ** Security of a BSS *)

Definition akm_rank (s : SecurityType) : Z :=
  match s with
  | FtSae | FtSaeExtKey => 5
  | FtPsk | Sae | SaeExtKey => 4
  | Wpa2PskSha256 => 3
  | Owe | Wpa2Psk => 2
  | Wpa2EntSha256 | Wpa2Ent => 1
  | Open | Unsupported => 0
  end.

Definition security_name (s : SecurityType) : string :=
  match s with
  | Open => "Open"
  | Wpa2Psk | Wpa2PskSha256 => "WPA2"
  | Wpa2Ent | Wpa2EntSha256 => "WPA2-Enterprise"
  | Owe => "OWE"
  | Sae | SaeExtKey => "WPA3"
  | FtPsk => "WPA2"
  | FtSae | FtSaeExtKey => "WPA3"
  | Unsupported => "WPA"
  end.

(** The [match akm] of [security_from_rsne]; none is [continue]. *)
Definition akm_security (akm : Akm.t) : option SecurityType :=
  match akm with
  | Akm.FtSae => Some FtSae
  | Akm.FtSaeGroupDependentHash => Some FtSaeExtKey
  | Akm.FtPsk => Some FtPsk
  | Akm.Sae => Some Sae
  | Akm.SaeGroupDependentHash => Some SaeExtKey
  | Akm.Owe => Some Owe
  | Akm.Psk => Some Wpa2Psk
  | Akm.PskSha256 => Some Wpa2PskSha256
  | Akm.Ieee8021x => Some Wpa2Ent
  | Akm.Ieee8021xSha256 => Some Wpa2EntSha256
  | Akm.Other _ => None
  end.

Definition better_akm (best : SecurityType) (akm : Akm.t) : SecurityType :=
  match akm_security akm with
  | None => best
  | Some candidate => if akm_rank best <? akm_rank candidate then candidate else best
  end.

Definition security_from_rsne (body : list Z) : SecurityType * option string :=
  match rsn_parse body with
  | None => (Unsupported, Some "unparsable security information")
  | Some rsn =>
      let best := fold_left better_akm (akm_suits rsn) Open in
      if bool_decide (group_cipher rsn = Some Tkip) then
        let reason := if bool_decide (best = Open)
                      then "TKIP is deprecated and not supported by shuli"
                      else "TKIP " +:+ security_name best
                           +:+ " is deprecated and not supported by shuli" in
        (Unsupported, Some reason)
      else if bool_decide (best = Open)
      then (Unsupported, Some "unsupported security mode")
      else (best, None)
  end.

Definition preferred_group_mgmt_ciphers : list CipherSuite :=
  [BipGmac256; BipCmac256; BipGmac128; BipCmac128].

Definition negotiate_group_mgmt_cipher (ap_rsne : list Z) : CipherSuite :=
  match parse_group_mgmt_cipher ap_rsne with
  | None => BipCmac128
  | Some ap =>
      default BipCmac128
        (List.find (fun preferred => bool_decide (ap = preferred)) preferred_group_mgmt_ciphers)
  end.

Definition IE_ID_VENDOR : Z := 0xDD.
Definition WPA_IE_OUI : list Z := [0x00; 0x50; 0xF2].
Definition WPA_IE_TYPE : Z := 1.

(** The variables of the walk of [detect_security_with_privacy]. *)
Record seen := mkSeen {
  seen_rsne : list Z;
  seen_rsnxe : list Z;
  seen_mdie : option MdieInfo;
  seen_wpa_ie : bool;
}.

Definition is_wpa_ie (body : list Z) : bool :=
  (4 <=? length body)%nat && bool_decide (take 3 body = WPA_IE_OUI)
  && bool_decide (body !! 3%nat = Some WPA_IE_TYPE).

Definition see_element (ies : list Z) (pos : nat) (header : ElementHeader) (body : list Z) (s : seen)
  : outcome WifiError.t (visit seen) :=
  let id := element_id header in
  Ok (Next (
    if (id =? ELEMENT_ID_RSN) && bool_decide (seen_rsne s = [])
    then mkSeen (ie_at ies pos) (seen_rsnxe s) (seen_mdie s) (seen_wpa_ie s) else
    if (id =? ELEMENT_ID_RSN_EXT) && bool_decide (seen_rsnxe s = [])
    then mkSeen (seen_rsne s) (ie_at ies pos) (seen_mdie s) (seen_wpa_ie s) else
    if (id =? ELEMENT_ID_MDIE) && bool_decide (seen_mdie s = None)
    then mkSeen (seen_rsne s) (seen_rsnxe s)
           ((fun '(mdid, ft_capab) => mkMdieInfo mdid ft_capab) <$> parse_mdie body) (seen_wpa_ie s) else
    if (id =? IE_ID_VENDOR) && negb (seen_wpa_ie s)
    then mkSeen (seen_rsne s) (seen_rsnxe s) (seen_mdie s) (is_wpa_ie body)
    else s)).

Definition detect_security_with_privacy (ies : list Z) (privacy : bool)
  : outcome WifiError.t BssScanSecurity.t :=
  s ← walk (walk_fuel ies) (see_element ies) ies 0 (mkSeen [] [] None false);
  let rsne := seen_rsne s in
  x ← (if (2 <? length rsne)%nat
       then body ← slice_from rsne 2; Ok (security_from_rsne body)
       else if seen_wpa_ie s then Ok (Unsupported, Some "WPA1 is not supported")
       else if privacy
       then Ok (Unsupported, Some "WEP/privacy-only networks are not supported")
       else Ok (Open, None));
  let '(security, unsupported_reason) := (x : SecurityType * option string) in
  let group_mgmt_cipher :=
    if (2 <? length rsne)%nat then negotiate_group_mgmt_cipher rsne else BipCmac128 in
  Ok (BssScanSecurity.mk security rsne (seen_rsnxe s) group_mgmt_cipher (seen_mdie s)
        unsupported_reason).

Definition detect_security (ies : list Z) : outcome WifiError.t BssScanSecurity.t :=
  detect_security_with_privacy ies false.

End capabilities.

(** ** The order of BSSes and the selection *)

Definition array_cmp (a b : list Z) : comparison :=
  if array_lt a b then Lt else if array_lt b a then Gt else Eq.

Definition then_with (c d : comparison) : comparison := match c with Eq => d | _ => c end.

(** [BssInfo::cmp]. *)
Definition bss_cmp (a b : BssInfo) : comparison :=
  then_with (Z.compare (signal_dbm a) (signal_dbm b))
    (then_with (Z.compare (freq_mhz a) (freq_mhz b)) (array_cmp (bssid a) (bssid b))).

(** [Iterator::max_by]: of several maxima, the last. *)
Definition max_by {A} (cmp : A -> A -> comparison) (l : list A) : option A :=
  fold_left (fun acc x => match acc with
                          | None => Some x
                          | Some m => Some (match cmp m x with Gt => m | _ => x end)
                          end) l None.

Abbreviation candidate := (BssInfo * NetworkConfig.t)%type.

Definition or_else {A} (a b : option A) : option A := match a with Some x => Some x | None => b end.

Definition by_bss (a b : candidate) : comparison := bss_cmp a.1 b.1.

(** The conditions that both passes of the selection share. *)
Definition eligible (incl : BssInfo -> bool) (c : candidate) : bool :=
  incl c.1 && NetworkConfig.matches_bssid c.2 (bssid c.1)
  && NetworkConfig.accepts_security c.2 (security c.1).

Definition best_scan_candidate_filtered (candidates : list candidate) (incl : BssInfo -> bool)
  : option candidate :=
  or_else
    (max_by by_bss
       (List.filter (fun c => eligible incl c && NetworkConfig.prefered c.2
                              && (DEFAULT_SWITCH_SSID_LOWER_THAN_DBM <=? signal_dbm c.1))
          candidates))
    (max_by by_bss (List.filter (eligible incl) candidates)).

Definition best_scan_candidate (candidates : list candidate) : option candidate :=
  best_scan_candidate_filtered candidates (fun _ => true).

Definition best_hinted_candidate_filtered (candidates : list candidate) (incl : BssInfo -> bool)
  : option candidate :=
  best_scan_candidate_filtered
    (List.filter (fun c => Hints.knows_bssid (NetworkConfig.hints c.2) (bssid c.1)) candidates) incl.

Definition best_prefered_candidate_filtered (candidates : list candidate) (incl : BssInfo -> bool)
  : option candidate :=
  let prefered := List.filter (fun c => NetworkConfig.prefered c.2) candidates in
  or_else (best_hinted_candidate_filtered prefered incl)
    (best_scan_candidate_filtered prefered incl).

Definition best_retry_candidate (candidates : list candidate) (failed_bssid : list Z) (ssid : string)
  (security_base : SecurityType) (is_ignored : list Z -> bool) : option candidate :=
  max_by by_bss
    (List.filter (fun c => negb (bool_decide (bssid c.1 = failed_bssid))
       && bool_decide (NetworkConfig.ssid c.2 = ssid)
       && NetworkConfig.matches_bssid c.2 (bssid c.1)
       && bool_decide (base (security c.1) = base security_base)
       && negb (is_ignored (bssid c.1))) candidates).

(** [sort_unstable] and [dedup]. *)
Fixpoint dedup (l : list Z) : list Z :=
  match l with
  | x :: (y :: _) as l' => if x =? y then dedup l' else x :: dedup l'
  | l => l
  end.

Definition sorted_set (l : list Z) : list Z := dedup (merge_sort Z.le l).

Definition configured_hint_frequencies (networks : list NetworkConfig.t) : list Z :=
  sorted_set
    (List.filter (fun freq => negb (freq =? 0))
       (mjoin ((fun n => Hints.frequencies_mhz (NetworkConfig.hints n)
                         ++ (frequency_mhz <$> Hints.known_bss (NetworkConfig.hints n)))
               <$> networks))).

(** ** SSIDs to probe *)

(** The cursor and [wildcard_next]. *)
Record rotation := mkRotation { cursor : nat; wildcard_next : bool }.

(** [while used < capacity]: the SSIDs pushed. *)
Fixpoint take_ssids (capacity : nat) (hidden : list string) (start i : nat) : list string :=
  match capacity with
  | O => []
  | S capacity =>
      let next := (S i mod length hidden)%nat in
      default "" (hidden !! i)
        :: (if (next =? start)%nat then [] else take_ssids capacity hidden start next)
  end.

Definition clamp_ssids (max_ssids : nat) : nat := Nat.min MAX_SCAN_SSIDS (Nat.max 1 max_ssids).

Definition next_scan_ssids (hidden_ssids : list string) (r : rotation) (max_ssids : nat)
  : rotation * list string :=
  let max_ssids := clamp_ssids max_ssids in
  let n := length hidden_ssids in
  if (max_ssids =? 1)%nat then
    if (n =? 0)%nat || wildcard_next r then (mkRotation (cursor r) false, [""]) else
    let i := (cursor r mod n)%nat in
    (mkRotation ((i + 1) mod n) true, [default "" (hidden_ssids !! i)])
  else
  let capacity := (max_ssids - 1)%nat in
  let start := cursor r in
  let ssids := if (n =? 0)%nat then [] else take_ssids capacity hidden_ssids start (start mod n) in
  let used := length ssids in
  let cursor' := if (used <? capacity)%nat || (n =? 0)%nat then 0%nat else ((start + used) mod n)%nat in
  (mkRotation cursor' (wildcard_next r), ssids ++ [""]).

Definition format_ssids (ssids : list string) : string :=
  String.concat ", " ((fun ssid => if bool_decide (ssid = "") then "*" else ssid) <$> ssids).

(** ** The interface *)

Inductive MlmeMode := SoftMac | FullMac.

#[global] Instance MlmeMode_eq_dec : EqDecision MlmeMode.
Proof. solve_decision. Defined.

Record Iface := mkIface {
  (** [core.config.networks], [caps.mlme], [caps.max_scan_ssids]. *)
  if_networks : list NetworkConfig.t;
  if_mlme : MlmeMode;
  if_max_scan_ssids : nat;
  (** [link.network], [link.bss_info]. *)
  link_network : NetworkConfig.t;
  link_bss : BssInfo;
  (** [scan]. *)
  hint_scan : bool;
  retry_scan : bool;
  scan_rotation : rotation;
  unsupported_security : option (string * string);
  (** [roam]. *)
  roam_scan : bool;
  roam_scan_full : bool;
  roam_target : option (list Z);
  last_scan_candidates : list candidate;
  roam_freqs : list Z;
  background_scan : bool;
  post_connect_scan : bool;
  cqm_armed : bool;
  roam_scan_count : Z;
  (** [bssid_ignore]. *)
  bssid_ignore : BssidIgnoreList.t;
  (** The scan requests made: SSIDs and frequencies. *)
  requests : list (list string * option (list Z));
}.

Abbreviation imethod := (st Iface WifiError.t).

Definition put_link (b : BssInfo) (n : NetworkConfig.t) (i : Iface) : Iface :=
  mkIface (if_networks i) (if_mlme i) (if_max_scan_ssids i) n b (hint_scan i) (retry_scan i)
    (scan_rotation i) (unsupported_security i) (roam_scan i) (roam_scan_full i) (roam_target i)
    (last_scan_candidates i) (roam_freqs i) (background_scan i) (post_connect_scan i) (cqm_armed i)
    (roam_scan_count i) (bssid_ignore i) (requests i).
Definition put_hint_scan (v : bool) (i : Iface) : Iface :=
  mkIface (if_networks i) (if_mlme i) (if_max_scan_ssids i) (link_network i) (link_bss i) v
    (retry_scan i) (scan_rotation i) (unsupported_security i) (roam_scan i) (roam_scan_full i)
    (roam_target i) (last_scan_candidates i) (roam_freqs i) (background_scan i) (post_connect_scan i)
    (cqm_armed i) (roam_scan_count i) (bssid_ignore i) (requests i).
Definition put_rotation (v : rotation) (i : Iface) : Iface :=
  mkIface (if_networks i) (if_mlme i) (if_max_scan_ssids i) (link_network i) (link_bss i)
    (hint_scan i) (retry_scan i) v (unsupported_security i) (roam_scan i) (roam_scan_full i)
    (roam_target i) (last_scan_candidates i) (roam_freqs i) (background_scan i) (post_connect_scan i)
    (cqm_armed i) (roam_scan_count i) (bssid_ignore i) (requests i).
Definition put_unsupported (v : option (string * string)) (i : Iface) : Iface :=
  mkIface (if_networks i) (if_mlme i) (if_max_scan_ssids i) (link_network i) (link_bss i)
    (hint_scan i) (retry_scan i) (scan_rotation i) v (roam_scan i) (roam_scan_full i) (roam_target i)
    (last_scan_candidates i) (roam_freqs i) (background_scan i) (post_connect_scan i) (cqm_armed i)
    (roam_scan_count i) (bssid_ignore i) (requests i).
Definition put_roam_target (v : option (list Z)) (i : Iface) : Iface :=
  mkIface (if_networks i) (if_mlme i) (if_max_scan_ssids i) (link_network i) (link_bss i)
    (hint_scan i) (retry_scan i) (scan_rotation i) (unsupported_security i) (roam_scan i)
    (roam_scan_full i) v (last_scan_candidates i) (roam_freqs i) (background_scan i)
    (post_connect_scan i) (cqm_armed i) (roam_scan_count i) (bssid_ignore i) (requests i).
Definition put_candidates (c : list candidate) (f : list Z) (i : Iface) : Iface :=
  mkIface (if_networks i) (if_mlme i) (if_max_scan_ssids i) (link_network i) (link_bss i)
    (hint_scan i) (retry_scan i) (scan_rotation i) (unsupported_security i) (roam_scan i)
    (roam_scan_full i) (roam_target i) c f (background_scan i) (post_connect_scan i) (cqm_armed i)
    (roam_scan_count i) (bssid_ignore i) (requests i).
Definition put_post_connect_scan (v : bool) (i : Iface) : Iface :=
  mkIface (if_networks i) (if_mlme i) (if_max_scan_ssids i) (link_network i) (link_bss i)
    (hint_scan i) (retry_scan i) (scan_rotation i) (unsupported_security i) (roam_scan i)
    (roam_scan_full i) (roam_target i) (last_scan_candidates i) (roam_freqs i) (background_scan i)
    v (cqm_armed i) (roam_scan_count i) (bssid_ignore i) (requests i).
Definition put_cqm_armed (v : bool) (i : Iface) : Iface :=
  mkIface (if_networks i) (if_mlme i) (if_max_scan_ssids i) (link_network i) (link_bss i)
    (hint_scan i) (retry_scan i) (scan_rotation i) (unsupported_security i) (roam_scan i)
    (roam_scan_full i) (roam_target i) (last_scan_candidates i) (roam_freqs i) (background_scan i)
    (post_connect_scan i) v (roam_scan_count i) (bssid_ignore i) (requests i).
Definition put_roam_scan_count (v : Z) (i : Iface) : Iface :=
  mkIface (if_networks i) (if_mlme i) (if_max_scan_ssids i) (link_network i) (link_bss i)
    (hint_scan i) (retry_scan i) (scan_rotation i) (unsupported_security i) (roam_scan i)
    (roam_scan_full i) (roam_target i) (last_scan_candidates i) (roam_freqs i) (background_scan i)
    (post_connect_scan i) (cqm_armed i) v (bssid_ignore i) (requests i).
Definition log_request (r : list string * option (list Z)) (i : Iface) : Iface :=
  mkIface (if_networks i) (if_mlme i) (if_max_scan_ssids i) (link_network i) (link_bss i)
    (hint_scan i) (retry_scan i) (scan_rotation i) (unsupported_security i) (roam_scan i)
    (roam_scan_full i) (roam_target i) (last_scan_candidates i) (roam_freqs i) (background_scan i)
    (post_connect_scan i) (cqm_armed i) (roam_scan_count i) (bssid_ignore i) (requests i ++ [r]).
Definition put_networks (v : list NetworkConfig.t) (i : Iface) : Iface :=
  mkIface v (if_mlme i) (if_max_scan_ssids i) (link_network i) (link_bss i) (hint_scan i)
    (retry_scan i) (scan_rotation i) (unsupported_security i) (roam_scan i) (roam_scan_full i)
    (roam_target i) (last_scan_candidates i) (roam_freqs i) (background_scan i)
    (post_connect_scan i) (cqm_armed i) (roam_scan_count i) (bssid_ignore i) (requests i).
Definition put_retry_scan (v : bool) (i : Iface) : Iface :=
  mkIface (if_networks i) (if_mlme i) (if_max_scan_ssids i) (link_network i) (link_bss i)
    (hint_scan i) v (scan_rotation i) (unsupported_security i) (roam_scan i) (roam_scan_full i)
    (roam_target i) (last_scan_candidates i) (roam_freqs i) (background_scan i)
    (post_connect_scan i) (cqm_armed i) (roam_scan_count i) (bssid_ignore i) (requests i).
Definition put_roam_scan (v : bool) (i : Iface) : Iface :=
  mkIface (if_networks i) (if_mlme i) (if_max_scan_ssids i) (link_network i) (link_bss i)
    (hint_scan i) (retry_scan i) (scan_rotation i) (unsupported_security i) v (roam_scan_full i)
    (roam_target i) (last_scan_candidates i) (roam_freqs i) (background_scan i)
    (post_connect_scan i) (cqm_armed i) (roam_scan_count i) (bssid_ignore i) (requests i).
Definition put_roam_scan_full (v : bool) (i : Iface) : Iface :=
  mkIface (if_networks i) (if_mlme i) (if_max_scan_ssids i) (link_network i) (link_bss i)
    (hint_scan i) (retry_scan i) (scan_rotation i) (unsupported_security i) (roam_scan i) v
    (roam_target i) (last_scan_candidates i) (roam_freqs i) (background_scan i)
    (post_connect_scan i) (cqm_armed i) (roam_scan_count i) (bssid_ignore i) (requests i).
Definition put_roam_freqs (v : list Z) (i : Iface) : Iface :=
  mkIface (if_networks i) (if_mlme i) (if_max_scan_ssids i) (link_network i) (link_bss i)
    (hint_scan i) (retry_scan i) (scan_rotation i) (unsupported_security i) (roam_scan i)
    (roam_scan_full i) (roam_target i) (last_scan_candidates i) v (background_scan i)
    (post_connect_scan i) (cqm_armed i) (roam_scan_count i) (bssid_ignore i) (requests i).
Definition put_background_scan (v : bool) (i : Iface) : Iface :=
  mkIface (if_networks i) (if_mlme i) (if_max_scan_ssids i) (link_network i) (link_bss i)
    (hint_scan i) (retry_scan i) (scan_rotation i) (unsupported_security i) (roam_scan i)
    (roam_scan_full i) (roam_target i) (last_scan_candidates i) (roam_freqs i) v
    (post_connect_scan i) (cqm_armed i) (roam_scan_count i) (bssid_ignore i) (requests i).
Definition put_bssid_ignore (v : BssidIgnoreList.t) (i : Iface) : Iface :=
  mkIface (if_networks i) (if_mlme i) (if_max_scan_ssids i) (link_network i) (link_bss i)
    (hint_scan i) (retry_scan i) (scan_rotation i) (unsupported_security i) (roam_scan i)
    (roam_scan_full i) (roam_target i) (last_scan_candidates i) (roam_freqs i)
    (background_scan i) (post_connect_scan i) (cqm_armed i) (roam_scan_count i) v (requests i).

Definition mlme_security_unsupported (mlme : MlmeMode) (security : SecurityType) : option string :=
  if bool_decide (mlme = SoftMac) then None else
  match security with
  | Sae | SaeExtKey | FtSae | FtSaeExtKey =>
      Some "WPA3-SAE requires a SoftMAC driver (NL80211_CMD_AUTHENTICATE)"
  | FtPsk => Some "802.11r FT-PSK requires a SoftMAC driver"
  | Owe => Some "OWE is not supported on FullMAC drivers yet"
  | _ => None
  end.

(** [trigger_scan] answers [reply]. *)
Definition send_out_scan_request (reply : outcome WifiError.t unit) : imethod unit :=
  i ← get;
  let hidden := NetworkConfig.ssid <$> List.filter NetworkConfig.hidden (if_networks i) in
  let '(rot, ssids) := next_scan_ssids hidden (scan_rotation i) (if_max_scan_ssids i) in
  modify (put_rotation rot);;
  freqs ← (if roam_scan i then
             mret (if negb (roam_scan_full i) then
                     let freqs := List.filter (fun freq => negb (freq =? 0)) (roam_freqs i) in
                     if bool_decide (freqs = []) then None else Some freqs
                   else None)
           else if hint_scan i then
             let freqs := configured_hint_frequencies (if_networks i) in
             if bool_decide (freqs = []) then modify (put_hint_scan false);; mret None
             else mret (Some freqs)
           else mret None);
  modify (log_request (ssids, freqs));;
  lift reply.

Section scan_results.
Context `{ElementBuffer} `{ScanLib}.

(** [format!("{:?}")] of a security type. *)
Definition security_debug (s : SecurityType) : string :=
  match s with
  | Open => "Open" | Wpa2Psk => "Wpa2Psk" | Wpa2PskSha256 => "Wpa2PskSha256" | Wpa2Ent => "Wpa2Ent"
  | Wpa2EntSha256 => "Wpa2EntSha256" | Owe => "Owe" | Sae => "Sae" | FtPsk => "FtPsk"
  | FtSae => "FtSae" | SaeExtKey => "SaeExtKey" | FtSaeExtKey => "FtSaeExtKey"
  | Unsupported => "Unsupported"
  end.

(** The body of [for bss in &bss_list] of [collect_scan_candidates]: a candidate,
    or the reason why there is none, or neither. *)
Inductive collected := Skip | Refused (ssid reason : string) | Candidate (c : candidate).

Definition collect_one (networks : list NetworkConfig.t) (mlme : MlmeMode) (bss : list BssAttr)
  : outcome WifiError.t collected :=
  match extract_ies bss with
  | None => Ok Skip
  | Some ies =>
  match extract_ssid_from_ies ies with
  | None => Ok Skip
  | Some bss_ssid =>
  match List.find (fun n => bool_decide (NetworkConfig.ssid n = bss_ssid)) networks with
  | None => Ok Skip
  | Some network =>
  match extract_bssid bss, extract_freq bss, extract_signal_dbm bss with
  | Some bssid, Some freq_mhz, Some signal_dbm =>
      d ← detect_security_with_privacy ies (extract_privacy bss);
      let sec := BssScanSecurity.security d in
      if negb (bool_decide (sec = Unsupported)) && negb (NetworkConfig.accepts_security network sec)
      then Ok (Refused bss_ssid ("BSS uses " +:+ security_debug sec
                                 +:+ " but the configured credentials do not match"))
      else if bool_decide (sec = Unsupported)
      then Ok (Refused bss_ssid
                 (default "unsupported security mode" (BssScanSecurity.unsupported_reason d)))
      else match mlme_security_unsupported mlme sec with
           | Some reason => Ok (Refused bss_ssid reason)
           | None =>
               Ok (Candidate
                     (mkBssInfo bssid freq_mhz signal_dbm sec (BssScanSecurity.ap_rsne d)
                        (BssScanSecurity.ap_rsnxe d) (BssScanSecurity.group_mgmt_cipher d)
                        (BssScanSecurity.mdie d) false (ap_supports_btm ies)
                        (ap_supports_rm_neighbor_report ies), network))
           end
  | _, _, _ => Ok Skip
  end end end end.

Definition first_reason (known : option (string * string)) (c : collected)
  : option (string * string) :=
  match known, c with
  | None, Refused ssid reason => Some (ssid, reason)
  | _, _ => known
  end.

Definition candidates_of (l : list collected) : list candidate :=
  omap (fun c => match c with Candidate c => Some c | _ => None end) l.

(** [dump] is the answer of [get_scan_results]. *)
Definition collect_scan_candidates (dump : outcome WifiError.t (list (list BssAttr))) : imethod unit :=
  bss_list ← lift dump;
  modify (put_unsupported None);;
  i ← get;
  found ← lift (collect (collect_one (if_networks i) (if_mlme i)) bss_list);
  modify (put_unsupported (fold_left first_reason found None));;
  let candidates := candidates_of found in
  let freqs := (freq_mhz ∘ fst <$> candidates)
               ++ (if negb (freq_mhz (link_bss i) =? 0) then [freq_mhz (link_bss i)] else []) in
  modify (put_candidates candidates (take ROAM_QUICK_SCAN_MAX_FREQS (sorted_set freqs))).

(** The choice of [process_scan_results], with the roam target already taken. *)
Definition select_candidate (now : Z) (hint : option (list Z)) (i : Iface) : option candidate :=
  let candidates := last_scan_candidates i in
  let failed_bssid := bssid (link_bss i) in
  let not_ignored (b : BssInfo) := negb (BssidIgnoreList.is_ignored now (bssid_ignore i) (bssid b)) in
  let hinted_roam :=
    h ← hint;
    List.find (fun c => bool_decide (bssid c.1 = h) && NetworkConfig.matches_bssid c.2 (bssid c.1))
      candidates in
  let prefered_configured := existsb NetworkConfig.prefered (if_networks i) in
  let hinted_prefered :=
    if hint_scan i && prefered_configured
    then best_prefered_candidate_filtered candidates not_ignored else None in
  let hinted_known :=
    if hint_scan i && negb prefered_configured
    then best_hinted_candidate_filtered candidates not_ignored else None in
  let hinted_missed :=
    hint_scan i
    && (if prefered_configured then bool_decide (hinted_prefered = None)
        else existsb (fun n => negb (bool_decide (Hints.known_bss (NetworkConfig.hints n) = [])))
               (if_networks i)) in
  or_else hinted_roam (or_else hinted_prefered (or_else hinted_known
    (if hinted_missed then None
     else or_else
            (best_scan_candidate_filtered candidates
               (fun b => not_ignored b
                         && negb (retry_scan i && bool_decide (bssid b = failed_bssid))))
            (if retry_scan i then None else best_scan_candidate candidates)))).

(** What is reported when there is no candidate. *)
Definition no_candidate (i : Iface) : WifiError.t :=
  let not_found :=
    WifiError.new WifiError.SsidNotFound
      ("no configured SSID ([" +:+ String.concat ", " (NetworkConfig.ssid <$> if_networks i)
       +:+ "]) found in scan results") in
  match unsupported_security i with
  | Some (ssid, reason) =>
      if existsb (fun n => bool_decide (NetworkConfig.ssid n = ssid)) (if_networks i)
      then WifiError.with_ssid (WifiError.new WifiError.NoSupport reason) ssid
      else not_found
  | None => not_found
  end.

Definition process_scan_results (now : Z) (dump : outcome WifiError.t (list (list BssAttr)))
  : imethod unit :=
  collect_scan_candidates dump;;
  i ← get;
  modify (put_roam_target None);;
  match select_candidate now (roam_target i) i with
  | None => lift (Err (no_candidate i))
  | Some (bss_info, network) =>
      modify (put_link bss_info network);;
      modify (put_cqm_armed false);;
      modify (put_post_connect_scan false)
  end.

End scan_results.

(** ** Roam scans *)

Definition roam_threshold (i : Iface) : option Z :=
  if NetworkConfig.roaming (link_network i)
  then Some (NetworkConfig.roaming_threshold (link_network i)) else None.

(** What [process_roam_scan_results] does with the results: it calls
    [trigger_roam_scan(true)] or [start_roam], or returns. *)
Inductive RoamDecision :=
| Stay
| FullScan
| StartRoam (target : BssInfo) (network : NetworkConfig.t).

(** The signal to compare with: the stronger of the live signal and the scan
    entry; none when the live signal shows a healthy link. *)
Definition roam_baseline (post_connect : bool) (live : outcome WifiError.t (option Z)) (i : Iface)
  : option Z :=
  let scan_dump_current :=
    default (signal_dbm (link_bss i))
      (signal_dbm ∘ fst <$>
       List.find (fun c => bool_decide (bssid c.1 = bssid (link_bss i))) (last_scan_candidates i)) in
  match live with
  | Ok (Some live) =>
      if negb post_connect && from_option (fun threshold => threshold <=? live) false (roam_threshold i)
      then None else Some (Z.max live scan_dump_current)
  | _ => Some scan_dump_current
  end.

(** A BSS of the connected network that is good enough. *)
Definition same_network_target (current_signal : Z) (i : Iface) (c : candidate) : bool :=
  negb (bool_decide (bssid c.1 = bssid (link_bss i)))
  && bool_decide (NetworkConfig.ssid c.2 = NetworkConfig.ssid (link_network i))
  && NetworkConfig.matches_bssid c.2 (bssid c.1)
  && bool_decide (base (security c.1) = base (security (link_bss i)))
  && (if background_scan i then current_signal <? signal_dbm c.1
      else current_signal <=? signal_dbm c.1).

(** A BSS of another configured network. *)
Definition other_network_target (good_signal : Z) (i : Iface) (c : candidate) : bool :=
  negb (bool_decide (bssid c.1 = bssid (link_bss i)))
  && negb (bool_decide (NetworkConfig.ssid c.2 = NetworkConfig.ssid (link_network i)))
  && NetworkConfig.matches_bssid c.2 (bssid c.1)
  && (good_signal <=? signal_dbm c.1)
  && NetworkConfig.can_roam_to_security c.2 (security c.1).

Definition by_signal (a b : candidate) : comparison :=
  Z.compare (signal_dbm a.1) (signal_dbm b.1).

Definition critical_dbm (i : Iface) : Z := NetworkConfig.switch_ssid_lower_than_dbm (link_network i).

Definition roam_decision (current_signal : Z) (i : Iface) : RoamDecision :=
  let candidates := last_scan_candidates i in
  let best := max_by by_bss (List.filter (same_network_target current_signal i) candidates) in
  let target :=
    match best with
    | Some (bss, _) => Some (bss, link_network i)
    | None =>
        if current_signal <? critical_dbm i then
          let good_signal := default (critical_dbm i) (roam_threshold i) in
          max_by by_signal (List.filter (other_network_target good_signal i) candidates)
        else None
    end in
  match target with
  | Some (bss, network) => StartRoam bss network
  | None =>
      if negb (roam_scan_full i)
         && from_option (fun threshold => current_signal <? threshold) false (roam_threshold i)
      then FullScan else Stay
  end.

(** After the dump: the count of roam scans and the decision. *)
Definition decide_roam (post_connect : bool) (live : outcome WifiError.t (option Z))
  : imethod RoamDecision :=
  i ← get;
  if roam_scan_count i =? 2 ^ 64 - 1 then lift Panic else
  modify (put_roam_scan_count (roam_scan_count i + 1));;
  i ← get;
  mret (from_option (fun current => roam_decision current i) Stay
          (roam_baseline post_connect live i)).

Definition process_roam_scan_results `{ElementBuffer} `{ScanLib}
  (dump : outcome WifiError.t (list (list BssAttr))) (live : outcome WifiError.t (option Z))
  : imethod RoamDecision :=
  fun i =>
  let post_connect := post_connect_scan i in
  match collect_scan_candidates dump (put_post_connect_scan false i) with
  | (i, Ok _) => decide_roam post_connect live i
  | (i, Err _) => (i, Ok Stay)
  | (i, Panic) => (i, Panic)
  | (i, Diverge) => (i, Diverge)
  end.

(** ** Scan dumps for callers *)

Section dump.
Context `{ElementBuffer} `{ScanLib}.

(** Whether the beacons of each BSS carry an SSID: the inner loop. *)
Definition note_beacons (m : gmap (list Z) bool) (bss : list BssAttr) : gmap (list Z) bool :=
  match extract_bssid bss with
  | None => m
  | Some bssid =>
      fold_left (fun m info =>
        match info with
        | AttrBeaconIes ies =>
            <[bssid := from_option (fun s => negb (bool_decide (s = ""))) false
                         (extract_ssid_from_ies ies)]> m
        | _ => m
        end) bss m
  end.

Definition scan_result (beacon_has_ssid : gmap (list Z) bool) (bss : list BssAttr)
  : outcome WifiError.t (option (BssInfo * list Z)) :=
  match extract_ies bss with
  | None => Ok None
  | Some ies =>
  match extract_ssid_from_ies ies with
  | None => Ok None
  | Some ssid =>
  if bool_decide (ssid = "") then Ok None else
  match extract_bssid bss, extract_freq bss, extract_signal_dbm bss with
  | Some bssid, Some freq_mhz, Some signal_dbm =>
      d ← detect_security_with_privacy ies (extract_privacy bss);
      Ok (Some (mkBssInfo bssid freq_mhz signal_dbm (BssScanSecurity.security d)
                  (BssScanSecurity.ap_rsne d) (BssScanSecurity.ap_rsnxe d)
                  (BssScanSecurity.group_mgmt_cipher d) (BssScanSecurity.mdie d)
                  (bool_decide (beacon_has_ssid !! bssid = Some false))
                  (ap_supports_btm ies) (ap_supports_rm_neighbor_report ies), ies))
  | _, _, _ => Ok None
  end end end.

(** [seen_bssids.insert]: the first entry of a BSSID stays. *)
Fixpoint first_of_bssid (seen : gset (list Z)) (l : list (BssInfo * list Z)) : list (BssInfo * list Z) :=
  match l with
  | [] => []
  | r :: l =>
      if bool_decide (bssid r.1 ∈ seen) then first_of_bssid seen l
      else r :: first_of_bssid ({[bssid r.1]} ∪ seen) l
  end.

Definition scan_results_from_bss_list (bss_list : list (list BssAttr))
  : outcome WifiError.t (list (BssInfo * list Z)) :=
  let beacon_has_ssid := fold_left note_beacons bss_list ∅ in
  results ← collect (scan_result beacon_has_ssid) bss_list;
  Ok (first_of_bssid ∅ (omap id results)).

End dump.

(** ** Scans on demand *)

(** What the kernel answers a scan on demand: when the handle is opened (the cap of the
    driver on the SSIDs of a request), to a [trigger_scan] and to a dump.  An answer may
    depend on the requests made before. *)
Record ScanKernel := mkScanKernel {
  k_open : WifiError.t + nat;
  k_trigger : list (list string) -> list string -> WifiError.t + unit;
  k_dump : list (list string) -> WifiError.t + list (list BssAttr);
}.

Definition answer {A} (a : WifiError.t + A) : outcome WifiError.t A :=
  match a with inl e => Err e | inr x => Ok x end.

(** The state of a scan on demand: the SSIDs of the requests made, oldest first. *)
Abbreviation smethod := (st (list (list string)) WifiError.t).

Definition trigger_scan (k : ScanKernel) (ssids : list string) : smethod unit :=
  made ← get;
  modify (fun made => made ++ [ssids]);;
  lift (answer (k_trigger k made ssids)).

Definition get_scan_results (k : ScanKernel) : smethod (list (list BssAttr)) :=
  made ← get;
  lift (answer (k_dump k made)).

(** [for hidden in &hidden_ssids], for a driver with one SSID per request. *)
Fixpoint scan_each (k : ScanKernel) (hidden_ssids : list string) : smethod unit :=
  match hidden_ssids with
  | [] => mret tt
  | hidden :: rest => trigger_scan k [hidden];; scan_each k rest
  end.

(** The loop for a driver with more than one SSID per request. *)
Fixpoint scan_rounds (fuel : nat) (k : ScanKernel) (hidden_ssids : list string) (r : rotation)
  (max_ssids rounds : nat) : smethod unit :=
  match fuel with
  | O => lift Diverge
  | S fuel =>
      let max_rounds := S (length hidden_ssids) in
      let '(r, ssids) := next_scan_ssids hidden_ssids r max_ssids in
      trigger_scan k ssids;;
      let rounds := S rounds in
      if (length hidden_ssids =? 0)%nat || (cursor r =? 0)%nat || (max_rounds <=? rounds)%nat
      then mret tt
      else scan_rounds fuel k hidden_ssids r max_ssids rounds
  end.

(** [WifiClient::scan]. *)
Definition scan `{ElementBuffer} `{ScanLib} (k : ScanKernel) (hidden_ssids : list string)
  : smethod (list (BssInfo * list Z)) :=
  wiphy_max_scan_count ← lift (answer (k_open k));
  let max_ssids := clamp_ssids wiphy_max_scan_count in
  (if (max_ssids =? 1)%nat
   then trigger_scan k [""];; scan_each k hidden_ssids
   else scan_rounds (S (length hidden_ssids)) k hidden_ssids (mkRotation 0 true) max_ssids 0);;
  bss_list ← get_scan_results k;
  lift (scan_results_from_bss_list bss_list).

Module ScanFacts.
Import OweFacts.

(** ** Probing hidden SSIDs *)

(** The SSIDs at [k] consecutive positions, around the end. *)
Definition window (hidden : list string) (start k : nat) : list string :=
  (fun j => default "" (hidden !! ((start + j) mod length hidden)%nat)) <$> seq 0 k.

Lemma window_length hidden start k : length (window hidden start k) = k.
Proof. unfold window. by rewrite length_fmap, length_seq. Qed.

Lemma window_S hidden start k :
  window hidden start (S k)
  = default "" (hidden !! (start mod length hidden)%nat) :: window hidden (S start) k.
Proof.
  unfold window. cbn [seq fmap list_fmap]. rewrite Nat.add_0_r. f_equal.
  rewrite <- fmap_S_seq, <- list_fmap_compose. apply list_fmap_ext. intros j x _. cbn.
  by rewrite <- plus_n_Sm.
Qed.

Lemma window_elem hidden start k x s :
  (start <= x < start + k)%nat -> hidden !! (x mod length hidden)%nat = Some s ->
  s ∈ window hidden start k.
Proof.
  intros Hx Hs. unfold window. apply list_elem_of_fmap. exists (x - start)%nat.
  replace (start + (x - start))%nat with x by lia. rewrite Hs. split; [done|].
  apply elem_of_seq. lia.
Qed.

Lemma mod_wrap a n : (n <= a < 2 * n)%nat -> (a mod n = a - n)%nat.
Proof.
  intros H. replace a with (a - n + 1 * n)%nat at 1 by lia.
  rewrite Nat.Div0.mod_add. apply Nat.mod_small. lia.
Qed.

Lemma take_ssids_window hidden start capacity : forall k,
  (start < length hidden)%nat -> (k < length hidden)%nat ->
  take_ssids capacity hidden start ((start + k) mod length hidden)
  = window hidden (start + k) (Nat.min capacity (length hidden - k)).
Proof.
  induction capacity as [|capacity IH]; intros k Hs Hk; [done|]. cbn [take_ssids].
  assert (S ((start + k) mod length hidden) mod length hidden
          = (start + S k) mod length hidden)%nat as Hn.
  { rewrite <- Nat.add_1_r, Nat.Div0.add_mod_idemp_l. f_equal. lia. }
  rewrite Hn. destruct (_ =? start)%nat eqn:He.
  - assert (length hidden - k = 1)%nat as ->.
    { apply Nat.eqb_eq in He. destruct (decide (S k = length hidden)); [lia|].
      destruct (decide (start + S k < length hidden)%nat).
      - rewrite Nat.mod_small in He; lia.
      - rewrite mod_wrap in He; lia. }
    replace (Nat.min (S capacity) 1) with 1%nat by lia. by rewrite window_S.
  - assert (S k < length hidden)%nat.
    { apply Nat.eqb_neq in He. destruct (decide (S k = length hidden)) as [Hl|]; [|lia].
      exfalso. apply He. rewrite Hl, mod_wrap; lia. }
    rewrite IH by lia. replace (length hidden - k)%nat with (S (length hidden - S k)) by lia.
    rewrite <- Nat.succ_min_distr, window_S. by rewrite plus_n_Sm.
Qed.

(** One request for a driver with several SSIDs: a window and the wildcard. *)
Lemma next_window hidden c w max :
  (0 < length hidden)%nat -> (c < length hidden)%nat -> (2 <= clamp_ssids max)%nat ->
  let capacity := (clamp_ssids max - 1)%nat in
  next_scan_ssids hidden (mkRotation c w) max
  = (mkRotation (if (length hidden <? capacity)%nat then 0
                 else (c + Nat.min capacity (length hidden)) mod length hidden)%nat w,
     window hidden c (Nat.min capacity (length hidden)) ++ [""]).
Proof.
  intros Hn Hc Hm. unfold next_scan_ssids. cbv zeta. cbn [cursor wildcard_next].
  destruct (clamp_ssids max =? 1)%nat eqn:H1; [lia|].
  destruct (length hidden =? 0)%nat eqn:H0; [lia|].
  replace (c mod length hidden)%nat with ((c + 0) mod length hidden)%nat by (f_equal; lia).
  rewrite take_ssids_window, window_length, Nat.sub_0_r, orb_false_r by lia.
  rewrite Nat.add_0_r. f_equal. f_equal.
  destruct (length hidden <? clamp_ssids max - 1)%nat eqn:Hl.
  - by rewrite Nat.min_r, Hl by lia.
  - rewrite Nat.min_l by lia. by rewrite Nat.ltb_irrefl.
Qed.

(** The requests of the rounds, when none is refused. *)
Fixpoint planned_rounds (fuel : nat) (hidden : list string) (r : rotation) (max rounds : nat)
  : outcome WifiError.t (list (list string)) :=
  match fuel with
  | O => Diverge
  | S fuel =>
      let '(r, ssids) := next_scan_ssids hidden r max in
      if (length hidden =? 0)%nat || (cursor r =? 0)%nat || (S (length hidden) <=? S rounds)%nat
      then Ok [ssids]
      else more ← planned_rounds fuel hidden r max (S rounds); Ok (ssids :: more)
  end.

(** Requests made one after the other, up to the first that is refused. *)
Fixpoint run_requests (k : ScanKernel) (reqs : list (list string)) : smethod unit :=
  match reqs with
  | [] => mret tt
  | req :: reqs => trigger_scan k req;; run_requests k reqs
  end.

Lemma scan_each_run k hidden made :
  scan_each k hidden made = run_requests k ((fun h => [h]) <$> hidden) made.
Proof.
  revert made. induction hidden as [|h hidden IH]; intros made; [done|].
  cbn [scan_each run_requests fmap list_fmap]. unfold mbind, st_bind.
  destruct (trigger_scan k [h] made) as [made' [[]|e| |]]; [apply IH|done..].
Qed.

Lemma scan_rounds_run k fuel hidden : forall r max rounds reqs made,
  planned_rounds fuel hidden r max rounds = Ok reqs ->
  scan_rounds fuel k hidden r max rounds made = run_requests k reqs made.
Proof.
  induction fuel as [|fuel IH]; intros r max rounds reqs made; [done|].
  cbn [planned_rounds scan_rounds]. destruct (next_scan_ssids hidden r max) as [r' ssids].
  destruct (_ || _ || _).
  - intros [= <-]. done.
  - intros (more & Hm & [= <-])%bind_ok. cbn [run_requests].
    unfold mbind, st_bind. destruct (trigger_scan k ssids made) as [made' [[]|e| |]]; [|done..].
    by apply IH.
Qed.

(** Every request of the list is accepted, made in this order after [made]. *)
Fixpoint accepted (k : ScanKernel) (made reqs : list (list string)) : Prop :=
  match reqs with
  | [] => True
  | req :: reqs => k_trigger k made req = inr tt /\ accepted k (made ++ [req]) reqs
  end.

Lemma trigger_bind {A} k req (m : smethod A) made :
  (trigger_scan k req;; m) made
  = match k_trigger k made req with
    | inl e => (made ++ [req], Err e)
    | inr _ => m (made ++ [req])
    end.
Proof.
  unfold mbind at 1, st_bind, trigger_scan. rewrite st_bind_get, st_bind_modify.
  unfold lift, answer. by destruct (k_trigger k made req).
Qed.

(** All requests are made, or those up to the first that is refused. *)
Lemma run_requests_spec k reqs made :
  (accepted k made reqs /\ run_requests k reqs made = (made ++ reqs, Ok tt))
  \/ (exists before req after e, reqs = before ++ req :: after /\ accepted k made before
       /\ k_trigger k (made ++ before) req = inl e
       /\ run_requests k reqs made = (made ++ before ++ [req], Err e)).
Proof.
  revert made. induction reqs as [|req reqs IH]; intros made; cbn [run_requests accepted].
  - left. by rewrite app_nil_r.
  - rewrite trigger_bind. destruct (k_trigger k made req) as [e|[]] eqn:Ht.
    + right. exists [], req, reqs, e. rewrite app_nil_r. cbn [app accepted]. by repeat split.
    + destruct (IH (made ++ [req])) as [[Ha Hr]|(before & r & after & e & -> & Ha & Hk & Hr)].
      * left. rewrite Hr, <- app_assoc. done.
      * right. exists (req :: before), r, after, e. rewrite Hr.
        rewrite <- !app_assoc in *. cbn [app accepted] in *. done.
Qed.

(** Every position from round [r] to the one where the cursor is back at the start. *)
Lemma rounds_cover hidden w max : (2 <= clamp_ssids max)%nat ->
  let n := length hidden in let c := (clamp_ssids max - 1)%nat in
  (c < n)%nat -> forall fuel r, (n < r + fuel)%nat -> (r < n)%nat ->
  exists reqs R, planned_rounds fuel hidden (mkRotation ((r * c) mod n) w) max r = Ok reqs
    /\ (r < R <= n)%nat /\ ((R * c) mod n = 0)%nat
    /\ (forall x s, (r * c <= x < R * c)%nat -> hidden !! (x mod n)%nat = Some s ->
                    exists req, req ∈ reqs /\ s ∈ req)
    /\ (forall req, req ∈ reqs -> last req = Some "" /\ length req = clamp_ssids max).
Proof.
  intros Hm n c Hc. subst n c. induction fuel as [|fuel IH]; intros r Hf Hr; [lia|].
  pose proof (Nat.mod_upper_bound (r * (clamp_ssids max - 1)) (length hidden)) as Hlt.
  cbn [planned_rounds]. rewrite next_window by lia. cbv zeta.
  destruct (length hidden <? clamp_ssids max - 1)%nat eqn:Hl; [lia|].
  rewrite Nat.min_l by lia. rewrite Nat.Div0.add_mod_idemp_l.
  replace (r * (clamp_ssids max - 1) + (clamp_ssids max - 1))%nat
    with (S r * (clamp_ssids max - 1))%nat by lia.
  set (req := window hidden _ _ ++ [""]).
  assert (last req = Some "" /\ length req = clamp_ssids max) as Hreq.
  { unfold req. rewrite last_snoc, length_app, window_length. split; [done|]. cbn [length]. lia. }
  assert (forall x s, (r * (clamp_ssids max - 1) <= x < S r * (clamp_ssids max - 1))%nat ->
            hidden !! (x mod length hidden)%nat = Some s -> s ∈ req) as Hin.
  { intros x s Hx Hs. apply elem_of_app. left.
    set (q := ((r * (clamp_ssids max - 1)) / length hidden)%nat).
    apply (window_elem _ _ _ (x - length hidden * q)%nat).
    - pose proof (Nat.Div0.div_mod (r * (clamp_ssids max - 1)) (length hidden)) as Hd. fold q in Hd. lia.
    - rewrite <- Hs. f_equal.
      replace x with (x - length hidden * q + q * length hidden)%nat at 2; [by rewrite Nat.Div0.mod_add|].
      pose proof (Nat.Div0.div_mod (r * (clamp_ssids max - 1)) (length hidden)) as Hd. fold q in Hd. lia. }
  cbn [cursor]. destruct (length hidden =? 0)%nat eqn:H0; [lia|].
  destruct ((S r * (clamp_ssids max - 1)) mod length hidden =? 0)%nat eqn:Hz; cbn [orb].
  { exists [req], (S r). apply Nat.eqb_eq in Hz. split; [done|]. split; [lia|]. split; [done|].
    split; intros; [exists req; split; [apply list_elem_of_here|by eapply Hin]|].
    by apply list_elem_of_singleton in H as ->. }
  assert (S r < length hidden)%nat as HSr.
  { destruct (decide (S r = length hidden)) as [He|]; [|lia]. exfalso.
    rewrite He, Nat.mul_comm, Nat.Div0.mod_mul in Hz. done. }
  destruct (S (length hidden) <=? S r)%nat eqn:Hb; [lia|]. cbn [orb].
  destruct (IH (S r)) as (reqs & R & Ho & HR & Hz' & Hcov & Hlast); [lia|lia|].
  rewrite Ho. cbn [mbind outcome_bind]. exists (req :: reqs), R. split; [done|]. split; [lia|]. split; [done|]. split.
  - intros x s Hx Hs. destruct (decide (x < S r * (clamp_ssids max - 1))%nat).
    + exists req. split; [apply list_elem_of_here|]. apply (Hin x); [lia|done].
    + destruct (Hcov x s) as (q & Hq & Hs'); [lia|done|]. exists q.
      split; [by apply list_elem_of_further|done].
  - intros q [->|Hq]%elem_of_cons; [done|]. by apply Hlast.
Qed.

Lemma window_full hidden : window hidden 0 (length hidden) = hidden.
Proof.
  apply list_eq. intros j. unfold window. rewrite list_lookup_fmap.
  destruct (decide (j < length hidden)%nat) as [Hj|Hj].
  - rewrite lookup_seq_lt by done. cbn [fmap option_fmap option_map Nat.add].
    rewrite Nat.mod_small by done. destruct (lookup_lt_is_Some_2 _ _ Hj) as [s Hs]. by rewrite Hs.
  - rewrite lookup_seq_ge by lia. by rewrite lookup_ge_None_2 by lia.
Qed.

(** When everything fits, one request. *)
Lemma one_round hidden w max fuel r :
  (2 <= clamp_ssids max)%nat -> (length hidden <= clamp_ssids max - 1)%nat ->
  planned_rounds (S fuel) hidden (mkRotation 0 w) max r = Ok [hidden ++ [""]].
Proof.
  intros Hm Hl. cbn [planned_rounds]. destruct hidden as [|h hidden'].
  - unfold next_scan_ssids. cbv zeta. destruct (clamp_ssids max =? 1)%nat eqn:H1; [lia|done].
  - set (hidden := h :: hidden') in *.
    assert (0 < length hidden)%nat by (cbn; lia). rewrite next_window by lia. cbv zeta.
    rewrite Nat.min_r, window_full by lia. cbn [cursor Nat.add].
    rewrite Nat.Div0.mod_same. by destruct (length hidden <? _)%nat; rewrite orb_true_r.
Qed.

Lemma multiple_covers n k : (0 < k)%nat -> (k mod n = 0)%nat -> (n <= k)%nat.
Proof. intros Hk Hm. destruct (decide (k < n)%nat); [rewrite Nat.mod_small in Hm|]; lia. Qed.

(** The requests of a scan on demand, when none is refused. *)
Definition planned_requests (wiphy_max : nat) (hidden : list string)
  : outcome WifiError.t (list (list string)) :=
  let max := clamp_ssids wiphy_max in
  if (max =? 1)%nat then Ok ([""] :: ((fun h => [h]) <$> hidden))
  else planned_rounds (S (length hidden)) hidden (mkRotation 0 true) max 0.

(** The requests fit the cap of the driver and of the reference implementation (16), one
    of them carries the wildcard SSID and every hidden SSID is in one of them. *)
Definition probes_all (wiphy_max : nat) (hidden : list string) (reqs : list (list string)) : Prop :=
  (forall s, s ∈ hidden -> exists req, req ∈ reqs /\ s ∈ req)
  /\ (forall req, req ∈ reqs -> (1 <= length req <= clamp_ssids wiphy_max)%nat)
  /\ (exists req, req ∈ reqs /\ "" ∈ req).

Lemma planned_probes_all wiphy_max hidden :
  exists reqs, planned_requests wiphy_max hidden = Ok reqs /\ probes_all wiphy_max hidden reqs.
Proof.
  unfold planned_requests. cbv zeta.
  assert (1 <= clamp_ssids wiphy_max <= 16)%nat as Hm by (unfold clamp_ssids, MAX_SCAN_SSIDS; lia).
  assert (clamp_ssids (clamp_ssids wiphy_max) = clamp_ssids wiphy_max) as Hcc
    by (unfold clamp_ssids, MAX_SCAN_SSIDS in *; lia).
  destruct (clamp_ssids wiphy_max =? 1)%nat eqn:H1.
  { eexists. split; [done|]. split; [|split].
    - intros s Hs. exists [s]. rewrite elem_of_cons, list_elem_of_fmap, list_elem_of_singleton. eauto.
    - intros req [->|(h & -> & _)%list_elem_of_fmap]%elem_of_cons; cbn [length]; lia.
    - exists [""]. split; apply list_elem_of_here. }
  destruct (decide (length hidden <= clamp_ssids wiphy_max - 1)%nat) as [Hsmall|Hbig].
  { exists [hidden ++ [""]]. split.
    - apply one_round; rewrite ?Hcc; lia.
    - split; [|split].
      + intros s Hs. exists (hidden ++ [""]). rewrite elem_of_app. split; [apply list_elem_of_here|tauto].
      + intros req ->%list_elem_of_singleton. rewrite length_app. cbn [length]. lia.
      + exists (hidden ++ [""]). rewrite elem_of_app. split; [apply list_elem_of_here|].
        right. apply list_elem_of_here. }
  destruct (rounds_cover hidden true (clamp_ssids wiphy_max)) with (fuel := S (length hidden)) (r := 0%nat)
    as (reqs & R & Ho & HR & Hz & Hcov & Hlast); rewrite ?Hcc in *; [lia..|].
  rewrite Nat.mul_0_l, Nat.Div0.mod_0_l in Ho. exists reqs. split; [done|].
  assert (length hidden <= R * (clamp_ssids wiphy_max - 1))%nat as Hall
    by (apply multiple_covers; [apply Nat.mul_pos_pos; lia|done]).
  split; [|split].
  - intros s [x Hx]%list_elem_of_lookup_1. pose proof (lookup_lt_Some _ _ _ Hx) as Hlt.
    apply (Hcov x); [lia|]. by rewrite Nat.mod_small.
  - intros req Hreq. destruct (Hlast req Hreq) as [_ ->]. lia.
  - destruct reqs as [|req reqs].
    + destruct hidden as [|h hidden]; [cbn in Hbig; lia|].
      destruct (Hcov 0%nat h) as (req & []%elem_of_nil & _); [lia|].
      by rewrite Nat.Div0.mod_0_l.
    + exists req. split; [apply list_elem_of_here|].
      destruct (Hlast req (list_elem_of_here _ _)) as [Hl _].
      by apply last_Some_elem_of.
Qed.


(** ** The strongest BSS *)

(** A comparison that orders: total and transitive. *)
Record orders {A} (cmp : A -> A -> comparison) : Prop := {
  ord_total a b : cmp a b = Gt -> cmp b a <> Gt;
  ord_trans a b c : cmp a b <> Gt -> cmp b c <> Gt -> cmp a c <> Gt;
}.

(** [m] is in the list and nothing is above it. *)
Definition maximum {A} (cmp : A -> A -> comparison) (l : list A) (m : A) : Prop :=
  m ∈ l /\ forall x, x ∈ l -> cmp x m <> Gt.

Lemma max_by_spec {A} (cmp : A -> A -> comparison) (l : list A) :
  orders cmp ->
  match max_by cmp l with Some m => maximum cmp l m | None => l = [] end.
Proof.
  intros Ho. unfold max_by. induction l as [|x l IH] using rev_ind; [done|].
  rewrite fold_left_app. cbn [fold_left].
  destruct (fold_left _ l None) as [m|]; unfold maximum in *.
  - destruct IH as [Hm IH].
    assert (forall y, cmp y y <> Gt) as Hr by (intros y Hy; by apply (ord_total _ Ho _ _ Hy)).
    destruct (cmp m x) eqn:Hc; rewrite elem_of_app, list_elem_of_singleton.
    1,2: split; [by right|]; intros y [Hy| ->%list_elem_of_singleton]%elem_of_app; [|apply Hr];
      apply (ord_trans _ Ho y m x); [by apply IH|by rewrite Hc].
    split; [by left|]. intros y [Hy| ->%list_elem_of_singleton]%elem_of_app; [by apply IH|].
    by apply (ord_total _ Ho).
  - subst l. split; [apply list_elem_of_here|]. intros y ->%list_elem_of_singleton Hy.
    by apply (ord_total _ Ho _ _ Hy).
Qed.

(** The lexicographic order of the three keys. *)
Definition bss_above (a b : BssInfo) : Prop :=
  signal_dbm b < signal_dbm a
  \/ (signal_dbm b = signal_dbm a
      /\ (freq_mhz b < freq_mhz a
          \/ (freq_mhz b = freq_mhz a /\ array_lt (bssid b) (bssid a) = true))).

Lemma bss_cmp_above a b : bss_cmp a b = Gt <-> bss_above a b.
Proof.
  unfold bss_cmp, bss_above, array_cmp, then_with.
  destruct (Z.compare_spec (signal_dbm a) (signal_dbm b));
    [|split; [done|lia]|split; [lia|done]].
  destruct (Z.compare_spec (freq_mhz a) (freq_mhz b)); [|split; [done|lia]|split; [lia|done]].
  destruct (array_lt (bssid a) (bssid b)) eqn:Hab.
  - split; [done|]. intros [|(_ & [|(_ & Hba)])]; [lia|lia|].
    pose proof (array_lt_trans _ _ _ Hab Hba) as Hx. by rewrite array_lt_irrefl in Hx.
  - destruct (array_lt (bssid b) (bssid a)); split; try done.
    + intros _. right. split; [done|]. right. done.
    + intros [|(_ & [|(_ & ?)])]; [lia|lia|done].
Qed.

Lemma array_not_lt_trans a b c :
  array_lt b a = false -> array_lt c b = false -> array_lt c a = false.
Proof.
  intros H1 H2. destruct (array_lt c a) eqn:H3; [|done].
  destruct (array_lt_total a b) as [Hl|[->|Hl]]; [|by rewrite H3 in H2|by rewrite Hl in H1].
  by rewrite (array_lt_trans _ _ _ H3 Hl) in H2.
Qed.

Lemma bss_cmp_orders : orders bss_cmp.
Proof.
  split.
  - intros a b Hab Hba. apply bss_cmp_above in Hab, Hba. unfold bss_above in *.
    assert (~ (array_lt (bssid b) (bssid a) = true /\ array_lt (bssid a) (bssid b) = true)) as Hx.
    { intros [H1 H2]. pose proof (array_lt_trans _ _ _ H1 H2) as H3. by rewrite array_lt_irrefl in H3. }
    destruct Hab as [|(? & [|(? & ?)])], Hba as [|(? & [|(? & ?)])]; lia.
  - intros a b c. rewrite !bss_cmp_above. unfold bss_above. intros H1 H2 H3.
    pose proof (array_not_lt_trans (bssid a) (bssid b) (bssid c)) as Ht.
    rewrite <- !not_true_iff_false in Ht.
    lia.
Qed.

Lemma by_bss_orders : orders by_bss.
Proof. destruct bss_cmp_orders as [H1 H2]. split; unfold by_bss; intros; [by apply H1|by eapply H2]. Qed.

Lemma by_signal_orders : orders by_signal.
Proof.
  split; unfold by_signal; intros *; rewrite !Z.compare_gt_iff; lia.
Qed.

(** ** The selection *)

(** A candidate of a preferred network with a usable signal. *)
Definition preferable (c : candidate) : Prop :=
  NetworkConfig.prefered c.2 = true /\ DEFAULT_SWITCH_SSID_LOWER_THAN_DBM <= signal_dbm c.1.

(** The best of the candidates that satisfy [P]: one of a preferred network with a
    usable signal if there is one, and the strongest of those; else the strongest. *)
Definition best_of (P : candidate -> Prop) (l : list candidate) (c : candidate) : Prop :=
  c ∈ l /\ P c
  /\ ((preferable c /\ forall x, x ∈ l -> P x -> preferable x -> by_bss x c <> Gt)
      \/ ((forall x, x ∈ l -> P x -> ~ preferable x) /\ forall x, x ∈ l -> P x -> by_bss x c <> Gt)).

Lemma filter_elem {A} (f : A -> bool) l x : x ∈ List.filter f l <-> x ∈ l /\ f x = true.
Proof. by rewrite !list_elem_of_In, filter_In. Qed.

Lemma max_filter f (l : list candidate) :
  match max_by by_bss (List.filter f l) with
  | Some m => m ∈ l /\ f m = true /\ forall x, x ∈ l -> f x = true -> by_bss x m <> Gt
  | None => forall x, x ∈ l -> f x = false
  end.
Proof.
  pose proof (max_by_spec by_bss (List.filter f l) by_bss_orders) as H.
  destruct (max_by _ _) as [m|].
  - destruct H as [[Hm Hf]%filter_elem H]. split; [done|]. split; [done|].
    intros x Hx Hfx. apply H, filter_elem. done.
  - intros x Hx. apply not_true_iff_false. intros Hfx.
    assert (x ∈ List.filter f l) as Hin by by apply filter_elem. rewrite H in Hin. by apply elem_of_nil in Hin.
Qed.

Lemma best_filtered_spec l incl :
  match best_scan_candidate_filtered l incl with
  | Some c => best_of (fun x => eligible incl x = true) l c
  | None => forall x, x ∈ l -> eligible incl x = false
  end.
Proof.
  unfold best_scan_candidate_filtered, or_else.
  pose proof (max_filter (fun c => eligible incl c && NetworkConfig.prefered c.2
                 && (DEFAULT_SWITCH_SSID_LOWER_THAN_DBM <=? signal_dbm c.1)) l) as H1.
  pose proof (max_filter (eligible incl) l) as H2.
  destruct (max_by _ (List.filter (fun c => _ && _ && _) l)) as [c|]; unfold best_of, preferable.
  - destruct H1 as (Hc & Hf & Hmax). rewrite !andb_true_iff, Z.leb_le in Hf.
    split; [done|]. split; [tauto|]. left. split; [tauto|]. intros x Hx He Hp. apply Hmax; [done|].
    rewrite !andb_true_iff, Z.leb_le. tauto.
  - destruct (max_by _ (List.filter (eligible incl) l)) as [c|]; [|done].
    destruct H2 as (Hc & Hf & Hmax). split; [done|]. split; [done|]. right. split; [|done].
    intros x Hx He [Hp Hs]. pose proof (H1 x Hx) as H1x. cbn in H1x.
    rewrite He, Hp in H1x. cbn in H1x. lia.
Qed.

(** A candidate the connection attempt may use: allowed by its network, not on the
    ignore list, and in a retry scan not the BSS that just failed. *)
Definition fresh (now : Z) (i : Iface) (c : candidate) : Prop :=
  eligible (fun _ => true) c = true
  /\ BssidIgnoreList.is_ignored now (bssid_ignore i) (bssid c.1) = false
  /\ (retry_scan i = true -> bssid c.1 <> bssid (link_bss i)).

Lemma fresh_iff now i c :
  eligible (fun b => negb (BssidIgnoreList.is_ignored now (bssid_ignore i) (bssid b))
                     && negb (retry_scan i && bool_decide (bssid b = bssid (link_bss i)))) c = true
  <-> fresh now i c.
Proof.
  unfold eligible, fresh. rewrite !andb_true_iff, !negb_true_iff, andb_false_iff, bool_decide_eq_false.
  assert (forall P : Prop, (retry_scan i = false \/ P) <-> (retry_scan i = true -> P)) as ->
    by (intros P; destruct (retry_scan i); split; intros HP; try done; [by destruct HP|right; by apply HP|by left]).
  unfold eligible. rewrite !andb_true_iff. assert (true = true) by done. tauto.
Qed.

Lemma best_of_iff P Q l c : (forall x, P x <-> Q x) -> best_of P l c -> best_of Q l c.
Proof.
  intros H (H1 & H2 & H3). split; [done|]. split; [by apply H|].
  destruct H3 as [[Hp Hm]|[Hn Hm]]; [left|right]; split; try done;
    intros x Hx HQ; [by apply Hm; [|apply H]|by apply Hn; [|apply H]|by apply Hm; [|apply H]].
Qed.

(** The access point asked for: by its BSSID, and allowed by the network's pin. *)
Definition asked_for (target : option (list Z)) (c : candidate) : Prop :=
  target = Some (bssid c.1) /\ NetworkConfig.matches_bssid c.2 (bssid c.1) = true.

Lemma find_asked_for target l :
  match (h ← target;
         List.find (fun c : candidate => bool_decide (bssid c.1 = h)
                                         && NetworkConfig.matches_bssid c.2 (bssid c.1)) l) with
  | Some c => c ∈ l /\ asked_for target c
  | None => forall x, x ∈ l -> ~ asked_for target x
  end.
Proof.
  unfold asked_for. destruct target as [h|]; cbn [mbind option_bind]; [|by intros x _ [? _]].
  destruct (List.find _ l) as [c|] eqn:Hf.
  - apply find_some in Hf as [Hin [<-%bool_decide_eq_true Hm]%andb_true_iff].
    split; [by apply list_elem_of_In|done].
  - intros x Hx%list_elem_of_In [[= ->] Hm]. pose proof (find_none _ _ Hf x Hx) as Hn. cbn in Hn.
    by rewrite bool_decide_eq_true_2, Hm in Hn.
Qed.


(** ** What makes a BSS open *)

Section security.
Context `{HE : ElementBuffer} `{HL : !ElementBufferLaws} `{HS : ScanLib} `{HSL : !ScanLaws}.

(** [see_element] on an element given by its identifier and body. *)
Definition see (s : seen) (e : Z * list Z) : seen :=
  let whole := e.1 :: zlen e.2 :: e.2 in
  if (e.1 =? 48) && bool_decide (seen_rsne s = [])
  then mkSeen whole (seen_rsnxe s) (seen_mdie s) (seen_wpa_ie s) else
  if (e.1 =? 244) && bool_decide (seen_rsnxe s = [])
  then mkSeen (seen_rsne s) whole (seen_mdie s) (seen_wpa_ie s) else
  if (e.1 =? 54) && bool_decide (seen_mdie s = None)
  then mkSeen (seen_rsne s) (seen_rsnxe s)
         ((fun '(mdid, ft_capab) => mkMdieInfo mdid ft_capab) <$> parse_mdie e.2) (seen_wpa_ie s) else
  if (e.1 =? 221) && negb (seen_wpa_ie s)
  then mkSeen (seen_rsne s) (seen_rsnxe s) (seen_mdie s) (is_wpa_ie e.2)
  else s.

(** The loop over the elements, with the identifier in place of the header. *)
Definition see_at (ies : list Z) (pos : nat) (id : Z) (body : list Z) (s : seen)
  : outcome WifiError.t (visit seen) :=
  Ok (Next (
    if (id =? ELEMENT_ID_RSN) && bool_decide (seen_rsne s = [])
    then mkSeen (ie_at ies pos) (seen_rsnxe s) (seen_mdie s) (seen_wpa_ie s) else
    if (id =? ELEMENT_ID_RSN_EXT) && bool_decide (seen_rsnxe s = [])
    then mkSeen (seen_rsne s) (ie_at ies pos) (seen_mdie s) (seen_wpa_ie s) else
    if (id =? ELEMENT_ID_MDIE) && bool_decide (seen_mdie s = None)
    then mkSeen (seen_rsne s) (seen_rsnxe s)
           ((fun '(mdid, ft_capab) => mkMdieInfo mdid ft_capab) <$> parse_mdie body) (seen_wpa_ie s) else
    if (id =? IE_ID_VENDOR) && negb (seen_wpa_ie s)
    then mkSeen (seen_rsne s) (seen_rsnxe s) (seen_mdie s) (is_wpa_ie body)
    else s)).

Lemma see_at_eq ies pos id body s :
  ie_at ies pos = id :: zlen body :: body ->
  see_at ies pos id body s = Ok (Next (see s (id, body))).
Proof using HSL. intros Hie. unfold see_at, see. by rewrite id_rsn, id_rsn_ext, id_mdie, Hie. Qed.

Lemma visits_see ies : bytes ies -> forall n pos s,
  (length ies - pos < n)%nat -> (pos <= length ies)%nat ->
  visits (see_at ies) pos (elements (drop pos ies)) s
  = Ok (fold_left see (elements (drop pos ies)) s).
Proof using HSL.
  intros Hb n. induction n as [|n IH]; intros pos s Hn Hp; [lia|].
  assert (bytes (drop pos ies)) as Hd by by apply Forall_drop.
  assert (length (drop pos ies) = length ies - pos)%nat as Hlen by apply length_drop.
  remember (drop pos ies) as r eqn:Hr. destruct r as [|id [|l rest]]; [done..|].
  rewrite elements_cons. destruct (usize l <=? length rest)%nat eqn:Hle; [|done].
  apply Forall_cons in Hd as [_ Hd]. apply Forall_cons in Hd as [Hl _].
  assert (length (take (usize l) rest) = usize l) as Ht by (rewrite length_take; lia).
  assert (ie_at ies pos = id :: l :: take (usize l) rest) as Hie.
  { apply ie_at_element with (rest := drop (usize l) rest); [|done]. by rewrite take_drop. }
  assert (drop (pos + (2 + usize l)) ies = drop (usize l) rest) as Hnext
    by by rewrite <- drop_drop, <- Hr.
  assert (zlen (take (usize l) rest) = l) as Hz by (unfold zlen; rewrite Ht; destruct Hl; lia).
  cbn [visits fold_left]. rewrite see_at_eq by by rewrite Hz. cbn [mbind outcome_bind].
  rewrite Ht, <- Hnext. cbn in Hlen. by rewrite IH by lia.
Qed.

(** The first RSN element, the first WPA element. *)
Definition is_rsn (e : Z * list Z) : bool := e.1 =? 48.
Definition is_wpa (e : Z * list Z) : bool := (e.1 =? 221) && is_wpa_ie e.2.

Lemma see_all es : forall s,
  seen_rsne (fold_left see es s)
  = (if bool_decide (seen_rsne s = [])
     then from_option (fun e : Z * list Z => e.1 :: zlen e.2 :: e.2) [] (List.find is_rsn es)
     else seen_rsne s)
  /\ seen_wpa_ie (fold_left see es s) = seen_wpa_ie s || existsb is_wpa es.
Proof using Type.
  induction es as [|[id body] es IH]; intros s; cbn [fold_left List.find existsb].
  { split; [case_bool_decide; auto|by rewrite orb_false_r]. }
  destruct (IH (see s (id, body))) as [H1 H2]. rewrite H1, H2. clear IH H1 H2.
  unfold see, is_rsn, is_wpa. cbn [fst snd].
  destruct (Z.eqb_spec id 48) as [->|H48]; cbn [andb Z.eqb Pos.eqb].
  { destruct (bool_decide (seen_rsne s = [])) eqn:Hr; cbn [seen_rsne seen_wpa_ie]; [done|].
    by rewrite Hr. }
  destruct (Z.eqb_spec id 244) as [->|H244]; cbn [andb Z.eqb Pos.eqb].
  { by destruct (bool_decide (seen_rsnxe s = [])). }
  destruct (Z.eqb_spec id 54) as [->|H54]; cbn [andb Z.eqb Pos.eqb].
  { by destruct (bool_decide (seen_mdie s = None)). }
  destruct (Z.eqb_spec id 221) as [->|H221]; cbn [andb Z.eqb Pos.eqb]; [|done].
  destruct (seen_wpa_ie s) eqn:Hw; cbn [negb seen_rsne seen_wpa_ie orb]; [by rewrite Hw|done].
Qed.

Lemma security_from_rsne_not_open body : (security_from_rsne body).1 <> Open.
Proof using Type.
  unfold security_from_rsne. destruct (rsn_parse body) as [rsn|]; [|done]. cbv zeta.
  destruct (bool_decide (group_cipher rsn = Some Tkip)); [done|].
  destruct (bool_decide_reflect (fold_left better_akm (akm_suits rsn) Open = Open)); done.
Qed.

(** What the elements of a BSS taken for open are: the first RSN element, if there is one,
    has no body (a later one is not looked at), and there is no WPA element. *)
Definition plain_elements (ies : list Z) : Prop :=
  from_option (fun e : Z * list Z => e.2 = []) True (List.find is_rsn (elements ies))
  /\ existsb is_wpa (elements ies) = false.

Lemma detect_spec ies privacy :
  bytes ies ->
  exists d, detect_security_with_privacy ies privacy = Ok d
    /\ BssScanSecurity.ap_rsne d
       = from_option (fun e : Z * list Z => e.1 :: zlen e.2 :: e.2) [] (List.find is_rsn (elements ies))
    /\ (BssScanSecurity.security d = Open <-> plain_elements ies /\ privacy = false).
Proof using HL HSL.
  intros Hb. unfold detect_security_with_privacy, walk_fuel.
  rewrite (walk_spec (see_element ies) (see_at ies)); [|done|done|lia..].
  rewrite (visits_see ies Hb (S (length ies)) 0) by lia. rewrite drop_0. cbn [mbind outcome_bind].
  destruct (see_all (elements ies) (mkSeen [] [] None false)) as [H1 H2].
  set (s := fold_left see _ _) in *. rewrite bool_decide_eq_true_2 in H1 by done.
  cbn [seen_wpa_ie orb] in H2. rewrite H1, H2. clear H1 H2. unfold plain_elements.
  destruct (List.find is_rsn (elements ies)) as [[id body]|]; cbn [from_option fst snd length].
  - destruct body as [|b body]; cbn [length Nat.ltb Nat.leb].
    + destruct (existsb is_wpa _); [|destruct privacy]; cbn; eexists; (split; [done|]); cbn;
        (split; [done|]); split; intros; try done; by destruct_and!.
    + rewrite slice_from_in by (cbn; lia). cbn [mbind outcome_bind].
      pose proof (security_from_rsne_not_open (drop 2 (id :: zlen (b :: body) :: b :: body))) as Hn.
      destruct (security_from_rsne _) as [sec reason]. eexists. split; [done|].
      cbn [BssScanSecurity.ap_rsne BssScanSecurity.security]. split; [done|].
      split; [done|]. intros [[? _] _]. done.
  - destruct (existsb is_wpa _); [|destruct privacy]; cbn; eexists; (split; [done|]); cbn;
      (split; [done|]); split; intros; try done; by destruct_and!.
Qed.

(** ** What is joined *)

(** [c] was collected from the entry [bss] of a dump. *)
Definition comes_from (networks : list NetworkConfig.t) (mlme : MlmeMode) (bss : list BssAttr)
  (c : candidate) : Prop :=
  exists ies, extract_ies bss = Some ies
    /\ c.2 ∈ networks /\ extract_ssid_from_ies ies = Some (NetworkConfig.ssid c.2)
    /\ extract_bssid bss = Some (bssid c.1)
    /\ extract_freq bss = Some (freq_mhz c.1) /\ extract_signal_dbm bss = Some (signal_dbm c.1)
    /\ NetworkConfig.accepts_security c.2 (security c.1) = true
    /\ mlme_security_unsupported mlme (security c.1) = None
    /\ (security c.1 = Open -> plain_elements ies /\ extract_privacy bss = false).

Lemma collect_one_spec networks mlme bss c :
  (forall ies, extract_ies bss = Some ies -> bytes ies) ->
  collect_one networks mlme bss = Ok (Candidate c) -> comes_from networks mlme bss c.
Proof using HL HSL.
  intros Hb. unfold collect_one, comes_from. destruct (extract_ies bss) as [ies|]; [|done].
  destruct (extract_ssid_from_ies ies) as [ssid|] eqn:Hssid; [|done].
  destruct (List.find _ networks) as [network|] eqn:Hf; [|done].
  destruct (extract_bssid bss) as [b|]; [|done].
  destruct (extract_freq bss) as [f|]; [|done].
  destruct (extract_signal_dbm bss) as [sg|]; [|done].
  destruct (detect_spec ies (extract_privacy bss) (Hb _ eq_refl)) as (d & Hd & _ & Hopen).
  rewrite Hd. cbn [mbind outcome_bind].
  apply find_some in Hf as [Hin <-%bool_decide_eq_true].
  destruct (NetworkConfig.accepts_security network (BssScanSecurity.security d)) eqn:Ha;
    [|by destruct (bool_decide (BssScanSecurity.security d = Unsupported))].
  rewrite andb_false_r. destruct (bool_decide (BssScanSecurity.security d = Unsupported)); [done|].
  destruct (mlme_security_unsupported mlme _) eqn:Hm; [done|]. intros [= <-].
  exists ies. split; [done|]. cbn [fst snd bssid security]. split; [by apply list_elem_of_In|].
  repeat (split; [done|]). by apply Hopen.
Qed.

Lemma or_else_some {A} (a b : option A) x : or_else a b = Some x -> a = Some x \/ b = Some x.
Proof using Type. destruct a; cbn; auto. Qed.

Lemma best_filtered_in l incl c :
  best_scan_candidate_filtered l incl = Some c ->
  c ∈ l /\ NetworkConfig.matches_bssid c.2 (bssid c.1) = true.
Proof using Type.
  intros H. pose proof (best_filtered_spec l incl) as Hs. rewrite H in Hs.
  destruct Hs as (Hin & He & _). unfold eligible in He. rewrite !andb_true_iff in He. tauto.
Qed.

Lemma best_hinted_in l incl c :
  best_hinted_candidate_filtered l incl = Some c ->
  c ∈ l /\ NetworkConfig.matches_bssid c.2 (bssid c.1) = true.
Proof using Type. intros [[? _]%filter_elem ?]%best_filtered_in. done. Qed.

Lemma select_in now hint i c :
  select_candidate now hint i = Some c ->
  c ∈ last_scan_candidates i /\ NetworkConfig.matches_bssid c.2 (bssid c.1) = true.
Proof using Type.
  unfold select_candidate. cbv zeta. intros [H|[H|[H|H]%or_else_some]%or_else_some]%or_else_some.
  - destruct hint as [h|]; [|done]. cbn in H. apply find_some in H as [Hin Hc].
    apply andb_true_iff in Hc. split; [by apply list_elem_of_In|tauto].
  - destruct (_ && _); [|done]. unfold best_prefered_candidate_filtered in H.
    apply or_else_some in H as [H%best_hinted_in|H%best_filtered_in];
      destruct H as [[Hin _]%filter_elem Hm]; done.
  - destruct (_ && _); [|done]. by apply best_hinted_in in H.
  - destruct (_ && _); [done|]. apply or_else_some in H as [H%best_filtered_in|H]; [done|].
    destruct (retry_scan i); [done|]. by apply best_filtered_in in H.
Qed.

Lemma collect_elem {A B} (f : A -> outcome WifiError.t B) l ys y :
  collect f l = Ok ys -> y ∈ ys -> exists x, x ∈ l /\ f x = Ok y.
Proof using Type.
  revert ys. induction l as [|x l IH]; intros ys; cbn [collect].
  - intros [= <-] []%elem_of_nil.
  - rewrite bind_ok. intros (y' & Hy' & H). apply bind_ok in H as (ys' & Hys & [= <-]).
    intros [->|Hy]%elem_of_cons.
    + exists x. split; [apply list_elem_of_here|done].
    + destruct (IH _ Hys Hy) as (z & Hz & Hf). exists z. split; [by apply list_elem_of_further|done].
Qed.

Lemma collect_scan_spec dump i i' :
  collect_scan_candidates (Ok dump) i = (i', Ok tt) ->
  (forall c, c ∈ last_scan_candidates i' ->
     exists bss, bss ∈ dump /\ collect_one (if_networks i) (if_mlme i) bss = Ok (Candidate c))
  /\ i' = put_candidates (last_scan_candidates i') (roam_freqs i')
            (put_unsupported (unsupported_security i') i).
Proof using Type.
  unfold collect_scan_candidates. rewrite st_bind_lift, st_bind_modify, st_bind_get.
  intros H. apply st_bind_inv in H as [(i1 & found & Hf & H)|[(e & _ & [=])|[[_ [=]]|[_ [=]]]]].
  injection Hf as <- Hf. rewrite st_bind_modify in H. injection H as <-. split; [|done].
  cbn [last_scan_candidates put_candidates]. intros c Hc.
  apply list_elem_of_omap in Hc as (x & Hx & Hc). destruct x as [| |c']; try done.
  injection Hc as ->. by eapply collect_elem.
Qed.

(** C27: when the results of a scan lead to an attempt, whatever hints, retries and ignored
    BSSes there are, its BSS is an entry of the dump, its network is configured with the
    SSID of that entry, the BSS is the one the network is pinned to (if it is), and the
    network has the credentials of its security; an attempt without encryption is made only
    for a network without credentials at a BSS without privacy bit, without WPA element and
    whose first RSN element, if there is one, has no body (later RSN elements are not looked
    at).  The elements of the dump are octets. *)
Theorem joined_bss_allowed now dump i i' :
  (forall bss ies, bss ∈ dump -> extract_ies bss = Some ies -> bytes ies) ->
  process_scan_results now (Ok dump) i = (i', Ok tt) ->
  let n := link_network i' in let b := link_bss i' in
  NetworkConfig.matches_bssid n (bssid b) = true
  /\ (exists bss, bss ∈ dump /\ comes_from (if_networks i) (if_mlme i) bss (b, n))
  /\ (security b = Open -> NetworkConfig.password n = None /\ NetworkConfig.eap n = None).
Proof using HL HSL.
  intros Hb H. unfold process_scan_results in H.
  apply st_bind_inv in H as [(i1 & [] & Hc & H)|[(e & _ & [=])|[[_ [=]]|[_ [=]]]]].
  apply collect_scan_spec in Hc as [Hc _]. rewrite st_bind_get, st_bind_modify in H.
  destruct (select_candidate now (roam_target i1) i1) as [[b n]|] eqn:Hs; [|done].
  rewrite !st_bind_modify in H. injection H as <-. cbn [link_network link_bss put_link put_cqm_armed
    put_post_connect_scan put_roam_target].
  apply select_in in Hs as [Hin Hm]. destruct (Hc _ Hin) as (bss & Hd & Ho).
  assert (comes_from (if_networks i) (if_mlme i) bss (b, n)) as Hf
    by (by apply collect_one_spec; [intros ies; apply Hb|]).
  split; [done|]. split; [by exists bss|]. intros Hopen.
  destruct Hf as (ies & _ & _ & _ & _ & _ & _ & Ha & _). cbn [fst snd] in Ha. rewrite Hopen in Ha.
  unfold NetworkConfig.accepts_security in Ha. by rewrite andb_true_iff, !bool_decide_eq_true in Ha.
Qed.

(** ** Roaming *)

(** The signal to beat, with the candidates [l] of the scan and the current BSS [b]: that of
    the first entry of the current BSS (the signal of the connection when the scan has no
    entry of it), or the live signal of the link when that is known and stronger. *)
Definition entry_signal (l : list candidate) (b : BssInfo) : Z :=
  match List.find (fun c : candidate => bool_decide (bssid c.1 = bssid b)) l with
  | Some c => signal_dbm c.1
  | None => signal_dbm b
  end.

Definition to_beat (live : outcome WifiError.t (option Z)) (l : list candidate) (b : BssInfo) : Z :=
  match live with Ok (Some s) => Z.max s (entry_signal l b) | _ => entry_signal l b end.

(** A BSS of the connected network that a roam may go to: same security family, the pin
    kept, and not weaker (stronger, in a background scan). *)
Definition better_here (current : Z) (i : Iface) (c : candidate) : Prop :=
  bssid c.1 <> bssid (link_bss i)
  /\ NetworkConfig.ssid c.2 = NetworkConfig.ssid (link_network i)
  /\ NetworkConfig.matches_bssid c.2 (bssid c.1) = true
  /\ base (security c.1) = base (security (link_bss i))
  /\ current <= signal_dbm c.1 /\ (background_scan i = true -> current < signal_dbm c.1).

(** A BSS of another network, with a good signal. *)
Definition good_elsewhere (i : Iface) (c : candidate) : Prop :=
  bssid c.1 <> bssid (link_bss i)
  /\ NetworkConfig.ssid c.2 <> NetworkConfig.ssid (link_network i)
  /\ NetworkConfig.matches_bssid c.2 (bssid c.1) = true
  /\ default (critical_dbm i) (roam_threshold i) <= signal_dbm c.1
  /\ NetworkConfig.accepts_security c.2 (security c.1) = true.

Lemma better_here_iff current i c : same_network_target current i c = true <-> better_here current i c.
Proof using Type.
  unfold same_network_target, better_here.
  rewrite !andb_true_iff, negb_true_iff, bool_decide_eq_false, !bool_decide_eq_true.
  destruct (background_scan i); rewrite ?Z.ltb_lt, ?Z.leb_le; intuition (try lia; try done).
Qed.

Lemma good_elsewhere_iff i c :
  other_network_target (default (critical_dbm i) (roam_threshold i)) i c = true <-> good_elsewhere i c.
Proof using Type.
  unfold other_network_target, good_elsewhere, NetworkConfig.can_roam_to_security.
  rewrite !andb_true_iff, !negb_true_iff, !bool_decide_eq_false, Z.leb_le. tauto.
Qed.

Lemma baseline_spec post_connect live i current :
  roam_baseline post_connect live i = Some current ->
  current = to_beat live (last_scan_candidates i) (link_bss i)
  /\ (forall s t, live = Ok (Some s) -> roam_threshold i = Some t -> s < t \/ post_connect = true).
Proof using Type.
  unfold roam_baseline, to_beat, entry_signal. cbv zeta.
  destruct (List.find _ (last_scan_candidates i)) as [c|]; cbn [fmap option_fmap option_map default];
    (destruct live as [[l|]|e| |]; [|intros [= <-]; split; done..]);
    (destruct (negb post_connect && _) eqn:Hc; [done|]; intros [= <-];
     split; [done|]; intros l' t [= <-] Ht; rewrite Ht in Hc; cbn in Hc;
     destruct post_connect; cbn in Hc; [by right|left; lia]).
Qed.

(** What the decision starts. *)
Lemma roam_decision_spec current i target network :
  roam_decision current i = StartRoam target network ->
  exists n, (target, n) ∈ last_scan_candidates i
    /\ ((network = link_network i /\ better_here current i (target, n)
         /\ forall x, x ∈ last_scan_candidates i -> better_here current i x -> by_bss x (target, n) <> Gt)
        \/ (network = n /\ current < critical_dbm i
            /\ (forall x, x ∈ last_scan_candidates i -> ~ better_here current i x)
            /\ good_elsewhere i (target, n)
            /\ forall x, x ∈ last_scan_candidates i -> good_elsewhere i x ->
                          signal_dbm x.1 <= signal_dbm target)).
Proof using Type.
  unfold roam_decision. cbv zeta. intros H.
  pose proof (max_filter (same_network_target current i) (last_scan_candidates i)) as Hsame.
  destruct (max_by by_bss _) as [[bss n]|].
  - injection H as <- <-. destruct Hsame as (Hin & Hf & Hmax). exists n. split; [done|]. left.
    split; [done|]. split; [by apply better_here_iff|]. intros x Hx Hb%better_here_iff. by apply Hmax.
  - destruct (current <? critical_dbm i) eqn:Hcrit; [|by destruct (_ && _)].
    pose proof (max_by_spec by_signal (List.filter (other_network_target
      (default (critical_dbm i) (roam_threshold i)) i) (last_scan_candidates i)) by_signal_orders) as Ho.
    destruct (max_by by_signal _) as [[bss n]|]; [|by destruct (_ && _)].
    injection H as <- <-. destruct Ho as [[Hin Hf]%filter_elem Hmax]. exists n. split; [done|]. right.
    split; [done|]. split; [lia|]. split; [|split; [by apply good_elsewhere_iff|]].
    + intros x Hx Hb%better_here_iff. rewrite (Hsame x Hx) in Hb. done.
    + intros x Hx Hg%good_elsewhere_iff.
      assert (by_signal x (bss, n) <> Gt) as Hle by (apply Hmax, filter_elem; done).
      unfold by_signal in Hle. cbn in Hle. rewrite Z.compare_gt_iff in Hle. lia.
Qed.

(** C32: a roam scan that leaves the current BSS goes to an entry of its dump with the SSID of a
    configured network, whose security that network has the credentials for, never to the
    current BSSID, and keeps the pin of that network.  The signal to beat is the stronger of
    the live signal (when it is known) and of the scan entry of the current BSS (the signal
    recorded for the connection when the scan has no entry of it).  Either the target is a
    BSS of the connected SSID, of the same security family, not weaker than that signal
    (stronger, in a background scan) and the best of these; or there is none of these, that
    signal is below the critical level of the connected network, and the target is the
    strongest BSS of the other configured SSIDs that is at the roaming threshold or more (the
    critical level when roaming is off).  When the live signal is known and roaming is on,
    it is below the roaming threshold, except after a post-connect scan, which leaves a
    healthy link as well.  The elements of the dump are octets. *)
Theorem roam_not_weaker dump live i i' target network :
  (forall bss ies, bss ∈ dump -> extract_ies bss = Some ies -> bytes ies) ->
  process_roam_scan_results (Ok dump) live i = (i', Ok (StartRoam target network)) ->
  let candidates := last_scan_candidates i' in
  let current := to_beat live candidates (link_bss i) in
  (forall s t, live = Ok (Some s) -> roam_threshold i = Some t -> s < t \/ post_connect_scan i = true)
  /\ exists n, (target, n) ∈ candidates
    /\ (exists bss, bss ∈ dump /\ comes_from (if_networks i) (if_mlme i) bss (target, n))
    /\ ((network = link_network i /\ better_here current i (target, n)
         /\ forall x, x ∈ candidates -> better_here current i x -> by_bss x (target, n) <> Gt)
        \/ (network = n /\ current < critical_dbm i
            /\ (forall x, x ∈ candidates -> ~ better_here current i x)
            /\ good_elsewhere i (target, n)
            /\ forall x, x ∈ candidates -> good_elsewhere i x -> signal_dbm x.1 <= signal_dbm target)).
Proof using HL HSL.
  intros Hbytes. unfold process_roam_scan_results. cbv zeta.
  destruct (collect_scan_candidates (Ok dump) _) as [i1 r] eqn:Hc.
  destruct r as [[]|e| |]; try done; [].
  apply collect_scan_spec in Hc as [Hfrom Hi1]. unfold decide_roam. rewrite st_bind_get.
  destruct (roam_scan_count i1 =? 2 ^ 64 - 1); [done|]. rewrite st_bind_modify, st_bind_get.
  set (i2 := put_roam_scan_count _ i1). intros [= <- H].
  destruct (roam_baseline (post_connect_scan i) live i2) as [current|] eqn:Hb; [|done].
  cbn [from_option] in H. apply baseline_spec in Hb as [-> Hlive].
  apply roam_decision_spec in H as (n & Hin & H).
  assert (link_network i2 = link_network i /\ link_bss i2 = link_bss i
          /\ background_scan i2 = background_scan i) as (Hn & Hl & Hbg) by (by subst i2; rewrite Hi1).
  unfold better_here, good_elsewhere, critical_dbm, roam_threshold in H, Hlive |- *.
  rewrite Hn, ?Hl, ?Hbg in *. split; [done|]. exists n. split; [done|]. split; [|done].
  destruct (Hfrom _ Hin) as (bss & Hd & Ho). exists bss. split; [done|].
  by apply collect_one_spec; [intros ies; apply Hbytes|].
Qed.

End security.

(** ** Executable instances *)

#[local] Existing Instance toy_elements.
#[local] Existing Instance toy_elements_laws.

#[local] Instance toy_scan : ScanLib := {|
  ELEMENT_ID_RSN := 48;
  ELEMENT_ID_RSN_EXT := 244;
  ELEMENT_ID_MDIE := 54;
  rsn_parse body := match body with [] => None | _ => Some (mkRsnElement [Akm.Psk] None None) end;
  parse_elements ies :=
    Some ((fun e : Z * list Z => if e.1 =? 0 then ElementSsid (of_bytes e.2) else ElementOther)
          <$> elements ies);
  parse_group_mgmt_cipher _ := None;
  parse_mdie _ := None;
  ie_at ies pos :=
    match drop pos ies with id :: l :: rest => id :: l :: take (usize l) rest | short => short end;
  ap_supports_btm _ := true;
  ap_supports_rm_neighbor_report _ := false;
  ap_rsnxe_supports_sae_h2e _ := false;
  ap_rsne_supports_ocv _ := false;
  ap_rsne_supports_ext_key_id _ := false;
|}.

#[local] Instance toy_scan_laws : ScanLaws.
Proof.
  split; try done. intros ies pos id l body rest Hd Hl. cbn -[Z.to_nat]. rewrite Hd.
  by rewrite take_app_length' by done.
Qed.

(** An RSN element without a body hides the one that follows it: the BSS counts as open. *)
Example empty_rsne_hides_rsne :
  let security ies := d ← detect_security_with_privacy ies false; Ok (BssScanSecurity.security d) in
  security [48; 0; 48; 2; 1; 0] = Ok Open /\ security [48; 2; 1; 0] = Ok Wpa2Psk.
Proof. by vm_compute. Qed.

(** Two access points of a network with a password, and an open one with its SSID. *)
Definition toy_ies (open : bool) : list Z :=
  [0; 4] ++ as_bytes "home" ++ (if open then [] else [48; 2; 1; 0]).

Definition toy_bss (last signal : Z) (open : bool) : list BssAttr :=
  [AttrBssid [2; 0; 0; 0; 0; last]; AttrFrequency 2412; AttrSignalMbm signal;
   AttrIes (toy_ies open)].

Definition toy_dump : list (list BssAttr) :=
  [toy_bss 1 (-7000) false; toy_bss 2 (-5000) false; toy_bss 3 (-3000) true].

Definition toy_network : NetworkConfig.t :=
  NetworkConfig.set_password "secret" (NetworkConfig.new "home").

Definition toy_iface (now_at : BssInfo) : Iface :=
  mkIface [toy_network] SoftMac 4 toy_network now_at false false (mkRotation 0 true) None
    false true None [] [] false false false 0 [] [].

Definition toy_connected : BssInfo :=
  mkBssInfo [2; 0; 0; 0; 0; 1] 2412 (-70) Wpa2Psk [] [] BipCmac128 None false true false.

Lemma toy_dump_bytes bss ies : bss ∈ toy_dump -> extract_ies bss = Some ies -> bytes ies.
Proof.
  intros Hb He.
  assert (bytes (toy_ies true) /\ bytes (toy_ies false)) as [H1 H2]
    by (split; apply (bool_decide_unpack _); by vm_compute).
  apply elem_of_cons in Hb as [->|Hb]; [by injection He as <-|].
  apply elem_of_cons in Hb as [->|Hb]; [by injection He as <-|].
  apply list_elem_of_singleton in Hb as ->. by injection He as <-.
Qed.

Lemma joined_bss_allowed_witness :
  exists i', process_scan_results 0 (Ok toy_dump) (toy_iface BssInfo_default) = (i', Ok tt)
    /\ bssid (link_bss i') = [2; 0; 0; 0; 0; 2]
    /\ (security (link_bss i') = Open -> NetworkConfig.password (link_network i') = None).
Proof.
  destruct (process_scan_results 0 (Ok toy_dump) (toy_iface BssInfo_default)) as [i' r] eqn:Hp.
  assert (r = Ok tt) as -> by (vm_compute in Hp; by injection Hp as _ <-).
  destruct (joined_bss_allowed 0 toy_dump (toy_iface BssInfo_default) i' toy_dump_bytes Hp)
    as (_ & _ & Ho).
  exists i'. split; [done|]. split; [vm_compute in Hp; by injection Hp as <-|].
  intros H. exact (proj1 (Ho H)).
Defined.


Lemma roam_not_weaker_witness :
  exists i' target network,
    process_roam_scan_results (Ok toy_dump) (Ok (Some (-72))) (toy_iface toy_connected)
    = (i', Ok (StartRoam target network))
    /\ exists n, (target, n) ∈ last_scan_candidates i'.
Proof.
  destruct (process_roam_scan_results (Ok toy_dump) (Ok (Some (-72))) (toy_iface toy_connected))
    as [i' r] eqn:Hp.
  assert (exists t n, r = Ok (StartRoam t n)) as (t & n & ->)
    by (vm_compute in Hp; injection Hp as _ <-; by eexists _, _).
  destruct (roam_not_weaker _ _ _ _ _ _ toy_dump_bytes Hp) as (_ & n' & Hin & _).
  exists i', t, n. exact (conj eq_refl (ex_intro _ n' Hin)).
Defined.

End ScanFacts.
