(* ===== verification/WifiIface.v ===== *)
(** * A WiFi interface and its host

    The state of [WifiIface] of [src/src/wifi/client/state.rs] and what it works with.
    [W] is the interface: the part that scanning uses is [Scan.Iface], the rest follows
    the sub-structures of the source ([Link], [AuthSession], [RoamEngine],
    [ScanEngine], [WiphyCaps]).  [Class Supplicant] bundles the libraries,
    [Class FrameLib] is what the [wl-nl80211] crate parses and builds, [Class Host] is
    the kernel, the clock and the random numbers.

    A request to the kernel is a [Command]; it is logged in [w_log] and answered by
    [kernel_reply].  Everything else that is read from outside (the clock, random
    octets, a dump) is a function of the number [w_tick] of readings so far, so that no
    two readings need agree.  An [await] of the event queue takes the next entry of
    [w_inbox].  The requests of [nl80211.rs] are the methods of [Module Nl]. *)

From stdpp Require Import gmap.
From S2P Require Import Prelude Errors Eap EapTls Security Pmksa WifiKdf FourWay Sae Owe.
From S2P Require Import WifiConfig ClientState Scan.

(** ** Libraries *)

Class Supplicant := {
  sup_crypto :: WifiCryptoLib;
  sup_nl80211 :: Nl80211;
  sup_p256 :: P256;
  sup_owe :: OweCurve;
  sup_elements :: ElementBuffer;
  sup_scan :: ScanLib;
  TlsCfg : Type;
  TlsConnection : Type;
  sup_tls :: TlsConn TlsCfg TlsConnection;
  (** [pbkdf2_hmac::<Sha1>]: password, salt, rounds; 32 octets. *)
  pbkdf2_hmac_sha1 : list Z -> list Z -> Z -> list Z;
}.

(** A key subelement of an FTIE. *)
Record FtieKey := mkFtieKey { key_index : Z; rsc : list Z; wrapped_key : list Z }.

(** A parsed FTIE. *)
Record Ftie := mkFtie {
  ftie_mic : list Z;
  ftie_anonce : list Z;
  ftie_snonce : list Z;
  ftie_r1kh_id : option (list Z);
  ftie_r0kh_id : option (list Z);
  ftie_gtk : option FtieKey;
  ftie_igtk : option FtieKey;
  ftie_bigtk : option FtieKey;
}.

(** [Ieee80211AuthFrameFastBssTransition]. *)
Record FtAuthFrame := mkFtAuthFrame { fa_transaction : Z; fa_status : Z; fa_body : list Z }.

Class FrameLib `{Supplicant} := {
  (** The body of the first element with an identifier, and its offset. *)
  find_ie : list Z -> Z -> option (list Z);
  find_ie_pos : list Z -> Z -> option nat;
  parse_ftie : list Z -> option Ftie;
  rsne_first_pmkid : list Z -> option (list Z);
  mdie_element : list Z -> Z -> list Z;
  ftie_auth_request : list Z -> list Z -> list Z;
  ft_auth_parse : list Z -> string + FtAuthFrame;
  sae_rsnxe : list Z;
  rsne_set_ocvc : bool -> list Z -> list Z;
  rsne_set_ext_key_id : bool -> list Z -> list Z;
  (** RSN elements, with an optional PMKID and the group management cipher. *)
  sae_ie_with_pmkid_cipher : option (list Z) -> CipherSuite -> list Z;
  sae_ext_key_ie_with_pmkid_cipher : option (list Z) -> CipherSuite -> list Z;
  ft_sae_ie_cipher : option (list Z) -> CipherSuite -> list Z;
  ft_sae_ext_key_ie_cipher : option (list Z) -> CipherSuite -> list Z;
  ft_psk_ie_cipher : option (list Z) -> CipherSuite -> list Z;
  wpa2_psk_ie_with_pmkid_cipher : option (list Z) -> CipherSuite -> list Z;
  wpa2_psk_sha256_ie_with_pmkid_cipher : option (list Z) -> CipherSuite -> list Z;
  ft_sae_rsne_cipher : option (list Z) -> CipherSuite -> list Z;
  ft_sae_ext_key_rsne_cipher : option (list Z) -> CipherSuite -> list Z;
  ft_psk_rsne_cipher : option (list Z) -> CipherSuite -> list Z;
  sae_ie_cipher : CipherSuite -> list Z;
  sae_ext_key_ie_cipher : CipherSuite -> list Z;
  wpa2_psk_ie_cipher : CipherSuite -> list Z;
  wpa2_psk_sha256_ie_cipher : CipherSuite -> list Z;
  wpa2_ent_ie_cipher : CipherSuite -> list Z;
  wpa2_ent_sha256_ie_cipher : CipherSuite -> list Z;
  owe_ie_cipher : CipherSuite -> list Z;
  (** [Ieee80211OperatingClass::channel_to_freq]: operating class, channel. *)
  channel_to_freq : Z -> Z -> option Z;
  oci_from_freq : Z -> option Oci;
  (** [Ieee80211EapolKeyFrame::parse], and the key information bits. *)
  eapol_key_parse : list Z -> option EapolKeyFrame;
  is_request : EapolKeyFrame -> bool;
  has_mic : EapolKeyFrame -> bool;
  has_ack : EapolKeyFrame -> bool;
  is_secure : EapolKeyFrame -> bool;
  is_pairwise : EapolKeyFrame -> bool;
  (** Action frames: our address, the BSSID, and the content. *)
  btm_response_frame : list Z -> list Z -> Z -> Z -> list Z -> list Z;
  neighbor_report_request_frame : list Z -> list Z -> Z -> list Z;
  (** [impl Display for Ieee80211StatusCode]. *)
  status_display : Z -> string;
}.

(** ** Requests to the kernel *)

Inductive AuthType := OpenSystem | SaeType | FtType.
Inductive KeyType := Pairwise | Gtk | Igtk | Bigtk.

#[global] Instance KeyType_eq_dec : EqDecision KeyType.
Proof. solve_decision. Defined.

(** [Nl80211Key]: the attributes the code sets. *)
Record Key := mkKey {
  k_type : KeyType;
  k_mac : option (list Z);
  k_data : list Z;
  k_index : Z;
  k_seq : option (list Z);
  k_cipher : option CipherSuite;
  (** [default_types(Unicast)]. *)
  k_default_unicast : bool;
}.

Inductive WowlanTrigger := TriggerDisconnect | TriggerGtkRekeyFailure | TriggerOther (n : Z).

#[global] Instance WowlanTrigger_eq_dec : EqDecision WowlanTrigger.
Proof. solve_decision. Defined.

(** [Nl80211Associate] and [Nl80211Connect]. *)
Record Association := mkAssociation {
  as_ssid : string;
  as_mac : list Z;
  as_prev_bssid : option (list Z);
  as_freq : Z;
  as_ie : option (list Z);
  as_mfp_required : bool;
  as_control_port_over_nl80211 : bool;
}.

Inductive Command :=
| TriggerScan (ssids : list string) (freqs : option (list Z))
| Authenticate (ssid : string) (mac : list Z) (freq : Z) (type : AuthType)
    (ie auth_data : option (list Z))
| Associate (a : Association)
| Connect (a : Association) (akm : option Akm.t)
| Disconnect
| NewKey (k : Key)
| SetRekeyOffload (kek kck replay_ctr : list Z) (akm : Akm.t)
| SetPmksa (pmkid mac pmk : list Z) (lifetime reauth_threshold : Z)
| DelPmksa (pmkid mac : list Z)
| SetCqm (rssi_thold rssi_hyst : Z)
| SetWowlan (triggers : list WowlanTrigger)
| StartSchedScan (ssids : list string) (match_sets : option (list string)) (interval : Z)
| StopSchedScan
| SetStationAuthorized (bssid : list Z)
| SendFrame (frame : list Z) (freq : Z)
| ControlPortFrame (bssid frame : list Z)
| RegisterFrame (match_ : list Z)
(** The raw EAPOL socket of a driver without a control port. *)
| RawOpen
| RawSend (dst frame : list Z).

(** [Nl80211Error]: the code of a netlink NACK, and the error it becomes. *)
Record NlError := mkNlError { nl_code : option Z; nl_error : WifiError.t }.

(** ** Events *)

(** [Nl80211Command], of an event without a type of its own. *)
Inductive EventCommand :=
| SchedScanResults | SchedScanStopped | RoamCommand | DeauthenticateCommand | DisassociateCommand
| UnprotDeauthenticate | UnprotDisassociate | DelStation | DisconnectCommand | OtherCommand (n : Z).

#[global] Instance EventCommand_eq_dec : EqDecision EventCommand.
Proof. solve_decision. Defined.

(** [Ieee80211AuthFrame]: its octets and, for SAE, its fields. *)
Record SaeFrame := mkSaeFrame {
  sf_bssid : list Z;
  sf_transaction : Z;
  sf_status : Z;
  sf_body : list Z;
}.
Record AuthFrame := mkAuthFrame { af_bytes : list Z; af_sae : option SaeFrame }.

(** A candidate of a BTM request, an entry of a neighbor report. *)
Record Neighbor := mkNeighbor { n_bssid : list Z; n_operating_class : Z; n_channel : Z }.
Record BtmRequest := mkBtmRequest { btm_dialog_token : Z; btm_candidates : list Neighbor }.
Record NeighborReport := mkNeighborReport { nr_dialog_token : Z; nr_entries : list Neighbor }.

Inductive CqmAttr := RssiLow | RssiHigh | RssiOtherEvent | RssiLevel (dbm : Z) | CqmOther.

Inductive WowlanWakeup := WakeDisconnect | WakeGtkRekeyFailure | WakeOther.

Inductive ControlFrame := EapPayload (payload : list Z) | KeyFrame (raw : list Z) | OtherControlFrame.

(** [Nl80211Event], with the frames it carries. *)
Inductive Event :=
| FrameAuth (auth : AuthFrame)
| FrameBtmRequest (btm : BtmRequest)
| FrameNeighborReport (report : NeighborReport)
| FrameOther
| Authenticated (status : Z) (frame : option AuthFrame)
| Associated (status : Z) (ies : option (list Z))
| ConnectResult (status : Z) (req_ie resp_ie : option (list Z))
| ControlPort (frame : ControlFrame)
| PortAuthorized
| Wakeup (reasons : list WowlanWakeup)
| CqmRssi (events : list CqmAttr)
| Disconnected (reason : Z)
| Deauthenticated (reason : Z)
| Disassociated (reason : Z)
| RekeyOffload (bssid replay_ctr : list Z)
| ScanEvent
| ScanFinished
| ExternalAuth
| Unknown (cmd : EventCommand)
| OtherEvent.

(** A message of the kernel: its command, the attributes [disconnect_info] looks at
    (none when they do not parse) and the event that [Nl80211Event::parse] makes. *)
Inductive RawAttr := RawFrame (frame : list Z) | RawOther (kind : Z).
Record RawMessage := mkRawMessage {
  raw_cmd : EventCommand;
  raw_attrs : option (list RawAttr);
  raw_event : option Event;
}.

Inductive WifiEvent := Kernel (msg : RawMessage) | Eapol (src payload : list Z).

(** How an [await] on the event queue ends; [Resume] is a resume notification, with
    the generation the watch channel holds. *)
Inductive Wake := Woke (e : WifiEvent) | TimedOut | Closed | Resume (generation : Z).

(** ** The host *)

(** A message of a station dump. *)
Inductive StationAttr := StationMac (mac : list Z) | StationInfo (signals : list Z) | StationOther.

Class Host `{Supplicant} := {
  (** The error of a request, given the requests before it. *)
  kernel_reply : list Command -> Command -> option NlError;
  clock : nat -> Z;
  (** [getrandom::fill] of so many octets. *)
  random_fill : nat -> nat -> list Z;
  random_scalars : nat -> draws;
  random_secret : nat -> Z;
  scan_dump : nat -> WifiError.t + list (list BssAttr);
  (** The messages of a station dump, and the error that ends it. *)
  station_dump : nat -> list (list StationAttr) * option WifiError.t;
  (** [EapTlsConfig::from_config] reads files. *)
  read_file : nat -> string -> string + string;
  certs_from_pem : string -> WifiError.t + list (list Z);
  key_from_pem : string -> WifiError.t + list Z;
  client_config : list (list Z) -> list (list Z) -> list Z -> WifiError.t + TlsCfg;
}.

(** ** The interface *)

(** FT key material of the current connection. *)
Record FtContext := mkFtContext {
  ft_mdid : list Z;
  ft_capability : Z;
  ft_r0kh_id : list Z;
  ft_pmk_r0 : PmkR0;
  ft_pmk_r1 : PmkR1;
  ft_assoc_resp_ies : list Z;
}.

(** An FT roam in flight. *)
Record FtRoam := mkFtRoam {
  fr_target : BssInfo;
  fr_snonce : list Z;
  fr_pmk_r1 : option PmkR1;
  fr_r1kh_id : option (list Z);
  fr_ptk : option (list Z);
}.

Inductive ControlPortMode := PortNl80211 | PortRawEapol.

#[global] Instance ControlPortMode_eq_dec : EqDecision ControlPortMode.
Proof. solve_decision. Defined.

(** [WiphyCaps], less what [Iface] has. *)
Record WiphyCaps := mkCaps {
  c_control_port : ControlPortMode;
  c_sched_scan_supported : bool;
  c_max_sched_scan_ssids : nat;
  c_max_match_sets : nat;
  c_wowlan_supported_triggers : list WowlanTrigger;
}.

Definition put_c_sched_scan_supported (v : bool) (c : WiphyCaps) : WiphyCaps :=
  mkCaps (c_control_port c) v (c_max_sched_scan_ssids c) (c_max_match_sets c)
    (c_wowlan_supported_triggers c).

(** [ScanEngine], less what [Iface] has. *)
Record PnoState := mkPno {
  p_scan_retry_interval : Z;
  p_sched_scan_active : bool;
  p_sched_scan_stop_pending : bool;
  p_sched_scan_cursor : nat;
  p_sched_scan_more : bool;
  p_sched_scan_rotate : bool;
  p_sched_scan_interval_sec : Z;
  p_sched_scan_timeout_secs : Z;
  p_sched_scan_first : bool;
  p_startup_fast_retry : bool;
}.

Definition put_p_scan_retry_interval (v : Z) (p : PnoState) : PnoState :=
  mkPno v (p_sched_scan_active p) (p_sched_scan_stop_pending p) (p_sched_scan_cursor p)
    (p_sched_scan_more p) (p_sched_scan_rotate p) (p_sched_scan_interval_sec p)
    (p_sched_scan_timeout_secs p) (p_sched_scan_first p) (p_startup_fast_retry p).
Definition put_p_sched_scan_active (v : bool) (p : PnoState) : PnoState :=
  mkPno (p_scan_retry_interval p) v (p_sched_scan_stop_pending p) (p_sched_scan_cursor p)
    (p_sched_scan_more p) (p_sched_scan_rotate p) (p_sched_scan_interval_sec p)
    (p_sched_scan_timeout_secs p) (p_sched_scan_first p) (p_startup_fast_retry p).
Definition put_p_sched_scan_stop_pending (v : bool) (p : PnoState) : PnoState :=
  mkPno (p_scan_retry_interval p) (p_sched_scan_active p) v (p_sched_scan_cursor p)
    (p_sched_scan_more p) (p_sched_scan_rotate p) (p_sched_scan_interval_sec p)
    (p_sched_scan_timeout_secs p) (p_sched_scan_first p) (p_startup_fast_retry p).
Definition put_p_sched_scan_cursor (v : nat) (p : PnoState) : PnoState :=
  mkPno (p_scan_retry_interval p) (p_sched_scan_active p) (p_sched_scan_stop_pending p) v
    (p_sched_scan_more p) (p_sched_scan_rotate p) (p_sched_scan_interval_sec p)
    (p_sched_scan_timeout_secs p) (p_sched_scan_first p) (p_startup_fast_retry p).
Definition put_p_sched_scan_more (v : bool) (p : PnoState) : PnoState :=
  mkPno (p_scan_retry_interval p) (p_sched_scan_active p) (p_sched_scan_stop_pending p)
    (p_sched_scan_cursor p) v (p_sched_scan_rotate p) (p_sched_scan_interval_sec p)
    (p_sched_scan_timeout_secs p) (p_sched_scan_first p) (p_startup_fast_retry p).
Definition put_p_sched_scan_rotate (v : bool) (p : PnoState) : PnoState :=
  mkPno (p_scan_retry_interval p) (p_sched_scan_active p) (p_sched_scan_stop_pending p)
    (p_sched_scan_cursor p) (p_sched_scan_more p) v (p_sched_scan_interval_sec p)
    (p_sched_scan_timeout_secs p) (p_sched_scan_first p) (p_startup_fast_retry p).
Definition put_p_sched_scan_interval_sec (v : Z) (p : PnoState) : PnoState :=
  mkPno (p_scan_retry_interval p) (p_sched_scan_active p) (p_sched_scan_stop_pending p)
    (p_sched_scan_cursor p) (p_sched_scan_more p) (p_sched_scan_rotate p) v
    (p_sched_scan_timeout_secs p) (p_sched_scan_first p) (p_startup_fast_retry p).
Definition put_p_sched_scan_timeout_secs (v : Z) (p : PnoState) : PnoState :=
  mkPno (p_scan_retry_interval p) (p_sched_scan_active p) (p_sched_scan_stop_pending p)
    (p_sched_scan_cursor p) (p_sched_scan_more p) (p_sched_scan_rotate p)
    (p_sched_scan_interval_sec p) v (p_sched_scan_first p) (p_startup_fast_retry p).
Definition put_p_sched_scan_first (v : bool) (p : PnoState) : PnoState :=
  mkPno (p_scan_retry_interval p) (p_sched_scan_active p) (p_sched_scan_stop_pending p)
    (p_sched_scan_cursor p) (p_sched_scan_more p) (p_sched_scan_rotate p)
    (p_sched_scan_interval_sec p) (p_sched_scan_timeout_secs p) v (p_startup_fast_retry p).
Definition put_p_startup_fast_retry (v : bool) (p : PnoState) : PnoState :=
  mkPno (p_scan_retry_interval p) (p_sched_scan_active p) (p_sched_scan_stop_pending p)
    (p_sched_scan_cursor p) (p_sched_scan_more p) (p_sched_scan_rotate p)
    (p_sched_scan_interval_sec p) (p_sched_scan_timeout_secs p) (p_sched_scan_first p) v.

(** [RoamEngine], less what [Iface] has. *)
Record RoamState := mkRoam {
  r_ft_roam : option FtRoam;
  r_pre_roam_state : option WifiState;
  r_pending_nr_dialog : option Z;
  r_neighbor_report_responses : Z;
  r_last_roam : option Z;
  r_post_connect_scan_at : option Z;
  r_post_connect_scan_done : bool;
}.

Definition put_r_ft_roam (v : option FtRoam) (r : RoamState) : RoamState :=
  mkRoam v (r_pre_roam_state r) (r_pending_nr_dialog r) (r_neighbor_report_responses r)
    (r_last_roam r) (r_post_connect_scan_at r) (r_post_connect_scan_done r).
Definition put_r_pre_roam_state (v : option WifiState) (r : RoamState) : RoamState :=
  mkRoam (r_ft_roam r) v (r_pending_nr_dialog r) (r_neighbor_report_responses r) (r_last_roam r)
    (r_post_connect_scan_at r) (r_post_connect_scan_done r).
Definition put_r_pending_nr_dialog (v : option Z) (r : RoamState) : RoamState :=
  mkRoam (r_ft_roam r) (r_pre_roam_state r) v (r_neighbor_report_responses r) (r_last_roam r)
    (r_post_connect_scan_at r) (r_post_connect_scan_done r).
Definition put_r_neighbor_report_responses (v : Z) (r : RoamState) : RoamState :=
  mkRoam (r_ft_roam r) (r_pre_roam_state r) (r_pending_nr_dialog r) v (r_last_roam r)
    (r_post_connect_scan_at r) (r_post_connect_scan_done r).
Definition put_r_last_roam (v : option Z) (r : RoamState) : RoamState :=
  mkRoam (r_ft_roam r) (r_pre_roam_state r) (r_pending_nr_dialog r)
    (r_neighbor_report_responses r) v (r_post_connect_scan_at r) (r_post_connect_scan_done r).
Definition put_r_post_connect_scan_at (v : option Z) (r : RoamState) : RoamState :=
  mkRoam (r_ft_roam r) (r_pre_roam_state r) (r_pending_nr_dialog r)
    (r_neighbor_report_responses r) (r_last_roam r) v (r_post_connect_scan_done r).
Definition put_r_post_connect_scan_done (v : bool) (r : RoamState) : RoamState :=
  mkRoam (r_ft_roam r) (r_pre_roam_state r) (r_pending_nr_dialog r)
    (r_neighbor_report_responses r) (r_last_roam r) (r_post_connect_scan_at r) v.

Section interface.
Context `{Supplicant}.

Abbreviation Peer := (EapPeer.t (EapTlsMethod.t TlsCfg TlsConnection)).

(** [EapTlsConfig]. *)
Record EapTlsConfig := mkEapTlsConfig { tls_config : TlsCfg; tls_server_name : string }.

(** [Link], less the network and the BSS. *)
Record LinkState := mkLink {
  l_assoc_wpa_ie : list Z;
  l_fourway : option FourWayState.t;
  l_pmksa_in_use : option PmksaEntry.t;
  l_ft : option FtContext;
  l_pending_ft_msg1 : option (list Z);
  l_stale_connect_failure : bool;
  l_ptk_rekey : bool;
}.

Definition put_l_assoc_wpa_ie (v : list Z) (l : LinkState) : LinkState :=
  mkLink v (l_fourway l) (l_pmksa_in_use l) (l_ft l) (l_pending_ft_msg1 l)
    (l_stale_connect_failure l) (l_ptk_rekey l).
Definition put_l_fourway (v : option FourWayState.t) (l : LinkState) : LinkState :=
  mkLink (l_assoc_wpa_ie l) v (l_pmksa_in_use l) (l_ft l) (l_pending_ft_msg1 l)
    (l_stale_connect_failure l) (l_ptk_rekey l).
Definition put_l_pmksa_in_use (v : option PmksaEntry.t) (l : LinkState) : LinkState :=
  mkLink (l_assoc_wpa_ie l) (l_fourway l) v (l_ft l) (l_pending_ft_msg1 l)
    (l_stale_connect_failure l) (l_ptk_rekey l).
Definition put_l_ft (v : option FtContext) (l : LinkState) : LinkState :=
  mkLink (l_assoc_wpa_ie l) (l_fourway l) (l_pmksa_in_use l) v (l_pending_ft_msg1 l)
    (l_stale_connect_failure l) (l_ptk_rekey l).
Definition put_l_pending_ft_msg1 (v : option (list Z)) (l : LinkState) : LinkState :=
  mkLink (l_assoc_wpa_ie l) (l_fourway l) (l_pmksa_in_use l) (l_ft l) v
    (l_stale_connect_failure l) (l_ptk_rekey l).
Definition put_l_stale_connect_failure (v : bool) (l : LinkState) : LinkState :=
  mkLink (l_assoc_wpa_ie l) (l_fourway l) (l_pmksa_in_use l) (l_ft l) (l_pending_ft_msg1 l) v
    (l_ptk_rekey l).
Definition put_l_ptk_rekey (v : bool) (l : LinkState) : LinkState :=
  mkLink (l_assoc_wpa_ie l) (l_fourway l) (l_pmksa_in_use l) (l_ft l) (l_pending_ft_msg1 l)
    (l_stale_connect_failure l) v.

(** [AuthSession]. *)
Record AuthSession := mkAuth {
  a_method : option AuthMethod.t;
  a_owe : option OweAuth;
  a_psk_pmk : option (list Z);
  a_eap_peer : option Peer;
  a_eap_pmk : option (list Z);
  a_sae_commit_sent : bool;
  a_sae_sync : Z;
  a_sae_commit_auth_data : list Z;
  a_sae_confirm_sent : bool;
  a_sae_confirm_auth_data : list Z;
  a_sae_hnp_attempted : bool;
}.

Definition put_a_method (v : option AuthMethod.t) (a : AuthSession) : AuthSession :=
  mkAuth v (a_owe a) (a_psk_pmk a) (a_eap_peer a) (a_eap_pmk a) (a_sae_commit_sent a)
    (a_sae_sync a) (a_sae_commit_auth_data a) (a_sae_confirm_sent a) (a_sae_confirm_auth_data a)
    (a_sae_hnp_attempted a).
Definition put_a_owe (v : option OweAuth) (a : AuthSession) : AuthSession :=
  mkAuth (a_method a) v (a_psk_pmk a) (a_eap_peer a) (a_eap_pmk a) (a_sae_commit_sent a)
    (a_sae_sync a) (a_sae_commit_auth_data a) (a_sae_confirm_sent a) (a_sae_confirm_auth_data a)
    (a_sae_hnp_attempted a).
Definition put_a_psk_pmk (v : option (list Z)) (a : AuthSession) : AuthSession :=
  mkAuth (a_method a) (a_owe a) v (a_eap_peer a) (a_eap_pmk a) (a_sae_commit_sent a)
    (a_sae_sync a) (a_sae_commit_auth_data a) (a_sae_confirm_sent a) (a_sae_confirm_auth_data a)
    (a_sae_hnp_attempted a).
Definition put_a_eap_peer (v : option Peer) (a : AuthSession) : AuthSession :=
  mkAuth (a_method a) (a_owe a) (a_psk_pmk a) v (a_eap_pmk a) (a_sae_commit_sent a)
    (a_sae_sync a) (a_sae_commit_auth_data a) (a_sae_confirm_sent a) (a_sae_confirm_auth_data a)
    (a_sae_hnp_attempted a).
Definition put_a_eap_pmk (v : option (list Z)) (a : AuthSession) : AuthSession :=
  mkAuth (a_method a) (a_owe a) (a_psk_pmk a) (a_eap_peer a) v (a_sae_commit_sent a)
    (a_sae_sync a) (a_sae_commit_auth_data a) (a_sae_confirm_sent a) (a_sae_confirm_auth_data a)
    (a_sae_hnp_attempted a).
Definition put_a_sae_commit_sent (v : bool) (a : AuthSession) : AuthSession :=
  mkAuth (a_method a) (a_owe a) (a_psk_pmk a) (a_eap_peer a) (a_eap_pmk a) v (a_sae_sync a)
    (a_sae_commit_auth_data a) (a_sae_confirm_sent a) (a_sae_confirm_auth_data a)
    (a_sae_hnp_attempted a).
Definition put_a_sae_sync (v : Z) (a : AuthSession) : AuthSession :=
  mkAuth (a_method a) (a_owe a) (a_psk_pmk a) (a_eap_peer a) (a_eap_pmk a) (a_sae_commit_sent a)
    v (a_sae_commit_auth_data a) (a_sae_confirm_sent a) (a_sae_confirm_auth_data a)
    (a_sae_hnp_attempted a).
Definition put_a_sae_commit_auth_data (v : list Z) (a : AuthSession) : AuthSession :=
  mkAuth (a_method a) (a_owe a) (a_psk_pmk a) (a_eap_peer a) (a_eap_pmk a) (a_sae_commit_sent a)
    (a_sae_sync a) v (a_sae_confirm_sent a) (a_sae_confirm_auth_data a) (a_sae_hnp_attempted a).
Definition put_a_sae_confirm_sent (v : bool) (a : AuthSession) : AuthSession :=
  mkAuth (a_method a) (a_owe a) (a_psk_pmk a) (a_eap_peer a) (a_eap_pmk a) (a_sae_commit_sent a)
    (a_sae_sync a) (a_sae_commit_auth_data a) v (a_sae_confirm_auth_data a)
    (a_sae_hnp_attempted a).
Definition put_a_sae_confirm_auth_data (v : list Z) (a : AuthSession) : AuthSession :=
  mkAuth (a_method a) (a_owe a) (a_psk_pmk a) (a_eap_peer a) (a_eap_pmk a) (a_sae_commit_sent a)
    (a_sae_sync a) (a_sae_commit_auth_data a) (a_sae_confirm_sent a) v (a_sae_hnp_attempted a).
Definition put_a_sae_hnp_attempted (v : bool) (a : AuthSession) : AuthSession :=
  mkAuth (a_method a) (a_owe a) (a_psk_pmk a) (a_eap_peer a) (a_eap_pmk a) (a_sae_commit_sent a)
    (a_sae_sync a) (a_sae_commit_auth_data a) (a_sae_confirm_sent a) (a_sae_confirm_auth_data a)
    v.

(** [WifiIface]. *)
Record W := mkW {
  (** [core.nl.mac]. *)
  w_mac : list Z;
  (** What scanning works on. *)
  w_iface : Iface;
  w_caps : WiphyCaps;
  (** [control_port] is [Raw { port: Some(_) }]. *)
  w_raw_port_open : bool;
  w_pno : PnoState;
  w_link : LinkState;
  w_auth : AuthSession;
  w_roam : RoamState;
  w_wowlan_armed : bool;
  w_state : WifiState;
  w_fast_reconnect : option FastReconnect;
  w_last_resume : Z;
  w_pmksa : list PmksaEntry.t;
  w_last_error : option WifiError.t;
  w_eap_tls_config : option (EapConfig * EapTlsConfig);
  w_wait_deadline : WaitDeadline.t;
  (** The host: requests made, readings taken, entries of the event queue, and the
      generation of the resume channel. *)
  w_log : list Command;
  w_tick : nat;
  w_inbox : list Wake;
  w_resume_gen : Z;
}.

Definition put_w_iface (v : Iface) (w : W) : W :=
  mkW (w_mac w) v (w_caps w) (w_raw_port_open w) (w_pno w) (w_link w) (w_auth w) (w_roam w)
    (w_wowlan_armed w) (w_state w) (w_fast_reconnect w) (w_last_resume w) (w_pmksa w)
    (w_last_error w) (w_eap_tls_config w) (w_wait_deadline w) (w_log w) (w_tick w) (w_inbox w)
    (w_resume_gen w).
Definition put_w_caps (v : WiphyCaps) (w : W) : W :=
  mkW (w_mac w) (w_iface w) v (w_raw_port_open w) (w_pno w) (w_link w) (w_auth w) (w_roam w)
    (w_wowlan_armed w) (w_state w) (w_fast_reconnect w) (w_last_resume w) (w_pmksa w)
    (w_last_error w) (w_eap_tls_config w) (w_wait_deadline w) (w_log w) (w_tick w) (w_inbox w)
    (w_resume_gen w).
Definition put_w_raw_port_open (v : bool) (w : W) : W :=
  mkW (w_mac w) (w_iface w) (w_caps w) v (w_pno w) (w_link w) (w_auth w) (w_roam w)
    (w_wowlan_armed w) (w_state w) (w_fast_reconnect w) (w_last_resume w) (w_pmksa w)
    (w_last_error w) (w_eap_tls_config w) (w_wait_deadline w) (w_log w) (w_tick w) (w_inbox w)
    (w_resume_gen w).
Definition put_w_pno (v : PnoState) (w : W) : W :=
  mkW (w_mac w) (w_iface w) (w_caps w) (w_raw_port_open w) v (w_link w) (w_auth w) (w_roam w)
    (w_wowlan_armed w) (w_state w) (w_fast_reconnect w) (w_last_resume w) (w_pmksa w)
    (w_last_error w) (w_eap_tls_config w) (w_wait_deadline w) (w_log w) (w_tick w) (w_inbox w)
    (w_resume_gen w).
Definition put_w_link (v : LinkState) (w : W) : W :=
  mkW (w_mac w) (w_iface w) (w_caps w) (w_raw_port_open w) (w_pno w) v (w_auth w) (w_roam w)
    (w_wowlan_armed w) (w_state w) (w_fast_reconnect w) (w_last_resume w) (w_pmksa w)
    (w_last_error w) (w_eap_tls_config w) (w_wait_deadline w) (w_log w) (w_tick w) (w_inbox w)
    (w_resume_gen w).
Definition put_w_auth (v : AuthSession) (w : W) : W :=
  mkW (w_mac w) (w_iface w) (w_caps w) (w_raw_port_open w) (w_pno w) (w_link w) v (w_roam w)
    (w_wowlan_armed w) (w_state w) (w_fast_reconnect w) (w_last_resume w) (w_pmksa w)
    (w_last_error w) (w_eap_tls_config w) (w_wait_deadline w) (w_log w) (w_tick w) (w_inbox w)
    (w_resume_gen w).
Definition put_w_roam (v : RoamState) (w : W) : W :=
  mkW (w_mac w) (w_iface w) (w_caps w) (w_raw_port_open w) (w_pno w) (w_link w) (w_auth w) v
    (w_wowlan_armed w) (w_state w) (w_fast_reconnect w) (w_last_resume w) (w_pmksa w)
    (w_last_error w) (w_eap_tls_config w) (w_wait_deadline w) (w_log w) (w_tick w) (w_inbox w)
    (w_resume_gen w).
Definition put_w_wowlan_armed (v : bool) (w : W) : W :=
  mkW (w_mac w) (w_iface w) (w_caps w) (w_raw_port_open w) (w_pno w) (w_link w) (w_auth w)
    (w_roam w) v (w_state w) (w_fast_reconnect w) (w_last_resume w) (w_pmksa w) (w_last_error w)
    (w_eap_tls_config w) (w_wait_deadline w) (w_log w) (w_tick w) (w_inbox w) (w_resume_gen w).
Definition put_w_state (v : WifiState) (w : W) : W :=
  mkW (w_mac w) (w_iface w) (w_caps w) (w_raw_port_open w) (w_pno w) (w_link w) (w_auth w)
    (w_roam w) (w_wowlan_armed w) v (w_fast_reconnect w) (w_last_resume w) (w_pmksa w)
    (w_last_error w) (w_eap_tls_config w) (w_wait_deadline w) (w_log w) (w_tick w) (w_inbox w)
    (w_resume_gen w).
Definition put_w_fast_reconnect (v : option FastReconnect) (w : W) : W :=
  mkW (w_mac w) (w_iface w) (w_caps w) (w_raw_port_open w) (w_pno w) (w_link w) (w_auth w)
    (w_roam w) (w_wowlan_armed w) (w_state w) v (w_last_resume w) (w_pmksa w) (w_last_error w)
    (w_eap_tls_config w) (w_wait_deadline w) (w_log w) (w_tick w) (w_inbox w) (w_resume_gen w).
Definition put_w_last_resume (v : Z) (w : W) : W :=
  mkW (w_mac w) (w_iface w) (w_caps w) (w_raw_port_open w) (w_pno w) (w_link w) (w_auth w)
    (w_roam w) (w_wowlan_armed w) (w_state w) (w_fast_reconnect w) v (w_pmksa w)
    (w_last_error w) (w_eap_tls_config w) (w_wait_deadline w) (w_log w) (w_tick w) (w_inbox w)
    (w_resume_gen w).
Definition put_w_pmksa (v : list PmksaEntry.t) (w : W) : W :=
  mkW (w_mac w) (w_iface w) (w_caps w) (w_raw_port_open w) (w_pno w) (w_link w) (w_auth w)
    (w_roam w) (w_wowlan_armed w) (w_state w) (w_fast_reconnect w) (w_last_resume w) v
    (w_last_error w) (w_eap_tls_config w) (w_wait_deadline w) (w_log w) (w_tick w) (w_inbox w)
    (w_resume_gen w).
Definition put_w_last_error (v : option WifiError.t) (w : W) : W :=
  mkW (w_mac w) (w_iface w) (w_caps w) (w_raw_port_open w) (w_pno w) (w_link w) (w_auth w)
    (w_roam w) (w_wowlan_armed w) (w_state w) (w_fast_reconnect w) (w_last_resume w) (w_pmksa w)
    v (w_eap_tls_config w) (w_wait_deadline w) (w_log w) (w_tick w) (w_inbox w) (w_resume_gen w).
Definition put_w_eap_tls_config (v : option (EapConfig * EapTlsConfig)) (w : W) : W :=
  mkW (w_mac w) (w_iface w) (w_caps w) (w_raw_port_open w) (w_pno w) (w_link w) (w_auth w)
    (w_roam w) (w_wowlan_armed w) (w_state w) (w_fast_reconnect w) (w_last_resume w) (w_pmksa w)
    (w_last_error w) v (w_wait_deadline w) (w_log w) (w_tick w) (w_inbox w) (w_resume_gen w).
Definition put_w_wait_deadline (v : WaitDeadline.t) (w : W) : W :=
  mkW (w_mac w) (w_iface w) (w_caps w) (w_raw_port_open w) (w_pno w) (w_link w) (w_auth w)
    (w_roam w) (w_wowlan_armed w) (w_state w) (w_fast_reconnect w) (w_last_resume w) (w_pmksa w)
    (w_last_error w) (w_eap_tls_config w) v (w_log w) (w_tick w) (w_inbox w) (w_resume_gen w).
Definition put_w_log (v : list Command) (w : W) : W :=
  mkW (w_mac w) (w_iface w) (w_caps w) (w_raw_port_open w) (w_pno w) (w_link w) (w_auth w)
    (w_roam w) (w_wowlan_armed w) (w_state w) (w_fast_reconnect w) (w_last_resume w) (w_pmksa w)
    (w_last_error w) (w_eap_tls_config w) (w_wait_deadline w) v (w_tick w) (w_inbox w)
    (w_resume_gen w).
Definition put_w_tick (v : nat) (w : W) : W :=
  mkW (w_mac w) (w_iface w) (w_caps w) (w_raw_port_open w) (w_pno w) (w_link w) (w_auth w)
    (w_roam w) (w_wowlan_armed w) (w_state w) (w_fast_reconnect w) (w_last_resume w) (w_pmksa w)
    (w_last_error w) (w_eap_tls_config w) (w_wait_deadline w) (w_log w) v (w_inbox w)
    (w_resume_gen w).
Definition put_w_inbox (v : list Wake) (w : W) : W :=
  mkW (w_mac w) (w_iface w) (w_caps w) (w_raw_port_open w) (w_pno w) (w_link w) (w_auth w)
    (w_roam w) (w_wowlan_armed w) (w_state w) (w_fast_reconnect w) (w_last_resume w) (w_pmksa w)
    (w_last_error w) (w_eap_tls_config w) (w_wait_deadline w) (w_log w) (w_tick w) v
    (w_resume_gen w).
Definition put_w_resume_gen (v : Z) (w : W) : W :=
  mkW (w_mac w) (w_iface w) (w_caps w) (w_raw_port_open w) (w_pno w) (w_link w) (w_auth w)
    (w_roam w) (w_wowlan_armed w) (w_state w) (w_fast_reconnect w) (w_last_resume w) (w_pmksa w)
    (w_last_error w) (w_eap_tls_config w) (w_wait_deadline w) (w_log w) (w_tick w) (w_inbox w) v.

Definition on_iface (f : Iface -> Iface) (w : W) : W := put_w_iface (f (w_iface w)) w.
Definition on_pno (f : PnoState -> PnoState) (w : W) : W := put_w_pno (f (w_pno w)) w.
Definition on_link (f : LinkState -> LinkState) (w : W) : W := put_w_link (f (w_link w)) w.
Definition on_auth (f : AuthSession -> AuthSession) (w : W) : W := put_w_auth (f (w_auth w)) w.
Definition on_roam (f : RoamState -> RoamState) (w : W) : W := put_w_roam (f (w_roam w)) w.

(** [link.network], [link.bss_info]. *)
Definition network (w : W) : NetworkConfig.t := link_network (w_iface w).
Definition bss_info (w : W) : BssInfo := link_bss (w_iface w).

(** ** Methods *)

Abbreviation wm := (st W WifiError.t).

Definition set_state (s : WifiState) : wm unit := modify (put_w_state s).

(** A method of the part that scanning works on. *)
Definition in_iface {A} (m : imethod A) : wm A :=
  fun w => let '(i, r) := m (w_iface w) in (put_w_iface i w, r).

(** [match method.await { Ok(a) => .., Err(e) => .. }]. *)
Definition result_of {A} (m : wm A) : wm (WifiError.t + A) :=
  fun w => match m w with
           | (w, Ok a) => (w, Ok (inr a))
           | (w, Err e) => (w, Ok (inl e))
           | (w, Panic) => (w, Panic)
           | (w, Diverge) => (w, Diverge)
           end.

(** [if let Err(e) = method.await { log }]. *)
Definition logged {A} (m : wm A) : wm unit := result_of m;; mret tt.

(** [if let Err(e) = method.await { handler }]. *)
Definition on_error {A} (m : wm A) (handler : WifiError.t -> wm unit) : wm unit :=
  r ← result_of m;
  match r with inl e => handler e | inr _ => mret tt end.

Definition of_sum {A} (x : WifiError.t + A) : outcome WifiError.t A :=
  match x with inl e => Err e | inr a => Ok a end.

(** A reading from outside. *)
Definition reading {A} (f : nat -> A) : wm A :=
  fun w => (put_w_tick (S (w_tick w)) w, Ok (f (w_tick w))).

Definition fail_auth (error : WifiError.t) : wm unit :=
  modify (put_w_last_error (Some error));;
  modify (put_w_fast_reconnect None);;
  set_state FailedAuthentication.

(** The next entry of the queue that is not a resume, which a plain wait does not
    see; the generation of the resume channel after it. *)
Fixpoint next_event (inbox : list Wake) (generation : Z) : option (Wake * list Wake * Z) :=
  match inbox with
  | [] => None
  | Resume g :: inbox => next_event inbox g
  | e :: inbox => Some (e, inbox, generation)
  end.

(** [timeout(.., event_receiver.next())].  A queue that is empty for ever is an
    [await] that does not end. *)
Definition await_event : wm Wake :=
  fun w => match next_event (w_inbox w) (w_resume_gen w) with
           | None => (w, Diverge)
           | Some (e, inbox, g) => (put_w_resume_gen g (put_w_inbox inbox w), Ok e)
           end.

(** The same in a [select!] with [resume_rx.changed()]. *)
Definition await_event_or_resume : wm Wake :=
  fun w => match w_inbox w with
           | [] => (w, Diverge)
           | Resume g :: inbox => (put_w_resume_gen g (put_w_inbox inbox w), Ok (Resume g))
           | e :: inbox => (put_w_inbox inbox w, Ok e)
           end.

(** A loop over the event queue: each round takes an entry. *)
Definition with_fuel {A} (loop : nat -> wm A) : wm A := fun w => loop (S (length (w_inbox w))) w.

Section host.
Context `{!Host}.

Definition now : wm Z := reading clock.

(** ** [nl80211.rs] *)

(** The requests that return the raw error. *)
Definition raw_request (c : Command) : wm (option NlError) :=
  fun w => (put_w_log (w_log w ++ [c]) w, Ok (kernel_reply (w_log w) c)).

(** [drain_request]: the error converted. *)
Definition request (c : Command) : wm unit :=
  r ← raw_request c;
  match r with None => mret tt | Some e => throw (nl_error e) end.

Definition is_ealready (e : NlError) : bool := bool_decide (nl_code e = Some (-114)).
Definition is_eopnotsupp (e : NlError) : bool := bool_decide (nl_code e = Some (-95)).

(** The body that [authenticate] and [connect] share. *)
Definition request_retry (c : Command) : wm unit :=
  r ← raw_request c;
  match r with
  | None => mret tt
  | Some e =>
      if is_ealready e then logged (request Disconnect);; request c
      else throw (nl_error e)
  end.

Definition authenticate (ssid : string) (mac : list Z) (freq : Z) (type : AuthType)
  (ie auth_data : option (list Z)) : wm unit :=
  request_retry (Authenticate ssid mac freq type ie auth_data).

Definition connect (a : Association) (akm : option Akm.t) : wm unit := request_retry (Connect a akm).

(** An nl80211 error converted to a [WifiError] by [?] is what the dump answers. *)
Definition get_scan_results : wm (list (list BssAttr)) :=
  r ← reading scan_dump;
  lift (of_sum r).

Definition is_associated : wm bool :=
  d ← reading station_dump;
  match d with
  | (_ :: _, _) => mret true
  | ([], Some e) => throw e
  | ([], None) => mret false
  end.

(** The address and the signal of a message: the last of each. *)
Definition station_fields (msg : list StationAttr) : option (list Z) * option Z :=
  fold_left (fun '(mac, signal) attr =>
    match attr with
    | StationMac m => (Some m, signal)
    | StationInfo signals => (mac, match last signals with Some s => Some s | None => signal end)
    | StationOther => (mac, signal)
    end) msg (None, None).

(** [while let Some(msg) = stream.try_next()] of [current_signal_dbm] ([roam.rs]). *)
Fixpoint station_signal (bssid : list Z) (msgs : list (list StationAttr)) (error : option WifiError.t)
  : outcome WifiError.t (option Z) :=
  match msgs with
  | [] => match error with Some e => Err e | None => Ok None end
  | msg :: msgs =>
      let '(mac, signal) := station_fields msg in
      if bool_decide (mac = Some bssid) && bool_decide (is_Some signal)
      then Ok signal else station_signal bssid msgs error
  end.

Definition current_signal_dbm : wm (option Z) :=
  d ← reading station_dump;
  w ← get;
  lift (station_signal (bssid (bss_info w)) d.1 d.2).

(** [while offset + 2 <= ies.len()] of [extract_rsn_from_ies]. *)
Fixpoint extract_rsn_loop (fuel : nat) (ies : list Z) (offset : nat)
  : outcome WifiError.t (option (list Z)) :=
  match fuel with
  | O => Diverge
  | S fuel =>
      if (offset + 2 <=? length ies)%nat then
        id ← idx ies offset;
        len ← idx ies (offset + 1);
        let end_ := (offset + 2 + usize len)%nat in
        if (length ies <? end_)%nat then Ok None else
        if id =? 48 then r ← slice ies offset end_; Ok (Some r)
        else extract_rsn_loop fuel ies end_
      else Ok None
  end.

Definition extract_rsn_from_ies (ies : list Z) : outcome WifiError.t (option (list Z)) :=
  extract_rsn_loop (S (length ies)) ies 0.

(** ** The control port ([wifi_iface.rs], [control_port.rs]) *)

Definition is_raw (w : W) : bool := bool_decide (c_control_port (w_caps w) = PortRawEapol).

Definition ensure_control_port : wm unit :=
  w ← get;
  if negb (is_raw w) || w_raw_port_open w then mret tt
  else request RawOpen;; modify (put_w_raw_port_open true).

Definition send_control_port_frame (bssid frame : list Z) : wm unit :=
  w ← get;
  if negb (is_raw w) then request (ControlPortFrame bssid frame)
  else if w_raw_port_open w then request (RawSend bssid frame)
  else throw (WifiError.new WifiError.NoSupport "raw EAPOL control port is not initialized").

(** ** WoWLAN *)

Definition desired_wowlan_triggers (supported : list WowlanTrigger) : list WowlanTrigger :=
  List.filter (fun t => existsb (fun s => bool_decide (s = t)) supported)
    [TriggerDisconnect; TriggerGtkRekeyFailure].

Definition wowlan_wakeup_requires_reconnect (reasons : list WowlanWakeup) : bool :=
  existsb (fun r => match r with WakeGtkRekeyFailure | WakeDisconnect => true | WakeOther => false end)
    reasons.

Definition wowlan_supported (w : W) : bool :=
  negb (bool_decide (desired_wowlan_triggers (c_wowlan_supported_triggers (w_caps w)) = [])).

Definition arm_wowlan : wm bool :=
  w ← get;
  if w_wowlan_armed w then mret true else
  let triggers := desired_wowlan_triggers (c_wowlan_supported_triggers (w_caps w)) in
  if bool_decide (triggers = []) then mret false else
  r ← result_of (request (SetWowlan triggers));
  match r with
  | inr _ => modify (put_w_wowlan_armed true);; mret true
  | inl _ => mret false
  end.

Definition disarm_wowlan : wm unit :=
  w ← get;
  if negb (w_wowlan_armed w) then mret tt else
  logged (request (SetWowlan []));;
  modify (put_w_wowlan_armed false).

Definition arm_wowlan_if_enabled : wm unit :=
  w ← get;
  if NetworkConfig.wowlan (network w) then logged arm_wowlan else mret tt.

(** ** Waits *)

Definition wait_remaining (wait : Z) : wm Z :=
  n ← now;
  w ← get;
  let '(d, remaining) := WaitDeadline.remaining n (w_state w) wait (w_wait_deadline w) in
  modify (put_w_wait_deadline d);;
  mret remaining.

Definition clear_wait_deadline : wm unit :=
  modify (fun w => put_w_wait_deadline (WaitDeadline.clear (w_wait_deadline w)) w).

(** [BssidIgnoreList::is_ignored] reads the clock. *)
Definition is_ignored (b : list Z) : wm bool :=
  n ← now;
  w ← get;
  mret (BssidIgnoreList.is_ignored n (bssid_ignore (w_iface w)) b).

(** ** Scan requests *)

(** The request of [send_out_scan_request], sent. *)
Definition scan_request : wm unit :=
  in_iface (send_out_scan_request (Ok tt));;
  w ← get;
  match last (requests (w_iface w)) with
  | Some (ssids, freqs) => request (TriggerScan ssids freqs)
  | None => mret tt
  end.

End host.
End interface.
