(* ===== verification/WifiAuth.v ===== *)
(** * Starting an authentication and an association

    [WifiIface::send_out_auth_request] and [eap_tls_method] of [src/src/wifi/auth.rs],
    [src/src/wifi/client/associate.rs] and [connect.rs], and [EapTlsConfig] of
    [src/src/core/eap_tls.rs].  [WifiInvariant.v] shows what an attempt preserves, [AttemptEnds.v]
    what it starts from and what a PMKSA that is refused leaves behind. *)

From stdpp Require Import gmap.
From S2P Require Import Prelude Errors Eap EapTls Security Pmksa WifiKdf FourWay Sae Owe.
From S2P Require Import WifiConfig ClientState Scan WifiIface.

Abbreviation wm := (st W WifiError.t).

Section auth.
Context `{!Supplicant} `{!FrameLib} `{!Host}.

(** ** Capabilities agreed with the access point *)

(** [fw] after [enable_ocv], and what it returns. *)
Definition enable_ocv (w : W) (fw : FourWayState.t) : FourWayState.t * bool :=
  if negb (NetworkConfig.ocv (network w)) then (fw, true) else
  if negb (ap_ocv_capable (bss_info w)) then (fw, true) else
  match oci_from_freq (freq_mhz (bss_info w)) with
  | Some oci => (FourWayState.set_ocv true oci (freq_mhz (bss_info w)) fw, true)
  | None => (fw, false)
  end.

Definition ext_key_id_enabled (w : W) : bool :=
  NetworkConfig.ext_key_id (network w) && ap_ext_key_id_capable (bss_info w).

(** [rsne_set_ocvc] and [rsne_set_ext_key_id], as the network asks. *)
Definition advertise (w : W) (rsne : list Z) : list Z :=
  let rsne := if NetworkConfig.ocv (network w) then rsne_set_ocvc true rsne else rsne in
  if NetworkConfig.ext_key_id (network w) then rsne_set_ext_key_id true rsne else rsne.

(** ** Association *)

(** What the Message 2 of the handshake repeats. *)
Definition assoc_rsne (w : W) (ie : list Z) : outcome WifiError.t (list Z) :=
  if bool_decide (security (bss_info w) = Owe)
  then r ← extract_rsn_from_ies ie; Ok (default [] r)
  else Ok (if is_ft (security (bss_info w)) then [] else ie).

Definition associate (ie : list Z) (mfp_required : bool) : wm unit :=
  w ← get;
  let ie := advertise w ie in
  assoc_wpa_ie ← lift (assoc_rsne w ie);
  modify (on_link (put_l_assoc_wpa_ie assoc_wpa_ie));;
  request (Associate
    (mkAssociation (NetworkConfig.ssid (network w)) (bssid (bss_info w)) None (freq_mhz (bss_info w))
       (if bool_decide (ie = []) then None else Some ie) mfp_required
       (negb (bool_decide (security (bss_info w) = Open))
        && bool_decide (c_control_port (w_caps w) = PortNl80211)))).

Definition rsne_with_pmkid (w : W) (pmkid : option (list Z)) : list Z :=
  let cipher := group_mgmt_cipher (bss_info w) in
  match security (bss_info w) with
  | Sae => sae_ie_with_pmkid_cipher pmkid cipher
  | SaeExtKey => sae_ext_key_ie_with_pmkid_cipher pmkid cipher
  | FtSae => ft_sae_ie_cipher pmkid cipher
  | FtSaeExtKey => ft_sae_ext_key_ie_cipher pmkid cipher
  | Wpa2Psk => wpa2_psk_ie_with_pmkid_cipher pmkid cipher
  | Wpa2PskSha256 => wpa2_psk_sha256_ie_with_pmkid_cipher pmkid cipher
  | Wpa2Ent => wpa2_ent_ie_cipher cipher
  | Wpa2EntSha256 => wpa2_ent_sha256_ie_cipher cipher
  | FtPsk => ft_psk_ie_cipher pmkid cipher
  | Owe => owe_ie_cipher cipher
  | Open | Unsupported => []
  end.

(** ** PMKSAs in the driver *)

Definition driver_set_pmksa (entry : PmksaEntry.t) : wm unit :=
  n ← now;
  let lifetime := PmksaEntry.remaining_lifetime_secs entry n in
  n ← now;
  percent ← lift (PmksaEntry.remaining_reauth_percent entry n);
  logged (request (SetPmksa (PmksaEntry.pmkid entry) (PmksaEntry.bssid entry) (PmksaEntry.pmk entry)
                     lifetime percent)).

Definition driver_del_pmksa (entry : PmksaEntry.t) : wm unit :=
  logged (request (DelPmksa (PmksaEntry.pmkid entry) (PmksaEntry.bssid entry))).

Fixpoint driver_del_all (entries : list PmksaEntry.t) : wm unit :=
  match entries with
  | [] => mret tt
  | entry :: entries => driver_del_pmksa entry;; driver_del_all entries
  end.

Definition invalidate_ssid (ssid : string) : wm unit :=
  w ← get;
  let '(kept, removed) := PmksaCache.remove_ssid ssid (w_pmksa w) in
  modify (put_w_pmksa kept);;
  (if from_option (fun e => bool_decide (PmksaEntry.ssid e = ssid)) false (l_pmksa_in_use (w_link w))
   then modify (on_link (put_l_pmksa_in_use None)) else mret tt);;
  driver_del_all removed.

(** The entry of [cache_pmksa] for a connection without a cached PMKSA; none is
    [return]. *)
Definition fresh_pmksa (n : Z) (w : W) : option PmksaEntry.t :=
  let spa := w_mac w in
  let aa := bssid (bss_info w) in
  let entry pmkid pmk mic_alg :=
    PmksaEntry.new n (NetworkConfig.ssid (network w)) aa (security (bss_info w)) pmkid pmk mic_alg in
  let sae mic_alg :=
    method ← a_method (w_auth w);
    pmk ← AuthMethod.pmk method;
    pmkid ← AuthMethod.pmkid method;
    Some (entry pmkid pmk mic_alg) in
  match security (bss_info w) with
  | Sae => sae AesCmac
  | SaeExtKey => sae HmacSha256
  | Wpa2Psk => pmk ← a_psk_pmk (w_auth w); Some (entry (pmkid_sha1 pmk aa spa) pmk HmacSha1)
  | Wpa2PskSha256 => pmk ← a_psk_pmk (w_auth w); Some (entry (pmkid_sha256 pmk aa spa) pmk AesCmac)
  | _ => None
  end.

(** [PmksaCache::insert]. *)
Definition remember_pmksa (entry : PmksaEntry.t) : wm unit :=
  driver_set_pmksa entry;;
  n ← now;
  modify (fun w => put_w_pmksa (PmksaCache.insert n entry (w_pmksa w)) w).

Definition cache_pmksa : wm unit :=
  w ← get;
  match l_pmksa_in_use (w_link w) with
  | Some entry => modify (on_link (put_l_pmksa_in_use None));; remember_pmksa entry
  | None =>
      n ← now;
      match fresh_pmksa n w with
      | Some entry => remember_pmksa entry
      | None => mret tt
      end
  end.

(** ** EAP-TLS *)

(** [read_pem]. *)
Definition read_pem (path what : string) : wm string :=
  r ← reading (fun n => read_file n path);
  match r with
  | inr pem => mret pem
  | inl e => throw (WifiError.new WifiError.InvalidConfig ("read " +:+ what +:+ " " +:+ path +:+ ": " +:+ e))
  end.

Definition required (o : option string) (m : string) : wm string :=
  lift (ok_or o (WifiError.new WifiError.InvalidConfig m)).

(** [EapTlsConfig::new]. *)
Definition EapTlsConfig_new (config : TlsCfg) (server_name : string) : outcome WifiError.t EapTlsConfig :=
  match server_name_err server_name with
  | Some e => Err (tls_err e)
  | None => Ok (mkEapTlsConfig config server_name)
  end.

(** [EapTlsConfig::from_config]. *)
Definition from_config (config : EapConfig) : wm EapTlsConfig :=
  ca_path ← required (ca_cert config) "EAP: ca_cert required";
  cert_path ← required (client_cert config) "EAP-TLS: client_cert required";
  key_path ← required (client_key config) "EAP-TLS: client_key required";
  server_name ← required (server_name config) "EAP-TLS: server_name required";
  pem ← read_pem ca_path "CA certificate";
  ca ← lift (of_sum (certs_from_pem pem));
  pem ← read_pem cert_path "client certificate";
  cert ← lift (of_sum (certs_from_pem pem));
  pem ← read_pem key_path "client key";
  key ← lift (of_sum (key_from_pem pem));
  cfg ← lift (of_sum (client_config ca cert key));
  lift (EapTlsConfig_new cfg server_name).

Definition eap_tls_method (eap_cfg : EapConfig) : wm (EapTlsMethod.t TlsCfg TlsConnection) :=
  w ← get;
  (if from_option (fun '(cached, _) => bool_decide (cached = eap_cfg)) false (w_eap_tls_config w)
   then mret tt
   else parsed ← from_config eap_cfg;
        modify (put_w_eap_tls_config (Some (eap_cfg, parsed))));;
  w ← get;
  c ← lift (unwrap (w_eap_tls_config w));
  lift (EapTlsMethod.new (tls_config c.2) (tls_server_name c.2)).

(** ** [NL80211_CMD_CONNECT] *)

(** Why a FullMAC driver cannot join. *)
Definition connect_unsupported (s : SecurityType) : option string :=
  match s with
  | Open | Wpa2Psk | Wpa2PskSha256 | Wpa2Ent | Wpa2EntSha256 => None
  | Sae | SaeExtKey | FtSae | FtSaeExtKey =>
      Some "WPA3-SAE requires a SoftMAC driver (NL80211_CMD_AUTHENTICATE)"
  | FtPsk => Some "802.11r FT-PSK requires a SoftMAC driver"
  | Owe => Some "OWE is not supported on FullMAC drivers yet"
  | Unsupported => Some "unsupported security mode"
  end.

(** [match security { .. _ => unreachable!() }]. *)
Definition connect_akm (s : SecurityType) : outcome WifiError.t Akm.t :=
  match s with
  | Wpa2Psk => Ok Akm.Psk
  | Wpa2PskSha256 => Ok Akm.PskSha256
  | Wpa2Ent => Ok Akm.Ieee8021x
  | Wpa2EntSha256 => Ok Akm.Ieee8021xSha256
  | _ => Panic
  end.

Definition connect_mfp (b : BssInfo) : outcome WifiError.t bool :=
  match security b with
  | Wpa2EntSha256 => Ok true
  | Wpa2Ent | Wpa2Psk | Wpa2PskSha256 => ap_mfp_capable b
  | _ => Ok false
  end.

Definition send_out_connect_request : wm unit :=
  w ← get;
  let sec := security (bss_info w) in
  let ssid := NetworkConfig.ssid (network w) in
  match connect_unsupported sec with
  | Some reason => throw (WifiError.with_ssid (WifiError.new WifiError.NoSupport reason) ssid)
  | None =>
  if negb (bool_decide (if_mlme (w_iface w) = FullMac))
  then throw (WifiError.new WifiError.Config "send_out_connect_request called in SoftMAC mode") else
  let pmkid := PmksaEntry.pmkid <$> l_pmksa_in_use (w_link w) in
  let ie := if bool_decide (sec = Open) then [] else rsne_with_pmkid w pmkid in
  rsne ← lift (extract_rsn_from_ies ie);
  modify (on_link (put_l_assoc_wpa_ie (default [] rsne)));;
  let association ie mfp port :=
    mkAssociation ssid (bssid (bss_info w)) None (freq_mhz (bss_info w)) ie mfp port in
  if bool_decide (sec = Open) then connect (association None false false) None else
  akm ← lift (connect_akm sec);
  mfp ← lift (connect_mfp (bss_info w));
  ensure_control_port;;
  connect (association (Some ie) mfp (bool_decide (c_control_port (w_caps w) = PortNl80211)))
    (Some akm)
  end.

(** ** [send_out_auth_request] *)

(** The assignments at its head. *)
Definition reset_attempt (w : W) : W :=
  let link := mkLink [] None None None None false false in
  let a := w_auth w in
  let auth := mkAuth None (a_owe a) None None None false 0 [] false [] false in
  on_roam (put_r_ft_roam None) (put_w_auth auth (put_w_link link w)).

Definition is_enterprise (s : SecurityType) : bool :=
  match s with Wpa2Ent | Wpa2EntSha256 => true | _ => false end.
Definition is_psk (s : SecurityType) : bool :=
  match s with Wpa2Psk | Wpa2PskSha256 | FtPsk => true | _ => false end.
Definition is_sae (s : SecurityType) : bool :=
  match s with Sae | SaeExtKey | FtSae | FtSaeExtKey => true | _ => false end.

(** The EAP peer of an enterprise network. *)
Definition prepare_eap : wm unit :=
  w ← get;
  if is_enterprise (security (bss_info w)) then
    eap_cfg ← lift (ok_or (NetworkConfig.eap (network w))
      (WifiError.new WifiError.InvalidConfig
         (security_debug (security (bss_info w)) +:+ " network requires EAP credentials")));
    method ← eap_tls_method eap_cfg;
    modify (on_auth (put_a_eap_peer
      (Some (EapPeer.set_method (EapPeer.new (as_bytes (eap_identity eap_cfg))) method))))
  else mret tt.

(** [PmksaCache::lookup] and [lookup_past_reauth] read the clock twice. *)
Definition lookup_with
  (lookup : Z -> Z -> string -> list Z -> SecurityType -> list PmksaEntry.t
            -> list PmksaEntry.t * option PmksaEntry.t) : wm (option PmksaEntry.t) :=
  n ← now;
  n' ← now;
  w ← get;
  let '(cache, found) :=
    lookup n n' (NetworkConfig.ssid (network w)) (bssid (bss_info w)) (security (bss_info w))
      (w_pmksa w) in
  modify (put_w_pmksa cache);;
  mret found.

Definition use_pmksa : wm unit :=
  w ← get;
  found ← (if is_sae (security (bss_info w)) || is_psk (security (bss_info w))
           then lookup_with PmksaCache.lookup else mret None);
  match found with
  | Some entry => modify (on_link (put_l_pmksa_in_use (Some entry)))
  | None =>
      stale ← lookup_with PmksaCache.lookup_past_reauth;
      match stale with Some entry => driver_del_pmksa entry | None => mret tt end
  end.

(** [kdf::pbkdf2_pmk]. *)
Definition pbkdf2_pmk (password ssid : string) : list Z :=
  pbkdf2_hmac_sha1 (as_bytes password) (as_bytes ssid) 4096.

Definition derive_psk : wm unit :=
  w ← get;
  if bool_decide (l_pmksa_in_use (w_link w) = None) && is_psk (security (bss_info w)) then
    password ← lift (ok_or (NetworkConfig.password (network w))
      (WifiError.new WifiError.InvalidConfig "password required for WPA2-PSK"));
    modify (on_auth (put_a_psk_pmk (Some (pbkdf2_pmk password (NetworkConfig.ssid (network w))))))
  else mret tt.

(** A method of [auth.method], which is there. *)
Definition with_method {A} (m : st AuthMethod.t WifiError.t A) : wm A :=
  fun w => match a_method (w_auth w) with
           | None => (w, Panic)
           | Some method =>
               let '(method, r) := m method in (on_auth (put_a_method (Some method)) w, r)
           end.

Definition is_ext_key (s : SecurityType) : bool :=
  match s with SaeExtKey | FtSaeExtKey => true | _ => false end.

(** The SAE method of an attempt. *)
Definition sae_method (w : W) (password : string) : outcome WifiError.t AuthMethod.t :=
  let n := network w in
  let ext_key := is_ext_key (security (bss_info w)) in
  let password_id := NetworkConfig.sae_password_id n in
  method ← AuthMethod.new_sae (as_bytes password) (as_bytes (NetworkConfig.ssid n)) (w_mac w)
    (bssid (bss_info w))
    (ext_key || starts_h2e (NetworkConfig.sae_pwe n) (ap_supports_sae_h2e (bss_info w))
     || bool_decide (is_Some password_id))
    (negb ext_key && allows_hnp_fallback (NetworkConfig.sae_pwe n)
     && bool_decide (password_id = None))
    (as_bytes <$> password_id);
  Ok (if ext_key
      then AuthMethod.set_akm_selector
             (Some (if bool_decide (security (bss_info w) = SaeExtKey)
                    then [0x00; 0x0f; 0xac; 0x18] else [0x00; 0x0f; 0xac; 0x19])) method
      else method).

(** An [AUTHENTICATE] request to the selected BSS. *)
Definition authenticate_bss (type : AuthType) (auth_data : option (list Z)) : wm unit :=
  w ← get;
  authenticate (NetworkConfig.ssid (network w)) (bssid (bss_info w)) (freq_mhz (bss_info w)) type
    None auth_data.

Definition start_sae : wm unit :=
  w ← get;
  password ← lift (ok_or (NetworkConfig.password (network w))
    (WifiError.new WifiError.InvalidConfig "password required for encrypted network"));
  method ← lift (sae_method w password);
  modify (on_auth (put_a_method (Some method)));;
  rng ← reading random_scalars;
  auth_data ← with_method (AuthMethod.initial_frame rng);
  authenticate_bss SaeType (Some auth_data);;
  modify (on_auth (put_a_sae_commit_sent true));;
  modify (on_auth (put_a_sae_sync 0));;
  modify (on_auth (put_a_sae_commit_auth_data auth_data)).

Definition send_out_auth_request : wm unit :=
  modify reset_attempt;;
  prepare_eap;;
  use_pmksa;;
  derive_psk;;
  w ← get;
  (if negb (bool_decide (security (bss_info w) = Open)) && is_raw w
   then ensure_control_port else mret tt);;
  if bool_decide (if_mlme (w_iface w) = FullMac) then send_out_connect_request else
  w ← get;
  if bool_decide (is_Some (l_pmksa_in_use (w_link w))) || negb (is_sae (security (bss_info w)))
  then authenticate_bss OpenSystem None
  else start_sae.

(** ** A PMKSA that was refused *)

(** [pmksa_cache.invalidate] and [driver_del_pmksa] of the entry in use. *)
Definition drop_pmksa_in_use : wm unit :=
  w ← get;
  match l_pmksa_in_use (w_link w) with
  | Some entry =>
      modify (on_link (put_l_pmksa_in_use None));;
      modify (fun w => put_w_pmksa (PmksaCache.invalidate (PmksaEntry.ssid entry)
                         (PmksaEntry.bssid entry) (PmksaEntry.security entry) (w_pmksa w)).1 w);;
      driver_del_pmksa entry
  | None => mret tt
  end.

Definition pmksa_fallback : wm unit :=
  drop_pmksa_in_use;;
  r ← result_of send_out_auth_request;
  match r with inl _ => set_state Failed | inr _ => set_state Authenticating end.

Definition associate_with_pmksa : wm unit :=
  w ← get;
  match l_pmksa_in_use (w_link w) with
  | None => mret tt
  | Some entry =>
      let ie := rsne_with_pmkid w (Some (PmksaEntry.pmkid entry)) in
      mfp ← lift (match security (bss_info w) with
                  | Sae | SaeExtKey | FtSaeExtKey => Ok true
                  | _ => ap_mfp_capable (bss_info w)
                  end);
      on_error (associate ie mfp) (fun _ => pmksa_fallback)
  end.

End auth.
