(* ===== verification/Roam.v ===== *)
(** * Roaming

    [src/src/wifi/roam.rs]: when a roam scan is started, the targets of 802.11v
    requests, and Fast BSS Transition.  A wait for a neighbor report handles the events
    that arrive meanwhile; what handles them is the argument [wait_report] of the methods
    that reach the wait ([WifiEvents.v] gives it).  [FtSafety.v] shows when the keys of a
    Fast BSS Transition are installed, which ones, and what the authentication response
    must carry; [WifiDemo.v] where a BTM request can send the client. *)

From stdpp Require Import gmap.
From S2P Require Import Prelude Errors Eap EapTls Security Pmksa WifiKdf FourWay Sae Owe.
From S2P Require Import WifiConfig ClientState Scan WifiIface WifiAuth.

Definition ROAM_COOLDOWN : Z := secs 30.
Definition CQM_RSSI_HYST_DBM : Z := 5.
Definition BACKGROUND_SCAN_SECS : Z := 300.
Definition POST_CONNECT_SCAN_DELAY_SECS : Z := 5.
Definition ROAM_SIGNAL_CHECK_SECS : Z := 5.
Definition RETRY_BACKOFF_INIT_SEC : Z := 10.
(** [Ieee80211BtmResponse], [Ieee80211StatusCode::Success]. *)
Definition STATUS_ACCEPT : Z := 0.
Definition STATUS_REJECT_UNSPECIFIED : Z := 1.
Definition StatusSuccess : Z := 0.

Definition roaming_err {A} (m : string) : outcome WifiError.t A :=
  Err (WifiError.new WifiError.Roaming m).

Definition ft_reassoc_uses_rsnxe (security : SecurityType) (sae_pwe : SaePwe) (ap_supports_h2e : bool)
  (sae_password_id : option string) : bool :=
  (match security with FtSae | FtSaeExtKey => true | _ => false end)
  && (bool_decide (is_Some sae_password_id) || starts_h2e sae_pwe ap_supports_h2e).

Definition connected_wait_duration (now : Z) (ap_supports_roam cqm_armed : bool)
  (post_connect_deadline : option Z) : option Z :=
  let background_wait :=
    if ap_supports_roam
    then Some (secs (if cqm_armed then BACKGROUND_SCAN_SECS else ROAM_SIGNAL_CHECK_SECS)) else None in
  match post_connect_deadline with
  | Some deadline =>
      let remaining := Z.max 0 (deadline - now) in
      Some (from_option (fun wait => Z.min wait remaining) remaining background_wait)
  | None => background_wait
  end.

Section roam.
Context `{!Supplicant} `{!FrameLib} `{!Host}.

(** ** Frames and elements *)

Definition register_roam_frames : wm unit :=
  w ← get;
  if bool_decide (if_mlme (w_iface w) = FullMac) then mret tt else
  logged (request (RegisterFrame [10]));;
  logged (request (RegisterFrame [5; 5])).

Definition append_ft_mdie (w : W) (ies : list Z) : outcome WifiError.t (list Z) :=
  match mdie (bss_info w) with
  | None => roaming_err "FT BSS without MDIE in scan results"
  | Some m => Ok (ies ++ mdie_element (mdid m) (ft_capab m))
  end.

(** The element with an identifier, with its header. *)
Definition element (ies : list Z) (id : Z) : option (list Z) := ie_at ies <$> find_ie_pos ies id.

(** MDIE and FTIE of a response, which Message 2 repeats. *)
Definition ft_ies (ies : list Z) : list Z :=
  default [] (element ies ELEMENT_ID_MDIE) ++ default [] (element ies ELEMENT_ID_FTIE).

(** The key that the FT hierarchy starts from. *)
Definition xxkey (w : W) : outcome WifiError.t (list Z) :=
  match security (bss_info w) with
  | FtSae | FtSaeExtKey =>
      ok_or (a_method (w_auth w) ≫= AuthMethod.pmk) (WifiError.new WifiError.Roaming "no SAE PMK for FT")
  | FtPsk => ok_or (a_psk_pmk (w_auth w)) (WifiError.new WifiError.Roaming "no PSK PMK for FT")
  | other => roaming_err ("FT context for non-FT security " +:+ security_debug other)
  end.

Definition roaming {A} (o : option A) (m : string) : wm A :=
  lift (ok_or o (WifiError.new WifiError.Roaming m)).

Definition setup_ft_context (ies : list Z) : wm unit :=
  m ← roaming (find_ie ies ELEMENT_ID_MDIE ≫= parse_mdie) "no MDIE in FT association response";
  ftie_body ← roaming (find_ie ies ELEMENT_ID_FTIE) "no FTIE in FT association response";
  ftie ← roaming (parse_ftie ftie_body) "malformed FTIE in FT association response";
  r0kh_id ← roaming (ftie_r0kh_id ftie) "no R0KH-ID in FT association response FTIE";
  r1kh_id ← roaming (ftie_r1kh_id ftie) "no R1KH-ID in FT association response FTIE";
  w ← get;
  key ← lift (xxkey w);
  pmk_r0 ← lift (derive_pmk_r0 key (NetworkConfig.ssid (network w)) m.1 r0kh_id (w_mac w));
  pmk_r1 ← lift (derive_pmk_r1 pmk_r0 r1kh_id (w_mac w));
  modify (on_link (put_l_ft (Some (mkFtContext m.1 m.2 r0kh_id pmk_r0 pmk_r1 (ft_ies ies))))).

(** ** Rekey offload ([events.rs]) *)

Definition rekey_akm (s : SecurityType) : Akm.t :=
  match s with
  | Wpa2Psk => Akm.Psk
  | Wpa2PskSha256 => Akm.PskSha256
  | Wpa2Ent => Akm.Ieee8021x
  | Wpa2EntSha256 => Akm.Ieee8021xSha256
  | Owe => Akm.Owe
  | Sae => Akm.Sae
  | SaeExtKey => Akm.SaeGroupDependentHash
  | FtPsk => Akm.FtPsk
  | FtSae => Akm.FtSae
  | FtSaeExtKey => Akm.FtSaeGroupDependentHash
  | Open | Unsupported => Akm.Sae
  end.

Definition try_offload_rekey : wm bool :=
  w ← get;
  match l_fourway (w_link w) with
  | None => mret false
  | Some fw =>
      match FourWayState.kck fw, FourWayState.kek fw with
      | Some kck, Some kek =>
          r ← result_of (request (SetRekeyOffload kek kck (FourWayState.replay_counter_bytes fw)
                                    (rekey_akm (security (bss_info w)))));
          mret (match r with inr _ => true | inl _ => false end)
      | _, _ => mret false
      end
  end.

(** ** Roam scans *)

Definition threshold (w : W) : option Z := roam_threshold (w_iface w).

(** [last_roam] is less than the cooldown ago. *)
Definition cooling_down : wm bool :=
  w ← get;
  match r_last_roam (w_roam w) with
  | None => mret false
  | Some last_ => n ← now; mret (Z.max 0 (n - last_) <? ROAM_COOLDOWN)
  end.

(** The conditions that the triggers of a roam scan share. *)
Definition may_scan (w : W) : bool :=
  bool_decide (is_Some (threshold w)) && ap_supports_signal_roam (bss_info w)
  && bool_decide (r_ft_roam (w_roam w) = None) && negb (roam_scan (w_iface w)).

(** New frequencies of neighbors, while there is room. *)
Fixpoint add_freqs (freqs : list Z) (neighbors : list Neighbor) : list Z :=
  match neighbors with
  | [] => freqs
  | n :: neighbors =>
      if (ROAM_QUICK_SCAN_MAX_FREQS <=? length freqs)%nat then freqs else
      match channel_to_freq (n_operating_class n) (n_channel n) with
      | None => add_freqs freqs neighbors
      | Some freq =>
          add_freqs (if bool_decide (freq ∈ freqs) then freqs else freqs ++ [freq]) neighbors
      end
  end.

Definition learn_freqs (neighbors : list Neighbor) (w : W) : W :=
  on_iface (put_roam_freqs (add_freqs (roam_freqs (w_iface w)) neighbors)) w.

Definition handle_rrm_frame (response : NeighborReport) : wm unit :=
  w ← get;
  match r_pending_nr_dialog (w_roam w) with
  | None => mret tt
  | Some dialog =>
      if negb (nr_dialog_token response =? dialog) then mret tt else
      modify (on_roam (put_r_pending_nr_dialog None));;
      let count := r_neighbor_report_responses (w_roam w) in
      if count =? 2 ^ 64 - 1 then lift Panic else
      modify (on_roam (put_r_neighbor_report_responses (count + 1)));;
      modify (learn_freqs (nr_entries response))
  end.

(** [loop] of [request_neighbor_report_freqs]: the events before the report, the
    timeout or the end of the queue go to [dispatch]. *)
Fixpoint await_report (fuel : nat) (dispatch : WifiEvent -> wm unit) : wm unit :=
  match fuel with
  | O => lift Diverge
  | S fuel =>
      e ← await_event;
      match e with
      | Woke (Kernel (mkRawMessage _ _ (Some (FrameNeighborReport report)))) =>
          handle_rrm_frame report;;
          w ← get;
          if bool_decide (r_pending_nr_dialog (w_roam w) = None) then mret tt
          else await_report fuel dispatch
      | Woke e => dispatch e;; await_report fuel dispatch
      | _ => modify (on_roam (put_r_pending_nr_dialog None))
      end
  end.

Definition request_neighbor_report_freqs (wait_report : wm unit) : wm unit :=
  w ← get;
  if negb (rm_neighbor_report (bss_info w)) then mret tt else
  if bool_decide (is_Some (r_pending_nr_dialog (w_roam w))) then mret tt else
  let dialog := 1 in
  r ← result_of (request (SendFrame
        (neighbor_report_request_frame (w_mac w) (bssid (bss_info w)) dialog)
        (freq_mhz (bss_info w))));
  match r with
  | inl _ => mret tt
  | inr _ => modify (on_roam (put_r_pending_nr_dialog (Some dialog)));; wait_report
  end.

(** [trigger_roam_scan] from the scan request on; [retry] follows a failed one. *)
Definition start_roam_scan (full : bool) (retry : wm unit) : wm unit :=
  modify (on_iface (put_roam_scan true));;
  modify (on_iface (put_roam_scan_full full));;
  w ← get;
  (if bool_decide (r_pre_roam_state (w_roam w) = None)
   then modify (on_roam (put_r_pre_roam_state (Some (w_state w)))) else mret tt);;
  r ← result_of scan_request;
  match r with
  | inl _ =>
      w ← get;
      let prev := r_pre_roam_state (w_roam w) in
      modify (on_roam (put_r_pre_roam_state None));;
      modify (on_iface (put_roam_scan false));;
      modify (on_iface (put_post_connect_scan false));;
      (match prev with Some prev => set_state prev | None => mret tt end);;
      retry
  | inr _ => set_state Scanning
  end.

Definition trigger_full_scan : wm unit :=
  modify (on_roam (put_r_post_connect_scan_at None));;
  start_roam_scan true (mret tt).

Definition trigger_quick_scan (wait_report : wm unit) : wm unit :=
  modify (on_roam (put_r_post_connect_scan_at None));;
  request_neighbor_report_freqs wait_report;;
  start_roam_scan false trigger_full_scan.

(** The gates of a scan for a weak signal, the cooldown included; [scan] passes
    them. *)
Definition gated (scan : wm unit) : wm unit :=
  w ← get;
  if negb (may_scan w) then mret tt else
  cooling ← cooling_down;
  if cooling : bool then mret tt else scan.

Definition check_roam_conditions (wait_report : wm unit) : wm unit :=
  gated (
    signal ← result_of current_signal_dbm;
    w ← get;
    match signal, threshold w with
    | inr (Some signal), Some threshold =>
        if threshold <=? signal then mret tt else
        modify (on_iface (put_background_scan false));;
        trigger_quick_scan wait_report
    | _, _ => mret tt
    end).

Definition check_background_roam : wm unit :=
  gated (modify (on_iface (put_background_scan true));; trigger_full_scan).

(** ** The scan after a connection *)

Definition arm_post_connect_scan : wm unit :=
  w ← get;
  if bool_decide (if_mlme (w_iface w) = FullMac) then mret tt else
  if r_post_connect_scan_done (w_roam w) || bool_decide (is_Some (r_post_connect_scan_at (w_roam w)))
  then mret tt else
  if negb (NetworkConfig.roaming (network w)) || negb (ap_supports_signal_roam (bss_info w))
  then mret tt else
  n ← now;
  modify (on_roam (put_r_post_connect_scan_at (Some (n + secs POST_CONNECT_SCAN_DELAY_SECS)))).

Definition post_connect_best_bss_scan : wm unit :=
  modify (on_roam (put_r_post_connect_scan_at None));;
  modify (on_roam (put_r_post_connect_scan_done true));;
  w ← get;
  if bool_decide (is_Some (r_ft_roam (w_roam w))) || roam_scan (w_iface w) then mret tt else
  modify (on_iface (put_post_connect_scan true));;
  modify (on_iface (put_background_scan true));;
  trigger_full_scan.

Definition disarm_post_connect_scan : wm unit :=
  modify (on_roam (put_r_post_connect_scan_at None));;
  modify (on_iface (put_post_connect_scan false)).

(** ** The connection quality monitor *)

(** The last threshold event of a notification: low, high, or another. *)
Definition threshold_event (events : list CqmAttr) : CqmAttr :=
  fold_left (fun ev attr => match attr with
                            | RssiLow | RssiHigh | RssiOtherEvent => attr
                            | _ => ev
                            end) events RssiOtherEvent.

(** The signal recovered: a roam scan in flight is given up. *)
Definition cancel_roam_scan : wm unit :=
  modify (on_iface (put_roam_scan_full false));;
  w ← get;
  if roam_scan (w_iface w) then
    modify (on_iface (put_roam_scan false));;
    modify (on_iface (put_background_scan false));;
    modify (on_iface (put_post_connect_scan false));;
    match r_pre_roam_state (w_roam w) with
    | Some prev => modify (on_roam (put_r_pre_roam_state None));; set_state prev
    | None => mret tt
    end
  else mret tt.

Definition handle_cqm_rssi (wait_report : wm unit) (events : list CqmAttr) : wm unit :=
  w ← get;
  if negb (is_connected (w_state w)) && negb (roam_scan (w_iface w)) then mret tt else
  match threshold_event events with
  | RssiLow =>
      gated (modify (on_iface (put_background_scan false));; trigger_quick_scan wait_report)
  | RssiHigh => cancel_roam_scan
  | _ => mret tt
  end.

Definition arm_cqm : wm bool :=
  w ← get;
  match threshold w with
  | None => mret false
  | Some threshold =>
      r ← result_of (request (SetCqm threshold CQM_RSSI_HYST_DBM));
      mret (match r with inr _ => true | inl _ => false end)
  end.

(** ** Choosing another BSS *)

(** [synthesize_okc_entry]. *)
Definition okc_pmkid (target : BssInfo) (mac pmk : list Z) : option (list Z * MicAlg) :=
  match security target with
  | Wpa2Psk => Some (pmkid_sha1 pmk (bssid target) mac, HmacSha1)
  | Wpa2PskSha256 => Some (pmkid_sha256 pmk (bssid target) mac, AesCmac)
  | _ => None
  end.

Definition synthesize_okc_entry (target : BssInfo) : wm unit :=
  w ← get;
  match a_psk_pmk (w_auth w) with
  | None => mret tt
  | Some pmk =>
      match okc_pmkid target (w_mac w) pmk with
      | None => mret tt
      | Some (pmkid, mic_alg) =>
          n ← now;
          let entry := PmksaEntry.new n (NetworkConfig.ssid (network w)) (bssid target)
                         (security target) pmkid pmk mic_alg in
          n' ← now;
          modify (fun w => put_w_pmksa (PmksaCache.insert n' entry (w_pmksa w)) w)
      end
  end.

Definition ft_rsne (s : SecurityType) (pmkid : list Z) (cipher : CipherSuite) : list Z :=
  match s with
  | FtSae => ft_sae_rsne_cipher (Some pmkid) cipher
  | FtSaeExtKey => ft_sae_ext_key_rsne_cipher (Some pmkid) cipher
  | _ => ft_psk_rsne_cipher (Some pmkid) cipher
  end.

Definition start_ft_roam (target : BssInfo) : wm unit :=
  w ← get;
  ft ← roaming (l_ft (w_link w)) "no FT context";
  target_mdie ← roaming (mdie target) "roam target has no MDIE";
  snonce ← reading (fun n => random_fill n 32);
  let ft_ies :=
    ft_rsne (security (bss_info w)) (r0_name (ft_pmk_r0 ft)) (group_mgmt_cipher (bss_info w))
    ++ mdie_element (mdid target_mdie) (ft_capab target_mdie)
    ++ ftie_auth_request snonce (ft_r0kh_id ft) in
  r ← result_of (authenticate (NetworkConfig.ssid (network w)) (bssid target) (freq_mhz target) FtType
                   (Some ft_ies) None);
  match r with
  | inl e =>
      set_state Failed;;
      lift (roaming_err ("FT AUTHENTICATE failed: " +:+ WifiError.to_string e))
  | inr _ =>
      set_state Authenticating;;
      modify (on_roam (put_r_ft_roam (Some (mkFtRoam target snonce None None None))))
  end.

Definition reconnect_to (target : BssInfo) (switching : bool) : wm unit :=
  (if switching then mret tt else
   n ← now;
   w ← get;
   let '(cache, known) :=
     PmksaCache.contains n (NetworkConfig.ssid (network w)) (bssid target) (security target)
       (w_pmksa w) in
   modify (put_w_pmksa cache);;
   if known : bool then mret tt else synthesize_okc_entry target);;
  modify (on_iface (put_roam_target (Some (bssid target))));;
  n ← now;
  modify (on_roam (put_r_last_roam (Some n)));;
  modify (on_iface (put_roam_scan_full false));;
  logged (request Disconnect);;
  set_state Failed.

Definition start_roam (target : BssInfo) (target_network : NetworkConfig.t) : wm unit :=
  modify (on_roam (put_r_post_connect_scan_at None));;
  modify (on_roam (put_r_post_connect_scan_done true));;
  modify (on_iface (put_cqm_armed false));;
  w ← get;
  let switching :=
    negb (bool_decide (NetworkConfig.ssid target_network = NetworkConfig.ssid (network w))) in
  if switching && negb (NetworkConfig.can_roam_to_security target_network (security target))
  then mret tt else
  if negb switching && bool_decide (is_Some (l_ft (w_link w))) && is_ft (security target)
     && bool_decide (mdid <$> mdie target = ft_mdid <$> l_ft (w_link w))
  then logged (start_ft_roam target) else
  (if switching then modify (on_iface (put_link (bss_info w) target_network)) else mret tt);;
  reconnect_to target switching.

(** ** 802.11v *)

Definition btm_match (current : BssInfo) (candidates : list candidate) (n : Neighbor) : option BssInfo :=
  if bool_decide (n_bssid n = bssid current) then None else
  match List.find (fun c => bool_decide (bssid c.1 = n_bssid n)
                            && NetworkConfig.matches_bssid c.2 (bssid c.1)) candidates with
  | None => None
  | Some (bss, _) =>
      if bool_decide (base (security bss) = base (security current)) then Some bss else None
  end.

Fixpoint first_btm_match (current : BssInfo) (candidates : list candidate) (l : list Neighbor)
  : option BssInfo :=
  match l with
  | [] => None
  | n :: l =>
      match btm_match current candidates n with
      | Some bss => Some bss
      | None => first_btm_match current candidates l
      end
  end.

Definition pick_btm_target (btm : BtmRequest) (w : W) : option BssInfo :=
  first_btm_match (bss_info w) (last_scan_candidates (w_iface w)) (btm_candidates btm).

Definition send_btm_response (dialog_token status : Z) (target_bssid : list Z) : wm unit :=
  w ← get;
  logged (request (SendFrame
    (btm_response_frame (w_mac w) (bssid (bss_info w)) dialog_token status target_bssid)
    (freq_mhz (bss_info w)))).

Definition handle_wnm_frame (btm : BtmRequest) : wm unit :=
  w ← get;
  if bool_decide (if_mlme (w_iface w) = FullMac) then mret tt else
  if negb (is_connected (w_state w)) then mret tt else
  modify (learn_freqs (btm_candidates btm));;
  w ← get;
  match pick_btm_target btm w with
  | Some target =>
      send_btm_response (btm_dialog_token btm) STATUS_ACCEPT (bssid target);;
      w ← get;
      start_roam target (network w)
  | None => send_btm_response (btm_dialog_token btm) STATUS_REJECT_UNSPECIFIED (replicate 6 0)
  end.

(** ** Fast BSS Transition: the authentication response *)

Definition send_ft_reassoc (target : BssInfo) (ptk : list Z) (pmk_r1 : PmkR1)
  (r1kh_id snonce anonce : list Z) : wm unit :=
  w ← get;
  ft ← roaming (l_ft (w_link w)) "no FT context";
  target_mdie ← roaming (mdie target) "roam target has no MDIE";
  let rsne := ft_rsne (security target) (r1_name pmk_r1) (group_mgmt_cipher (bss_info w)) in
  let mdie := mdie_element (mdid target_mdie) (ft_capab target_mdie) in
  let rsnxe :=
    if ft_reassoc_uses_rsnxe (security target) (NetworkConfig.sae_pwe (network w))
         (ap_supports_sae_h2e target) (NetworkConfig.sae_password_id (network w))
    then Some sae_rsnxe else None in
  kck ← lift (slice ptk 0 16);
  ftie ← lift (ftie_reassoc_request kck (w_mac w) (bssid target) anonce snonce (ft_r0kh_id ft) r1kh_id
                 rsne mdie rsnxe);
  mfp ← lift (match security target with
              | FtSae | FtSaeExtKey => Ok true
              | _ => ap_mfp_capable target
              end);
  request (Associate
    (mkAssociation (NetworkConfig.ssid (network w)) (bssid target) (Some (bssid (bss_info w)))
       (freq_mhz target) (Some (rsne ++ mdie ++ ftie ++ default [] rsnxe)) mfp true)).

(** What the response must carry: its FTIE and R1KH-ID. *)
Definition check_ft_auth (ft : FtContext) (roam : FtRoam) (frame : list Z)
  : outcome WifiError.t (Ftie * list Z) :=
  auth ← match ft_auth_parse frame with
         | inr auth => Ok auth
         | inl e => roaming_err ("malformed FT authentication frame: " +:+ e)
         end;
  if negb (fa_transaction auth =? 2)
  then roaming_err ("unexpected FT auth frame seq=" +:+ pretty (fa_transaction auth)) else
  if negb (fa_status auth =? StatusSuccess)
  then roaming_err ("FT authentication rejected: status=" +:+ pretty (fa_status auth)) else
  let ies := fa_body auth in
  mdie ← ok_or (find_ie ies ELEMENT_ID_MDIE ≫= parse_mdie)
           (WifiError.new WifiError.Roaming "no MDIE in FT auth response");
  if negb (bool_decide (mdie.1 = ft_mdid ft)) then roaming_err "MDID mismatch in FT auth response" else
  ftie_body ← ok_or (find_ie ies ELEMENT_ID_FTIE)
                (WifiError.new WifiError.Roaming "no FTIE in FT auth response");
  ftie ← ok_or (parse_ftie ftie_body)
           (WifiError.new WifiError.Roaming "malformed FTIE in FT auth response");
  if negb (bool_decide (ftie_snonce ftie = fr_snonce roam))
  then roaming_err "SNonce mismatch in FT auth response" else
  if negb (bool_decide (ftie_r0kh_id ftie = Some (ft_r0kh_id ft)))
  then roaming_err "R0KH-ID mismatch in FT auth response" else
  r1kh_id ← ok_or (ftie_r1kh_id ftie)
              (WifiError.new WifiError.Roaming "no R1KH-ID in FT auth response FTIE");
  match find_ie ies ELEMENT_ID_RSN ≫= rsne_first_pmkid with
  | Some pmkid =>
      if negb (bool_decide (pmkid = r0_name (ft_pmk_r0 ft)))
      then roaming_err "PMKR0Name mismatch in FT auth response RSNE" else Ok (ftie, r1kh_id)
  | None => Ok (ftie, r1kh_id)
  end.

Definition handle_ft_auth_response_inner (frame : list Z) : wm unit :=
  w ← get;
  roam ← roaming (r_ft_roam (w_roam w)) "no FT roam in progress";
  ft ← roaming (l_ft (w_link w)) "no FT context";
  x ← lift (check_ft_auth ft roam frame);
  let '(ftie, r1kh_id) := (x : Ftie * list Z) in
  pmk_r1 ← lift (derive_pmk_r1 (ft_pmk_r0 ft) r1kh_id (w_mac w));
  ptk ← lift (derive_ft_ptk pmk_r1 (fr_snonce roam) (ftie_anonce ftie) (bssid (fr_target roam)) (w_mac w));
  modify (on_roam (put_r_ft_roam
    (Some (mkFtRoam (fr_target roam) (fr_snonce roam) (Some pmk_r1) (Some r1kh_id) (Some ptk)))));;
  send_ft_reassoc (fr_target roam) ptk pmk_r1 r1kh_id (fr_snonce roam) (ftie_anonce ftie).

Definition handle_ft_auth_response (frame : list Z) : wm unit :=
  on_error (handle_ft_auth_response_inner frame)
    (fun _ => modify (on_roam (put_r_ft_roam None));; set_state Failed).

(** ** Fast BSS Transition: the reassociation response *)

(** [ftie_zmic]: the FTIE with its MIC zeroed. *)
Definition zero_mic (ftie_body : list Z) : outcome WifiError.t (list Z) :=
  control ← slice ftie_body 0 2;
  rest ← slice_from ftie_body 18;
  Ok ([ELEMENT_ID_FTIE; as_u8 (zlen ftie_body)] ++ control ++ replicate 16 0 ++ rest).

(** The checks before any key is installed: the FTIE. *)
Definition check_ft_assoc (mac : list Z) (target : BssInfo) (ptk r1kh_id : list Z) (pmk_r1 : PmkR1)
  (ies : list Z) : outcome WifiError.t Ftie :=
  ftie_body ← ok_or (find_ie ies ELEMENT_ID_FTIE)
                (WifiError.new WifiError.Roaming "no FTIE in reassoc response");
  ftie ← ok_or (parse_ftie ftie_body)
           (WifiError.new WifiError.Roaming "malformed reassoc response FTIE");
  if negb (bool_decide (ftie_r1kh_id ftie = Some r1kh_id))
  then roaming_err "R1KH-ID mismatch in reassoc response" else
  rsne_elem ← ok_or (element ies ELEMENT_ID_RSN)
                (WifiError.new WifiError.Roaming "no RSNE in reassoc response");
  rsne_body ← slice_from rsne_elem 2;
  if from_option (fun pmkid => negb (bool_decide (pmkid = r1_name pmk_r1))) false
       (rsne_first_pmkid rsne_body)
  then roaming_err "PMKR1Name mismatch in reassoc response RSNE" else
  if negb (bool_decide (ap_rsne target = [])) && negb (rsne_match_ignore_pmkid rsne_elem (ap_rsne target))
  then roaming_err "RSNE downgrade detected in reassoc response" else
  ftie_zmic ← zero_mic ftie_body;
  let mic_data :=
    rsne_elem ++ default [] (element ies ELEMENT_ID_MDIE) ++ ftie_zmic
    ++ default [] (element ies ELEMENT_ID_RSN_EXT) in
  kck ← slice ptk 0 16;
  expected_mic ← ft_mic kck mac (bssid target) 6 mic_data;
  if negb (bool_decide (expected_mic = ftie_mic ftie))
  then roaming_err "FTIE MIC mismatch in reassoc response" else Ok ftie.

(** [Nl80211Key] of a pairwise, a group and a management group key. *)
Definition ptk_key (bssid tk : list Z) : Key := mkKey Pairwise (Some bssid) tk 0 None None false.
Definition gtk_key (key : list Z) (index : Z) (seq : list Z) : Key :=
  mkKey Gtk None key index (Some seq) None false.
Definition ft_igtk_attrs (key : list Z) (index : Z) (rsc : list Z) (cipher : CipherSuite) : Key :=
  mkKey Igtk None key index (Some rsc) (Some cipher) false.
Definition ft_bigtk_attrs (key : list Z) (index : Z) (rsc : list Z) (cipher : CipherSuite) : Key :=
  mkKey Bigtk None key index (Some rsc) (Some cipher) false.

(** A request whose error is wrapped. *)
Definition install_or_fail (k : Key) (what : string) : wm unit :=
  r ← result_of (request (NewKey k));
  match r with
  | inr _ => mret tt
  | inl e => lift (roaming_err ("FT " +:+ what +:+ " install failed: " +:+ WifiError.to_string e))
  end.

Definition install_ft_ptk (target : BssInfo) (ptk : list Z) : wm unit :=
  rest ← lift (slice_from ptk 32);
  tk ← lift (slice rest 0 16);
  install_or_fail (ptk_key (bssid target) tk) "PTK".

(** The group keys of the FTIE. *)
Definition install_ft_gtk (kek : list Z) (gtk : option FtieKey) : wm unit :=
  match gtk with
  | None => mret tt
  | Some gtk =>
      key ← lift (unwrap_ft_key kek (wrapped_key gtk));
      install_or_fail (gtk_key key (key_index gtk) (rsc gtk)) "GTK"
  end.

Definition install_ft_mgmt (attrs : list Z -> Z -> list Z -> CipherSuite -> Key) (kek : list Z)
  (cipher : CipherSuite) (k : option FtieKey) : wm unit :=
  match k with
  | None => mret tt
  | Some k =>
      key ← lift (unwrap_ft_key kek (wrapped_key k));
      logged (request (NewKey (attrs key (key_index k) (rsc k) cipher)))
  end.

Definition install_ft_keys (target : BssInfo) (ptk : list Z) (ftie : Ftie) : wm unit :=
  install_ft_ptk target ptk;;
  kek ← lift (slice ptk 16 32);
  install_ft_gtk kek (ftie_gtk ftie);;
  install_ft_mgmt ft_igtk_attrs kek (group_mgmt_cipher target) (ftie_igtk ftie);;
  install_ft_mgmt ft_bigtk_attrs kek (group_mgmt_cipher target) (ftie_bigtk ftie).

Definition ft_ie (s : SecurityType) (pmkid : list Z) (cipher : CipherSuite) : list Z :=
  match s with
  | FtSae => ft_sae_ie_cipher (Some pmkid) cipher
  | FtSaeExtKey => ft_sae_ext_key_ie_cipher (Some pmkid) cipher
  | _ => ft_psk_ie_cipher (Some pmkid) cipher
  end.

Definition ft_mic_alg (s : SecurityType) : MicAlg :=
  match s with FtSaeExtKey => HmacSha256 | _ => AesCmac end.

(** The 4-way state of the target, [link.bss_info] already being it. *)
Definition ft_fourway (w : W) (snonce : list Z) (pmk_r1 : PmkR1) (ptk ft_ies : list Z) : FourWayState.t :=
  let target := bss_info w in
  let rsne := advertise w
    (ft_ie (security target) (r1_name pmk_r1) (group_mgmt_cipher target) ++ ft_ies) in
  let fw := FourWayState.new_ft snonce pmk_r1 (ft_mic_alg (security target)) (w_mac w) (bssid target)
              rsne (ap_rsne target) (ap_rsnxe target) in
  let fw := (enable_ocv w fw).1 in
  FourWayState.set_ptk ptk (FourWayState.set_ext_key_id (ext_key_id_enabled w) fw).

(** The connection moves to the target. *)
Definition complete_ft_roam (ft : FtContext) (target : BssInfo) (pmk_r1 : PmkR1) (ptk ies : list Z)
  : wm unit :=
  modify (fun w => on_iface (put_link target (network w)) w);;
  snonce ← reading (fun n => random_fill n 32);
  w ← get;
  modify (on_link (put_l_fourway (Some (ft_fourway w snonce pmk_r1 ptk (ft_ies ies)))));;
  modify (on_link (put_l_ft (Some (mkFtContext (ft_mdid ft) (ft_capability ft) (ft_r0kh_id ft)
                                     (ft_pmk_r0 ft) pmk_r1 (ft_ies ies)))));;
  modify (on_roam (put_r_ft_roam None));;
  n ← now;
  modify (on_roam (put_r_last_roam (Some n)));;
  modify (on_iface (put_roam_scan_full false));;
  modify (on_auth (put_a_method None));;
  modify (on_pno (put_p_scan_retry_interval RETRY_BACKOFF_INIT_SEC));;
  offloaded ← try_offload_rekey;
  set_state (if offloaded : bool then ConnectedWithOffloadRekey else ConnectedWithoutOffloadRekey);;
  arm_wowlan_if_enabled.

Definition handle_ft_assoc_response_inner (ies : list Z) : wm unit :=
  w ← get;
  roam ← roaming (r_ft_roam (w_roam w)) "no FT roam in progress";
  ft ← roaming (l_ft (w_link w)) "no FT context";
  ptk ← roaming (fr_ptk roam) "FT roam PTK missing";
  r1kh_id ← roaming (fr_r1kh_id roam) "FT roam R1KH-ID missing";
  pmk_r1 ← roaming (fr_pmk_r1 roam) "FT roam PMK-R1 missing";
  let target := fr_target roam in
  ftie ← lift (check_ft_assoc (w_mac w) target ptk r1kh_id pmk_r1 ies);
  install_ft_keys target ptk ftie;;
  complete_ft_roam ft target pmk_r1 ptk ies.

Definition handle_ft_assoc_response (ies : list Z) : wm unit :=
  r ← result_of (handle_ft_assoc_response_inner ies);
  match r with
  | inr _ => mret tt
  | inl e => modify (on_roam (put_r_ft_roam None));; throw e
  end.

End roam.
