(* ===== verification/WifiEvents.v ===== *)
(** * Events of a WiFi interface

    [src/src/wifi/client/events.rs]: what the interface does with an event of the
    kernel, with an EAPOL frame of the access point, and with the loss of a link.
    [Module WifiEventFacts] shows where the answer to an SAE-EXT-KEY commit goes;
    [WifiSafety.v] that a protected network is connected only after its pairwise key is
    installed. *)

From stdpp Require Import gmap.
From S2P Require Import Prelude Errors Eap EapTls Security Pmksa WifiKdf FourWay Sae Owe.
From S2P Require Import WifiConfig ClientState Scan WifiIface WifiAuth Roam.

Definition NL80211_ATTR_DISCONNECTED_BY_AP : Z := 71.
Definition SAE_SYNC_MAX : Z := 3.
(** [Ieee80211ReasonCode], [Ieee80211StatusCode]. *)
Definition PrevAuthNotValid : Z := 2.
Definition DisassocDueToInactivity : Z := 4.
Definition Class2FrameFromNonAuthSta : Z := 6.
Definition Class3FrameFromNonAssocSta : Z := 7.
Definition StaReqAssocWithoutAuth : Z := 9.
Definition Ieee8021xFailed : Z := 23.
Definition ChallengeFail : Z := 15.

(** ** The classification of a disconnection *)

Record DisconnectInfo := mkInfo { di_reason : option Z; di_from_ap : option bool }.

Definition DisconnectInfo_default : DisconnectInfo := mkInfo None None.

Definition is_recoverable_disconnect_reason (reason : option Z) : bool :=
  match reason with
  | Some r => (r =? DisassocDueToInactivity) || (r =? Class2FrameFromNonAuthSta)
              || (r =? Class3FrameFromNonAssocSta)
  | None => false
  end.

Definition classify_fast_reconnect (reason : option Z) (from_ap : option bool) (has_last_bss : bool)
  : FastReconnect :=
  if bool_decide (from_ap = Some true) && has_last_bss && is_recoverable_disconnect_reason reason
  then SameBss else ScanNow.

Definition pmksa_rejected_by_deauth (state : WifiState) (security : SecurityType)
  (pmksa_in_use fourway_started : bool) (reason : option Z) (from_ap : option bool) : bool :=
  bool_decide (state = Authenticating) && is_sae security && pmksa_in_use && negb fourway_started
  && bool_decide (reason = Some StaReqAssocWithoutAuth) && bool_decide (from_ap = Some true).

Definition could_be_psk_mismatch (state : WifiState) (security : SecurityType)
  (pmksa_in_use fourway_started : bool) (from_ap : option bool) : bool :=
  bool_decide (state = Authenticating) && bool_decide (from_ap = Some true) && negb pmksa_in_use
  && fourway_started && is_psk security.

Definition port_authorized_applies (state : WifiState) : bool :=
  match state with
  | Authenticating | ConnectedWithoutOffloadRekey | ConnectedWithOffloadRekey => true
  | _ => false
  end.

(** [wifi_iface.rs]. *)
Definition is_fatal_disconnect_reason (reason : option Z) : bool :=
  match reason with
  | Some r => (r =? PrevAuthNotValid) || (r =? Ieee8021xFailed)
  | None => false
  end.

Definition fatal_disconnect_error (reason : option Z) : WifiError.t :=
  match reason with
  | Some r =>
      if r =? PrevAuthNotValid then
        WifiError.new WifiError.WrongPassword
          "AP rejected authentication (prev_auth_not_valid): the configured password is wrong or the PMKSA is stale"
      else if r =? Ieee8021xFailed then
        WifiError.new WifiError.AuthFailed
          "AP rejected 802.1X authentication (ieee8021x_failed): check the configured EAP credentials"
      else WifiError.new WifiError.AuthFailed
             "AP rejected authentication; check the configured credentials"
  | None => WifiError.new WifiError.AuthFailed
              "AP rejected authentication; check the configured credentials"
  end.

(** Origin and reason, from the octets of a management frame. *)
Definition frame_info (mac frame : list Z) : outcome WifiError.t DisconnectInfo :=
  from_ap ← (if (16 <=? length frame)%nat
             then sa ← slice frame 10 16; Ok (Some (negb (bool_decide (sa = mac)))) else Ok None);
  reason ← (if (26 <=? length frame)%nat
            then b0 ← idx frame 24; b1 ← idx frame 25; Ok (Some (from_le16 b0 b1)) else Ok None);
  Ok (mkInfo reason from_ap).

Definition first_frame : list RawAttr -> option (list Z) :=
  fold_right (fun a rest => match a with RawFrame f => Some f | RawOther _ => rest end) None.

Definition disconnect_info (mac : list Z) (msg : RawMessage) : outcome WifiError.t DisconnectInfo :=
  match raw_attrs msg with
  | None => Ok DisconnectInfo_default
  | Some attrs =>
      match raw_cmd msg with
      | DisconnectCommand =>
          Ok (mkInfo None (Some (existsb (fun a => match a with
                                                   | RawOther kind => kind =? NL80211_ATTR_DISCONNECTED_BY_AP
                                                   | RawFrame _ => false
                                                   end) attrs)))
      | DeauthenticateCommand | DisassociateCommand | UnprotDeauthenticate | UnprotDisassociate =>
          match first_frame attrs with
          | None => Ok DisconnectInfo_default
          | Some frame => frame_info mac frame
          end
      | _ => Ok DisconnectInfo_default
      end
  end.

Section events.
Context `{!Supplicant} `{!FrameLib} `{!Host}.

Definition is_some {A} (o : option A) : bool := match o with Some _ => true | None => false end.

(** [if let Err(e) = m { self.state = Failed; return }], then [k]. *)
Definition or_failed {A} (m : wm A) (k : A -> wm unit) : wm unit :=
  r ← result_of m;
  match r with inl _ => set_state Failed | inr a => k a end.

(** [let Some(x) = o else { self.state = Failed; return }], then [k]. *)
Definition some_or_failed {A} (o : option A) (k : A -> wm unit) : wm unit :=
  match o with None => set_state Failed | Some a => k a end.

(** The state once the keys are in place. *)
Definition connected_as (state : WifiState) : wm unit :=
  modify (put_w_fast_reconnect None);;
  modify (on_pno (put_p_scan_retry_interval RETRY_BACKOFF_INIT_SEC));;
  set_state state.

Definition is_psk_4way_in_progress (w : W) : bool :=
  is_some (l_fourway (w_link w)) && negb (is_some (l_pmksa_in_use (w_link w)))
  && is_psk (security (bss_info w)).

(** ** Links that are lost *)

Definition mark_link_lost (fast : FastReconnect) : wm unit :=
  disarm_post_connect_scan;;
  logged (request Disconnect);;
  modify (put_w_fast_reconnect (Some fast));;
  set_state Failed.

(** The BSS of the link is one that can be joined again. *)
Definition has_last_bss : wm bool :=
  w ← get;
  if negb (bool_decide (bssid (bss_info w) = NO_BSSID)) && negb (freq_mhz (bss_info w) =? 0)
  then ignored ← is_ignored (bssid (bss_info w)); mret (negb ignored)
  else mret false.

Definition handle_ap_disconnect (reason : option Z) (from_ap : option bool) : wm unit :=
  w ← get;
  if is_some (r_ft_roam (w_roam w)) then mret tt else
  if is_connected (w_state w) then
    if is_fatal_disconnect_reason reason then
      logged (request Disconnect);; fail_auth (fatal_disconnect_error reason)
    else
      last_bss ← has_last_bss;
      mark_link_lost (classify_fast_reconnect reason from_ap last_bss)
  else if bool_decide (w_state w = Scanning) && is_some (r_pre_roam_state (w_roam w)) then
    modify (on_iface (put_roam_scan false));;
    modify (on_roam (put_r_pre_roam_state None));;
    modify (on_iface (put_roam_target None));;
    mark_link_lost ScanNow
  else if could_be_psk_mismatch (w_state w) (security (bss_info w))
            (is_some (l_pmksa_in_use (w_link w))) (is_some (l_fourway (w_link w))) from_ap then
    logged (request Disconnect);;
    fail_auth (WifiError.wrong_password (NetworkConfig.ssid (network w)))
  else if pmksa_rejected_by_deauth (w_state w) (security (bss_info w))
            (is_some (l_pmksa_in_use (w_link w))) (is_some (l_fourway (w_link w))) reason from_ap then
    pmksa_fallback
  else mret tt.

Definition handle_wowlan_wakeup (reasons : list WowlanWakeup) : wm unit :=
  w ← get;
  (if w_wowlan_armed w then logged disarm_wowlan else mret tt);;
  w ← get;
  if negb (is_connected (w_state w)) then mret tt else
  if wowlan_wakeup_requires_reconnect reasons then mark_link_lost ScanNow
  else arm_wowlan_if_enabled.

(** ** SAE *)

Definition send_sae_commit (auth_data : list Z) : wm unit :=
  or_failed (authenticate_bss SaeType (Some auth_data)) (fun _ =>
    modify (on_auth (put_a_sae_confirm_sent false));;
    modify (on_auth (put_a_sae_confirm_auth_data []));;
    modify (on_auth (put_a_sae_commit_sent true));;
    modify (on_auth (put_a_sae_commit_auth_data auth_data))).

Definition send_sae_confirm (auth_data : list Z) : wm unit :=
  or_failed (authenticate_bss SaeType (Some auth_data)) (fun _ =>
    modify (on_auth (put_a_sae_commit_sent false));;
    modify (on_auth (put_a_sae_commit_auth_data []));;
    modify (on_auth (put_a_sae_confirm_sent true));;
    modify (on_auth (put_a_sae_confirm_auth_data auth_data))).

(** The first frame of the method just made. *)
Definition send_first_commit : wm unit :=
  rng ← reading random_scalars;
  r ← result_of (with_method (AuthMethod.initial_frame rng));
  match r with
  | inl e => fail_auth e
  | inr auth_data =>
      modify (on_auth (put_a_sae_sync 0));;
      send_sae_commit auth_data
  end.

Definition restart_sae_with_hnp : wm unit :=
  w ← get;
  match NetworkConfig.password (network w) with
  | None => fail_auth (WifiError.new WifiError.InvalidConfig "no password for HnP SAE restart")
  | Some password =>
      r ← result_of (lift (AuthMethod.new_sae (as_bytes password)
                             (as_bytes (NetworkConfig.ssid (network w))) (w_mac w) (bssid (bss_info w))
                             false false None));
      match r with
      | inl e => fail_auth e
      | inr auth =>
          modify (on_auth (put_a_method (Some auth)));;
          modify (on_auth (put_a_sae_hnp_attempted true));;
          send_first_commit
      end
  end.

(** The RSN element of the association after SAE. *)
Definition sae_rsne (w : W) : list Z :=
  let cipher := group_mgmt_cipher (bss_info w) in
  match security (bss_info w) with
  | FtSae => ft_sae_ie_cipher None cipher
  | FtSaeExtKey => ft_sae_ext_key_ie_cipher None cipher
  | SaeExtKey => sae_ext_key_ie_cipher cipher
  | _ => sae_ie_cipher cipher
  end.

Definition associate_after_sae : wm unit :=
  modify (on_auth (put_a_sae_confirm_sent false));;
  modify (on_auth (put_a_sae_confirm_auth_data []));;
  w ← get;
  or_failed
    (lift (match security (bss_info w) with
           | FtSae | FtSaeExtKey => append_ft_mdie w (sae_rsne w)
           | _ => Ok (sae_rsne w)
           end))
    (fun ies => or_failed (associate ies true) (fun _ => mret tt)).

Definition handle_auth_action (action : AuthAction) : wm unit :=
  match action with
  | Continue => mret tt
  | SendConfirm confirm =>
      modify (on_auth (put_a_sae_sync 0));;
      send_sae_confirm (to_le16 2 ++ to_le16 0 ++ to_le16 1 ++ confirm)
  | SendCommitWithToken token =>
      w ← get;
      if negb (is_some (a_method (w_auth w))) then mret tt else
      rng ← reading random_scalars;
      r ← result_of (with_method (AuthMethod.commit_with_token rng token));
      match r with
      | inl e => fail_auth e
      | inr auth_data =>
          modify (on_auth (put_a_sae_sync 0));;
          send_sae_commit auth_data
      end
  | RetryWithHnp => restart_sae_with_hnp
  | RetryTemporarily =>
      w ← get;
      if a_sae_sync (w_auth w) <? SAE_SYNC_MAX then mret tt else set_state Failed
  | Complete => associate_after_sae
  end.

Definition handle_auth_frame (auth : AuthFrame) : wm unit :=
  match af_sae auth with
  | None => mret tt
  | Some sae =>
      w ← get;
      if negb (bool_decide (sf_bssid sae = bssid (bss_info w))) then mret tt else
      if negb (is_some (a_method (w_auth w))) then mret tt else
      r ← result_of (with_method (AuthMethod.process_frame (sf_transaction sae) (sf_status sae) (sf_body sae)));
      match r with
      | inl e => fail_auth e
      | inr action => handle_auth_action action
      end
  end.

(** ** The 4-way handshake *)

(** A method of [link.fourway], which is there. *)
Definition with_fourway {A} (m : FourWayState.method A) : wm A :=
  fun w => match l_fourway (w_link w) with
           | None => (w, Panic)
           | Some fw =>
               let '(fw, r) := m fw in (on_link (put_l_fourway (Some fw)) w, r)
           end.

(** PMK, RSN element and MIC of a handshake that is not FT; none when there is no
    PMK. *)
Definition handshake_keys (w : W) : option (list Z * list Z * MicAlg) :=
  let cipher := group_mgmt_cipher (bss_info w) in
  let rsne ie := if bool_decide (l_assoc_wpa_ie (w_link w) = []) then ie else l_assoc_wpa_ie (w_link w) in
  match l_pmksa_in_use (w_link w) with
  | Some entry =>
      Some (PmksaEntry.pmk entry, rsne (rsne_with_pmkid w (Some (PmksaEntry.pmkid entry))),
            PmksaEntry.mic_alg entry)
  | None =>
      match security (bss_info w) with
      | Owe => o ← a_owe (w_auth w); pmk ← owe_pmk o; Some (pmk, rsne (owe_ie_cipher cipher), HmacSha256)
      | Wpa2Psk => pmk ← a_psk_pmk (w_auth w); Some (pmk, rsne (wpa2_psk_ie_cipher cipher), HmacSha1)
      | Wpa2PskSha256 =>
          pmk ← a_psk_pmk (w_auth w); Some (pmk, rsne (wpa2_psk_sha256_ie_cipher cipher), AesCmac)
      | Wpa2Ent => pmk ← a_eap_pmk (w_auth w); Some (pmk, rsne (wpa2_ent_ie_cipher cipher), HmacSha1)
      | Wpa2EntSha256 =>
          pmk ← a_eap_pmk (w_auth w); Some (pmk, rsne (wpa2_ent_sha256_ie_cipher cipher), AesCmac)
      | SaeExtKey =>
          pmk ← a_method (w_auth w) ≫= AuthMethod.pmk;
          Some (pmk, rsne (sae_ext_key_ie_cipher cipher), HmacSha256)
      | _ =>
          pmk ← a_method (w_auth w) ≫= AuthMethod.pmk; Some (pmk, rsne (sae_ie_cipher cipher), AesCmac)
      end
  end.

(** The 4-way state of the first Message 1, [snonce] being drawn; none is a failure. *)
Definition new_fourway (w : W) (snonce : list Z) : option FourWayState.t :=
  let b := bss_info w in
  fw ← (if is_ft (security b) then
          ft ← l_ft (w_link w);
          let rsne := advertise w
            (ft_ie (security b) (r1_name (ft_pmk_r1 ft)) (group_mgmt_cipher b)
             ++ ft_assoc_resp_ies ft) in
          Some (FourWayState.new_ft snonce (ft_pmk_r1 ft) (ft_mic_alg (security b)) (w_mac w) (bssid b)
                  rsne (ap_rsne b) (ap_rsnxe b))
        else
          x ← handshake_keys w;
          let '(pmk, rsne, mic_alg) := (x : list Z * list Z * MicAlg) in
          Some (FourWayState.new_with_ap_ies snonce pmk mic_alg (w_mac w) (bssid b) (advertise w rsne)
                  (ap_rsne b) (ap_rsnxe b)));
  let '(fw, ok) := enable_ocv w fw in
  if ok : bool then Some (FourWayState.set_ext_key_id (ext_key_id_enabled w) fw) else None.

(** [send_control_port_frame] to the access point. *)
Definition send_to_ap (frame : list Z) : wm unit :=
  w ← get;
  send_control_port_frame (bssid (bss_info w)) frame.

(** Message 2, once there is a 4-way state. *)
Definition answer_message_1 (parsed : EapolKeyFrame) : wm unit :=
  fresh ← reading (fun n => random_fill n 32);
  or_failed (with_fourway (FourWayState.process_message_1 fresh (f_key_nonce parsed)
                             (f_replay_counter parsed) (f_desc_version parsed)))
    (fun msg2 => or_failed (send_to_ap msg2) (fun _ => mret tt)).

Definition handle_message_1 (frame : list Z) (parsed : EapolKeyFrame) : wm unit :=
  w ← get;
  if is_ft (security (bss_info w)) && negb (is_some (l_ft (w_link w)))
  then modify (on_link (put_l_pending_ft_msg1 (Some frame))) else
  let started := is_some (l_fourway (w_link w)) in
  modify (on_link (put_l_ptk_rekey started));;
  if started then answer_message_1 parsed else
  snonce ← reading (fun n => random_fill n 32);
  w ← get;
  some_or_failed (new_fourway w snonce) (fun fw =>
    modify (on_link (put_l_fourway (Some fw)));;
    answer_message_1 parsed).

(** The TK and the key identifier of the handshake. *)
Definition current_tk (w : W) : option (list Z) := l_fourway (w_link w) ≫= FourWayState.tk.
Definition current_key_id (w : W) : option Z := l_fourway (w_link w) ≫= FourWayState.key_id.

(** With an extended key identifier, the key for reception before Message 4. *)
Definition install_rx_ptk (w : W) (k : wm unit) : wm unit :=
  match current_key_id w, current_tk w with
  | Some key_id, Some tk =>
      or_failed (request (NewKey (mkKey Pairwise (Some (bssid (bss_info w))) tk key_id None None false)))
        (fun _ => k)
  | _, _ => k
  end.

Definition install_ptk (w : W) (k : wm unit) : wm unit :=
  match current_tk w with
  | Some tk =>
      or_failed (request (NewKey
        (match current_key_id w with
         | Some key_id => mkKey Pairwise (Some (bssid (bss_info w))) tk key_id None None true
         | None => ptk_key (bssid (bss_info w)) tk
         end))) (fun _ => k)
  | None => k
  end.

(** [key_rsc] is an array of 8 octets. *)
Definition install_gtk (parsed : EapolKeyFrame) (kdes : Kdes) : wm unit :=
  match kde_gtk kdes with
  | Some (gtk_idx, gtk_data) =>
      request (NewKey (gtk_key gtk_data gtk_idx (take 6 (f_key_rsc parsed))))
  | None => mret tt
  end.

(** IGTK and BIGTK: a failure is only logged. *)
Definition install_mgmt_key (type : KeyType) (cipher : CipherSuite) (k : option MgmtKey) : wm unit :=
  match k with
  | Some k =>
      logged (request (NewKey (mkKey type None (mk_key k) (mk_index k) (Some (mk_ipn k)) (Some cipher) false)))
  | None => mret tt
  end.

Definition install_mgmt_keys (kdes : Kdes) : wm unit :=
  w ← get;
  install_mgmt_key Igtk (group_mgmt_cipher (bss_info w)) (kde_igtk kdes);;
  install_mgmt_key Bigtk (group_mgmt_cipher (bss_info w)) (kde_bigtk kdes).

(** After the keys: the PMKSA, the station, the rekey offload, the state. *)
Definition finish_handshake : wm unit :=
  w ← get;
  (if l_ptk_rekey (w_link w) then mret tt else cache_pmksa);;
  (if bool_decide (if_mlme (w_iface w) = FullMac)
   then logged (request (SetStationAuthorized (bssid (bss_info w)))) else mret tt);;
  offloaded ← try_offload_rekey;
  connected_as (if offloaded : bool then ConnectedWithOffloadRekey else ConnectedWithoutOffloadRekey);;
  arm_wowlan_if_enabled.

(** Message 3 accepted: Message 4 and the keys. *)
Definition complete_handshake (parsed : EapolKeyFrame) (msg4 : list Z) (kdes : Kdes) : wm unit :=
  w ← get;
  install_rx_ptk w (
    or_failed (send_to_ap msg4) (fun _ =>
      install_ptk w (
        or_failed (install_gtk parsed kdes) (fun _ =>
          install_mgmt_keys kdes;;
          finish_handshake)))).

Definition handle_message_3 (parsed : EapolKeyFrame) : wm unit :=
  w ← get;
  if negb (is_some (l_fourway (w_link w))) then set_state Failed else
  r ← result_of (with_fourway (FourWayState.process_message_3 parsed));
  match r with
  | inr (msg4, kdes) => complete_handshake parsed msg4 kdes
  | inl e =>
      w ← get;
      if is_some (l_pmksa_in_use (w_link w)) then pmksa_fallback
      else if is_psk (security (bss_info w)) && bool_decide (WifiError.msg e = "MIC mismatch")
      then fail_auth (WifiError.wrong_password (NetworkConfig.ssid (network w)))
      else set_state Failed
  end.

Definition handle_group_message_1 (parsed : EapolKeyFrame) : wm unit :=
  w ← get;
  if negb (is_some (l_fourway (w_link w))) then mret tt else
  r ← result_of (with_fourway (FourWayState.process_group_rekey parsed));
  match r with
  | inl _ => mret tt
  | inr (msg2, kdes) =>
      sent ← result_of (send_to_ap msg2);
      match sent with
      | inl _ => mret tt
      | inr _ =>
          logged (install_gtk parsed kdes);;
          install_mgmt_keys kdes;;
          logged try_offload_rekey
      end
  end.

(** ** EAP *)

(** The MSK is an array of 64 octets. *)
Definition handle_eap_frame (eap_pdu : list Z) : wm unit :=
  packet ← lift (EapPacket.parse eap_pdu);
  w ← get;
  match packet, a_eap_peer (w_auth w) with
  | Some packet, Some peer =>
      let '(peer, r) := EapPeer.handle_packet peer packet in
      modify (on_auth (put_a_eap_peer (Some peer)));;
      match r with
      | Ok (Respond response) =>
          or_failed (send_to_ap (EapolEapFrame.build response)) (fun _ => mret tt)
      | Ok Success =>
          match EapPeer.peer_msk peer with
          | None => fail_auth (WifiError.new WifiError.AuthFailed "EAP-Success without an MSK")
          | Some msk => modify (on_auth (put_a_eap_pmk (Some (take 32 msk))))
          end
      | Ok Failure =>
          fail_auth (WifiError.new WifiError.AuthFailed
                       "EAP authentication failed: check the configured EAP credentials")
      | Ok Wait => mret tt
      | Err e =>
          fail_auth (WifiError.new WifiError.AuthFailed
                       ("EAP authentication failed: " +:+ WifiError.to_string e))
      | Panic => lift Panic
      | Diverge => lift Diverge
      end
  | _, _ => mret tt
  end.

Definition handle_eapol_key (frame : list Z) (parsed : EapolKeyFrame) : wm unit :=
  if is_request parsed then mret tt else
  if negb (has_mic parsed) && has_ack parsed then handle_message_1 frame parsed else
  if has_mic parsed && is_secure parsed && is_pairwise parsed then handle_message_3 parsed else
  if has_mic parsed && is_secure parsed && has_ack parsed && negb (is_pairwise parsed)
  then handle_group_message_1 parsed else mret tt.

Definition handle_control_port_frame (frame : list Z) : wm unit :=
  eap ← lift (EapolEapFrame.parse frame);
  match eap with
  | Some payload => handle_eap_frame payload
  | None =>
      match eapol_key_parse frame with
      | None => mret tt
      | Some parsed => handle_eapol_key frame parsed
      end
  end.

Definition handle_raw_eapol (src payload : list Z) : wm unit :=
  w ← get;
  if negb (bool_decide (src = bssid (bss_info w))) then mret tt else
  if negb (port_authorized_applies (w_state w)) then mret tt else
  handle_control_port_frame payload.

Definition handle_rekey_offload_event (bssid_ replay_ctr : list Z) : wm unit :=
  w ← get;
  if negb (bool_decide (bssid_ = bssid (bss_info w))) then mret tt else
  match l_fourway (w_link w) with
  | None => mret tt
  | Some fw => modify (on_link (put_l_fourway (Some (FourWayState.update_replay_counter replay_ctr fw))))
  end.

(** ** Association *)

(** [associate], the state [Failed] when the request fails. *)
Definition associate_or_fail (ie : list Z) (mfp : bool) : wm unit :=
  or_failed (associate ie mfp) (fun _ => mret tt).

(** An open-system authentication succeeded. *)
Definition associate_open_system : wm unit :=
  w ← get;
  let cipher := group_mgmt_cipher (bss_info w) in
  let optional_mfp ie := mfp ← lift (ap_mfp_capable (bss_info w)); associate_or_fail ie mfp in
  match security (bss_info w) with
  | Owe =>
      secret ← reading random_secret;
      let owe_auth := owe_new secret in
      modify (on_auth (put_a_owe (Some owe_auth)));;
      associate_or_fail (owe_ie_cipher cipher ++ build_dh_element owe_auth) true
  | Wpa2Psk => optional_mfp (wpa2_psk_ie_cipher cipher)
  | Wpa2PskSha256 => optional_mfp (wpa2_psk_sha256_ie_cipher cipher)
  | Wpa2Ent => optional_mfp (wpa2_ent_ie_cipher cipher)
  | Wpa2EntSha256 => associate_or_fail (wpa2_ent_sha256_ie_cipher cipher) true
  | FtPsk => or_failed (lift (append_ft_mdie w (ft_psk_ie_cipher None cipher))) optional_mfp
  | _ => associate_or_fail [] false
  end.

Definition process_owe_assoc_response (ies : option (list Z)) : wm bool :=
  match ies with
  | None => mret false
  | Some ies =>
      dh ← lift (find_owe_dh_element ies);
      w ← get;
      match dh, a_owe (w_auth w) with
      | Some dh_data, Some o =>
          let '(o, r) := process_ap_dh_element dh_data o in
          modify (on_auth (put_a_owe (Some o)));;
          match r with
          | Ok _ => mret true
          | Err _ => mret false
          | Panic => lift Panic
          | Diverge => lift Diverge
          end
      | _, _ => mret false
      end
  end.

Definition handle_association_success (ies : option (list Z)) : wm unit :=
  w ← get;
  if bool_decide (security (bss_info w) = Open) then
    connected_as ConnectedWithoutOffloadRekey;; arm_wowlan_if_enabled
  else if bool_decide (security (bss_info w) = Owe) then
    ok ← process_owe_assoc_response ies;
    if ok : bool then mret tt else set_state Failed
  else if is_ft (security (bss_info w)) then
    or_failed (setup_ft_context (default [] ies)) (fun _ =>
      w ← get;
      match l_pending_ft_msg1 (w_link w) with
      | Some frame =>
          modify (on_link (put_l_pending_ft_msg1 None));;
          handle_control_port_frame frame
      | None => mret tt
      end)
  else mret tt.

(** ** [handle_event] *)

Definition is_plain_sae (s : SecurityType) : bool := match s with Sae | FtSae => true | _ => false end.

Definition handle_authenticated (status : Z) (frame : option AuthFrame) : wm unit :=
  w ← get;
  if bool_decide (if_mlme (w_iface w) = FullMac) then mret tt else
  if is_some (r_ft_roam (w_roam w)) then handle_ft_auth_response (default [] (af_bytes <$> frame)) else
  if is_some (l_pmksa_in_use (w_link w)) then
    if status =? StatusSuccess then associate_with_pmksa else pmksa_fallback
  else if negb (is_plain_sae (security (bss_info w))) then
    if status =? StatusSuccess then associate_open_system else set_state Failed
  else
    match frame with
    | Some auth => handle_auth_frame auth
    | None =>
        if negb (status =? StatusSuccess) then
          fail_auth (if status =? ChallengeFail
                     then WifiError.new WifiError.WrongPassword
                            "wrong password (SAE confirm rejected by AP)"
                     else WifiError.new WifiError.AuthFailed
                            ("SAE authentication failed: status=" +:+ status_display status))
        else mret tt
    end.

Definition handle_associated (status : Z) (ies : option (list Z)) : wm unit :=
  w ← get;
  if bool_decide (if_mlme (w_iface w) = FullMac) then mret tt else
  if negb (association_result_applies (w_state w)) then mret tt else
  if is_some (r_ft_roam (w_roam w)) then
    if status =? StatusSuccess then or_failed (handle_ft_assoc_response (default [] ies)) (fun _ => mret tt)
    else modify (on_roam (put_r_ft_roam None));; set_state Failed
  else if status =? StatusSuccess then handle_association_success ies
  else if is_some (l_pmksa_in_use (w_link w)) then
    pmksa_fallback;;
    modify (on_link (put_l_stale_connect_failure true))
  else set_state Failed.

Definition handle_connect_result (status : Z) (req_ie resp_ie : option (list Z)) : wm unit :=
  w ← get;
  let stale := l_stale_connect_failure (w_link w) in
  modify (on_link (put_l_stale_connect_failure false));;
  if bool_decide (if_mlme (w_iface w) = FullMac) then
    if status =? StatusSuccess then
      if negb (association_result_applies (w_state w)) then mret tt else
      rsne ← lift (match req_ie with Some ie => extract_rsn_from_ies ie | None => Ok None end);
      (match rsne with Some rsne => modify (on_link (put_l_assoc_wpa_ie rsne)) | None => mret tt end);;
      handle_association_success resp_ie
    else if stale then mret tt
    else if is_some (l_pmksa_in_use (w_link w)) then pmksa_fallback
    else set_state Failed
  else if (status =? StatusSuccess) || stale then mret tt
  else set_state Failed.

Definition handle_port_authorized : wm unit :=
  w ← get;
  if bool_decide (if_mlme (w_iface w) = FullMac) then mret tt else
  if port_authorized_applies (w_state w)
  then connected_as ConnectedWithoutOffloadRekey;; arm_wowlan_if_enabled else mret tt.

Definition handle_disconnected (reason : Z) (info : DisconnectInfo) : wm unit :=
  w ← get;
  if is_some (r_ft_roam (w_roam w)) then mret tt else
  if is_connected (w_state w)
     || (bool_decide (w_state w = Authenticating) && is_psk_4way_in_progress w)
     || (bool_decide (w_state w = Scanning) && is_some (r_pre_roam_state (w_roam w)))
  then handle_ap_disconnect (Some reason) (di_from_ap info) else mret tt.

Definition handle_unknown (cmd : EventCommand) (info : DisconnectInfo) : wm unit :=
  w ← get;
  if bool_decide (cmd = SchedScanStopped) && p_sched_scan_stop_pending (w_pno w)
  then modify (on_pno (put_p_sched_scan_stop_pending false)) else
  match cmd with
  | RoamCommand =>
      if bool_decide (if_mlme (w_iface w) = FullMac) then mark_link_lost ScanNow else mret tt
  | DeauthenticateCommand | DisassociateCommand => handle_ap_disconnect None (di_from_ap info)
  | UnprotDeauthenticate | UnprotDisassociate => handle_ap_disconnect (di_reason info) (di_from_ap info)
  | _ => mret tt
  end.

Definition handle_event (wait_report : wm unit) (event : Event) (info : DisconnectInfo) : wm unit :=
  match event with
  | FrameAuth auth => handle_auth_frame auth
  | FrameBtmRequest frame => handle_wnm_frame frame
  | FrameNeighborReport frame => handle_rrm_frame frame
  | FrameOther => mret tt
  | Authenticated status frame => handle_authenticated status frame
  | Associated status ies => handle_associated status ies
  | ConnectResult status req_ie resp_ie => handle_connect_result status req_ie resp_ie
  | ControlPort (EapPayload payload) => handle_eap_frame payload
  | ControlPort (KeyFrame raw) => handle_control_port_frame raw
  | ControlPort OtherControlFrame => mret tt
  | PortAuthorized => handle_port_authorized
  | Wakeup reasons => handle_wowlan_wakeup reasons
  | CqmRssi events => handle_cqm_rssi wait_report events
  | Disconnected reason => handle_disconnected reason info
  | Deauthenticated reason | Disassociated reason => handle_ap_disconnect (Some reason) (di_from_ap info)
  | Unknown cmd => handle_unknown cmd info
  | ScanEvent | ScanFinished | ExternalAuth | RekeyOffload _ _ | OtherEvent => mret tt
  end.

Definition handle_client_event (wait_report : wm unit) (event : Event) (info : DisconnectInfo)
  : wm unit :=
  match event with
  | RekeyOffload bssid replay_ctr => handle_rekey_offload_event bssid replay_ctr
  | event => handle_event wait_report event info
  end.

Definition dispatch_event (wait_report : wm unit) (e : WifiEvent) : wm unit :=
  match e with
  | Kernel raw_msg =>
      w ← get;
      info ← lift (disconnect_info (w_mac w) raw_msg);
      match raw_event raw_msg with
      | Some event => handle_client_event wait_report event info
      | None => mret tt
      end
  | Eapol src payload => handle_raw_eapol src payload
  end.

(** The wait for a neighbor report.  An event handled meanwhile finds the dialog
    pending, so that it does not wait in its turn. *)
Definition wait_report : wm unit :=
  with_fuel (fun fuel => await_report fuel (dispatch_event (lift Diverge))).

Definition handle_wifi_event (e : WifiEvent) : wm unit := dispatch_event wait_report e.

End events.

Module WifiEventFacts.
Section events_facts.
Context `{!Supplicant} `{!FrameLib} `{!Host}.

(** What a request does whatever the answer. *)
Lemma request_log c w : (request c w).1 = put_w_log (w_log w ++ [c]) w.
Proof. unfold request, raw_request, mbind, st_bind. by destruct (kernel_reply _ _). Qed.

(** C39: an [AUTHENTICATE] event, as which a driver reports the answer of an access point to
    an SAE commit, is not given to SAE when the security of the network is SAE-EXT-KEY: on a
    SoftMac interface, with no Fast BSS Transition and no cached PMKSA in use and with OCV
    and extended key identifiers off, it is handled as the end of an open-system
    authentication.  The SAE method is left as it is; when the status is not success, as in
    every commit with hash-to-element, which this security always uses, the attempt fails;
    otherwise an association is requested without an RSN element and without management
    frame protection.  (An authentication frame that comes as a frame event is another path
    and does reach SAE.) *)
Theorem sae_ext_key_answer_dropped status frame w :
  if_mlme (w_iface w) = SoftMac -> r_ft_roam (w_roam w) = None -> l_pmksa_in_use (w_link w) = None ->
  is_ext_key (security (bss_info w)) = true -> NetworkConfig.ocv (network w) = false ->
  NetworkConfig.ext_key_id (network w) = false ->
  let w' := (handle_authenticated status frame w).1 in
  a_method (w_auth w') = a_method (w_auth w)
  /\ if status =? StatusSuccess
     then exists a, w_log w' = w_log w ++ [Associate a] /\ as_ie a = None /\ as_mfp_required a = false
     else w_log w' = w_log w /\ w_state w' = Failed.
Proof.
  intros Hm Hr Hp Hs Ho He. unfold handle_authenticated. rewrite st_bind_get, Hm, Hr, Hp.
  rewrite bool_decide_eq_false_2 by done. cbn [is_some].
  assert (is_plain_sae (security (bss_info w)) = false) as -> by (by destruct (security (bss_info w))).
  cbn [negb]. destruct (status =? StatusSuccess); [|done].
  unfold associate_open_system. rewrite st_bind_get.
  destruct (security (bss_info w)) eqn:Hsec; try done.
  all: unfold associate_or_fail, or_failed, associate, mbind, st_bind, result_of, get, lift, modify, assoc_rsne,
    advertise; rewrite Hsec, Ho, He; cbn.
  all: rewrite (bool_decide_eq_false_2 (_ = Owe)) by done.
  all: match goal with |- context [request ?c ?v] =>
         pose proof (request_log c v) as Hl; destruct (request c v) as [w1 [u|e| |]]; cbn in Hl |- * end.
  all: subst w1; cbn; split; [done|]; eexists; split; [reflexivity|]; done.
Qed.

End events_facts.
End WifiEventFacts.
