(* ===== verification/ClientLoop.v ===== *)
(** * The connection loop

    [src/src/wifi/client/wifi_iface.rs] and [wiphy.rs], and [wait_scan_finish] of
    [src/src/wifi/scan.rs]: one step of the loop for each state, [run], the retry with
    another BSS, scheduled scans, resumes and updates of the network list.  A loop over
    the event queue has as much fuel as the queue has entries; [run] has the number of
    steps as its argument, because an interface without networks never ends.
    [WifiSafety.v] shows the bounds of the retry timers and counters in every reachable
    state, [AttemptEnds.v] how an attempt ends. *)

From stdpp Require Import gmap.
From S2P Require Import Prelude Errors Eap EapTls Security Pmksa WifiKdf FourWay Sae Owe.
From S2P Require Import WifiConfig ClientState Scan WifiIface WifiAuth Roam WifiEvents.

Definition STARTUP_RETRY_SEC : Z := 2.
Definition RETRY_BACKOFF_MAX_SEC : Z := 300.
Definition FAST_RECONNECT_DELAY_MS : Z := 100.
Definition SCHED_SCAN_INTERVAL_SEC : Z := 10.
Definition MAX_SCHED_SCAN_SSIDS : nat := 16.
Definition SCHED_SCAN_WATCHDOG_SECS : Z := 60.
Definition SCHED_SCAN_STOP_ECHO_TIMEOUT_SECS : Z := 5.
Definition RETRY_AUTH_SEC : Z := 120.
Definition AUTH_EVENT_TIMEOUT_SECS : Z := 15.
Definition SAE_COMMIT_RETRANSMIT_TIMEOUT_SECS : Z := 2.
Definition SCAN_COMPLETE_TIMEOUT_SECS : Z := 15.
Definition millis (n : Z) : Z := n * 10 ^ 6.

(** ** [wiphy.rs] *)

Inductive WiphyCommand := CmdAuthenticate | CmdAssociate | CmdConnect | CmdOther (n : Z).

#[global] Instance WiphyCommand_eq_dec : EqDecision WiphyCommand.
Proof. solve_decision. Defined.

Definition has_command (commands : list WiphyCommand) (c : WiphyCommand) : bool :=
  existsb (fun d => bool_decide (d = c)) commands.

(** None is [Err(())]. *)
Definition mlme_mode_from_commands (commands : option (list WiphyCommand)) : option MlmeMode :=
  match commands with
  | None => Some SoftMac
  | Some commands =>
      if has_command commands CmdAuthenticate && has_command commands CmdAssociate then Some SoftMac
      else if has_command commands CmdConnect then Some FullMac else None
  end.

(** [features]: whether the list, if any, has [ControlPortOverNl80211]. *)
Definition control_port_mode_for (mlme : MlmeMode) (features : option bool) : ControlPortMode :=
  match features with
  | Some true => PortNl80211
  | Some false => PortRawEapol
  | None => match mlme with SoftMac => PortNl80211 | FullMac => PortRawEapol end
  end.

Definition clamp_sched (cap : nat) : nat := Nat.min MAX_SCHED_SCAN_SSIDS (Nat.max 1 cap).

(** SSIDs, whether there are more, and the cursor after. *)
Definition next_sched_scan_ssids (hidden_ssids : list string) (wildcard : bool) (cursor cap : nat)
  : list string * bool * nat :=
  let cap := clamp_sched cap in
  let specific_cap := (cap - if wildcard then 1 else 0)%nat in
  let start := Nat.min cursor (length hidden_ssids) in
  let taken := take specific_cap (drop start hidden_ssids) in
  let idx := (start + length taken)%nat in
  let more := (idx <? length hidden_ssids)%nat in
  ((if wildcard then [""] else []) ++ taken, more, if more then idx else 0%nat).

Section client.
Context `{!Supplicant} `{!FrameLib} `{!Host}.

Definition channel_closed {A} : wm A :=
  throw (WifiError.new WifiError.Nl80211 "event channel closed").

(** ** Scheduled scans *)

Definition stop_sched_scan : wm unit :=
  w ← get;
  if negb (p_sched_scan_active (w_pno w)) then mret tt else
  modify (on_pno (put_p_sched_scan_active false));;
  modify (on_pno (put_p_sched_scan_stop_pending true));;
  logged (request StopSchedScan).

(** A fresh rotation: interval and chunk timeout. *)
Definition fresh_rotation (cap : nat) (p : PnoState) : PnoState :=
  if p_sched_scan_first p
  then put_p_sched_scan_first false
         (put_p_sched_scan_timeout_secs (Z.of_nat cap * 2)
            (put_p_sched_scan_interval_sec SCHED_SCAN_INTERVAL_SEC p))
  else p.

(** After a start: the rotation slows down, or begins anew.  The interval is a u32,
    [* 2] is checked. *)
Definition throttle (cap : nat) (more : bool) (p : PnoState) : outcome WifiError.t PnoState :=
  if more then
    let timeout := Z.max 2 (p_sched_scan_timeout_secs p / 2) in
    if 2 ^ 32 <=? p_sched_scan_interval_sec p * 2 then Panic else
    let interval := Z.min (p_sched_scan_interval_sec p * 2) RETRY_BACKOFF_MAX_SEC in
    Ok (if timeout <? interval
        then put_p_sched_scan_timeout_secs (Z.of_nat cap * 2)
               (put_p_sched_scan_interval_sec SCHED_SCAN_INTERVAL_SEC p)
        else put_p_sched_scan_timeout_secs timeout (put_p_sched_scan_interval_sec interval p))
  else Ok (put_p_sched_scan_first true p).

(** The match sets: none when the driver cannot filter that many. *)
Definition match_sets (w : W) : option (list string) :=
  let networks := if_networks (w_iface w) in
  if (0 <? c_max_match_sets (w_caps w))%nat && (length networks <=? c_max_match_sets (w_caps w))%nat
  then Some (NetworkConfig.ssid <$> networks) else None.

Definition start_sched_scan : wm bool :=
  clear_wait_deadline;;
  w ← get;
  if negb (c_sched_scan_supported (w_caps w)) then mret false else
  let cap := Nat.min (c_max_sched_scan_ssids (w_caps w)) MAX_SCHED_SCAN_SSIDS in
  if (cap =? 0)%nat then mret false else
  let networks := if_networks (w_iface w) in
  let hidden_ssids := NetworkConfig.ssid <$> List.filter NetworkConfig.hidden networks in
  let wildcard := existsb (fun n => negb (NetworkConfig.hidden n)) networks in
  let specific_cap := (cap - if wildcard then 1 else 0)%nat in
  if negb (bool_decide (hidden_ssids = [])) && (specific_cap =? 0)%nat then mret false else
  modify (on_pno (fresh_rotation cap));;
  let '(ssids, more, cursor) :=
    next_sched_scan_ssids hidden_ssids wildcard (p_sched_scan_cursor (w_pno w)) cap in
  modify (on_pno (put_p_sched_scan_cursor cursor));;
  modify (on_pno (put_p_sched_scan_more more));;
  w ← get;
  r ← raw_request (StartSchedScan ssids (match_sets w) (p_sched_scan_interval_sec (w_pno w)));
  match r with
  | None =>
      modify (on_pno (put_p_sched_scan_active true));;
      w ← get;
      p ← lift (throttle cap more (w_pno w));
      modify (put_w_pno p);;
      mret true
  | Some e =>
      (if is_eopnotsupp e
       then modify (fun w => put_w_caps (put_c_sched_scan_supported false (w_caps w)) w) else mret tt);;
      mret false
  end.

(** ** Scan results *)

(** [process_scan_results] with the dump and the clock of the host. *)
Definition scan_results : wm unit :=
  dump ← reading scan_dump;
  n ← now;
  in_iface (process_scan_results n (of_sum dump)).

Definition handle_sched_scan_results : wm unit :=
  r ← result_of scan_results;
  match r with
  | inr _ =>
      modify (on_pno (put_p_sched_scan_rotate false));;
      stop_sched_scan;;
      modify (on_pno (put_p_scan_retry_interval RETRY_BACKOFF_INIT_SEC));;
      send_out_auth_request;;
      set_state Authenticating
  | inl e => if bool_decide (WifiError.kind e = WifiError.SsidNotFound) then mret tt else throw e
  end.

(** [process_roam_scan_results] and what it calls. *)
Definition roam_scan_results : wm unit :=
  dump ← reading scan_dump;
  live ← result_of current_signal_dbm;
  decision ← in_iface (process_roam_scan_results (of_sum dump) (of_sum live));
  match decision with
  | Stay => mret tt
  | FullScan => trigger_full_scan
  | StartRoam target target_network => start_roam target target_network
  end.

(** [loop] of [wait_scan_finish]. *)
Fixpoint await_scan (fuel : nat) : wm unit :=
  match fuel with
  | O => lift Diverge
  | S fuel =>
      e ← await_event;
      match e with
      | Woke (Kernel (mkRawMessage _ _ (Some ScanFinished))) => clear_wait_deadline
      | Woke (Kernel (mkRawMessage cmd attrs (Some event))) =>
          handle_wifi_event (Kernel (mkRawMessage cmd attrs (Some event)));;
          w ← get;
          if bool_decide (w_state w = Scanning) then await_scan fuel else clear_wait_deadline
      | Woke e => handle_wifi_event e;; await_scan fuel
      | _ => clear_wait_deadline
      end
  end.

Definition wait_scan_finish : wm unit :=
  wait_remaining (secs SCAN_COMPLETE_TIMEOUT_SECS);;
  with_fuel await_scan.

(** ** Resume *)

Definition resume_pending (w : W) : bool := negb (w_resume_gen w =? w_last_resume w).

Definition consume_resume : wm unit := modify (fun w => put_w_last_resume (w_resume_gen w) w).

Definition handle_resume : wm unit :=
  w ← get;
  kernel_associated ← (if is_connected (w_state w)
                       then r ← result_of is_associated;
                            mret (match r with inr b => Some b | inl _ => None end)
                       else mret None);
  match resume_action (w_state w) kernel_associated with
  | NoAction => mret tt
  | KeepConnected => arm_wowlan_if_enabled
  | RetryNow =>
      match w_state w with
      | SchedScanWait =>
          logged stop_sched_scan;;
          modify (on_iface (put_hint_scan false));;
          modify (put_w_fast_reconnect (Some ScanNow));;
          set_state Init
      | Failed => modify (put_w_fast_reconnect (Some ScanNow))
      | _ => mark_link_lost ScanNow
      end
  | IgnoreAuthBackoff => mret tt
  end.

(** ** The steps *)

Fixpoint first_target (mlme : MlmeMode) (networks : list NetworkConfig.t)
  : option (NetworkConfig.t * BssInfo) :=
  match networks with
  | [] => None
  | n :: networks =>
      match NetworkConfig.scan_free_bss_info n with
      | Some b =>
          match mlme_security_unsupported mlme (security b) with
          | None => Some (n, b)
          | Some _ => first_target mlme networks
          end
      | None => first_target mlme networks
      end
  end.

Definition scan_free_target (w : W) : option (NetworkConfig.t * BssInfo) :=
  first_target (if_mlme (w_iface w)) (if_networks (w_iface w)).

Definition start_attempt : wm unit := send_out_auth_request;; set_state Authenticating.
Definition start_scan : wm unit := scan_request;; set_state Scanning.

Definition step_init : wm unit :=
  w ← get;
  let fast := w_fast_reconnect w in
  modify (put_w_fast_reconnect None);;
  same_bss ← (match fast with Some SameBss => has_last_bss | _ => mret false end);
  if same_bss : bool then modify (put_w_fast_reconnect (Some ScanNow));; start_attempt else
  match fast with
  | Some ScanNow => modify (on_iface (put_hint_scan false));; start_scan
  | _ =>
      match (if hint_scan (w_iface w) then scan_free_target w else None) with
      | Some (n, b) =>
          modify (on_iface (put_hint_scan false));;
          modify (on_iface (put_link b n));;
          start_attempt
      | None => start_scan
      end
  end.

(** The error of a scan that found nothing to join. *)
Definition scan_failed (e : WifiError.t) : wm unit :=
  w ← get;
  let missing := bool_decide (WifiError.kind e = WifiError.SsidNotFound) in
  modify (on_iface (put_retry_scan false));;
  if retry_scan (w_iface w) && missing then set_state Failed else
  if (missing || bool_decide (WifiError.kind e = WifiError.NoSupport)) && hint_scan (w_iface w) then
    modify (on_iface (put_hint_scan false));; scan_request
  else if missing then
    modify (on_pno (fun p => put_p_sched_scan_first true (put_p_sched_scan_rotate false
      (put_p_sched_scan_more false (put_p_sched_scan_cursor 0 p)))));;
    started ← start_sched_scan;
    if started : bool then set_state SchedScanWait else throw e
  else throw e.

(** A roam scan is over. *)
Definition finish_roam_scan : wm unit :=
  modify (on_iface (put_roam_scan false));;
  roam_scan_results;;
  w ← get;
  if roam_scan (w_iface w) then mret tt else
  (match r_pre_roam_state (w_roam w) with
   | Some prev => if bool_decide (w_state w = Scanning) then set_state prev else mret tt
   | None => mret tt
   end);;
  modify (on_roam (put_r_pre_roam_state None)).

Definition step_scanning : wm unit :=
  wait_scan_finish;;
  w ← get;
  if negb (bool_decide (w_state w = Scanning)) then modify (on_iface (put_retry_scan false)) else
  if roam_scan (w_iface w) then finish_roam_scan else
  r ← result_of scan_results;
  match r with
  | inl e => scan_failed e
  | inr _ =>
      modify (on_iface (put_retry_scan false));;
      modify (on_pno (put_p_scan_retry_interval RETRY_BACKOFF_INIT_SEC));;
      start_attempt
  end.

(** [if !self.start_sched_scan().await? { self.state = Failed }]. *)
Definition restart_sched_scan : wm unit :=
  started ← start_sched_scan;
  if started : bool then mret tt else set_state Failed.

Definition sched_scan_stopped : wm unit :=
  w ← get;
  if p_sched_scan_stop_pending (w_pno w) then
    modify (on_pno (put_p_sched_scan_stop_pending false));;
    if p_sched_scan_rotate (w_pno w) then
      modify (on_pno (put_p_sched_scan_rotate false));; restart_sched_scan
    else mret tt
  else modify (on_pno (put_p_sched_scan_active false));; restart_sched_scan.

Definition sched_scan_timeout : wm unit :=
  w ← get;
  if p_sched_scan_stop_pending (w_pno w) then sched_scan_stopped
  else if p_sched_scan_more (w_pno w) then
    modify (on_pno (put_p_sched_scan_rotate true));; stop_sched_scan
  else set_state Failed.

Definition step_sched_scan_wait : wm unit :=
  w ← get;
  wait_remaining (secs (if p_sched_scan_stop_pending (w_pno w) then SCHED_SCAN_STOP_ECHO_TIMEOUT_SECS
                        else if p_sched_scan_more (w_pno w) then p_sched_scan_timeout_secs (w_pno w)
                        else SCHED_SCAN_WATCHDOG_SECS));;
  e ← await_event_or_resume;
  clear_wait_deadline;;
  match e with
  | Resume _ => consume_resume;; handle_resume
  | Woke (Kernel (mkRawMessage _ _ (Some (Unknown SchedScanResults)))) => handle_sched_scan_results
  | Woke (Kernel (mkRawMessage _ _ (Some (Unknown SchedScanStopped)))) => sched_scan_stopped
  | Woke e => handle_wifi_event e
  | Closed => channel_closed
  | TimedOut => sched_scan_timeout
  end.

(** A timeout while an SAE frame is in flight: it is sent again.  True when the loop
    goes on. *)
Definition retransmit_sae : wm bool :=
  w ← get;
  modify (on_auth (put_a_sae_sync (a_sae_sync (w_auth w) + 1)));;
  if a_sae_commit_sent (w_auth w) then
    send_sae_commit (a_sae_commit_auth_data (w_auth w));;
    w ← get; mret (bool_decide (w_state w = Authenticating))
  else
    r ← (if is_some (a_method (w_auth w))
         then result_of (with_method (AuthMethod.on_sae retransmit_confirm))
         else mret (inl (WifiError.new WifiError.SaeFailed "no SAE state for confirm retransmit")));
    match r with
    | inl e => fail_auth e;; mret false
    | inr (send_confirm, hash) =>
        send_sae_confirm (to_le16 2 ++ to_le16 0 ++ to_le16 send_confirm ++ hash);;
        w ← get; mret (bool_decide (w_state w = Authenticating))
    end.

(** The method can be restarted with hunting-and-pecking. *)
Definition hnp_allowed (w : W) : bool :=
  a_sae_commit_sent (w_auth w)
  && from_option (fun m => is_h2e (AuthMethod.sae m) && hnp_fallback (AuthMethod.sae m)) false
       (a_method (w_auth w))
  && negb (a_sae_hnp_attempted (w_auth w)).

(** The timeout of [Authenticating]; true when the loop goes on. *)
Definition auth_timeout : wm bool :=
  clear_wait_deadline;;
  w ← get;
  if (a_sae_commit_sent (w_auth w) || a_sae_confirm_sent (w_auth w))
     && (a_sae_sync (w_auth w) <? SAE_SYNC_MAX)
  then retransmit_sae
  else if hnp_allowed w then
    restart_sae_with_hnp;;
    w ← get; mret (bool_decide (w_state w = Authenticating))
  else if is_psk_4way_in_progress w then
    fail_auth (WifiError.wrong_password (NetworkConfig.ssid (network w)));; mret false
  else if is_some (l_pmksa_in_use (w_link w)) then
    pmksa_fallback;;
    w ← get; mret (bool_decide (w_state w = Authenticating))
  else set_state Failed;; mret false.

Fixpoint await_auth (fuel : nat) : wm unit :=
  match fuel with
  | O => lift Diverge
  | S fuel =>
      w ← get;
      wait_remaining (secs (if a_sae_commit_sent (w_auth w) || a_sae_confirm_sent (w_auth w)
                            then SAE_COMMIT_RETRANSMIT_TIMEOUT_SECS else AUTH_EVENT_TIMEOUT_SECS));;
      e ← await_event;
      match e with
      | Woke e => handle_wifi_event e;; clear_wait_deadline
      | TimedOut =>
          again ← auth_timeout;
          if again : bool then await_auth fuel else mret tt
      | _ => channel_closed
      end
  end.

Definition step_authenticating : wm unit := with_fuel await_auth.

(** A wait without a timeout. *)
Definition drop_timeouts (w : W) : W :=
  put_w_inbox (List.filter (fun e => match e with TimedOut => false | _ => true end) (w_inbox w)) w.

(** The tick of the roam engine. *)
Definition roam_tick : wm unit :=
  w ← get;
  due ← (match r_post_connect_scan_at (w_roam w) with
         | Some deadline => n ← now; mret (deadline <=? n)
         | None => mret false
         end);
  if due : bool then post_connect_best_bss_scan
  else if cqm_armed (w_iface w) then check_background_roam
  else check_roam_conditions wait_report.

Definition step_connected : wm unit :=
  w ← get;
  let ap_roams := bool_decide (if_mlme (w_iface w) = SoftMac) && NetworkConfig.roaming (network w)
                  && ap_supports_signal_roam (bss_info w) in
  (if negb (cqm_armed (w_iface w)) && ap_roams
   then armed ← arm_cqm; modify (on_iface (put_cqm_armed armed)) else mret tt);;
  n ← now;
  w ← get;
  (match connected_wait_duration n ap_roams (cqm_armed (w_iface w)) (r_post_connect_scan_at (w_roam w)) with
   | Some wait => wait_remaining wait;; mret tt
   | None => clear_wait_deadline;; modify drop_timeouts
   end);;
  e ← await_event_or_resume;
  clear_wait_deadline;;
  match e with
  | Resume _ => consume_resume;; handle_resume
  | Woke e => handle_wifi_event e
  | Closed => channel_closed
  | TimedOut => roam_tick
  end.

(** How the wait of a failed attempt ends. *)
Inductive Pause := Elapsed | Resumed | Advanced.

Definition is_failed (s : WifiState) : bool :=
  match s with Failed | FailedAuthentication => true | _ => false end.

Fixpoint pump_events (fuel : nat) : wm Pause :=
  match fuel with
  | O => lift Diverge
  | S fuel =>
      w ← get;
      e ← (if bool_decide (w_state w = Failed) then await_event_or_resume else await_event);
      match e with
      | Resume _ => mret Resumed
      | Woke e =>
          handle_wifi_event e;;
          w ← get;
          if is_failed (w_state w) then pump_events fuel else mret Advanced
      | Closed => channel_closed
      | TimedOut => mret Elapsed
      end
  end.

Definition retry_wait (state : WifiState) (fast : option FastReconnect) (startup_retry : bool)
  (interval : Z) : Z :=
  match fast with
  | Some _ => millis FAST_RECONNECT_DELAY_MS
  | None =>
      if bool_decide (state = FailedAuthentication) then secs RETRY_AUTH_SEC
      else if startup_retry then secs STARTUP_RETRY_SEC else secs interval
  end.

Definition back_off (interval : Z) : Z := Z.min (interval * 2) RETRY_BACKOFF_MAX_SEC.

Definition step_failed : wm unit :=
  w ← get;
  (if p_sched_scan_active (w_pno w) then logged stop_sched_scan else mret tt);;
  w ← get;
  let failed := bool_decide (w_state w = Failed) in
  let fast := if failed then w_fast_reconnect w else None in
  let startup_retry := failed && negb (is_some fast) && p_startup_fast_retry (w_pno w) in
  (if startup_retry then modify (on_pno (put_p_startup_fast_retry false)) else mret tt);;
  wait_remaining (retry_wait (w_state w) fast startup_retry (p_scan_retry_interval (w_pno w)));;
  pause ← with_fuel pump_events;
  match pause with
  | Advanced => clear_wait_deadline
  | _ =>
      let resumed := match pause with Resumed => true | _ => false end in
      (if resumed then consume_resume;; handle_resume else mret tt);;
      w ← get;
      (if bool_decide (w_state w = Failed) && negb (is_some fast) && negb resumed && negb startup_retry
       then modify (on_pno (put_p_scan_retry_interval (back_off (p_scan_retry_interval (w_pno w)))))
       else mret tt);;
      clear_wait_deadline;;
      set_state Init
  end.

(** [_run]. *)
Definition step : wm unit :=
  w ← get;
  if bool_decide (if_networks (w_iface w) = []) then set_state Init else
  (if resume_pending w then consume_resume;; handle_resume else mret tt);;
  w ← get;
  match w_state w with
  | Init => step_init
  | Scanning => step_scanning
  | SchedScanWait => step_sched_scan_wait
  | Authenticating => step_authenticating
  | ConnectedWithoutOffloadRekey | ConnectedWithOffloadRekey => step_connected
  | Failed | FailedAuthentication => step_failed
  end.

(** ** Another BSS *)

(** The events that trail the disconnection. *)
Fixpoint drain_events (fuel : nat) : wm unit :=
  match fuel with
  | O => lift Diverge
  | S fuel =>
      e ← await_event;
      match e with
      | Woke e => handle_wifi_event e;; drain_events fuel
      | _ => mret tt
      end
  end.

(** No BSS of the network is left: a scan for another one. *)
Definition scan_for_another : wm bool :=
  modify (on_iface (put_retry_scan true));;
  modify (on_iface (put_hint_scan false));;
  modify (fun w => on_iface (put_rotation (mkRotation (cursor (scan_rotation (w_iface w))) true)) w);;
  r ← result_of scan_request;
  match r with
  | inl _ => modify (on_iface (put_retry_scan false));; mret false
  | inr _ => set_state Scanning;; mret false
  end.

Definition try_bss (b : BssInfo) (n : NetworkConfig.t) : wm bool :=
  modify (on_iface (put_link b n));;
  logged (request Disconnect);;
  with_fuel drain_events;;
  send_out_auth_request;;
  set_state Authenticating;;
  mret true.

Definition retry_with_next_bss : wm bool :=
  w ← get;
  let failed_bssid := bssid (bss_info w) in
  if bool_decide (failed_bssid = NO_BSSID) then mret false else
  if is_some (l_pmksa_in_use (w_link w)) then
    pmksa_fallback;;
    w ← get; mret (bool_decide (w_state w = Authenticating))
  else
  n ← now;
  modify (fun w => on_iface (put_bssid_ignore
    (BssidIgnoreList.add n failed_bssid (bssid_ignore (w_iface w))).1) w);;
  n ← now;
  w ← get;
  match best_retry_candidate (last_scan_candidates (w_iface w)) failed_bssid
          (NetworkConfig.ssid (network w)) (security (bss_info w))
          (BssidIgnoreList.is_ignored n (bssid_ignore (w_iface w))) with
  | None => scan_for_another
  | Some (b, nw) => try_bss b nw
  end.

(** ** [run] *)

(** After a step that worked: the state to report, or none to go on. *)
Definition after_step (prev baseline : WifiState) : wm (option WifiState) :=
  w ← get;
  let state := w_state w in
  let roaming_scan := bool_decide (state = Scanning) && is_some (r_pre_roam_state (w_roam w)) in
  if bool_decide (state = prev) || bool_decide (state = baseline) || roaming_scan then mret None else
  (if is_connected state then
     modify (fun w => on_iface (put_bssid_ignore (BssidIgnoreList.clear (bssid_ignore (w_iface w)))) w);;
     modify (on_pno (put_p_startup_fast_retry false));;
     arm_post_connect_scan
   else mret tt);;
  retried ← (if bool_decide (prev = Authenticating) && bool_decide (state = Failed)
             then retry_with_next_bss else mret false);
  if retried : bool then mret None else w ← get; mret (Some (w_state w)).

(** An error of a step ends the call. *)
Definition failed_step (e : WifiError.t) : wm WifiState :=
  modify (put_w_last_error None);;
  w ← get;
  set_state (if bool_decide (w_state w = Authenticating) then FailedAuthentication else Failed);;
  throw e.

Fixpoint run_loop (steps : nat) (baseline : WifiState) : wm WifiState :=
  match steps with
  | O => lift Diverge
  | S steps =>
      w ← get;
      r ← result_of step;
      match r with
      | inl e => failed_step e
      | inr _ =>
          report ← after_step (w_state w) baseline;
          match report with
          | Some state => mret state
          | None => run_loop steps baseline
          end
      end
  end.

Definition run (steps : nat) : wm WifiState :=
  w ← get;
  run_loop steps (if bool_decide (w_state w = Scanning)
                  then default (w_state w) (r_pre_roam_state (w_roam w)) else w_state w).

(** ** Updates of the network list *)

Definition reset_rotation (w : W) : W :=
  on_iface (fun i => put_unsupported None (put_retry_scan false (put_hint_scan true
              (put_rotation (mkRotation 0 true) i))))
    (on_pno (fun p => put_p_sched_scan_timeout_secs SCHED_SCAN_WATCHDOG_SECS
       (put_p_sched_scan_interval_sec SCHED_SCAN_INTERVAL_SEC (put_p_sched_scan_first true
          (put_p_sched_scan_rotate false (put_p_sched_scan_more false (put_p_sched_scan_cursor 0 p)))))) w).

(** [Link::reset_for_update], [AuthSession::reset] and [RoamEngine::reset]. *)
Definition reset_for_update (n : NetworkConfig.t) (w : W) : W :=
  on_iface (put_link BssInfo_default n) (put_w_link (mkLink [] None None None None false false) w).

Definition reset_auth (w : W) : W :=
  put_w_auth (mkAuth None None None None None false 0 [] false [] false) w.

Definition reset_roam (w : W) : W :=
  on_roam (fun r => mkRoam None None None 0 None (r_post_connect_scan_at r) (r_post_connect_scan_done r))
    (on_iface (fun i => put_post_connect_scan false (put_cqm_armed false (put_roam_scan_full false
       (put_candidates [] [] (put_roam_target None (put_roam_scan false i)))))) w).

Fixpoint invalidate_all (ssids : list string) : wm unit :=
  match ssids with
  | [] => mret tt
  | ssid :: ssids => invalidate_ssid ssid;; invalidate_all ssids
  end.

(** The connected network, and its BSS, are still allowed. *)
Definition connection_kept (networks : list NetworkConfig.t) (w : W) : bool :=
  existsb (fun n => bool_decide (NetworkConfig.ssid n = NetworkConfig.ssid (network w))
                    && NetworkConfig.matches_bssid n (bssid (bss_info w))) networks.

Definition restart_with (networks : list NetworkConfig.t) : wm unit :=
  w ← get;
  (if bool_decide (w_state w = Scanning) then wait_scan_finish else mret tt);;
  w ← get;
  let connected := connection_is_live (w_state w) (r_pre_roam_state (w_roam w)) in
  let kept := connected && connection_kept networks w in
  modify (on_iface (put_networks networks));;
  modify reset_rotation;;
  if kept then mret tt else
  clear_wait_deadline;;
  stop_sched_scan;;
  (if connected then
     w ← get;
     (if w_wowlan_armed w then disarm_wowlan else mret tt);;
     logged (request Disconnect)
   else mret tt);;
  modify (reset_for_update (default (NetworkConfig.new "") (head networks)));;
  modify reset_auth;;
  modify reset_roam;;
  modify (fun w => on_iface (put_bssid_ignore (BssidIgnoreList.clear (bssid_ignore (w_iface w)))) w);;
  modify (put_w_fast_reconnect None);;
  modify (on_pno (put_p_scan_retry_interval RETRY_BACKOFF_INIT_SEC));;
  set_state Init.

Definition update_networks (networks : list NetworkConfig.t) : wm unit :=
  w ← get;
  invalidate_all (pmksa_stale_ssids (if_networks (w_iface w)) networks);;
  match network_update_action (if_networks (w_iface w)) networks (w_state w) (network w) with
  | SameSet => modify (on_iface (put_networks networks))
  | KeepCurrentAttempt => modify (on_iface (put_networks networks));; modify reset_rotation
  | Restart => restart_with networks
  end.

Definition shutdown : wm unit :=
  logged stop_sched_scan;;
  w ← get;
  (if w_wowlan_armed w then logged disarm_wowlan else mret tt);;
  logged (request Disconnect).

(** ** [init] *)

(** What is probed of the wiphy: MLME and control port; scheduled scans (supported,
    SSIDs, match sets); SSIDs per scan; WoWLAN triggers. *)
Record Probe := mkProbe {
  pr_mlme : MlmeMode;
  pr_control_port : ControlPortMode;
  pr_sched_scan : WifiError.t + (bool * nat * nat);
  pr_max_scan_count : nat;
  pr_wowlan : WifiError.t + list WowlanTrigger;
}.

Definition init_iface (p : Probe) (networks : list NetworkConfig.t) (n : NetworkConfig.t) : Iface :=
  mkIface networks (pr_mlme p)
    (if (0 <? pr_max_scan_count p)%nat then pr_max_scan_count p else 1%nat)
    n BssInfo_default true false (mkRotation 0 true) None false false None [] [] false false false 0 [] [].

Definition init_caps (p : Probe) : WiphyCaps :=
  let '(supported, ssids, sets) := match pr_sched_scan p with inr x => x | inl _ => (false, 0, 0)%nat end in
  mkCaps (pr_control_port p) supported ssids sets (match pr_wowlan p with inr t => t | inl _ => [] end).

(** The interface, before the requests of [init]. *)
Definition init_state (mac : list Z) (inbox : list Wake) (generation : Z) (p : Probe)
  (networks : list NetworkConfig.t) (n : NetworkConfig.t) : W :=
  mkW mac (init_iface p networks n) (init_caps p) false
    (mkPno RETRY_BACKOFF_INIT_SEC false false 0 false false SCHED_SCAN_INTERVAL_SEC
       SCHED_SCAN_WATCHDOG_SECS true true)
    (mkLink [] None None None None false false)
    (mkAuth None None None None None false 0 [] false [] false)
    (mkRoam None None None 0 None None false)
    false Init None generation [] None None None [] 0 inbox generation.

Definition init (mac : list Z) (inbox : list Wake) (generation : Z) (p : Probe)
  (networks : list NetworkConfig.t) : W * outcome WifiError.t unit :=
  (w ← get;
   (if bool_decide (c_wowlan_supported_triggers (w_caps w) = []) then mret tt
    else logged (request (SetWowlan [])));;
   (if bool_decide (networks = [])
    then throw (WifiError.new WifiError.InvalidConfig "WifiConfig: no networks configured") else mret tt);;
   logged (request Disconnect);;
   if bool_decide (if_mlme (w_iface w) = SoftMac) then register_roam_frames else mret tt)
  (init_state mac inbox generation p networks (default (NetworkConfig.new "") (head networks))).

End client.
