(* ===== verification/WifiClient.v ===== *)
(** * The WiFi client handle

    [src/src/wifi/client/wifi_client.rs]: one client, the interfaces it manages, the
    table that routes the events of the shared netlink socket, and the calls of the
    public handle, each of which goes to one interface of [ClientLoop].  A route is the
    sender of an event queue: the queue of the interface of that name.  What the netlink
    socket says of an interface when it is opened is an argument ([Found], [Probed]).

    [run] polls the interfaces in the order of the hash map, which is an argument: an
    interface whose queue holds nothing it waits for is pending ([Diverge]), keeps what
    it did so far, and its future is dropped when another one is ready.

    [Module WifiClientFacts]: a route always leads to the interface with that index, so
    that no interface sees the events of another, and no call on one interface touches
    another. *)

From stdpp Require Import gmap list.
From S2P Require Import Prelude Errors Eap EapTls Security Pmksa WifiKdf FourWay Sae Owe.
From S2P Require Import WifiConfig ClientState Scan WifiIface WifiAuth Roam WifiEvents ClientLoop.

Module WifiClient.

Section handle.
Context `{!Supplicant} `{!FrameLib} `{!Host}.

(** An interface with its kernel index. *)
Record Managed := mkManaged { mg_if_index : Z; mg_w : W }.

(** [handle] is the socket; the senders of the dispatcher and of the resume channel are
    the flag and the generation they carry. *)
Record t := mk {
  ifaces : gmap string Managed;
  iface_tx_by_if_index : gmap Z string;
  dispatching : bool;
  resume_generation : Z;
}.

Definition put_ifaces (v : gmap string Managed) (c : t) : t :=
  mk v (iface_tx_by_if_index c) (dispatching c) (resume_generation c).
Definition put_routes (v : gmap Z string) (c : t) : t :=
  mk (ifaces c) v (dispatching c) (resume_generation c).

(** [ShuliNl80211Connection::from_handle]: the index and the address; then what
    [WifiIface::init] probes. *)
Definition Found : Type := WifiError.t + Z * list Z.
Definition Probed : Type := WifiError.t + Probe.

(** [WifiIface::init], with the events that arrived in the meantime. *)
Definition open_iface (mac : list Z) (arrived : list Wake) (generation : Z) (probed : Probed)
  (networks : list NetworkConfig.t) : outcome WifiError.t W :=
  match probed with
  | inl e => Err e
  | inr p => let '(w, r) := ClientLoop.init mac arrived generation p networks in _ ← r; Ok w
  end.

(** The interfaces of [init], one after the other; an error ends it. *)
Fixpoint init_ifaces (found : string -> Found) (probed : string -> Probed)
  (configs : list (string * list NetworkConfig.t)) (c : t) : outcome WifiError.t t :=
  match configs with
  | [] => Ok c
  | (name, networks) :: configs =>
      match found name with
      | inl e => Err e
      | inr (if_index, mac) =>
          w ← open_iface mac [] 0 (probed name) networks;
          init_ifaces found probed configs
            (put_ifaces (<[name := mkManaged if_index w]> (ifaces c))
               (put_routes (<[if_index := name]> (iface_tx_by_if_index c)) c))
      end
  end.

(** The first name that was there before. *)
Fixpoint first_duplicate (seen : gset string) (names : list string) : option string :=
  match names with
  | [] => None
  | n :: names => if bool_decide (n ∈ seen) then Some n else first_duplicate ({[n]} ∪ seen) names
  end.

Definition init (socket : option string) (found : string -> Found) (probed : string -> Probed)
  (configs : list (string * list NetworkConfig.t)) : outcome WifiError.t t :=
  if bool_decide (configs = []) then
    Err (WifiError.new WifiError.InvalidConfig "WifiClient::init(): at least one WifiConfig required")
  else match first_duplicate ∅ configs.*1 with
  | Some n => Err (WifiError.new WifiError.InvalidConfig ("WifiClient::init(): duplicate interface " +:+ n))
  | None =>
      match socket with
      | Some e => Err (WifiError.new WifiError.Config e)
      | None => init_ifaces found probed configs (mk ∅ ∅ true 0)
      end
  end.

Definition add_iface (found : Found) (probed : Probed) (arrived : list Wake) (name : string)
  (networks : list NetworkConfig.t) (c : t) : t * outcome WifiError.t unit :=
  match ifaces c !! name with
  | Some _ =>
      (c, Err (WifiError.new WifiError.InvalidConfig
                 ("WifiClient::add_iface(): interface " +:+ name +:+ " is already managed")))
  | None =>
      match found with
      | inl e => (c, Err e)
      | inr (if_index, mac) =>
          let c := put_routes (<[if_index := name]> (iface_tx_by_if_index c)) c in
          match open_iface mac arrived (resume_generation c) probed networks with
          | Ok w => (put_ifaces (<[name := mkManaged if_index w]> (ifaces c)) c, Ok tt)
          | Err e => (put_routes (delete if_index (iface_tx_by_if_index c)) c, Err e)
          | Panic => (c, Panic)
          | Diverge => (c, Diverge)
          end
      end
  end.

Definition not_found (name : string) : WifiError.t :=
  WifiError.new WifiError.InterfaceNotFound ("wifi interface " +:+ name +:+ " not found").

Definition remove_iface (name : string) (c : t) : t * outcome WifiError.t unit :=
  match ifaces c !! name with
  | None => (c, Err (not_found name))
  | Some mg =>
      (put_routes (delete (mg_if_index mg) (iface_tx_by_if_index c)) (put_ifaces (delete name (ifaces c)) c),
       _ ← (ClientLoop.shutdown (mg_w mg)).2; Ok tt)
  end.

Definition put_inbox_end (e : Wake) (mg : Managed) : Managed :=
  mkManaged (mg_if_index mg) (put_w_inbox (w_inbox (mg_w mg) ++ [e]) (mg_w mg)).

(** [u64::wrapping_add]; every interface is subscribed to the channel. *)
Definition notify_resume (c : t) : t :=
  let generation := wrap 64 (resume_generation c + 1) in
  mk (put_inbox_end (Resume generation) <$> ifaces c) (iface_tx_by_if_index c) (dispatching c) generation.

(** The future of one interface: its result, with the name of the interface. *)
Definition iface_future (steps : nat) (name : string) (mg : Managed)
  : Managed * outcome WifiError.t (string * WifiState) :=
  let '(w, r) := ClientLoop.run steps (mg_w mg) in
  match r with
  | Ok state =>
      match w_last_error w with
      | Some e => (mkManaged (mg_if_index mg) (put_w_last_error None w), Err (WifiError.with_iface_name e name))
      | None => (mkManaged (mg_if_index mg) w, Ok (name, state))
      end
  | Err e => (mkManaged (mg_if_index mg) (put_w_last_error None w), Err (WifiError.with_iface_name e name))
  | Panic => (mkManaged (mg_if_index mg) w, Panic)
  | Diverge => (mkManaged (mg_if_index mg) w, Diverge)
  end.

(** [select_all]: the futures are polled in order, until one of them is ready. *)
Fixpoint select_all (steps : nat) (order : list string) (c : t)
  : t * outcome WifiError.t (string * WifiState) :=
  match order with
  | [] => (c, Diverge)
  | name :: order =>
      match ifaces c !! name with
      | None => select_all steps order c
      | Some mg =>
          let '(mg', r) := iface_future steps name mg in
          let c := put_ifaces (<[name := mg']> (ifaces c)) c in
          match r with
          | Diverge => select_all steps order c
          | r => (c, r)
          end
      end
  end.

Definition run (steps : nat) (order : list string) (c : t) : t * outcome WifiError.t (string * WifiState) :=
  if bool_decide (ifaces c = ∅) then (c, Err (WifiError.new WifiError.Config "WifiClient has no interfaces"))
  else select_all steps order c.

Definition current_ssid (name : string) (c : t) : option string :=
  (fun mg => NetworkConfig.ssid (network (mg_w mg))) <$> ifaces c !! name.

Definition current_bssid (name : string) (c : t) : option (list Z) :=
  (fun mg => bssid (bss_info (mg_w mg))) <$> ifaces c !! name.

(** The hints for the BSS an interface works toward. *)
Definition export_hints (name : string) (c : t) : option Hints.t :=
  mg ← ifaces c !! name;
  let bss := bss_info (mg_w mg) in
  if bool_decide (bssid bss = NO_BSSID) || (freq_mhz bss =? 0) then None else
  Some (Hints.mk [freq_mhz bss] [mkKnownBss (bssid bss) (freq_mhz bss)] (Some (bssid bss)) (Some (freq_mhz bss))
          (Some (security bss)) (Some (ap_rsne bss)) (Some (ap_rsnxe bss)) (Some (group_mgmt_cipher bss))
          (mdid <$> mdie bss) (ft_capab <$> mdie bss) (Some (btm_support bss)) (Some (rm_neighbor_report bss))).

(** A call that goes to one interface. *)
Definition on_managed {A} (name : string) (f : wm A) (c : t) : t * outcome WifiError.t A :=
  match ifaces c !! name with
  | None => (c, Err (not_found name))
  | Some mg =>
      let '(w, r) := f (mg_w mg) in
      (put_ifaces (<[name := mkManaged (mg_if_index mg) w]> (ifaces c)) c, r)
  end.

Definition update_networks (name : string) (networks : list NetworkConfig.t) : t -> t * outcome WifiError.t unit :=
  on_managed name (ClientLoop.update_networks networks).
Definition arm_wowlan (name : string) : t -> t * outcome WifiError.t bool := on_managed name WifiIface.arm_wowlan.
Definition disarm_wowlan_of (name : string) : t -> t * outcome WifiError.t unit :=
  on_managed name WifiIface.disarm_wowlan.

Definition client_wowlan_supported (name : string) (c : t) : bool :=
  match ifaces c !! name with Some mg => wowlan_supported (mg_w mg) | None => false end.

Definition shutdown_managed (mg : Managed) : Managed :=
  mkManaged (mg_if_index mg) (ClientLoop.shutdown (mg_w mg)).1.

Definition shutdown (c : t) : t := mk (shutdown_managed <$> ifaces c) ∅ false (resume_generation c).

(** An entry of a queue; the queue of an interface that is gone is closed. *)
Definition push (name : string) (e : Wake) (c : t) : t := put_ifaces (alter (put_inbox_end e) name (ifaces c)) c.

(** One turn of the dispatcher: an event with its interface index, if it has one. *)
Definition dispatch (if_index : option Z) (msg : RawMessage) (c : t) : t :=
  if negb (dispatching c) then c else
  match if_index with
  | None => fold_left (fun c name => push name (Woke (Kernel msg)) c) (map_to_list (iface_tx_by_if_index c)).*2 c
  | Some i =>
      match iface_tx_by_if_index c !! i with
      | Some name => push name (Woke (Kernel msg)) c
      | None => c
      end
  end.

End handle.
End WifiClient.

(** ** Facts *)

Module WifiClientFacts.
Import WifiClient.

Section facts.
Context {sup : Supplicant} {frames : FrameLib} {host : Host}.

(** A call of the handle, or a turn of the dispatcher, with what is read from outside. *)
Inductive Call :=
| CallAdd (found : Found) (probed : Probed) (arrived : list Wake) (name : string) (networks : list NetworkConfig.t)
| CallRemove (name : string)
| CallResume
| CallRun (steps : nat) (order : list string)
| CallUpdate (name : string) (networks : list NetworkConfig.t)
| CallArm (name : string)
| CallDisarm (name : string)
| CallDispatch (if_index : option Z) (msg : RawMessage)
| CallShutdown.

Definition call (o : Call) (c : t) : t :=
  match o with
  | CallAdd found probed arrived name networks => (add_iface found probed arrived name networks c).1
  | CallRemove name => (remove_iface name c).1
  | CallResume => notify_resume c
  | CallRun steps order => (run steps order c).1
  | CallUpdate name networks => (update_networks name networks c).1
  | CallArm name => (arm_wowlan name c).1
  | CallDisarm name => (disarm_wowlan_of name c).1
  | CallDispatch if_index msg => dispatch if_index msg c
  | CallShutdown => shutdown c
  end.

Definition is_shutdown (o : Call) : bool := match o with CallShutdown => true | _ => false end.

(** The kernel has one interface per index: the index of an interface that is opened is
    not that of another one. *)
Definition index_free (o : Call) (c : t) : Prop :=
  match o with
  | CallAdd (inr (i, _)) _ _ name _ => forall n mg, ifaces c !! n = Some mg -> n <> name -> mg_if_index mg <> i
  | _ => True
  end.

(** The clients that some calls lead to, and whether [shutdown] was among them. *)
Inductive reach (c0 : t) : bool -> t -> Prop :=
| reach_start : reach c0 false c0
| reach_call o stopped c :
    reach c0 stopped c -> index_free o c -> reach c0 (stopped || is_shutdown o) (call o c).

(** A route for each interface, and no other. *)
Definition routed (c : t) : Prop :=
  dispatching c = true
  /\ forall i n, iface_tx_by_if_index c !! i = Some n <-> exists mg, ifaces c !! n = Some mg /\ mg_if_index mg = i.

(** What a call leaves of the table: the same indices. *)
Definition same_indices (c c' : t) : Prop :=
  iface_tx_by_if_index c' = iface_tx_by_if_index c /\ dispatching c' = dispatching c
  /\ forall n, mg_if_index <$> ifaces c' !! n = mg_if_index <$> ifaces c !! n.

#[local] Instance same_indices_preorder : PreOrder same_indices.
Proof. split; [by intros c|]. intros c1 c2 c3 (H1 & H2 & H3) (H1' & H2' & H3'). split; [congruence|split; [congruence|]].
  intros n. by rewrite H3', H3. Qed.

Lemma same_indices_routed c c' : same_indices c c' -> routed c -> routed c'.
Proof.
  intros (Hr & Hd & Hi) [Hrun Hall]. split; [congruence|]. intros i n. rewrite Hr, Hall.
  specialize (Hi n). destruct (ifaces c !! n) as [x|], (ifaces c' !! n) as [y|]; try discriminate Hi.
  - injection Hi as Hi. split; intros (mg & [= <-] & Hx); eexists; (split; [done|]); congruence.
  - split; by intros (mg & [=] & _).
Qed.

Lemma same_indices_insert c n mg mg' :
  ifaces c !! n = Some mg -> mg_if_index mg' = mg_if_index mg ->
  same_indices c (put_ifaces (<[n := mg']> (ifaces c)) c).
Proof.
  intros Hn Hi. repeat split. intros n'. cbn. destruct (decide (n = n')) as [<-|Hne].
  - rewrite lookup_insert_eq, Hn. cbn. by rewrite Hi.
  - by rewrite lookup_insert_ne.
Qed.

Lemma on_managed_indices {A} n (f : wm A) c : same_indices c (on_managed n f c).1.
Proof.
  unfold on_managed. destruct (ifaces c !! n) as [mg|] eqn:Hn; [|reflexivity].
  destruct (f (mg_w mg)). by eapply same_indices_insert.
Qed.

Lemma iface_future_index steps n mg : mg_if_index (iface_future steps n mg).1 = mg_if_index mg.
Proof. unfold iface_future. destruct (ClientLoop.run steps (mg_w mg)) as [w [x|e| |]]; repeat case_match; done. Qed.

Lemma select_all_indices steps order c : same_indices c (select_all steps order c).1.
Proof.
  revert c. induction order as [|n order IH]; intros c; [reflexivity|]. cbn [select_all].
  destruct (ifaces c !! n) as [mg|] eqn:Hn; [|apply IH].
  pose proof (iface_future_index steps n mg) as Hi. destruct (iface_future steps n mg) as [mg' r].
  pose proof (same_indices_insert c n mg mg' Hn Hi) as Hs.
  destruct r; try exact Hs. etransitivity; [exact Hs|apply IH].
Qed.

Lemma push_indices n e c : same_indices c (push n e c).
Proof.
  repeat split. intros n'. cbn. destruct (decide (n = n')) as [<-|Hne].
  - rewrite lookup_alter_eq. by destruct (ifaces c !! n).
  - by rewrite lookup_alter_ne.
Qed.

Lemma dispatch_indices i msg c : same_indices c (dispatch i msg c).
Proof.
  unfold dispatch. destruct (negb _); [reflexivity|]. destruct i as [i|].
  - destruct (_ !! i); [apply push_indices|reflexivity].
  - generalize ((map_to_list (iface_tx_by_if_index c)).*2) as l. intros l. revert c.
    induction l as [|n l IH]; intros c; cbn [fold_left]; [reflexivity|].
    etransitivity; [apply push_indices|apply IH].
Qed.

(** [WifiIface::init] ends. *)
Lemma logged_request cmd w (Q : unit -> W -> Prop) R : (forall w', Q tt w') -> wp (logged (request cmd)) Q R w.
Proof.
  intros HQ. unfold wp, logged, request, raw_request, result_of, mbind, st_bind, get, modify, mret, st_ret, throw, lift.
  repeat (case_match; simplify_eq/=); auto.
Qed.

Lemma open_iface_ends mac arrived generation probed networks :
  returns (open_iface mac arrived generation probed networks).
Proof.
  unfold open_iface. destruct probed as [e|p]; [done|].
  enough (forall w, wp (w ← get;
     (if bool_decide (c_wowlan_supported_triggers (w_caps w) = []) then mret tt
      else logged (request (SetWowlan [])));;
     (if bool_decide (networks = [])
      then throw (WifiError.new WifiError.InvalidConfig "WifiConfig: no networks configured") else mret tt);;
     logged (request Disconnect);;
     if bool_decide (if_mlme (w_iface w) = SoftMac) then register_roam_frames else mret tt)
     (fun _ _ => True) (fun _ _ => True) w) as Hw.
  { unfold ClientLoop.init. specialize (Hw (init_state mac arrived generation p networks
      (default (NetworkConfig.new "") (head networks)))). unfold wp in Hw. 
    by match type of Hw with context [match ?x with (_, _) => _ end] => destruct x as [w' [a|e| |]] end. }
  intros w. apply wp_bind, wp_get, wp_bind.
  assert (forall w', wp ((if bool_decide (networks = [])
      then throw (WifiError.new WifiError.InvalidConfig "WifiConfig: no networks configured") else mret tt);;
     logged (request Disconnect);;
     if bool_decide (if_mlme (w_iface w) = SoftMac) then register_roam_frames else mret tt)
     (fun _ _ => True) (fun _ _ => True) w') as Hrest.
  { intros w'. apply wp_bind. destruct (bool_decide (networks = [])); [done|]. apply wp_mret, wp_bind, logged_request.
    intros w2. destruct (bool_decide (_ = SoftMac)); [|done]. unfold register_roam_frames. apply wp_bind, wp_get.
    destruct (bool_decide (_ = FullMac)); [done|].
    apply wp_bind, logged_request. intros w3. by apply logged_request. }
  destruct (bool_decide (c_wowlan_supported_triggers _ = [])); [exact (Hrest w)|by apply logged_request].
Qed.

(** A new interface with an index of its own. *)
Lemma routed_add c i n w :
  routed c -> ifaces c !! n = None -> (forall n' mg, ifaces c !! n' = Some mg -> n' <> n -> mg_if_index mg <> i) ->
  routed (put_ifaces (<[n := mkManaged i w]> (ifaces c)) (put_routes (<[i := n]> (iface_tx_by_if_index c)) c)).
Proof.
  intros [Hd Hr] Hn Hfree. split; [done|]. intros j m. cbn.
  destruct (decide (i = j)) as [<-|Hij].
  - rewrite lookup_insert_eq. destruct (decide (n = m)) as [<-|Hnm].
    + rewrite lookup_insert_eq. split; [by eexists|done].
    + rewrite lookup_insert_ne by done. split; [congruence|]. intros (mg & Hm & Hi). by destruct (Hfree m mg Hm).
  - rewrite lookup_insert_ne by done. rewrite Hr. destruct (decide (n = m)) as [<-|Hnm].
    + rewrite lookup_insert_eq, Hn. split; [by intros (mg & [=] & _)|]. by intros (mg & [= <-] & Hx).
    + by rewrite lookup_insert_ne.
Qed.

(** The index of a new interface has no route yet. *)
Lemma routed_free c i n :
  routed c -> ifaces c !! n = None -> (forall n' mg, ifaces c !! n' = Some mg -> n' <> n -> mg_if_index mg <> i) ->
  iface_tx_by_if_index c !! i = None.
Proof.
  intros [_ Hr] Hn Hfree. destruct (iface_tx_by_if_index c !! i) as [m|] eqn:Hi; [|done].
  apply Hr in Hi as (mg & Hm & Hx). destruct (decide (m = n)) as [->|Hne]; [congruence|]. by destruct (Hfree m mg Hm).
Qed.

Lemma routed_remove c n mg :
  routed c -> ifaces c !! n = Some mg ->
  routed (put_routes (delete (mg_if_index mg) (iface_tx_by_if_index c)) (put_ifaces (delete n (ifaces c)) c)).
Proof.
  intros [Hd Hr] Hn. split; [done|]. intros j m. cbn.
  assert (iface_tx_by_if_index c !! mg_if_index mg = Some n) as Hroute by (apply Hr; eauto).
  destruct (decide (n = m)) as [<-|Hnm].
  - rewrite lookup_delete_eq. split; [|by intros (mg' & [=] & _)]. intros [Hne Hj]%lookup_delete_Some.
    apply Hr in Hj as (mg' & Hm & Hx). congruence.
  - rewrite (lookup_delete_ne (ifaces c)) by done. rewrite <- Hr, lookup_delete_Some.
    split; [by intros [_ Hj]|]. intros Hj. split; [|exact Hj]. intros Heq. rewrite Heq in Hroute. congruence.
Qed.

(** A call that fails to add an interface leaves the client as it was. *)
Lemma failed_add_changes_nothing found probed arrived n networks c c' e :
  routed c -> index_free (CallAdd found probed arrived n networks) c ->
  add_iface found probed arrived n networks c = (c', Err e) -> c' = c.
Proof.
  intros Hr Hfree. unfold add_iface. destruct (ifaces c !! n) eqn:Hn; [by intros [= <- _]|].
  destruct found as [e'|[i mac]]; [by intros [= <- _]|]. cbn [resume_generation put_routes].
  pose proof (open_iface_ends mac arrived (resume_generation c) probed networks) as Hend.
  destruct (open_iface _ _ _ _ _) as [w|e'| |]; try done. intros [= <- _].
  unfold put_routes. cbn. rewrite delete_insert_id; [by destruct c|]. by eapply routed_free.
Qed.

Lemma call_routed o c : routed c -> index_free o c -> is_shutdown o = false -> routed (call o c).
Proof.
  intros Hr Hfree Ho. destruct o as [found probed arrived n nets|n| |steps order|n nets|n|n|i msg|]; cbn [call]; [..|done].
  - unfold add_iface. destruct (ifaces c !! n) eqn:Hn; [done|]. destruct found as [e|[i mac]]; [done|].
    pose proof (open_iface_ends mac arrived (resume_generation c) probed nets) as Hend.
    pose proof (failed_add_changes_nothing (inr (i, mac)) probed arrived n nets c) as Hfail.
    unfold add_iface in Hfail. rewrite Hn in Hfail. cbn [resume_generation put_routes] in *.
    destruct (open_iface _ _ _ _ _) as [w|e| |]; try done; [exact (routed_add c i n w Hr Hn Hfree)|].
    by rewrite (Hfail _ _ Hr Hfree eq_refl).
  - unfold remove_iface. destruct (ifaces c !! n) eqn:Hn; [by apply routed_remove|done].
  - eapply same_indices_routed; [|exact Hr]. repeat split. intros n. cbn. rewrite lookup_fmap. by destruct (ifaces c !! n).
  - unfold run. case_bool_decide; [done|]. eapply same_indices_routed; [apply select_all_indices|done].
  - eapply same_indices_routed; [apply on_managed_indices|done].
  - eapply same_indices_routed; [apply on_managed_indices|done].
  - eapply same_indices_routed; [apply on_managed_indices|done].
  - eapply same_indices_routed; [apply dispatch_indices|done].
Qed.

Lemma init_ifaces_routed found probed configs c c' :
  (forall n1 n2 i m1 m2, found n1 = inr (i, m1) -> found n2 = inr (i, m2) -> n1 = n2) ->
  NoDup configs.*1 -> (forall n, n ∈ configs.*1 -> ifaces c !! n = None) ->
  (forall n mg, ifaces c !! n = Some mg -> exists mac, found n = inr (mg_if_index mg, mac)) ->
  routed c -> init_ifaces found probed configs c = Ok c' -> routed c'.
Proof.
  intros Hinj. revert c. induction configs as [|[n nets] configs IH]; intros c Hnd Hnew Hfound Hr; cbn [init_ifaces].
  { by intros [= <-]. }
  cbn in Hnd. apply NoDup_cons in Hnd as [Hn Hnd].
  destruct (found n) as [e|[i mac]] eqn:Hf; [done|]. intros (w & _ & Hgo)%bind_ok.
  assert (ifaces c !! n = None) as Hnone by (apply Hnew, list_elem_of_here).
  eapply IH; [done| | |apply (routed_add c i n w Hr Hnone)|exact Hgo].
  - intros m Hm. cbn. rewrite lookup_insert_ne by (intros <-; done). apply Hnew. by apply list_elem_of_further.
  - intros m mg. cbn. intros [[<- <-]|[_ Hm]]%lookup_insert_Some; [by exists mac|by apply Hfound].
  - intros m mg Hm Hne Hx. destruct (Hfound m mg Hm) as [mac' Hm']. rewrite Hx in Hm'. by apply Hne, (Hinj m n i mac' mac).
Qed.

Lemma first_duplicate_None seen names : first_duplicate seen names = None -> NoDup names /\ forall n, n ∈ names -> n ∉ seen.
Proof.
  revert seen. induction names as [|n names IH]; intros seen; cbn [first_duplicate].
  { intros _. split; [constructor|]. intros n Hn. by apply not_elem_of_nil in Hn. }
  case_bool_decide as Hn; [done|]. intros [Hnd Hall]%IH. split.
  - constructor; [|done]. intros Hin. apply (Hall n Hin). set_solver.
  - intros m [->|Hm]%elem_of_cons; [done|]. specialize (Hall m Hm). set_solver.
Qed.

Lemma init_routed socket found probed configs c :
  (forall n1 n2 i m1 m2, found n1 = inr (i, m1) -> found n2 = inr (i, m2) -> n1 = n2) ->
  init socket found probed configs = Ok c -> routed c.
Proof.
  intros Hinj. unfold init. case_bool_decide; [done|].
  destruct (first_duplicate ∅ configs.*1) eqn:Hd; [done|]. destruct socket; [done|].
  apply first_duplicate_None in Hd as [Hnd _]. apply init_ifaces_routed; try done.
  split; [done|]. intros i n. cbn. split; [done|]. by intros (mg & Hm & _).
Qed.

(** No call starts the dispatcher again. *)
Lemma call_stopped o c : dispatching c = false -> dispatching (call o c) = false.
Proof.
  intros Hd. destruct o as [found probed arrived n nets|n| |steps order|n nets|n|n|i msg|]; cbn [call];
    [| |done| | | | | |done].
  - unfold add_iface. by repeat case_match.
  - unfold remove_iface. by case_match.
  - unfold run. case_bool_decide; [done|]. by rewrite (proj1 (proj2 (select_all_indices _ _ _))).
  - rewrite <- Hd. apply (on_managed_indices n).
  - rewrite <- Hd. apply (on_managed_indices n).
  - rewrite <- Hd. apply (on_managed_indices n).
  - by rewrite (proj1 (proj2 (dispatch_indices _ _ _))).
Qed.

Lemma reach_routed c0 stopped c : routed c0 -> reach c0 stopped c ->
  if stopped then dispatching c = false else routed c.
Proof.
  intros H0. induction 1 as [|o stopped c _ IH Hfree]; [done|]. destruct stopped; cbn [orb].
  - by apply call_stopped.
  - destruct (is_shutdown o) eqn:Ho; [by destruct o|by apply call_routed].
Qed.

(** C21: the events of the shared socket reach the interface they belong to and no other
    one: after [init] and any sequence of calls of the client, in which interfaces are
    added, fail to be added and are removed, an event with the index of an interface is
    appended to the queue of that interface, and all the rest of the client stays as it is;
    once [shutdown] was among the calls, an event changes nothing.  The kernel gives
    different indices to different interfaces: in the lookups of [init], and in those of
    [add_iface], where the index is not that of another managed interface. *)
Theorem events_reach_their_interface socket found probed configs c0 stopped c i msg :
  (forall n1 n2 i m1 m2, found n1 = inr (i, m1) -> found n2 = inr (i, m2) -> n1 = n2) ->
  init socket found probed configs = Ok c0 -> reach c0 stopped c ->
  dispatch (Some i) msg c =
    if stopped then c
    else put_ifaces
      ((fun mg => if mg_if_index mg =? i then put_inbox_end (Woke (Kernel msg)) mg else mg) <$> ifaces c) c.
Proof.
  intros Hinj Hinit Hreach.
  pose proof (reach_routed c0 stopped c (init_routed _ _ _ _ _ Hinj Hinit) Hreach) as Hx. unfold dispatch.
  destruct stopped; [by rewrite Hx|]. destruct Hx as [Hd Hr]. rewrite Hd. cbn [negb].
  assert (forall n mg, ifaces c !! n = Some mg -> mg_if_index mg = i <-> iface_tx_by_if_index c !! i = Some n) as Hn.
  { intros n mg Hm. rewrite Hr. split; [by exists mg|]. intros (mg' & Hm' & Hx). congruence. }
  destruct (iface_tx_by_if_index c !! i) as [m|] eqn:Hi.
  - unfold push, put_ifaces. f_equal. apply map_eq. intros n. rewrite lookup_fmap.
    destruct (decide (m = n)) as [->|Hne].
    + rewrite lookup_alter_eq. destruct (ifaces c !! n) as [mg|] eqn:Hm; [|done]. cbn.
      by rewrite (proj2 (Z.eqb_eq _ _) (proj2 (Hn n mg Hm) eq_refl)).
    + rewrite lookup_alter_ne by done. destruct (ifaces c !! n) as [mg|] eqn:Hm; [|done]. cbn.
      destruct (Z.eqb_spec (mg_if_index mg) i) as [Hx|]; [|done]. apply (Hn n mg Hm) in Hx. congruence.
  - destruct c as [ifs routes disp gen]. unfold put_ifaces. cbn in *. f_equal. apply map_eq. intros n.
    rewrite lookup_fmap. destruct (ifs !! n) as [mg|] eqn:Hm; [|done]. cbn.
    destruct (Z.eqb_spec (mg_if_index mg) i) as [Hx|]; [|done]. by apply (Hn n mg Hm) in Hx.
Qed.

(** The hints that are exported for an interface bring it back to its BSS without a
    scan: what the configuration rebuilds from them is the BSS itself, with no signal and
    not hidden, or nothing when its security is not supported. *)
Theorem exported_hints_restore_bss n c h :
  export_hints n c = Some h ->
  exists mg, ifaces c !! n = Some mg /\
    let bss := bss_info (mg_w mg) in
    Hints.bss_info h =
      if bool_decide (security bss = Unsupported) then None
      else Some (mkBssInfo (bssid bss) (freq_mhz bss) 0 (security bss) (ap_rsne bss) (ap_rsnxe bss)
                   (group_mgmt_cipher bss) (mdie bss) false (btm_support bss) (rm_neighbor_report bss)).
Proof.
  unfold export_hints. destruct (ifaces c !! n) as [mg|]; [|done]. cbn -[bss_info]. intros Hh. exists mg. split; [done|].
  destruct (bss_info (mg_w mg)) as [b f s sec rsne rsnxe ci md hid btm rm]. cbn -[NO_BSSID] in Hh |- *.
  revert Hh. case_bool_decide as Hb; [done|]. destruct (f =? 0) eqn:Hf; [done|].
  intros [= <-]. unfold Hints.bss_info. cbn -[NO_BSSID]. rewrite bool_decide_eq_false_2 by done. cbn. rewrite Hf. cbn.
  destruct (decide (sec = Unsupported)) as [Hs|Hs];
    [by rewrite !bool_decide_eq_true_2|rewrite !bool_decide_eq_false_2 by done]. cbn. by destruct md as [[m ft]|].
Qed.

End facts.
End WifiClientFacts.
