(* ===== verification/Mka.v ===== *)
(** * MKA key derivation and MKPDUs

    [src/src/wired/mka.rs], lines 1 to 700: the key hierarchy of IEEE 802.1X-2020
    (KDF, KEK, ICK, the EAP CAK and CKN), AES key wrap with its length checks, the
    ICV, the MKPDU encoder [MkaPdu.build_eapol] and decoder [MkaPdu.parse], and the
    MACsec configuration.  AES-CMAC and AES key wrap are calls into the RustCrypto
    crates ([Class MkaCryptoLib]). *)

From S2P Require Import Prelude Errors.

Definition MKA_VERSION : Z := 3.
Definition EAPOL_TYPE_MKA : Z := 5.
Definition EAPOL_VERSION : Z := 3.
Definition ICV_LEN : nat := 16.
Definition MI_LEN : nat := 12.
Definition MKA_HELLO_SECS : Z := 2.
Definition MKA_LIFE_SECS : Z := 6.
Definition ALGO_AGILITY : list Z := [0x00; 0x80; 0xc2; 0x01].
Definition MACSEC_CAP_NOT_IMPLEMENTED : Z := 0.
Definition MACSEC_CAP_INTEGRITY_CONFIDENTIALITY : Z := 2.
Definition PN_EXHAUSTION : Z := 0xC0000000.

(** ** Data *)

Record KeyId := mkKeyId { ki_mi : list Z; ki_kn : Z }.

#[global] Instance KeyId_eq_dec : EqDecision KeyId.
Proof. solve_decision. Defined.

(** [KeyId::default()]. *)
Definition KeyId_default : KeyId := mkKeyId (replicate MI_LEN 0) 0.

Record PeerId := mkPeerId { pi_mi : list Z; pi_mn : Z }.

Record MkaBasic := mkMkaBasic {
  b_version : Z;
  b_priority : Z;
  b_key_server : bool;
  b_macsec_desired : bool;
  b_macsec_capability : Z;
  b_sci : list Z;
  b_mi : list Z;
  b_mn : Z;
  b_algo_agility : list Z;
  b_ckn : list Z;
}.

Record SakUse := mkSakUse {
  latest_an : Z;
  latest_tx : bool;
  latest_rx : bool;
  old_an : Z;
  old_tx : bool;
  old_rx : bool;
  plain_tx : bool;
  plain_rx : bool;
  delay_protect : bool;
  latest_ki : KeyId;
  latest_llpn : Z;
  old_ki : KeyId;
  old_llpn : Z;
}.

Record DistSak := mkDistSak {
  d_an : Z;
  d_confidentiality_offset : Z;
  d_kn : Z;
  d_cipher_suite : option (list Z);
  d_wrapped_sak : list Z;
}.

(** ** The crates *)

Class MkaCryptoLib := {
  (** [Cmac<Aes128>] and [Cmac<Aes256>], for keys of 16 and 32 octets. *)
  m_cmac : list Z -> list Z -> list Z;
  (** [KwAes128]/[KwAes256]: the result, or the error as it is printed. *)
  m_kw_wrap : list Z -> list Z -> string + list Z;
  m_kw_unwrap : list Z -> list Z -> string + list Z;
}.

(** RFC 4493 and RFC 3394: the tag has 16 octets; wrapping a key of at least two
    64-bit blocks succeeds, adds one block and is undone by unwrapping. *)
Class MkaCryptoLaws `{MkaCryptoLib} : Prop := {
  m_cmac_len k d : length (m_cmac k d) = 16%nat;
  m_kw_wrap_ok k d : (16 <= length d)%nat -> (length d mod 8 = 0)%nat ->
    exists w, m_kw_wrap k d = inr w /\ length w = (length d + 8)%nat
      /\ m_kw_unwrap k w = inr d;
  m_kw_unwrap_len k w d : m_kw_unwrap k w = inr d -> length w = (length d + 8)%nat;
}.

Definition mka_err (msg : string) : WifiError.t :=
  WifiError.new WifiError.HandshakeFailed msg.

Section mka.
Context `{MkaCryptoLib}.

(** ** Keys *)

Definition cmac_aes (key msg : list Z) : outcome WifiError.t (list Z) :=
  match length key with
  | 16%nat | 32%nat => Ok (m_cmac key msg)
  | n => Err (mka_err ("invalid CMAC key length " +:+ pretty n))
  end.

(** [while offset < out.len()], with the octets written so far. *)
Fixpoint aes_kdf_loop (fuel : nat) (key label context : list Z) (n : nat)
  (length_bits counter : Z) (out : list Z) : outcome WifiError.t (list Z) :=
  match fuel with
  | O => Diverge
  | S fuel =>
      if (length out <? n)%nat then
        let msg := [counter] ++ label ++ [0] ++ context ++ to_be 2 length_bits in
        tag ← map_err (fun e => mka_err ("KDF AES-CMAC: " +:+ WifiError.to_string e))
                (cmac_aes key msg);
        let take_ := Nat.min (n - length out) (length tag) in
        chunk ← slice tag 0 take_;
        if 255 <=? counter then Err (mka_err "KDF counter overflow")
        else aes_kdf_loop fuel key label context n length_bits (counter + 1)
               (out ++ chunk)
      else Ok out
  end.

(** [n] is the length of the buffer the caller passes. *)
Definition aes_kdf (key label context : list Z) (n : nat)
  : outcome WifiError.t (list Z) :=
  if 65535 <? Z.of_nat n * 8 then Err (mka_err "KDF output too long")
  else aes_kdf_loop (S n) key label context n (Z.of_nat n * 8) 1 [].

Definition keyid_from_ckn (ckn : list Z) : list Z :=
  let n := Nat.min (length ckn) 16 in
  take n ckn ++ replicate (16 - n) 0.

Definition derive_kek (cak ckn : list Z) : outcome WifiError.t (list Z) :=
  aes_kdf cak (as_bytes "IEEE8021 KEK") (keyid_from_ckn ckn) (length cak).

Definition derive_ick (cak ckn : list Z) : outcome WifiError.t (list Z) :=
  aes_kdf cak (as_bytes "IEEE8021 ICK") (keyid_from_ckn ckn) (length cak).

Definition derive_eap_cak (msk mac1 mac2 : list Z) : outcome WifiError.t (list Z) :=
  if (length msk <? 16)%nat then Err (mka_err "EAP MSK shorter than 16 octets") else
  let '(lo, hi) := if array_le mac1 mac2 then (mac1, mac2) else (mac2, mac1) in
  key ← slice msk 0 16;
  aes_kdf key (as_bytes "IEEE8021 EAP CAK") (lo ++ hi) 16.

Definition derive_eap_ckn (msk session_id mac1 mac2 : list Z)
  : outcome WifiError.t (list Z) :=
  if (length msk <? 16)%nat then Err (mka_err "EAP MSK shorter than 16 octets") else
  let '(lo, hi) := if array_le mac1 mac2 then (mac1, mac2) else (mac2, mac1) in
  key ← slice msk 0 16;
  aes_kdf key (as_bytes "IEEE8021 EAP CKN") (session_id ++ lo ++ hi) 16.

Definition wrap_key (kek plaintext : list Z) : outcome WifiError.t (list Z) :=
  match length kek with
  | 16%nat | 32%nat =>
      match m_kw_wrap kek plaintext with
      | inr out => Ok out
      | inl e => Err (mka_err ("AES key wrap: " +:+ e))
      end
  | n => Err (mka_err ("invalid KEK length " +:+ pretty n))
  end.

Definition unwrap_key (kek wrapped : list Z) : outcome WifiError.t (list Z) :=
  if (length wrapped <? 16)%nat || negb (length wrapped mod 8 =? 0)%nat
  then Err (mka_err "invalid wrapped key length") else
  match length kek with
  | 16%nat | 32%nat =>
      match m_kw_unwrap kek wrapped with
      | inr out => Ok out
      | inl e => Err (mka_err ("AES key unwrap: " +:+ e))
      end
  | n => Err (mka_err ("invalid KEK length " +:+ pretty n))
  end.

(** ** The ICV *)

Definition compute_icv (ick da sa eapol : list Z) : outcome WifiError.t (list Z) :=
  map_err (fun e => mka_err ("ICV AES-CMAC: " +:+ WifiError.to_string e))
    (cmac_aes ick (da ++ sa ++ to_be 2 0x888e ++ eapol)).

Definition verify_icv (ick da sa eapol icv : list Z) : bool :=
  match compute_icv ick da sa eapol with
  | Ok expected =>
      let diff := foldl (fun d '(a, b) => Z.lor d (Z.lxor a b)) 0 (zip expected icv) in
      diff =? 0
  | _ => false
  end.

(** ** MKPDUs *)

(** The peers at [offset + i * 16], ..., [count] of them. *)
Fixpoint read_peers (data : list Z) (offset i count : nat)
  : outcome WifiError.t (list PeerId) :=
  match count with
  | O => Ok []
  | S count' =>
      let start := (offset + i * 16)%nat in
      if (start + 16 <=? length data)%nat then
        chunk ← slice data start (start + 16);
        mi ← slice chunk 0 MI_LEN;
        mn ← be_at 4 chunk MI_LEN;
        peers ← read_peers data offset (S i) count';
        Ok (mkPeerId mi mn :: peers)
      else Ok []
  end.

(** [(n + 3) & !3]. *)
Definition align4 (n : nat) : nat := ((n + 3) / 4 * 4)%nat.

(** The 12-bit length of a parameter set. *)
Definition length12 (hi lo : Z) : nat :=
  usize (Z.lor (Z.shiftl (Z.land hi 0x0f) 8) lo).

End mka.

Module MkaPdu.

Section pdu.
Context `{MkaCryptoLib}.

Record t := mk {
  basic : MkaBasic;
  live_peers : list PeerId;
  potential_peers : list PeerId;
  sak_use : option SakUse;
  dist_sak : option DistSak;
}.

Definition parse_basic (body : list Z) : outcome WifiError.t (MkaBasic * nat) :=
  if (length body <? 32)%nat then Err (mka_err "MKPDU too short") else
  version ← idx body 0;
  priority ← idx body 1;
  flags ← idx body 2;
  low ← idx body 3;
  let basic_len := length12 flags low in
  if (basic_len <? 28)%nat || (length body <? 4 + basic_len)%nat
  then Err (mka_err "invalid Basic Parameter Set length") else
  sci ← slice body 4 12;
  mi ← slice body 12 24;
  mn ← be_at 4 body 24;
  algo_agility ← slice body 28 32;
  ckn ← slice body 32 (4 + basic_len);
  Ok (mkMkaBasic version priority (has_bit flags 0x80) (has_bit flags 0x40)
        (Z.land (Z.shiftr flags 4) 0x03) sci mi mn algo_agility ckn, basic_len).

(** Parameter set 3. *)
Definition parse_sak_use (octet2 octet3 : Z) (data : list Z)
  : outcome WifiError.t SakUse :=
  mi1 ← slice data 0 12;
  kn1 ← be_at 4 data 12;
  mi2 ← slice data 20 32;
  kn2 ← be_at 4 data 32;
  llpn1 ← be_at 4 data 16;
  llpn2 ← be_at 4 data 36;
  Ok {| latest_an := Z.land (Z.shiftr octet2 6) 0x03;
        latest_tx := has_bit octet2 0x20;
        latest_rx := has_bit octet2 0x10;
        old_an := Z.land (Z.shiftr octet2 2) 0x03;
        old_tx := has_bit octet2 0x02;
        old_rx := has_bit octet2 0x01;
        plain_tx := has_bit octet3 0x80;
        plain_rx := has_bit octet3 0x40;
        delay_protect := has_bit octet3 0x10;
        latest_ki := mkKeyId mi1 kn1;
        latest_llpn := llpn1;
        old_ki := mkKeyId mi2 kn2;
        old_llpn := llpn2 |}.

(** Parameter set 4. *)
Definition parse_dist_sak (octet2 : Z) (len : nat) (data : list Z)
  : outcome WifiError.t DistSak :=
  '(cipher_suite, kn) ←
    (if (4 <=? len)%nat then
       kn ← be_at 4 data 0;
       cs ← (if (36 <=? len)%nat then s ← slice data 4 12; Ok (Some s) else Ok None);
       Ok (cs, kn)
     else Ok (None, 0));
  let wrapped_start := (4 + match cipher_suite with Some _ => 8 | None => 0 end)%nat in
  wrapped_sak ←
    (if (len =? 0)%nat then Ok []
     else if (wrapped_start <=? length data)%nat then slice_from data wrapped_start
     else Ok []);
  Ok (mkDistSak (Z.land (Z.shiftr octet2 6) 0x03) (Z.land (Z.shiftr octet2 4) 0x03)
        kn cipher_suite wrapped_sak).

(** One parameter set, added to what was read before it. *)
Definition parse_set (type_ octet2 octet3 : Z) (len : nat) (data : list Z) (acc : t)
  : outcome WifiError.t t :=
  match type_ with
  | 1 =>
      if negb (len mod 16 =? 0)%nat then Err (mka_err "invalid Live Peer List length")
      else peers ← read_peers data 0 0 (len / 16);
           Ok (mk (basic acc) peers (potential_peers acc) (sak_use acc) (dist_sak acc))
  | 2 =>
      if negb (len mod 16 =? 0)%nat
      then Err (mka_err "invalid Potential Peer List length")
      else peers ← read_peers data 0 0 (len / 16);
           Ok (mk (basic acc) (live_peers acc) peers (sak_use acc) (dist_sak acc))
  | 3 =>
      if (40 <=? len)%nat then
        u ← parse_sak_use octet2 octet3 data;
        Ok (mk (basic acc) (live_peers acc) (potential_peers acc) (Some u) (dist_sak acc))
      else Ok acc
  | 4 =>
      d ← parse_dist_sak octet2 len data;
      Ok (mk (basic acc) (live_peers acc) (potential_peers acc) (sak_use acc) (Some d))
  | _ => Ok acc
  end.

(** [while pos + 4 <= body.len()]. *)
Fixpoint parse_sets (fuel : nat) (body : list Z) (pos : nat) (acc : t)
  : outcome WifiError.t t :=
  match fuel with
  | O => Diverge
  | S fuel =>
      if (pos + 4 <=? length body)%nat then
        type_ ← idx body pos;
        octet2 ← idx body (pos + 1);
        octet3 ← idx body (pos + 2);
        octet4 ← idx body (pos + 3);
        let len := length12 octet3 octet4 in
        let start := (pos + 4)%nat in
        let end_ := (start + len)%nat in
        if (length body <? end_)%nat then Err (mka_err "truncated MKPDU parameter set")
        else
          data ← slice body start end_;
          acc' ← parse_set type_ octet2 octet3 len data acc;
          parse_sets fuel body (start + align4 len) acc'
      else Ok acc
  end.

Definition parse_body (body : list Z) : outcome WifiError.t t :=
  '(basic, basic_len) ← parse_basic body;
  parse_sets (S (length body)) body (4 + align4 basic_len) (mk basic [] [] None None).

Definition parse (eapol da sa ick : list Z) : outcome WifiError.t (option t) :=
  if (length eapol <? 4)%nat then Ok None else
  type_ ← idx eapol 1;
  if negb (type_ =? EAPOL_TYPE_MKA) then Ok None else
  body_len ← (n ← be16_at eapol 2; Ok (usize n));
  if (body_len <? ICV_LEN + 4)%nat || (length eapol <? 4 + body_len)%nat
  then Err (mka_err "truncated EAPOL-MKA frame")
  else if negb (body_len mod 4 =? 0)%nat
  then Err (mka_err "EAPOL-MKA body length is not a multiple of 4") else
  let icv_start := (4 + body_len - ICV_LEN)%nat in
  signed ← slice eapol 0 icv_start;
  icv ← slice_from eapol icv_start;
  if negb (verify_icv ick da sa signed icv) then Err (mka_err "invalid MKPDU ICV") else
  body ← slice eapol 4 icv_start;
  pdu ← parse_body body;
  Ok (Some pdu).

(** *** Encoding *)

(** [while body.len() % 4 != 0 { body.push(0) }]. *)
Definition pad4 (body : list Z) : list Z :=
  body ++ replicate (align4 (length body) - length body) 0.

(** [((n >> 8) & 0x0f) as u8]. *)
Definition hi4 (n : nat) : Z := Z.land (Z.shiftr (Z.of_nat n) 8) 0x0f.

(** [x << k] for a [u8]. *)
Definition shl8 (x k : Z) : Z := as_u8 (Z.shiftl x k).

Definition encode_basic (b : MkaBasic) : list Z :=
  let basic_len := (28 + length (b_ckn b))%nat in
  let flags :=
    Z.lor (Z.lor (Z.lor (shl8 (u8_of_bool (b_key_server b)) 7)
                        (shl8 (u8_of_bool (b_macsec_desired b)) 6))
                 (shl8 (Z.land (b_macsec_capability b) 0x03) 4))
          (hi4 basic_len) in
  [b_version b; b_priority b; flags; as_u8 (Z.of_nat basic_len)]
  ++ b_sci b ++ b_mi b ++ to_be 4 (b_mn b) ++ b_algo_agility b ++ b_ckn b.

Definition encode_peer (p : PeerId) : list Z := pi_mi p ++ to_be 4 (pi_mn p).

Definition encode_peers (type_ : Z) (peers : list PeerId) : list Z :=
  let len := (length peers * 16)%nat in
  [type_; 0; hi4 len; as_u8 (Z.of_nat len)] ++ concat (encode_peer <$> peers).

Definition encode_key_id (k : KeyId) : list Z := ki_mi k ++ to_be 4 (ki_kn k).

Definition encode_sak_use (u : SakUse) : list Z :=
  let octet2 :=
    Z.lor (Z.lor (Z.lor (Z.lor (Z.lor (shl8 (Z.land (latest_an u) 0x03) 6)
      (shl8 (u8_of_bool (latest_tx u)) 5)) (shl8 (u8_of_bool (latest_rx u)) 4))
      (shl8 (Z.land (old_an u) 0x03) 2)) (shl8 (u8_of_bool (old_tx u)) 1))
      (u8_of_bool (old_rx u)) in
  let octet3 :=
    Z.lor (Z.lor (Z.lor (shl8 (u8_of_bool (plain_tx u)) 7)
      (shl8 (u8_of_bool (plain_rx u)) 6)) (shl8 (u8_of_bool (delay_protect u)) 4))
      (hi4 40) in
  [3; octet2; octet3; 40]
  ++ encode_key_id (latest_ki u) ++ to_be 4 (latest_llpn u)
  ++ encode_key_id (old_ki u) ++ to_be 4 (old_llpn u).

Definition encode_dist_sak (d : DistSak) : list Z :=
  let len := (4 + length (d_wrapped_sak d))%nat in
  let octet2 := Z.lor (shl8 (Z.land (d_an d) 0x03) 6)
                      (shl8 (Z.land (d_confidentiality_offset d) 0x03) 4) in
  [4; octet2; hi4 len; as_u8 (Z.of_nat len)] ++ to_be 4 (d_kn d) ++ d_wrapped_sak d.

Definition encode_body (pdu : t) : list Z :=
  let body := pad4 (encode_basic (basic pdu)) in
  let body := match live_peers pdu with
              | [] => body | ps => pad4 (body ++ encode_peers 1 ps) end in
  let body := match potential_peers pdu with
              | [] => body | ps => pad4 (body ++ encode_peers 2 ps) end in
  let body := match sak_use pdu with
              | None => body | Some u => body ++ encode_sak_use u end in
  match dist_sak pdu with
  | None => body | Some d => pad4 (body ++ encode_dist_sak d)
  end.

Definition build_eapol (pdu : t) (da sa ick : list Z) : outcome WifiError.t (list Z) :=
  let body := encode_body pdu in
  let len := Z.of_nat (length body + ICV_LEN) in
  if 65535 <? len then Err (mka_err "MKPDU too long") else
  let eapol := [EAPOL_VERSION; EAPOL_TYPE_MKA] ++ to_be 2 len ++ body in
  icv ← compute_icv ick da sa eapol;
  Ok (eapol ++ icv).

End pdu.

End MkaPdu.

(** ** Configuration *)

Module MacsecConfig.

Record t := mk {
  cak : list Z;
  ckn : list Z;
  key_server_priority : Z;
  can_be_key_server : bool;
  macsec_iface : option string;
  replay_window : Z;
  encrypt : bool;
}.

Definition new (cak ckn : list Z) : t := mk cak ckn 0xff false None 0 true.

Definition default : t := mk [] [] 0xff false None 0 true.

Definition macsec_iface_name (c : t) : string :=
  match macsec_iface c with Some n => n | None => "macsec0" end.

Definition validate (c : t) : outcome WifiError.t unit :=
  if negb ((length (cak c) =? 16)%nat || (length (cak c) =? 32)%nat) then
    Err (mka_err ("MKA CAK must be 16 or 32 octets, got " +:+ pretty (length (cak c))))
  else if bool_decide (ckn c = []) || (32 <? length (ckn c))%nat then
    Err (mka_err ("MKA CKN must be 1..=32 octets, got " +:+ pretty (length (ckn c))))
  else Ok tt.

End MacsecConfig.

(** ** Facts *)

Module MkaFacts.
Import MkaPdu.

(** *** Bits *)

(** A decidable property of the small integers, by evaluation. *)
Lemma below_all (n : nat) (P : Z -> bool) :
  forallb P (Z.of_nat <$> seq 0 n) = true ->
  forall z, 0 <= z < Z.of_nat n -> P z = true.
Proof.
  intros Hall z Hz. rewrite forallb_forall in Hall. apply Hall.
  apply list_elem_of_In, list_elem_of_fmap. exists (Z.to_nat z).
  rewrite Z2Nat.id by lia. split; [done|]. apply elem_of_seq. lia.
Qed.

Lemma lor_shiftl_small a b k :
  0 <= k -> 0 <= b < 2 ^ k -> Z.lor (Z.shiftl a k) b = a * 2 ^ k + b.
Proof.
  intros Hk Hb. assert (Hl : Z.land (Z.shiftl a k) b = 0).
  { destruct (Z.eq_dec b 0) as [->|Hb0]; [apply Z.land_0_r|].
    apply Z.bits_inj'. intros n Hn. rewrite Z.land_spec, Z.bits_0.
    destruct (Z.lt_ge_cases n k).
    - by rewrite Z.shiftl_spec_low.
    - rewrite (Z.bits_above_log2 b n), andb_false_r; [done|lia|].
      apply Z.log2_lt_pow2; [lia|]. apply (Z.lt_le_trans _ (2 ^ k)); [lia|].
      by apply Z.pow_le_mono_r. }
  pose proof (Z.add_lor_land (Z.shiftl a k) b). rewrite Z.shiftl_mul_pow2 in * by done. lia.
Qed.

Lemma hi4_val n : (n < 4096)%nat -> hi4 n = Z.of_nat n / 256 /\ 0 <= hi4 n < 16.
Proof.
  intros Hn. unfold hi4. change 0x0f with (Z.ones 4).
  rewrite Z.land_ones, Z.shiftr_div_pow2 by lia. change (2 ^ 8) with 256. change (2 ^ 4) with 16.
  assert (0 <= Z.of_nat n / 256 < 16).
  { split; [apply Z.div_pos; lia|]. apply Z.div_lt_upper_bound; lia. }
  rewrite Z.mod_small by done. lia.
Qed.

Lemma length12_octets o3 n :
  (n < 4096)%nat -> Z.land o3 0x0f = hi4 n -> length12 o3 (as_u8 (Z.of_nat n)) = n.
Proof.
  intros Hn Ho. unfold length12. rewrite Ho. destruct (hi4_val n Hn) as [-> _].
  unfold wrap. rewrite lor_shiftl_small; [|lia|apply Z.mod_pos_bound; lia].
  change (2 ^ 8) with 256. rewrite Z.mul_comm, <- Z.div_mod by lia. by rewrite Nat2Z.id.
Qed.

Lemma land_hi4 n : (n < 4096)%nat -> Z.land (hi4 n) 0x0f = hi4 n.
Proof.
  intros Hn. destruct (hi4_val n Hn) as [_ Hb]. change 0x0f with (Z.ones 4).
  rewrite Z.land_ones by lia. by apply Z.mod_small.
Qed.

(** The flags octet of the Basic Parameter Set holds its four fields. *)
Definition basic_flags (ks md : bool) (cap h : Z) : Z :=
  Z.lor (Z.lor (Z.lor (shl8 (u8_of_bool ks) 7) (shl8 (u8_of_bool md) 6))
               (shl8 (Z.land cap 0x03) 4)) h.

Definition flags_hold (f : Z) (ks md : bool) (cap h : Z) : Prop :=
  has_bit f 0x80 = ks /\ has_bit f 0x40 = md
  /\ Z.land (Z.shiftr f 4) 0x03 = cap /\ Z.land f 0x0f = h.

#[local] Instance flags_hold_dec f ks md cap h : Decision (flags_hold f ks md cap h).
Proof. unfold flags_hold. apply _. Defined.

Lemma basic_flags_fields ks md cap h :
  0 <= cap < 4 -> 0 <= h < 16 ->
  flags_hold (basic_flags ks md cap h) ks md cap h.
Proof.
  intros Hc Hh.
  pose proof (below_all 4 (fun c => forallb (fun h' =>
    bool_decide (flags_hold (basic_flags ks md c h') ks md c h'))
    (Z.of_nat <$> seq 0 16)) ltac:(by destruct ks, md; vm_compute) cap Hc) as Hall.
  apply (below_all 16 _ Hall h) in Hh. by apply bool_decide_eq_true in Hh.
Qed.

(** The octets of the SAK Use parameter set. *)
Definition use_octet2 (la oa : Z) (lt lr ot or : bool) : Z :=
  Z.lor (Z.lor (Z.lor (Z.lor (Z.lor (shl8 (Z.land la 0x03) 6) (shl8 (u8_of_bool lt) 5))
    (shl8 (u8_of_bool lr) 4)) (shl8 (Z.land oa 0x03) 2)) (shl8 (u8_of_bool ot) 1))
    (u8_of_bool or).

Lemma use_octet2_fields la oa lt lr ot or :
  0 <= la < 4 -> 0 <= oa < 4 ->
  let o := use_octet2 la oa lt lr ot or in
  Z.land (Z.shiftr o 6) 0x03 = la /\ has_bit o 0x20 = lt /\ has_bit o 0x10 = lr
  /\ Z.land (Z.shiftr o 2) 0x03 = oa /\ has_bit o 0x02 = ot /\ has_bit o 0x01 = or.
Proof.
  intros Hl Ho.
  assert (la = 0 \/ la = 1 \/ la = 2 \/ la = 3) as [ | [ | [ | ]]] by lia;
  assert (oa = 0 \/ oa = 1 \/ oa = 2 \/ oa = 3) as [ | [ | [ | ]]] by lia; subst;
    destruct lt, lr, ot, or; vm_compute; repeat split.
Qed.

Definition use_octet3 (pt pr dp : bool) : Z :=
  Z.lor (Z.lor (Z.lor (shl8 (u8_of_bool pt) 7) (shl8 (u8_of_bool pr) 6))
    (shl8 (u8_of_bool dp) 4)) (hi4 40).

Lemma use_octet3_fields pt pr dp :
  let o := use_octet3 pt pr dp in
  has_bit o 0x80 = pt /\ has_bit o 0x40 = pr /\ has_bit o 0x10 = dp
  /\ length12 o 40 = 40%nat.
Proof. destruct pt, pr, dp; vm_compute; repeat split. Qed.

Lemma dist_octet2_fields an off :
  0 <= an < 4 -> 0 <= off < 4 ->
  let o := Z.lor (shl8 (Z.land an 0x03) 6) (shl8 (Z.land off 0x03) 4) in
  Z.land (Z.shiftr o 6) 0x03 = an /\ Z.land (Z.shiftr o 4) 0x03 = off.
Proof.
  intros Ha Ho.
  assert (an = 0 \/ an = 1 \/ an = 2 \/ an = 3) as [ | [ | [ | ]]] by lia;
  assert (off = 0 \/ off = 1 \/ off = 2 \/ off = 3) as [ | [ | [ | ]]] by lia; subst;
    vm_compute; repeat split.
Qed.

(** *** Alignment *)

Lemma align4_bounds n : (n <= align4 n < n + 4)%nat /\ (align4 n mod 4 = 0)%nat.
Proof.
  unfold align4. pose proof (Nat.div_mod (n + 3) 4). pose proof (Nat.mod_upper_bound (n + 3) 4).
  split; [lia|]. apply Nat.Div0.mod_mul.
Qed.

Lemma align4_add a b : (a mod 4 = 0)%nat -> align4 (a + b) = (a + align4 b)%nat.
Proof.
  intros Ha. unfold align4. pose proof (Nat.div_mod a 4).
  replace (a + b + 3)%nat with (a / 4 * 4 + (b + 3))%nat by lia.
  rewrite Nat.div_add_l by lia. lia.
Qed.

Lemma align4_id n : (n mod 4 = 0)%nat -> align4 n = n.
Proof.
  intros Hn. pose proof (align4_add n 0 Hn) as Ha. rewrite Nat.add_0_r in Ha.
  rewrite Ha. unfold align4. cbn. lia.
Qed.

Lemma length_pad4 l : length (pad4 l) = align4 (length l).
Proof. unfold pad4. pose proof (align4_bounds (length l)). len_lia. Qed.

Lemma pad4_app a b : (length a mod 4 = 0)%nat -> pad4 (a ++ b) = a ++ pad4 b.
Proof.
  intros Ha. unfold pad4. rewrite length_app, align4_add, <- app_assoc by done.
  do 3 f_equal. lia.
Qed.

Lemma pad4_id a : (length a mod 4 = 0)%nat -> pad4 a = a.
Proof.
  intros Ha. unfold pad4. rewrite align4_id, Nat.sub_diag by done. apply app_nil_r.
Qed.

(** *** Decoding never panics *)

Lemma returns_read_peers data offset i count : returns (read_peers data offset i count).
Proof.
  revert i. induction count as [|count IH]; intros i; [done|]. cbn [read_peers].
  destruct (Nat.leb_spec (offset + i * 16 + 16) (length data)); [|done].
  apply returns_bind; [apply returns_slice; lia|]. intros chunk Hc%slice_length.
  apply returns_bind; [apply returns_slice; unfold MI_LEN; lia|]. intros mi _.
  apply returns_bind; [apply returns_be; unfold MI_LEN; lia|]. intros mn _.
  apply returns_bind; [apply IH|done].
Qed.

Lemma returns_parse_set ty o2 o3 len data acc :
  length data = len -> returns (parse_set ty o2 o3 len data acc).
Proof.
  intros Hl. unfold parse_set.
  destruct ty as [|[[p|p|]|[[p|p|]|[p|p|]|]|]|p]; try done.
  - destruct (Nat.leb_spec 40 len); [|done]. apply returns_bind; [|done].
    unfold parse_sak_use. repeat (apply returns_bind; [|intros ? _]); try done;
      first [apply returns_slice; lia|apply returns_be; lia].
  - apply returns_bind; [|done]. unfold parse_dist_sak. apply returns_bind.
    + destruct (Nat.leb_spec 4 len); [|done]. apply returns_bind; [apply returns_be; lia|].
      intros kn _. apply returns_bind; [|done]. destruct (Nat.leb_spec 36 len); [|done].
      apply returns_bind; [apply returns_slice; lia|done].
    + intros [cs kn] _. apply returns_bind; [|done]. destruct (len =? 0)%nat; [done|].
      destruct (Nat.leb_spec (4 + match cs with Some _ => 8 | None => 0 end) (length data));
        [|done]. apply returns_slice; lia.
  - destruct (negb _); [done|]. apply returns_bind; [apply returns_read_peers|done].
  - destruct (negb _); [done|]. apply returns_bind; [apply returns_read_peers|done].
Qed.

Lemma returns_parse_sets fuel body pos acc :
  (length body - pos < fuel)%nat -> returns (parse_sets fuel body pos acc).
Proof.
  revert pos acc. induction fuel as [|fuel IH]; intros pos acc Hf; [lia|]. cbn [parse_sets].
  destruct (Nat.leb_spec (pos + 4) (length body)); [|done].
  do 4 (apply returns_bind; [apply returns_idx; lia|intros ? _]).
  destruct (Nat.ltb_spec (length body) (pos + 4 + length12 a1 a2)); [done|].
  apply returns_bind; [apply returns_slice; lia|]. intros data Hd%slice_length.
  apply returns_bind; [apply returns_parse_set; lia|]. intros acc' _. apply IH. lia.
Qed.

Lemma returns_parse_basic body : returns (parse_basic body).
Proof.
  unfold parse_basic. destruct (Nat.ltb_spec (length body) 32); [done|].
  do 4 (apply returns_bind; [apply returns_idx; lia|intros ? _]).
  destruct (Nat.ltb_spec (length12 a1 a2) 28); [done|].
  destruct (Nat.ltb_spec (length body) (4 + length12 a1 a2)); [done|]. cbn [orb].
  repeat (apply returns_bind; [|intros ? _]); try done;
    first [apply returns_slice; lia|apply returns_be; lia].
Qed.

Lemma returns_parse_body body : returns (parse_body body).
Proof.
  apply returns_bind; [apply returns_parse_basic|]. intros [b n] _.
  apply returns_parse_sets. lia.
Qed.

Lemma returns_parse `{MkaCryptoLib} eapol da sa ick : returns (parse eapol da sa ick).
Proof.
  unfold parse. destruct (Nat.ltb_spec (length eapol) 4); [done|].
  apply returns_bind; [apply returns_idx; lia|]. intros ty _. destruct (negb _); [done|].
  apply returns_bind; [apply returns_bind; [apply returns_be16; lia|done]|]. intros n _.
  destruct (Nat.ltb_spec n (ICV_LEN + 4)); [done|].
  destruct (Nat.ltb_spec (length eapol) (4 + n)); [done|]. cbn [orb].
  destruct (negb _); [done|]. unfold ICV_LEN in *.
  apply returns_bind; [apply returns_slice; lia|]. intros signed _.
  apply returns_bind; [apply returns_slice; lia|]. intros icv _. destruct (negb _); [done|].
  apply returns_bind; [apply returns_slice; lia|]. intros body _.
  apply returns_bind; [apply returns_parse_body|done].
Qed.

(** *** The ICV *)

Section icv.
Context `{MkaCryptoLaws}.

Lemma foldl_diff l d :
  foldl (fun d '(a, b) => Z.lor d (Z.lxor a b)) d l = 0
  <-> d = 0 /\ Forall (fun '(a, b) => a = b) l.
Proof using Type.
  revert d. induction l as [|[a b] l IH]; intros d; cbn [foldl].
  - split; [by intros ->|by intros [-> _]].
  - rewrite IH, Z.lor_eq_0_iff, Z.lxor_eq_0_iff, Forall_cons. tauto.
Qed.

Lemma zip_diag (l m : list Z) :
  (length l <= length m)%nat ->
  Forall (fun '(a, b) => a = b) (zip l m) <-> l = take (length l) m.
Proof using Type.
  revert m. induction l as [|a l IH]; intros [|b m] Hl; cbn in *; try done; [lia|].
  rewrite Forall_cons, IH by lia. split; [intros [-> Hm]; by f_equal|].
  by intros [= -> Hm].
Qed.

Lemma cmac_aes_cases key msg :
  cmac_aes key msg = Ok (m_cmac key msg) /\ (length key = 16 \/ length key = 32)%nat
  \/ exists e, cmac_aes key msg = Err e.
Proof using Type.
  unfold cmac_aes. destruct (decide (length key = 16 \/ length key = 32)%nat) as [[Hk|Hk]|Hk].
  - left. rewrite Hk. auto.
  - left. rewrite Hk. auto.
  - right. revert Hk. generalize (length key). intros n Hn.
    do 33 (destruct n as [|n]; [first [lia|by eexists]|]).
    by eexists.
Qed.

Lemma compute_icv_len ick da sa eapol icv :
  compute_icv ick da sa eapol = Ok icv -> length icv = ICV_LEN.
Proof using All.
  unfold compute_icv.
  destruct (cmac_aes_cases ick (da ++ sa ++ to_be 2 0x888e ++ eapol)) as [[-> _]|[e ->]];
    [|done]. intros <-%Ok_inj. apply m_cmac_len.
Qed.

Lemma verify_icv_iff ick da sa eapol icv :
  (ICV_LEN <= length icv)%nat ->
  verify_icv ick da sa eapol icv = true
  <-> compute_icv ick da sa eapol = Ok (take ICV_LEN icv).
Proof using All.
  intros Hl. unfold verify_icv.
  destruct (compute_icv ick da sa eapol) as [x| | |] eqn:Hx; try by split.
  apply compute_icv_len in Hx.
  rewrite Z.eqb_eq, foldl_diff, zip_diag, Hx by lia.
  split; [by intros [_ ->]|by intros ->%Ok_inj].
Qed.


End icv.

(** *** Well-formed PDUs *)

Definition wf_key_id (k : KeyId) : Prop := length (ki_mi k) = MI_LEN /\ fits 32 (ki_kn k).
Definition wf_peer (p : PeerId) : Prop := length (pi_mi p) = MI_LEN /\ fits 32 (pi_mn p).

(** Values of the struct's field types, with a CKN the 12-bit length can carry. *)
Definition wf_basic (b : MkaBasic) : Prop :=
  0 <= b_macsec_capability b < 4 /\ length (b_sci b) = 8%nat
  /\ length (b_mi b) = MI_LEN /\ fits 32 (b_mn b) /\ length (b_algo_agility b) = 4%nat
  /\ (length (b_ckn b) <= 4067)%nat.

Definition wf_use (u : SakUse) : Prop :=
  0 <= latest_an u < 4 /\ 0 <= old_an u < 4 /\ wf_key_id (latest_ki u)
  /\ fits 32 (latest_llpn u) /\ wf_key_id (old_ki u) /\ fits 32 (old_llpn u).

(** The encoder writes no cipher suite, so a parameter set it writes must stay
    below the 36 octets that announce one. *)
Definition wf_dist (d : DistSak) : Prop :=
  0 <= d_an d < 4 /\ 0 <= d_confidentiality_offset d < 4 /\ fits 32 (d_kn d)
  /\ d_cipher_suite d = None /\ (length (d_wrapped_sak d) < 32)%nat.

Definition wf_peers (l : list PeerId) : Prop := Forall wf_peer l /\ (length l <= 255)%nat.

Definition wf_pdu (pdu : t) : Prop :=
  wf_basic (basic pdu) /\ wf_peers (live_peers pdu) /\ wf_peers (potential_peers pdu)
  /\ match sak_use pdu with Some u => wf_use u | None => True end
  /\ match dist_sak pdu with Some d => wf_dist d | None => True end.

#[export] Instance wf_pdu_dec pdu : Decision (wf_pdu pdu).
Proof.
  unfold wf_pdu, wf_basic, wf_peers, wf_peer, wf_use, wf_dist, wf_key_id. destruct (sak_use pdu), (dist_sak pdu); apply _.
Defined.

(** *** Round trip *)

Lemma encode_peer_len p : wf_peer p -> length (encode_peer p) = 16%nat.
Proof. intros [Hm _]. unfold encode_peer, MI_LEN in *. len_lia. Qed.

Lemma encode_peers_data_len l :
  Forall wf_peer l -> length (concat (encode_peer <$> l)) = (length l * 16)%nat.
Proof.
  induction 1 as [|p l Hp _ IH]; [done|]. cbn [fmap list_fmap concat].
  rewrite length_app, IH, encode_peer_len by done. cbn. lia.
Qed.

Lemma read_peers_encode pre l i :
  Forall wf_peer l -> length pre = (i * 16)%nat ->
  read_peers (pre ++ concat (encode_peer <$> l)) 0 i (length l) = Ok l.
Proof.
  intros Hl. revert pre i. induction Hl as [|p l Hp Hl IH]; intros pre i Hpre; [done|].
  cbn [length read_peers fmap list_fmap concat].
  pose proof (encode_peer_len p Hp). rewrite Nat.add_0_l.
  replace (i * 16 + 16 <=? _)%nat with true by (symmetry; apply Nat.leb_le; len_lia).
  rewrite slice_mid by lia. cbn [mbind outcome_bind]. destruct Hp as [Hm Hn].
  unfold encode_peer. rewrite slice_head by done. cbn [mbind outcome_bind].
  rewrite <- (app_nil_r (to_be 4 _)), (be_mid 4 (pi_mi p) (pi_mn p) [] MI_LEN (eq_sym Hm) Hn).
  cbn [mbind outcome_bind]. rewrite app_nil_r. fold (encode_peer p). rewrite app_assoc, IH by (rewrite length_app; lia).
  cbn [mbind outcome_bind]. by destruct p.
Qed.

(** Enough fuel to read the rest of the body. *)
Definition enough (fuel : nat) (body : list Z) (pos : nat) : Prop :=
  (length body - pos < fuel)%nat.

(** [parse_sets] from any position where the body goes on with [rest]. *)
Definition parses (body rest : list Z) (acc r : t) : Prop :=
  forall fuel pos, (pos <= length body)%nat -> drop pos body = rest ->
    enough fuel body pos -> parse_sets fuel body pos acc = Ok r.

Lemma parses_nil body acc : parses body [] acc acc.
Proof.
  intros [|fuel] pos Hp Hd Hf; unfold enough in Hf; [lia|]. cbn [parse_sets].
  pose proof (cursor_length _ _ _ Hd Hp) as Hl. cbn in Hl.
  by replace (pos + 4 <=? length body)%nat with false by lia.
Qed.

(** One parameter set. *)
Lemma parses_set body ty o2 o3 o4 data rest acc acc' r :
  length12 o3 o4 = length data ->
  parse_set ty o2 o3 (length data) data acc = Ok acc' ->
  parses body rest acc' r ->
  parses body (pad4 ([ty; o2; o3; o4] ++ data) ++ rest) acc r.
Proof.
  intros Hl Hs Hr [|fuel] pos Hp Hd Hf; unfold enough in Hf; [lia|]. cbn [parse_sets].
  pose proof (align4_bounds (length data)) as [Hal _].
  assert (Hd' : drop pos body = [ty; o2; o3; o4] ++ data
    ++ replicate (align4 (length data) - length data) 0 ++ rest).
  { rewrite Hd, pad4_app by done. unfold pad4. by rewrite <- !app_assoc. }
  pose proof (cursor_length _ _ _ Hd' Hp) as Hlen. rewrite !length_app in Hlen.
  change (length [ty; o2; o3; o4]) with 4%nat in Hlen.
  rewrite length_replicate in Hlen.
  replace (pos + 4 <=? length body)%nat with true by lia.
  rewrite (idx_cursor_0 _ _ _ Hd'), !(idx_cursor _ _ _ _ Hd').
  unfold idx. cbn [app lookup list_lookup mbind outcome_bind]. rewrite Hl.
  replace (length body <? pos + 4 + length data)%nat with false by lia.
  assert (Hd4 : drop (pos + 4) body = data
    ++ replicate (align4 (length data) - length data) 0 ++ rest)
    by (by apply (drop_cursor _ _ [ty; o2; o3; o4])).
  assert (Hp4 : (pos + 4 <= length body)%nat) by lia.
  rewrite (slice_cursor_0 _ _ _ _ Hp4 Hd4), slice_head by done.
  cbn [mbind outcome_bind]. rewrite Hs. cbn [mbind outcome_bind].
  apply Hr; [lia| |unfold enough; lia].
  rewrite app_assoc in Hd4. apply (drop_cursor _ _ _ _ _ Hd4). len_lia.
Qed.

Lemma parses_peers body ty l rest acc r :
  wf_peers l -> l <> [] ->
  (forall data, read_peers data 0 0 (length l) = Ok l ->
     parse_set ty 0 (hi4 (length l * 16)) (length l * 16) data acc
     = (peers ← Ok l; Ok match ty with
                          | 1 => mk (basic acc) peers (potential_peers acc)
                                   (sak_use acc) (dist_sak acc)
                          | _ => mk (basic acc) (live_peers acc) peers
                                   (sak_use acc) (dist_sak acc)
                          end)) ->
  parses body rest
    match ty with
    | 1 => mk (basic acc) l (potential_peers acc) (sak_use acc) (dist_sak acc)
    | _ => mk (basic acc) (live_peers acc) l (sak_use acc) (dist_sak acc)
    end r ->
  parses body (pad4 (encode_peers ty l) ++ rest) acc r.
Proof.
  intros [Hl Hn] Hne Hset Hr. pose proof (encode_peers_data_len l Hl) as Hd.
  eapply parses_set; [..|exact Hr].
  - rewrite Hd. apply length12_octets; [lia|]. apply land_hi4. lia.
  - rewrite Hd, Hset; [done|]. by apply (read_peers_encode []).
Qed.

Lemma parses_live body l rest acc r :
  wf_peers l ->
  parses body rest (mk (basic acc) l (potential_peers acc) (sak_use acc) (dist_sak acc)) r ->
  l <> [] -> parses body (pad4 (encode_peers 1 l) ++ rest) acc r.
Proof.
  intros Hl Hr Hne. apply (parses_peers body 1 l rest acc r Hl Hne); [|exact Hr].
  intros data Hd. unfold parse_set. rewrite Nat.Div0.mod_mul, Nat.div_mul, Hd by lia. done.
Qed.

Lemma parses_potential body l rest acc r :
  wf_peers l ->
  parses body rest (mk (basic acc) (live_peers acc) l (sak_use acc) (dist_sak acc)) r ->
  l <> [] -> parses body (pad4 (encode_peers 2 l) ++ rest) acc r.
Proof.
  intros Hl Hr Hne. apply (parses_peers body 2 l rest acc r Hl Hne); [|exact Hr].
  intros data Hd. unfold parse_set. rewrite Nat.Div0.mod_mul, Nat.div_mul, Hd by lia. done.
Qed.

Lemma encode_sak_use_len u : wf_use u -> length (encode_sak_use u) = 44%nat.
Proof.
  intros (_ & _ & [H1 _] & _ & [H2 _] & _). unfold encode_sak_use, encode_key_id, MI_LEN in *.
  rewrite !length_app, !length_to_be, H1, H2. done.
Qed.

Lemma parse_sak_use_encode u :
  wf_use u ->
  parse_sak_use (use_octet2 (latest_an u) (old_an u) (latest_tx u) (latest_rx u)
                   (old_tx u) (old_rx u))
    (use_octet3 (plain_tx u) (plain_rx u) (delay_protect u))
    (encode_key_id (latest_ki u) ++ to_be 4 (latest_llpn u)
     ++ encode_key_id (old_ki u) ++ to_be 4 (old_llpn u)) = Ok u.
Proof.
  intros (Hla & Hoa & [Hm1 Hk1] & Hp1 & [Hm2 Hk2] & Hp2). unfold MI_LEN in *.
  destruct u as [la lt lr oa ot or pt pr dp [mi1 kn1] lp [mi2 kn2] op]. cbn in *.
  unfold parse_sak_use, encode_key_id. cbn [ki_mi ki_kn]. rewrite <- !app_assoc.
  set (data := mi1 ++ _).
  assert (H0 : drop 0 data = mi1 ++ to_be 4 kn1 ++ to_be 4 lp ++ mi2 ++ to_be 4 kn2
    ++ to_be 4 op ++ []) by (unfold data; by rewrite app_nil_r).
  pose proof (drop_cursor _ _ _ _ 12 H0 ltac:(lia)) as H12.
  pose proof (drop_cursor _ _ _ _ 4 H12 ltac:(by rewrite length_to_be)) as H16.
  pose proof (drop_cursor _ _ _ _ 4 H16 ltac:(by rewrite length_to_be)) as H20.
  pose proof (drop_cursor _ _ _ _ 12 H20 ltac:(lia)) as H32.
  pose proof (drop_cursor _ _ _ _ 4 H32 ltac:(by rewrite length_to_be)) as H36.
  cbn [Nat.add] in *.
  assert (Hlen : length data = 40%nat) by (unfold data; rewrite !length_app, !length_to_be; lia).
  assert (Hsl : forall i j m s, drop i data = m ++ s -> j = (i + length m)%nat ->
    (i <= 40)%nat -> slice (E:=WifiError.t) data i j = Ok m).
  { intros i j m s Hd -> Hi. rewrite <- Hlen in Hi.
    rewrite (slice_cursor_0 _ _ _ _ Hi Hd). by apply slice_head. }
  assert (Hbe : forall i x s, drop i data = to_be 4 x ++ s -> fits 32 x -> (i <= 40)%nat ->
    be_at (E:=WifiError.t) 4 data i = Ok x).
  { intros i x s Hd Hx Hi. unfold be_at.
    rewrite (Hsl i (i + 4)%nat _ _ Hd) by (rewrite ?length_to_be; done).
    cbn. by rewrite from_be_to_be_small. }
  rewrite (Hsl 0%nat 12%nat _ _ H0 ltac:(lia) ltac:(lia)). cbn [mbind outcome_bind].
  rewrite (Hbe 12%nat _ _ H12 Hk1 ltac:(lia)). cbn [mbind outcome_bind].
  rewrite (Hsl 20%nat 32%nat _ _ H20 ltac:(lia) ltac:(lia)). cbn [mbind outcome_bind].
  rewrite (Hbe 32%nat _ _ H32 Hk2 ltac:(lia)). cbn [mbind outcome_bind].
  rewrite (Hbe 16%nat _ _ H16 Hp1 ltac:(lia)). cbn [mbind outcome_bind].
  rewrite (Hbe 36%nat _ _ H36 Hp2 ltac:(lia)). cbn [mbind outcome_bind].
  destruct (use_octet2_fields la oa lt lr ot or Hla Hoa) as (-> & -> & -> & -> & -> & ->).
  by destruct (use_octet3_fields pt pr dp) as (-> & -> & -> & _).
Qed.

Lemma parses_use body u rest acc r :
  wf_use u ->
  parses body rest
    (mk (basic acc) (live_peers acc) (potential_peers acc) (Some u) (dist_sak acc)) r ->
  parses body (encode_sak_use u ++ rest) acc r.
Proof.
  intros Hu Hr. pose proof (encode_sak_use_len u Hu) as Hl.
  rewrite <- (pad4_id (encode_sak_use u)) by (by rewrite Hl).
  assert (Hd : length (encode_key_id (latest_ki u) ++ to_be 4 (latest_llpn u)
     ++ encode_key_id (old_ki u) ++ to_be 4 (old_llpn u)) = 40%nat).
  { unfold encode_sak_use in Hl. rewrite length_app in Hl. cbn [length] in Hl. lia. }
  eapply parses_set; [..|exact Hr]; rewrite Hd.
  - by destruct (use_octet3_fields (plain_tx u) (plain_rx u) (delay_protect u))
      as (_ & _ & _ & ?).
  - unfold parse_set. change (40 <=? 40)%nat with true. cbv iota.
    pose proof (parse_sak_use_encode u Hu) as Hp. unfold use_octet2, use_octet3 in Hp.
    rewrite Hp. done.
Qed.

Lemma parses_dist body d rest acc r :
  wf_dist d ->
  parses body rest
    (mk (basic acc) (live_peers acc) (potential_peers acc) (sak_use acc) (Some d)) r ->
  parses body (pad4 (encode_dist_sak d) ++ rest) acc r.
Proof.
  intros (Ha & Ho & Hk & Hc & Hw) Hr.
  assert (Hd : length (to_be 4 (d_kn d) ++ d_wrapped_sak d)
    = (4 + length (d_wrapped_sak d))%nat) by (by rewrite length_app, length_to_be).
  eapply parses_set; [..|exact Hr]; rewrite Hd.
  - apply length12_octets; [lia|]. apply land_hi4. lia.
  - unfold parse_set, parse_dist_sak.
    replace (4 <=? 4 + length (d_wrapped_sak d))%nat with true by (symmetry; apply Nat.leb_le; lia).
    replace (36 <=? 4 + length (d_wrapped_sak d))%nat with false by (symmetry; apply Nat.leb_gt; lia).
    rewrite (be_mid 4 [] (d_kn d) (d_wrapped_sak d) 0 eq_refl Hk). cbn [mbind outcome_bind].
    rewrite Hd. cbn [Nat.add Nat.eqb Nat.leb].
    rewrite slice_from_tail by done. cbn [mbind outcome_bind].
    destruct (dist_octet2_fields (d_an d) (d_confidentiality_offset d) Ha Ho) as [-> ->].
    destruct d. cbn in *. by rewrite Hc.
Qed.

Lemma encode_basic_len b :
  wf_basic b -> length (encode_basic b) = (32 + length (b_ckn b))%nat.
Proof.
  intros (_ & Hs & Hm & _ & Hg & _). unfold encode_basic, MI_LEN in *.
  rewrite !length_app, length_to_be, Hs, Hm, Hg. cbn [length]. lia.
Qed.

Lemma parse_basic_encode b rest :
  wf_basic b ->
  parse_basic (pad4 (encode_basic b) ++ rest) = Ok (b, (28 + length (b_ckn b))%nat).
Proof.
  intros Hwf. pose proof (encode_basic_len b Hwf) as Hlen.
  destruct Hwf as (Hc & Hs & Hm & Hn & Hg & Hk). unfold MI_LEN in *.
  destruct (hi4_val (28 + length (b_ckn b)) ltac:(lia)) as [_ Hh].
  destruct (basic_flags_fields (b_key_server b) (b_macsec_desired b) _ _ Hc Hh)
    as (Hks & Hmd & Hcap & Hlow).
  unfold pad4. rewrite <- app_assoc. set (tail := replicate _ 0 ++ rest).
  unfold encode_basic. fold (basic_flags (b_key_server b) (b_macsec_desired b)
    (b_macsec_capability b) (hi4 (28 + length (b_ckn b)))).
  set (fl := basic_flags _ _ _ _) in *. rewrite <- !app_assoc.
  set (body := _ ++ _). unfold parse_basic.
  assert (Hbl : length body = (32 + length (b_ckn b) + length tail)%nat).
  { unfold body. rewrite !length_app, length_to_be, Hs, Hm, Hg. cbn [length]. lia. }
  replace (length body <? 32)%nat with false by lia.
  rewrite (proj2 (idx_ok body 0 (b_version b)) eq_refl),
    (proj2 (idx_ok body 1 (b_priority b)) eq_refl), (proj2 (idx_ok body 2 fl) eq_refl),
    (proj2 (idx_ok body 3 (as_u8 (Z.of_nat (28 + length (b_ckn b))))) eq_refl).
  cbn [mbind outcome_bind].
  rewrite (length12_octets fl (28 + length (b_ckn b))) by (lia || done).
  replace (28 + length (b_ckn b) <? 28)%nat with false by lia.
  replace (length body <? 4 + (28 + length (b_ckn b)))%nat with false by lia. cbn [orb].
  assert (H4 : drop 4 body = b_sci b ++ b_mi b ++ to_be 4 (b_mn b) ++ b_algo_agility b
    ++ b_ckn b ++ tail) by done.
  pose proof (drop_cursor _ _ _ _ 8 H4 ltac:(lia)) as H12.
  pose proof (drop_cursor _ _ _ _ 12 H12 ltac:(lia)) as H24.
  pose proof (drop_cursor _ _ _ _ 4 H24 ltac:(by rewrite length_to_be)) as H28.
  pose proof (drop_cursor _ _ _ _ 4 H28 ltac:(lia)) as H32.
  cbn [Nat.add] in H12, H24, H28, H32.
  assert (Hsl : forall i j m s, drop i body = m ++ s -> j = (i + length m)%nat ->
    (i <= 32)%nat -> slice (E:=WifiError.t) body i j = Ok m).
  { intros i j m s Hd -> Hi. assert (Hi' : (i <= length body)%nat) by lia.
    rewrite (slice_cursor_0 _ _ _ _ Hi' Hd). by apply slice_head. }
  rewrite (Hsl 4%nat 12%nat _ _ H4 ltac:(lia) ltac:(lia)). cbn [mbind outcome_bind].
  rewrite (Hsl 12%nat 24%nat _ _ H12 ltac:(lia) ltac:(lia)). cbn [mbind outcome_bind].
  unfold be_at. rewrite (Hsl 24%nat (24 + 4)%nat _ _ H24 ltac:(by rewrite length_to_be) ltac:(lia)).
  cbn [mbind outcome_bind].
  rewrite (Hsl 28%nat 32%nat _ _ H28 ltac:(lia) ltac:(lia)). cbn [mbind outcome_bind].
  rewrite (Hsl 32%nat (4 + (28 + length (b_ckn b)))%nat _ _ H32 ltac:(lia) ltac:(lia)).
  cbn [mbind outcome_bind]. rewrite from_be_to_be_small by done.
  rewrite Hks, Hmd, Hcap. by destruct b.
Qed.

(** The parameter sets of a PDU. *)
Definition peers_block (ty : Z) (l : list PeerId) : list Z :=
  match l with [] => [] | _ => pad4 (encode_peers ty l) end.
Definition use_block (o : option SakUse) : list Z :=
  match o with Some u => encode_sak_use u | None => [] end.
Definition dist_block (o : option DistSak) : list Z :=
  match o with Some d => pad4 (encode_dist_sak d) | None => [] end.

Lemma pad4_mod l : (length (pad4 l) mod 4 = 0)%nat.
Proof. rewrite length_pad4. apply align4_bounds. Qed.

Lemma app_mod4 (a b : list Z) :
  (length a mod 4 = 0)%nat -> (length b mod 4 = 0)%nat -> (length (a ++ b) mod 4 = 0)%nat.
Proof. intros Ha Hb. by rewrite length_app, Nat.Div0.add_mod, Ha, Hb. Qed.

Lemma peers_block_mod ty l : (length (peers_block ty l) mod 4 = 0)%nat.
Proof. destruct l; [done|]. apply pad4_mod. Qed.

Lemma peers_block_len ty l : wf_peers l -> (length (peers_block ty l) <= 4087)%nat.
Proof.
  intros [Hf Hn]. destruct l as [|x l]; [cbn; lia|]. unfold peers_block.
  rewrite length_pad4. unfold encode_peers.
  rewrite length_app, encode_peers_data_len by done.
  match goal with |- (align4 ?n <= _)%nat => pose proof (align4_bounds n) as [Hal _] end.
  change (length [_; _; _; _]) with 4%nat in *. lia.
Qed.

Lemma use_block_len o :
  match o with Some u => wf_use u | None => True end ->
  (length (use_block o) <= 44)%nat /\ (length (use_block o) mod 4 = 0)%nat.
Proof.
  intros Hu. destruct o; [|cbn; lia]. unfold use_block. by rewrite encode_sak_use_len.
Qed.

Lemma dist_block_len o :
  match o with Some d => wf_dist d | None => True end ->
  (length (dist_block o) <= 44)%nat /\ (length (dist_block o) mod 4 = 0)%nat.
Proof.
  intros Hd. destruct o as [d|]; [|cbn; lia]. unfold dist_block.
  split; [|apply pad4_mod]. rewrite length_pad4. unfold encode_dist_sak.
  destruct Hd as (_ & _ & _ & _ & Hw).
  match goal with |- (align4 ?n <= _)%nat => pose proof (align4_bounds n) as [Hal _] end.
  rewrite !length_app, length_to_be in *. cbn [length] in *. lia.
Qed.

(** Each parameter set is padded on its own, so the body is their sequence. *)
Lemma encode_body_blocks pdu :
  wf_pdu pdu ->
  encode_body pdu
  = pad4 (encode_basic (basic pdu)) ++ peers_block 1 (live_peers pdu)
    ++ peers_block 2 (potential_peers pdu) ++ use_block (sak_use pdu)
    ++ dist_block (dist_sak pdu).
Proof.
  intros (_ & _ & _ & Hu & _). unfold encode_body.
  set (b0 := pad4 (encode_basic (basic pdu))).
  set (b1 := match live_peers pdu with [] => b0 | _ => _ end).
  assert (H1 : b1 = b0 ++ peers_block 1 (live_peers pdu)).
  { unfold b1, peers_block. destruct (live_peers pdu); [by rewrite app_nil_r|].
    apply pad4_app, pad4_mod. }
  assert (Hm1 : (length b1 mod 4 = 0)%nat)
    by (rewrite H1; apply app_mod4; [apply pad4_mod|apply peers_block_mod]).
  set (b2 := match potential_peers pdu with [] => b1 | _ => _ end).
  assert (H2 : b2 = b1 ++ peers_block 2 (potential_peers pdu)).
  { unfold b2, peers_block. destruct (potential_peers pdu); [by rewrite app_nil_r|].
    by apply pad4_app. }
  set (b3 := match sak_use pdu with None => b2 | Some _ => _ end).
  assert (H3 : b3 = b2 ++ use_block (sak_use pdu))
    by (unfold b3, use_block; destruct (sak_use pdu); by rewrite ?app_nil_r).
  assert (Hm3 : (length b3 mod 4 = 0)%nat).
  { rewrite H3, H2. apply app_mod4; [apply app_mod4; [done|apply peers_block_mod]|].
    by apply use_block_len. }
  transitivity (b3 ++ dist_block (dist_sak pdu)).
  - unfold dist_block. destruct (dist_sak pdu); [by apply pad4_app|by rewrite app_nil_r].
  - by rewrite H3, H2, H1, <- !app_assoc.
Qed.

Lemma encode_body_len pdu :
  wf_pdu pdu ->
  (length (encode_body pdu) mod 4 = 0)%nat
  /\ (32 <= length (encode_body pdu) <= 4 * 4000)%nat.
Proof.
  intros Hwf. rewrite encode_body_blocks by done. destruct Hwf as (Hb & Hl & Hp & Hu & Hd).
  destruct (use_block_len _ Hu) as [Hul Hum]. destruct (dist_block_len _ Hd) as [Hdl Hdm].
  pose proof (peers_block_len 1 _ Hl). pose proof (peers_block_len 2 _ Hp).
  assert (Hb0 : (32 <= length (pad4 (encode_basic (basic pdu))) <= 4103)%nat).
  { rewrite length_pad4, encode_basic_len by done. destruct Hb as (_ & _ & _ & _ & _ & Hk).
    pose proof (align4_bounds (32 + length (b_ckn (basic pdu)))) as [Hal _]. lia. }
  split; [|rewrite !length_app; lia].
  apply app_mod4; [apply pad4_mod|]. apply app_mod4; [apply peers_block_mod|].
  apply app_mod4; [apply peers_block_mod|]. by apply app_mod4.
Qed.

Lemma parses_peers_block body l rest acc r :
  wf_peers l -> live_peers acc = [] ->
  parses body rest (mk (basic acc) l (potential_peers acc) (sak_use acc) (dist_sak acc)) r ->
  parses body (peers_block 1 l ++ rest) acc r.
Proof.
  intros Hl Ha Hr. destruct l as [|x l]; [|by apply parses_live].
  destruct acc. cbn in *. by subst.
Qed.

Lemma parses_potential_block body l rest acc r :
  wf_peers l -> potential_peers acc = [] ->
  parses body rest (mk (basic acc) (live_peers acc) l (sak_use acc) (dist_sak acc)) r ->
  parses body (peers_block 2 l ++ rest) acc r.
Proof.
  intros Hl Ha Hr. destruct l as [|x l]; [|by apply parses_potential].
  destruct acc. cbn in *. by subst.
Qed.

Lemma parse_body_encode pdu : wf_pdu pdu -> parse_body (encode_body pdu) = Ok pdu.
Proof.
  intros Hwf. pose proof (encode_body_blocks pdu Hwf) as Heq.
  destruct (encode_body_len pdu Hwf) as [_ Hlen].
  destruct Hwf as (Hb & Hl & Hp & Hu & Hd).
  unfold parse_body. rewrite Heq at 1. rewrite parse_basic_encode by done.
  cbn [mbind outcome_bind]. set (body := encode_body pdu) in *.
  assert (Hpos : (4 + align4 (28 + length (b_ckn (basic pdu))))%nat
    = length (pad4 (encode_basic (basic pdu)))).
  { rewrite length_pad4, encode_basic_len by done.
    by rewrite <- (align4_add 4 (28 + length (b_ckn (basic pdu)))) by done. }
  rewrite Hpos.
  assert (Hgo : parses body (peers_block 1 (live_peers pdu)
    ++ peers_block 2 (potential_peers pdu) ++ use_block (sak_use pdu)
    ++ dist_block (dist_sak pdu)) (mk (basic pdu) [] [] None None) pdu).
  { apply parses_peers_block; [done|done|]. apply parses_potential_block; [done|done|].
    cbn [basic live_peers potential_peers sak_use dist_sak].
    assert (Hdist : forall acc r, parses body [] (mk (basic acc) (live_peers acc)
      (potential_peers acc) (sak_use acc) (dist_sak pdu)) r -> dist_sak acc = None ->
      parses body (dist_block (dist_sak pdu)) acc r).
    { intros acc r Hr Ha. unfold dist_block. destruct (dist_sak pdu) as [d|].
      - rewrite <- (app_nil_r (pad4 _)). by apply parses_dist.
      - destruct acc. cbn in *. by subst. }
    unfold use_block. destruct (sak_use pdu) as [u|] eqn:Hus; [apply parses_use; [done|]|];
      apply Hdist; try done; cbn; destruct pdu; cbn in *; subst; apply parses_nil. }
  apply Hgo; [rewrite Heq, length_app; lia| |unfold enough; lia].
  by rewrite Heq, drop_app_length.
Qed.

Section roundtrip.
Context `{MkaCryptoLaws}.

(** An MKPDU within the ranges of its fields is encoded, and the frame,
    followed by any Ethernet padding, parses back to the same PDU under the same
    key. *)
Theorem mka_pdu_roundtrip pdu da sa ick :
  wf_pdu pdu -> length ick = 16%nat \/ length ick = 32%nat ->
  exists eapol, build_eapol pdu da sa ick = Ok eapol
    /\ forall padding, parse (eapol ++ padding) da sa ick = Ok (Some pdu).
Proof using All.
  intros Hwf Hk. destruct (encode_body_len pdu Hwf) as [Hm Hlen].
  unfold build_eapol. set (body := encode_body pdu) in *. unfold ICV_LEN in *.
  replace (65535 <? Z.of_nat (length body + 16)) with false by lia.
  set (eapol := [_; _] ++ _).
  destruct (compute_icv ick da sa eapol) as [icv|e| |] eqn:Hi.
  2: { exfalso. unfold compute_icv, cmac_aes in Hi. by destruct Hk as [Hk|Hk]; rewrite Hk in Hi. }
  2,3: exfalso; unfold compute_icv, cmac_aes in Hi; by destruct Hk as [Hk|Hk]; rewrite Hk in Hi.
  cbn [mbind outcome_bind]. exists (eapol ++ icv). split; [done|]. intros padding.
  pose proof (compute_icv_len _ _ _ _ _ Hi) as Hil. unfold ICV_LEN in Hil.
  assert (Hel : length eapol = (4 + length body)%nat)
    by (unfold eapol; rewrite !length_app, length_to_be; done).
  rewrite <- app_assoc. unfold parse.
  replace (length (eapol ++ icv ++ padding) <? 4)%nat with false by len_lia.
  rewrite (proj2 (idx_ok (eapol ++ icv ++ padding) 1 EAPOL_TYPE_MKA) eq_refl).
  cbn [mbind outcome_bind].
  rewrite Z.eqb_refl. cbn [negb].
  assert (Hbe : be16_at (E:=WifiError.t) (eapol ++ icv ++ padding) 2
    = Ok (Z.of_nat (length body + 16))).
  { unfold eapol. rewrite <- !app_assoc.
    apply (be16_mid [EAPOL_VERSION; EAPOL_TYPE_MKA]); [done|]. unfold fits. lia. }
  rewrite Hbe. cbn [mbind outcome_bind]. rewrite Nat2Z.id. unfold ICV_LEN.
  replace (length body + 16 <? 16 + 4)%nat with false by lia.
  replace (length (eapol ++ icv ++ padding) <? 4 + (length body + 16))%nat
    with false by len_lia. cbn [orb].
  assert (Hm16 : ((length body + 16) mod 4 = 0)%nat)
    by (by rewrite Nat.Div0.add_mod, Hm).
  rewrite Hm16. cbn [Nat.eqb negb].
  replace (4 + (length body + 16) - 16)%nat with (length eapol) by lia.
  rewrite slice_head, slice_from_tail by done. cbn [mbind outcome_bind].
  assert (Hv : verify_icv ick da sa eapol (icv ++ padding) = true).
  { apply verify_icv_iff; [unfold ICV_LEN; len_lia|]. rewrite Hi. unfold ICV_LEN.
    by rewrite take_app_length'. }
  rewrite Hv. cbn [negb].
  assert (Hs : slice (E:=WifiError.t) (eapol ++ icv ++ padding) 4 (length eapol) = Ok body).
  { unfold eapol. rewrite <- !app_assoc, app_assoc. apply slice_mid.
    - by rewrite length_app, length_to_be.
    - rewrite !length_app, length_to_be. cbn [length]. lia. }
  rewrite Hs. cbn [mbind outcome_bind]. unfold body. by rewrite parse_body_encode.
Qed.

End roundtrip.

(** *** Keys *)

Section keys.
Context `{MkaCryptoLaws}.

Lemma aes_kdf_loop_len fuel key label context n lb counter out :
  length key = 16%nat \/ length key = 32%nat ->
  0 < counter -> counter <= 255 -> (length out <= n)%nat ->
  (n - length out < fuel)%nat -> (n - length out <= 16 * Z.to_nat (255 - counter))%nat ->
  exists k, aes_kdf_loop fuel key label context n lb counter out = Ok k /\ length k = n.
Proof using All.
  intros Hkey. revert counter out. induction fuel as [|fuel IH]; intros counter out H1 H2 H3 H4 H5;
    [lia|]. cbn [aes_kdf_loop]. destruct (Nat.ltb_spec (length out) n); [|exists out; split; [done|lia]].
  destruct (cmac_aes_cases key ([counter] ++ label ++ [0] ++ context ++ to_be 2 lb))
    as [[-> _]|[e He]].
  2: { exfalso. unfold cmac_aes in He. by destruct Hkey as [Hk|Hk]; rewrite Hk in He. }
  cbn [map_err mbind outcome_bind]. rewrite m_cmac_len.
  rewrite slice_in by (rewrite m_cmac_len; lia). cbn [mbind outcome_bind].
  replace (255 <=? counter) with false by lia.
  apply IH; try lia; rewrite length_app, length_take, length_drop, m_cmac_len; lia.
Qed.

(** The KEK and the ICK have the length of the CAK. *)
Lemma derive_keys_len cak ckn :
  length cak = 16%nat \/ length cak = 32%nat ->
  exists kek ick, derive_kek cak ckn = Ok kek /\ derive_ick cak ckn = Ok ick
    /\ length kek = length cak /\ length ick = length cak.
Proof using All.
  intros Hk. unfold derive_kek, derive_ick, aes_kdf.
  replace (65535 <? Z.of_nat (length cak) * 8) with false by lia.
  destruct (aes_kdf_loop_len (S (length cak)) cak (as_bytes "IEEE8021 KEK")
    (keyid_from_ckn ckn) (length cak) (Z.of_nat (length cak) * 8) 1 []) as (kek & -> & ?);
    try done; try (cbn [length]; lia).
  destruct (aes_kdf_loop_len (S (length cak)) cak (as_bytes "IEEE8021 ICK")
    (keyid_from_ckn ckn) (length cak) (Z.of_nat (length cak) * 8) 1 []) as (ick & -> & ?);
    try done; try (cbn [length]; lia).
  by exists kek, ick.
Qed.

(** A SAK wrapped by the key server unwraps to the same SAK. *)
Lemma wrap_unwrap kek sak :
  length kek = 16%nat \/ length kek = 32%nat -> length sak = 16%nat ->
  exists w, wrap_key kek sak = Ok w /\ length w = 24%nat /\ unwrap_key kek w = Ok sak.
Proof using All.
  intros Hk Hs. destruct (m_kw_wrap_ok kek sak) as (w & Hw & Hl & Hu);
    [by rewrite Hs|by rewrite Hs|].
  exists w. unfold wrap_key, unwrap_key. rewrite Hw, Hl, Hs, Hu.
  by destruct Hk as [-> | ->].
Qed.

End keys.

(** *** Stand-ins for the crates *)

#[export] Instance toy_mka : MkaCryptoLib := {|
  m_cmac k d := replicate 16 (from_be d mod 251);
  m_kw_wrap k d := inr (replicate 8 0xa6 ++ d);
  m_kw_unwrap k w := if (8 <=? length w)%nat then inr (drop 8 w) else inl "integrity";
|}.

#[export] Instance toy_mka_laws : MkaCryptoLaws.
Proof.
  split.
  - done.
  - intros k d _ _. eexists. split; [done|]. split; [rewrite length_app; cbn; lia|].
    reflexivity.
  - intros k w d Hu. unfold m_kw_unwrap, toy_mka in Hu.
    destruct (Nat.leb_spec 8 (length w)); [|discriminate Hu]. injection Hu as <-.
    rewrite length_drop. lia.
Qed.

(** A PDU with every parameter set. *)
Definition toy_pdu : t :=
  mk (mkMkaBasic 3 16 true true 2 (repeat 2 8) (repeat 5 12) 7 ALGO_AGILITY (repeat 9 5))
    [mkPeerId (repeat 6 12) 4] [mkPeerId (repeat 8 12) 1; mkPeerId (repeat 3 12) 2]
    (Some {| latest_an := 1; latest_tx := true; latest_rx := true; old_an := 0;
             old_tx := false; old_rx := true; plain_tx := false; plain_rx := false;
             delay_protect := true; latest_ki := mkKeyId (repeat 5 12) 2; latest_llpn := 77;
             old_ki := mkKeyId (repeat 5 12) 1; old_llpn := 0 |})
    (Some (mkDistSak 1 1 2 None (repeat 4 24))).

Lemma mka_pdu_roundtrip_witness :
  exists eapol, build_eapol toy_pdu (repeat 1 6) (repeat 2 6) (repeat 3 16) = Ok eapol
    /\ parse (eapol ++ [0; 0]) (repeat 1 6) (repeat 2 6) (repeat 3 16) = Ok (Some toy_pdu).
Proof.
  destruct (mka_pdu_roundtrip toy_pdu (repeat 1 6) (repeat 2 6) (repeat 3 16)) as (e & He & Hp).
  - refine (bool_decide_unpack _ _). vm_compute. exact I.
  - left. reflexivity.
  - exists e. split; [exact He|]. apply Hp.
Defined.


End MkaFacts.
