(* ===== verification/Macsec.v ===== *)
(** * The MACsec device

    [src/src/wired/macsec.rs]: [MacsecDevice] keeps the configuration it wants the
    kernel to have ([desired]) and pushes it with [apply].  Netlink itself, the
    [nl-macsec] and [rtnetlink] crates and the kernel driver, is a parameter
    ([Class MacsecKernel]); creating and deleting the netdev is not modelled.
    [MacsecFacts] shows that association numbers and channels stay unique, that
    installing a key leaves exactly that key in its slot, and that the packet
    number of a key the kernel already has is never sent again. *)

From S2P Require Import Prelude Errors Mka.

(** The configuration types of [nl-macsec], as far as they are used. *)
Module MacsecSaConfig.

Record t := mk {
  an : Z;
  pn : option Z;
  active : option bool;
  key_id : list Z;
  key : option (list Z);
}.

Definition new (an : Z) : t := mk an None None [] None.

Definition forget_pn (sa : t) : t := mk (an sa) None (active sa) (key_id sa) (key sa).
Definition set_active (b : bool) (sa : t) : t :=
  mk (an sa) (pn sa) (Some b) (key_id sa) (key sa).

End MacsecSaConfig.

Abbreviation SaConfig := MacsecSaConfig.t.

Module MacsecRxScConfig.

Record t := mk {
  sci : Z;
  active : option bool;
  sa_list : option (list SaConfig);
}.

Definition new (sci : Z) : t := mk sci None None.

Definition set_sa_list (l : list SaConfig) (sc : t) : t := mk (sci sc) (active sc) (Some l).
Definition set_active (b : bool) (sc : t) : t := mk (sci sc) (Some b) (sa_list sc).

End MacsecRxScConfig.

Abbreviation RxScConfig := MacsecRxScConfig.t.

Module NlMacsecConfig.

Record t := mk {
  tx_sa : option (list SaConfig);
  rx_sc : option (list RxScConfig);
}.

Definition set_tx_sa (l : list SaConfig) (c : t) : t := mk (Some l) (rx_sc c).
Definition set_rx_sc (l : list RxScConfig) (c : t) : t := mk (tx_sa c) (Some l).

End NlMacsecConfig.

(** The kernel: [MacsecHandle::apply] and the encoding-SA change over rtnetlink;
    a failure carries the error as it is printed. *)
Class MacsecKernel := {
  Kernel : Type;
  k_apply : Kernel -> NlMacsecConfig.t -> Kernel * option string;
  k_encoding_sa : Kernel -> Z -> Kernel * option string;
}.

Definition macsec_err (msg : string) : WifiError.t := WifiError.new WifiError.Io msg.

Definition keyid_bytes (ki : KeyId) : list Z := ki_mi ki ++ to_be 4 (ki_kn ki).

Definition sci_be (sci : list Z) : Z := from_be sci.

(** [if let Some(x) = l.iter_mut().find(p) { f(x) }]. *)
Fixpoint update_first {A} (p : A -> bool) (f : A -> A) (l : list A) : list A :=
  match l with
  | [] => []
  | x :: l' => if p x then f x :: l' else x :: update_first p f l'
  end.

(** [l.iter().position(p)], with the element found. *)
Fixpoint position {A} (p : A -> bool) (l : list A) : option (nat * A) :=
  match l with
  | [] => None
  | x :: l' =>
      if p x then Some (0%nat, x)
      else match position p l' with Some (i, y) => Some (S i, y) | None => None end
  end.

(** [Vec::remove], for an index in range. *)
Definition vec_remove {A} (i : nat) (l : list A) : list A := take i l ++ drop (S i) l.

Definition has_an (a : Z) (sa : SaConfig) : bool := MacsecSaConfig.an sa =? a.
Definition has_sci (s : Z) (sc : RxScConfig) : bool := MacsecRxScConfig.sci sc =? s.

Module MacsecDevice.

Section device.
Context `{MacsecKernel}.

Record t := mk { kernel : Kernel; desired : NlMacsecConfig.t }.

Definition put_desired (c : NlMacsecConfig.t) (d : t) : t := mk (kernel d) c.
Definition put_kernel (k : Kernel) (d : t) : t := mk k (desired d).

Definition method (A : Type) : Type := st t WifiError.t A.

Definition tx (d : t) : list SaConfig := default [] (NlMacsecConfig.tx_sa (desired d)).
Definition rx (d : t) : list RxScConfig := default [] (NlMacsecConfig.rx_sc (desired d)).

Definition put_tx (l : list SaConfig) (d : t) : t :=
  put_desired (NlMacsecConfig.set_tx_sa l (desired d)) d.
Definition put_rx (l : list RxScConfig) (d : t) : t :=
  put_desired (NlMacsecConfig.set_rx_sc l (desired d)) d.

Definition apply_ : method unit := fun d =>
  match k_apply (kernel d) (desired d) with
  | (k, None) => (put_kernel k d, Ok tt)
  | (k, Some e) => (put_kernel k d, Err (macsec_err ("macsec apply: " +:+ e)))
  end.

Definition set_encoding_sa (an : Z) : method unit := fun d =>
  match k_encoding_sa (kernel d) an with
  | (k, None) => (put_kernel k d, Ok tt)
  | (k, Some e) => (put_kernel k d, Err (macsec_err ("set MACsec encoding SA: " +:+ e)))
  end.

(** [if let Some(tx_sa) = desired.tx_sa.as_mut() && let Some(sa) = ..find(..)]. *)
Definition forget_tx_sa_pn (an : Z) (d : t) : t :=
  match NlMacsecConfig.tx_sa (desired d) with
  | Some l => put_tx (update_first (has_an an) MacsecSaConfig.forget_pn l) d
  | None => d
  end.

Definition forget_rx_sa_pn (sci an : Z) (d : t) : t :=
  match NlMacsecConfig.rx_sc (desired d) with
  | Some l =>
      put_rx (update_first (has_sci sci)
        (fun sc => match MacsecRxScConfig.sa_list sc with
                   | Some sas => MacsecRxScConfig.set_sa_list
                       (update_first (has_an an) MacsecSaConfig.forget_pn sas) sc
                   | None => sc
                   end) l) d
  | None => d
  end.

Definition remove_rx_sc (peer_sci : list Z) : method unit :=
  d ← get;
  (match NlMacsecConfig.rx_sc (desired d) with
   | Some l => modify (put_rx (filter (fun sc => MacsecRxScConfig.sci sc <> sci_be peer_sci) l))
   | None => mret tt
   end);;
  apply_.

Definition clear_sas : method unit :=
  modify (put_tx []);; modify (put_rx []);; apply_.

(** A new SA: packet number 1, the key and its identifier. *)
Definition new_sa (an : Z) (active : bool) (key_id sak : list Z) : SaConfig :=
  MacsecSaConfig.mk an (Some 1) (Some active) key_id (Some sak).

(** [tx_sa.push(sa); apply; forget_tx_sa_pn; ..]. *)
Definition add_tx_sa (an : Z) (key_id sak : list Z) (active : bool) : method unit :=
  modify (fun d => put_tx (tx d ++ [new_sa an active key_id sak]) d);;
  apply_;;
  modify (forget_tx_sa_pn an);;
  if active then set_encoding_sa an else mret tt.

Definition install_tx_sa (an : Z) (ki : KeyId) (sak : list Z) (active : bool)
  : method unit :=
  let key_id := keyid_bytes ki in
  modify (fun d => put_tx (tx d) d);;
  d ← get;
  match position (has_an an) (tx d) with
  | Some (pos, sa) =>
      if bool_decide (MacsecSaConfig.key_id sa = key_id) then
        (if active
         then modify (fun d => put_tx (update_first (has_an an)
                                         (MacsecSaConfig.set_active true) (tx d)) d)
         else mret tt);;
        apply_;;
        if active then set_encoding_sa an else mret tt
      else
        modify (fun d => put_tx (vec_remove pos (tx d)) d);;
        apply_;;
        add_tx_sa an key_id sak active
  | None => add_tx_sa an key_id sak active
  end.

Definition set_tx_sa_active (an : Z) : method unit :=
  d ← get;
  (match NlMacsecConfig.tx_sa (desired d) with
   | Some l => modify (put_tx (update_first (has_an an) (MacsecSaConfig.set_active true) l))
   | None => mret tt
   end);;
  apply_;;
  set_encoding_sa an.

(** The SAs of a channel. *)
Definition sas (sc : RxScConfig) : list SaConfig := default [] (MacsecRxScConfig.sa_list sc).

(** Change the channel at [index], which is in range. *)
Definition alter_sc (index : nat) (f : RxScConfig -> RxScConfig) (d : t) : t :=
  put_rx (alter f index (rx d)) d.

Definition add_rx_sa (index : nat) (sci an : Z) (key_id sak : list Z) : method unit :=
  modify (alter_sc index (fun sc => MacsecRxScConfig.set_sa_list
                            (sas sc ++ [new_sa an true key_id sak]) sc));;
  apply_;;
  modify (forget_rx_sa_pn sci an).

(** The index of the channel [sci], which is added when it is missing. *)
Definition rx_sc_index (sci : Z) : method nat :=
  d ← get;
  match position (has_sci sci) (rx d) with
  | Some (index, _) => modify (put_rx (rx d));; mret index
  | None =>
      modify (put_rx (rx d ++ [MacsecRxScConfig.new sci]));;
      mret (length (rx d))
  end.

Definition install_rx_sa (peer_sci : list Z) (an : Z) (ki : KeyId) (sak : list Z)
  : method unit :=
  let sci := sci_be peer_sci in
  let key_id := keyid_bytes ki in
  index ← rx_sc_index sci;
  modify (alter_sc index (fun sc =>
            MacsecRxScConfig.set_sa_list (sas sc) (MacsecRxScConfig.set_active true sc)));;
  d ← get;
  sc ← lift (idx (rx d) index);
  match position (has_an an) (sas sc) with
  | Some (pos, sa) =>
      if bool_decide (MacsecSaConfig.key_id sa = key_id) then apply_
      else
        modify (alter_sc index (fun sc => MacsecRxScConfig.set_sa_list
                                  (vec_remove pos (sas sc)) sc));;
        apply_;;
        add_rx_sa index sci an key_id sak
  | None => add_rx_sa index sci an key_id sak
  end.

End device.

End MacsecDevice.

(** ** Facts *)

Module MacsecFacts.
Import MacsecDevice.

(** *** Lists with a key *)

Section keyed.
Context {A : Type} (key : A -> Z).
Implicit Types (l : list A) (k : Z).

Definition has (k : Z) (x : A) : bool := key x =? k.

Definition find k l : option A := snd <$> position (has k) l.

Definition unique l : Prop := NoDup (key <$> l).

Lemma find_cons k x l : find k (x :: l) = if key x =? k then Some x else find k l.
Proof using Type.
  unfold find. cbn [position]. unfold has at 1. destruct (key x =? k); [done|].
  by destruct (position (has k) l) as [[i y]|].
Qed.

Lemma find_None k l : find k l = None <-> ~ In k (map key l).
Proof using Type.
  induction l as [|x l IH]; [by split; [intros _ []|]|]. rewrite find_cons. cbn.
  destruct (Z.eqb_spec (key x) k); [split; [done|]; intros Hn; destruct Hn; by left|].
  rewrite IH. tauto.
Qed.

Lemma find_app k l m :
  find k (l ++ m) = match find k l with Some x => Some x | None => find k m end.
Proof using Type.
  induction l as [|x l IH]; [done|]. cbn [app]. rewrite !find_cons, IH.
  by destruct (key x =? k).
Qed.

Lemma keys_update k f l :
  (forall x, key (f x) = key x) -> key <$> update_first (has k) f l = key <$> l.
Proof using Type.
  intros Hf. induction l as [|x l IH]; [done|]. cbn [update_first]. unfold has at 1.
  destruct (key x =? k); cbn; by rewrite ?Hf, ?IH.
Qed.

Lemma find_update k k' f l :
  (forall x, key (f x) = key x) ->
  find k' (update_first (has k) f l) = if k =? k' then f <$> find k' l else find k' l.
Proof using Type.
  intros Hf. induction l as [|x l IH]; cbn [update_first].
  { by destruct (k =? k'). }
  unfold has at 1. destruct (Z.eqb_spec (key x) k) as [Hx|Hx]; rewrite !find_cons, ?Hf.
  - destruct (Z.eqb_spec (key x) k'), (Z.eqb_spec k k'); try done; lia.
  - rewrite IH. destruct (Z.eqb_spec (key x) k'), (Z.eqb_spec k k'); try done; lia.
Qed.

Lemma position_lookup k l i x : position (has k) l = Some (i, x) -> l !! i = Some x.
Proof using Type.
  revert i. induction l as [|y l IH]; intros i; [done|]. cbn [position].
  destruct (has k y); [by intros [= <- <-]|].
  destruct (position (has k) l) as [[j z]|]; [|done]. intros [= <- <-]. by apply IH.
Qed.

Lemma alter_position k l i x f :
  position (has k) l = Some (i, x) -> alter f i l = update_first (has k) f l.
Proof using Type.
  revert i. induction l as [|y l IH]; intros i; [done|]. cbn [position update_first].
  destruct (has k y); [by intros [= <- <-]|].
  destruct (position (has k) l) as [[j z]|]; [|done]. intros [= <- <-]. cbn. f_equal.
  by apply IH.
Qed.

Lemma position_update k f l i x :
  (forall y, key (f y) = key y) -> position (has k) l = Some (i, x) ->
  position (has k) (update_first (has k) f l) = Some (i, f x).
Proof using Type.
  intros Hf. revert i. induction l as [|y l IH]; intros i; [done|]. cbn [position update_first].
  destruct (has k y) eqn:Hh; cbn [position].
  - intros [= <- <-]. replace (has k (f y)) with true; [done|]. unfold has in *. by rewrite Hf.
  - rewrite Hh. destruct (position (has k) l) as [[j z]|]; [|done]. intros [= <- <-].
    by rewrite (IH j eq_refl).
Qed.

Lemma position_find k l i x : position (has k) l = Some (i, x) -> find k l = Some x.
Proof using Type. unfold find. by intros ->. Qed.

Lemma position_None k l : position (has k) l = None -> find k l = None.
Proof using Type. unfold find. by intros ->. Qed.

Lemma position_snoc k l x :
  key x = k -> find k l = None -> position (has k) (l ++ [x]) = Some (length l, x).
Proof using Type.
  intros Hx. induction l as [|y l IH]; cbn [app position length].
  { intros _. unfold has. by rewrite Hx, Z.eqb_refl. }
  rewrite find_cons. unfold has at 1. destruct (key y =? k); [done|].
  intros Hf. by rewrite IH.
Qed.

Lemma find_remove k k' l i x :
  unique l -> position (has k) l = Some (i, x) ->
  find k' (vec_remove i l) = (if k =? k' then None else find k' l)
  /\ unique (vec_remove i l).
Proof using Type.
  revert i. unfold unique. induction l as [|y l IH]; intros i Hu; [done|].
  cbn [position fmap list_fmap] in *. apply NoDup_cons in Hu as [Hn Hu]. unfold has at 1.
  destruct (Z.eqb_spec (key y) k) as [Hy|Hy].
  - intros [= <- <-]. cbn [vec_remove take drop app]. unfold vec_remove. cbn [take drop app].
    split; [|done]. rewrite find_cons, Hy. destruct (Z.eqb_spec k k') as [<-|]; [|done].
    apply find_None. rewrite <- Hy. intros Hin. apply Hn. by apply list_elem_of_In.
  - destruct (position (has k) l) as [[j z]|] eqn:Hp; [|done]. intros [= <- <-].
    destruct (IH j Hu eq_refl) as [Hf Hu']. unfold vec_remove in *. cbn [take drop app].
    rewrite find_cons, Hf, find_cons. split.
    + destruct (Z.eqb_spec (key y) k'), (Z.eqb_spec k k'); try done; lia.
    + cbn. apply NoDup_cons. split; [|done]. rewrite fmap_app. intros Hin. apply Hn.
      apply elem_of_app in Hin as [Hin|Hin]; apply list_elem_of_fmap in Hin as (w & -> & Hw);
        apply list_elem_of_fmap; exists w; (split; [done|]).
      * apply (subseteq_take j l w Hw).
      * apply (subseteq_drop (S j) l w Hw).
Qed.

Lemma unique_snoc l x : unique l -> find (key x) l = None -> unique (l ++ [x]).
Proof using Type.
  unfold unique. intros Hu Hf. rewrite fmap_app. apply NoDup_app. split; [done|].
  split; [|apply NoDup_singleton]. intros z Hz Hz'. apply list_elem_of_singleton in Hz' as ->.
  apply find_None in Hf. apply Hf. by apply list_elem_of_In.
Qed.

Lemma find_filter k k' l :
  find k' (filter (fun x => key x <> k) l) = if k =? k' then None else find k' l.
Proof using Type.
  induction l as [|x l IH]; [by destruct (k =? k')|]. rewrite filter_cons.
  destruct (decide (key x <> k)) as [Hx|Hx]; rewrite ?find_cons, IH;
    destruct (Z.eqb_spec (key x) k'), (Z.eqb_spec k k'); try done; lia.
Qed.

Lemma unique_filter k l : unique l -> unique (filter (fun x => key x <> k) l).
Proof using Type.
  unfold unique. intros Hu. eapply sublist_NoDup; [exact Hu|].
  apply fmap_sublist, sublist_filter.
Qed.

End keyed.

Abbreviation find_an := (find MacsecSaConfig.an).
Abbreviation find_sci := (find MacsecRxScConfig.sci).

(** *** The configuration as a map from slots to SAs *)

Inductive slot := Tx (an : Z) | Rx (sci an : Z).

#[global] Instance slot_eq_dec : EqDecision slot.
Proof. solve_decision. Defined.

Definition cfg_tx (c : NlMacsecConfig.t) : list SaConfig := default [] (NlMacsecConfig.tx_sa c).
Definition cfg_rx (c : NlMacsecConfig.t) : list RxScConfig := default [] (NlMacsecConfig.rx_sc c).

Definition view (c : NlMacsecConfig.t) (s : slot) : option SaConfig :=
  match s with
  | Tx an => find_an an (cfg_tx c)
  | Rx sci an => sc ← find_sci sci (cfg_rx c); find_an an (sas sc)
  end.

(** Association numbers are unique per channel, and channels are unique. *)
Record wf (c : NlMacsecConfig.t) : Prop := {
  wf_tx : unique MacsecSaConfig.an (cfg_tx c);
  wf_rx : unique MacsecRxScConfig.sci (cfg_rx c);
  wf_sas : Forall (fun sc => unique MacsecSaConfig.an (sas sc)) (cfg_rx c);
}.

(** No SA asks for a packet number. *)
Definition settled (c : NlMacsecConfig.t) : Prop :=
  forall s sa, view c s = Some sa -> MacsecSaConfig.pn sa = None.

(** A configuration that may be sent while [kid] is being installed in [s]: only
    the SA in that slot may ask for a packet number, and only if the slot did not
    hold the key before. *)
Definition pn_only (v : slot -> option SaConfig) (s : option slot) (kid : list Z)
  (c : NlMacsecConfig.t) : Prop :=
  forall s' sa, view c s' = Some sa -> MacsecSaConfig.pn sa <> None ->
    s = Some s' /\ MacsecSaConfig.key_id sa = kid
    /\ forall old, v s' = Some old -> MacsecSaConfig.key_id old <> kid.

Lemma settled_pn_only v s kid c : settled c -> pn_only v s kid c.
Proof. intros Hs s' sa Hv Hp. by rewrite (Hs s' sa Hv) in Hp. Qed.

(** *** What the operations promise *)

Inductive op :=
| InstallTx (an : Z) (ki : KeyId) (sak : list Z) (active : bool)
| InstallRx (peer_sci : list Z) (an : Z) (ki : KeyId) (sak : list Z)
| SetTxActive (an : Z)
| RemoveRxSc (peer_sci : list Z)
| ClearSas.

Definition run `{MacsecKernel} (o : op) : method unit :=
  match o with
  | InstallTx an ki sak active => install_tx_sa an ki sak active
  | InstallRx sci an ki sak => install_rx_sa sci an ki sak
  | SetTxActive an => set_tx_sa_active an
  | RemoveRxSc sci => remove_rx_sc sci
  | ClearSas => clear_sas
  end.

(** The slot an operation installs a key in, and the key's identifier. *)
Definition op_slot (o : op) : option slot :=
  match o with
  | InstallTx an _ _ _ => Some (Tx an)
  | InstallRx sci an _ _ => Some (Rx (sci_be sci) an)
  | _ => None
  end.

Definition op_kid (o : op) : list Z :=
  match o with
  | InstallTx _ ki _ _ | InstallRx _ _ ki _ => keyid_bytes ki
  | _ => []
  end.

(** An SA the kernel has: the key in its slot, no packet number asked for. *)
Definition installed (an : Z) (active : bool) (kid sak : list Z) : SaConfig :=
  MacsecSaConfig.mk an None (Some active) kid (Some sak).

Definition put_slot (v : slot -> option SaConfig) (s : slot) (o : option SaConfig)
  (s' : slot) : option SaConfig := if decide (s = s') then o else v s'.

(** The map after a successful operation. *)
Definition op_view (o : op) (v : slot -> option SaConfig) : slot -> option SaConfig :=
  match o with
  | InstallTx an ki sak active =>
      put_slot v (Tx an)
        match v (Tx an) with
        | Some sa =>
            if bool_decide (MacsecSaConfig.key_id sa = keyid_bytes ki)
            then Some (if active then MacsecSaConfig.set_active true sa else sa)
            else Some (installed an active (keyid_bytes ki) sak)
        | None => Some (installed an active (keyid_bytes ki) sak)
        end
  | InstallRx sci an ki sak =>
      put_slot v (Rx (sci_be sci) an)
        match v (Rx (sci_be sci) an) with
        | Some sa =>
            if bool_decide (MacsecSaConfig.key_id sa = keyid_bytes ki) then Some sa
            else Some (installed an true (keyid_bytes ki) sak)
        | None => Some (installed an true (keyid_bytes ki) sak)
        end
  | SetTxActive an => put_slot v (Tx an) (MacsecSaConfig.set_active true <$> v (Tx an))
  | RemoveRxSc sci => fun s =>
      match s with Rx sci' _ => if sci_be sci =? sci' then None else v s | Tx _ => v s end
  | ClearSas => fun _ => None
  end.

(** *** Configuration updates *)

Lemma view_set_tx l c s :
  view (NlMacsecConfig.set_tx_sa l c) s
  = match s with Tx an => find_an an l | Rx _ _ => view c s end.
Proof. by destruct s. Qed.

Lemma wf_set_tx l c :
  wf c -> unique MacsecSaConfig.an l -> wf (NlMacsecConfig.set_tx_sa l c).
Proof. intros [_ Hr Hs] Hl. by split. Qed.

Lemma view_set_rx l c s :
  view (NlMacsecConfig.set_rx_sc l c) s
  = match s with
    | Tx _ => view c s
    | Rx sci an => sc ← find_sci sci l; find_an an (sas sc)
    end.
Proof. by destruct s. Qed.

Lemma wf_set_rx l c :
  wf c -> unique MacsecRxScConfig.sci l ->
  Forall (fun sc => unique MacsecSaConfig.an (sas sc)) l ->
  wf (NlMacsecConfig.set_rx_sc l c).
Proof. intros [Ht _ _] Hl Hs. by split. Qed.

Lemma find_Forall {A} (key : A -> Z) (P : A -> Prop) k l x :
  Forall P l -> find key k l = Some x -> P x.
Proof.
  intros Hl. induction Hl as [|y l Hy _ IH]; [done|]. rewrite find_cons.
  destruct (key y =? k); [by intros [= <-]|done].
Qed.

Lemma update_Forall {A} (key : A -> Z) (P : A -> Prop) k f l :
  Forall P l -> (forall x, find key k l = Some x -> P (f x)) ->
  Forall P (update_first (has key k) f l).
Proof.
  intros Hl. induction Hl as [|y l Hy Hl IH]; intros Hf; [constructor|]. cbn [update_first].
  unfold has at 1. pose proof (Hf y) as Hfy. setoid_rewrite find_cons in Hf.
  rewrite find_cons in Hfy. destruct (key y =? k); constructor; auto.
Qed.

(** Replace the SAs of one channel. *)
Lemma rx_update sci f c :
  wf c -> (forall sc, MacsecRxScConfig.sci (f sc) = MacsecRxScConfig.sci sc) ->
  (forall sc, find_sci sci (cfg_rx c) = Some sc -> unique MacsecSaConfig.an (sas (f sc))) ->
  let c' := NlMacsecConfig.set_rx_sc
              (update_first (has MacsecRxScConfig.sci sci) f (cfg_rx c)) c in
  wf c' /\ forall s, view c' s
    = match s with
      | Rx sci' an => if sci =? sci'
                      then sc ← find_sci sci' (cfg_rx c); find_an an (sas (f sc))
                      else view c s
      | Tx _ => view c s
      end.
Proof.
  intros Hwf Hf Hu. split.
  - apply wf_set_rx; [done|unfold unique; rewrite keys_update by done; apply Hwf|].
    apply update_Forall; [apply Hwf|done].
  - intros s. rewrite view_set_rx. destruct s as [an|sci' an]; [done|].
    rewrite find_update by done. destruct (sci =? sci'); [|done].
    by destruct (find_sci sci' (cfg_rx c)).
Qed.

Lemma op_view_settled o v :
  (forall s sa, v s = Some sa -> MacsecSaConfig.pn sa = None) ->
  forall s sa, op_view o v s = Some sa -> MacsecSaConfig.pn sa = None.
Proof.
  intros Hv. assert (Hput : forall s0 x, (forall sa, x = Some sa -> MacsecSaConfig.pn sa = None) ->
    forall s sa, put_slot v s0 x s = Some sa -> MacsecSaConfig.pn sa = None).
  { intros s0 x Hx s sa. unfold put_slot. destruct (decide (s0 = s)); [apply Hx|apply Hv]. }
  destruct o as [an ki sak act|sci an ki sak|an|sci|]; cbn [op_view].
  - apply Hput. intros sa. destruct (v (Tx an)) as [sa0|] eqn:Hs; [|by intros [= <-]].
    destruct (bool_decide _); intros [= <-]; [|done]. apply Hv in Hs. by destruct act.
  - apply Hput. intros sa. destruct (v (Rx _ an)) as [sa0|] eqn:Hs; [|by intros [= <-]].
    destruct (bool_decide _); intros [= <-]; [|done]. by apply Hv in Hs.
  - apply Hput. intros sa. destruct (v (Tx an)) as [sa0|] eqn:Hs; [|done].
    intros [= <-]. by apply Hv in Hs.
  - intros [an|sci' an] sa; [apply Hv|]. destruct (sci_be sci =? sci'); [done|apply Hv].
  - done.
Qed.

(** *** The operations *)

Section ops.
Context `{MacsecKernel} (I : Kernel -> Prop).

Lemma wp_apply (G : NlMacsecConfig.t -> Prop) (Q : unit -> MacsecDevice.t -> Prop) R d :
  (forall k c, I k -> G c -> I (k_apply k c).1) ->
  I (kernel d) -> G (desired d) ->
  (forall k, I k -> Q tt (put_kernel k d)) ->
  (forall k e, I k -> R e (put_kernel k d)) -> wp apply_ Q R d.
Proof using Type.
  intros HI Hk HG HQ HR. unfold wp, apply_. pose proof (HI _ _ Hk HG) as Hk'.
  destruct (k_apply (kernel d) (desired d)) as [k [e|]]; auto.
Qed.

Lemma wp_encoding an (Q : unit -> MacsecDevice.t -> Prop) R d :
  (forall k a, I k -> I (k_encoding_sa k a).1) ->
  I (kernel d) ->
  (forall k, I k -> Q tt (put_kernel k d)) ->
  (forall k e, I k -> R e (put_kernel k d)) -> wp (set_encoding_sa an) Q R d.
Proof using Type.
  intros HI Hk HQ HR. unfold wp, set_encoding_sa. pose proof (HI _ an Hk) as Hk'.
  destruct (k_encoding_sa (kernel d) an) as [k [e|]]; auto.
Qed.

(** What every operation leaves behind, successful or not. *)
Definition sound (d : MacsecDevice.t) : Prop := I (kernel d) /\ wf (desired d).

Definition done_ (v : slot -> option SaConfig) (d : MacsecDevice.t) : Prop :=
  sound d /\ forall s, view (desired d) s = v s.

Lemma new_sa_pn_only v s kid c an act sak :
  (forall old, v s = Some old -> MacsecSaConfig.key_id old <> kid) ->
  (forall s', s' <> s -> view c s' = v s') ->
  (forall s' sa, v s' = Some sa -> MacsecSaConfig.pn sa = None) ->
  view c s = Some (new_sa an act kid sak) ->
  pn_only v (Some s) kid c.
Proof using Type.
  intros Hold Hoth Hset Hnew s' sa Hv Hp. destruct (decide (s' = s)) as [->|Hne].
  - rewrite Hnew in Hv. injection Hv as <-. done.
  - rewrite Hoth in Hv by done. by rewrite (Hset _ _ Hv) in Hp.
Qed.

Section one.
Context (v : slot -> option SaConfig)
  (Hset : forall s sa, v s = Some sa -> MacsecSaConfig.pn sa = None)
  (HE : forall k a, I k -> I (k_encoding_sa k a).1).

(** A slot that is free in [c], the rest as in [v]. *)
Definition free_in (s : slot) (c : NlMacsecConfig.t) : Prop :=
  forall s', view c s' = put_slot v s None s'.

Lemma wp_add_tx an kid sak act d :
  (forall k c, I k -> pn_only v (Some (Tx an)) kid c -> I (k_apply k c).1) ->
  sound d -> free_in (Tx an) (desired d) ->
  (forall old, v (Tx an) = Some old -> MacsecSaConfig.key_id old <> kid) ->
  wp (add_tx_sa an kid sak act)
    (fun _ d' => done_ (put_slot v (Tx an) (Some (installed an act kid sak))) d')
    (fun _ d' => sound d') d.
Proof using All.
  intros HI [Hk Hwf] Hfree Hold. unfold add_tx_sa. apply wp_bind, wp_modify, wp_bind.
  pose proof (Hfree (Tx an)) as Hn. unfold put_slot in Hn. rewrite decide_True in Hn by done.
  cbn [view] in Hn.
  set (l := tx d ++ [new_sa an act kid sak]).
  assert (Hl : forall a, find_an a l = if an =? a then Some (new_sa an act kid sak)
                                       else find_an a (tx d)).
  { intros a. unfold l. rewrite find_app. destruct (Z.eqb_spec an a) as [<-|Hne].
    - change (tx d) with (cfg_tx (desired d)). rewrite Hn, find_cons. cbn.
      by rewrite Z.eqb_refl.
    - destruct (find_an a (tx d)); [done|]. rewrite find_cons. cbn.
      by replace (an =? a) with false by lia. }
  assert (Hw1 : wf (NlMacsecConfig.set_tx_sa l (desired d))).
  { apply wf_set_tx; [done|]. apply unique_snoc; [apply Hwf|exact Hn]. }
  assert (Hoth : forall s', s' <> Tx an ->
    view (NlMacsecConfig.set_tx_sa l (desired d)) s' = v s').
  { intros s' Hs. pose proof (Hfree s') as Hf. unfold put_slot in Hf.
    rewrite decide_False in Hf by done. rewrite view_set_tx. destruct s' as [a|]; [|done].
    rewrite Hl. replace (an =? a) with false by (symmetry; apply Z.eqb_neq; congruence).
    exact Hf. }
  eapply wp_apply; [exact HI|exact Hk| | |].
  - eapply new_sa_pn_only; [done|exact Hoth|done|].
    transitivity (find_an an l); [done|]. by rewrite Hl, Z.eqb_refl.
  - intros k Hk1. apply wp_bind, wp_modify.
    set (d2 := forget_tx_sa_pn an _).
    assert (Hd2 : done_ (put_slot v (Tx an) (Some (installed an act kid sak))) d2).
    { unfold d2, forget_tx_sa_pn. cbn [desired put_kernel put_tx put_desired
        NlMacsecConfig.set_tx_sa NlMacsecConfig.tx_sa].
      split; [split; [exact Hk1|]|].
      - apply wf_set_tx; [done|]. unfold unique. rewrite keys_update by done. apply Hw1.
      - intros s'. cbn [desired put_tx put_desired]. rewrite view_set_tx. unfold put_slot.
        destruct (decide (Tx an = s')) as [<-|Hne].
        + rewrite (find_update MacsecSaConfig.an an an) by done. by rewrite Z.eqb_refl, Hl, Z.eqb_refl.
        + rewrite <- Hoth by done. rewrite view_set_tx. destruct s' as [a|]; [|done].
          rewrite (find_update MacsecSaConfig.an an a) by done.
          by replace (an =? a) with false by (symmetry; apply Z.eqb_neq; congruence). }
    clearbody d2. destruct act; [|by apply wp_mret].
    destruct Hd2 as [[Hk2 Hw2] Hv2]. apply wp_encoding; [done|done|..]; by intros.
  - intros k e Hk1. by split.
Qed.

Lemma view_ext_put s c :
  (forall s', view c s' = v s') -> forall s', view c s' = put_slot v s (v s) s'.
Proof using Type.
  intros Hv s'. unfold put_slot. destruct (decide (s = s')) as [<-|]; apply Hv.
Qed.

Lemma wp_install_tx an ki sak act d :
  (forall k c, I k -> pn_only v (Some (Tx an)) (keyid_bytes ki) c -> I (k_apply k c).1) ->
  sound d -> (forall s, view (desired d) s = v s) ->
  wp (install_tx_sa an ki sak act)
    (fun _ d' => done_ (op_view (InstallTx an ki sak act) v) d') (fun _ d' => sound d') d.
Proof using All.
  intros HI [Hk Hwf] Hv. unfold install_tx_sa. apply wp_bind, wp_modify, wp_bind, wp_get.
  change (tx (put_tx (tx d) d)) with (tx d).
  set (d1 := put_tx (tx d) d).
  assert (Hw1 : wf (desired d1)) by (apply wf_set_tx; [done|apply Hwf]).
  assert (Hv1 : forall s, view (desired d1) s = v s) by (intros s; rewrite <- Hv; by destruct s).
  assert (Hs1 : sound d1) by done.
  assert (Hset1 : settled (desired d1)) by (intros s sa; rewrite Hv1; apply Hset).
  change (has_an an) with (has MacsecSaConfig.an an). cbn [op_view].
  destruct (position (has MacsecSaConfig.an an) (tx d)) as [[pos sa]|] eqn:Hp.
  - pose proof (position_find _ _ _ _ _ Hp) as Hf.
    assert (Hvs : v (Tx an) = Some sa) by (rewrite <- Hv; exact Hf). rewrite Hvs.
    destruct (bool_decide_reflect (MacsecSaConfig.key_id sa = keyid_bytes ki)) as [Hsame|Hdiff].
    + apply wp_bind.
      set (l := if act then update_first (has MacsecSaConfig.an an)
                         (MacsecSaConfig.set_active true) (tx d) else tx d).
      assert (Hd2 : done_ (put_slot v (Tx an)
        (Some (if act then MacsecSaConfig.set_active true sa else sa))) (put_tx l d1)).
      { unfold l. split; [split; [done|]|].
        - apply wf_set_tx; [done|]. destruct act; [|apply Hwf]. unfold unique.
          rewrite keys_update by done. apply Hwf.
        - intros s. unfold put_slot. cbn [desired put_tx put_desired]. rewrite view_set_tx.
          destruct (decide (Tx an = s)) as [<-|Hne].
          + destruct act; [|exact Hf].
            rewrite (find_update MacsecSaConfig.an an an), Z.eqb_refl by done.
            change (find_an an (tx d)) with (view (desired d1) (Tx an)). by rewrite Hv1, Hvs.
          + rewrite <- Hv1. destruct s as [a|]; [|done]. destruct act; [|done].
            rewrite (find_update MacsecSaConfig.an an a) by done.
            by replace (an =? a) with false by (symmetry; apply Z.eqb_neq; congruence). }
      assert (Hgo : wp (apply_;; if act then set_encoding_sa an else mret tt)
        (fun _ d' => done_ (put_slot v (Tx an)
          (Some (if act then MacsecSaConfig.set_active true sa else sa))) d')
        (fun _ d' => sound d') (put_tx l d1)).
      { apply wp_bind. destruct Hd2 as [[Hk2 Hw2] Hv2].
        eapply wp_apply; [exact HI|exact Hk2| | |].
        - apply settled_pn_only. intros s sa'. rewrite Hv2. unfold put_slot.
          destruct (decide (Tx an = s)); [|apply Hset]. intros [= <-].
          pose proof (Hset _ _ Hvs). by destruct act.
        - intros k Hk3. destruct act; [|by apply wp_mret].
          apply wp_encoding; [done|done|..]; by intros.
        - by intros k e Hk3. }
      destruct act; [apply wp_modify|apply wp_mret]; exact Hgo.
    + destruct (find_remove MacsecSaConfig.an an an (tx d) pos sa) as [_ Hu]; [apply Hwf|done|].
      set (d2 := put_tx (vec_remove pos (tx d)) d1).
      assert (Hfree : free_in (Tx an) (desired d2)).
      { intros s. unfold put_slot. cbn [desired d2 put_tx put_desired]. rewrite view_set_tx.
        destruct (decide (Tx an = s)) as [<-|Hne].
        - destruct (find_remove MacsecSaConfig.an an an (tx d) pos sa) as [-> _];
            [apply Hwf|done|]. by rewrite Z.eqb_refl.
        - rewrite <- Hv1. destruct s as [a|]; [|done].
          destruct (find_remove MacsecSaConfig.an an a (tx d) pos sa) as [-> _];
            [apply Hwf|done|].
          by replace (an =? a) with false by (symmetry; apply Z.eqb_neq; congruence). }
      assert (Hs2 : sound d2) by (split; [done|by apply wf_set_tx]).
      apply wp_bind, wp_modify, wp_bind. change (put_tx _ _) with d2. clearbody d2.
      destruct Hs2 as [Hk2 Hw2]. eapply wp_apply; [exact HI|exact Hk2| | |].
      * apply settled_pn_only. intros s sa'. rewrite Hfree. unfold put_slot.
        destruct (decide (Tx an = s)); [done|apply Hset].
      * intros k Hk3. apply wp_add_tx; [done|done|done|]. intros old. by rewrite Hvs; intros [= <-].
      * by intros k e Hk3.
  - pose proof (position_None _ _ _ Hp) as Hf.
    assert (Hvs : v (Tx an) = None) by (rewrite <- Hv; exact Hf). rewrite Hvs.
    apply wp_add_tx; [done|done| |by rewrite Hvs].
    intros s. rewrite <- Hvs. by apply view_ext_put.
Qed.

(** Changing the SAs of the channel at a known position. *)
Lemma alter_sc_spec d sci i sc f :
  sound d -> position (has MacsecRxScConfig.sci sci) (rx d) = Some (i, sc) ->
  (forall x, MacsecRxScConfig.sci (f x) = MacsecRxScConfig.sci x) ->
  unique MacsecSaConfig.an (sas (f sc)) ->
  sound (alter_sc i f d)
  /\ position (has MacsecRxScConfig.sci sci) (rx (alter_sc i f d)) = Some (i, f sc)
  /\ forall s, view (desired (alter_sc i f d)) s
       = match s with
         | Rx sci' an => if sci =? sci' then find_an an (sas (f sc)) else view (desired d) s
         | Tx _ => view (desired d) s
         end.
Proof using Type.
  intros [Hk Hwf] Hp Hf Hu. unfold alter_sc. rewrite (alter_position _ _ _ _ _ _ Hp).
  pose proof (position_find _ _ _ _ _ Hp) as Hfind.
  destruct (rx_update sci f (desired d) Hwf Hf) as [Hw Hv].
  { intros sc' Hsc. change (rx d) with (cfg_rx (desired d)) in Hfind. congruence. }
  split; [split; [exact Hk|exact Hw]|]. split; [by apply position_update|].
  intros s. etransitivity; [apply Hv|]. destruct s as [|sci' an]; [done|].
  destruct (Z.eqb_spec sci sci') as [<-|]; [|done].
  change (cfg_rx (desired d)) with (rx d). by rewrite Hfind.
Qed.

Lemma wp_add_rx i sci sc an kid sak d :
  (forall k c, I k -> pn_only v (Some (Rx sci an)) kid c -> I (k_apply k c).1) ->
  sound d -> free_in (Rx sci an) (desired d) ->
  position (has MacsecRxScConfig.sci sci) (rx d) = Some (i, sc) ->
  (forall old, v (Rx sci an) = Some old -> MacsecSaConfig.key_id old <> kid) ->
  wp (add_rx_sa i sci an kid sak)
    (fun _ d' => done_ (put_slot v (Rx sci an) (Some (installed an true kid sak))) d')
    (fun _ d' => sound d') d.
Proof using All.
  intros HI Hsd Hfree Hp Hold. unfold add_rx_sa. apply wp_bind, wp_modify, wp_bind.
  set (f := fun x => MacsecRxScConfig.set_sa_list (sas x ++ [new_sa an true kid sak]) x).
  pose proof (position_find _ _ _ _ _ Hp) as Hfind.
  pose proof (Hfree (Rx sci an)) as Hn. unfold put_slot in Hn. rewrite decide_True in Hn by done.
  cbn [view] in Hn. change (cfg_rx (desired d)) with (rx d) in Hn. rewrite Hfind in Hn.
  cbn [mbind option_bind] in Hn.
  assert (Husc : unique MacsecSaConfig.an (sas sc))
    by exact (find_Forall _ _ _ _ _ (wf_sas _ (proj2 Hsd)) Hfind).
  destruct (alter_sc_spec d sci i sc f Hsd Hp ltac:(done)) as ([Hk1 Hw1] & Hp1 & Hv1).
  { by apply unique_snoc. }
  assert (Hl : forall a, find_an a (sas (f sc))
    = if an =? a then Some (new_sa an true kid sak) else find_an a (sas sc)).
  { intros a. change (sas (f sc)) with (sas sc ++ [new_sa an true kid sak]).
    rewrite find_app. destruct (Z.eqb_spec an a) as [<-|Hne].
    - rewrite Hn, find_cons. cbn. by rewrite Z.eqb_refl.
    - destruct (find_an a (sas sc)); [done|]. rewrite find_cons. cbn.
      by replace (an =? a) with false by lia. }
  assert (Hoth : forall s', s' <> Rx sci an -> view (desired (alter_sc i f d)) s' = v s').
  { intros s' Hs. pose proof (Hfree s') as Hf. unfold put_slot in Hf.
    rewrite decide_False in Hf by done. rewrite Hv1. destruct s' as [a|sci' a]; [done|].
    destruct (Z.eqb_spec sci sci') as [<-|]; [|done]. rewrite Hl.
    replace (an =? a) with false by (symmetry; apply Z.eqb_neq; congruence).
    rewrite <- Hf. cbn [view]. change (cfg_rx (desired d)) with (rx d). by rewrite Hfind. }
  eapply wp_apply; [exact HI|exact Hk1| | |].
  - eapply new_sa_pn_only; [done|exact Hoth|done|].
    rewrite Hv1, Z.eqb_refl, Hl, Z.eqb_refl. done.
  - intros k Hk2. apply wp_modify.
    set (g := fun sc => match MacsecRxScConfig.sa_list sc with
                        | Some sas => MacsecRxScConfig.set_sa_list
                            (update_first (has_an an) MacsecSaConfig.forget_pn sas) sc
                        | None => sc end).
    assert (Hg : forall a, find_an a (sas (g (f sc)))
      = if an =? a then MacsecSaConfig.forget_pn <$> find_an a (sas (f sc))
        else find_an a (sas (f sc)))
      by (intros a; apply (find_update MacsecSaConfig.an); done).
    destruct (alter_sc_spec (put_kernel k (alter_sc i f d)) sci i (f sc) g)
      as ([Hk3 Hw3] & _ & Hv3); [done|done|by intros [? ? []]| |].
    { unfold unique, g, f. cbn. change (has_an an) with (has MacsecSaConfig.an an).
      rewrite keys_update by done. by apply unique_snoc. }
    assert (Heq : forget_rx_sa_pn sci an (put_kernel k (alter_sc i f d))
      = alter_sc i g (put_kernel k (alter_sc i f d))).
    { unfold alter_sc at 2. rewrite (alter_position _ _ _ _ _ _ Hp1). done. }
    rewrite Heq. split; [by split|]. intros s. rewrite Hv3. unfold put_slot.
    destruct (decide (Rx sci an = s)) as [<-|Hne].
    + rewrite Z.eqb_refl, Hg, Z.eqb_refl, Hl, Z.eqb_refl. done.
    + rewrite <- Hoth by done. cbn [desired put_kernel]. rewrite Hv1. destruct s as [|sci' a]; [done|].
      destruct (Z.eqb_spec sci sci') as [<-|]; [|done]. rewrite Hg.
      by replace (an =? a) with false by (symmetry; apply Z.eqb_neq; congruence).
  - by intros k e Hk2.
Qed.

(** The channel of a peer, created when it is missing. *)
Lemma wp_open_sc sci d (Q : nat -> MacsecDevice.t -> Prop) R :
  sound d -> (forall s, view (desired d) s = v s) ->
  (forall i sc d1, sound d1 -> (forall s, view (desired d1) s = v s) ->
     position (has MacsecRxScConfig.sci sci) (rx d1) = Some (i, sc) -> Q i d1) ->
  wp (rx_sc_index sci) Q R d.
Proof using Type.
  intros [Hk Hwf] Hv HQ. unfold rx_sc_index. apply wp_bind, wp_get. change (has_sci sci) with (has MacsecRxScConfig.sci sci).
  destruct (position (has MacsecRxScConfig.sci sci) (rx d)) as [[i sc]|] eqn:Hp;
    apply wp_bind, wp_modify, wp_mret.
  - apply (HQ i sc); [|intros s; rewrite <- Hv; by destruct s|exact Hp].
    split; [done|]. apply wf_set_rx; [done|apply Hwf..].
  - pose proof (position_None _ _ _ Hp) as Hf.
    apply (HQ _ (MacsecRxScConfig.new sci)); [|intros s; rewrite <- Hv|by apply position_snoc].
    + split; [done|]. apply wf_set_rx; [done|by apply unique_snoc; [apply Hwf|]|].
      apply Forall_app. split; [apply Hwf|]. constructor; [apply NoDup_nil_2|constructor].
    + cbn [desired put_rx put_desired]. rewrite view_set_rx. destruct s as [|sci' a]; [done|].
      rewrite find_app. cbn [view]. change (cfg_rx (desired d)) with (rx d).
      destruct (find_sci sci' (rx d)); [done|]. rewrite find_cons. cbn.
      by destruct (sci =? sci').
Qed.

Lemma wp_install_rx peer_sci an ki sak d :
  (forall k c, I k -> pn_only v (Some (Rx (sci_be peer_sci) an)) (keyid_bytes ki) c ->
     I (k_apply k c).1) ->
  sound d -> (forall s, view (desired d) s = v s) ->
  wp (install_rx_sa peer_sci an ki sak)
    (fun _ d' => done_ (op_view (InstallRx peer_sci an ki sak) v) d')
    (fun _ d' => sound d') d.
Proof using All.
  intros HI Hsd Hv. unfold install_rx_sa. set (sci := sci_be peer_sci) in *.
  apply wp_bind, wp_open_sc; [done|done|].
  clear d Hsd Hv. intros i sc d Hsd Hv Hp. apply wp_bind, wp_modify.
  set (f := fun x => MacsecRxScConfig.set_sa_list (sas x) (MacsecRxScConfig.set_active true x)).
  pose proof (position_find _ _ _ _ _ Hp) as Hfind.
  assert (Husc : unique MacsecSaConfig.an (sas sc))
    by exact (find_Forall _ _ _ _ _ (wf_sas _ (proj2 Hsd)) Hfind).
  destruct (alter_sc_spec d sci i sc f Hsd Hp ltac:(done) Husc) as (Hsd1 & Hp1 & Hv1).
  assert (Hvsc : forall a, v (Rx sci a) = find_an a (sas sc)).
  { intros a. rewrite <- Hv. cbn [view]. change (cfg_rx (desired d)) with (rx d).
    by rewrite Hfind. }
  assert (Hv2 : forall s, view (desired (alter_sc i f d)) s = v s).
  { intros s. rewrite Hv1. destruct s as [|sci' a]; [apply Hv|].
    destruct (Z.eqb_spec sci sci') as [<-|]; [by rewrite Hvsc|apply Hv]. }
  clear Hv1 Hv. generalize dependent (alter_sc i f d). intros d1 Hsd1 Hp1 Hv2.
  apply wp_bind, wp_get, wp_bind.
  rewrite (proj2 (idx_ok (rx d1) i (f sc)) (position_lookup _ _ _ _ _ Hp1)).
  apply (wp_lift (Ok (f sc))); [done| |done]. intros sc' <-%Ok_inj.
  change (sas (f sc)) with (sas sc). change (has_an an) with (has MacsecSaConfig.an an).
  destruct (position (has MacsecSaConfig.an an) (sas sc)) as [[pos sa]|] eqn:Hps; cbn [op_view];
    fold sci.
  - pose proof (position_find _ _ _ _ _ Hps) as Hfa. rewrite Hvsc, Hfa.
    destruct (bool_decide_reflect (MacsecSaConfig.key_id sa = keyid_bytes ki)) as [Hsame|Hdiff].
    + destruct Hsd1 as [Hk1 Hw1]. eapply wp_apply; [exact HI|exact Hk1| | |by intros].
      * apply settled_pn_only. intros s x. rewrite Hv2. apply Hset.
      * intros k Hk2. split; [done|]. rewrite <- Hfa, <- Hvsc. by apply view_ext_put.
    + apply wp_bind, wp_modify, wp_bind.
      set (g := fun x => MacsecRxScConfig.set_sa_list (vec_remove pos (sas x)) x).
      destruct (alter_sc_spec d1 sci i (f sc) g Hsd1 Hp1 ltac:(done)) as (Hsd3 & Hp3 & Hv3).
      { by destruct (find_remove MacsecSaConfig.an an an (sas sc) pos sa Husc Hps). }
      assert (Hfree : free_in (Rx sci an) (desired (alter_sc i g d1))).
      { intros s. rewrite Hv3, Hv2. unfold put_slot. destruct s as [a|sci' a]; [done|].
        destruct (Z.eqb_spec sci sci') as [<-|]; [|by rewrite decide_False by congruence].
        destruct (find_remove MacsecSaConfig.an an a (sas sc) pos sa Husc Hps) as [Hr _].
        etransitivity; [exact Hr|]. destruct (Z.eqb_spec an a) as [Heq|Hne].
        - by rewrite Heq, decide_True.
        - by rewrite decide_False, Hvsc by congruence. }
      destruct Hsd3 as [Hk3 Hw3]. eapply wp_apply; [exact HI|exact Hk3| | |by intros].
      * apply settled_pn_only. intros s x. rewrite Hfree. unfold put_slot.
        destruct (decide _); [done|apply Hset].
      * intros k Hk4. eapply wp_add_rx; [exact HI|done|exact Hfree|exact Hp3|].
        intros old. by rewrite Hvsc, Hfa; intros [= <-].
  - pose proof (position_None _ _ _ Hps) as Hfa. rewrite Hvsc, Hfa.
    eapply wp_add_rx; [exact HI|done| |exact Hp1|by rewrite Hvsc, Hfa].
    intros s. rewrite <- Hfa, <- Hvsc. by apply view_ext_put.
Qed.

Lemma wp_set_active an d :
  (forall k c, I k -> pn_only v None [] c -> I (k_apply k c).1) ->
  sound d -> (forall s, view (desired d) s = v s) ->
  wp (set_tx_sa_active an)
    (fun _ d' => done_ (op_view (SetTxActive an) v) d') (fun _ d' => sound d') d.
Proof using All.
  intros HI [Hk Hwf] Hv. unfold set_tx_sa_active. apply wp_bind, wp_get, wp_bind.
  assert (Hgo : forall d1, done_ (op_view (SetTxActive an) v) d1 ->
    wp (apply_;; set_encoding_sa an)
      (fun _ d' => done_ (op_view (SetTxActive an) v) d') (fun _ d' => sound d') d1).
  { intros d1 [[Hk1 Hw1] Hv1]. apply wp_bind.
    eapply wp_apply; [exact HI|exact Hk1| | |by intros].
    - apply settled_pn_only. intros s x. rewrite Hv1. by apply op_view_settled.
    - intros k Hk2. apply wp_encoding; [done|done|..]; by intros. }
  destruct (NlMacsecConfig.tx_sa (desired d)) as [l|] eqn:Hl.
  - assert (Htx : cfg_tx (desired d) = l) by (unfold cfg_tx; by rewrite Hl).
    apply wp_modify, Hgo. split; [split; [done|]|].
    + apply wf_set_tx; [done|]. unfold unique. change (has_an an) with (has MacsecSaConfig.an an).
      rewrite keys_update, <- Htx by done. apply Hwf.
    + intros s. cbn [desired put_tx put_desired op_view]. rewrite view_set_tx. unfold put_slot.
      rewrite <- !Hv. destruct s as [a|sci a]; [|by rewrite decide_False].
      change (has_an an) with (has MacsecSaConfig.an an).
      rewrite (find_update MacsecSaConfig.an an a) by done. cbn [view]. rewrite Htx.
      destruct (Z.eqb_spec an a) as [<-|]; [by rewrite decide_True|].
      by rewrite decide_False by congruence.
  - apply wp_mret, Hgo. split; [done|]. intros s. rewrite Hv. cbn [op_view]. unfold put_slot.
    destruct (decide (Tx an = s)) as [<-|]; [|done]. rewrite <- Hv. cbn [view].
    unfold cfg_tx. by rewrite Hl.
Qed.

Lemma wp_remove peer_sci d :
  (forall k c, I k -> pn_only v None [] c -> I (k_apply k c).1) ->
  sound d -> (forall s, view (desired d) s = v s) ->
  wp (remove_rx_sc peer_sci)
    (fun _ d' => done_ (op_view (RemoveRxSc peer_sci) v) d') (fun _ d' => sound d') d.
Proof using Hset.
  intros HI [Hk Hwf] Hv. unfold remove_rx_sc. apply wp_bind, wp_get, wp_bind.
  assert (Hgo : forall d1, done_ (op_view (RemoveRxSc peer_sci) v) d1 ->
    wp apply_ (fun _ d' => done_ (op_view (RemoveRxSc peer_sci) v) d') (fun _ d' => sound d') d1).
  { intros d1 [[Hk1 Hw1] Hv1]. eapply wp_apply; [exact HI|exact Hk1| |by intros|by intros].
    apply settled_pn_only. intros s x. rewrite Hv1. by apply op_view_settled. }
  destruct (NlMacsecConfig.rx_sc (desired d)) as [l|] eqn:Hl.
  - assert (Hrx : cfg_rx (desired d) = l) by (unfold cfg_rx; by rewrite Hl).
    apply wp_modify, Hgo. split; [split; [done|]|].
    + apply wf_set_rx; [done| |]; rewrite <- Hrx.
      * apply unique_filter, Hwf.
      * apply Forall_forall. intros sc [_ Hsc]%list_elem_of_filter.
        exact (proj1 (Forall_forall _ _) (wf_sas _ Hwf) sc Hsc).
    + intros s. cbn [desired put_rx put_desired op_view]. rewrite view_set_rx, <- Hv.
      destruct s as [a|sci a]; [done|]. rewrite (find_filter MacsecRxScConfig.sci).
      destruct (sci_be peer_sci =? sci); [done|]. cbn [view]. by rewrite Hrx.
  - apply wp_mret, Hgo. split; [done|]. intros s. rewrite Hv. cbn [op_view].
    destruct s as [a|sci a]; [done|]. destruct (_ =? _); [|done]. rewrite <- Hv. cbn [view].
    unfold cfg_rx. by rewrite Hl.
Qed.

Lemma wp_clear d :
  (forall k c, I k -> pn_only v None [] c -> I (k_apply k c).1) ->
  I (kernel d) ->
  wp clear_sas (fun _ d' => done_ (op_view ClearSas v) d') (fun _ d' => sound d') d.
Proof using Type.
  intros HI Hk. unfold clear_sas. do 2 apply wp_bind, wp_modify.
  assert (Hw : wf (NlMacsecConfig.mk (Some []) (Some [])))
    by (split; [apply NoDup_nil_2..|constructor]).
  assert (Hv : forall s, view (NlMacsecConfig.mk (Some []) (Some [])) s = None) by (by intros []).
  eapply wp_apply; [exact HI|exact Hk| |by intros|by intros].
  apply settled_pn_only. intros s x Hx. pose proof (eq_trans (eq_sym Hx) (Hv s)). done.
Qed.

End one.

End ops.

(** C15: the device refines a map from slots (transmit, or a receive channel, and
    an association number) to keys.  From a configuration with unique association
    numbers and channels in which no packet number is pending, a successful
    operation updates the map as its specification says and again leaves no
    packet number pending; uniqueness also survives a failure.  Every
    configuration sent on the way asks for a packet number at most for the key
    being installed, and only if its slot did not hold that key already: any
    property of the kernel that such configurations preserve holds afterwards. *)
Theorem macsec_device_refines `{MacsecKernel} (I : Kernel -> Prop) o d d' r :
  (forall k c, I k -> pn_only (view (desired d)) (op_slot o) (op_kid o) c ->
     I (k_apply k c).1) ->
  (forall k a, I k -> I (k_encoding_sa k a).1) ->
  I (kernel d) -> wf (desired d) -> settled (desired d) -> run o d = (d', r) ->
  I (kernel d') /\ wf (desired d')
  /\ (r = Ok tt ->
      settled (desired d')
      /\ forall s, view (desired d') s = op_view o (view (desired d)) s)
  /\ (r = Ok tt \/ exists e, r = Err e).
Proof.
  intros HI HE Hk Hwf Hset Hrun. set (v := view (desired d)) in *.
  assert (Hs : sound I d) by done.
  assert (Hwp : wp (run o) (fun _ d' => done_ I (op_view o v) d') (fun _ d' => sound I d') d).
  { destruct o; cbn [run op_slot op_kid] in *.
    - by apply wp_install_tx.
    - by apply wp_install_rx.
    - by apply wp_set_active.
    - by apply wp_remove.
    - by apply wp_clear. }
  apply (wp_intro _ _ _ _ _ _ Hwp) in Hrun. destruct r as [[]|e| |]; try done.
  - destruct Hrun as [[Hk' Hw'] Hv']. split; [done|]. split; [done|]. split; [|by left].
    intros _. split; [|done]. intros s sa. rewrite Hv'. by apply op_view_settled.
  - destruct Hrun as [Hk' Hw']. split; [done|]. split; [done|]. split; [done|].
    by right; eexists.
Qed.

(** A kernel that records what it is sent and refuses nothing. *)
#[local] Instance log_kernel : MacsecKernel := {|
  Kernel := list NlMacsecConfig.t;
  k_apply k c := (k ++ [c], None);
  k_encoding_sa k _ := (k, None);
|}.

Definition fresh_device : MacsecDevice.t :=
  MacsecDevice.mk (H := log_kernel) (@nil NlMacsecConfig.t)
    (NlMacsecConfig.mk (Some []) (Some [])).

(** The configurations sent so far. *)
Definition sent (d : MacsecDevice.t) : list NlMacsecConfig.t := kernel (H := log_kernel) d.

Definition toy_op : op := InstallRx [0; 0; 0; 0; 0; 0; 0; 5] 1 (mkKeyId (repeat 7 12) 3) (repeat 9 16).

Lemma macsec_device_refines_witness :
  let v := view (desired fresh_device) in
  let d' := (run toy_op fresh_device).1 in
  Forall (pn_only v (op_slot toy_op) (op_kid toy_op)) (sent d')
  /\ view (desired d') (Rx 5 1) = op_view toy_op v (Rx 5 1).
Proof.
  intros v d'.
  destruct (macsec_device_refines (H := log_kernel)
    (fun k : list NlMacsecConfig.t => Forall (pn_only v (op_slot toy_op) (op_kid toy_op)) k)
    toy_op fresh_device d' (Ok tt)) as (Hk & _ & Hr & _).
  - intros k c Hk Hc. apply Forall_app. split; [exact Hk|]. constructor; [exact Hc|constructor].
  - intros k a Hk. exact Hk.
  - constructor.
  - split; [apply NoDup_nil_2|apply NoDup_nil_2|constructor].
  - intros [a|sci a] sa Hsa; vm_compute in Hsa; discriminate.
  - vm_compute. reflexivity.
  - split; [exact Hk|]. apply Hr. reflexivity.
Defined.

End MacsecFacts.
