(* ===== verification/MkaSession.v ===== *)
(** * The MKA participant

    [src/src/wired/mka.rs], lines 700 to 1560: [MkaSession], the participant and
    key-server state machine.  The state is the source's struct without its file
    descriptors; a method that takes [&mut self] is a computation in the [st]
    monad.  What a method reads from outside is an argument: the clock (as
    milliseconds), the random MI and SAK, and the frame.  The MACsec device is used
    through the interface [SecyOps], which [src/src/wired/macsec.rs] implements. *)

From S2P Require Import Prelude Errors Mka Macsec.

(** What a session asks of the device that holds its SAs. *)
Class SecyOps := {
  Dev : Type;
  dev_install_rx_sa : list Z -> Z -> KeyId -> list Z -> st Dev WifiError.t unit;
  dev_install_tx_sa : Z -> KeyId -> list Z -> bool -> st Dev WifiError.t unit;
  dev_set_tx_sa_active : Z -> st Dev WifiError.t unit;
  dev_remove_rx_sc : list Z -> st Dev WifiError.t unit;
  dev_clear_sas : st Dev WifiError.t unit;
}.

(** What the device promises: every call returns, with success or an error. *)
Class SecyLaws `{SecyOps} : Prop := {
  rx_returns sci an ki sak d : returns (dev_install_rx_sa sci an ki sak d).2;
  tx_returns an ki sak act d : returns (dev_install_tx_sa an ki sak act d).2;
  active_returns an d : returns (dev_set_tx_sa_active an d).2;
  remove_returns sci d : returns (dev_remove_rx_sc sci d).2;
  clear_returns d : returns (dev_clear_sas d).2;
}.

#[export] Instance macsec_secy `{MacsecKernel} : SecyOps := {|
  Dev := MacsecDevice.t;
  dev_install_rx_sa := MacsecDevice.install_rx_sa;
  dev_install_tx_sa := MacsecDevice.install_tx_sa;
  dev_set_tx_sa_active := MacsecDevice.set_tx_sa_active;
  dev_remove_rx_sc := MacsecDevice.remove_rx_sc;
  dev_clear_sas := MacsecDevice.clear_sas;
|}.

Definition PAE_GROUP_ADDR : list Z := [0x01; 0x80; 0xc2; 0x00; 0x00; 0x03].

(** [[0u8; 8]], the SCI of a peer that has not advertised one. *)
Definition no_sci : list Z := replicate 8 0.

Module EapolFrame.

Record t := mk { src : list Z; dst : list Z; payload : list Z }.

End EapolFrame.

Module Peer.

Record t := mk {
  mi : list Z;
  mn : Z;
  sci : list Z;
  priority : Z;
  key_server : bool;
  macsec_desired : bool;
  macsec_capability : Z;
  live : bool;
  last_seen : Z;
  rx_ready : bool;
  rx_installed : bool;
}.

(** Assignments to one field. *)
Definition put_live (v : bool) (s : t) : t :=
  mk (mi s) (mn s) (sci s) (priority s) (key_server s) (macsec_desired s)
    (macsec_capability s) v (last_seen s) (rx_ready s) (rx_installed s).
Definition put_last_seen (v : Z) (s : t) : t :=
  mk (mi s) (mn s) (sci s) (priority s) (key_server s) (macsec_desired s)
    (macsec_capability s) (live s) v (rx_ready s) (rx_installed s).
Definition put_rx_ready (v : bool) (s : t) : t :=
  mk (mi s) (mn s) (sci s) (priority s) (key_server s) (macsec_desired s)
    (macsec_capability s) (live s) (last_seen s) v (rx_installed s).
Definition put_rx_installed (v : bool) (s : t) : t :=
  mk (mi s) (mn s) (sci s) (priority s) (key_server s) (macsec_desired s)
    (macsec_capability s) (live s) (last_seen s) (rx_ready s) v.

(** What a received PDU says of its sender. *)
Definition refresh (b : MkaBasic) (now : Z) (p : t) : t :=
  mk (mi p) (b_mn b) (b_sci b) (b_priority b) (b_key_server b) (b_macsec_desired b)
    (b_macsec_capability b) (live p) now (rx_ready p) (rx_installed p).

(** [changed] in [handle_frame]. *)
Definition differs (b : MkaBasic) (p : t) : bool :=
  negb (mn p =? b_mn b) || negb (bool_decide (sci p = b_sci b))
  || negb (priority p =? b_priority b) || negb (eqb (key_server p) (b_key_server b))
  || negb (eqb (macsec_desired p) (b_macsec_desired b))
  || negb (macsec_capability p =? b_macsec_capability b) || negb (live p).

(** A peer first heard of in its own PDU, and in another peer's list. *)
Definition heard (b : MkaBasic) (now : Z) : t :=
  mk (b_mi b) 0 (b_sci b) (b_priority b) (b_key_server b) (b_macsec_desired b)
    (b_macsec_capability b) false now false false.

Definition listed (id : PeerId) (now : Z) : t :=
  mk (pi_mi id) (pi_mn id) no_sci 0xff false false MACSEC_CAP_NOT_IMPLEMENTED
    false now false false.

End Peer.

(** ** Helpers *)

Definition live_peer_scis (peers : list Peer.t) : list (list Z) :=
  Peer.sci <$> List.filter
    (fun p => Peer.live p && negb (bool_decide (Peer.sci p = no_sci))) peers.

Definition pending_rx_scis (peers : list Peer.t) : list (list Z) :=
  Peer.sci <$> List.filter
    (fun p => Peer.live p && negb (bool_decide (Peer.sci p = no_sci))
              && negb (Peer.rx_installed p)) peers.

(** [slice::sort_by_key], a stable sort: an element goes before those with a
    greater key only. *)
Fixpoint sort_insert {A} (lt : A -> A -> bool) (x : A) (l : list A) : list A :=
  match l with
  | [] => [x]
  | y :: l' => if lt y x then y :: sort_insert lt x l' else x :: l
  end.

Definition sort_by {A} (lt : A -> A -> bool) (l : list A) : list A :=
  foldr (sort_insert lt) [] l.

Definition peer_id (p : Peer.t) : PeerId := mkPeerId (Peer.mi p) (Peer.mn p).

(** The order of [(Reverse(sci), Reverse(mi))]. *)
Definition live_before (p q : PeerId * list Z) : bool :=
  array_lt (q.2) (p.2)
  || (bool_decide (p.2 = q.2) && array_lt (pi_mi q.1) (pi_mi p.1)).

Definition ordered_live_peers (peers : list Peer.t) : list PeerId :=
  fst <$> sort_by live_before
    ((fun p => (peer_id p, Peer.sci p)) <$> List.filter Peer.live peers).

Definition sak_use_matches (local : option KeyId) (peer : KeyId) : bool :=
  bool_decide (local = Some peer).

Definition CS_ID_GCM_AES_128 : list Z := [0x00; 0x80; 0x02; 0x00; 0x01; 0x00; 0x00; 0x01].

Definition confidentiality_offset (encrypt : bool) : Z := if encrypt then 1 else 0.

Definition dist_sak_supported (encrypt : bool) (dist : DistSak) : bool :=
  if 1 <? d_confidentiality_offset dist then false
  else if negb (eqb encrypt (d_confidentiality_offset dist =? 1)) then false
  else match d_cipher_suite dist with
       | None => true
       | Some suite => bool_decide (suite = CS_ID_GCM_AES_128)
       end.

Definition mn_is_recent (own_next_mn peer_mn : Z) : bool :=
  (peer_mn =? as_u32 (own_next_mn - 1)) || (peer_mn =? as_u32 (own_next_mn - 2)).

(** [x.wrapping_add(1).max(1)] for a [u32]. *)
Definition bump (x : Z) : Z := Z.max (as_u32 (x + 1)) 1.

(** [now.duration_since(then) < Duration::from_secs(MKA_LIFE_SECS)], which
    saturates at zero; the clock counts milliseconds. *)
Definition within_life (now then_ : Z) : bool :=
  Z.max 0 (now - then_) <? MKA_LIFE_SECS * 1000.

Module MkaSession.

Section session.
Context `{MkaCryptoLib} `{SecyOps}.

Record t := mk {
  mac : list Z;
  ckn : list Z;
  kek : list Z;
  ick : list Z;
  priority : Z;
  can_be_key_server : bool;
  encrypt : bool;
  macsec : option Dev;
  mi : list Z;
  mn : Z;
  peers : list Peer.t;
  is_key_server : bool;
  key_server_sci : list Z;
  lki : option KeyId;
  lan : Z;
  ltx : bool;
  lrx : bool;
  oki : option KeyId;
  oan : Z;
  otx : bool;
  orx : bool;
  sak : option (list Z);
  dist_sak : option DistSak;
  next_kn : Z;
  last_hello : Z;
  last_sak_time : option Z;
  need_send : bool;
  need_new_sak : bool;
}.

(** Assignments to one field. *)
Definition put_macsec (v : option Dev) (s : t) : t :=
  mk (mac s) (ckn s) (kek s) (ick s) (priority s) (can_be_key_server s)
    (encrypt s) v (mi s) (mn s) (peers s) (is_key_server s) (key_server_sci s)
    (lki s) (lan s) (ltx s) (lrx s) (oki s) (oan s) (otx s) (orx s) (sak s)
    (dist_sak s) (next_kn s) (last_hello s) (last_sak_time s) (need_send s)
    (need_new_sak s).
Definition put_mi (v : list Z) (s : t) : t :=
  mk (mac s) (ckn s) (kek s) (ick s) (priority s) (can_be_key_server s)
    (encrypt s) (macsec s) v (mn s) (peers s) (is_key_server s) (key_server_sci
    s) (lki s) (lan s) (ltx s) (lrx s) (oki s) (oan s) (otx s) (orx s) (sak s)
    (dist_sak s) (next_kn s) (last_hello s) (last_sak_time s) (need_send s)
    (need_new_sak s).
Definition put_mn (v : Z) (s : t) : t :=
  mk (mac s) (ckn s) (kek s) (ick s) (priority s) (can_be_key_server s)
    (encrypt s) (macsec s) (mi s) v (peers s) (is_key_server s) (key_server_sci
    s) (lki s) (lan s) (ltx s) (lrx s) (oki s) (oan s) (otx s) (orx s) (sak s)
    (dist_sak s) (next_kn s) (last_hello s) (last_sak_time s) (need_send s)
    (need_new_sak s).
Definition put_peers (v : list Peer.t) (s : t) : t :=
  mk (mac s) (ckn s) (kek s) (ick s) (priority s) (can_be_key_server s)
    (encrypt s) (macsec s) (mi s) (mn s) v (is_key_server s) (key_server_sci s)
    (lki s) (lan s) (ltx s) (lrx s) (oki s) (oan s) (otx s) (orx s) (sak s)
    (dist_sak s) (next_kn s) (last_hello s) (last_sak_time s) (need_send s)
    (need_new_sak s).
Definition put_is_key_server (v : bool) (s : t) : t :=
  mk (mac s) (ckn s) (kek s) (ick s) (priority s) (can_be_key_server s)
    (encrypt s) (macsec s) (mi s) (mn s) (peers s) v (key_server_sci s) (lki s)
    (lan s) (ltx s) (lrx s) (oki s) (oan s) (otx s) (orx s) (sak s) (dist_sak s)
    (next_kn s) (last_hello s) (last_sak_time s) (need_send s) (need_new_sak s).
Definition put_key_server_sci (v : list Z) (s : t) : t :=
  mk (mac s) (ckn s) (kek s) (ick s) (priority s) (can_be_key_server s)
    (encrypt s) (macsec s) (mi s) (mn s) (peers s) (is_key_server s) v (lki s)
    (lan s) (ltx s) (lrx s) (oki s) (oan s) (otx s) (orx s) (sak s) (dist_sak s)
    (next_kn s) (last_hello s) (last_sak_time s) (need_send s) (need_new_sak s).
Definition put_lki (v : option KeyId) (s : t) : t :=
  mk (mac s) (ckn s) (kek s) (ick s) (priority s) (can_be_key_server s)
    (encrypt s) (macsec s) (mi s) (mn s) (peers s) (is_key_server s)
    (key_server_sci s) v (lan s) (ltx s) (lrx s) (oki s) (oan s) (otx s) (orx s)
    (sak s) (dist_sak s) (next_kn s) (last_hello s) (last_sak_time s) (need_send
    s) (need_new_sak s).
Definition put_lan (v : Z) (s : t) : t :=
  mk (mac s) (ckn s) (kek s) (ick s) (priority s) (can_be_key_server s)
    (encrypt s) (macsec s) (mi s) (mn s) (peers s) (is_key_server s)
    (key_server_sci s) (lki s) v (ltx s) (lrx s) (oki s) (oan s) (otx s) (orx s)
    (sak s) (dist_sak s) (next_kn s) (last_hello s) (last_sak_time s) (need_send
    s) (need_new_sak s).
Definition put_ltx (v : bool) (s : t) : t :=
  mk (mac s) (ckn s) (kek s) (ick s) (priority s) (can_be_key_server s)
    (encrypt s) (macsec s) (mi s) (mn s) (peers s) (is_key_server s)
    (key_server_sci s) (lki s) (lan s) v (lrx s) (oki s) (oan s) (otx s) (orx s)
    (sak s) (dist_sak s) (next_kn s) (last_hello s) (last_sak_time s) (need_send
    s) (need_new_sak s).
Definition put_lrx (v : bool) (s : t) : t :=
  mk (mac s) (ckn s) (kek s) (ick s) (priority s) (can_be_key_server s)
    (encrypt s) (macsec s) (mi s) (mn s) (peers s) (is_key_server s)
    (key_server_sci s) (lki s) (lan s) (ltx s) v (oki s) (oan s) (otx s) (orx s)
    (sak s) (dist_sak s) (next_kn s) (last_hello s) (last_sak_time s) (need_send
    s) (need_new_sak s).
Definition put_oki (v : option KeyId) (s : t) : t :=
  mk (mac s) (ckn s) (kek s) (ick s) (priority s) (can_be_key_server s)
    (encrypt s) (macsec s) (mi s) (mn s) (peers s) (is_key_server s)
    (key_server_sci s) (lki s) (lan s) (ltx s) (lrx s) v (oan s) (otx s) (orx s)
    (sak s) (dist_sak s) (next_kn s) (last_hello s) (last_sak_time s) (need_send
    s) (need_new_sak s).
Definition put_oan (v : Z) (s : t) : t :=
  mk (mac s) (ckn s) (kek s) (ick s) (priority s) (can_be_key_server s)
    (encrypt s) (macsec s) (mi s) (mn s) (peers s) (is_key_server s)
    (key_server_sci s) (lki s) (lan s) (ltx s) (lrx s) (oki s) v (otx s) (orx s)
    (sak s) (dist_sak s) (next_kn s) (last_hello s) (last_sak_time s) (need_send
    s) (need_new_sak s).
Definition put_otx (v : bool) (s : t) : t :=
  mk (mac s) (ckn s) (kek s) (ick s) (priority s) (can_be_key_server s)
    (encrypt s) (macsec s) (mi s) (mn s) (peers s) (is_key_server s)
    (key_server_sci s) (lki s) (lan s) (ltx s) (lrx s) (oki s) (oan s) v (orx s)
    (sak s) (dist_sak s) (next_kn s) (last_hello s) (last_sak_time s) (need_send
    s) (need_new_sak s).
Definition put_orx (v : bool) (s : t) : t :=
  mk (mac s) (ckn s) (kek s) (ick s) (priority s) (can_be_key_server s)
    (encrypt s) (macsec s) (mi s) (mn s) (peers s) (is_key_server s)
    (key_server_sci s) (lki s) (lan s) (ltx s) (lrx s) (oki s) (oan s) (otx s) v
    (sak s) (dist_sak s) (next_kn s) (last_hello s) (last_sak_time s) (need_send
    s) (need_new_sak s).
Definition put_sak (v : option (list Z)) (s : t) : t :=
  mk (mac s) (ckn s) (kek s) (ick s) (priority s) (can_be_key_server s)
    (encrypt s) (macsec s) (mi s) (mn s) (peers s) (is_key_server s)
    (key_server_sci s) (lki s) (lan s) (ltx s) (lrx s) (oki s) (oan s) (otx s)
    (orx s) v (dist_sak s) (next_kn s) (last_hello s) (last_sak_time s)
    (need_send s) (need_new_sak s).
Definition put_dist_sak (v : option DistSak) (s : t) : t :=
  mk (mac s) (ckn s) (kek s) (ick s) (priority s) (can_be_key_server s)
    (encrypt s) (macsec s) (mi s) (mn s) (peers s) (is_key_server s)
    (key_server_sci s) (lki s) (lan s) (ltx s) (lrx s) (oki s) (oan s) (otx s)
    (orx s) (sak s) v (next_kn s) (last_hello s) (last_sak_time s) (need_send s)
    (need_new_sak s).
Definition put_next_kn (v : Z) (s : t) : t :=
  mk (mac s) (ckn s) (kek s) (ick s) (priority s) (can_be_key_server s)
    (encrypt s) (macsec s) (mi s) (mn s) (peers s) (is_key_server s)
    (key_server_sci s) (lki s) (lan s) (ltx s) (lrx s) (oki s) (oan s) (otx s)
    (orx s) (sak s) (dist_sak s) v (last_hello s) (last_sak_time s) (need_send
    s) (need_new_sak s).
Definition put_last_hello (v : Z) (s : t) : t :=
  mk (mac s) (ckn s) (kek s) (ick s) (priority s) (can_be_key_server s)
    (encrypt s) (macsec s) (mi s) (mn s) (peers s) (is_key_server s)
    (key_server_sci s) (lki s) (lan s) (ltx s) (lrx s) (oki s) (oan s) (otx s)
    (orx s) (sak s) (dist_sak s) (next_kn s) v (last_sak_time s) (need_send s)
    (need_new_sak s).
Definition put_last_sak_time (v : option Z) (s : t) : t :=
  mk (mac s) (ckn s) (kek s) (ick s) (priority s) (can_be_key_server s)
    (encrypt s) (macsec s) (mi s) (mn s) (peers s) (is_key_server s)
    (key_server_sci s) (lki s) (lan s) (ltx s) (lrx s) (oki s) (oan s) (otx s)
    (orx s) (sak s) (dist_sak s) (next_kn s) (last_hello s) v (need_send s)
    (need_new_sak s).
Definition put_need_send (v : bool) (s : t) : t :=
  mk (mac s) (ckn s) (kek s) (ick s) (priority s) (can_be_key_server s)
    (encrypt s) (macsec s) (mi s) (mn s) (peers s) (is_key_server s)
    (key_server_sci s) (lki s) (lan s) (ltx s) (lrx s) (oki s) (oan s) (otx s)
    (orx s) (sak s) (dist_sak s) (next_kn s) (last_hello s) (last_sak_time s) v
    (need_new_sak s).
Definition put_need_new_sak (v : bool) (s : t) : t :=
  mk (mac s) (ckn s) (kek s) (ick s) (priority s) (can_be_key_server s)
    (encrypt s) (macsec s) (mi s) (mn s) (peers s) (is_key_server s)
    (key_server_sci s) (lki s) (lan s) (ltx s) (lrx s) (oki s) (oan s) (otx s)
    (orx s) (sak s) (dist_sak s) (next_kn s) (last_hello s) (last_sak_time s)
    (need_send s) v.

Definition method (A : Type) : Type := st t WifiError.t A.

Definition actor_sci (s : t) : list Z := mac s ++ to_be 2 1.

Fixpoint find_peer_from (i : nat) (peer_mi : list Z) (l : list Peer.t) : option nat :=
  match l with
  | [] => None
  | p :: l' => if bool_decide (Peer.mi p = peer_mi) then Some i
               else find_peer_from (S i) peer_mi l'
  end.

Definition find_peer (s : t) (peer_mi : list Z) : option nat :=
  find_peer_from 0 peer_mi (peers s).

Definition has_live_peer (s : t) : bool := existsb Peer.live (peers s).

Definition is_elected_key_server (s : t) (sci : list Z) : bool :=
  negb (bool_decide (key_server_sci s = no_sci)) && bool_decide (sci = key_server_sci s).

Definition peers_support_macsec (s : t) : bool :=
  forallb (fun p => negb (Peer.macsec_capability p =? MACSEC_CAP_NOT_IMPLEMENTED))
    (List.filter Peer.live (peers s)).

Definition secured (s : t) : bool :=
  match lki s with Some _ => true | None => false end && lrx s && ltx s && has_live_peer s.

(** ** Election *)

(** [(priority, sci)] pairs as [<] compares them. *)
Definition rank_lt (a b : Z * list Z) : bool :=
  (a.1 <? b.1) || ((a.1 =? b.1) && array_lt (a.2) (b.2)).

(** The best candidate so far: priority, SCI, and whether it is this actor. *)
Definition better (best : option (Z * list Z * bool)) (p : Peer.t)
  : option (Z * list Z * bool) :=
  let candidate := (Peer.priority p, Peer.sci p, false) in
  match best with
  | None => Some candidate
  | Some current => if rank_lt (candidate.1) (current.1) then Some candidate else best
  end.

Definition best_candidate (s : t) : option (Z * list Z * bool) :=
  foldl better
    (if can_be_key_server s then Some (priority s, actor_sci s, true) else None)
    (List.filter (fun p => Peer.live p && Peer.key_server p) (peers s)).

Definition elect_key_server (s : t) : t :=
  let was_key_server := is_key_server s in
  let s1 :=
    match best_candidate s with
    | Some (_, sci, true) =>
        let s := if negb (is_key_server s) then put_need_send true s else s in
        put_key_server_sci sci (put_is_key_server true s)
    | Some (_, sci, false) =>
        let s := if is_key_server s then put_dist_sak None (put_need_send true s) else s in
        put_key_server_sci sci (put_is_key_server false s)
    | None =>
        let s := if is_key_server s then put_need_send true s else s in
        put_key_server_sci no_sci (put_is_key_server false s)
    end in
  if negb (eqb (is_key_server s1) was_key_server) then
    let s2 := put_need_send true s1 in
    if is_key_server s2 then put_need_new_sak true s2
    else put_dist_sak None (put_need_new_sak false s2)
  else s1.

(** [new], after the socket is open: [fresh_mi] is the random MI, [now] the
    clock. *)
Definition new (config : MacsecConfig.t) (own_mac fresh_mi : list Z) (now : Z)
  : outcome WifiError.t t :=
  _ ← MacsecConfig.validate config;
  kek ← derive_kek (MacsecConfig.cak config) (MacsecConfig.ckn config);
  ick ← derive_ick (MacsecConfig.cak config) (MacsecConfig.ckn config);
  Ok (elect_key_server
    {| mac := own_mac; ckn := MacsecConfig.ckn config; kek := kek; ick := ick;
       priority := MacsecConfig.key_server_priority config;
       can_be_key_server := MacsecConfig.can_be_key_server config;
       encrypt := MacsecConfig.encrypt config; macsec := None; mi := fresh_mi; mn := 1;
       peers := []; is_key_server := MacsecConfig.can_be_key_server config;
       key_server_sci := no_sci; lki := None; lan := 0; ltx := false; lrx := false;
       oki := None; oan := 0; otx := false; orx := false; sak := None;
       dist_sak := None; next_kn := 1; last_hello := now - MKA_HELLO_SECS * 1000;
       last_sak_time := None; need_send := true; need_new_sak := false |}).

(** [fresh_mi] is what [getrandom] wrote; on its failure the MI is all [0x5a]. *)
Definition reset_mi (fresh_mi : option (list Z)) (s : t) : t :=
  let new_mi := default (replicate MI_LEN 0x5a) fresh_mi in
  put_need_new_sak false (put_lrx false (put_ltx false (put_last_sak_time None
    (put_dist_sak None (put_sak None (put_oki None (put_lki None
    (put_key_server_sci no_sci (put_is_key_server (can_be_key_server s)
    (put_peers [] (put_mn 1 (put_mi new_mi s)))))))))))).

(** The SCIs of the peers dropped, whose receive channels have to go. *)
Definition expire_peers (now : Z) : method (list (list Z)) :=
  s ← get;
  let keep p := within_life now (Peer.last_seen p) in
  let expired := Peer.sci <$> List.filter
    (fun p => negb (keep p) && negb (bool_decide (Peer.sci p = no_sci))) (peers s) in
  modify (put_peers (List.filter keep (peers s)));;
  s' ← get;
  (if negb (length (peers s') =? length (peers s))%nat then
     modify (put_need_send true);;
     (if is_key_server s' && match lki s' with Some _ => true | None => false end
         && has_live_peer s'
      then modify (put_need_new_sak true) else mret tt);;
     modify elect_key_server
   else mret tt);;
  mret expired.

(** ** The device *)

(** [if let Some(dev) = self.macsec.as_mut() { .. }]. *)
Definition with_dev (f : st Dev WifiError.t unit) : method unit := fun s =>
  match macsec s with
  | None => (s, Ok tt)
  | Some d => let '(d', r) := f d in (put_macsec (Some d') s, r)
  end.

(** [for sci in scis { f(sci)?; }]. *)
Fixpoint for_each {S E A} (f : A -> st S E unit) (l : list A) : st S E unit :=
  match l with
  | [] => mret tt
  | a :: l' => f a;; for_each f l'
  end.

Definition activate_tx_sa : method unit :=
  s ← get; with_dev (dev_set_tx_sa_active (lan s)).

Definition remove_expired (scis : list (list Z)) : method unit :=
  with_dev (for_each dev_remove_rx_sc scis).

Definition drop_unsecure_sak : method unit :=
  s ← get;
  if match lki s with None => true | Some _ => false end || has_live_peer s then mret tt else
  with_dev dev_clear_sas;;
  modify (fun s =>
    put_need_send true (put_peers (Peer.put_rx_ready false <$> peers s)
    (put_need_new_sak false (put_last_sak_time None (put_dist_sak None (put_sak None
    (put_orx false (put_otx false (put_lrx false (put_ltx false (put_oan 0 (put_lan 0
    (put_oki None (put_lki None s)))))))))))))).

(** [peer.rx_installed = true] for the peers that [p] selects. *)
Definition mark_installed (p : Peer.t -> bool) (s : t) : t :=
  put_peers ((fun q => if p q then Peer.put_rx_installed true q else q) <$> peers s) s.

Definition contains (scis : list (list Z)) (sci : list Z) : bool :=
  existsb (fun x => bool_decide (x = sci)) scis.

Definition has_dev (s : t) : bool := match macsec s with Some _ => true | None => false end.

(** Move the current SAK to the old one and adopt [ki]. *)
Definition adopt_sak (ki : KeyId) (an : Z) (new_sak : list Z) (s : t) : t :=
  put_sak (Some new_sak) (put_ltx false (put_lrx true (put_lan an (put_lki (Some ki)
    (put_orx (lrx s) (put_otx (ltx s) (put_oan (lan s) (put_oki (lki s) s)))))))).

(** [random] is the SAK [getrandom] filled, or its error; [elapsed_now] and
    [sak_now] are the clock where it is read. *)
Definition ensure_sak (random : string + list Z) (elapsed_now sak_now : Z) : method unit :=
  s ← get;
  if negb (is_key_server s) || negb (has_live_peer s) then mret tt else
  if negb (peers_support_macsec s) then mret tt else
  let current_is_ours :=
    match lki s with Some ki => bool_decide (ki_mi ki = mi s) | None => false end in
  if current_is_ours && negb (need_new_sak s) then mret tt else
  if current_is_ours
     && match last_sak_time s with
        | Some time => within_life elapsed_now time
        | None => false
        end then mret tt else
  new_sak ← match random with
            | inr r => mret r
            | inl e => throw (mka_err ("random SAK: " +:+ e))
            end;
  let kn := next_kn s in
  modify (put_next_kn (bump (next_kn s)));;
  let an := Z.land (lan s + 1) 0x03 in
  let ki := mkKeyId (mi s) kn in
  wrapped ← lift (wrap_key (kek s) new_sak);
  modify (adopt_sak ki an new_sak);;
  modify (put_last_sak_time (Some sak_now));;
  modify (put_need_new_sak false);;
  modify (fun s => put_peers
    ((fun p => Peer.put_rx_installed false (Peer.put_rx_ready false p)) <$> peers s) s);;
  modify (fun s => put_dist_sak
    (Some (mkDistSak an (confidentiality_offset (encrypt s)) kn None wrapped)) s);;
  s ← get;
  let peer_scis := live_peer_scis (peers s) in
  with_dev (dev_install_tx_sa an ki new_sak false;;
            for_each (fun sci => dev_install_rx_sa sci an ki new_sak) peer_scis);;
  (if has_dev s
   then modify (mark_installed (fun p => Peer.live p && contains peer_scis (Peer.sci p)))
   else mret tt);;
  modify (put_need_send true).

Definition install_rx_sas_for_live_peers : method unit :=
  s ← get;
  match lki s, sak s with
  | Some ki, Some cur_sak =>
      let pending := pending_rx_scis (peers s) in
      if bool_decide (pending = []) || negb (has_dev s) then mret tt else
      with_dev (for_each (fun sci => dev_install_rx_sa sci (lan s) ki cur_sak) pending);;
      modify (mark_installed (fun p => contains pending (Peer.sci p)))
  | _, _ => mret tt
  end.

(** ** Frames *)

(** The clock at the points where [handle_frame] reads it, and its random
    inputs. *)
Record Inputs := mkInputs {
  in_now : Z;
  in_elapsed_now : Z;
  in_sak_now : Z;
  in_mi : option (list Z);
  in_sak : string + list Z;
}.

(** The frames [handle_frame] looks into, with the PDU they carry. *)
Definition received_pdu (s : t) (frame : EapolFrame.t) : outcome WifiError.t (option MkaPdu.t) :=
  if (length (EapolFrame.payload frame) <? 4)%nat then Ok None else
  type_ ← idx (EapolFrame.payload frame) 1;
  if negb (type_ =? EAPOL_TYPE_MKA) then Ok None else
  if negb (bool_decide (EapolFrame.dst frame = PAE_GROUP_ADDR)) then Ok None else
  src0 ← idx (EapolFrame.src frame) 0;
  if has_bit src0 1 then Ok None else
  if bool_decide (EapolFrame.src frame = mac s) then Ok None else
  match MkaPdu.parse (EapolFrame.payload frame) (EapolFrame.dst frame)
          (EapolFrame.src frame) (ick s) with
  | Err _ => Ok None
  | r => r
  end.

Definition push_peer (p : Peer.t) (s : t) : t := put_peers (peers s ++ [p]) s.
Definition alter_peer (f : Peer.t -> Peer.t) (i : nat) (s : t) : t :=
  put_peers (alter f i (peers s)) s.

(** The index of the sender in the peer list, which a new sender enters; [None]
    for a message number that is not new. *)
Definition note_sender (now : Z) (b : MkaBasic) : method (option nat) :=
  s ← get;
  '(idx_, is_new) ← match find_peer s (b_mi b) with
     | Some i => mret (i, false)
     | None =>
         modify (push_peer (Peer.heard b now));; mret (length (peers s), true)
     end;
  s ← get;
  peer ← lift (idx (peers s) idx_);
  if negb is_new && (b_mn b <=? Peer.mn peer) then mret None else
  modify (alter_peer (Peer.refresh b now) idx_);;
  (if Peer.differs b peer then modify (put_need_send true) else mret tt);;
  mret (Some idx_).

(** Entries of both peer lists. *)
Definition all_listed (pdu : MkaPdu.t) : list PeerId :=
  MkaPdu.live_peers pdu ++ MkaPdu.potential_peers pdu.

Definition collides (s : t) (pdu : MkaPdu.t) : bool :=
  existsb (fun p => bool_decide (pi_mi p = mi s) && (mn s <=? pi_mn p)) (all_listed pdu).

Definition knows_us (s : t) (pdu : MkaPdu.t) : bool :=
  existsb (fun p => bool_decide (pi_mi p = mi s) && mn_is_recent (mn s) (pi_mn p))
    (all_listed pdu).

Definition note_liveness (now : Z) (pdu : MkaPdu.t) (idx_ : nat) : method unit :=
  s ← get;
  peer ← lift (idx (peers s) idx_);
  if knows_us s pdu && negb (Peer.live peer) then
    modify (alter_peer (fun p => Peer.put_last_seen now (Peer.put_live true p)) idx_);;
    modify (put_need_send true);;
    if is_key_server s && match lki s with Some _ => true | None => false end
    then modify (put_need_new_sak true) else mret tt
  else mret tt.

(** One entry of a live sender's Live Peer List. *)
Definition learn_peer (now : Z) (id : PeerId) : method unit :=
  s ← get;
  if bool_decide (pi_mi id = mi s) then mret tt else
  match find_peer s (pi_mi id) with
  | Some _ => mret tt
  | None =>
      modify (push_peer (Peer.listed id now));; modify (put_need_send true)
  end.

(** [self.peers.iter().filter(|p| p.live).all(|p| p.rx_ready)]. *)
Definition all_rx_ready (s : t) : bool :=
  forallb Peer.rx_ready (List.filter Peer.live (peers s)).

Definition start_tx : method unit :=
  modify (put_ltx true);; activate_tx_sa;; modify (put_need_send true).

(** What the handler keeps of the sender before the election. *)
Record Sender := mkSender {
  sn_live : bool; sn_key_server : bool; sn_sci : list Z; sn_mi : list Z
}.

Definition handle_sak_use (pdu : MkaPdu.t) (idx_ : nat) (sn : Sender) : method unit :=
  s ← get;
  match MkaPdu.sak_use pdu with
  | Some use_ =>
      if negb (sak_use_matches (lki s) (latest_ki use_)) then mret tt
      else if is_key_server s && sn_live sn then
        modify (alter_peer (Peer.put_rx_ready (latest_rx use_)) idx_);;
        (if PN_EXHAUSTION <=? latest_llpn use_ then modify (put_need_new_sak true)
         else mret tt);;
        s ← get;
        (if all_rx_ready s && negb (ltx s) then start_tx else mret tt);;
        s ← get;
        (if all_rx_ready s then modify (put_dist_sak None) else mret tt)
      else if negb (is_key_server s) && sn_key_server sn
              && is_elected_key_server s (sn_sci sn) && latest_tx use_ && negb (ltx s)
      then start_tx
      else mret tt
  | None => mret tt
  end.

(** Adopt the SAK of the key server; [false] when the handler returns early. *)
Definition handle_dist_sak (pdu : MkaPdu.t) (sn : Sender) : method bool :=
  s ← get;
  match MkaPdu.dist_sak pdu with
  | Some dist =>
      if sn_live sn && sn_key_server sn && is_elected_key_server s (sn_sci sn)
         && negb (is_key_server s) && negb (bool_decide (d_wrapped_sak dist = [])) then
        if negb (dist_sak_supported (encrypt s) dist) then mret false else
        let ki := mkKeyId (sn_mi sn) (d_kn dist) in
        if bool_decide (lki s = Some ki) then mret true else
        match unwrap_key (kek s) (d_wrapped_sak dist) with
        | Ok new_sak =>
            if negb (length new_sak =? 16)%nat then mret false else
            modify (adopt_sak ki (d_an dist) new_sak);;
            let scis := live_peer_scis (peers s) in
            let scis := if contains scis (sn_sci sn) then scis else scis ++ [sn_sci sn] in
            with_dev (for_each (fun sci => dev_install_rx_sa sci (d_an dist) ki new_sak) scis;;
                      dev_install_tx_sa (d_an dist) ki new_sak false);;
            (if has_dev s
             then modify (mark_installed (fun p => Peer.live p && contains scis (Peer.sci p)))
             else mret tt);;
            modify (put_need_send true);;
            mret true
        | Err _ => mret false
        | Panic => lift Panic
        | Diverge => lift Diverge
        end
      else mret true
  | None => mret true
  end.

(** The last part of [handle_frame]. *)
Definition finish_frame (i : Inputs) (pdu : MkaPdu.t) (sn : Sender) : method unit :=
  go_on ← handle_dist_sak pdu sn;
  if negb go_on then mret tt else
  s ← get;
  (if is_key_server s then ensure_sak (in_sak i) (in_elapsed_now i) (in_sak_now i)
   else mret tt);;
  install_rx_sas_for_live_peers.

(** The rest of [handle_frame] once the sender is known at [idx_]. *)
Definition handle_known (i : Inputs) (pdu : MkaPdu.t) (idx_ : nat) : method unit :=
  s ← get;
  if collides s pdu then modify (reset_mi (in_mi i));; modify (put_need_send true) else
  note_liveness (in_now i) pdu idx_;;
  s ← get;
  peer ← lift (idx (peers s) idx_);
  (if Peer.live peer then for_each (learn_peer (in_now i)) (MkaPdu.live_peers pdu)
   else mret tt);;
  s ← get;
  peer ← lift (idx (peers s) idx_);
  let sn := mkSender (Peer.live peer) (Peer.key_server peer) (Peer.sci peer)
              (Peer.mi peer) in
  modify elect_key_server;;
  handle_sak_use pdu idx_ sn;;
  finish_frame i pdu sn.

Definition handle_frame (i : Inputs) (frame : EapolFrame.t) : method unit :=
  s ← get;
  got ← lift (received_pdu s frame);
  match got with
  | None => mret tt
  | Some pdu =>
      let b := MkaPdu.basic pdu in
      if negb (bool_decide (b_ckn b = ckn s)) then mret tt
      else if bool_decide (b_mi b = mi s)
      then modify (reset_mi (in_mi i));; modify (put_need_send true)
      else if MKA_VERSION <? b_version b then mret tt
      else if negb (bool_decide (b_algo_agility b = ALGO_AGILITY)) then mret tt
      else
        sender ← note_sender (in_now i) b;
        match sender with
        | None => mret tt
        | Some idx_ => handle_known i pdu idx_
        end
  end.

(** ** Sending *)

(** The order of [Reverse(mi)]. *)
Definition mi_before (p q : PeerId) : bool := array_lt (pi_mi q) (pi_mi p).

(** The PDU [send_mkpdu] encodes. *)
Definition own_pdu (s : t) : MkaPdu.t :=
  MkaPdu.mk
    (mkMkaBasic MKA_VERSION (priority s) (is_key_server s) true
       MACSEC_CAP_INTEGRITY_CONFIDENTIALITY (actor_sci s) (mi s) (mn s) ALGO_AGILITY
       (ckn s))
    (ordered_live_peers (peers s))
    (sort_by mi_before
       (peer_id <$> List.filter (fun p => negb (Peer.live p)) (peers s)))
    ((fun ki => {| latest_an := lan s; latest_tx := ltx s; latest_rx := lrx s;
                   old_an := oan s; old_tx := otx s; old_rx := orx s;
                   plain_tx := false; plain_rx := false; delay_protect := false;
                   latest_ki := ki; latest_llpn := 0;
                   old_ki := default KeyId_default (oki s); old_llpn := 0 |}) <$> lki s)
    (if is_key_server s then dist_sak s else None).

(** [sent] is what the socket answered, [now] the clock after it; the value is
    the frame handed to the socket. *)
Definition send_mkpdu (sent : outcome WifiError.t unit) (now : Z) : method (list Z) :=
  s ← get;
  frame ← lift (MkaPdu.build_eapol (own_pdu s) PAE_GROUP_ADDR (mac s) (ick s));
  lift sent;;
  modify (fun s => put_mn (bump (mn s)) s);;
  modify (put_last_hello now);;
  modify (put_need_send false);;
  mret frame.

(** ** One turn of [run] *)

(** What one turn reads from outside: the device it may create, the clock, the
    socket's answers and what it received. *)
Inductive Received := Frame (f : EapolFrame.t) | Nothing | SocketError (e : string).

Record RunInputs := mkRunInputs {
  ri_create : outcome WifiError.t Dev;
  ri_expire1 : Z;
  ri_now : Z;
  ri_sent1 : outcome WifiError.t unit;
  ri_sent1_now : Z;
  ri_received : Received;
  ri_inputs : Inputs;
  ri_expire2 : Z;
  ri_sak : string + list Z;
  ri_elapsed_now : Z;
  ri_sak_now : Z;
  ri_sent2 : outcome WifiError.t unit;
  ri_sent2_now : Z;
}.

Definition ensure_macsec (created : outcome WifiError.t Dev) : method unit :=
  s ← get;
  match macsec s with
  | Some _ => mret tt
  | None => dev ← lift created; modify (put_macsec (Some dev))
  end.

Definition run (i : RunInputs) : method bool :=
  ensure_macsec (ri_create i);;
  expired ← expire_peers (ri_expire1 i);
  remove_expired expired;;
  drop_unsecure_sak;;
  s ← get;
  (if need_send s || (last_hello s + MKA_HELLO_SECS * 1000 <=? ri_now i)
   then send_mkpdu (ri_sent1 i) (ri_sent1_now i);; mret tt else mret tt);;
  (match ri_received i with
   | Frame f => handle_frame (ri_inputs i) f
   | Nothing => mret tt
   | SocketError e => throw (mka_err ("EAPOL socket: " +:+ e))
   end);;
  _ ← expire_peers (ri_expire2 i);
  drop_unsecure_sak;;
  s ← get;
  (if is_key_server s then ensure_sak (ri_sak i) (ri_elapsed_now i) (ri_sak_now i)
   else mret tt);;
  s ← get;
  (if need_send s then send_mkpdu (ri_sent2 i) (ri_sent2_now i);; mret tt else mret tt);;
  s ← get;
  mret (secured s).

(** [shutdown]: [removed] is the answer to deleting the netdev. *)
Definition shutdown (removed : outcome WifiError.t unit) : method unit :=
  s ← get;
  match macsec s with
  | Some _ => modify (put_macsec None);; lift removed
  | None => mret tt
  end.

End session.

End MkaSession.

(** ** Facts *)

Module MkaSessionFacts.
Import MkaSession.

(** *** The device keeps its promise *)

Section device.
Context `{MacsecKernel}.
Import MacsecDevice.

Definition total {A} (m : method A) : Prop := forall d, returns (m d).2.

Lemma total_bind {A B} (m : method A) (k : A -> method B) :
  total m -> (forall a, total (k a)) -> total (m ≫= k).
Proof using Type.
  intros Hm Hk d. unfold mbind, st_bind. specialize (Hm d).
  destruct (m d) as [d' [a|e| |]]; try done. apply Hk.
Qed.

Lemma total_get {A} (k : MacsecDevice.t -> method A) : (forall d, total (k d)) -> total (get ≫= k).
Proof using Type. intros Hk d. apply Hk. Qed.

Lemma total_mret {A} (a : A) : total (mret a).
Proof using Type. done. Qed.

Lemma total_modify f : total (modify f).
Proof using Type. done. Qed.

Lemma total_apply : total apply_.
Proof using Type. intros d. unfold apply_. by destruct (k_apply _ _) as [k [e|]]. Qed.

Lemma total_encoding an : total (set_encoding_sa an).
Proof using Type. intros d. unfold set_encoding_sa. by destruct (k_encoding_sa _ _) as [k [e|]]. Qed.

Create HintDb total.
#[local] Hint Resolve total_mret total_modify total_apply total_encoding : total.

Ltac total_tac :=
  repeat match goal with
  | |- total (get ≫= _) => apply total_get; intros ?
  | |- total (_ ≫= _) => apply total_bind; [|intros ?]
  | |- total (if ?b then _ else _) => destruct b
  | |- total (match ?x with _ => _ end) => destruct x
  | |- total _ => solve [auto with total]
  end.

Lemma total_add_tx an kid sak act : total (add_tx_sa an kid sak act).
Proof using Type. unfold add_tx_sa. total_tac. Qed.

Lemma total_install_tx an ki sak act : total (install_tx_sa an ki sak act).
Proof using Type. unfold install_tx_sa. total_tac; apply total_add_tx. Qed.

Lemma total_add_rx i sci an kid sak : total (add_rx_sa i sci an kid sak).
Proof using Type. unfold add_rx_sa. total_tac. Qed.

Lemma total_wp {A} (m : method A) d :
  returns (m d).2 <-> wp m (fun _ _ => True) (fun _ _ => True) d.
Proof using Type. unfold wp. by destruct (m d) as [d' [a|e| |]]. Qed.

Lemma total_install_rx sci an ki sak : total (install_rx_sa sci an ki sak).
Proof using Type.
  intros d. apply total_wp. unfold install_rx_sa. apply wp_bind.
  eapply (wp_mono _ (fun i d1 => (i < length (rx d1))%nat) _ (fun _ _ => True)); [| |done].
  - unfold rx_sc_index. apply wp_bind, wp_get.
    destruct (position (has_sci (sci_be sci)) (rx d)) as [[i sc]|] eqn:Hp;
      apply wp_bind, wp_modify, wp_mret; cbn.
    + apply MacsecFacts.position_lookup in Hp. by apply lookup_lt_Some in Hp.
    + rewrite length_app. cbn. lia.
  - intros i d1 Hi. apply wp_bind, wp_modify, wp_bind, wp_get, wp_bind.
    match goal with |- wp (lift (idx (rx ?x) i)) _ _ _ => set (d2 := x) end.
    assert (Hl : (i < length (rx d2))%nat) by (cbn; by rewrite length_alter).
    apply lookup_lt_is_Some in Hl as [sc Hsc]. rewrite (proj2 (idx_ok _ _ _) Hsc).
    apply (wp_lift (Ok sc)); [done| |done]. intros sc' _. apply total_wp.
    match goal with |- returns (?m d2).2 => assert (Hm : total m) end; [|apply Hm].
    total_tac; apply total_add_rx.
Qed.

#[export] Instance macsec_secy_laws : SecyLaws.
Proof.
  split; cbn; intros.
  - apply total_install_rx.
  - apply total_install_tx.
  - unfold set_tx_sa_active. match goal with |- returns (?m d).2 => assert (Hm : total m) end;
      [total_tac|apply Hm].
  - unfold remove_rx_sc. match goal with |- returns (?m d).2 => assert (Hm : total m) end;
      [total_tac|apply Hm].
  - unfold clear_sas. match goal with |- returns (?m d).2 => assert (Hm : total m) end;
      [total_tac|apply Hm].
Qed.

End device.

(** *** Lexicographic order *)

Lemma rank_lt_irrefl r : rank_lt r r = false.
Proof. unfold rank_lt. rewrite array_lt_irrefl. lia. Qed.

Lemma rank_lt_trans a b c : rank_lt a b = true -> rank_lt b c = true -> rank_lt a c = true.
Proof.
  unfold rank_lt. pose proof (array_lt_trans a.2 b.2 c.2).
  destruct (array_lt a.2 b.2), (array_lt b.2 c.2); intros; lia.
Qed.

Lemma rank_lt_total a b : rank_lt a b = true \/ a = b \/ rank_lt b a = true.
Proof.
  unfold rank_lt. destruct a as [x a], b as [y b]. cbn.
  destruct (Z.lt_trichotomy x y) as [|[->|]]; [left; lia| |right; right; lia].
  rewrite Z.ltb_irrefl, Z.eqb_refl. cbn. destruct (array_lt_total a b) as [|[->|]]; auto.
Qed.

(** *** The election *)

Section election.
Context `{SecyOps}.
Implicit Types s : t.

Definition peer_rank (p : Peer.t) : Z * list Z := (Peer.priority p, Peer.sci p).
Definition own_rank s : Z * list Z := (priority s, actor_sci s).

(** The candidates a participant knows, itself included. *)
Definition candidates s : list (Z * list Z) :=
  (if can_be_key_server s then [own_rank s] else [])
  ++ (peer_rank <$> List.filter (fun p => Peer.live p && Peer.key_server p) (peers s)).

(** [r] is the best of [l]. *)
Definition best_of (r : Z * list Z) (l : list (Z * list Z)) : Prop :=
  r ∈ l /\ forall r', r' ∈ l -> rank_lt r' r = false.

Lemma best_of_unique r r' l : best_of r l -> best_of r' l -> r = r'.
Proof using Type.
  intros [Hin Hb] [Hin' Hb']. destruct (rank_lt_total r r') as [Hlt|[|Hlt]]; [|done|].
  - by rewrite Hb' in Hlt.
  - by rewrite Hb in Hlt.
Qed.

Lemma best_of_ext r l l' : (forall x, x ∈ l <-> x ∈ l') -> best_of r l -> best_of r l'.
Proof using Type. intros He [Hin Hb]. split; [by apply He|]. intros x Hx. by apply Hb, He. Qed.

Lemma rank_not_lt a b c : rank_lt a b = false -> rank_lt b c = false -> rank_lt a c = false.
Proof using Type.
  intros Hab Hbc. destruct (rank_lt a c) eqn:Hac; [|done].
  destruct (rank_lt_total b c) as [|[->|Hcb]]; [congruence|congruence|].
  by rewrite (rank_lt_trans a c b Hac Hcb) in Hab.
Qed.

(** The fold keeps the best candidate, and prefers an earlier one of equal rank. *)
Lemma foldl_better l best :
  match foldl better best l with
  | None => best = None /\ l = []
  | Some (pr, sci, me) =>
      (forall p, p ∈ l -> rank_lt (peer_rank p) (pr, sci) = false)
      /\ match best with
         | Some cur => rank_lt (cur.1) (pr, sci) = false
             /\ ((pr, sci, me) = cur
                 \/ me = false /\ rank_lt (pr, sci) (cur.1) = true /\ (pr, sci) ∈ peer_rank <$> l)
         | None => me = false /\ (pr, sci) ∈ peer_rank <$> l
         end
  end.
Proof using Type.
  revert best. induction l as [|p l IH]; intros best; cbn [foldl].
  { destruct best as [[[pr sci] me]|]; [|done]. split; [by intros p ?%elem_of_nil|].
    cbn. rewrite rank_lt_irrefl. auto. }
  specialize (IH (better best p)).
  destruct (foldl better (better best p) l) as [[[pr sci] me]|]; cycle 1.
  { destruct IH as [Hb _]. destruct best as [cur|]; [|done]. unfold better in Hb.
    by destruct (rank_lt _ _). }
  destruct IH as [Hl Hb]. cbn [fmap list_fmap].
  destruct best as [cur|]; cbn [better] in Hb.
  - destruct (rank_lt (peer_rank p) cur.1) eqn:Hp; unfold peer_rank in Hp;
      cbn [fst] in Hb; rewrite Hp in Hb; destruct Hb as [Hc Hw].
    + split.
      { intros q [->|Hq]%elem_of_cons; [exact Hc|by apply Hl]. }
      assert (Hlt : rank_lt (pr, sci) cur.1 = true).
      { destruct Hw as [[= -> -> ->]|(_ & Hw & _)]; [exact Hp|]. by eapply rank_lt_trans. }
      split.
      { destruct (rank_lt cur.1 (pr, sci)) eqn:Hx; [|done].
        by rewrite <- (rank_lt_irrefl cur.1), (rank_lt_trans _ _ _ Hx Hlt). }
      right. destruct Hw as [[= -> -> ->]|(-> & _ & Hin)].
      * split; [done|]. split; [done|]. by left.
      * split; [done|]. split; [done|]. by right.
    + split; [|split; [done|]].
      * intros q [->|Hq]%elem_of_cons; [|by apply Hl]. by eapply rank_not_lt.
      * destruct Hw as [Hw|(? & ? & ?)]; [by left|right]. split; [done|]. split; [done|].
        by right.
  - destruct Hb as [Hc Hw]. split.
    + intros q [->|Hq]%elem_of_cons; [exact Hc|by apply Hl].
    + destruct Hw as [[= -> -> ->]|(-> & _ & Hin)]; (split; [done|]); [by left|by right].
Qed.

Lemma best_candidate_spec s :
  match best_candidate s with
  | None => candidates s = []
  | Some (pr, sci, me) =>
      best_of (pr, sci) (candidates s)
      /\ (me = true <-> can_be_key_server s = true /\ best_of (own_rank s) (candidates s))
  end.
Proof using Type.
  unfold best_candidate, candidates. set (l := List.filter _ (peers s)).
  pose proof (foldl_better l (if can_be_key_server s
    then Some (priority s, actor_sci s, true) else None)) as Hf.
  destruct (foldl better _ l) as [[[pr sci] me]|].
  - destruct Hf as [Hl Hb].
    assert (Hpeer : forall r, r ∈ peer_rank <$> l -> rank_lt r (pr, sci) = false).
    { intros r (p & -> & Hp)%list_elem_of_fmap. by apply Hl. }
    destruct (can_be_key_server s); cbn [app fst] in *.
    + destruct Hb as [Hown Hw].
      assert (Hbest : best_of (pr, sci) (own_rank s :: (peer_rank <$> l))).
      { split.
        - destruct Hw as [[= -> -> _]|(_ & _ & Hin)]; [by left|by right].
        - intros r [->|Hr]%elem_of_cons; [exact Hown|by apply Hpeer]. }
      split; [exact Hbest|]. destruct Hw as [[= -> -> ->]|(-> & Hlt & _)]; [by split|].
      split; [done|]. intros [_ Hb]. pose proof (best_of_unique _ _ _ Hbest Hb) as He.
      rewrite He in Hlt. by rewrite rank_lt_irrefl in Hlt.
    + destruct Hb as [-> Hin]. split; [by split|]. by split; [|intros [? _]].
  - destruct Hf as [Hb ->]. by destruct (can_be_key_server s).
Qed.

Lemma elect_fields s :
  is_key_server (elect_key_server s)
    = match best_candidate s with Some (_, _, me) => me | None => false end
  /\ key_server_sci (elect_key_server s)
    = match best_candidate s with Some (_, sci, _) => sci | None => no_sci end.
Proof using Type.
  unfold elect_key_server. cbn zeta.
  destruct (best_candidate s) as [[[pr sci] []]|]; destruct (is_key_server s); done.
Qed.

(** Key server election.  A participant elects the candidate with the least
    (priority, SCI) among itself and its live peers, and is key server exactly
    when it can be and is that candidate.  Participants that know the same
    candidates elect the same one, two of them are key server only if they share
    an SCI, and the participant whose rank is the least is key server. *)
Theorem mka_election_agrees s1 s2 :
  (forall r, r ∈ candidates s1 <-> r ∈ candidates s2) ->
  key_server_sci (elect_key_server s1) = key_server_sci (elect_key_server s2)
  /\ (is_key_server (elect_key_server s1) = true ->
      is_key_server (elect_key_server s2) = true -> actor_sci s1 = actor_sci s2)
  /\ (is_key_server (elect_key_server s1) = true <->
      can_be_key_server s1 = true /\ best_of (own_rank s1) (candidates s1))
  /\ (candidates s1 <> [] ->
      exists r, best_of r (candidates s1)
        /\ key_server_sci (elect_key_server s1) = r.2).
Proof using Type.
  intros Hsame. destruct (elect_fields s1) as [-> ->], (elect_fields s2) as [-> ->].
  pose proof (best_candidate_spec s1) as H1. pose proof (best_candidate_spec s2) as H2.
  destruct (best_candidate s1) as [[[p1 c1] m1]|], (best_candidate s2) as [[[p2 c2] m2]|].
  - destruct H1 as [Hb1 Hm1], H2 as [Hb2 Hm2].
    pose proof (best_of_unique _ _ _ (best_of_ext _ _ _ Hsame Hb1) Hb2) as [= -> ->].
    split; [done|]. split; [|split; [done|intros _; by exists (p2, c2)]].
    intros Ht1 Ht2. apply Hm1 in Ht1 as [_ Ho1]. apply Hm2 in Ht2 as [_ Ho2].
    pose proof (best_of_unique _ _ _ Hb1 Ho1) as He1.
    pose proof (best_of_unique _ _ _ Hb2 Ho2) as He2. unfold own_rank in *. congruence.
  - rewrite H2 in Hsame. destruct H1 as [[Hin _] _]. by apply Hsame, elem_of_nil in Hin.
  - rewrite H1 in Hsame. destruct H2 as [[Hin _] _]. by apply Hsame, elem_of_nil in Hin.
  - split; [done|]. split; [done|]. split; [|by intros []; done]. split; [done|].
    intros [_ [Hin _]]. rewrite H1 in Hin. by apply elem_of_nil in Hin.
Qed.

End election.

(** *** What a frame may change *)

Section frames.
Context `{MkaCryptoLib} `{SecyLaws}.
Implicit Types s : t.

(** A peer that is still the same one: it may only have become live. *)
Record peer_le (p q : Peer.t) : Prop := {
  ple_mi : Peer.mi q = Peer.mi p;
  ple_mn : Peer.mn q = Peer.mn p;
  ple_sci : Peer.sci q = Peer.sci p;
  ple_ks : Peer.key_server q = Peer.key_server p;
  ple_live : Peer.live p = true -> Peer.live q = true;
}.

Lemma peer_le_refl p : peer_le p p.
Proof using Type. by split. Qed.

Lemma peer_le_trans p q r : peer_le p q -> peer_le q r -> peer_le p r.
Proof using Type. intros [????] [????]. split; try congruence; auto. Qed.

(** The peers known before stay, in their places. *)
Definition peers_le (l l' : list Peer.t) : Prop :=
  forall i p, l !! i = Some p -> exists q, l' !! i = Some q /\ peer_le p q.

Lemma peers_le_refl l : peers_le l l.
Proof using Type. intros i p Hp. exists p. split; [done|apply peer_le_refl]. Qed.

Lemma peers_le_trans l m n : peers_le l m -> peers_le m n -> peers_le l n.
Proof using Type.
  intros Hlm Hmn i p Hp. destruct (Hlm i p Hp) as (q & Hq & Hpq).
  destruct (Hmn i q Hq) as (r & Hr & Hqr). exists r. split; [done|]. by eapply peer_le_trans.
Qed.

Lemma peers_le_app l m : peers_le l (l ++ m).
Proof using Type.
  intros i p Hp. exists p. split; [by apply lookup_app_l_Some|apply peer_le_refl].
Qed.

Lemma peers_le_fmap (f : Peer.t -> Peer.t) l :
  (forall p, peer_le p (f p)) -> peers_le l (f <$> l).
Proof using Type.
  intros Hf i p Hp. exists (f p). split; [by rewrite list_lookup_fmap, Hp|apply Hf].
Qed.

Lemma peers_le_alter (f : Peer.t -> Peer.t) j l :
  (forall p, peer_le p (f p)) -> peers_le l (alter f j l).
Proof using Type.
  intros Hf i p Hp. destruct (decide (i = j)) as [->|Hne].
  - exists (f p). split; [by rewrite list_lookup_alter_eq, Hp|apply Hf].
  - exists p. split; [by rewrite list_lookup_alter_ne|apply peer_le_refl].
Qed.

(** The fields no frame changes, [reset_mi] apart. *)
Record static s s' : Prop := {
  stg_mac : mac s' = mac s;
  stg_ckn : ckn s' = ckn s;
  stg_kek : kek s' = kek s;
  stg_ick : ick s' = ick s;
  stg_encrypt : encrypt s' = encrypt s;
  stg_mi : mi s' = mi s;
  stg_mn : mn s' = mn s;
}.

Record stage s s' : Prop := {
  stg_static : static s s';
  stg_peers : peers_le (peers s) (peers s');
}.

Record same_keys s s' : Prop := {
  sk_sak : sak s' = sak s;
  sk_lki : lki s' = lki s;
  sk_kn : next_kn s' = next_kn s;
}.

Record same_role s s' : Prop := {
  sr_ks : is_key_server s' = is_key_server s;
  sr_sci : key_server_sci s' = key_server_sci s;
}.

Lemma static_trans s1 s2 s3 : static s1 s2 -> static s2 s3 -> static s1 s3.
Proof using Type. intros [] []. split; congruence. Qed.

Lemma stage_refl s : stage s s.
Proof using Type. split; try done. apply peers_le_refl. Qed.

Lemma stage_trans s1 s2 s3 : stage s1 s2 -> stage s2 s3 -> stage s1 s3.
Proof using Type.
  intros [Ha ?] [Hb ?]. split; [by eapply static_trans|by eapply peers_le_trans].
Qed.

Lemma same_keys_trans s1 s2 s3 : same_keys s1 s2 -> same_keys s2 s3 -> same_keys s1 s3.
Proof using Type. intros [] []. split; congruence. Qed.

Lemma same_role_trans s1 s2 s3 : same_role s1 s2 -> same_role s2 s3 -> same_role s1 s3.
Proof using Type. intros [] []. split; congruence. Qed.

Definition quiet_step s s' : Prop := stage s s' /\ same_keys s s' /\ same_role s s'.

Lemma quiet_step_refl s : quiet_step s s.
Proof using Type. split; [apply stage_refl|done]. Qed.

Lemma quiet_step_trans s1 s2 s3 : quiet_step s1 s2 -> quiet_step s2 s3 -> quiet_step s1 s3.
Proof using Type.
  intros (?&?&?) (?&?&?). split; [by eapply stage_trans|].
  split; [by eapply same_keys_trans|by eapply same_role_trans].
Qed.

(** A method that returns and leaves keys, role and peers in place. *)
Definition quiet {A} (m : method A) : Prop :=
  forall s, wp m (fun _ s' => quiet_step s s') (fun _ s' => quiet_step s s') s.

Lemma quiet_mret {A} (a : A) : quiet (mret a).
Proof using Type. intros s. apply quiet_step_refl. Qed.

Lemma quiet_modify f : (forall s, quiet_step s (f s)) -> quiet (modify f).
Proof using Type. intros Hf s. apply Hf. Qed.

Lemma quiet_bind {A B} (m : method A) (k : A -> method B) :
  quiet m -> (forall a, quiet (k a)) -> quiet (m ≫= k).
Proof using Type.
  intros Hm Hk s. apply wp_bind. eapply wp_mono; [apply Hm| |done]. intros a s' Hs.
  eapply wp_mono; [apply (Hk a s')|intros ? ? Hx; exact (quiet_step_trans _ _ _ Hs Hx)..].
Qed.

Lemma quiet_get {A} (k : t -> method A) : (forall s, quiet (k s)) -> quiet (get ≫= k).
Proof using Type. intros Hk s. apply wp_bind, wp_get, Hk. Qed.

Lemma quiet_if {A} (b : bool) (m n : method A) : quiet m -> quiet n -> quiet (if b then m else n).
Proof using Type. by destruct b. Qed.

(** A setter of a field that is no concern of [quiet_step]. *)
Ltac quiet_set := intros ?; split; [split; try done; apply peers_le_refl|done].

Lemma quiet_with_dev f : (forall d, returns (f d).2) -> quiet (with_dev f).
Proof using Type.
  intros Hf s. unfold wp, with_dev. destruct (macsec s) as [d|]; [|apply quiet_step_refl].
  specialize (Hf d). destruct (f d) as [d' [[]|e| |]]; try done; cbn;
    (split; [split; try done; apply peers_le_refl|done]).
Qed.

Lemma returns_for_each {A} (f : A -> st Dev WifiError.t unit) l :
  (forall a d, returns (f a d).2) -> forall d, returns (for_each f l d).2.
Proof using Type.
  intros Hf. induction l as [|a l IH]; intros d; [done|]. cbn [for_each].
  unfold mbind, st_bind. specialize (Hf a d). by destruct (f a d) as [d' [[]|e| |]].
Qed.

Lemma returns_seq (f g : st Dev WifiError.t unit) :
  (forall d, returns (f d).2) -> (forall d, returns (g d).2) ->
  forall d, returns ((f;; g) d).2.
Proof using Type.
  intros Hf Hg d. unfold mbind, st_bind. specialize (Hf d).
  by destruct (f d) as [d' [[]|e| |]].
Qed.

Lemma quiet_mark p : quiet (modify (mark_installed p)).
Proof using Type.
  apply quiet_modify. intros s. split; [|done]. split; try done. apply peers_le_fmap.
  intros q. by destruct (p q).
Qed.

Lemma quiet_install_rx : quiet install_rx_sas_for_live_peers.
Proof using All.
  apply quiet_get. intros s. destruct (lki s), (sak s); try apply quiet_mret.
  apply quiet_if; [apply quiet_mret|]. apply quiet_bind; [|intros _; apply quiet_mark].
  apply quiet_with_dev, returns_for_each. intros. apply rx_returns.
Qed.

Lemma quiet_start_tx : quiet start_tx.
Proof using All.
  apply quiet_bind; [apply quiet_modify; quiet_set|]. intros _.
  apply quiet_bind; [|intros _; apply quiet_modify; quiet_set].
  apply quiet_get. intros s. apply quiet_with_dev. intros. apply active_returns.
Qed.

Lemma quiet_alter f i : (forall p, peer_le p (f p)) -> quiet (modify (alter_peer f i)).
Proof using Type.
  intros Hf. apply quiet_modify. intros s. split; [|done]. split; try done.
  by apply peers_le_alter.
Qed.

Lemma wrap_key_cases key k :
  (exists w, wrap_key key k = Ok w) \/ (exists e, wrap_key key k = Err e).
Proof using Type.
  unfold wrap_key. destruct (m_kw_wrap key k) as [e|w]; generalize (length key); intros n;
    do 33 (destruct n as [|n]; [eauto|]); eauto.
Qed.

Lemma returns_mka_unwrap key w : returns (unwrap_key key w).
Proof using Type.
  unfold unwrap_key. destruct (_ || _); [done|].
  destruct (m_kw_unwrap key w); generalize (length key); intros n;
    do 33 (destruct n as [|n]; [done|]); done.
Qed.

Lemma quiet_sak_use pdu i sn : quiet (handle_sak_use pdu i sn).
Proof using All.
  apply quiet_get. intros s. destruct (MkaPdu.sak_use pdu) as [u|]; [|apply quiet_mret].
  apply quiet_if; [apply quiet_mret|]. apply quiet_if.
  2: { apply quiet_if; [apply quiet_start_tx|apply quiet_mret]. }
  apply quiet_bind; [apply quiet_alter; by split|]. intros _.
  apply quiet_bind; [apply quiet_if; [apply quiet_modify; quiet_set|apply quiet_mret]|].
  intros _. apply quiet_get. intros s1.
  apply quiet_bind; [apply quiet_if; [apply quiet_start_tx|apply quiet_mret]|].
  intros _. apply quiet_get. intros s2.
  apply quiet_if; [apply quiet_modify; quiet_set|apply quiet_mret].
Qed.

Lemma quiet_learn now l : quiet (for_each (learn_peer now) l).
Proof using Type.
  induction l as [|id l IH]; [apply quiet_mret|]. apply quiet_bind; [|done].
  apply quiet_get. intros s. apply quiet_if; [apply quiet_mret|].
  destruct (find_peer s (pi_mi id)); [apply quiet_mret|].
  apply quiet_bind; [|intros _; apply quiet_modify; quiet_set].
  apply quiet_modify. intros s1. split; [|done]. split; try done. apply peers_le_app.
Qed.

Lemma stage_elect s : stage s (elect_key_server s) /\ same_keys s (elect_key_server s).
Proof using Type.
  unfold elect_key_server. cbn zeta.
  destruct (best_candidate s) as [[[pr sci] []]|]; destruct (is_key_server s);
    (split; [split; try done; apply peers_le_refl|done]).
Qed.

(** *** New keys *)

(** The SAK is one this key server just made. *)
Definition own_sak (random : string + list Z) s s' : Prop :=
  exists k, random = inr k /\ sak s' = Some k
    /\ lki s' = Some (mkKeyId (mi s) (next_kn s)) /\ next_kn s' = bump (next_kn s)
    /\ is_key_server s' = true.

(** Only the key number moved on (the SAK could not be wrapped). *)
Definition same_sak s s' : Prop := sak s' = sak s /\ lki s' = lki s.

Lemma same_keys_sak s s' : same_keys s s' -> same_sak s s'.
Proof using Type. by intros []. Qed.

Lemma wp_ensure_sak random t1 t2 s :
  let post s' := stage s s' /\ same_role s s'
    /\ (same_sak s s' \/ is_key_server s = true /\ own_sak random s s') in
  wp (ensure_sak random t1 t2) (fun _ s' => post s') (fun _ s' => post s') s.
Proof using All.
  intros post. assert (Hrefl : post s)
    by (split; [apply stage_refl|]; split; [done|by left]).
  unfold ensure_sak. apply wp_bind, wp_get.
  destruct (is_key_server s) eqn:Hks; [|by apply wp_mret]. cbn [negb orb].
  destruct (negb (has_live_peer s)); [by apply wp_mret|].
  destruct (negb (peers_support_macsec s)); [by apply wp_mret|].
  set (ours := match lki s with Some ki => _ | None => false end).
  destruct (ours && negb (need_new_sak s)); [by apply wp_mret|].
  destruct (ours && _); [by apply wp_mret|].
  apply wp_bind. destruct random as [e|k]; [by apply wp_throw|]. apply wp_mret.
  apply wp_bind, wp_modify, wp_bind.
  set (s1 := put_next_kn (bump (next_kn s)) s).
  assert (Hs1 : post s1).
  { split; [split; try done; apply peers_le_refl|]. split; [done|by left]. }
  destruct (wrap_key_cases (kek s) k) as [[w ->]|[e ->]];
    [|apply (wp_lift (Err e)); [done|done|by intros]].
  apply (wp_lift (Ok w)); [done| |done]. intros w' <-%Ok_inj.
  do 5 apply wp_bind, wp_modify. apply wp_bind, wp_get.
  match goal with |- wp _ _ _ ?x => set (s2 := x) end.
  assert (Hs2 : stage s s2 /\ same_role s s2 /\ own_sak (inr k) s s2).
  { split; [split; try done; by apply peers_le_fmap|]. split; [done|]. by exists k. }
  clearbody s2. clear Hs1 s1. cbn zeta.
  assert (Hend : forall s', quiet_step s2 s' -> post s').
  { intros s' (Hst & [Ha Hb Hc] & Hr). destruct Hs2 as (Hst2 & Hr2 & k' & ? & Hk & Hl & Hn & Hi).
    split; [by eapply stage_trans|]. split; [by eapply same_role_trans|]. right.
    split; [done|]. exists k'. destruct Hr as [Hr _]. by rewrite Ha, Hb, Hc, Hr. }
  match goal with |- wp ?m _ _ _ => assert (Hq : quiet m) end.
  { apply quiet_bind.
    - apply quiet_with_dev, returns_seq; [intros; apply tx_returns|].
      apply returns_for_each. intros. apply rx_returns.
    - intros _. apply quiet_bind; [|intros _; apply quiet_modify; quiet_set].
      apply quiet_if; [apply quiet_mark|apply quiet_mret]. }
  eapply wp_mono; [apply Hq|intros; by apply Hend..].
Qed.

(** The SAK of [pdu], unwrapped with our KEK, was adopted from its sender. *)
Definition adopted (pdu : MkaPdu.t) (sn : Sender) s s' : Prop :=
  exists d k, MkaPdu.dist_sak pdu = Some d
    /\ sn_live sn = true /\ sn_key_server sn = true
    /\ is_elected_key_server s (sn_sci sn) = true /\ is_key_server s = false
    /\ dist_sak_supported (encrypt s) d = true
    /\ unwrap_key (kek s) (d_wrapped_sak d) = Ok k /\ length k = 16%nat
    /\ sak s' = Some k /\ lki s' = Some (mkKeyId (sn_mi sn) (d_kn d)).

Lemma wp_dist_sak pdu sn s :
  let post s' := stage s s' /\ same_role s s' /\ (same_keys s s' \/ adopted pdu sn s s') in
  wp (handle_dist_sak pdu sn) (fun _ s' => post s') (fun _ s' => post s') s.
Proof using All.
  intros post. assert (Hrefl : post s)
    by (split; [apply stage_refl|]; split; [done|by left]).
  unfold handle_dist_sak. apply wp_bind, wp_get.
  destruct (MkaPdu.dist_sak pdu) as [d|] eqn:Hd; [|by apply wp_mret].
  destruct (_ && _) eqn:Hc; [|by apply wp_mret].
  apply andb_prop in Hc as [Hc _]. apply andb_prop in Hc as [Hc Hks].
  apply andb_prop in Hc as [Hc Hel]. apply andb_prop in Hc as [Hl Hsk].
  apply negb_true_iff in Hks.
  destruct (dist_sak_supported (encrypt s) d) eqn:Hsup; cbn [negb]; [|by apply wp_mret].
  destruct (bool_decide (lki s = _)); [by apply wp_mret|].
  pose proof (returns_mka_unwrap (kek s) (d_wrapped_sak d)) as Hret.
  destruct (unwrap_key (kek s) (d_wrapped_sak d)) as [k|e| |] eqn:Hu; try done.
  destruct (Nat.eqb_spec (length k) 16) as [Hk|]; cbn [negb]; [|by apply wp_mret].
  apply wp_bind, wp_modify. cbn zeta.
  match goal with |- wp _ _ _ ?x => set (s2 := x) end.
  assert (Hs2 : stage s s2 /\ same_role s s2 /\ adopted pdu sn s s2).
  { split; [split; [done|apply peers_le_refl]|]. split; [done|]. by exists d, k. }
  clearbody s2.
  match goal with |- wp ?m _ _ _ => assert (Hq : quiet m) end.
  { apply quiet_bind.
    - apply quiet_with_dev, returns_seq; [|intros; apply tx_returns].
      apply returns_for_each. intros. apply rx_returns.
    - intros _. apply quiet_bind; [apply quiet_if; [apply quiet_mark|apply quiet_mret]|].
      intros _. apply quiet_bind; [apply quiet_modify; quiet_set|intros _; apply quiet_mret]. }
  assert (Hend : forall s', quiet_step s2 s' -> post s').
  { intros s' (Hst & [Ha Hb Hn] & Hr). destruct Hs2 as (Hst2 & Hr2 & Had).
    split; [by eapply stage_trans|]. split; [by eapply same_role_trans|]. right.
    destruct Had as (d' & k' & Had). exists d', k'. by rewrite Ha, Hb. }
  eapply wp_mono; [apply Hq|intros; by apply Hend..].
Qed.

(** *** The sender *)

Lemma find_peer_from_spec l i m n :
  find_peer_from i m l = Some n ->
  exists j p, n = (i + j)%nat /\ l !! j = Some p /\ Peer.mi p = m
    /\ forall j' p', (j' < j)%nat -> l !! j' = Some p' -> Peer.mi p' <> m.
Proof using Type.
  revert i. induction l as [|p l IH]; intros i; [done|]. cbn [find_peer_from].
  destruct (bool_decide_reflect (Peer.mi p = m)) as [Hm|Hm].
  - intros [= <-]. exists 0%nat, p. split; [lia|]. split; [done|]. split; [done|]. lia.
  - intros (j & q & -> & Hq & Hqm & Hfirst)%IH. exists (S j), q.
    split; [lia|]. split; [done|]. split; [done|].
    intros [|j'] p' Hj Hp'; [by injection Hp' as <-|]. apply (Hfirst j' p'); [lia|done].
Qed.

Lemma find_peer_from_complete l i m j p :
  l !! j = Some p -> Peer.mi p = m ->
  (forall j' p', (j' < j)%nat -> l !! j' = Some p' -> Peer.mi p' <> m) ->
  find_peer_from i m l = Some (i + j)%nat.
Proof using Type.
  revert i j. induction l as [|q l IH]; intros i [|j] Hj Hm Hfirst; try done; cbn [find_peer_from].
  - injection Hj as ->. rewrite bool_decide_true by done. f_equal. lia.
  - rewrite bool_decide_false by (by apply (Hfirst 0%nat q); [lia|]).
    rewrite (IH (S i) j); [f_equal; lia|done|done|]. intros j' p' Hlt Hp'.
    apply (Hfirst (S j') p'); [lia|done].
Qed.

Lemma find_peer_from_none l i m j p :
  find_peer_from i m l = None -> l !! j = Some p -> Peer.mi p <> m.
Proof using Type.
  revert i j. induction l as [|q l IH]; intros i j; [done|]. cbn [find_peer_from].
  destruct (bool_decide_reflect (Peer.mi q = m)); [done|]. destruct j as [|j]; cbn.
  - by intros _ [= <-].
  - apply IH.
Qed.

(** The sender of [b] is the peer found at [i], and has its message number. *)
Definition sender_at (b : MkaBasic) (i : nat) s : Prop :=
  find_peer s (b_mi b) = Some i
  /\ exists p, peers s !! i = Some p /\ Peer.mi p = b_mi b /\ Peer.mn p = b_mn b
     /\ Peer.sci p = b_sci b /\ Peer.key_server p = b_key_server b.

Lemma sender_at_stage b i s s' : stage s s' -> sender_at b i s -> sender_at b i s'.
Proof using Type.
  intros [_ Hp] (Hf & p & Hi & Hm & Hn & Hs & Hk).
  destruct (Hp i p Hi) as (q & Hq & [? ? ? ? _]).
  split; [|exists q; repeat split; congruence].
  destruct (find_peer_from_spec _ _ _ _ Hf) as (j & p' & Hj & _ & _ & Hfirst). cbn in Hj. subst j.
  apply (find_peer_from_complete _ 0 _ i q); [done|congruence|].
  intros j' q' Hlt Hq'. assert (is_Some (peers s !! j')) as [p0 Hp0].
  { apply lookup_lt_is_Some. apply lookup_lt_Some in Hi. lia. }
  destruct (Hp j' p0 Hp0) as (q0 & Hq0 & [Hmi _ _ _ _]). rewrite Hq' in Hq0.
  injection Hq0 as <-. rewrite Hmi. by eapply Hfirst.
Qed.

(** After [note_sender] the sender is known with the PDU's message number, unless
    that number was not new. *)
Lemma wp_note_sender now b s :
  wp (note_sender now b)
    (fun o s' => match o with
       | None => s' = s /\ exists i p, find_peer s (b_mi b) = Some i
                   /\ peers s !! i = Some p /\ b_mn b <= Peer.mn p
       | Some i => static s s' /\ same_keys s s' /\ same_role s s' /\ sender_at b i s'
       end)
    (fun _ _ => False) s.
Proof using Type.
  assert (Hgo : forall i p s1, peers s1 !! i = Some p -> Peer.mi p = b_mi b ->
    find_peer s1 (b_mi b) = Some i ->
    let s2 := alter_peer (Peer.refresh b now) i s1 in
    sender_at b i s2 /\ sender_at b i (put_need_send true s2)).
  { intros i p s1 Hp Hm Hf s2. assert (Hs2 : sender_at b i s2); [|by split].
    assert (Hi : peers s2 !! i = Some (Peer.refresh b now p)).
    { cbn. by rewrite list_lookup_alter_eq, Hp. }
    split; [|by exists (Peer.refresh b now p)].
    destruct (find_peer_from_spec _ _ _ _ Hf) as (j & p' & Hj & _ & _ & Hfirst). cbn in Hj. subst j.
    apply (find_peer_from_complete _ 0 _ i (Peer.refresh b now p)); [done|done|].
    intros j' q' Hlt Hq'. cbn in Hq'. rewrite list_lookup_alter_ne in Hq' by lia.
    by eapply Hfirst. }
  unfold note_sender. apply wp_bind, wp_get, wp_bind.
  destruct (find_peer s (b_mi b)) as [i|] eqn:Hf.
  - apply wp_mret, wp_bind, wp_get, wp_bind.
    destruct (find_peer_from_spec _ _ _ _ Hf) as (j & p & Hj & Hp & Hm & _). cbn in Hj. subst j.
    rewrite (proj2 (idx_ok _ _ _) Hp). apply (wp_lift (Ok p)); [done| |done]. intros ? <-%Ok_inj.
    cbn [negb andb]. destruct (Z.leb_spec (b_mn b) (Peer.mn p)).
    { apply wp_mret. split; [done|]. by exists i, p. }
    apply wp_bind, wp_modify, wp_bind. destruct (Hgo i p s Hp Hm Hf) as [H1' H2'].
    destruct (Peer.differs b p); [apply wp_modify|apply wp_mret]; by apply wp_mret.
  - apply wp_bind, wp_modify, wp_mret, wp_bind, wp_get, wp_bind.
    set (s1 := push_peer (Peer.heard b now) s). set (i := length (peers s)).
    assert (Hp : peers s1 !! i = Some (Peer.heard b now)) by (cbn; by rewrite lookup_app_r, Nat.sub_diag by done).
    rewrite (proj2 (idx_ok _ _ _) Hp). apply (wp_lift (Ok (Peer.heard b now))); [done| |done].
    intros ? <-%Ok_inj. cbn [negb andb]. apply wp_bind, wp_modify, wp_bind.
    assert (Hf1 : find_peer s1 (b_mi b) = Some i).
    { apply (find_peer_from_complete _ 0 _ i (Peer.heard b now)); [done|done|].
      intros j' p' Hlt Hp'. cbn in Hp'. rewrite lookup_app_l in Hp' by done.
      by eapply find_peer_from_none. }
    destruct (Hgo i _ s1 Hp eq_refl Hf1) as [H1' H2'].
    destruct (Peer.differs b _); [apply wp_modify|apply wp_mret]; by apply wp_mret.
Qed.

Lemma wp_note_liveness now pdu i s :
  is_Some (peers s !! i) ->
  wp (note_liveness now pdu i) (fun _ s' => quiet_step s s') (fun _ _ => False) s.
Proof using Type.
  intros [p Hp]. unfold note_liveness. apply wp_bind, wp_get, wp_bind.
  rewrite (proj2 (idx_ok _ _ _) Hp). apply (wp_lift (Ok p)); [done| |done]. intros ? <-%Ok_inj.
  destruct (_ && _); [|apply wp_mret, quiet_step_refl].
  do 2 apply wp_bind, wp_modify.
  assert (Hq : quiet_step s (put_need_send true
    (alter_peer (fun p => Peer.put_last_seen now (Peer.put_live true p)) i s))).
  { split; [|done]. split; [done|]. by apply peers_le_alter. }
  destruct (_ && _); [apply wp_modify|apply wp_mret]; [|exact Hq].
  eapply quiet_step_trans; [exact Hq|]. split; [split; [done|apply peers_le_refl]|done].
Qed.

(** The SAK comes from the live, elected key server that sent [pdu], wrapped
    under our KEK. *)
Definition from_key_server (pdu : MkaPdu.t) s s' : Prop :=
  let b := MkaPdu.basic pdu in
  exists d k, MkaPdu.dist_sak pdu = Some d /\ b_key_server b = true
    /\ dist_sak_supported (encrypt s) d = true
    /\ unwrap_key (kek s) (d_wrapped_sak d) = Ok k /\ length k = 16%nat
    /\ sak s' = Some k /\ lki s' = Some (mkKeyId (b_mi b) (d_kn d))
    /\ is_key_server s' = false /\ key_server_sci s' = b_sci b /\ b_sci b <> no_sci
    /\ exists p, p ∈ peers s' /\ Peer.mi p = b_mi b /\ Peer.live p = true.

(** How a PDU may change the SAK of a participant that keeps its MI. *)
Definition sak_outcome (i : Inputs) (pdu : MkaPdu.t) s s' : Prop :=
  same_sak s s' \/ own_sak (in_sak i) s s' \/ from_key_server pdu s s'.

Definition was_reset (i : Inputs) s s' : Prop :=
  s' = put_need_send true (reset_mi (in_mi i) s).

Lemma adopted_from_key_server pdu i sn p s2 s4 s' :
  sender_at (MkaPdu.basic pdu) i s2 -> peers s2 !! i = Some p ->
  sn = mkSender (Peer.live p) (Peer.key_server p) (Peer.sci p) (Peer.mi p) ->
  stage s2 s4 -> adopted pdu sn s4 s' -> stage s4 s' -> same_role s4 s' ->
  from_key_server pdu s2 s'.
Proof using Type.
  intros (_ & p' & Hp' & Hm & _ & Hs & Hk) Hp -> Hst4 Had Hst' [Hr1 Hr2].
  rewrite Hp in Hp'. injection Hp' as <-.
  destruct Had as (d & k & Hd & Hl & Hks & Hel & Hni & Hsup & Hu & Hlen & Hsak & Hlki).
  cbn [sn_live sn_key_server sn_sci sn_mi] in *.
  unfold is_elected_key_server in Hel. apply andb_prop in Hel as [He1 He2].
  apply negb_true_iff, bool_decide_eq_false in He1. apply bool_decide_eq_true in He2.
  exists d, k. destruct Hst4 as [[] Hp4]. split; [done|]. split; [congruence|].
  split; [congruence|]. split; [congruence|]. split; [done|].
  split; [congruence|]. split; [by rewrite Hlki, Hm|]. split; [congruence|].
  split; [congruence|]. split; [congruence|].
  destruct (peers_le_trans _ _ _ Hp4 (stg_peers _ _ Hst') i p Hp) as (q & Hq & [Hqm _ _ _ Hql]).
  exists q. split; [by apply list_elem_of_lookup_2 in Hq|]. split; [congruence|auto].
Qed.

Lemma wp_finish_frame inp pdu sn s :
  let post s' := stage s s' /\ (same_sak s s' \/ own_sak (in_sak inp) s s'
                                \/ adopted pdu sn s s' /\ same_role s s') in
  wp (finish_frame inp pdu sn) (fun _ s' => post s') (fun _ s' => post s') s.
Proof using All.
  intros post. unfold finish_frame.
  assert (Hmid : forall s5, stage s s5 -> same_role s s5 ->
    same_keys s s5 \/ adopted pdu sn s s5 -> post s5).
  { intros s5 Hst5 Hr5 Hs5. split; [done|].
    destruct Hs5 as [Hk5|Had]; [left; by apply same_keys_sak|by right; right]. }
  apply wp_bind. eapply wp_mono; [apply (wp_dist_sak pdu sn s)| |];
    [|by intros e s5 (?&?&?); apply Hmid].
  intros go s5 (Hst5 & Hr5 & Hs5). destruct go; cbn [negb]; [|apply wp_mret; by apply Hmid].
  apply wp_bind, wp_get, wp_bind.
  assert (Hend : forall s6, stage s5 s6 -> same_role s5 s6 ->
    same_sak s5 s6 \/ is_key_server s5 = true /\ own_sak (in_sak inp) s5 s6 -> post s6).
  { intros s6 Hst6 Hr6 Hs6. split; [by eapply stage_trans|].
    destruct Hs6 as [[Ha Hb]|[Hks (k & Hk1 & Hk2 & Hk3 & Hk4 & Hk5)]].
    - destruct Hs5 as [[Hc Hd _]|(d & k & Had)]; [left; split; congruence|]. right. right.
      split; [exists d, k; by rewrite Ha, Hb|by eapply same_role_trans].
    - destruct Hs5 as [[Hc Hd Hn]|(d & k' & _ & _ & _ & _ & Hni & _)].
      + right. left. destruct Hst5 as [[] _]. exists k. repeat split; congruence.
      + destruct Hr5 as [Hr5 _]. congruence. }
  assert (Hq : forall s6 s7, stage s5 s6 -> same_role s5 s6 ->
    same_sak s5 s6 \/ is_key_server s5 = true /\ own_sak (in_sak inp) s5 s6 ->
    quiet_step s6 s7 -> post s7).
  { intros s6 s7 Hst6 Hr6 Hs6 (Hst7 & [Ha Hb Hc] & Hr7).
    apply Hend; [by eapply stage_trans|by eapply same_role_trans|].
    destruct Hs6 as [[? ?]|[Hks (k & ? & ? & ? & ? & ?)]]; [left; split; congruence|right].
    split; [done|]. exists k. destruct Hr7 as [Hr7 _]. repeat split; congruence. }
  eapply (wp_mono _ (fun _ s6 => stage s5 s6 /\ same_role s5 s6 /\ (same_sak s5 s6
    \/ is_key_server s5 = true /\ own_sak (in_sak inp) s5 s6)) _ (fun _ s6 => post s6)).
  - destruct (is_key_server s5) eqn:Hks.
    + pose proof (wp_ensure_sak (in_sak inp) (in_elapsed_now inp) (in_sak_now inp) s5) as Hw.
      eapply wp_mono; [apply Hw| |]; intros x s6; rewrite Hks; [done|].
      intros (?&?&?). by apply Hend.
    + apply wp_mret. split; [apply stage_refl|]. split; [done|by left].
  - intros _ s6 (Hst6 & Hr6 & Hs6). eapply wp_mono; [apply quiet_install_rx|..];
      intros x s7 Hq7; by eapply Hq.
  - done.
Qed.

Lemma wp_handle_known inp pdu i s :
  sender_at (MkaPdu.basic pdu) i s ->
  let post s' := was_reset inp s s' \/ stage s s' /\ sak_outcome inp pdu s s' in
  wp (handle_known inp pdu i) (fun _ s' => post s') (fun _ s' => post s') s.
Proof using All.
  intros Hsn post. unfold handle_known. apply wp_bind, wp_get.
  destruct (collides s pdu); [apply wp_bind, wp_modify, wp_modify; by left|].
  assert (Hquiet : forall s', stage s s' -> same_keys s s' -> post s')
    by (intros s' ??; right; split; [done|]; left; by apply same_keys_sak).
  apply wp_bind. eapply wp_mono; [apply wp_note_liveness| |done].
  { destruct Hsn as (_ & p & Hp & _). by exists p. }
  intros _ s1 (Hst1 & Hk1 & _). apply wp_bind, wp_get, wp_bind.
  destruct (sender_at_stage _ _ _ _ Hst1 Hsn) as (_ & p1 & Hp1 & _).
  rewrite (proj2 (idx_ok _ _ _) Hp1). apply (wp_lift (Ok p1)); [done| |done]. intros ? <-%Ok_inj.
  apply wp_bind. eapply wp_mono;
    [apply (quiet_if (Peer.live p1) _ _ (quiet_learn (in_now inp) (MkaPdu.live_peers pdu))
              (quiet_mret tt))| |];
    [|by intros e s2 (?&?&_); apply Hquiet; [eapply stage_trans|eapply same_keys_trans]].
  intros _ s2 (Hst2 & Hk2 & _). pose proof (stage_trans _ _ _ Hst1 Hst2) as Hst02.
  pose proof (same_keys_trans _ _ _ Hk1 Hk2) as Hk02.
  apply wp_bind, wp_get, wp_bind.
  pose proof (sender_at_stage _ _ _ _ Hst02 Hsn) as Hat. pose proof Hat as (_ & p2 & Hp2 & _).
  rewrite (proj2 (idx_ok _ _ _) Hp2). apply (wp_lift (Ok p2)); [done| |done]. intros ? <-%Ok_inj.
  apply wp_bind, wp_modify, wp_bind. destruct (stage_elect s2) as [Hst3 Hk3].
  eapply wp_mono; [apply quiet_sak_use| |].
  2: { intros e s4 (Hst4 & Hk4 & _). apply Hquiet.
       - eapply stage_trans; [exact Hst02|]. by eapply stage_trans.
       - eapply same_keys_trans; [exact Hk02|]. by eapply same_keys_trans. }
  intros _ s4 (Hst4 & Hk4 & _).
  pose proof (stage_trans _ _ _ Hst3 Hst4) as Hst24.
  pose proof (same_keys_trans _ _ _ Hk02 (same_keys_trans _ _ _ Hk3 Hk4)) as [Ha Hb Hc].
  pose proof (stage_trans _ _ _ Hst02 Hst24) as Hst04.
  set (sn := mkSender _ _ _ _).
  assert (Hfin : forall s', stage s4 s' /\ (same_sak s4 s' \/ own_sak (in_sak inp) s4 s'
    \/ adopted pdu sn s4 s' /\ same_role s4 s') -> post s').
  { intros s' [Hst' Hs']. right. split; [by eapply stage_trans|].
    pose proof (stg_static _ _ Hst04) as [].
    destruct Hs' as [[? ?]|[(k & ? & ? & ? & ? & ?)|[Had Hr]]].
    - left. split; congruence.
    - right. left. exists k. repeat split; congruence.
    - right. right.
      destruct (adopted_from_key_server pdu i sn p2 s2 s4 s' Hat Hp2 eq_refl Hst24 Had Hst' Hr)
        as (d & k & ? & ? & ? & ? & Hrest).
      pose proof (stg_static _ _ Hst02) as []. exists d, k.
      split; [done|]. split; [done|]. split; [congruence|]. split; [congruence|exact Hrest]. }
  eapply wp_mono; [apply wp_finish_frame|intros ? s' Hs'; by apply Hfin..].
Qed.

(** *** Handling a frame *)

Lemma outcome_pre i pdu s s1 s' :
  static s s1 -> same_keys s s1 -> sak_outcome i pdu s1 s' -> sak_outcome i pdu s s'.
Proof using Type.
  intros [] [Ha Hb Hc] [[? ?]|[(k & ? & ? & ? & ? & ?)|(d & k & ? & ? & ? & ? & Hrest)]].
  - left. split; congruence.
  - right. left. exists k. repeat split; congruence.
  - right. right. exists d, k. split; [done|]. split; [done|]. split; [congruence|].
    split; [congruence|exact Hrest].
Qed.

Lemma received_spec s frame :
  EapolFrame.src frame <> [] ->
  received_pdu s frame = Ok None
  \/ exists pdu, received_pdu s frame = Ok (Some pdu)
       /\ MkaPdu.parse (EapolFrame.payload frame) (EapolFrame.dst frame)
            (EapolFrame.src frame) (ick s) = Ok (Some pdu)
       /\ EapolFrame.src frame <> mac s.
Proof using Type.
  intros Hsrc. unfold received_pdu.
  destruct (Nat.ltb_spec (length (EapolFrame.payload frame)) 4); [by left|].
  destruct (EapolFrame.payload frame) as [|e0 [|e1 rest]] eqn:Hp; cbn in *; try lia.
  destruct (EapolFrame.src frame) as [|b0 src] eqn:Hs; [done|].
  destruct (e1 =? EAPOL_TYPE_MKA); cbn [negb]; [|by left].
  destruct (bool_decide (EapolFrame.dst frame = _)); cbn [negb]; [|by left].
  unfold idx. cbn [lookup list_lookup mbind outcome_bind].
  destruct (has_bit b0 1); [by left|].
  destruct (bool_decide_reflect (b0 :: src = mac s)) as [Hm|Hm]; [by left|].
  pose proof (MkaFacts.returns_parse (e0 :: e1 :: rest) (EapolFrame.dst frame) (b0 :: src) (ick s)) as Hr.
  destruct (MkaPdu.parse _ _ _ _) as [[pdu|]|e| |]; try done; auto.
  right. by exists pdu.
Qed.

Lemma received_static s s' frame :
  static s s' -> received_pdu s' frame = received_pdu s frame.
Proof using Type. intros [Hm _ _ Hi _ _ _]. unfold received_pdu. by rewrite Hm, Hi. Qed.

Lemma note_sender_old now b s i p :
  find_peer s (b_mi b) = Some i -> peers s !! i = Some p -> b_mn b <= Peer.mn p ->
  note_sender now b s = (s, Ok None).
Proof using Type.
  intros Hf Hp Hn. unfold note_sender. rewrite st_bind_get, Hf, st_bind_mret, st_bind_get.
  rewrite (proj2 (idx_ok _ _ _) Hp), st_bind_lift. cbn [negb andb].
  by replace (b_mn b <=? Peer.mn p) with true by lia.
Qed.

(** The frame is none of our business, or old. *)
Definition ignored s frame : Prop := forall i, handle_frame i frame s = (s, Ok tt).

(** A PDU that passes the checks before the sender is looked up. *)
Record admissible s frame (pdu : MkaPdu.t) : Prop := {
  adm_pdu : received_pdu s frame = Ok (Some pdu);
  adm_ckn : b_ckn (MkaPdu.basic pdu) = ckn s;
  adm_mi : b_mi (MkaPdu.basic pdu) <> mi s;
  adm_version : b_version (MkaPdu.basic pdu) <= MKA_VERSION;
  adm_algo : b_algo_agility (MkaPdu.basic pdu) = ALGO_AGILITY;
}.

Lemma handle_admissible i frame s pdu :
  admissible s frame pdu ->
  handle_frame i frame s
  = (sender ← note_sender (in_now i) (MkaPdu.basic pdu);
     match sender with
     | None => mret tt
     | Some idx_ => handle_known i pdu idx_
     end) s.
Proof using Type.
  intros [Hr Hc Hm Hv Ha]. unfold handle_frame. rewrite st_bind_get, Hr, st_bind_lift. cbn zeta.
  rewrite bool_decide_true by done. cbn [negb]. rewrite bool_decide_false by done.
  replace (MKA_VERSION <? _) with false by lia. by rewrite bool_decide_true by done.
Qed.

Lemma ignored_old s frame pdu i p :
  admissible s frame pdu -> find_peer s (b_mi (MkaPdu.basic pdu)) = Some i ->
  peers s !! i = Some p -> b_mn (MkaPdu.basic pdu) <= Peer.mn p -> ignored s frame.
Proof using Type.
  intros Had Hf Hp Hn inp. rewrite (handle_admissible _ _ _ _ Had).
  unfold mbind, st_bind. by rewrite (note_sender_old (in_now inp) _ s i p Hf Hp Hn).
Qed.

Lemma admissible_static s s' frame pdu :
  static s s' -> admissible s frame pdu -> admissible s' frame pdu.
Proof using Type.
  intros Hst [Hr Hc Hm Hv Ha]. pose proof Hst as []. split; try congruence.
  by rewrite (received_static s s').
Qed.

(** What [handle_frame] may do. *)
Definition handled (i : Inputs) frame s s' : Prop :=
  (s' = s /\ ignored s frame)
  \/ exists pdu, received_pdu s frame = Ok (Some pdu) /\ b_ckn (MkaPdu.basic pdu) = ckn s
       /\ ((exists s0, static s s0 /\ was_reset i s0 s')
           \/ static s s' /\ sak_outcome i pdu s s' /\ admissible s frame pdu
              /\ exists n, sender_at (MkaPdu.basic pdu) n s').

Lemma wp_handle_frame i frame s :
  EapolFrame.src frame <> [] ->
  wp (handle_frame i frame) (fun _ s' => handled i frame s s')
    (fun _ s' => handled i frame s s') s.
Proof using All.
  intros Hsrc. destruct (received_spec s frame Hsrc) as [Hn|(pdu & Hr & Hp & Hmac)].
  { assert (Hig : ignored s frame).
    { intros inp. unfold handle_frame. by rewrite st_bind_get, Hn, st_bind_lift. }
    unfold wp. rewrite Hig. by left. }
  set (b := MkaPdu.basic pdu).
  assert (Hchk : forall (bad : bool), bad = true ->
    (forall inp, handle_frame inp frame s = if bad then (s, Ok tt) else handle_frame inp frame s) ->
    wp (handle_frame i frame) (fun _ s' => handled i frame s s')
      (fun _ s' => handled i frame s s') s).
  { intros bad -> Hb. unfold wp. rewrite Hb. left. split; [done|]. exact Hb. }
  assert (Heq : forall inp, handle_frame inp frame s
    = (if negb (bool_decide (b_ckn b = ckn s)) then mret tt
       else if bool_decide (b_mi b = mi s)
       then modify (reset_mi (in_mi inp));; modify (put_need_send true)
       else if MKA_VERSION <? b_version b then mret tt
       else if negb (bool_decide (b_algo_agility b = ALGO_AGILITY)) then mret tt
       else sender ← note_sender (in_now inp) b;
            match sender with None => mret tt | Some n => handle_known inp pdu n end) s).
  { intros inp. unfold handle_frame. by rewrite st_bind_get, Hr, st_bind_lift. }
  destruct (bool_decide_reflect (b_ckn b = ckn s)) as [Hc|Hc]; cbn [negb] in Heq;
    [|by apply (Hchk true eq_refl)].
  destruct (bool_decide_reflect (b_mi b = mi s)) as [Hm|Hm].
  { unfold wp. rewrite Heq. right. exists pdu. split; [done|]. split; [done|]. left.
    by exists s. }
  destruct (Z.ltb_spec MKA_VERSION (b_version b)); [by apply (Hchk true eq_refl)|].
  destruct (bool_decide_reflect (b_algo_agility b = ALGO_AGILITY)) as [Ha|Ha];
    cbn [negb] in Heq; [|by apply (Hchk true eq_refl)].
  assert (Had : admissible s frame pdu) by done.
  unfold wp. rewrite (handle_admissible _ _ _ _ Had).
  match goal with |- match ?m s with _ => _ end => change (wp m
    (fun _ s' => handled i frame s s') (fun _ s' => handled i frame s s') s) end.
  apply wp_bind. eapply wp_mono; [apply wp_note_sender| |done].
  intros [n|] s1; cycle 1.
  { intros [-> (j & p & Hf & Hpj & Hle)]. apply wp_mret. left. split; [done|].
    by eapply ignored_old. }
  intros (Hst & Hk & _ & Hsn).
  assert (Hfin : forall s', was_reset i s1 s' \/ stage s1 s' /\ sak_outcome i pdu s1 s' ->
    handled i frame s s').
  { intros s' Hs'. right. exists pdu. split; [done|]. split; [done|].
    destruct Hs' as [Hres|[Hstg Hout]]; [left; by exists s1|right].
    split; [eapply static_trans; [exact Hst|apply Hstg]|].
    split; [by eapply outcome_pre|]. split; [done|]. exists n. by eapply sender_at_stage. }
  eapply wp_mono; [by apply wp_handle_known|intros ? s' Hs'; by apply Hfin..].
Qed.

(** C6: an MKA frame is handled without a panic.  It changes the SAK of a
    participant only if it carries an ICV valid under the participant's ICK and
    its CKN, and then only by a reset to a new member identifier, which drops all
    keys, by the key server's own choice of a new SAK with its next key number, or
    by adopting a 16-octet SAK that unwraps under the KEK and was sent by a live
    peer that claims to be, and was elected, key server. *)
Theorem mka_frame_sak_safe i frame s s' r :
  EapolFrame.src frame <> [] -> handle_frame i frame s = (s', r) ->
  (r = Ok tt \/ exists e, r = Err e)
  /\ (sak s' = sak s /\ lki s' = lki s
      \/ exists pdu,
           MkaPdu.parse (EapolFrame.payload frame) (EapolFrame.dst frame)
             (EapolFrame.src frame) (ick s) = Ok (Some pdu)
           /\ b_ckn (MkaPdu.basic pdu) = ckn s
           /\ ((sak s' = None /\ lki s' = None /\ peers s' = [])
               \/ own_sak (in_sak i) s s' \/ from_key_server pdu s s')).
Proof using All.
  intros Hsrc Hrun. pose proof (wp_handle_frame i frame s Hsrc) as Hw.
  apply (wp_intro _ _ _ _ _ _ Hw) in Hrun.
  assert (Hh : handled i frame s s') by (by destruct r).
  split; [destruct r as [[]|e| |]; eauto; done|].
  destruct Hh as [[-> _]|(pdu & Hr & Hc & Hout)]; [by left|].
  assert (Hp : MkaPdu.parse (EapolFrame.payload frame) (EapolFrame.dst frame)
    (EapolFrame.src frame) (ick s) = Ok (Some pdu)).
  { destruct (received_spec s frame Hsrc) as [Hn|(pdu' & Hr' & Hp & _)]; congruence. }
  destruct Hout as [(s0 & _ & ->)|(_ & [[? ?]|Hout] & _)].
  - right. exists pdu. split; [done|]. split; [done|]. by left.
  - by left.
  - right. exists pdu. split; [done|]. split; [done|]. by right.
Qed.

(** A frame that was handled, delivered again, changes nothing, unless the
    first delivery made the participant forget all its peers. *)
Theorem mka_replay_ignored i i' frame s s' r :
  EapolFrame.src frame <> [] -> handle_frame i frame s = (s', r) -> peers s' <> [] ->
  handle_frame i' frame s' = (s', Ok tt).
Proof using All.
  intros Hsrc Hrun Hne. pose proof (wp_handle_frame i frame s Hsrc) as Hw.
  apply (wp_intro _ _ _ _ _ _ Hw) in Hrun.
  assert (Hh : handled i frame s s') by (by destruct r).
  destruct Hh as [[-> Hig]|(pdu & _ & _ & [(s0 & _ & ->)|(Hst & _ & Had & n & Hsn)])].
  - apply Hig.
  - done.
  - destruct Hsn as (Hf & p & Hp & _ & Hmn & _).
    eapply (ignored_old s' frame pdu n p); [by eapply admissible_static|done|done|lia].
Qed.

End frames.

(** *** Two participants *)

Import MkaFacts.
#[local] Existing Instance MacsecFacts.log_kernel.

(** The key server A, as the member B sees it, and B itself. *)
Definition peer_a : Peer.t :=
  Peer.mk (repeat 1 12) 4 (repeat 2 8) 16 true true 2 true 0 false false.

Definition session_b : t :=
  {| mac := repeat 4 6; ckn := repeat 9 5; kek := repeat 8 16; ick := repeat 7 16;
     priority := 255; can_be_key_server := false; encrypt := true;
     macsec := Some MacsecFacts.fresh_device; mi := repeat 6 12; mn := 3;
     peers := [peer_a]; is_key_server := false; key_server_sci := repeat 2 8;
     lki := None; lan := 0; ltx := false; lrx := false; oki := None; oan := 0;
     otx := false; orx := false; sak := None; dist_sak := None; next_kn := 1;
     last_hello := 0; last_sak_time := None; need_send := false; need_new_sak := false |}.

(** A distributes the SAK [5, 5, ..]. *)
Definition pdu_a : MkaPdu.t :=
  MkaPdu.mk (mkMkaBasic 3 16 true true 2 (repeat 2 8) (repeat 1 12) 5 ALGO_AGILITY (repeat 9 5))
    [mkPeerId (repeat 6 12) 2] [] None
    (Some (mkDistSak 1 1 1 None (repeat 0xa6 8 ++ repeat 5 16))).

Definition frame_a : EapolFrame.t :=
  EapolFrame.mk (repeat 2 6) PAE_GROUP_ADDR
    match MkaPdu.build_eapol pdu_a PAE_GROUP_ADDR (repeat 2 6) (repeat 7 16) with
    | Ok e => e | _ => []
    end.

Definition inputs_b : Inputs := mkInputs 100 100 100 (Some (repeat 11 12)) (inr (repeat 12 16)).

Definition after_a : t * outcome WifiError.t unit := handle_frame inputs_b frame_a session_b.

Lemma mka_frame_sak_safe_witness :
  sak after_a.1 = Some (repeat 5 16)
  /\ exists pdu, MkaPdu.parse (EapolFrame.payload frame_a) PAE_GROUP_ADDR (repeat 2 6)
                   (repeat 7 16) = Ok (Some pdu)
       /\ b_ckn (MkaPdu.basic pdu) = repeat 9 5.
Proof.
  assert (Hs : sak after_a.1 = Some (repeat 5 16)) by (vm_compute; reflexivity).
  split; [exact Hs|].
  destruct (mka_frame_sak_safe inputs_b frame_a session_b after_a.1 after_a.2)
    as [_ [[Hn _]|(pdu & Hp & Hc & _)]].
  - discriminate.
  - unfold after_a. destruct (handle_frame inputs_b frame_a session_b). reflexivity.
  - rewrite Hs in Hn. discriminate.
  - exists pdu. split; [exact Hp|exact Hc].
Defined.

Lemma mka_replay_ignored_witness :
  peers after_a.1 <> [] /\ handle_frame inputs_b frame_a after_a.1 = (after_a.1, Ok tt).
Proof.
  assert (Hne : peers after_a.1 <> []) by (vm_compute; discriminate).
  split; [exact Hne|].
  apply (mka_replay_ignored inputs_b inputs_b frame_a session_b after_a.1 after_a.2).
  - discriminate.
  - unfold after_a. destruct (handle_frame inputs_b frame_a session_b). reflexivity.
  - exact Hne.
Defined.

Lemma mka_election_agrees_witness :
  is_key_server (elect_key_server session_b) = false
  /\ exists r, best_of r (candidates session_b)
       /\ key_server_sci (elect_key_server session_b) = r.2.
Proof.
  split; [vm_compute; reflexivity|].
  apply (mka_election_agrees session_b session_b).
  - intros r. split; intros Hr; exact Hr.
  - discriminate.
Defined.

(** *** Receive channels and expired peers

    [run] does not keep the receive channels of the device in step with the peer
    list; the two examples are turns of [run] that show it. *)

(** A device that receives from the channel [repeat 2 8] (SCI [s2]) under
    association number 1. *)
Definition s2 : Z := from_be (repeat 2 8).

Definition installed_device : MacsecDevice.t :=
  (MacsecDevice.install_rx_sa (repeat 2 8) 1 (mkKeyId (repeat 1 12) 1) (repeat 5 16)
     MacsecFacts.fresh_device).1.

Definition receives (s : t) : bool :=
  match macsec s with
  | Some d => match MacsecFacts.view (MacsecDevice.desired d) (MacsecFacts.Rx s2 1) with
              | Some _ => true | None => false end
  | None => false
  end.

(** B with the SAK of A installed in both directions. *)
Definition secured_b (ps : list Peer.t) : t :=
  put_macsec (Some installed_device) (put_peers ps (put_lan 1 (put_lrx true (put_ltx true
    (put_sak (Some (repeat 5 16)) (put_lki (Some (mkKeyId (repeat 1 12) 1)) session_b)))))).

(** A turn at time [t1], with a second look at the peers at time [t2]. *)
Definition turn (t1 t2 : Z) : RunInputs :=
  {| ri_create := Ok MacsecFacts.fresh_device; ri_expire1 := t1; ri_now := t1; ri_sent1 := Ok tt;
     ri_sent1_now := t1; ri_received := Nothing; ri_inputs := inputs_b; ri_expire2 := t2;
     ri_sak := inr []; ri_elapsed_now := t2; ri_sak_now := t2; ri_sent2 := Ok tt;
     ri_sent2_now := t2 |}.

(** A restarted: it has a new member identifier and is live again, its old entry is
    about to expire, and both have its SCI. *)
Definition peer_a_old : Peer.t :=
  Peer.mk (repeat 33 12) 9 (repeat 2 8) 16 true true 2 true 0 false true.
Definition peer_a_new : Peer.t :=
  Peer.mk (repeat 1 12) 4 (repeat 2 8) 16 true true 2 true 5000 false true.

(** Expiring the old entry of a restarted peer removes the receive channel of the
    new one: the session still reports itself secured and counts the peer's SA as
    installed, but receives nothing from it. *)
Lemma restarted_peer_loses_channel :
  let s := secured_b [peer_a_old; peer_a_new] in
  let '(s', r) := run (turn 6000 6000) s in
  receives s = true /\ r = Ok true /\ peers s' = [peer_a_new] /\ receives s' = false.
Proof. vm_compute. repeat split. Qed.

(** A peer that expires while the turn waits for a frame is dropped, but its receive
    channel stays. *)
Lemma expired_peer_keeps_channel :
  let s := secured_b [Peer.mk (repeat 33 12) 9 (repeat 2 8) 16 true true 2 true 0 false true;
                      Peer.mk (repeat 1 12) 4 (repeat 3 8) 16 true true 2 true 5000 false true] in
  let '(s', r) := run (turn 5000 6000) s in
  r = Ok true /\ Peer.sci <$> peers s' = [repeat 3 8] /\ receives s' = true.
Proof. vm_compute. repeat split. Qed.

End MkaSessionFacts.
