(* ===== verification/Wired.v ===== *)
(** * Wired 802.1X and MACsec clients

    [src/src/wired/eap.rs] (EAP over an Ethernet port) and [src/src/wired/client.rs] (one
    client for EAP and MACsec).  The packet socket and the files under [/sys] are the class
    [WiredIo]; the EAP method is any [EapMethod] and the MACsec side the session of
    [MkaSession].  [Module WiredFacts]: a port is connected only after the method has seen
    the protected end of the exchange. *)

From S2P Require Import Prelude Errors Net IpText Eap WifiConfig Mka Macsec MkaSession.

(** [WiredState], and [EapState], which lacks [Securing]. *)
Inductive WiredState := Init | Authenticating | Securing | Connected | Failed.

#[global] Instance WiredState_eq_dec : EqDecision WiredState.
Proof. solve_decision. Defined.

Inductive EapState := EapInit | EapAuthenticating | EapConnected | EapFailed.

#[global] Instance EapState_eq_dec : EqDecision EapState.
Proof. solve_decision. Defined.

Definition ETH_P_PAE : Z := 34958.
Definition EAPOL_START : list Z := [2; 1; 0; 0].
Definition AUTH_EVENT_TIMEOUT_SECS : Z := 15.

(** What waiting for the socket gives. *)
Inductive SocketEvent :=
| TimedOut
| NotReadable (e : string)
| WouldBlock
| RecvError (e : string)
| Bytes (l : list Z).

Class WiredIo := {
  Io : Type;
  (** [format!({:?})] of a text. *)
  debug_text : string -> string;
  (** [fs::read_to_string]. *)
  read_text : string -> Io -> Io * (string + string);
  (** A packet socket bound to an interface, its clone, and its registration. *)
  Fd : Type;
  socket_open : Z -> Io -> Io * (string + Fd);
  socket_clone : Fd -> Io -> Io * (string + unit);
  socket_register : Fd -> Io -> Io * (string + unit);
  socket_send : Fd -> Z -> list Z -> Io -> Io * option string;
  (** [readable] with a timeout in seconds, then [recv]. *)
  socket_wait : Fd -> Z -> Io -> Io * SocketEvent;
  (** [getrandom::fill] and the clock in milliseconds. *)
  io_random : nat -> Io -> Io * (string + list Z);
  io_now : Io -> Io * Z;
}.

(** Authentication of a wired port. *)
Inductive WiredAuth := AuthEap (eap : EapConfig) | AuthMacsec (config : MacsecConfig.t).

Section WithIo.
Context `{WiredIo}.

Abbreviation io := (st Io WifiError.t).

Definition io_error (e : string) : WifiError.t := WifiError.new WifiError.Io e.
Definition iface_error (e : string) : WifiError.t := WifiError.new WifiError.InterfaceNotFound e.

Definition io_ask {A} (op : Io -> Io * (string + A)) (err : string -> WifiError.t) : io A :=
  fun w => let '(w', r) := op w in (w', match r with inl e => Err (err e) | inr a => Ok a end).

(** ** Files *)

(** [u32::from_str]: decimal digits, with an optional plus sign. *)
Fixpoint u32_digits (result : Z) (l : list Z) : string + Z :=
  match l with
  | [] => inr result
  | c :: l =>
      match to_digit 10 c with
      | None => inl ERR_DIGIT
      | Some d =>
          if 2 ^ 32 - 1 <? result * 10 + d then inl ERR_OVERFLOW else u32_digits (result * 10 + d) l
      end
  end.

Definition u32_from_str (l : list Z) : string + Z :=
  match l with
  | [] => inl ERR_EMPTY
  | [43] | [45] => inl ERR_DIGIT
  | 43 :: l => u32_digits 0 l
  | _ => u32_digits 0 l
  end.

Definition sysfs_path (iface file : string) : string := "/sys/class/net/" +:+ iface +:+ "/" +:+ file.

Definition read_sysfs_u32 (iface file : string) : io Z :=
  let path := sysfs_path iface file in
  value ← io_ask (read_text path) (fun e => iface_error ("read " +:+ path +:+ ": " +:+ e));
  match u32_from_str (trim (as_bytes value)) with
  | inr x => mret x
  | inl e => throw (iface_error ("parse " +:+ path +:+ ": " +:+ e))
  end.

(** The loop over the parts of a hardware address; their length is not checked. *)
Fixpoint sysfs_octets (path : string) (parts : list (list Z)) : outcome WifiError.t (list Z) :=
  match parts with
  | [] => Ok []
  | part :: parts =>
      match u8_from_str_radix 16 part with
      | inl e => Err (iface_error ("invalid MAC octet " +:+ debug_text (of_bytes part) +:+ " in " +:+ path
                                   +:+ ": " +:+ e))
      | inr x => rest ← sysfs_octets path parts; Ok (x :: rest)
      end
  end.

Definition read_sysfs_mac (iface : string) : io (list Z) :=
  let path := sysfs_path iface "address" in
  value ← io_ask (read_text path) (fun e => iface_error ("read " +:+ path +:+ ": " +:+ e));
  let parts := split 58 (trim (as_bytes value)) in
  if negb (length parts =? 6)%nat then
    throw (iface_error ("invalid MAC in " +:+ path +:+ ": " +:+ debug_text value))
  else lift (sysfs_octets path parts).

(** ** Frames *)

Definition open_eapol_socket (iface : string) : io (Fd * Z * list Z) :=
  if_index ← read_sysfs_u32 iface "ifindex";
  mac ← read_sysfs_mac iface;
  fd ← io_ask (socket_open if_index) io_error;
  mret (fd, if_index, mac).

(** The Ethernet frame of [send_eapol_frame]. *)
Definition eapol_ethernet (src_mac payload : list Z) : list Z :=
  PAE_GROUP_ADDR ++ src_mac ++ to_be 2 ETH_P_PAE ++ payload.

Definition send_eapol_frame (fd : Fd) (if_index : Z) (src_mac payload : list Z) : io unit := fun w =>
  match socket_send fd if_index (eapol_ethernet src_mac payload) w with
  | (w', None) => (w', Ok tt)
  | (w', Some e) => (w', Err (io_error e))
  end.

(** [recv_eapol_frame_full]: what was received into 4096 octets. *)
Definition recv_eapol_frame_full (received : list Z) : option EapolFrame.t :=
  let buf := take 4096 received in
  if (length buf <? 14)%nat then None
  else if negb (from_be (take 2 (drop 12 buf)) =? ETH_P_PAE) then None
  else Some (EapolFrame.mk (take 6 (drop 6 buf)) (take 6 buf) (drop 14 buf)).

(** [recv_eapol_frame]: nothing for another frame. *)
Definition recv_eapol_frame (received : list Z) : list Z :=
  match recv_eapol_frame_full received with Some f => EapolFrame.payload f | None => [] end.

(** ** The EAP client *)

Section Client.
Context {M : Type} `{EapMethod M}.

Record EapClient := mkEapClient {
  ec_fd : Fd;
  ec_if_index : Z;
  ec_mac : list Z;
  ec_peer : EapPeer.t M;
  ec_state : EapState;
}.

Definition put_peer (p : EapPeer.t M) (c : EapClient) : EapClient :=
  mkEapClient (ec_fd c) (ec_if_index c) (ec_mac c) p (ec_state c).
Definition put_state (s : EapState) (c : EapClient) : EapClient :=
  mkEapClient (ec_fd c) (ec_if_index c) (ec_mac c) (ec_peer c) s.

(** [EapClient::init]; the method is made from the credentials. *)
Definition eap_client_init (iface : string) (eap : EapConfig) (make_method : EapConfig -> io M) : io EapClient :=
  '(fd, if_index, mac) ← open_eapol_socket iface;
  io_ask (socket_clone fd) io_error;;
  io_ask (socket_register fd) (fun e => io_error ("EAPOL socket: " +:+ e));;
  method ← make_method eap;
  mret (mkEapClient fd if_index mac
          (EapPeer.set_method (EapPeer.new (as_bytes (eap_identity eap))) method) EapInit).

(** A method of the client: it and the world change. *)
Abbreviation client_method := (st (EapClient * Io) WifiError.t).

Definition on_io {A} (f : io A) : client_method A := fun s =>
  let '(w, r) := f s.2 in ((s.1, w), r).

Definition change (f : EapClient -> EapClient) : client_method unit := fun s => ((f s.1, s.2), Ok tt).

(** The action of the peer. *)
Definition do_action (a : EapAction) : client_method unit :=
  s ← get;
  let c := fst s in
  match a with
  | Respond response =>
      on_io (send_eapol_frame (ec_fd c) (ec_if_index c) (ec_mac c) (EapolEapFrame.build response))
  | Success =>
      match EapPeer.peer_msk (ec_peer c) with
      | None => lift (handshake_failed "EAP-Success without an MSK")
      | Some _ => change (put_state EapConnected)
      end
  | Failure => change (put_state EapFailed)
  | Wait => mret tt
  end.

Definition handle_eapol (frame : list Z) : client_method unit :=
  payload ← lift (EapolEapFrame.parse frame);
  match payload with
  | None => mret tt
  | Some eap =>
      packet ← lift (EapPacket.parse eap);
      match packet with
      | None => mret tt
      | Some packet =>
          s ← get;
          let '(peer, action) := EapPeer.handle_packet (ec_peer (fst s)) packet in
          change (put_peer peer);;
          action ← lift action;
          do_action action
      end
  end.

(** The loop that waits for a frame; the socket decides how often it would block. *)
Fixpoint wait_frame (fuel : nat) (fd : Fd) : io (option (list Z)) := fun w =>
  match fuel with
  | O => (w, Diverge)
  | S fuel =>
      match socket_wait fd AUTH_EVENT_TIMEOUT_SECS w with
      | (w', TimedOut) => (w', Ok None)
      | (w', NotReadable e) => (w', Err (io_error ("EAPOL socket: " +:+ e)))
      | (w', WouldBlock) => wait_frame fuel fd w'
      | (w', RecvError e) => (w', Err (io_error e))
      | (w', Bytes l) => (w', Ok (Some (recv_eapol_frame l)))
      end
  end.

(** [EapClient::run]. *)
Definition eap_client_run (fuel : nat) : client_method EapState :=
  s ← get;
  let c := fst s in
  match ec_state c with
  | EapInit =>
      on_io (send_eapol_frame (ec_fd c) (ec_if_index c) (ec_mac c) EAPOL_START);;
      change (put_state EapAuthenticating);;
      mret EapAuthenticating
  | EapAuthenticating =>
      frame ← on_io (wait_frame fuel (ec_fd c));
      match frame with
      | None => change (put_state EapFailed);; mret EapFailed
      | Some frame => handle_eapol frame;; s ← get; mret (ec_state (fst s))
      end
  | EapConnected => mret EapConnected
  | EapFailed => mret EapFailed
  end.

(** ** [WiredClient] *)

Context `{MkaCryptoLib} `{SecyOps}.

Inductive Mode := EapMode (c : EapClient) | MacsecMode (s : MkaSession.t).

Record WiredClient := mkWiredClient { wc_mode : Mode; wc_state : WiredState }.

(** [MkaSession::new]: the checks, the socket, the keys, and a random member identifier. *)
Definition session_open (iface : string) (config : MacsecConfig.t) : io MkaSession.t :=
  lift (MacsecConfig.validate config);;
  '(fd, _, mac) ← open_eapol_socket iface;
  io_ask (socket_clone fd) (fun e => mka_err ("EAPOL socket: " +:+ e));;
  io_ask (socket_register fd) (fun e => mka_err ("EAPOL socket: " +:+ e));;
  _ ← lift (derive_kek (MacsecConfig.cak config) (MacsecConfig.ckn config));
  _ ← lift (derive_ick (MacsecConfig.cak config) (MacsecConfig.ckn config));
  mi ← io_ask (io_random MI_LEN) (fun e => mka_err ("random MI: " +:+ e));
  now ← (fun w => let '(w', t) := io_now w in (w', Ok t));
  lift (MkaSession.new config mac mi now).

(** [WiredClient::init_with_auth]. *)
Definition init_with_auth (iface : string) (auth : WiredAuth) (make_method : EapConfig -> io M) : io WiredClient :=
  mode ← match auth with
         | AuthEap eap => c ← eap_client_init iface eap make_method; mret (EapMode c)
         | AuthMacsec config => s ← session_open iface config; mret (MacsecMode s)
         end;
  mret (mkWiredClient mode Init).

Definition from_eap (s : EapState) : WiredState :=
  match s with
  | EapInit => Init
  | EapAuthenticating => Authenticating
  | EapConnected => Connected
  | EapFailed => Failed
  end.

(** [WiredClient::run]; [i] is what a turn of the session reads from outside. *)
Definition wired_run (fuel : nat) (i : MkaSession.RunInputs) : st (WiredClient * Io) WifiError.t WiredState :=
  fun s =>
  let '(c, w) := s in
  match wc_mode c with
  | EapMode ec =>
      let '((ec', w'), r) := eap_client_run fuel (ec, w) in
      match r with
      | Ok x => ((mkWiredClient (EapMode ec') (from_eap x), w'), Ok (from_eap x))
      | Err e => ((mkWiredClient (EapMode ec') (wc_state c), w'), Err e)
      | Panic => ((mkWiredClient (EapMode ec') (wc_state c), w'), Panic)
      | Diverge => ((mkWiredClient (EapMode ec') (wc_state c), w'), Diverge)
      end
  | MacsecMode session =>
      let '(session', r) := MkaSession.run i session in
      match r with
      | Ok secured =>
          let state := if secured then Connected else Securing in
          ((mkWiredClient (MacsecMode session') state, w), Ok state)
      | Err e => ((mkWiredClient (MacsecMode session') (wc_state c), w), Err e)
      | Panic => ((mkWiredClient (MacsecMode session') (wc_state c), w), Panic)
      | Diverge => ((mkWiredClient (MacsecMode session') (wc_state c), w), Diverge)
      end
  end.

(** [WiredClient::shutdown]. *)
Definition wired_shutdown (removed : outcome WifiError.t unit) (c : WiredClient) : WiredClient * outcome WifiError.t unit :=
  match wc_mode c with
  | EapMode _ => (c, Ok tt)
  | MacsecMode session =>
      let '(session', r) := MkaSession.shutdown removed session in
      (mkWiredClient (MacsecMode session') (wc_state c), r)
  end.

End Client.
End WithIo.

Arguments EapClient {_} M.
Arguments WiredClient {_} M {_}.

(** ** Facts *)

Module WiredFacts.

Section Facts.
Context {wio : WiredIo} {M : Type} {em : EapMethod M}.

(** The method has seen the protected end of the exchange and has a key. *)
Definition authenticated (p : EapPeer.t M) : Prop :=
  exists m key, EapPeer.method p = Some m /\ success_indication_received m = true /\ msk m = Some key.

Definition authentic (c : EapClient M) : Prop :=
  is_Some (EapPeer.method (ec_peer c)) /\ (ec_state c = EapConnected -> authenticated (ec_peer c)).

(** [EapPeer] keeps its method, and says [Success] only after the protected indication. *)
Lemma handle_packet_method p packet p' r :
  is_Some (EapPeer.method p) -> EapPeer.handle_packet p packet = (p', r) ->
  is_Some (EapPeer.method p')
  /\ (r = Ok Success -> p' = p /\ exists m, EapPeer.method p = Some m /\ success_indication_received m = true).
Proof.
  intros Hsome. pose proof Hsome as [m Hm]. unfold EapPeer.handle_packet. rewrite Hm.
  destruct (_ || _).
  { destruct (match EapPeer.last_request p with Some _ => _ | None => _ end); [by intros [= <- <-]|].
    destruct (EapPacket.is_success packet); [|by intros [= <- <-]].
    destruct (success_indication_received m) eqn:Hs; intros [= <- <-]; split; eauto; by intros [=]. }
  destruct (negb _); [by intros [= <- <-]|].
  assert (forall q o, EapPeer.answer p packet o = q -> is_Some (EapPeer.method q.1)) as Ha.
  { intros q o <-. unfold EapPeer.answer. rewrite Hm. repeat (case_match; try done). }
  assert (forall q, match EapPacket.type_ packet with
    | None => (p, handshake_failed "EAP Request without a Type")
    | Some type_ =>
        match EapPeer.answer p packet type_ with
        | (p', Ok (Some response)) => (EapPeer.remember p' packet response, Ok (Respond response))
        | (p', Ok None) => (p', Ok Wait)
        | (p', Err e) => (p', Err e)
        | (p', Panic) => (p', Panic)
        | (p', Diverge) => (p', Diverge)
        end
    end = q -> is_Some (EapPeer.method q.1) /\ q.2 <> Ok Success) as Hq.
  { intros q <-. destruct (EapPacket.type_ packet) as [ty|]; [|by split].
    pose proof (Ha _ ty eq_refl) as Hp. destruct (EapPeer.answer p packet ty) as [q [[resp|]|e| |]]; by split. }
  destruct (bool_decide _), (EapPeer.last_response p) as [resp|]; intros Hr;
    try (destruct (Hq _ Hr) as [Hp Hn]; split; [exact Hp|intros Hok; by destruct Hn]).
  injection Hr as <- <-. by split.
Qed.

Lemma do_action_authentic a c w c' w' r :
  authentic c -> (a = Success -> exists m, EapPeer.method (ec_peer c) = Some m /\ success_indication_received m = true) ->
  do_action a (c, w) = ((c', w'), r) -> authentic c'.
Proof.
  intros [Hs Ha] Hok. unfold do_action, mbind, st_bind, get. cbn [fst].
  destruct a as [response| | |]; unfold on_io, change, lift; cbn [fst snd].
  - destruct (send_eapol_frame _ _ _ _ w) as [w1 r1]. intros [= <- <- <-]. by split.
  - destruct (EapPeer.peer_msk (ec_peer c)) as [key|] eqn:Hk; intros [= <- <- <-]; [|by split].
    split; [done|]. intros _. destruct (Hok eq_refl) as (m & Hm & Hi). exists m, key. split; [done|]. split; [done|].
    unfold EapPeer.peer_msk in Hk. by rewrite Hm in Hk.
  - intros [= <- <- <-]. split; [done|]. by intros [=].
  - intros [= <- <- <-]. by split.
Qed.

Lemma handle_eapol_authentic frame c w c' w' r :
  authentic c -> ec_state c <> EapConnected -> handle_eapol frame (c, w) = ((c', w'), r) -> authentic c'.
Proof.
  intros Hc Hst. unfold handle_eapol, mbind at 1, st_bind, lift.
  destruct (EapolEapFrame.parse frame) as [[eap|]|e| |]; try (by intros [= <- <- <-]).
  unfold mbind at 1, st_bind. destruct (EapPacket.parse eap) as [[packet|]|e| |]; try (by intros [= <- <- <-]).
  unfold mbind at 1, st_bind, get. cbn [fst]. destruct Hc as [Hsome Hauth].
  destruct (EapPeer.handle_packet (ec_peer c) packet) as [peer action] eqn:Hp.
  destruct (handle_packet_method _ _ _ _ Hsome Hp) as [Hsome' Hsucc].
  unfold mbind at 1, st_bind, change. cbn [fst snd].
  assert (authentic (put_peer peer c)) as Hc' by (split; [done|by intros ?]).
  unfold mbind at 1, st_bind. destruct action as [a|e| |]; try (by intros [= <- <- <-]).
  apply do_action_authentic; [done|]. intros ->. destruct (Hsucc eq_refl) as (-> & m & Hm & Hi). by exists m.
Qed.

Lemma eap_client_run_authentic fuel c w c' w' r :
  authentic c -> eap_client_run fuel (c, w) = ((c', w'), r) -> authentic c'.
Proof.
  intros Hc. unfold eap_client_run, mbind at 1, st_bind, get. cbn [fst].
  destruct (ec_state c) eqn:Hst; try (by intros [= <- <- <-]).
  - unfold mbind, st_bind, on_io, change, mret, st_ret. cbn [fst snd].
    destruct (send_eapol_frame _ _ _ _ w) as [w1 [[]|e| |]]; intros [= <- <- <-]; try done.
    destruct Hc as [? _]. split; [done|]. by intros [=].
  - unfold mbind at 1, st_bind, on_io. cbn [fst snd].
    destruct (wait_frame fuel (ec_fd c) w) as [w1 [[frame|]|e| |]]; try (by intros [= <- <- <-]).
    + unfold mbind, st_bind. destruct (handle_eapol frame (c, w1)) as [[c2 w2] r2] eqn:Hh.
      assert (authentic c2) by (eapply handle_eapol_authentic; [exact Hc|by rewrite Hst|exact Hh]).
      destruct r2 as [[]|e| |]; by intros [= <- <- <-].
    + intros [= <- <- <-]. destruct Hc as [? _]. split; [done|]. by intros [=].
Qed.

(** A number of calls of [run], whatever they return. *)
Fixpoint runs (fuels : list nat) (c : EapClient M) (w : Io) : EapClient M * Io :=
  match fuels with
  | [] => (c, w)
  | fuel :: fuels => let '((c', w'), _) := eap_client_run fuel (c, w) in runs fuels c' w'
  end.

(** A wired port is authorised only by the authentication server: from the client that
    [init] makes, whatever frames arrive and whatever fails, the client is connected only
    when its EAP method has received the protected success indication and has derived a
    key.  An EAP-Success frame alone, which anyone on the wire can send, does not do it. *)
Theorem wired_port_authenticated fd if_index mac identity method fuels w c' w' :
  runs fuels (mkEapClient fd if_index mac (EapPeer.set_method (EapPeer.new identity) method) EapInit) w = (c', w') ->
  ec_state c' = EapConnected ->
  exists m key, EapPeer.method (ec_peer c') = Some m /\ success_indication_received m = true /\ msk m = Some key.
Proof.
  intros Hr Hs. enough (authentic c') as [_ Ha] by exact (Ha Hs). revert Hr.
  assert (authentic (mkEapClient fd if_index mac (EapPeer.set_method (EapPeer.new identity) method) EapInit)) as Hc
    by (split; [by eexists|by intros [=]]).
  revert Hc. generalize (mkEapClient fd if_index mac (EapPeer.set_method (EapPeer.new identity) method) EapInit).
  intros c. revert c w. induction fuels as [|fuel fuels IH]; intros c w Hc; cbn [runs]; [by intros [= <- _]|].
  destruct (eap_client_run fuel (c, w)) as [[c1 w1] r] eqn:H1. intros Hr.
  eapply IH; [|exact Hr]. by eapply eap_client_run_authentic.
Qed.

End Facts.

(** A socket that delivers a list of frames, and a method that is done after one request. *)
Definition script_io : WiredIo := {|
  Io := list (list Z);
  debug_text := id;
  read_text := fun _ w => (w, inl "no file");
  Fd := unit;
  socket_open := fun _ w => (w, inr tt);
  socket_clone := fun _ w => (w, inr tt);
  socket_register := fun _ w => (w, inr tt);
  socket_send := fun _ _ _ w => (w, None);
  socket_wait := fun _ _ w => match w with [] => ([], TimedOut) | f :: w => (w, Bytes f) end;
  io_random := fun n w => (w, inr (replicate n 0));
  io_now := fun w => (w, 0);
|}.

Definition short_method : EapMethod bool := {|
  method_type := fun _ => TYPE_TLS;
  handle_request := fun _ _ b => (true, Ok b);
  msk := fun m => if m then Some (replicate 64 1) else None;
  success_indication_received := fun m => m;
|}.

(** An Ethernet frame with an EAP packet. *)
Definition frame_of (eap : list Z) : list Z :=
  replicate 6 3 ++ replicate 6 2 ++ to_be 2 ETH_P_PAE ++ EapolEapFrame.build eap.

(** An EAP-Success at once is ignored; after the method's exchange it connects the port. *)
Lemma wired_port_authenticated_witness :
  exists m key, EapPeer.method (ec_peer (fst (@runs script_io bool short_method [1; 1; 1; 1]%nat
      (@mkEapClient script_io bool tt 1 (replicate 6 2) (@EapPeer.set_method bool short_method (@EapPeer.new bool []) false) EapInit)
      [frame_of [3; 7; 0; 4]; frame_of [1; 7; 0; 6; 13; 9]; frame_of [3; 7; 0; 4]]))) = Some m
    /\ @success_indication_received bool short_method m = true /\ @msk bool short_method m = Some key.
Proof.
  destruct (@runs script_io bool short_method [1; 1; 1; 1]%nat
      (@mkEapClient script_io bool tt 1 (replicate 6 2) (@EapPeer.set_method bool short_method (@EapPeer.new bool []) false) EapInit)
      [frame_of [3; 7; 0; 4]; frame_of [1; 7; 0; 6; 13; 9]; frame_of [3; 7; 0; 4]]) as [c w] eqn:Hr.
  apply (@wired_port_authenticated script_io bool short_method tt 1 (replicate 6 2) [] false [1; 1; 1; 1]%nat _ c w Hr).
  apply (f_equal (fun x => ec_state (fst x))) in Hr. cbn [fst] in Hr. rewrite <- Hr. vm_compute. reflexivity.
Defined.

End WiredFacts.
