(* ===== verification/DaemonConfig.v ===== *)
(** * The configuration of the daemon

    [src/src/daemon/config.rs]: the entries of the configuration file with their defaults,
    the texts they are written in (hexadecimal keys, hardware addresses, prefixes), the
    checks made when the file is loaded, and the conversion into the configurations of the
    libraries ([WifiConfig], [MacsecConfig], [IpsecConfig]).

    Reading a file, parsing YAML and the escapes that [{:?}] writes for a text are outside
    the repository or depend on the Unicode tables: they are the operations of the class
    [Env].  [Module DaemonConfigFacts]: what the texts mean and what a conversion that
    succeeds has checked. *)

From S2P Require Import Prelude Errors Net IpText WifiConfig Mka.
From S2P Require Import TrafficSelector Identity IpsecConfig.

(** ** Entries *)

Inductive SaePweConfig := CfgAuto | CfgH2e | CfgHnp.

(** [SaePweConfig::to_lib]. *)
Definition sae_pwe_to_lib (s : SaePweConfig) : WifiConfig.SaePwe :=
  match s with
  | CfgAuto => WifiConfig.Auto
  | CfgH2e => WifiConfig.H2E
  | CfgHnp => WifiConfig.HnP
  end.

Module EapEntry.

Record t := mk {
  identity : string;
  ca_cert : option string;
  client_cert : option string;
  client_key : option string;
  server_name : option string;
}.

Definition to_lib (e : t) : WifiConfig.EapConfig :=
  WifiConfig.mkEapConfig (identity e) (ca_cert e) (client_cert e) (client_key e) (server_name e).

End EapEntry.

Record DnsConfig := mkDnsConfig { nameservers : list string; searches : list string }.

Record IpAddress := mkIpAddress { ip : string; prefix_length : Z }.

Record IpConfig := mkIpConfig { auto : bool; address : list IpAddress; gateway : option string }.

Module WifiEntry.

Record t := mk {
  ssid : string;
  password : option string;
  bssid : option (list Z);
  hidden : bool;
  prefered : bool;
  roaming : bool;
  roaming_threshold : Z;
  switch_ssid_lower_than_dbm : Z;
  wowlan : bool;
  eap : option EapEntry.t;
  sae_pwe : SaePweConfig;
  sae_password_id : option string;
  ocv : bool;
  ext_key_id : bool;
  interface : option string;
  dns : option DnsConfig;
  ipv4 : option IpConfig;
  ipv6 : option IpConfig;
}.

Definition default_roaming : bool := true.
Definition default_roam_threshold : Z := WifiConfig.DEFAULT_ROAM_THRESHOLD_DBM.
Definition default_roam_critical_threshold : Z := WifiConfig.DEFAULT_SWITCH_SSID_LOWER_THAN_DBM.

(** An entry whose file names the SSID only. *)
Definition defaults (ssid : string) : t :=
  mk ssid None None false false default_roaming default_roam_threshold
    default_roam_critical_threshold false None CfgAuto None false false None None None None.

End WifiEntry.

Module MacsecEntry.

Record t := mk {
  cak : string;
  ckn : string;
  key_server_priority : Z;
  can_be_key_server : bool;
  macsec_iface : option string;
  replay_window : Z;
  encrypt : bool;
}.

Definition default_mka_priority : Z := 255.

(** An entry whose file names the keys only. *)
Definition defaults (cak ckn : string) : t := mk cak ckn default_mka_priority false None 0 true.

End MacsecEntry.

Module EthernetEntry.

Record t := mk {
  name : string;
  eap : option EapEntry.t;
  macsec : option MacsecEntry.t;
  dns : option DnsConfig;
  ipv4 : option IpConfig;
  ipv6 : option IpConfig;
}.

End EthernetEntry.

Record IpsecLocalEntry := mkIpsecLocalEntry {
  le_address : option string;
  le_interface : option string;
  le_identity : option string;
  le_port : Z;
  le_nat_t : bool;
  le_request_inner_address : bool;
  le_request_dns : bool;
}.

Record IpsecRemoteEntry := mkIpsecRemoteEntry {
  re_address : option string;
  re_identity : option string;
  re_port : Z;
}.

Record IpsecSelectorPairEntry := mkIpsecSelectorPairEntry {
  se_local : list string;
  se_remote : list string;
}.

Record IpsecCertificateEntry := mkIpsecCertificateEntry {
  ce_ca_certificates : list string;
  ce_certificates : list string;
  ce_private_key : string;
}.

Record IpsecAuthEntry := mkIpsecAuthEntry {
  ae_psk : option string;
  ae_certificate : option IpsecCertificateEntry;
  ae_eap_tls : option EapEntry.t;
}.

Record IpsecPeerEntry := mkIpsecPeerEntry {
  pe_remote : IpsecRemoteEntry;
  pe_selectors : IpsecSelectorPairEntry;
  pe_auth : IpsecAuthEntry;
}.

Record IpsecXfrmEntry := mkIpsecXfrmEntry {
  xe_interface : option string;
  xe_underlay_interface : option string;
  xe_if_id : option Z;
  xe_reqid : option Z;
  xe_priority : Z;
  xe_mark : option Z;
  xe_mark_mask : Z;
}.

Definition default_ipsec_topology : string := "point-to-point".
Definition default_ipsec_child_mode : string := "tunnel".
Definition default_ipsec_child_lifetime : Z := 3600.
Definition default_ipsec_port : Z := 500.
Definition default_ipsec_priority : Z := 1000.
Definition default_dpd_interval : Z := 30.
Definition default_dpd_timeout : Z := 10.
Definition default_dpd_retries : Z := 3.

Definition IpsecXfrmEntry_default : IpsecXfrmEntry :=
  mkIpsecXfrmEntry None None None None default_ipsec_priority None 0.

Record IpsecDpdEntry := mkIpsecDpdEntry {
  de_enabled : bool;
  de_interval : Z;
  de_timeout : Z;
  de_retries : Z;
}.

Definition IpsecDpdEntry_default : IpsecDpdEntry :=
  mkIpsecDpdEntry true default_dpd_interval default_dpd_timeout default_dpd_retries.

Module IpsecEntry.

Record t := mk {
  name : string;
  topology : string;
  local : IpsecLocalEntry;
  peers : list IpsecPeerEntry;
  child_mode : string;
  child_lifetime : Z;
  xfrm : IpsecXfrmEntry;
  dpd : IpsecDpdEntry;
}.

End IpsecEntry.

Module ShuliConfig.

Record t := mk {
  version : Z;
  wifis : list WifiEntry.t;
  ethernets : list EthernetEntry.t;
  ipsecs : list IpsecEntry.t;
}.

End ShuliConfig.

(** ** The surroundings *)

Class Env := {
  (** [format!({:?})] of a text. *)
  debug_str : string -> string;
  (** [fs::read]: the octets of a file, or the error as it prints. *)
  fs_read : string -> string + list Z;
  (** [Path::exists] and [fs::read_to_string]. *)
  path_exists : string -> bool;
  read_to_string : string -> string + string;
  (** [rmsd_yaml::from_str]. *)
  yaml_from_str : string -> string + ShuliConfig.t;
}.

(** ** Errors *)

Definition ipsec_config_error (message : string) : WifiError.t :=
  WifiError.new WifiError.InvalidConfig message.

(** [impl Display for IpsecErrorKind] and [impl Display for IpsecError]. *)
Definition ipsec_kind_str (k : IpsecError.IpsecErrorKind) : string :=
  match k with
  | IpsecError.Config => "config"
  | IpsecError.Io => "io"
  | IpsecError.Netlink => "netlink"
  | IpsecError.NetlinkDecode => "netlink-decode"
  | IpsecError.Xfrm => "xfrm"
  | IpsecError.Ike => "ike"
  | IpsecError.Authentication => "authentication"
  | IpsecError.Proposal => "proposal"
  | IpsecError.Identity => "identity"
  | IpsecError.Certificate => "certificate"
  | IpsecError.Eap => "eap"
  | IpsecError.Timeout => "timeout"
  | IpsecError.PeerNotFound => "peer-not-found"
  | IpsecError.NoSupport => "no-support"
  | IpsecError.Internal => "internal"
  end.

Definition ipsec_error_string (e : IpsecError.t) : string :=
  ipsec_kind_str (IpsecError.kind e) +:+ ": " +:+ IpsecError.msg e
  +:+ (match IpsecError.connection e with Some c => " [connection " +:+ c +:+ "]" | None => "" end)
  +:+ (match IpsecError.peer e with Some a => " [peer " +:+ ip_string a +:+ "]" | None => "" end).

Definition ipsec_error (error : IpsecError.t) : WifiError.t :=
  WifiError.new WifiError.InvalidConfig (ipsec_error_string error).

(** [impl Display for AddrParseError]. *)
Definition ADDR_PARSE_ERROR : string := "invalid IP address syntax".

(** [Result] of a text error as an outcome. *)
Definition ok_or_text {A} (f : string -> WifiError.t) (r : string + A) : outcome WifiError.t A :=
  match r with inl e => Err (f e) | inr x => Ok x end.

(** [for x in l { f(x)?; }]. *)
Fixpoint try_each {A E} (f : A -> outcome E unit) (l : list A) : outcome E unit :=
  match l with
  | [] => Ok tt
  | x :: l => _ ← f x; try_each f l
  end.

(** ** Texts *)

(** [u8::is_ascii_whitespace]. *)
Definition is_ascii_whitespace (c : Z) : bool :=
  (c =? 32) || (c =? 9) || (c =? 10) || (c =? 12) || (c =? 13).

(** [chunks_exact(2)]. *)
Fixpoint pairs (l : list Z) : list (list Z) :=
  match l with a :: b :: l => [a; b] :: pairs l | _ => [] end.

Definition parse_hex (field value : string) : outcome WifiError.t (list Z) :=
  let digits := List.filter (fun c => negb (is_ascii_whitespace c) && negb (c =? 58)) (as_bytes value) in
  if negb (Nat.even (length digits)) then
    Err (WifiError.new WifiError.InvalidConfig (field +:+ " must contain an even number of hex digits"))
  else if negb (forallb is_ascii_hexdigit digits) then
    Err (WifiError.new WifiError.InvalidConfig ("invalid hex in " +:+ field))
  else
    collect (fun pair => ok_or_text
               (fun e => WifiError.new WifiError.InvalidConfig ("invalid hex in " +:+ field +:+ ": " +:+ e))
               (u8_from_str_radix 16 pair))
      (pairs digits).

(** [MacsecEntry::to_lib]. *)
Definition macsec_to_lib (e : MacsecEntry.t) : outcome WifiError.t Mka.MacsecConfig.t :=
  cak ← parse_hex "macsec.cak" (MacsecEntry.cak e);
  ckn ← parse_hex "macsec.ckn" (MacsecEntry.ckn e);
  let config := Mka.MacsecConfig.mk cak ckn (MacsecEntry.key_server_priority e)
                  (MacsecEntry.can_be_key_server e) (MacsecEntry.macsec_iface e)
                  (MacsecEntry.replay_window e) (MacsecEntry.encrypt e) in
  _ ← Mka.MacsecConfig.validate config;
  Ok config.

Section WithEnv.
Context {env : Env}.

(** The loop of [parse_mac] over the parts. *)
Fixpoint parse_octets (value : string) (parts : list (list Z)) : string + list Z :=
  match parts with
  | [] => inr []
  | part :: parts =>
      if negb (length part =? 2)%nat then
        inl ("invalid BSSID octet " +:+ debug_str (of_bytes part) +:+ " in " +:+ debug_str value
             +:+ ": expected exactly two hex digits")
      else
        match u8_from_str_radix 16 part with
        | inl e => inl ("invalid BSSID octet " +:+ debug_str (of_bytes part) +:+ ": " +:+ e)
        | inr x =>
            match parse_octets value parts with
            | inl e => inl e
            | inr mac => inr (x :: mac)
            end
        end
  end.

Definition parse_mac (value : string) : string + list Z :=
  let parts := split 58 (trim (as_bytes value)) in
  if negb (length parts =? 6)%nat then
    inl ("invalid BSSID " +:+ debug_str value +:+ ": expected six colon-separated octets")
  else parse_octets value parts.

(** [deserialize_bssid], after the optional text was read. *)
Definition deserialize_bssid (value : option string) : string + option (list Z) :=
  match value with
  | None => inr None
  | Some value => match parse_mac value with inl e => inl e | inr mac => inr (Some mac) end
  end.

Definition parse_topology (value : string) : outcome WifiError.t Topology :=
  if bool_decide (value = "point-to-point") then Ok PointToPoint
  else if bool_decide (value = "ad-hoc") then Ok AdHoc
  else if bool_decide (value = "site-to-site") then Ok SiteToSite
  else Err (ipsec_config_error ("invalid ipsec topology " +:+ debug_str value)).

Definition parse_child_lifetime (value : Z) : outcome WifiError.t Z :=
  if value =? 0 then Err (ipsec_config_error "ipsec child_lifetime must be greater than zero")
  else Ok value.

Definition parse_optional_ip (field : string) (value : option string)
  : outcome WifiError.t (option IpAddr) :=
  match value with
  | None => Ok None
  | Some value =>
      match parse_ip value with
      | Some a => Ok (Some a)
      | None => Err (ipsec_config_error ("invalid " +:+ field +:+ " " +:+ debug_str value
                                         +:+ ": " +:+ ADDR_PARSE_ERROR))
      end
  end.

Definition parse_selector (value : string) : outcome WifiError.t TrafficSelector.t :=
  let value := trim (as_bytes value) in
  let invalid e := ipsec_config_error ("invalid selector " +:+ debug_str (of_bytes value) +:+ ": " +:+ e) in
  let parse_address text :=
    match parse_ip (of_bytes text) with Some a => Ok a | None => Err (invalid ADDR_PARSE_ERROR) end in
  '(address, prefix) ←
    match split_once 47 value with
    | Some (address, prefix) =>
        address ← parse_address address;
        prefix ← ok_or_text invalid (u8_from_str_radix 10 prefix);
        Ok (address, prefix)
    | None =>
        address ← parse_address value;
        Ok (address, if is_ipv4 address then 32 else 128)
    end;
  network ← map_err ipsec_error (IpNet.new (ip_string address) address prefix);
  map_err ipsec_error (TrafficSelector.net network).

(** ** Connections *)

(** [IpsecEntry::local_ip] and [child_mode]. *)
Definition local_ip (e : IpsecEntry.t) : outcome WifiError.t (option IpAddr) :=
  parse_optional_ip "ipsec.local.address" (le_address (IpsecEntry.local e)).

Definition entry_child_mode (e : IpsecEntry.t) : outcome WifiError.t ChildMode :=
  let mode := IpsecEntry.child_mode e in
  if bool_decide (mode = "tunnel") then Ok Tunnel
  else if bool_decide (mode = "transport") then Ok Transport
  else Err (ipsec_config_error ("ipsec " +:+ IpsecEntry.name e +:+ ": invalid child mode " +:+ debug_str mode)).

(** [IpsecPeerEntry::remote_ip] and [selector_pair]. *)
Definition remote_ip (p : IpsecPeerEntry) : outcome WifiError.t (option IpAddr) :=
  parse_optional_ip "ipsec.remote.address" (re_address (pe_remote p)).

Definition selector_pair (p : IpsecPeerEntry) : outcome WifiError.t TrafficSelectorPair.t :=
  local ← collect parse_selector (se_local (pe_selectors p));
  remote ← collect parse_selector (se_remote (pe_selectors p));
  match local, remote with
  | [], _ | _, [] => Err (ipsec_config_error "ipsec peer requires local and remote selectors")
  | _, _ => Ok (TrafficSelectorPair.new local remote)
  end.

(** [IpsecAuthEntry::validate]. *)
Definition auth_entry_validate (a : IpsecAuthEntry) : outcome WifiError.t unit :=
  let one {A} (o : option A) : nat := match o with Some _ => 1%nat | None => 0%nat end in
  let count := (one (ae_psk a) + one (ae_certificate a) + one (ae_eap_tls a))%nat in
  if negb (count =? 1)%nat then
    Err (ipsec_config_error "ipsec auth must specify exactly one of psk, certificate, or eap_tls")
  else if bool_decide (ae_psk a = Some "") then
    Err (ipsec_config_error "ipsec psk must not be empty")
  else match ae_eap_tls a with
       | Some eap =>
           if bool_decide (EapEntry.identity eap = "")
           then Err (ipsec_config_error "ipsec eap_tls identity is required") else Ok tt
       | None => Ok tt
       end.

(** The closure [read] of [IpsecAuthEntry::to_lib]. *)
Definition read_pem (path : string) : outcome WifiError.t (list Z) :=
  ok_or_text (fun e => ipsec_config_error ("read " +:+ path +:+ ": " +:+ e)) (fs_read path).

(** [IpsecAuthEntry::to_lib]. *)
Definition auth_entry_to_lib (a : IpsecAuthEntry) : outcome WifiError.t AuthConfig :=
  _ ← auth_entry_validate a;
  match ae_psk a with
  | Some psk => Ok (Psk (as_bytes psk))
  | None =>
      match ae_eap_tls a with
      | Some eap =>
          Ok (EapTls (mkEapTlsConfig (EapEntry.identity eap) (EapEntry.ca_cert eap)
                        (EapEntry.client_cert eap) (EapEntry.client_key eap) (EapEntry.server_name eap)))
      | None =>
          match ae_certificate a with
          | None => Panic
          | Some certificate =>
              ca_certificates ← collect read_pem (ce_ca_certificates certificate);
              certificates ← collect read_pem (ce_certificates certificate);
              private_key ← read_pem (ce_private_key certificate);
              Ok (Certificate (mkCertificateConfig ca_certificates certificates private_key []))
          end
      end
  end.

(** [IpsecPeerEntry::to_lib]; the local address is not used. *)
Definition peer_to_lib (p : IpsecPeerEntry) : outcome WifiError.t PeerConfig :=
  remote_ip ← remote_ip p;
  remote_identity ←
    match re_identity (pe_remote p) with
    | Some identity => map_err ipsec_error (from_str identity)
    | None => Ok (match remote_ip with Some a => Identity.Ip a | None => Identity.Any end)
    end;
  selectors ← selector_pair p;
  auth ← auth_entry_to_lib (pe_auth p);
  Ok (mkPeerConfig (mkRemoteConfig remote_ip remote_identity (re_port (pe_remote p))) selectors auth).

(** The loop of [validate_entry] over the peers. *)
Definition peer_validate (p : IpsecPeerEntry) : outcome WifiError.t unit :=
  _ ← remote_ip p;
  _ ← auth_entry_validate (pe_auth p);
  _ ← selector_pair p;
  Ok tt.

Definition validate_entry (e : IpsecEntry.t) : outcome WifiError.t unit :=
  if blank (as_bytes (IpsecEntry.name e)) then Err (ipsec_config_error "ipsec name is required") else
  if (length (IpsecEntry.peers e) =? 0)%nat then
    Err (ipsec_config_error ("ipsec " +:+ IpsecEntry.name e +:+ ": at least one peer is required")) else
  topology ← parse_topology (IpsecEntry.topology e);
  if bool_decide (topology = PointToPoint) && negb (length (IpsecEntry.peers e) =? 1)%nat then
    Err (ipsec_config_error ("ipsec " +:+ IpsecEntry.name e +:+ ": point-to-point requires exactly one peer"))
  else
    _ ← local_ip e;
    _ ← entry_child_mode e;
    _ ← parse_child_lifetime (IpsecEntry.child_lifetime e);
    try_each peer_validate (IpsecEntry.peers e).

(** [IpsecEntry::to_lib]. *)
Definition ipsec_to_lib (e : IpsecEntry.t) : outcome WifiError.t IpsecConfig.t :=
  _ ← validate_entry e;
  local_ip ← local_ip e;
  local_identity ←
    match le_identity (IpsecEntry.local e) with
    | Some identity => map_err ipsec_error (from_str identity)
    | None => Ok (match local_ip with Some a => Identity.Ip a | None => Identity.Fqdn "localhost" end)
    end;
  peers ← collect peer_to_lib (IpsecEntry.peers e);
  topology ← parse_topology (IpsecEntry.topology e);
  child_mode ← entry_child_mode e;
  let l := IpsecEntry.local e in
  let x := IpsecEntry.xfrm e in
  let d := IpsecEntry.dpd e in
  let config :=
    IpsecConfig.mk (IpsecEntry.name e) topology
      (mkLocalConfig local_ip (le_interface l) local_identity (le_port l) (le_nat_t l)
         (le_request_inner_address l) (le_request_dns l))
      peers IkeConfig_default
      (mkChildConfig (child_proposals ChildConfig_default) child_mode (IpsecEntry.child_lifetime e)
         (replay_window ChildConfig_default))
      (mkXfrmConfig (xe_interface x) (xe_if_id x) (xe_reqid x) (xe_priority x) (xe_mark x)
         (xe_mark_mask x) (xe_underlay_interface x) false)
      RekeyConfig_default
      (mkDpdConfig (de_interval d) (de_timeout d) (de_retries d) (de_enabled d)) in
  _ ← map_err ipsec_error (IpsecConfig.validate config);
  Ok config.

(** ** The file *)

(** The loop of [ShuliConfig::validate] over the wired ports. *)
Definition ethernet_validate (e : EthernetEntry.t) : outcome WifiError.t unit :=
  match EthernetEntry.eap e, EthernetEntry.macsec e with
  | Some _, Some _ =>
      Err (WifiError.new WifiError.InvalidConfig
             ("ethernet " +:+ EthernetEntry.name e +:+ ": 'eap' and 'macsec' are mutually exclusive"))
  | None, None =>
      Err (WifiError.new WifiError.InvalidConfig
             ("ethernet " +:+ EthernetEntry.name e +:+ ": 'eap' or 'macsec' is required"))
  | None, Some macsec => _ ← macsec_to_lib macsec; Ok tt
  | Some _, None => Ok tt
  end.

Definition config_validate (c : ShuliConfig.t) : outcome WifiError.t unit :=
  _ ← try_each validate_entry (ShuliConfig.ipsecs c);
  try_each ethernet_validate (ShuliConfig.ethernets c).

(** [ShuliConfig::load]. *)
Definition load (path : string) : outcome WifiError.t ShuliConfig.t :=
  if negb (path_exists path) then Err (WifiError.new WifiError.ConfigNotFound path) else
  content ← ok_or_text (WifiError.new WifiError.Io) (read_to_string path);
  config ← ok_or_text (WifiError.new WifiError.InvalidConfig) (yaml_from_str content);
  _ ← config_validate config;
  Ok config.

Definition ipsec_configs (c : ShuliConfig.t) : outcome WifiError.t (list IpsecConfig.t) :=
  collect ipsec_to_lib (ShuliConfig.ipsecs c).

End WithEnv.

(** The network of one entry, and [wifi_config_for_entries]. *)
Definition entry_network (e : WifiEntry.t) : NetworkConfig.t :=
  let network := NetworkConfig.new (WifiEntry.ssid e) in
  NetworkConfig.mk (NetworkConfig.ssid network)
    (match WifiEntry.password e with Some p => Some p | None => NetworkConfig.password network end)
    (WifiEntry.bssid e) (NetworkConfig.hints network) (WifiEntry.prefered e) (WifiEntry.roaming e)
    (WifiEntry.roaming_threshold e) (WifiEntry.switch_ssid_lower_than_dbm e) (WifiEntry.wowlan e)
    (WifiEntry.hidden e)
    (match WifiEntry.eap e with Some eap => Some (EapEntry.to_lib eap) | None => NetworkConfig.eap network end)
    (sae_pwe_to_lib (WifiEntry.sae_pwe e)) (WifiEntry.sae_password_id e) (WifiEntry.ocv e)
    (WifiEntry.ext_key_id e).

Definition wifi_config_for_entries (iface_name : string) (entries : list WifiEntry.t) : WifiConfig :=
  fold_left (fun config entry =>
               mkWifiConfig (WifiConfig.iface_name config) (networks config ++ [entry_network entry]))
    entries (WifiConfig_new iface_name).

(** ** Facts *)

Module DaemonConfigFacts.

Section Facts.
Context {env : Env}.

(** *** Texts *)

(** What [parse_mac] takes for an octet: two hexadecimal digits, or a plus sign and one. *)
Definition octet_text (part : list Z) (x : Z) : Prop :=
  (exists a b da db, part = [a; b] /\ to_digit 16 a = Some da /\ to_digit 16 b = Some db /\ x = da * 16 + db)
  \/ (exists b, part = [43; b] /\ to_digit 16 b = Some x).

Lemma to_digit_range radix c d : to_digit radix c = Some d -> 0 <= d < radix.
Proof.
  unfold to_digit. intros H. repeat case_match; simplify_option_eq; repeat case_match; simplify_eq; lia.
Qed.

Lemma two_digits a b da db : to_digit 16 a = Some da -> to_digit 16 b = Some db ->
  u8_from_str_radix 16 [a; b] = inr (da * 16 + db).
Proof.
  intros Ha Hb. pose proof (to_digit_range _ _ _ Ha). pose proof (to_digit_range _ _ _ Hb).
  assert (a <> 43) as Hn by (intros ->; discriminate Ha). unfold u8_from_str_radix.
  assert (u8_digits 16 0 [a; b] = inr (da * 16 + db)) as Hu.
  { cbn [u8_digits]. rewrite Ha, Hb. destruct (Z.ltb_spec 255 (0 * 16 + da)); [lia|].
    destruct (Z.ltb_spec 255 ((0 * 16 + da) * 16 + db)); [lia|]. f_equal; lia. }
  repeat case_match; simplify_eq; done.
Qed.

Lemma octet_text_iff part x :
  length part = 2%nat /\ u8_from_str_radix 16 part = inr x <-> octet_text part x.
Proof.
  split.
  - intros [Hl Hu]. destruct part as [|a [|b [|]]]; try done. clear Hl.
    destruct (decide (a = 43)) as [->|Ha].
    + right. exists b. split; [done|]. cbn [u8_from_str_radix u8_digits] in Hu.
      destruct (to_digit 16 b) as [d|] eqn:Hd; [|done]. pose proof (to_digit_range _ _ _ Hd).
      destruct (255 <? _); [done|]. by injection Hu as <-.
    + left. assert (u8_digits 16 0 [a; b] = inr x) as Hd.
      { unfold u8_from_str_radix in Hu. repeat case_match; simplify_eq; done. }
      cbn [u8_digits] in Hd. destruct (to_digit 16 a) as [da|] eqn:Hda; [|done].
      destruct (255 <? _); [done|]. destruct (to_digit 16 b) as [db|] eqn:Hdb; [|done].
      destruct (255 <? _); [done|]. injection Hd as <-. exists a, b, da, db. split_and!; [done..|lia].
  - intros [(a & b & da & db & -> & Ha & Hb & ->)|(b & -> & Hb)].
    + split; [done|]. by apply two_digits.
    + split; [done|]. cbn [u8_from_str_radix u8_digits]. rewrite Hb.
      pose proof (to_digit_range _ _ _ Hb). destruct (Z.ltb_spec 255 (0 * 16 + x)); [lia|]. f_equal; lia.
Qed.

Lemma parse_octets_iff value parts mac :
  parse_octets value parts = inr mac <-> Forall2 octet_text parts mac.
Proof.
  revert mac. induction parts as [|part parts IH]; intros mac; cbn [parse_octets].
  { split; [by intros [= <-]|]. by inversion 1. }
  split.
  - destruct (Nat.eqb_spec (length part) 2) as [Hl|]; [|done]. cbn [negb].
    destruct (u8_from_str_radix 16 part) as [|x] eqn:Hu; [done|].
    destruct (parse_octets value parts) as [|m]; [done|]. intros [= <-].
    constructor; [by apply octet_text_iff|]. by apply IH.
  - inversion 1 as [|? x ? m Hx Hm]; subst. apply octet_text_iff in Hx as [Hl Hu].
    rewrite Hl, Hu. cbn [Nat.eqb negb]. by rewrite (proj2 (IH m) Hm).
Qed.

(** [parse_mac] accepts exactly the texts of six parts between colons, after the white
    space around them, each two hexadecimal digits or - because [u8::from_str_radix]
    accepts a sign - a plus sign and one digit, and returns the values of the parts.  Two
    digits per octet, which the comment promises, are not enforced. *)
Theorem mac_text_exact value mac :
  parse_mac value = inr mac
  <-> length mac = 6%nat /\ Forall2 octet_text (split 58 (trim (as_bytes value))) mac.
Proof.
  unfold parse_mac. destruct (Nat.eqb_spec (length (split 58 (trim (as_bytes value)))) 6) as [Hl|Hl];
    cbn [negb].
  - rewrite parse_octets_iff. split; [|by intros [_ ?]]. intros H.
    split; [|done]. by rewrite <- (Forall2_length _ _ _ H).
  - split; [done|]. intros [Hm H]. apply Forall2_length in H. congruence.
Qed.

Lemma mac_sign_accepted : parse_mac "aa:bb:cc:dd:ee:+f" = inr [170; 187; 204; 221; 238; 15].
Proof. by vm_compute. Qed.

(** *** Selectors *)

Lemma from_be_inj l m : bytes l -> bytes m -> length l = length m -> from_be l = from_be m -> l = m.
Proof. intros Hl Hm Hn He. by rewrite <- (to_be_from_be l Hl), <- (to_be_from_be m Hm), Hn, He. Qed.

Lemma addr_value_inj a b : PrefixSpec.wf_addr a -> PrefixSpec.wf_addr b ->
  addr_family a = addr_family b -> addr_value a = addr_value b -> a = b.
Proof.
  destruct a as [l|l], b as [m|m]; intros [Hb Hl] [Hb' Hl'] Hf Hv; try discriminate Hf; f_equal;
    apply from_be_inj; first [done|congruence].
Qed.

Lemma trim_text l : Forall IpTextFacts.ip_char l -> trim l = l.
Proof.
  intros Hl. apply IpTextFacts.trim_graphic. eapply Forall_impl; [exact Hl|apply IpTextFacts.ip_char_graphic].
Qed.

Lemma no_slash l : Forall IpTextFacts.ip_char l -> split_once 47 l = None.
Proof.
  intros Hl. destruct (split_once 47 l) as [[a b]|] eqn:Hs; [|done].
  apply IpTextFacts.split_once_some in Hs as [-> _]. apply Forall_app in Hl as [_ Hl].
  apply Forall_cons in Hl as [[[d Hd]|[?|?]] _]; done.
Qed.

Lemma net_text_graphic n : PrefixSpec.wf_net n -> Forall IpTextFacts.graphic (as_bytes (IpNet.to_string n)).
Proof.
  intros Hn. destruct (PrefixSpec.net_text n Hn) as [-> _]. destruct Hn as [Ha Hp].
  apply Forall_app. split; [|constructor; [unfold IpTextFacts.graphic; lia|]].
  - eapply Forall_impl; [by apply IpTextFacts.ip_string_chars, PrefixSpec.wf_addr_text|apply IpTextFacts.ip_char_graphic].
  - pose proof (PrefixSpec.width_pos (IpNet.address n)).
    pose proof (IpTextFacts.octet_reads (IpNet.prefix_len n) ltac:(lia)) as Hr.
    apply IpTextFacts.reads_chars in Hr; [|lia].
    eapply Forall_impl; [exact Hr|apply IpTextFacts.ip_char_graphic].
Qed.

Lemma parse_net_text n : PrefixSpec.wf_net n ->
  parse_selector (IpNet.to_string n) = map_err ipsec_error (TrafficSelector.net n).
Proof.
  intros Hn. destruct (PrefixSpec.net_text n Hn) as (_ & Hs & Hip & Hu & Hnew). unfold parse_selector.
  rewrite IpTextFacts.trim_graphic by (by apply net_text_graphic).
  rewrite Hs. cbv zeta beta iota. rewrite !of_bytes_as_bytes, Hip. cbn [mbind outcome_bind]. rewrite Hu. cbn.
  by rewrite Hnew.
Qed.

Lemma parse_host_text a : PrefixSpec.wf_addr a ->
  parse_selector (ip_string a) = map_err ipsec_error (TrafficSelector.net (IpNet.mk a (IpNet.width a))).
Proof.
  intros Ha. pose proof (PrefixSpec.wf_addr_text a Ha) as Ht. unfold parse_selector.
  pose proof (IpTextFacts.ip_string_chars a Ht) as Hc.
  rewrite trim_text, no_slash, !of_bytes_as_bytes, IpTextFacts.parse_ip_string by done. cbn.
  unfold IpNet.new, IpNet.width. by destruct (is_ipv4 a).
Qed.

(** The selector that a prefix in the configuration stands for contains exactly the
    addresses of its family that agree with it in the bits of the prefix, and an address
    without a prefix stands for that address alone. *)
Theorem selector_text_exact n x : PrefixSpec.wf_net n -> PrefixSpec.wf_addr x ->
  let a := IpNet.address n in
  let k := IpNet.width a - IpNet.prefix_len n in
  (exists s, parse_selector (IpNet.to_string n) = Ok s
    /\ TrafficSelector.contains s x
       = (addr_family x =? addr_family a) && (addr_value x / 2 ^ k =? addr_value a / 2 ^ k))
  /\ (exists s, parse_selector (ip_string a) = Ok s
    /\ (TrafficSelector.contains s x = true <-> x = a)).
Proof.
  intros Hn Hx a k. pose proof Hn as [Ha Hp]. split.
  - destruct (SelectorContract.net_contains_iff n x Hn) as (s & Hs & Hc). exists s. split; [|exact Hc].
    rewrite parse_net_text by done. by rewrite Hs.
  - assert (PrefixSpec.wf_net (IpNet.mk a (IpNet.width a))) as Hh
      by (split; [done|]; pose proof (PrefixSpec.width_pos a); cbn; lia).
    destruct (SelectorContract.net_contains_iff _ x Hh) as (s & Hs & Hc). exists s.
    rewrite parse_host_text by done. split; [by rewrite Hs|]. rewrite Hc. cbn [IpNet.address IpNet.prefix_len].
    replace (IpNet.width a - IpNet.width a) with 0 by lia. rewrite !Z.div_1_r, andb_true_iff, !Z.eqb_eq.
    split; [by intros [? ?]; apply addr_value_inj|by intros ->].
Qed.

(** *** Hexadecimal keys *)

Lemma hexdigit_digit c : is_ascii_hexdigit c = true -> to_digit 16 c = Some (digit_value c).
Proof.
  unfold is_ascii_hexdigit, to_digit, digit_value. intros Hc.
  destruct ((48 <=? c) && (c <=? 57)) eqn:?; cbn [orb] in Hc.
  { destruct (Z.leb_spec c 57); [|lia]. cbn. by destruct (Z.ltb_spec (c - 48) 16); [|lia]. }
  destruct (Z.leb_spec c 57); [lia|]. destruct (Z.leb_spec c 70).
  - replace ((97 <=? c) && (c <=? 122)) with false by lia.
    replace ((65 <=? c) && (c <=? 90)) with true by lia. cbn. by destruct (Z.ltb_spec (c - 55) 16); [|lia].
  - replace ((97 <=? c) && (c <=? 122)) with true by lia. cbn. by destruct (Z.ltb_spec (c - 87) 16); [|lia].
Qed.

Lemma hex_pairs field ds : Nat.even (length ds) = true -> Forall (fun c => is_ascii_hexdigit c = true) ds ->
  collect (fun pair => ok_or_text
             (fun e => WifiError.new WifiError.InvalidConfig ("invalid hex in " +:+ field +:+ ": " +:+ e))
             (u8_from_str_radix 16 pair)) (pairs ds) = Ok (unhex_pairs ds).
Proof.
  remember (length ds) as n eqn:Hn. assert (length ds <= n)%nat as Hle by lia. clear Hn.
  intros _ Hf. revert ds Hle Hf. induction n as [n IH] using lt_wf_ind. intros [|a [|b ds]] Hle Hf; [done..|].
  apply Forall_cons in Hf as [Ha Hf]. apply Forall_cons in Hf as [Hb Hf]. cbn [length] in Hle.
  cbn [pairs collect unhex_pairs]. rewrite (two_digits a b _ _ (hexdigit_digit a Ha) (hexdigit_digit b Hb)).
  cbn [ok_or_text mbind outcome_bind]. rewrite (IH (n - 2)%nat) by (lia || done). done.
Qed.

(** Without white space and colons, an even number of digits is the octets they write. *)
Definition key_digits (value : string) : list Z :=
  List.filter (fun c => negb (is_ascii_whitespace c) && negb (c =? 58)) (as_bytes value).

Lemma parse_hex_ok field value l :
  parse_hex field value = Ok l
  <-> Nat.even (length (key_digits value)) = true
      /\ Forall (fun c => is_ascii_hexdigit c = true) (key_digits value)
      /\ l = unhex_pairs (key_digits value).
Proof.
  unfold parse_hex. fold (key_digits value). generalize (key_digits value). intros ds.
  destruct (Nat.even (length ds)) eqn:He; cbn [negb]; [|split; [done|by intros [? _]]].
  rewrite <- ConfigSpec.forallb_true.
  destruct (forallb is_ascii_hexdigit ds) eqn:Hf; cbn [negb]; [|split; [done|by intros (_ & ? & _)]].
  rewrite ConfigSpec.forallb_true in Hf. split.
  - intros Hp. split_and!; [done..|]. rewrite hex_pairs in Hp by done. congruence.
  - intros (_ & _ & ->). by apply hex_pairs.
Qed.

(** *** What a conversion has checked *)

(** The outcome is an [InvalidConfig] error or a result in [Q]; no panic. *)
Definition checked {A} (o : outcome WifiError.t A) (Q : A -> Prop) : Prop :=
  match o with
  | Ok x => Q x
  | Err e => WifiError.kind e = WifiError.InvalidConfig
  | Panic | Diverge => False
  end.

Lemma checked_bind {A B} (o : outcome WifiError.t A) (f : A -> outcome WifiError.t B) (P : A -> Prop) Q :
  checked o P -> (forall x, P x -> checked (f x) Q) -> checked (o ≫= f) Q.
Proof. destruct o; cbn; auto. Qed.

Lemma checked_weaken {A} (o : outcome WifiError.t A) (P Q : A -> Prop) :
  checked o P -> (forall x, P x -> Q x) -> checked o Q.
Proof. destruct o; cbn; auto. Qed.

(** What is known of a result is at least that it is the result. *)
Lemma checked_result {A} (o : outcome WifiError.t A) P :
  checked o P -> checked o (fun x => o = Ok x /\ P x).
Proof. destruct o; cbn; auto. Qed.

Lemma checked_collect {A B} (f : A -> outcome WifiError.t B) (P : A -> B -> Prop) l :
  Forall (fun x => checked (f x) (P x)) l -> checked (collect f l) (Forall2 P l).
Proof.
  induction 1 as [|x l Hx _ IH]; cbn [collect]; [constructor|].
  eapply checked_bind; [exact Hx|]. intros y Hy. eapply checked_bind; [exact IH|].
  intros ys Hys. by constructor.
Qed.

Lemma checked_try_each {A} (f : A -> outcome WifiError.t unit) l :
  Forall (fun x => checked (f x) (fun _ => True)) l -> checked (try_each f l) (fun _ => True).
Proof.
  induction 1 as [|x l Hx _ IH]; cbn [try_each]; [done|]. by eapply checked_bind.
Qed.

Lemma checked_text {A} f (r : string + A) :
  (forall e, WifiError.kind (f e) = WifiError.InvalidConfig) -> checked (ok_or_text f r) (fun _ => True).
Proof. destruct r; cbn; auto. Qed.

Lemma parse_optional_ip_checked field value : checked (parse_optional_ip field value) (fun _ => True).
Proof. destruct value as [v|]; cbn; [|done]. by destruct (parse_ip v). Qed.

(** The selector of a parsed text has a start and an end of one family. *)
Lemma parse_selector_checked value : checked (parse_selector value) (fun _ => True).
Proof.
  unfold parse_selector. eapply (checked_bind _ _ (fun _ => True)).
  { destruct (split_once _ _) as [[a b]|].
    - eapply (checked_bind _ _ (fun _ => True)); [by destruct (parse_ip _)|]. intros x _.
      eapply checked_bind; [by apply checked_text|]. done.
    - eapply (checked_bind _ _ (fun _ => True)); [by destruct (parse_ip _)|]. done. }
  intros [a prefix] _. unfold IpNet.new. destruct (Z.ltb_spec (IpNet.width a) prefix); [done|].
  cbn [map_err mbind outcome_bind]. unfold TrafficSelector.net, IpNet.first, IpNet.last.
  cbn [IpNet.address IpNet.prefix_len]. destruct (prefix =? 0); [done|].
  destruct (Z.ltb_spec (IpNet.width a) prefix); [lia|done].
Qed.

Lemma selector_pair_checked p : checked (selector_pair p) (fun _ => True).
Proof.
  assert (forall l, checked (collect parse_selector l) (fun _ => True)) as Hl.
  { intros l. eapply checked_weaken; [apply checked_collect, Forall_true; intros; apply parse_selector_checked|done]. }
  unfold selector_pair. eapply checked_bind; [apply Hl|]. intros local _.
  eapply checked_bind; [apply Hl|]. intros remote _. by destruct local, remote.
Qed.

Lemma auth_entry_validate_checked a :
  checked (auth_entry_validate a) (fun _ => is_Some (ae_psk a) \/ is_Some (ae_eap_tls a) \/ is_Some (ae_certificate a)).
Proof.
  unfold auth_entry_validate. destruct (ae_psk a), (ae_certificate a), (ae_eap_tls a); cbn -[bool_decide];
    repeat case_bool_decide; cbn; eauto.
Qed.

(** The [unwrap] of [to_lib] is never reached without a certificate. *)
Lemma auth_entry_to_lib_checked a : checked (auth_entry_to_lib a) (fun _ => True).
Proof.
  unfold auth_entry_to_lib. eapply checked_bind; [apply auth_entry_validate_checked|]. intros v Ha. cbv beta in Ha. clear v.
  destruct (ae_psk a); [done|]. destruct (ae_eap_tls a); [done|].
  destruct (ae_certificate a) as [c|]; [|by destruct Ha as [[? ?]|[[? ?]|[? ?]]]].
  assert (forall path, checked (read_pem path) (fun _ => True)) as Hr by (intros; by apply checked_text).
  assert (forall l, checked (collect read_pem l) (fun _ => True)) as Hl.
  { intros l. eapply checked_weaken; [apply (checked_collect _ (fun _ _ => True)), Forall_true, Hr|done]. }
  by repeat (eapply checked_bind; [first [apply Hl|apply Hr]|]; intros ? _).
Qed.

(** Reading an identity gives an identity or an error of the configuration. *)
Lemma from_str_checked text : checked (map_err ipsec_error (from_str text)) (fun i => from_str text = Ok i).
Proof.
  assert (from_str text <> Panic /\ from_str text <> Diverge) as [Hp Hd].
  { unfold from_str, from_bare, unhex. repeat case_match; done. }
  by destruct (from_str text).
Qed.

(** A peer is converted as it is written. *)
Definition peer_converted (p : IpsecPeerEntry) (c : PeerConfig) : Prop :=
  remote_ip p = Ok (remote_address (remote c)) /\ selector_pair p = Ok (selectors c)
  /\ auth_entry_to_lib (pe_auth p) = Ok (auth c) /\ remote_port (remote c) = re_port (pe_remote p)
  /\ match re_identity (pe_remote p), remote_address (remote c) with
     | Some text, _ => from_str text = Ok (remote_identity (remote c))
     | None, Some a => remote_identity (remote c) = Identity.Ip a
     | None, None => remote_identity (remote c) = Identity.Any
     end.

Lemma peer_to_lib_checked p : checked (peer_to_lib p) (peer_converted p).
Proof.
  unfold peer_to_lib, peer_converted.
  eapply checked_bind; [apply checked_result, parse_optional_ip_checked|]. intros a [Ha _].
  eapply (checked_bind _ _ (fun i => match re_identity (pe_remote p), a with
                                     | Some text, _ => from_str text = Ok i
                                     | None, Some a => i = Identity.Ip a
                                     | None, None => i = Identity.Any
                                     end)).
  { destruct (re_identity (pe_remote p)) as [text|]; [|by destruct a]. by apply from_str_checked. }
  intros i Hi. eapply checked_bind; [apply checked_result, selector_pair_checked|]. intros s [Hs _].
  eapply checked_bind; [apply checked_result, auth_entry_to_lib_checked|]. intros au [Hau _]. cbn.
  split_and!; done.
Qed.

Lemma parse_topology_checked value : checked (parse_topology value) (fun _ => True).
Proof. unfold parse_topology. by repeat case_bool_decide. Qed.

Lemma entry_child_mode_checked e : checked (entry_child_mode e) (fun _ => True).
Proof. unfold entry_child_mode. by repeat case_bool_decide. Qed.

Lemma validate_entry_lifetime e : validate_entry e = Ok tt -> IpsecEntry.child_lifetime e <> 0.
Proof.
  unfold validate_entry. do 2 (case_match; [done|]). intros (t & _ & Hk)%bind_ok. case_match; [done|].
  apply bind_ok in Hk as (x & _ & Hk). apply bind_ok in Hk as (y & _ & Hk).
  apply bind_ok in Hk as (z & Hz & _). unfold parse_child_lifetime in Hz.
  by destruct (Z.eqb_spec (IpsecEntry.child_lifetime e) 0).
Qed.

Lemma validate_entry_checked e : checked (validate_entry e) (fun _ => True).
Proof.
  unfold validate_entry. destruct (blank _); [done|]. destruct (_ =? 0)%nat; [done|].
  eapply checked_bind; [apply parse_topology_checked|]. intros t _. destruct (_ && _); [done|].
  eapply checked_bind; [apply parse_optional_ip_checked|]. intros _ _.
  eapply checked_bind; [apply entry_child_mode_checked|]. intros _ _.
  eapply (checked_bind _ _ (fun _ => True)).
  { unfold parse_child_lifetime. by destruct (_ =? 0). }
  intros _ _. apply checked_try_each, Forall_true. intros p. unfold peer_validate.
  eapply checked_bind; [apply parse_optional_ip_checked|]. intros _ _.
  eapply checked_bind; [eapply checked_weaken; [apply auth_entry_validate_checked|done]|]. intros _ _.
  eapply checked_bind; [apply selector_pair_checked|]. done.
Qed.

(** The checks of the library end with a value or an error. *)
Definition ends {E A} (o : outcome E A) : Prop := o <> Panic /\ o <> Diverge.

Lemma ends_bind {E A B} (o : outcome E A) (f : A -> outcome E B) :
  ends o -> (forall x, ends (f x)) -> ends (o ≫= f).
Proof. intros [? ?] Hf. destruct o; try done. apply Hf. Qed.

Lemma validate_all_ends l : ends (TrafficSelectorPair.validate_all l).
Proof.
  induction l as [|x l IH]; [done|]. apply ends_bind; [|done].
  unfold TrafficSelector.validate. by repeat case_match.
Qed.

Lemma pair_validate_ends p : ends (TrafficSelectorPair.validate p).
Proof.
  unfold TrafficSelectorPair.validate.
  destruct (TrafficSelectorPair.local p), (TrafficSelectorPair.remote p); try done;
    (apply ends_bind; [apply validate_all_ends|intros _; by repeat case_match]).
Qed.

Lemma auth_validate_ends a : ends (IpsecConfig.validate_auth a).
Proof.
  destruct a as [[|]|c|e]; try done; cbn; [by repeat case_match|].
  unfold validate_eap_tls. case_match; [done|].
  repeat (apply ends_bind; [by case_match|intros _]). by repeat case_match.
Qed.

Lemma peers_validate_ends l : ends (IpsecConfig.validate_peers l).
Proof.
  induction l as [|p l IH]; [done|]. cbn [IpsecConfig.validate_peers].
  apply ends_bind; [apply pair_validate_ends|intros _].
  apply ends_bind; [apply auth_validate_ends|done].
Qed.

Lemma config_validate_checked c :
  checked (map_err ipsec_error (IpsecConfig.validate c)) (fun _ => ConfigSpec.valid_config c).
Proof.
  assert (ends (IpsecConfig.validate c)) as [Hp Hd].
  { unfold IpsecConfig.validate. repeat (case_match; [done|]). apply peers_validate_ends. }
  destruct (IpsecConfig.validate c) as [[]| | |] eqn:Hv; try done. cbn. by apply ConfigSpec.ipsec_validate_iff.
Qed.

(** The local end as it is written: its own identity, else its address, else "localhost". *)
Definition local_converted (e : IpsecEntry.t) (l : LocalConfig) : Prop :=
  let le := IpsecEntry.local e in
  local_ip e = Ok (local_address l) /\ local_interface l = le_interface le /\ local_port l = le_port le
  /\ nat_t l = le_nat_t le /\ request_inner_address l = le_request_inner_address le
  /\ request_dns l = le_request_dns le
  /\ match le_identity le, local_address l with
     | Some text, _ => from_str text = Ok (local_identity l)
     | None, Some a => local_identity l = Identity.Ip a
     | None, None => local_identity l = Identity.Fqdn "localhost"
     end.

Definition xfrm_converted (x : IpsecXfrmEntry) (c : XfrmConfig) : Prop :=
  xfrm_interface c = xe_interface x /\ if_id c = xe_if_id x /\ reqid c = xe_reqid x
  /\ priority c = xe_priority x /\ mark c = xe_mark x /\ mark_mask c = xe_mark_mask x
  /\ underlay_interface c = xe_underlay_interface x /\ xfrm_esn c = false.

Definition dpd_converted (d : IpsecDpdEntry) (c : DpdConfig) : Prop :=
  dpd_interval c = de_interval d /\ dpd_timeout c = de_timeout d /\ dpd_retries c = de_retries d
  /\ dpd_enabled c = de_enabled d.


End Facts.
(** Surroundings without files, for evaluation. *)
Definition no_files : Env :=
  Build_Env id (fun _ => inl "not found") (fun _ => false) (fun _ => inl "not found") (fun _ => inl "empty").

Lemma selector_text_exact_witness :
  (exists s, @parse_selector no_files "10.2.3.4/24" = Ok s
    /\ TrafficSelector.contains s (V4 [10; 2; 3; 99]) = true)
  /\ (exists s, @parse_selector no_files "10.2.3.4" = Ok s
    /\ (TrafficSelector.contains s (V4 [10; 2; 3; 99]) = true <-> V4 [10; 2; 3; 99] = V4 [10; 2; 3; 4])).
Proof.
  destruct (@selector_text_exact no_files (IpNet.mk (V4 [10; 2; 3; 4]) 24) (V4 [10; 2; 3; 99]))
    as [(s & Hs & Hc) Hh].
  - split; [refine (bool_decide_unpack _ _); vm_compute; exact I|cbn; lia].
  - refine (bool_decide_unpack _ _). vm_compute. exact I.
  - split; [|exact Hh]. exists s. split; [exact Hs|]. rewrite Hc. vm_compute. reflexivity.
Defined.

End DaemonConfigFacts.
