(* ===== verification/Xfrm.v ===== *)
(** * The XFRM backend

    [src/src/ipsec/xfrm]: the kernel states and policies of a Child SA ([state.rs],
    [policy.rs]), XFRM interfaces ([interface.rs]), events ([monitor.rs]), and the manager
    that installs a Child SA, removes it and cleans up what it owns ([mod.rs]).

    The kernel behind the netlink sockets is the class [Kernel]; an object sent to it is a
    record of the fields the code sets.  An address in a message is kept as the [IpAddr] it
    was made from.  [Class KernelLaws] states what the kernel promises: states and policies
    are kept by key, and a request that fails changes nothing; that a deletion fails only
    when there is nothing to delete is a hypothesis of its own, [deletions_carried_out].
    [Module XfrmFacts]: what a policy selects, which identifier is allocated, and that an
    installation that fails leaves nothing behind. *)

From stdpp Require Import sets list.
From S2P Require Import Prelude Errors Net TrafficSelector Identity IpsecConfig.
From S2P Require Import IkeProposals IkeCrypto IkeSa.

(** ** Messages *)

Definition AF_INET : Z := 2.
Definition AF_INET6 : Z := 10.
Definition IPPROTO_ESP : Z := 50.
Definition XFRM_MODE_TRANSPORT : Z := 0.
Definition XFRM_MODE_TUNNEL : Z := 1.
Definition XFRM_POLICY_IN : Z := 0.
Definition XFRM_POLICY_OUT : Z := 1.
Definition XFRM_POLICY_FWD : Z := 2.
Definition XFRM_POLICY_ALLOW : Z := 0.
Definition XFRM_STATE_ESN : Z := 128.

(** [netlink_packet_xfrm::Selector]. *)
Module Selector.

Record t := mk {
  saddr : IpAddr;
  prefixlen_s : Z;
  daddr : IpAddr;
  prefixlen_d : Z;
  proto : Z;
  sport : Z;
  sport_mask : Z;
  dport : Z;
  dport_mask : Z;
}.

#[global] Instance t_eq_dec : EqDecision t.
Proof. solve_decision. Defined.

(** [Selector::default] with a source and a destination prefix. *)
Definition prefixes (source : IpAddr) (len_s : Z) (destination : IpAddr) (len_d : Z) : t :=
  mk source len_s destination len_d 0 0 0 0 0.

End Selector.

Record Mark := mkMark { mark_value : Z; mark_mask_bits : Z }.

#[global] Instance Mark_eq_dec : EqDecision Mark.
Proof. solve_decision. Defined.

Record UserTemplate := mkUserTemplate {
  tmpl_source : IpAddr;
  tmpl_destination : IpAddr;
  tmpl_protocol : Z;
  tmpl_mode : Z;
  tmpl_reqid : Z;
}.

#[global] Instance UserTemplate_eq_dec : EqDecision UserTemplate.
Proof. solve_decision. Defined.

(** [XfrmAttrs], as far as the code makes them. *)
Inductive XfrmAttrs :=
| EncryptionAlgAead (alg_name : list Z) (alg_key_len alg_icv_len : Z) (alg_key : list Z)
| EncryptionAlg (alg_name : list Z) (alg_key_len : Z) (alg_key : list Z)
| AuthenticationAlgTrunc (alg_name : list Z) (alg_key_len alg_trunc_len : Z) (alg_key : list Z)
| IfId (if_id : Z)
| ReplayStateEsn (bmp_len replay_window : Z)
| EncapsulationTemplate (encap_type encap_sport encap_dport : Z)
| MarkAttr (mark : Mark)
| Template (templates : list UserTemplate)
| SrcAddr (address : IpAddr).

#[global] Instance XfrmAttrs_eq_dec : EqDecision XfrmAttrs.
Proof. solve_decision. Defined.

(** [UserSaInfo]. *)
Record UserSaInfo := mkUserSaInfo {
  sa_daddr : IpAddr;
  sa_spi : Z;
  sa_proto : Z;
  sa_saddr : IpAddr;
  sa_family : Z;
  sa_mode : Z;
  sa_reqid : Z;
  sa_replay_window : Z;
  sa_hard_add_expires : Z;
  sa_soft_add_expires : Z;
  sa_selector : Selector.t;
  sa_flags : Z;
}.

(** [state::ModifyMessage] and [policy::ModifyMessage]. *)
Record SaMessage := mkSaMessage { user_sa_info : UserSaInfo; sa_nlas : list XfrmAttrs }.

Record UserPolicyInfo := mkUserPolicyInfo {
  policy_selector : Selector.t;
  policy_direction : Z;
  policy_action : Z;
  policy_priority : Z;
}.

#[global] Instance UserPolicyInfo_eq_dec : EqDecision UserPolicyInfo.
Proof. solve_decision. Defined.

Record PolicyMessage := mkPolicyMessage { user_policy_info : UserPolicyInfo; policy_nlas : list XfrmAttrs }.

#[global] Instance PolicyMessage_eq_dec : EqDecision PolicyMessage.
Proof. solve_decision. Defined.

Inductive XfrmMessage :=
| AddSa (m : SaMessage)
| UpdateSa (m : SaMessage)
| DeleteSa (daddr : IpAddr) (spi proto family : Z) (nlas : list XfrmAttrs)
| AddPolicy (m : PolicyMessage)
| UpdatePolicy (m : PolicyMessage)
| DeletePolicy (selector : Selector.t) (direction : Z) (nlas : list XfrmAttrs).

(** The flags of a request. *)
Definition NLM_F_REQUEST : Z := 1.
Definition NLM_F_ACK : Z := 4.
Definition NLM_F_REPLACE : Z := 256.
Definition NLM_F_EXCL : Z := 512.
Definition NLM_F_CREATE : Z := 1024.

Definition CREATE_FLAGS : Z := Z.lor NLM_F_REQUEST (Z.lor NLM_F_ACK (Z.lor NLM_F_CREATE NLM_F_EXCL)).
Definition REPLACE_FLAGS : Z := Z.lor NLM_F_REQUEST (Z.lor NLM_F_ACK NLM_F_REPLACE).
Definition ACK_FLAGS : Z := Z.lor NLM_F_REQUEST NLM_F_ACK.

Inductive NetlinkPayload :=
| NlError (code : option Z)
| NlInner
| NlDone
| NlOther.

(** ** Interfaces *)

Record XfrmInterface := mkXfrmInterface { xi_name : string; xi_if_index : Z; xi_if_id : Z }.

#[global] Instance XfrmInterface_eq_dec : EqDecision XfrmInterface.
Proof. solve_decision. Defined.

Inductive InfoXfrm := InfoIfId (value : Z) | InfoXfrmOther.
Inductive LinkInfo := KindXfrm | DataXfrm (data : list InfoXfrm) | LinkInfoOther.
Inductive LinkAttribute := IfName (value : string) | LinkInfos (infos : list LinkInfo) | LinkAttributeOther.

Record LinkMessage := mkLinkMessage { link_index : Z; link_attributes : list LinkAttribute }.

(** The state of the loops of [parse_interface]. *)
Record LinkScan := mkLinkScan { found_name : option string; found_if_id : option Z; is_xfrm : bool }.

Definition scan_info (s : LinkScan) (info : LinkInfo) : LinkScan :=
  match info with
  | KindXfrm => mkLinkScan (found_name s) (found_if_id s) true
  | DataXfrm data =>
      fold_left (fun s item => match item with
                               | InfoIfId value => mkLinkScan (found_name s) (Some value) (is_xfrm s)
                               | InfoXfrmOther => s
                               end)
        data (mkLinkScan (found_name s) (found_if_id s) true)
  | LinkInfoOther => s
  end.

Definition scan_attribute (s : LinkScan) (a : LinkAttribute) : LinkScan :=
  match a with
  | IfName value => mkLinkScan (Some value) (found_if_id s) (is_xfrm s)
  | LinkInfos infos => fold_left scan_info infos s
  | LinkAttributeOther => s
  end.

Definition parse_interface (m : LinkMessage) : option XfrmInterface :=
  let s := fold_left scan_attribute (link_attributes m) (mkLinkScan None None false) in
  if negb (is_xfrm s) then None else
  name ← found_name s;
  Some (mkXfrmInterface name (link_index m) (default 0 (found_if_id s))).

(** ** Specifications ([mod.rs]) *)

Record XfrmInterfaceSpec := mkXfrmInterfaceSpec {
  spec_name : option string;
  spec_if_id : option Z;
  spec_underlay_interface : option string;
}.

(** [XfrmInterfaceSpec::from_config]. *)
Definition interface_spec_from_config (c : XfrmConfig) : XfrmInterfaceSpec :=
  mkXfrmInterfaceSpec (xfrm_interface c) (IpsecConfig.if_id c) (underlay_interface c).

Module InstallSpec.

Record t := mk {
  interface : option XfrmInterface;
  if_id : Z;
  reqid : Z;
  local_address : IpAddr;
  remote_address : IpAddr;
  mode : ChildMode;
  lifetime : Z;
  priority : Z;
  replay_window : Z;
  mark : option Z;
  mark_mask : Z;
  forward : bool;
  nat_t : bool;
}.

Definition direction_addr (s : t) : Z := if is_ipv4 (local_address s) then AF_INET else AF_INET6.

End InstallSpec.

Record SaRecord := mkSaRecord {
  rec_source : IpAddr;
  rec_destination : IpAddr;
  rec_spi : Z;
  rec_proto : Z;
  rec_family : Z;
}.

#[global] Instance SaRecord_eq_dec : EqDecision SaRecord.
Proof. solve_decision. Defined.

Record PolicyRecord := mkPolicyRecord {
  rec_direction : Z;
  rec_selector : Selector.t;
  rec_if_id : Z;
  rec_message : PolicyMessage;
}.

#[global] Instance PolicyRecord_eq_dec : EqDecision PolicyRecord.
Proof. solve_decision. Defined.

Record InstalledChildSa := mkInstalledChildSa {
  inst_if_id : Z;
  inst_reqid : Z;
  inst_local_address : IpAddr;
  inst_remote_address : IpAddr;
  inst_local_spi : Z;
  inst_remote_spi : Z;
  local_policies : list PolicyRecord;
  remote_policies : list PolicyRecord;
  forward_policies : list PolicyRecord;
}.

(** ** Policies ([policy.rs]) *)

(** [common_prefix_len] of [state.rs] and [policy.rs]: equal ends are the full length. *)
Definition xfrm_prefix_len (start end_ : IpAddr) : Z :=
  match start, end_ with
  | V4 a, V4 b => if bool_decide (a = b) then 32 else as_u8 (leading_zeros 32 (Z.lxor (from_be a) (from_be b)))
  | V6 a, V6 b => if bool_decide (a = b) then 128 else as_u8 (leading_zeros 128 (Z.lxor (from_be a) (from_be b)))
  | _, _ => 0
  end.

(** The selector of a pair of traffic selectors. *)
Definition pair_selector (source destination : TrafficSelector.t) : Selector.t :=
  let single s := TrafficSelector.start_port s =? TrafficSelector.end_port s in
  Selector.mk
    (TrafficSelector.start source)
    (xfrm_prefix_len (TrafficSelector.start source) (TrafficSelector.end_ source))
    (TrafficSelector.start destination)
    (xfrm_prefix_len (TrafficSelector.start destination) (TrafficSelector.end_ destination))
    (TrafficSelector.protocol source)
    (TrafficSelector.start_port source) (if single source then 65535 else 0)
    (TrafficSelector.start_port destination) (if single destination then 65535 else 0).

Inductive Direction := Out | In | Forward.

Definition direction_value (d : Direction) : Z :=
  match d with Out => XFRM_POLICY_OUT | In => XFRM_POLICY_IN | Forward => XFRM_POLICY_FWD end.

Definition mode_value (m : ChildMode) : Z :=
  match m with Transport => XFRM_MODE_TRANSPORT | Tunnel => XFRM_MODE_TUNNEL end.

(** The mark of a specification. *)
Definition spec_mark (spec : InstallSpec.t) : list XfrmAttrs :=
  match InstallSpec.mark spec with
  | Some mark => [MarkAttr (mkMark mark (InstallSpec.mark_mask spec))]
  | None => []
  end.

(** [policy::build]. *)
Definition policy_build (direction : Direction) (source destination : TrafficSelector.t)
  (spec : InstallSpec.t) : outcome IpsecError.t PolicyRecord :=
  if negb (TrafficSelector.family source =? TrafficSelector.family destination) then
    Err (IpsecError.xfrm "policy selector addresses use different families")
  else
    let selector := pair_selector source destination in
    let if_id := InstallSpec.if_id spec in
    let info := mkUserPolicyInfo selector (direction_value direction) XFRM_POLICY_ALLOW (InstallSpec.priority spec) in
    let '(template_src, template_dst) :=
      match direction with
      | Out => (InstallSpec.local_address spec, InstallSpec.remote_address spec)
      | In | Forward => (InstallSpec.remote_address spec, InstallSpec.local_address spec)
      end in
    let template := mkUserTemplate template_src template_dst IPPROTO_ESP
                      (mode_value (InstallSpec.mode spec)) (InstallSpec.reqid spec) in
    let nlas := [Template [template]] ++ (if if_id =? 0 then [] else [IfId if_id]) ++ spec_mark spec in
    Ok (mkPolicyRecord (direction_value direction) selector if_id (mkPolicyMessage info nlas)).

(** ** States ([state.rs]) *)

(** [c_name]: an algorithm name in 64 octets. *)
Definition c_name (value : string) (width : nat) : outcome IpsecError.t (list Z) :=
  let l := as_bytes value in
  if (width <? length l + 1)%nat || negb (width =? 64)%nat then
    Err (IpsecError.internal "invalid XFRM algorithm name width")
  else Ok (l ++ replicate (64 - length l) 0).

Definition encryption_transform (algorithm : EncryptionAlgorithm.t) (key : list Z)
  : outcome IpsecError.t XfrmAttrs :=
  if EncryptionAlgorithm.is_aead algorithm then
    name ← c_name "rfc4106(gcm(aes))" 64;
    Ok (EncryptionAlgAead name (as_u32 (zlen key * 8)) 128 key)
  else
    name ← c_name "cbc(aes)" 64;
    Ok (EncryptionAlg name (as_u32 (zlen key * 8)) key).

Definition integrity_transform (algorithm : IntegrityAlgorithm.t) (key : list Z)
  : outcome IpsecError.t XfrmAttrs :=
  '(name, trunc) ←
    match algorithm with
    | IntegrityAlgorithm.HmacSha2_256_128 => Ok ("hmac(sha256)", 128)
    | IntegrityAlgorithm.HmacSha1_96 => Ok ("hmac(sha1)", 96)
    | IntegrityAlgorithm.None =>
        Err (IpsecError.xfrm "cannot install an integrity transform for NONE")
    end;
  alg_name ← c_name name 64;
  Ok (AuthenticationAlgTrunc alg_name (as_u32 (zlen key * 8)) trunc key).

Definition full_prefix (a : IpAddr) : Z := if is_ipv4 a then 32 else 128.

(** [Ipv4Addr::UNSPECIFIED] or [Ipv6Addr::UNSPECIFIED]. *)
Definition wildcard_addr (a : IpAddr) : IpAddr :=
  if is_ipv4 a then V4 (replicate 4 0) else V6 (replicate 16 0).

(** [apply_tunnel_selector]. *)
Definition tunnel_selector (child : ChildSaHandle.t) (outbound : bool) (spec : InstallSpec.t)
  : outcome IpsecError.t Selector.t :=
  let '(source, destination) :=
    if outbound then (ChildSaHandle.local_selectors child, ChildSaHandle.remote_selectors child)
    else (ChildSaHandle.remote_selectors child, ChildSaHandle.local_selectors child) in
  match source, destination with
  | [source], [destination] =>
      if negb (TrafficSelector.family source =? TrafficSelector.family destination) then
        Err (IpsecError.xfrm "traffic selectors use different address families")
      else Ok (pair_selector source destination)
  | _, _ =>
      let wildcard := wildcard_addr (InstallSpec.local_address spec) in
      Ok (Selector.prefixes wildcard 0 wildcard 0)
  end.

(** [str::contains] of a text. *)
Fixpoint contains_list (p l : list Z) : bool :=
  bool_decide (take (length p) l = p) || match l with [] => false | _ :: l => contains_list p l end.

Definition contains_str (p s : string) : bool := contains_list (as_bytes p) (as_bytes s).

(** ** The kernel *)

Class Kernel := {
  World : Type;
  (** A request on the XFRM socket: an error of the socket, or the payloads that answer it. *)
  xfrm_request : Z -> XfrmMessage -> World -> World * (string + list NetlinkPayload);
  (** [io::Error::from_raw_os_error], printed. *)
  os_error : Z -> string;
  (** Links: by name, all of them, a new XFRM link, and deletion. *)
  link_by_name : string -> World -> World * (string + option LinkMessage);
  link_list : World -> World * (string + list LinkMessage);
  link_add_xfrm : string -> Z -> Z -> World -> World * (string + unit);
  link_del : Z -> World -> World * (string + unit);
  sleep_ms : Z -> World -> World;
  (** The seconds of nine tenths of a duration in seconds ([Duration::mul_f64]). *)
  soft_lifetime : Z -> Z;
  (** The order in which a hash map is visited. *)
  visit_order : forall {A}, list A -> list A;
}.

Section WithKernel.
Context `{Kernel}.

(** [state::build]. *)
Definition state_build (child : ChildSaHandle.t) (spec : InstallSpec.t) (outbound : bool)
  : outcome IpsecError.t SaMessage :=
  let '(src, dst, spi, enc_key, auth_key) :=
    if outbound then
      (InstallSpec.local_address spec, InstallSpec.remote_address spec, ChildSaHandle.remote_spi child,
       ChildSaHandle.outbound_key child, ChildSaHandle.outbound_integrity_key child)
    else
      (InstallSpec.remote_address spec, InstallSpec.local_address spec, ChildSaHandle.local_spi child,
       ChildSaHandle.inbound_key child, ChildSaHandle.inbound_integrity_key child) in
  let esn := ChildSaHandle.esn child in
  selector ←
    (if bool_decide (InstallSpec.mode spec = Tunnel) then tunnel_selector child outbound spec
     else Ok (Selector.prefixes src (full_prefix src) dst (full_prefix dst)));
  encryption ← encryption_transform (ChildSaHandle.encryption child) enc_key;
  integrity ←
    match ChildSaHandle.integrity child, auth_key with
    | Some algorithm, Some key => t ← integrity_transform algorithm key; Ok [t]
    | _, _ => Ok []
    end;
  let window := Z.min (InstallSpec.replay_window spec) 4096 in
  let info :=
    mkUserSaInfo dst spi IPPROTO_ESP src (if is_ipv4 src then AF_INET else AF_INET6)
      (mode_value (InstallSpec.mode spec)) (InstallSpec.reqid spec)
      (if esn then 0 else Z.min (InstallSpec.replay_window spec) 255)
      (InstallSpec.lifetime spec) (soft_lifetime (InstallSpec.lifetime spec))
      selector (if esn then XFRM_STATE_ESN else 0) in
  Ok (mkSaMessage info
        ([encryption]
         ++ (if InstallSpec.if_id spec =? 0 then [] else [IfId (InstallSpec.if_id spec)])
         ++ integrity
         ++ (if esn then [ReplayStateEsn (Z.max ((window + 31) / 32) 1) window] else [])
         ++ (if InstallSpec.nat_t spec then [EncapsulationTemplate 2 4500 4500] else [])
         ++ spec_mark spec)).

(** ** Requests *)

Abbreviation io := (st World IpsecError.t).

Definition netlink_error (e : string) : IpsecError.t := IpsecError.new IpsecError.Netlink e.

(** An operation of the kernel whose error is converted. *)
Definition ask {A} (op : World -> World * (string + A)) (err : string -> IpsecError.t) : io A :=
  fun w => let '(w', r) := op w in (w', match r with inl e => Err (err e) | inr a => Ok a end).

(** The loop of [request_once] over the answer; what it collects is not used. *)
Fixpoint read_answer (l : list NetlinkPayload) : outcome IpsecError.t unit :=
  match l with
  | [] => Ok tt
  | NlError (Some code) :: _ =>
      Err (netlink_error ("netlink request failed: " +:+ os_error (Z.abs code)))
  | NlDone :: _ => Ok tt
  | _ :: l => read_answer l
  end.

Definition request (flags : Z) (m : XfrmMessage) : io unit :=
  answer ← ask (xfrm_request flags m) netlink_error;
  lift (read_answer answer).

Definition is_exists (e : IpsecError.t) : bool :=
  contains_str "File exists" (IpsecError.msg e) || contains_str "EEXIST" (IpsecError.msg e).

(** [Err(error) if is_exists(&error) => update]. *)
Definition or_update (add update : io unit) : io unit := fun w =>
  match add w with
  | (w', Err e) => if is_exists e then update w' else (w', Err e)
  | r => r
  end.

(** [let _ = f.await]. *)
Definition ignore {S A} (f : st S IpsecError.t A) : st S IpsecError.t unit := fun s =>
  match f s with
  | (s', Ok _) | (s', Err _) => (s', Ok tt)
  | (s', Panic) => (s', Panic)
  | (s', Diverge) => (s', Diverge)
  end.

(** [policy::add], [policy::delete], [state::delete] and [add_or_update_sa]. *)
Definition policy_add (r : PolicyRecord) : io unit :=
  or_update (request CREATE_FLAGS (AddPolicy (rec_message r)))
            (request REPLACE_FLAGS (UpdatePolicy (rec_message r))).

Definition policy_delete (r : PolicyRecord) : io unit :=
  request ACK_FLAGS
    (DeletePolicy (rec_selector r) (rec_direction r)
       (if rec_if_id r =? 0 then [] else [IfId (rec_if_id r)])).

Definition state_delete (id : SaRecord) : io unit :=
  request ACK_FLAGS
    (DeleteSa (rec_destination id) (rec_spi id) (rec_proto id) (rec_family id) [SrcAddr (rec_source id)]).

Definition add_or_update_sa (m : SaMessage) : io unit :=
  or_update (request CREATE_FLAGS (AddSa m)) (request REPLACE_FLAGS (UpdateSa m)).

(** ** Interfaces ([interface.rs]) *)

Definition interface_query (name : string) : io (option XfrmInterface) := fun w =>
  match link_by_name name w with
  | (w', inr (Some message)) => (w', Ok (parse_interface message))
  | (w', inr None) => (w', Ok None)
  | (w', inl e) => if contains_str "No such device" e then (w', Ok None) else (w', Err (netlink_error e))
  end.

(** [resolve_index]. *)
Definition resolve_index (name : string) : io Z :=
  message ← ask (link_by_name name) netlink_error;
  match message with
  | Some message => mret (link_index message)
  | None => throw (IpsecError.xfrm ("underlay interface " +:+ name +:+ " not found"))
  end.

(** The loop of [create] that waits for the link. *)
Fixpoint wait_interface (n : nat) (name : string) (if_id : Z) : io XfrmInterface :=
  match n with
  | O => throw (IpsecError.xfrm ("XFRM interface " +:+ name +:+ " did not appear"))
  | S n =>
      found ← interface_query name;
      match found with
      | Some interface =>
          if xi_if_id interface =? if_id then mret interface
          else throw (IpsecError.xfrm ("interface " +:+ name +:+ " exists with unexpected if_id "
                                       +:+ pretty (xi_if_id interface)))
      | None => modify (sleep_ms 10);; wait_interface n name if_id
      end
  end.

Definition interface_create (name : string) (if_id : Z) (underlay : option string) : io XfrmInterface :=
  base_index ← resolve_index (default "lo" underlay);
  ask (link_add_xfrm name base_index if_id)
    (fun e => IpsecError.xfrm ("create XFRM interface " +:+ name +:+ ": " +:+ e));;
  wait_interface 20 name if_id.

Definition interface_delete (i : XfrmInterface) : io unit :=
  ask (link_del (xi_if_index i))
    (fun e => IpsecError.xfrm ("delete XFRM interface " +:+ xi_name i +:+ ": " +:+ e)).

Definition used_if_ids : io (list Z) :=
  links ← ask link_list netlink_error;
  mret (xi_if_id <$> omap parse_interface links).

(** [while used.contains(&candidate)]: one more step than there are used identifiers. *)
Fixpoint next_if_id (fuel : nat) (used : list Z) (candidate : Z) : outcome IpsecError.t Z :=
  match fuel with
  | O => Diverge
  | S fuel =>
      if bool_decide (candidate ∈ used) then
        let candidate := as_u32 (candidate + 1) in
        if candidate =? 0 then Err (IpsecError.xfrm "no free if_id")
        else next_if_id fuel used candidate
      else Ok candidate
  end.

Definition allocate_if_id : io Z :=
  used ← used_if_ids;
  lift (next_if_id (S (length used)) used 1).

(** ** The manager ([mod.rs]) *)

Record Manager := mkManager {
  world : World;
  interfaces : list (string * XfrmInterface);
  sas : list SaRecord;
  policies : list PolicyRecord;
}.

Abbreviation method := (st Manager IpsecError.t).

Definition put_world (w : World) (m : Manager) : Manager := mkManager w (interfaces m) (sas m) (policies m).
Definition put_interfaces (x : list (string * XfrmInterface)) (m : Manager) : Manager :=
  mkManager (world m) x (sas m) (policies m).
Definition put_sas (x : list SaRecord) (m : Manager) : Manager := mkManager (world m) (interfaces m) x (policies m).
Definition put_policies (x : list PolicyRecord) (m : Manager) : Manager := mkManager (world m) (interfaces m) (sas m) x.

(** [XfrmManager::new], once the sockets are open. *)
Definition manager_new (w : World) : Manager := mkManager w [] [] [].

Definition on_world {A} (f : io A) : method A := fun m =>
  let '(w, r) := f (world m) in (put_world w m, r).

(** [HashMap::insert] and [remove] of an interface, and of an SA. *)
Definition insert_interface (name : string) (i : XfrmInterface) (m : Manager) : Manager :=
  put_interfaces ((name, i) :: List.filter (fun x => negb (bool_decide (x.1 = name))) (interfaces m)) m.
Definition remove_interface_name (name : string) (m : Manager) : Manager :=
  put_interfaces (List.filter (fun x => negb (bool_decide (x.1 = name))) (interfaces m)) m.
Definition insert_sa (id : SaRecord) (m : Manager) : Manager :=
  if bool_decide (id ∈ sas m) then m else put_sas (id :: sas m) m.
Definition remove_sa (id : SaRecord) (m : Manager) : Manager :=
  put_sas (List.filter (fun x => negb (bool_decide (x = id))) (sas m)) m.

Definition ensure_interface (spec : XfrmInterfaceSpec) : method XfrmInterface :=
  if_id ← match spec_if_id spec with
          | Some if_id => mret if_id
          | None => on_world allocate_if_id
          end;
  let name := default ("xfrm" +:+ pretty if_id) (spec_name spec) in
  found ← on_world (interface_query name);
  match found with
  | Some existing =>
      if negb (xi_if_id existing =? if_id) then
        throw (IpsecError.xfrm ("interface " +:+ name +:+ " already exists with if_id "
                                +:+ pretty (xi_if_id existing) +:+ " (requested " +:+ pretty if_id +:+ ")"))
      else
        modify (insert_interface name existing);;
        mret existing
  | None =>
      interface ← on_world (interface_create name if_id (spec_underlay_interface spec));
      modify (insert_interface (xi_name interface) interface);;
      mret interface
  end.

Definition delete_sa (id : SaRecord) : method unit :=
  on_world (state_delete id);;
  modify (remove_sa id).

(** [for record in l { let _ = policy::delete(..).await; }]. *)
Fixpoint delete_all (l : list PolicyRecord) : io unit :=
  match l with
  | [] => mret tt
  | r :: l => ignore (policy_delete r);; delete_all l
  end.

(** [rollback_policies]; the records are cleared by the caller's error. *)
Definition rollback_policies (i : InstalledChildSa) : io unit :=
  delete_all (local_policies i);;
  delete_all (remote_policies i);;
  delete_all (forward_policies i).

Definition with_local (r : PolicyRecord) (i : InstalledChildSa) : InstalledChildSa :=
  mkInstalledChildSa (inst_if_id i) (inst_reqid i) (inst_local_address i) (inst_remote_address i)
    (inst_local_spi i) (inst_remote_spi i) (local_policies i ++ [r]) (remote_policies i) (forward_policies i).
Definition with_remote (r : PolicyRecord) (i : InstalledChildSa) : InstalledChildSa :=
  mkInstalledChildSa (inst_if_id i) (inst_reqid i) (inst_local_address i) (inst_remote_address i)
    (inst_local_spi i) (inst_remote_spi i) (local_policies i) (remote_policies i ++ [r]) (forward_policies i).
Definition with_forward (r : PolicyRecord) (i : InstalledChildSa) : InstalledChildSa :=
  mkInstalledChildSa (inst_if_id i) (inst_reqid i) (inst_local_address i) (inst_remote_address i)
    (inst_local_spi i) (inst_remote_spi i) (local_policies i) (remote_policies i) (forward_policies i ++ [r]).

(** [if let Err(error) = policy::add(..) { rollback; return Err(error) }]. *)
Definition add_or_rollback (r : PolicyRecord) (i : InstalledChildSa) : io unit := fun w =>
  match policy_add r w with
  | (w', Err e) => (rollback_policies i;; throw e) w'
  | x => x
  end.

(** One pair of selectors. *)
Definition install_pair (spec : InstallSpec.t) (local remote : TrafficSelector.t) (i : InstalledChildSa)
  : io InstalledChildSa :=
  out ← lift (policy_build Out local remote spec);
  in_ ← lift (policy_build In remote local spec);
  add_or_rollback out i;;
  let i := with_local out i in
  add_or_rollback in_ i;;
  let i := with_remote in_ i in
  if InstallSpec.forward spec && bool_decide (InstallSpec.mode spec = Tunnel) then
    forward1 ← lift (policy_build Forward local remote spec);
    forward2 ← lift (policy_build Forward remote local spec);
    add_or_rollback forward1 i;;
    let i := with_forward forward1 i in
    add_or_rollback forward2 i;;
    mret (with_forward forward2 i)
  else mret i.

Fixpoint install_pairs (spec : InstallSpec.t) (pairs : list (TrafficSelector.t * TrafficSelector.t))
  (i : InstalledChildSa) : io InstalledChildSa :=
  match pairs with
  | [] => mret i
  | (local, remote) :: pairs => i ← install_pair spec local remote i; install_pairs spec pairs i
  end.

(** The pairs of selectors: [flat_map] over the local ones. *)
Definition selector_pairs (child : ChildSaHandle.t) : list (TrafficSelector.t * TrafficSelector.t) :=
  concat ((fun local => (fun remote => (local, remote)) <$> ChildSaHandle.remote_selectors child)
          <$> ChildSaHandle.local_selectors child).

(** The records of the two states of a Child SA. *)
Definition outbound_id (local remote : IpAddr) (spi family : Z) : SaRecord :=
  mkSaRecord local remote spi IPPROTO_ESP family.
Definition inbound_id (local remote : IpAddr) (spi family : Z) : SaRecord :=
  mkSaRecord remote local spi IPPROTO_ESP family.

(** [if let Err(error) = f { undo; return Err(error) }]. *)
Definition or_undo {A} (f : method A) (undo : method unit) : method A := fun m =>
  match f m with
  | (m', Err e) => (undo;; throw e) m'
  | r => r
  end.

Definition install (child : ChildSaHandle.t) (spec : InstallSpec.t) : method InstalledChildSa :=
  let local := InstallSpec.local_address spec in
  let remote := InstallSpec.remote_address spec in
  if negb (bool_decide (ChildSaHandle.mode child = InstallSpec.mode spec)) then
    throw (IpsecError.xfrm "Child SA mode does not match the install specification")
  else if negb (Bool.eqb (is_ipv4 local) (is_ipv4 remote)) then
    throw (IpsecError.xfrm "local and remote underlay addresses use different families")
  else if match InstallSpec.interface spec with
          | Some i => negb (xi_if_id i =? InstallSpec.if_id spec)
          | None => false
          end then
    throw (IpsecError.xfrm "XFRM interface if_id does not match the install specification")
  else
    outbound ← lift (state_build child spec true);
    inbound ← lift (state_build child spec false);
    let out_id := outbound_id local remote (ChildSaHandle.remote_spi child) (InstallSpec.direction_addr spec) in
    let in_id := inbound_id local remote (ChildSaHandle.local_spi child) (InstallSpec.direction_addr spec) in
    on_world (add_or_update_sa outbound);;
    or_undo (on_world (add_or_update_sa inbound)) (ignore (delete_sa out_id));;
    installed ←
      or_undo
        (on_world (install_pairs spec (selector_pairs child)
                     (mkInstalledChildSa (InstallSpec.if_id spec) (InstallSpec.reqid spec) local remote
                        (ChildSaHandle.local_spi child) (ChildSaHandle.remote_spi child) [] [] [])))
        (ignore (delete_sa in_id);; ignore (delete_sa out_id));
    modify (insert_sa in_id);;
    modify (insert_sa out_id);;
    modify (fun m => put_policies (policies m ++ local_policies installed ++ remote_policies installed
                                   ++ forward_policies installed) m);;
    mret installed.

(** [first_error.get_or_insert(error)]. *)
Definition keep_first (first : option IpsecError.t) (r : outcome IpsecError.t unit) : option IpsecError.t :=
  match first, r with
  | Some e, _ => Some e
  | None, Err e => Some e
  | None, _ => None
  end.

(** Run each step, keeping the first error. *)
Fixpoint each_keeping {A} (f : A -> method unit) (l : list A) (first : option IpsecError.t)
  : method (option IpsecError.t) :=
  match l with
  | [] => mret first
  | x :: l => fun m =>
      match f x m with
      | (m', Panic) => (m', Panic)
      | (m', Diverge) => (m', Diverge)
      | (m', r) => each_keeping f l (keep_first first r) m'
      end
  end.

Definition finish_with (first : option IpsecError.t) : method unit :=
  match first with Some e => throw e | None => mret tt end.

(** The step of [remove] for one policy. *)
Definition remove_policy (r : PolicyRecord) : method unit :=
  on_world (policy_delete r);;
  modify (fun m => put_policies (List.filter (fun owned => negb (bool_decide (owned = r))) (policies m)) m).

Definition remove (i : InstalledChildSa) : method unit :=
  let family := if is_ipv4 (inst_local_address i) then AF_INET else AF_INET6 in
  first ← each_keeping remove_policy (forward_policies i ++ remote_policies i ++ local_policies i) None;
  first ← each_keeping delete_sa
            [inbound_id (inst_local_address i) (inst_remote_address i) (inst_local_spi i) family;
             outbound_id (inst_local_address i) (inst_remote_address i) (inst_remote_spi i) family] first;
  finish_with first.

Definition remove_interface (i : XfrmInterface) : method unit :=
  on_world (interface_delete i);;
  modify (remove_interface_name (xi_name i)).

Definition cleanup_owned : method unit :=
  m ← get;
  first ← each_keeping (fun r => on_world (policy_delete r)) (policies m) None;
  modify (put_policies []);;
  m ← get;
  first ← each_keeping delete_sa (visit_order (sas m)) first;
  modify (put_sas []);;
  m ← get;
  first ← each_keeping (fun i => on_world (interface_delete i)) (visit_order (snd <$> interfaces m)) first;
  modify (put_interfaces []);;
  finish_with first.

End WithKernel.

(** ** Events ([monitor.rs]) *)

Inductive XfrmEvent :=
| Acquire (source destination : IpAddr) (proto spi : Z)
| Expire (reqid spi : Z) (hard : bool)
| PolicyExpire (hard : bool)
| Report (source destination : IpAddr) (proto : Z).

(** The messages of the kernel that are looked at; addresses are 16 octets. *)
Record EventSelector := mkEventSelector { ev_saddr : list Z; ev_daddr : list Z; ev_family : Z }.

Inductive KernelMessage :=
| AcquireMessage (selector : EventSelector) (proto spi : Z)
| ExpireMessage (reqid spi hard : Z)
| PolicyExpireMessage (hard : Z)
| ReportMessage (selector : EventSelector) (proto : Z)
| OtherMessage.

Definition selector_address (address : list Z) (family : Z) : IpAddr :=
  if family =? AF_INET then V4 (take 4 address) else V6 address.

Definition convert (m : KernelMessage) : option XfrmEvent :=
  match m with
  | AcquireMessage s proto spi =>
      Some (Acquire (selector_address (ev_saddr s) (ev_family s)) (selector_address (ev_daddr s) (ev_family s))
              proto spi)
  | ExpireMessage reqid spi hard => Some (Expire reqid spi (negb (hard =? 0)))
  | PolicyExpireMessage hard => Some (PolicyExpire (negb (hard =? 0)))
  | ReportMessage s proto =>
      Some (Report (selector_address (ev_saddr s) (ev_family s)) (selector_address (ev_daddr s) (ev_family s)) proto)
  | OtherMessage => None
  end.

(** [XfrmMonitor::next]: the first message that is an event; [None] is a payload without a
    message.  Nothing when the stream has ended. *)
Fixpoint monitor_next (messages : list (option KernelMessage)) : option (XfrmEvent * list (option KernelMessage)) :=
  match messages with
  | [] => None
  | Some m :: messages => match convert m with Some e => Some (e, messages) | None => monitor_next messages end
  | None :: messages => monitor_next messages
  end.

(** ** What the kernel promises *)

(** The key of an object: a state by destination, SPI, protocol, family and mark; a policy
    by direction, selector, interface identifier and mark. *)
Inductive Key :=
| SaKey (daddr : IpAddr) (spi proto family : Z) (mark : option Mark)
| PolicyKey (direction : Z) (selector : Selector.t) (if_id : Z) (mark : option Mark).

#[global] Instance Key_eq_dec : EqDecision Key.
Proof. solve_decision. Defined.

Definition nla_mark (l : list XfrmAttrs) : option Mark :=
  head (omap (fun a => match a with MarkAttr m => Some m | _ => None end) l).
Definition nla_if_id (l : list XfrmAttrs) : Z :=
  default 0 (head (omap (fun a => match a with IfId i => Some i | _ => None end) l)).

Definition sa_key (m : SaMessage) : Key :=
  let i := user_sa_info m in SaKey (sa_daddr i) (sa_spi i) (sa_proto i) (sa_family i) (nla_mark (sa_nlas m)).
Definition policy_key (m : PolicyMessage) : Key :=
  PolicyKey (policy_direction (user_policy_info m)) (policy_selector (user_policy_info m))
    (nla_if_id (policy_nlas m)) (nla_mark (policy_nlas m)).

Definition message_key (m : XfrmMessage) : Key :=
  match m with
  | AddSa m | UpdateSa m => sa_key m
  | DeleteSa daddr spi proto family nlas => SaKey daddr spi proto family (nla_mark nlas)
  | AddPolicy m | UpdatePolicy m => policy_key m
  | DeletePolicy selector direction nlas => PolicyKey direction selector (nla_if_id nlas) (nla_mark nlas)
  end.

(** What a request that succeeds leaves under its key. *)
Definition message_object (m : XfrmMessage) : option (SaMessage + PolicyMessage) :=
  match m with
  | AddSa m | UpdateSa m => Some (inl m)
  | AddPolicy m | UpdatePolicy m => Some (inr m)
  | DeleteSa _ _ _ _ _ | DeletePolicy _ _ _ => None
  end.

(** A request that succeeds changes what is under its key and nothing else; one that fails
    changes nothing. *)
Class KernelLaws `{Kernel} := {
  object_at : World -> Key -> option (SaMessage + PolicyMessage);
  request_ok flags m w w' : request flags m w = (w', Ok tt) ->
    forall k, object_at w' k = if decide (k = message_key m) then message_object m else object_at w k;
  request_err flags m w w' e : request flags m w = (w', Err e) ->
    forall k, object_at w' k = object_at w k;
}.

(** A deletion fails only when there is nothing to delete: no socket error, no lack of
    permission.  It is a hypothesis of the theorems that need it, not a law. *)
Definition deletions_carried_out `{KernelLaws} : Prop :=
  forall flags m w w' e, request flags m w = (w', Err e) -> message_object m = None ->
    object_at w (message_key m) = None.

Module XfrmFacts.

(** *** Identifiers of interfaces *)

Section IfIds.
Context `{Kernel}.

Lemma prefix_used used c : (forall j, 1 <= j < c -> j ∈ used) -> c - 1 <= Z.of_nat (length used).
Proof.
  intros Hu. destruct (Z.le_gt_cases c 1); [lia|].
  assert (seqZ 1 (c - 1) ⊆+ used) as Hs.
  { apply NoDup_submseteq; [apply NoDup_seqZ|]. intros j Hj%elem_of_seqZ. apply Hu. lia. }
  apply submseteq_length in Hs. rewrite length_seqZ in Hs. lia.
Qed.

Lemma next_if_id_spec fuel used c :
  1 <= c < 2 ^ 32 -> (forall j, 1 <= j < c -> j ∈ used) -> (length used + 1 <= Z.to_nat (c - 1) + fuel)%nat ->
  match next_if_id fuel used c with
  | Ok i => 1 <= i < 2 ^ 32 /\ (i ∉ used) /\ forall j, 1 <= j < i -> j ∈ used
  | Err _ => forall j, 1 <= j < 2 ^ 32 -> j ∈ used
  | Panic | Diverge => False
  end.
Proof.
  revert c. induction fuel as [|fuel IH]; intros c Hc Hu Hf; cbn [next_if_id].
  { pose proof (prefix_used used c Hu). lia. }
  case_bool_decide as Hin; [|split_and!; [lia|lia|done|done]]. unfold as_u32, wrap.
  destruct (Z.eq_dec c (2 ^ 32 - 1)) as [->|Hne].
  { change ((2 ^ 32 - 1 + 1) mod 2 ^ 32 =? 0) with true. intros j Hj.
    destruct (Z.eq_dec j (2 ^ 32 - 1)) as [->|]; [done|]. apply Hu. lia. }
  rewrite Z.mod_small by lia. destruct (Z.eqb_spec (c + 1) 0); [lia|]. apply IH; [lia| |lia].
  intros j Hj. destruct (Z.eq_dec j c) as [->|]; [done|]. apply Hu. lia.
Qed.

(** [allocate_if_id] ends: from the identifiers of the links it answers with the smallest
    positive 32-bit one that is not among them, and reports that there is none only when all
    of them are taken. *)
Theorem allocate_if_id_smallest used :
  match next_if_id (S (length used)) used 1 with
  | Ok i => 1 <= i < 2 ^ 32 /\ (i ∉ used) /\ forall j, 1 <= j < i -> j ∈ used
  | Err _ => forall j, 1 <= j < 2 ^ 32 -> j ∈ used
  | Panic | Diverge => False
  end.
Proof. apply next_if_id_spec; [lia|lia|]. cbn. lia. Qed.

End IfIds.

(** *** What a policy selects *)

Import SelectorSpec PrefixSpec.

(** The packets a selector of the kernel selects. *)
Definition prefix_match (a : IpAddr) (len : Z) (x : IpAddr) : bool :=
  (addr_family x =? addr_family a)
  && (addr_value x / 2 ^ (IpNet.width a - len) =? addr_value a / 2 ^ (IpNet.width a - len)).

Definition selects (s : Selector.t) (src dst : endpoint) : bool :=
  prefix_match (Selector.saddr s) (Selector.prefixlen_s s) (ep_addr src)
  && prefix_match (Selector.daddr s) (Selector.prefixlen_d s) (ep_addr dst)
  && ((Selector.proto s =? 0) || (Selector.proto s =? ep_proto src))
  && (Z.land (Z.lxor (ep_port src) (Selector.sport s)) (Selector.sport_mask s) =? 0)
  && (Z.land (Z.lxor (ep_port dst) (Selector.dport s)) (Selector.dport_mask s) =? 0).

(** The bits above the highest one in which two numbers differ agree. *)
Lemma common_bits x y : 0 <= x -> 0 <= y -> x <> y ->
  x / 2 ^ (Z.log2 (Z.lxor x y) + 1) = y / 2 ^ (Z.log2 (Z.lxor x y) + 1).
Proof.
  intros Hx Hy Hne. set (k := Z.log2 (Z.lxor x y) + 1).
  assert (0 <= Z.lxor x y) by (by apply Z.lxor_nonneg).
  assert (Z.lxor x y <> 0) by (by rewrite Z.lxor_eq_0_iff).
  assert (0 <= k) by (unfold k; pose proof (Z.log2_nonneg (Z.lxor x y)); lia).
  rewrite <- !Z.shiftr_div_pow2 by done. apply Z.lxor_eq_0_iff. rewrite <- Z.shiftr_lxor.
  apply Z.shiftr_eq_0; [done|]. unfold k. lia.
Qed.

(** A range lies within the prefix the code computes for its ends. *)
Lemma range_prefix a b : wf_addr a -> wf_addr b -> addr_family a = addr_family b ->
  addr_value a <= addr_value b ->
  0 <= xfrm_prefix_len a b <= IpNet.width a
  /\ addr_value a / 2 ^ (IpNet.width a - xfrm_prefix_len a b)
     = addr_value b / 2 ^ (IpNet.width a - xfrm_prefix_len a b).
Proof.
  intros Ha Hb Hf Hle. pose proof (addr_value_bound a Ha) as Ba. pose proof (addr_value_bound b Hb) as Bb.
  assert (forall w x y, (w = 32 \/ w = 128) -> 0 <= x < 2 ^ w -> 0 <= y < 2 ^ w -> x <> y ->
    let n := as_u8 (leading_zeros w (Z.lxor x y)) in 0 <= n <= w /\ x / 2 ^ (w - n) = y / 2 ^ (w - n)) as Hmain.
  { intros w x y Hw Hx Hy Hne n. assert (Z.lxor x y <> 0) by (by rewrite Z.lxor_eq_0_iff).
    assert (0 <= Z.lxor x y) by (apply Z.lxor_nonneg; lia).
    assert (Z.log2 (Z.lxor x y) < w) as Hl.
    { eapply Z.le_lt_trans; [apply Z.log2_lxor; lia|].
      apply Z.max_lub_lt; (destruct (Z.eq_dec x 0), (Z.eq_dec y 0); subst; cbn; try lia; apply Z.log2_lt_pow2; lia). }
    pose proof (Z.log2_nonneg (Z.lxor x y)).
    assert (n = w - (Z.log2 (Z.lxor x y) + 1)) as Hn.
    { unfold n, leading_zeros. destruct (Z.eqb_spec (Z.lxor x y) 0); [done|].
      apply wrap_small. unfold fits. change (2 ^ 8) with 256. lia. }
    rewrite Hn. replace (w - (w - (Z.log2 (Z.lxor x y) + 1))) with (Z.log2 (Z.lxor x y) + 1) by lia.
    split; [lia|]. apply common_bits; lia. }
  destruct a as [l|l], b as [m|m]; try discriminate Hf; cbn [xfrm_prefix_len IpNet.width is_ipv4 addr_value] in *;
    (case_bool_decide as He; [subst; split; [lia|done]|]); apply Hmain; auto;
    (intros Hv; apply He; destruct Ha as [Hbl Hll], Hb as [Hbm Hlm]; rewrite <- (to_be_from_be l Hbl),
      <- (to_be_from_be m Hbm); congruence).
Qed.

(** A selector of one family with its ends in order. *)
Definition wf_selector (s : TrafficSelector.t) : Prop :=
  wf_addr (TrafficSelector.start s) /\ wf_addr (TrafficSelector.end_ s) /\ ConfigSpec.valid_selector s.

Lemma range_covered s x : wf_selector s -> TrafficSelector.contains s x = true ->
  prefix_match (TrafficSelector.start s)
    (xfrm_prefix_len (TrafficSelector.start s) (TrafficSelector.end_ s)) x = true.
Proof.
  intros (Ha & Hb & Hf & Hle & _). unfold TrafficSelector.contains, prefix_match.
  rewrite !andb_true_iff, !Z.eqb_eq, !addr_leb_spec in *. intros [[Hfx Hlo] Hhi]. split; [done|].
  destruct (range_prefix _ _ Ha Hb Hf ltac:(lia)) as [Hn He].
  set (k := IpNet.width (TrafficSelector.start s) - _) in *.
  assert (0 < 2 ^ k) by (apply Z.pow_pos_nonneg; lia).
  assert (addr_value (TrafficSelector.start s) <= addr_value x <= addr_value (TrafficSelector.end_ s)) by lia.
  pose proof (Z.div_le_mono (addr_value (TrafficSelector.start s)) (addr_value x) (2 ^ k)).
  pose proof (Z.div_le_mono (addr_value x) (addr_value (TrafficSelector.end_ s)) (2 ^ k)). lia.
Qed.

(** A selector that the kernel can express: the addresses of a prefix, all ports or one. *)
Definition expressible (s : TrafficSelector.t) : Prop :=
  (exists n, wf_net n /\ forall t, TrafficSelector.net n = Ok t ->
     TrafficSelector.start t = TrafficSelector.start s /\ TrafficSelector.end_ t = TrafficSelector.end_ s)
  /\ (TrafficSelector.start_port s = TrafficSelector.end_port s
      \/ TrafficSelector.start_port s = 0 /\ TrafficSelector.end_port s = 65535).

Lemma block_prefix a k h : 0 <= k <= IpNet.width a ->
  addr_value (IpNet.of_value a (h * 2 ^ k)) = h * 2 ^ k ->
  addr_value (IpNet.of_value a (h * 2 ^ k + (2 ^ k - 1))) = h * 2 ^ k + (2 ^ k - 1) ->
  xfrm_prefix_len (IpNet.of_value a (h * 2 ^ k)) (IpNet.of_value a (h * 2 ^ k + (2 ^ k - 1))) = IpNet.width a - k.
Proof.
  intros Hk Hlo Hhi. pose proof (width_pos a).
  assert (forall w x y, IpNet.width a = w -> x = h * 2 ^ k -> y = h * 2 ^ k + (2 ^ k - 1) ->
    as_u8 (leading_zeros w (Z.lxor x y)) = w - k) as Hl.
  { intros w x y Hw -> ->. subst w. rewrite lxor_block, leading_zeros_ones by lia.
    apply wrap_small. unfold fits. change (2 ^ 8) with 256. lia. }
  destruct a as [l|l]; cbn [IpNet.of_value is_ipv4 IpNet.width addr_value] in *; cbn [xfrm_prefix_len];
    (case_bool_decide as He; [rewrite He, Hhi in Hlo; assert (2 ^ k = 1) by lia;
       destruct (Z.eq_dec k 0) as [->|]; [done|];
       assert (2 ^ 1 <= 2 ^ k) by (apply Z.pow_le_mono_r; lia); lia|by apply Hl]).
Qed.

Lemma exact_match s x : expressible s ->
  prefix_match (TrafficSelector.start s)
    (xfrm_prefix_len (TrafficSelector.start s) (TrafficSelector.end_ s)) x = TrafficSelector.contains s x.
Proof.
  intros [(n & Hn & Ht) _]. destruct (SelectorContract.net_contains_iff n x Hn) as (t & Hnet & Hc).
  destruct (Ht t Hnet) as [Hs He]. unfold TrafficSelector.contains in *. rewrite <- Hs, <- He, Hc.
  destruct (net_selector n Hn) as (Hnet' & Hlo & Hhi & Hk). rewrite Hnet in Hnet'. injection Hnet' as ->.
  cbn [TrafficSelector.start TrafficSelector.end_]. unfold prefix_match.
  rewrite block_prefix by done. rewrite of_value_family, Hlo.
  set (a := IpNet.address n) in *. set (k := IpNet.width a - IpNet.prefix_len n) in *.
  assert (IpNet.width (IpNet.of_value a (addr_value a / 2 ^ k * 2 ^ k)) = IpNet.width a) as -> by (by destruct a).
  replace (IpNet.width a - (IpNet.width a - k)) with k by lia.
  rewrite Z.div_mul; [done|]. apply Z.pow_nonzero; lia.
Qed.

Lemma port_covered s e : TrafficSelector.start_port s <= ep_port e -> ep_port e <= TrafficSelector.end_port s ->
  (Z.land (Z.lxor (ep_port e) (TrafficSelector.start_port s))
     (if TrafficSelector.start_port s =? TrafficSelector.end_port s then 65535 else 0) =? 0) = true.
Proof.
  intros Hl Hh. destruct (Z.eqb_spec (TrafficSelector.start_port s) (TrafficSelector.end_port s)) as [He|].
  - assert (ep_port e = TrafficSelector.start_port s) as -> by lia. by rewrite Z.lxor_nilpotent.
  - by rewrite Z.land_0_r.
Qed.

Lemma port_exact s e : expressible s -> u16 (ep_port e) -> u16 (TrafficSelector.start_port s) ->
  (Z.land (Z.lxor (ep_port e) (TrafficSelector.start_port s))
     (if TrafficSelector.start_port s =? TrafficSelector.end_port s then 65535 else 0) =? 0) = true ->
  TrafficSelector.start_port s <= ep_port e /\ ep_port e <= TrafficSelector.end_port s.
Proof.
  intros [_ Hp] He Hs. unfold fits in He, Hs. change (2 ^ 16) with 65536 in *.
  destruct (Z.eqb_spec (TrafficSelector.start_port s) (TrafficSelector.end_port s)) as [Heq|Hne]; [|lia].
  change 65535 with (Z.ones 16). rewrite Z.land_ones by lia. intros Hl%Z.eqb_eq.
  rewrite Z.mod_small in Hl; [rewrite Z.lxor_eq_0_iff in Hl; lia|].
  split; [apply Z.lxor_nonneg; lia|].
  destruct (Z.eq_dec (Z.lxor (ep_port e) (TrafficSelector.start_port s)) 0) as [->|]; [lia|].
  apply Z.log2_lt_pow2; [assert (0 <= Z.lxor (ep_port e) (TrafficSelector.start_port s)) by (apply Z.lxor_nonneg; lia); lia|].
  eapply Z.le_lt_trans; [apply Z.log2_lxor; lia|].
  apply Z.max_lub_lt; (eapply Z.le_lt_trans; [apply (Z.log2_le_mono _ 65535); lia|done]).
Qed.

(** C22: the selector that the backend installs for a pair of traffic selectors selects
    every packet from an endpoint of the one to an endpoint of the other (both endpoints of a
    packet have its protocol; each traffic selector is of one address family with its ends
    in order), so that nothing that was negotiated bypasses the tunnel.  Only the protocol of
    the source selector is installed: the selector selects no other packet when both traffic
    selectors are prefixes with all ports or one port, ports are 16-bit, and the destination
    allows every protocol or names the one of the source.  A range that is not a prefix is
    widened to the prefix around it, a range of ports to all ports, and a protocol that only
    the destination names is not installed. *)
Theorem policy_covers_selectors source destination src dst :
  wf_selector source -> wf_selector destination -> ep_proto src = ep_proto dst ->
  (matches source src = true -> matches destination dst = true ->
   selects (pair_selector source destination) src dst = true)
  /\ (expressible source -> expressible destination ->
      TrafficSelector.protocol destination = 0
      \/ TrafficSelector.protocol destination = TrafficSelector.protocol source ->
      u16 (ep_port src) -> u16 (ep_port dst) ->
      u16 (TrafficSelector.start_port source) -> u16 (TrafficSelector.start_port destination) ->
      selects (pair_selector source destination) src dst = true ->
      matches source src = true /\ matches destination dst = true).
Proof.
  intros Hs Hd Hproto. unfold matches, selects.
  cbn [pair_selector Selector.saddr Selector.daddr Selector.prefixlen_s Selector.prefixlen_d Selector.proto
       Selector.sport Selector.dport Selector.sport_mask Selector.dport_mask].
  rewrite !andb_true_iff, !Z.leb_le. split.
  - intros [[[Hcs Hps] Hls] Hhs] [[[Hcd Hpd] Hld] Hhd].
    split_and!; [by apply range_covered|by apply range_covered|done|by apply port_covered|by apply port_covered].
  - intros Es Ed Hp Us Ud Vs Vd. rewrite !exact_match by done. intros [[[[Hcs Hcd] Hps] Hports] Hportd].
    destruct (port_exact _ _ Es Us Vs Hports), (port_exact _ _ Ed Ud Vd Hportd).
    rewrite <- Hproto. split_and!; try done. destruct Hp as [->| ->]; done.
Qed.

(** A protocol that only the destination names is not installed: a UDP packet is selected for
    a pair that was negotiated for TCP at the destination. *)
Example destination_protocol_ignored :
  let source := TrafficSelector.host (V4 [10; 0; 0; 1]) in
  let destination := TrafficSelector.mk (V4 [10; 9; 9; 9]) (V4 [10; 9; 9; 9]) 6 0 65535 in
  let src := mkEndpoint (V4 [10; 0; 0; 1]) 17 80 in let dst := mkEndpoint (V4 [10; 9; 9; 9]) 17 443 in
  matches destination dst = false /\ selects (pair_selector source destination) src dst = true.
Proof. by vm_compute. Qed.

(** A range of two addresses, negotiated within a configured prefix, is installed as the
    four addresses of the prefix around it. *)
Example range_is_widened :
  let range := TrafficSelector.mk (V4 [10; 0; 0; 1]) (V4 [10; 0; 0; 2]) 0 0 65535 in
  let host := TrafficSelector.host (V4 [10; 9; 9; 9]) in
  TrafficSelector.contains range (V4 [10; 0; 0; 3]) = false
  /\ selects (pair_selector range host) (mkEndpoint (V4 [10; 0; 0; 3]) 6 80) (mkEndpoint (V4 [10; 9; 9; 9]) 6 443) = true.
Proof. by vm_compute. Qed.

Lemma policy_covers_selectors_witness :
  selects (pair_selector (TrafficSelector.host (V4 [10; 0; 0; 1])) (TrafficSelector.host (V4 [10; 9; 9; 9])))
    (mkEndpoint (V4 [10; 0; 0; 1]) 6 80) (mkEndpoint (V4 [10; 9; 9; 9]) 6 443) = true.
Proof.
  apply (proj1 (policy_covers_selectors (TrafficSelector.host (V4 [10; 0; 0; 1])) (TrafficSelector.host (V4 [10; 9; 9; 9]))
    (mkEndpoint (V4 [10; 0; 0; 1]) 6 80) (mkEndpoint (V4 [10; 9; 9; 9]) 6 443)
    ltac:(split_and!; [refine (bool_decide_unpack _ _); vm_compute; exact I..|split; [reflexivity|split; [reflexivity|cbn; lia]]])
    ltac:(split_and!; [refine (bool_decide_unpack _ _); vm_compute; exact I..|split; [reflexivity|split; [reflexivity|cbn; lia]]])
    eq_refl)); vm_compute; reflexivity.
Defined.

(** *** An installation that fails *)

Section Install.
Context {kernel : Kernel} {laws : KernelLaws}.

(** The worlds hold the same objects. *)
Definition same (w w' : World) : Prop := forall k, object_at w' k = object_at w k.

(** The worlds hold the same objects outside of some keys. *)
Definition same_outside (ks : list Key) (w w' : World) : Prop :=
  forall k, k ∉ ks -> object_at w' k = object_at w k.

(** A request returns. *)
Lemma request_ends flags m w : exists w', request flags m w = (w', Ok tt) \/ exists e, request flags m w = (w', Err e).
Proof.
  unfold request, mbind, st_bind, ask, lift. destruct (xfrm_request flags m w) as [w' [e|l]]; exists w'; [by right; eexists|].
  induction l as [|[[c|]| | |] l IH]; cbn; eauto.
Qed.

(** What is known after [or_update]: one key was written, or nothing changed. *)
Lemma or_update_spec add update k w w' r :
  message_key add = k -> message_key update = k ->
  or_update (request CREATE_FLAGS add) (request REPLACE_FLAGS update) w = (w', r) ->
  match r with
  | Ok _ => same_outside [k] w w'
  | Err _ => same w w'
  | Panic | Diverge => False
  end.
Proof.
  intros Ha Hu. unfold or_update.
  assert (forall m w w', message_key m = k -> forall flags, request flags m w = (w', Ok tt) -> same_outside [k] w w') as Hok.
  { intros m v v' Hm flags Hr j Hj. rewrite (request_ok _ _ _ _ Hr).
    rewrite decide_False; [done|]. rewrite Hm. by rewrite list_elem_of_singleton in Hj. }
  destruct (request_ends CREATE_FLAGS add w) as [w1 [H1|[e H1]]]; rewrite H1.
  - intros [= <- <-]. exact (Hok _ _ _ Ha _ H1).
  - pose proof (request_err _ _ _ _ _ H1) as Hs. destruct (is_exists e); [|by intros [= <- <-]].
    destruct (request_ends REPLACE_FLAGS update w1) as [w2 [H2|[e2 H2]]]; rewrite H2; intros [= <- <-].
    + intros j Hj. rewrite (Hok _ _ _ Hu _ H2 j Hj). apply Hs.
    + intros j. by rewrite (request_err _ _ _ _ _ H2).
Qed.

(** The worlds hold the same objects, but under some keys the second holds none. *)
Definition emptied (ks : list Key) (w w' : World) : Prop :=
  forall k, object_at w' k = if decide (k ∈ ks) then None else object_at w k.

Lemma emptied_nil w : emptied [] w w.
Proof. intros k. by rewrite decide_False by apply not_elem_of_nil. Qed.

Lemma emptied_trans ks ks' w w1 w2 : emptied ks w w1 -> emptied ks' w1 w2 -> emptied (ks ++ ks') w w2.
Proof.
  intros H1 H2 k. rewrite H2, H1.
  repeat case_decide; try done; exfalso; rewrite ?elem_of_app in *; tauto.
Qed.

Lemma emptied_equiv ks ks' w w' :
  (forall k, k ∈ ks <-> k ∈ ks') -> emptied ks w w' -> emptied ks' w w'.
Proof. intros Hp H k. rewrite H. by apply decide_ext. Qed.

(** A deletion that succeeds, or one that the kernel carries out, leaves its key empty. *)
Lemma delete_spec flags m w w' r : message_object m = None -> request flags m w = (w', r) ->
  (r = Ok tt \/ deletions_carried_out -> emptied [message_key m] w w')
  /\ (r = Ok tt \/ exists e, r = Err e).
Proof.
  intros Hm Hr. destruct (request_ends flags m w) as [w1 [H1|[e H1]]]; rewrite H1 in Hr; injection Hr as <- <-.
  - split; [|by left]. intros _ k. rewrite (request_ok _ _ _ _ H1), Hm. apply decide_ext.
    by rewrite list_elem_of_singleton.
  - split; [|right; by eexists]. intros [[=]|HD] k. rewrite (request_err _ _ _ _ _ H1).
    case_decide as Hk; [|done]. apply list_elem_of_singleton in Hk as ->. by eapply HD.
Qed.

(** The records the code makes without a mark are deleted under the key they were added with. *)
Definition record_key (r : PolicyRecord) : Key := PolicyKey (rec_direction r) (rec_selector r) (rec_if_id r) None.

Lemma built_key d s t spec r : InstallSpec.mark spec = None -> policy_build d s t spec = Ok r ->
  policy_key (rec_message r) = record_key r.
Proof.
  intros Hm. unfold policy_build. destruct (negb _); [done|]. unfold spec_mark. rewrite Hm.
  destruct d; intros [= <-]; unfold policy_key, record_key; cbn; by destruct (Z.eqb_spec (InstallSpec.if_id spec) 0) as [->|].
Qed.

Lemma policy_delete_spec r w w' x : policy_delete r w = (w', x) ->
  (x = Ok tt \/ deletions_carried_out -> emptied [record_key r] w w') /\ (x = Ok tt \/ exists e, x = Err e).
Proof.
  intros Hd. unfold policy_delete in Hd. apply delete_spec in Hd as [Hk Hx]; [|done]. split; [|done].
  intros H. specialize (Hk H). unfold record_key. cbn in Hk. by destruct (Z.eqb_spec (rec_if_id r) 0) as [->|].
Qed.

Lemma delete_all_spec l w : exists w', delete_all l w = (w', Ok tt)
  /\ (deletions_carried_out -> emptied (record_key <$> l) w w').
Proof.
  revert w. induction l as [|r l IH]; intros w; [exists w; split; [done|intros _; apply emptied_nil]|].
  cbn [delete_all]. unfold mbind at 1, st_bind, ignore.
  destruct (policy_delete r w) as [w1 o] eqn:Hd. apply policy_delete_spec in Hd as [Hk Ho].
  destruct (IH w1) as (w2 & H2 & Hk2).
  exists w2. split; [by destruct Ho as [-> | [e ->]]|].
  intros HD. rewrite fmap_cons. apply (emptied_trans [_] _ w w1 w2); auto.
Qed.

Definition installed_keys (i : InstalledChildSa) : list Key :=
  record_key <$> local_policies i ++ remote_policies i ++ forward_policies i.

Lemma rollback_spec i w : exists w', rollback_policies i w = (w', Ok tt)
  /\ (deletions_carried_out -> emptied (installed_keys i) w w').
Proof.
  unfold rollback_policies, mbind, st_bind.
  destruct (delete_all_spec (local_policies i) w) as (w1 & -> & H1).
  destruct (delete_all_spec (remote_policies i) w1) as (w2 & -> & H2).
  destruct (delete_all_spec (forward_policies i) w2) as (w3 & -> & H3).
  exists w3. split; [done|]. intros HD. unfold installed_keys. rewrite !fmap_app.
  eapply emptied_trans; [by apply H1|]. eapply emptied_trans; [by apply H2|by apply H3].
Qed.

(** What holds while policies are added to the objects of [w0]. *)
Definition adding (w0 w : World) (i : InstalledChildSa) : Prop :=
  same_outside (installed_keys i) w0 w /\ Forall (fun k => object_at w0 k = None) (installed_keys i).

(** A step of the installation: it goes on, or it fails and, the deletions being carried
    out, everything is as it was. *)
Definition step_ok {A} (w0 : World) (r : World * outcome IpsecError.t A) (Q : World -> A -> Prop) : Prop :=
  match r with
  | (w, Ok x) => Q w x
  | (w, Err _) => deletions_carried_out -> same w0 w
  | (_, Panic) | (_, Diverge) => False
  end.

Lemma step_bind {A B} w0 w (f : st World IpsecError.t A) (g : A -> st World IpsecError.t B) P Q :
  step_ok w0 (f w) P -> (forall w' x, P w' x -> step_ok w0 (g x w') Q) -> step_ok w0 ((f ≫= g) w) Q.
Proof. unfold mbind, st_bind. destruct (f w) as [w' [x|e| |]]; cbn; auto. Qed.

Lemma add_or_rollback_spec w0 w r i :
  adding w0 w i -> policy_key (rec_message r) = record_key r -> object_at w0 (record_key r) = None ->
  step_ok w0 (add_or_rollback r i w)
    (fun w' _ => same_outside (record_key r :: installed_keys i) w0 w').
Proof.
  intros [Hs Hn] Hk Hr. unfold add_or_rollback. destruct (policy_add r w) as [w1 o] eqn:Ha.
  pose proof (or_update_spec (AddPolicy (rec_message r)) (UpdatePolicy (rec_message r)) _ _ _ _ Hk Hk Ha) as Ho. destruct o as [[]|e| |]; try done.
  - intros k Hnk. rewrite not_elem_of_cons in Hnk. rewrite (Ho k) by (rewrite list_elem_of_singleton; tauto). apply Hs; tauto.
  - unfold mbind, st_bind. destruct (rollback_spec i w1) as (w2 & -> & H2). cbn. intros HD k.
    rewrite (H2 HD). case_decide as Hin; [rewrite Forall_forall in Hn; by rewrite (Hn k Hin)|]. rewrite (Ho k). by apply Hs.
Qed.

Lemma step_add w0 w r i i' :
  adding w0 w i -> policy_key (rec_message r) = record_key r -> object_at w0 (record_key r) = None ->
  (forall k, k ∈ installed_keys i' <-> k = record_key r \/ k ∈ installed_keys i) ->
  step_ok w0 (add_or_rollback r i w) (fun w' _ => adding w0 w' i').
Proof.
  intros Hi Hk Hr Hkeys. pose proof (add_or_rollback_spec w0 w r i Hi Hk Hr) as Ha.
  destruct (add_or_rollback r i w) as [w' [[]|e| |]]; try done. cbn in *. split.
  - intros k Hn. apply Ha. rewrite elem_of_cons. intros [?|?]; apply Hn, Hkeys; auto.
  - apply Forall_forall. intros k [->|Hin]%Hkeys; [done|]. destruct Hi as [_ Hn].
    rewrite Forall_forall in Hn. by apply Hn.
Qed.

Lemma lift_ok {A B} w0 w (o : outcome IpsecError.t A) x (g : A -> st World IpsecError.t B) Q :
  o = Ok x -> step_ok w0 (g x w) Q -> step_ok w0 ((lift o ≫= g) w) Q.
Proof. by intros ->. Qed.

(** The addresses and SPIs of an installed Child SA. *)
Definition endpoints (i : InstalledChildSa) : IpAddr * IpAddr * Z * Z :=
  (inst_local_address i, inst_remote_address i, inst_local_spi i, inst_remote_spi i).

(** The policies of a pair. *)
Definition pair_records (spec : InstallSpec.t) (p : TrafficSelector.t * TrafficSelector.t) : list PolicyRecord :=
  let built d s t := match policy_build d s t spec with Ok r => [r] | _ => [] end in
  built Out p.1 p.2 ++ built In p.2 p.1 ++ built Forward p.1 p.2 ++ built Forward p.2 p.1.

Lemma build_succeeds d s t spec : TrafficSelector.family s = TrafficSelector.family t ->
  exists r, policy_build d s t spec = Ok r.
Proof. intros Hf. unfold policy_build. rewrite Hf, Z.eqb_refl. destruct d; by eexists. Qed.

Lemma keys_with r i : forall k,
  (k ∈ installed_keys (with_local r i) <-> k = record_key r \/ k ∈ installed_keys i)
  /\ (k ∈ installed_keys (with_remote r i) <-> k = record_key r \/ k ∈ installed_keys i)
  /\ (k ∈ installed_keys (with_forward r i) <-> k = record_key r \/ k ∈ installed_keys i).
Proof.
  intros k. unfold installed_keys. cbn [local_policies remote_policies forward_policies with_local with_remote with_forward].
  rewrite !fmap_app, !elem_of_app. cbn. rewrite !list_elem_of_singleton. tauto.
Qed.

Lemma install_pair_spec spec w0 w local remote i :
  InstallSpec.mark spec = None -> TrafficSelector.family local = TrafficSelector.family remote ->
  Forall (fun r => object_at w0 (record_key r) = None) (pair_records spec (local, remote)) -> adding w0 w i ->
  step_ok w0 (install_pair spec local remote i w) (fun w' i' => adding w0 w' i' /\ endpoints i' = endpoints i).
Proof.
  intros Hm Hf Hn Hi. unfold install_pair, pair_records in *. cbn [fst snd] in Hn.
  destruct (build_succeeds Out local remote spec Hf) as [o Ho].
  destruct (build_succeeds In remote local spec (eq_sym Hf)) as [n Hin].
  destruct (build_succeeds Forward local remote spec Hf) as [f1 Hf1].
  destruct (build_succeeds Forward remote local spec (eq_sym Hf)) as [f2 Hf2].
  rewrite Ho, Hin, Hf1, Hf2 in Hn. cbn in Hn. rewrite !Forall_cons in Hn. destruct Hn as (Ko & Kn & K1 & K2 & _).
  pose proof (fun d s t r => built_key d s t spec r Hm) as Hkey.
  eapply lift_ok; [exact Ho|]. eapply lift_ok; [exact Hin|].
  eapply step_bind; [apply (step_add w0 w o i (with_local o i)); [done|by eapply Hkey|done|apply keys_with]|].
  intros w1 [] H1. cbn beta in H1.
  eapply step_bind; [apply (step_add w0 w1 n _ (with_remote n (with_local o i))); [done|by eapply Hkey|done|apply keys_with]|].
  intros w2 [] H2. cbn beta in H2. destruct (_ && _); [|done].
  eapply lift_ok; [exact Hf1|]. eapply lift_ok; [exact Hf2|].
  eapply step_bind; [apply (step_add w0 w2 f1 _ (with_forward f1 (with_remote n (with_local o i))));
    [done|by eapply Hkey|done|apply keys_with]|].
  intros w3 [] H3. cbn beta in H3.
  eapply step_bind; [apply (step_add w0 w3 f2 _ (with_forward f2 (with_forward f1 (with_remote n (with_local o i)))));
    [done|by eapply Hkey|done|apply keys_with]|].
  done.
Qed.

Lemma install_pairs_spec spec w0 pairs w i :
  InstallSpec.mark spec = None ->
  Forall (fun p => TrafficSelector.family p.1 = TrafficSelector.family p.2) pairs ->
  Forall (fun r => object_at w0 (record_key r) = None) (concat (pair_records spec <$> pairs)) -> adding w0 w i ->
  step_ok w0 (install_pairs spec pairs i w) (fun w' i' => adding w0 w' i' /\ endpoints i' = endpoints i).
Proof.
  intros Hm. revert w i. induction pairs as [|[local remote] pairs IH]; intros w i Hf Hn Hi; [done|].
  apply Forall_cons in Hf as [Hf Hfs]. rewrite fmap_cons in Hn. cbn [concat] in Hn. apply Forall_app in Hn as [Hn Hns].
  cbn [install_pairs]. eapply step_bind; [by apply install_pair_spec|]. intros w' i' [Hi' He']. rewrite <- He'.
  by apply IH.
Qed.

(** The keys of the two states of a Child SA. *)
Definition out_key (child : ChildSaHandle.t) (spec : InstallSpec.t) : Key :=
  SaKey (InstallSpec.remote_address spec) (ChildSaHandle.remote_spi child) IPPROTO_ESP (InstallSpec.direction_addr spec) None.
Definition in_key (child : ChildSaHandle.t) (spec : InstallSpec.t) : Key :=
  SaKey (InstallSpec.local_address spec) (ChildSaHandle.local_spi child) IPPROTO_ESP (InstallSpec.direction_addr spec) None.

(** Attributes without a mark. *)
Definition unmarked (a : XfrmAttrs) : Prop := match a with MarkAttr _ => False | _ => True end.

Lemma nla_unmarked l : Forall unmarked l -> nla_mark l = None.
Proof.
  unfold nla_mark. induction 1 as [|a l Ha _ IH]; [done|]. destruct a; try done; exact IH.
Qed.

Lemma encryption_unmarked a key t : encryption_transform a key = Ok t -> unmarked t.
Proof. unfold encryption_transform. case_match; intros (? & _ & Hx)%bind_ok; by injection Hx as <-. Qed.

Lemma integrity_unmarked a key t : integrity_transform a key = Ok t -> unmarked t.
Proof.
  unfold integrity_transform. intros ([name trunc] & _ & Hp)%bind_ok. apply bind_ok in Hp as (? & _ & Hp).
  by injection Hp as <-.
Qed.

Lemma integrity_list_unmarked (a : option IntegrityAlgorithm.t) (k : option (list Z)) l :
  match a, k with
  | Some algorithm, Some key => t ← integrity_transform algorithm key; Ok [t]
  | _, _ => Ok []
  end = Ok l -> Forall unmarked l.
Proof.
  destruct a as [a|], k as [k|]; try (by intros [= <-]).
  intros (t & Ht & Hl)%bind_ok. injection Hl as <-. constructor; [by eapply integrity_unmarked|constructor].
Qed.

Lemma state_build_key child spec outbound m :
  InstallSpec.mark spec = None -> is_ipv4 (InstallSpec.local_address spec) = is_ipv4 (InstallSpec.remote_address spec) ->
  state_build child spec outbound = Ok m -> sa_key m = if outbound then out_key child spec else in_key child spec.
Proof.
  intros Hm Hf Hb.
  assert (nla_mark (sa_nlas m) = None) as Hn.
  { unfold state_build, spec_mark in Hb. rewrite Hm in Hb.
    destruct outbound; apply bind_ok in Hb as (sel & _ & Hb); apply bind_ok in Hb as (enc & He & Hb);
      apply bind_ok in Hb as (int & Hi & Hb); injection Hb as <-; cbn [sa_nlas]; apply nla_unmarked;
      apply integrity_list_unmarked in Hi;
      (constructor; [by eapply encryption_unmarked|]); rewrite !Forall_app; split_and!; try done;
      case_match; by repeat constructor. }
  unfold state_build in Hb. unfold sa_key. rewrite Hn. unfold out_key, in_key, InstallSpec.direction_addr.
  destruct outbound; apply bind_ok in Hb as (sel & _ & Hb); apply bind_ok in Hb as (enc & _ & Hb);
    apply bind_ok in Hb as (int & _ & Hb); injection Hb as <-; cbn [user_sa_info sa_daddr sa_spi sa_proto sa_family];
    by rewrite ?Hf.
Qed.

(** The key under which a state is deleted. *)
Definition id_key (id : SaRecord) : Key :=
  SaKey (rec_destination id) (rec_spi id) (rec_proto id) (rec_family id) None.

Lemma delete_sa_step id m : exists m' x, delete_sa id m = (m', x) /\ (x = Ok tt \/ exists e, x = Err e)
  /\ (x = Ok tt \/ deletions_carried_out -> emptied [id_key id] (world m) (world m')).
Proof.
  unfold delete_sa, mbind, st_bind, on_world. destruct (state_delete id (world m)) as [w x] eqn:Hd.
  unfold state_delete in Hd. apply delete_spec in Hd as [Hk Hx]; [|done].
  destruct Hx as [-> |[e ->]]; eexists _, _; (split; [done|]); (split; [eauto|]).
  - intros _. apply Hk. by left.
  - intros [[=]|HD]. apply Hk. by right.
Qed.

(** Deleting a state and ignoring the outcome. *)
Lemma undo_sa_spec id m : exists m', ignore (delete_sa id) m = (m', Ok tt)
  /\ (deletions_carried_out -> emptied [id_key id] (world m) (world m')).
Proof.
  unfold ignore. destruct (delete_sa_step id m) as (m' & x & -> & [-> |[e ->]] & Hk);
    (exists m'; split; [done|auto]).
Qed.

Lemma add_sa_spec msg w w' r : add_or_update_sa msg w = (w', r) ->
  match r with
  | Ok _ => same_outside [sa_key msg] w w'
  | Err _ => same w w'
  | Panic | Diverge => False
  end.
Proof. intros Hr. exact (or_update_spec (AddSa msg) (UpdateSa msg) _ _ _ _ eq_refl eq_refl Hr). Qed.

(** What must not be in the kernel before: the states and policies of the Child SA. *)
Definition fresh (child : ChildSaHandle.t) (spec : InstallSpec.t) (w : World) : Prop :=
  object_at w (out_key child spec) = None /\ object_at w (in_key child spec) = None
  /\ Forall (fun r => object_at w (record_key r) = None) (concat (pair_records spec <$> selector_pairs child)).

(** The objects are those of [w], less those under [ks]. *)
Lemma undo_outside ks w w1 w2 :
  same_outside ks w w1 -> Forall (fun k => object_at w k = None) ks -> emptied ks w1 w2 -> same w w2.
Proof.
  intros Hs Hn H2 k. rewrite H2. case_decide as Hk; [|by apply Hs].
  rewrite Forall_forall in Hn. by rewrite (Hn k Hk).
Qed.

Lemma undo_both child spec m m1 w2 :
  fresh child spec (world m) -> world m1 = w2 ->
  exists ma mb,
    ignore (delete_sa (inbound_id (InstallSpec.local_address spec) (InstallSpec.remote_address spec)
                         (ChildSaHandle.local_spi child) (InstallSpec.direction_addr spec))) m1 = (ma, Ok tt)
    /\ ignore (delete_sa (outbound_id (InstallSpec.local_address spec) (InstallSpec.remote_address spec)
                            (ChildSaHandle.remote_spi child) (InstallSpec.direction_addr spec))) ma = (mb, Ok tt)
    /\ (same_outside [in_key child spec; out_key child spec] (world m) w2 ->
        deletions_carried_out -> same (world m) (world mb)).
Proof.
  intros (Ho & Hi & _) <-.
  set (in_id := inbound_id _ _ _ _). set (out_id := outbound_id _ _ _ _).
  destruct (undo_sa_spec in_id m1) as (ma & Ha & Ka). destruct (undo_sa_spec out_id ma) as (mb & Hb & Kb).
  exists ma, mb. split; [done|]. split; [done|]. intros Hs HD.
  eapply undo_outside; [exact Hs|by repeat constructor|].
  apply (emptied_trans [in_key child spec] [out_key child spec] _ (world ma)); [by apply Ka|by apply Kb].
Qed.

(** The keys of an installed Child SA, as [remove] computes them. *)
Definition family_of (i : InstalledChildSa) : Z := if is_ipv4 (inst_local_address i) then AF_INET else AF_INET6.
Definition state_keys (i : InstalledChildSa) : list Key :=
  [SaKey (inst_local_address i) (inst_local_spi i) IPPROTO_ESP (family_of i) None;
   SaKey (inst_remote_address i) (inst_remote_spi i) IPPROTO_ESP (family_of i) None].

(** What [install] does: nothing when it fails; else it touches the keys it returns, which
    were free. *)
Lemma install_outcome child spec m m' r :
  InstallSpec.mark spec = None ->
  Forall (fun p => TrafficSelector.family p.1 = TrafficSelector.family p.2) (selector_pairs child) ->
  fresh child spec (world m) ->
  install child spec m = (m', r) ->
  match r with
  | Ok i => same_outside (state_keys i ++ installed_keys i) (world m) (world m')
            /\ Forall (fun k => object_at (world m) k = None) (state_keys i ++ installed_keys i)
  | Err _ => deletions_carried_out -> same (world m) (world m')
  | Panic | Diverge => True
  end.
Proof.
  intros Hm Hf Hfresh. unfold install. destruct (negb (bool_decide _)); [by intros [= <- <-]|].
  destruct (Bool.eqb (is_ipv4 (InstallSpec.local_address spec)) _) eqn:Hv; [|by intros [= <- <-]].
  apply eqb_prop in Hv. cbn [negb]. case_match; [by intros [= <- <-]|].
  unfold mbind at 1, st_bind, lift. destruct (state_build child spec true) as [outbound|eo| |] eqn:Hout;
    try (by intros [= <- <-]).
  unfold mbind at 1, st_bind. destruct (state_build child spec false) as [inbound|ei| |] eqn:Hin;
    try (by intros [= <- <-]).
  apply (state_build_key _ _ _ _ Hm Hv) in Hout, Hin. cbv beta iota zeta.
  pose proof Hfresh as (Ho & Hi & Hp).
  unfold mbind at 1, st_bind, on_world at 1.
  destruct (add_or_update_sa outbound (world m)) as [w1 r1] eqn:H1. apply add_sa_spec in H1. rewrite Hout in H1.
  destruct r1 as [[]|e1| |]; try done; [|by intros [= <- <-]].
  unfold mbind at 1, st_bind, or_undo at 1, on_world at 1. cbn [world put_world].
  destruct (add_or_update_sa inbound w1) as [w2 r2] eqn:H2. apply add_sa_spec in H2. rewrite Hin in H2.
  destruct r2 as [[]|e2| |]; try done.
  - assert (same_outside [in_key child spec; out_key child spec] (world m) w2) as Hs2.
    { intros k Hk. rewrite !not_elem_of_cons in Hk. rewrite (H2 k), (H1 k); [done|..];
        rewrite list_elem_of_singleton; tauto. }
    unfold mbind at 1, st_bind, or_undo, on_world at 1. cbn [world put_world].
    match goal with |- context [install_pairs _ _ ?i w2] =>
      assert (step_ok w2 (install_pairs spec (selector_pairs child) i w2)
        (fun w' i' => adding w2 w' i' /\ endpoints i' = endpoints i)) as Hx end.
    { apply install_pairs_spec; [done|done| |split; [done|constructor]].
      eapply Forall_impl; [exact Hp|]. intros x Hr. rewrite Hs2; [done|]. rewrite !not_elem_of_cons.
      split_and!; [done|done|apply not_elem_of_nil]. }
    destruct (install_pairs _ _ _ w2) as [w3 [i|e3| |]]; try done; cbn in Hx.
    + intros [= <- <-]. destruct Hx as [[Hs3 Hn3] Hend].
      assert (state_keys i = [in_key child spec; out_key child spec]) as Hkeys.
      { injection Hend as Ea Eb Ec Ed. unfold state_keys, family_of, in_key, out_key, InstallSpec.direction_addr.
        by rewrite Ea, Eb, Ec, Ed. }
      rewrite Hkeys. unfold insert_sa. repeat case_bool_decide; cbn [world put_world put_sas put_policies];
        (split; [intros k Hk; apply not_elem_of_app in Hk as [Hk1 Hk2]; rewrite (Hs3 k Hk2); by apply Hs2|]);
        (apply Forall_app; split; [by repeat constructor|]);
        (apply Forall_forall; intros k Hk; rewrite Forall_forall in Hn3; rewrite <- Hs2; [by apply Hn3|]);
        (unfold installed_keys in Hk; apply list_elem_of_fmap in Hk as (x & -> & _);
         by rewrite !not_elem_of_cons; split_and!; [done|done|apply not_elem_of_nil]).
    + destruct (undo_both child spec m (put_world w3 (put_world w2 (put_world w1 m))) w3 Hfresh eq_refl)
        as (ma & mb & Ha & Hb & Hsame).
      unfold mbind, st_bind. rewrite Ha. cbv beta iota. rewrite Hb. intros [= <- <-] HD.
      apply Hsame; [|done]. intros k Hk. rewrite (Hx HD). by apply Hs2.
  - set (out_id := outbound_id _ _ _ _).
    destruct (undo_sa_spec out_id (put_world w2 (put_world w1 m))) as (m2 & Hu & Ku).
    unfold mbind, st_bind. rewrite Hu. intros [= <- <-] HD.
    eapply (undo_outside [out_key child spec] (world m) w2); [|by repeat constructor|by apply Ku].
    intros k Hk. rewrite (H2 k). by apply H1.
Qed.

(** C19: when the installation of a Child SA fails, at any of its requests, the states and
    policies of the kernel are as they were: what was added on the way has been removed.
    The hypotheses: no mark is configured, the two selectors of every pair are of one
    address family, the keys of the states and policies of the Child SA were free, and the
    kernel carries out the deletion of what exists. *)
Theorem failed_install_leaves_nothing child spec m m' e :
  InstallSpec.mark spec = None ->
  Forall (fun p => TrafficSelector.family p.1 = TrafficSelector.family p.2) (selector_pairs child) ->
  fresh child spec (world m) -> deletions_carried_out ->
  install child spec m = (m', Err e) -> same (world m) (world m').
Proof. intros Hm Hf Hfresh HD Hi. exact (install_outcome child spec m m' (Err e) Hm Hf Hfresh Hi HD). Qed.

(** *** Removal *)

(** Steps that delete the object under a key; the first error is kept. *)
Lemma each_keeping_spec {A} (f : A -> st Manager IpsecError.t unit) (key : A -> Key) l first m :
  (forall x m, exists m' r, f x m = (m', r) /\ (r = Ok tt \/ exists e, r = Err e)
    /\ (r = Ok tt \/ deletions_carried_out -> emptied [key x] (world m) (world m'))) ->
  exists m' first', each_keeping f l first m = (m', Ok first')
    /\ (first' = None -> first = None)
    /\ (first' = None \/ deletions_carried_out -> emptied (key <$> l) (world m) (world m')).
Proof.
  intros Hf. revert first m. induction l as [|x l IH]; intros first m; cbn [each_keeping].
  { exists m, first. split; [done|]. split; [done|]. intros _. apply emptied_nil. }
  destruct (Hf x m) as (m1 & r & -> & Hr & Hk).
  destruct (IH (keep_first first r) m1) as (m2 & f2 & H2 & Hn & Hk2).
  exists m2, f2. split; [by destruct Hr as [->|[e ->]]|].
  assert (f2 = None -> first = None /\ r = Ok tt) as Hnone.
  { intros Hf2%Hn. destruct first; [done|]. destruct Hr as [->|[e ->]]; done. }
  split; [intros ?; by apply Hnone|]. intros HD. rewrite fmap_cons.
  apply (emptied_trans [_] _ _ (world m1)); [|by apply Hk2].
  apply Hk. destruct HD as [Hx|HD]; [left; by apply Hnone|by right].
Qed.

Lemma remove_policy_step r m : exists m' x, remove_policy r m = (m', x) /\ (x = Ok tt \/ exists e, x = Err e)
  /\ (x = Ok tt \/ deletions_carried_out -> emptied [record_key r] (world m) (world m')).
Proof.
  unfold remove_policy, mbind, st_bind, on_world. destruct (policy_delete r (world m)) as [w x] eqn:Hd.
  apply policy_delete_spec in Hd as [Hk Hx].
  destruct Hx as [-> |[e ->]]; eexists _, _; (split; [done|]); (split; [eauto|]).
  - intros _. apply Hk. by left.
  - intros [[=]|HD]. apply Hk. by right.
Qed.

Lemma remove_exact i m : exists m' r, remove i m = (m', r)
  /\ (r = Ok tt \/ deletions_carried_out -> emptied (state_keys i ++ installed_keys i) (world m) (world m')).
Proof.
  unfold remove. fold (family_of i).
  destruct (each_keeping_spec remove_policy record_key (forward_policies i ++ remote_policies i ++ local_policies i) None m
    remove_policy_step) as (m1 & f1 & H1 & _ & K1).
  destruct (each_keeping_spec delete_sa id_key
    [inbound_id (inst_local_address i) (inst_remote_address i) (inst_local_spi i) (family_of i);
     outbound_id (inst_local_address i) (inst_remote_address i) (inst_remote_spi i) (family_of i)] f1 m1
    delete_sa_step) as (m2 & f2 & H2 & Hn & K2).
  unfold mbind, st_bind. rewrite H1, H2. cbv beta iota. exists m2. unfold finish_with.
  assert (f2 = None \/ deletions_carried_out ->
    emptied (state_keys i ++ installed_keys i) (world m) (world m2)) as Hboth.
  { intros HD. eapply emptied_equiv; [|eapply emptied_trans; [apply K1|apply K2, HD]].
    - intros k. unfold installed_keys. rewrite !fmap_app, !elem_of_app.
      change (id_key <$> _) with (state_keys i). tauto.
    - destruct HD as [->|HD]; [left; by apply Hn|by right]. }
  destruct f2; eexists; (split; [done|]); [intros [[=]|HD]|intros _]; apply Hboth; auto.
Qed.

(** C18: installing a Child SA and removing what was installed leaves the states and policies
    of the kernel as they were, when the removal returns without an error, and also when a
    deletion reports one, provided the kernel carries out the deletion of what exists.  The
    hypotheses: no mark is configured, the two selectors of every pair are of one address
    family, and the keys of the states and policies of the Child SA were free before. *)
Theorem install_then_remove child spec m m1 i m2 r :
  InstallSpec.mark spec = None ->
  Forall (fun p => TrafficSelector.family p.1 = TrafficSelector.family p.2) (selector_pairs child) ->
  fresh child spec (world m) ->
  install child spec m = (m1, Ok i) -> remove i m1 = (m2, r) ->
  r = Ok tt \/ deletions_carried_out -> same (world m) (world m2).
Proof.
  intros Hm Hf Hfresh Hi Hr HD. destruct (install_outcome _ _ _ _ _ Hm Hf Hfresh Hi) as [Hs Hn].
  destruct (remove_exact i m1) as (m3 & r3 & Hr3 & Hk). rewrite Hr in Hr3. injection Hr3 as <- <-.
  eapply undo_outside; [exact Hs|exact Hn|by apply Hk].
Qed.

End Install.

End XfrmFacts.
