(* ===== verification/DaemonNet.v ===== *)
(** * Addresses, routes and DNS of the daemon

    [src/src/daemon/ip.rs], [src/src/daemon/dhcp.rs], and the functions of
    [src/src/daemon/main.rs] that group the configured networks by interface, pick the
    authentication of a wired port and apply a network configuration.  Netlink, the files
    under [/proc] and [/etc], and the DHCP client of [mozim] are the class [NetOps]; an
    error is the text it prints.  [Module DaemonNetFacts]: where a default route goes, what
    the grouping keeps, and that a port that was loaded can start. *)

From S2P Require Import Prelude Errors Net IpText WifiConfig Mka.
From S2P Require Import TrafficSelector Identity IpsecConfig DaemonConfig.
From S2P Require Import IkeProposals IkeCrypto IkeSa Xfrm.
From S2P Require Import Eap Macsec MkaSession Wired.

(** A route: destination, prefix length, gateway, metric and output interface. *)
Record Route := mkRoute {
  rt_destination : IpAddr;
  rt_prefix : Z;
  rt_gateway : option IpAddr;
  rt_metric : option Z;
  rt_oif : Z;
}.

#[global] Instance Route_eq_dec : EqDecision Route.
Proof. solve_decision. Defined.

(** A route as the kernel lists it. *)
Inductive RouteAttribute :=
| RtTable (table : Z)
| RtGateway (address : IpAddr)
| RtPriority (metric : Z)
| RtOif (index : Z)
| RtOther.

Record RouteMessage := mkRouteMessage {
  destination_prefix_length : Z;
  is_unicast : bool;
  route_attributes : list RouteAttribute;
}.

(** A lease of [mozim]. *)
Record DhcpLease := mkDhcpLease {
  yiaddr : list Z;
  lease_prefix_length : Z;
  gateways : option (list (list Z));
  classless_routes : option (list (list Z * Z * list Z));
  dns_srvs : option (list (list Z));
}.

Inductive DhcpState := DhcpDone (lease : DhcpLease) | DhcpOther.

Class NetOps (Net : Type) := {
  (** [rtnetlink::new_connection]. *)
  rtnl_connect : Net -> Net * (string + unit);
  (** The index of the link with a name. *)
  link_index_of : string -> Net -> Net * (string + option Z);
  (** [address().add(..)], with or without [replace()]. *)
  address_add : bool -> Z -> IpAddr -> Z -> Net -> Net * (string + unit);
  route_add : Route -> Net -> Net * (string + unit);
  route_del : Route -> Net -> Net * (string + unit);
  route_list : Net -> Net * (string + list RouteMessage);
  (** [std::fs::write]. *)
  write_file : string -> string -> Net -> Net * (string + unit);
  (** [DhcpV4Client::init] and [run]. *)
  DhcpClient : Type;
  dhcp_init : string -> Z -> Net -> Net * (string + DhcpClient);
  dhcp_run : DhcpClient -> Net -> DhcpClient * Net * (string + DhcpState);
}.

Section WithNet.
Context {Net : Type} {ops : NetOps Net}.

Abbreviation net := (st Net WifiError.t).

Definition nl_error (prefix e : string) : WifiError.t := WifiError.new WifiError.Nl80211 (prefix +:+ e).

Definition net_ask {A} (op : Net -> Net * (string + A)) (err : string -> WifiError.t) : net A :=
  fun w => let '(w', r) := op w in (w', match r with inl e => Err (err e) | inr a => Ok a end).

(** ** [ip.rs] *)

(** [resolve_if_index]. *)
Definition resolve_if_index (iface_name : string) : net Z :=
  index ← net_ask (link_index_of iface_name) (nl_error "link get: ");
  match index with
  | Some index => mret index
  | None => throw (WifiError.new WifiError.InterfaceNotFound ("interface " +:+ iface_name +:+ " not found"))
  end.

(** The loop over the attributes of one route. *)
Definition read_attribute (acc : option IpAddr * option Z * option Z) (a : RouteAttribute)
  : option IpAddr * option Z * option Z :=
  let '(gateway, metric, oif) := acc in
  match a with
  | RtGateway address => (Some address, metric, oif)
  | RtPriority m => (gateway, Some m, oif)
  | RtOif index => (gateway, metric, Some index)
  | RtTable _ | RtOther => acc
  end.

Definition route_table (l : list RouteAttribute) : option Z :=
  head (omap (fun a => match a with RtTable t => Some t | _ => None end) l).

(** One message of [current_default_routes]. *)
Definition default_route_of (m : RouteMessage) : option (IpAddr * option Z * Z) :=
  if match route_table (route_attributes m) with Some table => negb (table =? 254) | None => false end then None
  else if negb (destination_prefix_length m =? 0) || negb (is_unicast m) then None
  else
    let '(gateway, metric, oif) := fold_left read_attribute (route_attributes m) (None, None, None) in
    gateway ← gateway; Some (gateway, metric, default 0 oif).

Definition current_default_routes : net (list (IpAddr * option Z * Z)) :=
  routes ← net_ask route_list (nl_error "route get: ");
  mret (omap default_route_of routes).

(** [u32::saturating_add]. *)
Definition saturating_add (x y : Z) : Z := Z.min (x + y) (2 ^ 32 - 1).

(** [Iterator::max]. *)
Definition max_metric (l : list Z) : option Z :=
  match l with [] => None | x :: l => Some (fold_left Z.max l x) end.

(** The metric of a new default route. *)
Definition new_metric (existing : list (IpAddr * option Z * Z)) : option Z :=
  match existing with
  | [] => None
  | _ => Some (match max_metric (omap (fun r => r.1.2) existing) with
               | Some m => saturating_add m 1
               | None => 500
               end)
  end.

Definition unspecified (a : IpAddr) : IpAddr :=
  match a with V4 _ => V4 (replicate 4 0) | V6 _ => V6 (replicate 16 0) end.

Definition add_default_route (if_index : Z) (gateway : IpAddr) : net unit :=
  existing ← current_default_routes;
  if existsb (fun r => bool_decide (r.1.1 = gateway) && (r.2 =? if_index)) existing then mret tt
  else fun w =>
    match net_ask (route_add (mkRoute (unspecified gateway) 0 (Some gateway) (new_metric existing) if_index))
            (nl_error ("route add via " +:+ ip_string gateway +:+ ": ")) w with
    | (w', Err e) => if contains_str "File exists" (WifiError.to_string e) then (w', Ok tt) else (w', Err e)
    | r => r
    end.

(** [ip::add_route]. *)
Definition add_route (if_index : Z) (destination : list Z) (prefix_length : Z) (gateway : list Z) : net unit :=
  net_ask (route_add (mkRoute (V4 destination) prefix_length (Some (V4 gateway)) None if_index))
    (nl_error ("route add " +:+ ipv4_string destination +:+ "/" +:+ pretty prefix_length +:+ " via "
               +:+ ipv4_string gateway +:+ ": ")).

Fixpoint add_addresses (if_index : Z) (l : list IpAddress) : net unit :=
  match l with
  | [] => mret tt
  | a :: l =>
      ip ← match parse_ip (ip a) with
           | Some x => mret x
           | None => throw (WifiError.new WifiError.InvalidConfig ("invalid IP " +:+ ip a +:+ ": " +:+ ADDR_PARSE_ERROR))
           end;
      net_ask (address_add true if_index ip (prefix_length a)) (nl_error ("addr add " +:+ DaemonConfig.ip a +:+ ": "));;
      add_addresses if_index l
  end.

Definition apply_static_ip (if_index : Z) (ip_cfg : IpConfig) (is_ipv6 : bool) : net unit :=
  add_addresses if_index (address ip_cfg);;
  match gateway ip_cfg with
  | None => mret tt
  | Some text =>
      match parse_ip text with
      | None => throw (WifiError.new WifiError.InvalidConfig ("invalid gateway " +:+ text +:+ ": " +:+ ADDR_PARSE_ERROR))
      | Some gw =>
          if negb (Bool.eqb (is_ipv4 gw) (negb is_ipv6)) then
            throw (WifiError.new WifiError.InvalidConfig
                     ((if is_ipv6 then "IPv6" else "IPv4") +:+ " gateway must be "
                      +:+ (if is_ipv6 then "v6" else "v4") +:+ ": " +:+ text))
          else add_default_route if_index gw
      end
  end.

Definition NEWLINE : string := of_bytes [10].

Definition render_resolv_conf (dns : DnsConfig) : string :=
  (match searches dns with
   | [] => ""
   | _ => "search " +:+ join " " (searches dns) +:+ NEWLINE
   end)
  +:+ foldr (fun ns s => "nameserver " +:+ ns +:+ NEWLINE +:+ s) "" (nameservers dns).

Definition write_resolv_conf (dns : DnsConfig) : net unit :=
  net_ask (write_file "/etc/resolv.conf" (render_resolv_conf dns))
    (fun e => WifiError.new WifiError.Io ("write /etc/resolv.conf: " +:+ e)).

(** A static configuration of one family. *)
Definition apply_if_static (if_index : Z) (cfg : option IpConfig) (is_ipv6 : bool) : net unit :=
  match cfg with
  | Some c => if negb (auto c) then apply_static_ip if_index c is_ipv6 else mret tt
  | None => mret tt
  end.

Definition apply_ip_config (iface_name : string) (ipv4 ipv6 : option IpConfig) (dns : option DnsConfig) : net unit :=
  net_ask rtnl_connect (nl_error "rtnetlink: ");;
  if_index ← resolve_if_index iface_name;
  apply_if_static if_index ipv4 false;;
  apply_if_static if_index ipv6 true;;
  match dns with Some d => write_resolv_conf d | None => mret tt end.

(** ** [dhcp.rs] *)

Definition DHCP_TIMEOUT_SEC : Z := 30.

Definition dhcp_routes (lease : DhcpLease) : list (list Z * Z * list Z) :=
  match classless_routes lease with
  | Some routes => routes
  | None =>
      match gateways lease with
      | Some (gateway :: _) => [(replicate 4 0, 0, gateway)]
      | _ => []
      end
  end.

Fixpoint add_dhcp_routes (if_index : Z) (l : list (list Z * Z * list Z)) : net unit :=
  match l with
  | [] => mret tt
  | (destination, prefix_length, gateway) :: l =>
      (if prefix_length =? 0 then add_default_route if_index (V4 gateway)
       else add_route if_index destination prefix_length gateway);;
      add_dhcp_routes if_index l
  end.

Definition apply_dhcpv4_lease (iface_name : string) (lease : DhcpLease) : net unit :=
  net_ask rtnl_connect (nl_error "rtnetlink: ");;
  if_index ← resolve_if_index iface_name;
  net_ask (address_add true if_index (V4 (yiaddr lease)) (lease_prefix_length lease))
    (nl_error ("DHCP addr add " +:+ ipv4_string (yiaddr lease) +:+ ": "));;
  add_dhcp_routes if_index (dhcp_routes lease).

(** The loop that waits for the lease; the client decides when it ends. *)
Fixpoint dhcp_wait (fuel : nat) (iface_name : string) (client : DhcpClient) : net DhcpLease := fun w =>
  match fuel with
  | O => (w, Diverge)
  | S fuel =>
      let '(client, w, r) := dhcp_run client w in
      match r with
      | inr (DhcpDone lease) => (w, Ok lease)
      | inr DhcpOther => dhcp_wait fuel iface_name client w
      | inl e => (w, Err (WifiError.new WifiError.ConnectFailed ("DHCPv4 failed on " +:+ iface_name +:+ ": " +:+ e)))
      end
  end.

Definition run_dhcpv4 (fuel : nat) (iface_name : string) : net (option DnsConfig) :=
  client ← net_ask (dhcp_init iface_name DHCP_TIMEOUT_SEC)
             (fun e => WifiError.new WifiError.ConnectFailed ("DHCPv4 init on " +:+ iface_name +:+ ": " +:+ e));
  lease ← dhcp_wait fuel iface_name client;
  apply_dhcpv4_lease iface_name lease;;
  mret ((fun srvs => mkDnsConfig (ipv4_string <$> srvs) []) <$> dns_srvs lease).

Definition enable_ipv6_ra (iface_name : string) : net unit :=
  let base := "/proc/sys/net/ipv6/conf/" +:+ iface_name in
  (fun w => let '(w', _) := write_file (base +:+ "/disable_ipv6") "1" w in (w', Ok tt));;
  net_ask (write_file (base +:+ "/disable_ipv6") "0")
    (fun e => WifiError.new WifiError.Io ("enable IPv6 on " +:+ iface_name +:+ ": " +:+ e));;
  net_ask (write_file (base +:+ "/accept_ra") "2")
    (fun e => WifiError.new WifiError.Io ("set accept_ra on " +:+ iface_name +:+ ": " +:+ e)).

(** ** [main.rs] *)

Definition apply_network_config (fuel : nat) (iface_name : string) (dns_cfg : option DnsConfig)
  (ipv4 ipv6 : option IpConfig) : net unit :=
  dns ← match ipv4 with
        | Some c =>
            if auto c then
              lease_dns ← run_dhcpv4 fuel iface_name;
              mret (match dns_cfg with None => lease_dns | Some d => Some d end)
            else mret dns_cfg
        | None => mret dns_cfg
        end;
  (match ipv6 with
   | Some c => if auto c then enable_ipv6_ra iface_name else mret tt
   | None => mret tt
   end);;
  apply_ip_config iface_name ipv4 ipv6 dns.

End WithNet.

(** The interface an entry is bound to. *)
Definition entry_iface (any_iface : string) (e : WifiEntry.t) : string :=
  match WifiEntry.interface e with
  | None => any_iface
  | Some name => if bool_decide (name = "any") then any_iface else name
  end.

(** One step of [group_by_interface]: the first group of the interface takes the entry. *)
Fixpoint add_to_group (iface : string) (e : WifiEntry.t) (groups : list (string * list WifiEntry.t))
  : list (string * list WifiEntry.t) :=
  match groups with
  | [] => [(iface, [e])]
  | (name, entries) :: groups =>
      if bool_decide (name = iface) then (name, entries ++ [e]) :: groups
      else (name, entries) :: add_to_group iface e groups
  end.

Definition group_by_interface (wifis : list WifiEntry.t) (any_iface : string) : list (string * list WifiEntry.t) :=
  fold_left (fun groups e => add_to_group (entry_iface any_iface e) e groups) wifis [].

Definition wired_auth_and_ip_iface (e : EthernetEntry.t) : outcome WifiError.t (WiredAuth * string) :=
  match EthernetEntry.eap e, EthernetEntry.macsec e with
  | Some _, Some _ =>
      Err (WifiError.new WifiError.InvalidConfig
             ("ethernet " +:+ EthernetEntry.name e +:+ ": 'eap' and 'macsec' are mutually exclusive"))
  | None, None =>
      Err (WifiError.new WifiError.InvalidConfig
             ("ethernet " +:+ EthernetEntry.name e +:+ ": 'eap' or 'macsec' is required"))
  | Some eap, None => Ok (AuthEap (EapEntry.to_lib eap), EthernetEntry.name e)
  | None, Some macsec =>
      config ← macsec_to_lib macsec;
      Ok (AuthMacsec config, MacsecConfig.macsec_iface_name config)
  end.

(** ** Facts *)

Module DaemonNetFacts.

(** *** The interfaces of the configured networks *)

(** The entries bound to an interface, in the order of the file. *)
Definition bound_to (any_iface name : string) (wifis : list WifiEntry.t) : list WifiEntry.t :=
  List.filter (fun e => bool_decide (entry_iface any_iface e = name)) wifis.

Lemma bound_to_snoc any name l e :
  bound_to any name (l ++ [e]) = bound_to any name l ++ (if decide (entry_iface any e = name) then [e] else []).
Proof.
  unfold bound_to. rewrite List.filter_app. f_equal. cbn. case_bool_decide; by case_decide.
Qed.

(** Groups that hold, each under its name, what is bound to it. *)
Definition grouped (any : string) (l : list WifiEntry.t) (groups : list (string * list WifiEntry.t)) : Prop :=
  NoDup groups.*1
  /\ (forall name entries, (name, entries) ∈ groups -> entries = bound_to any name l)
  /\ (forall e, e ∈ l -> entry_iface any e ∈ groups.*1).

Lemma add_to_group_names iface e groups :
  (add_to_group iface e groups).*1 = if decide (iface ∈ groups.*1) then groups.*1 else groups.*1 ++ [iface].
Proof.
  induction groups as [|[name entries] groups IH]; [done|]. cbn [add_to_group].
  case_bool_decide as Hn; cbn [fmap list_fmap fst].
  - subst. rewrite decide_True; [done|left].
  - cbn in IH. rewrite IH. repeat case_decide; try done; exfalso; rewrite elem_of_cons in *; tauto || intuition congruence.
Qed.

Lemma add_to_group_elem iface e groups name entries : NoDup groups.*1 ->
  (name, entries) ∈ add_to_group iface e groups ->
  (name <> iface /\ (name, entries) ∈ groups)
  \/ (name = iface /\ ((exists l, (iface, l) ∈ groups /\ entries = l ++ [e])
                      \/ ((iface ∉ groups.*1) /\ entries = [e]))).
Proof.
  induction groups as [|[n l] groups IH]; cbn [add_to_group]; intros Hnd.
  { rewrite list_elem_of_singleton. intros [= -> ->]. right. split; [done|]. right.
    split; [apply not_elem_of_nil|done]. }
  cbn [fmap list_fmap fst] in Hnd. apply NoDup_cons in Hnd as [Hn Hnd].
  case_bool_decide as Heq; [subst n|]; rewrite elem_of_cons; intros [Hx|Hx].
  - injection Hx as -> ->. right. split; [done|]. left. exists l. split; [left|done].
  - left. split; [|by right]. intros ->. apply Hn. apply list_elem_of_fmap. by exists (iface, entries).
  - injection Hx as -> ->. left. split; [done|left].
  - destruct (IH Hnd Hx) as [[? ?]|[-> [(l' & Hl & ->)|[Hi ->]]]].
    + left. split; [done|by right].
    + right. split; [done|]. left. exists l'. split; [by right|done].
    + right. split; [done|]. right. split; [|done]. cbn. rewrite not_elem_of_cons. by split.
Qed.

Lemma bound_to_none any name l : Forall (fun e => entry_iface any e <> name) l -> bound_to any name l = [].
Proof.
  induction 1 as [|e l He _ IH]; [done|]. unfold bound_to in *. cbn. rewrite bool_decide_eq_false_2 by done. exact IH.
Qed.

Lemma grouped_step any l e groups : grouped any l groups ->
  grouped any (l ++ [e]) (add_to_group (entry_iface any e) e groups).
Proof.
  intros (Hnd & He & Hall). remember (entry_iface any e) as iface eqn:Hiface. split_and!.
  - rewrite add_to_group_names. case_decide as Hi; [done|]. apply NoDup_app. split_and!; [done| |apply NoDup_singleton].
    intros x Hx. rewrite list_elem_of_singleton. intros Hxe. by rewrite Hxe in Hx.
  - intros name entries Hin. rewrite bound_to_snoc.
    destruct (add_to_group_elem _ _ _ _ _ Hnd Hin) as [[Hne Hg]|[-> [(l' & Hl & ->)|[Hi ->]]]].
    + rewrite decide_False by congruence. rewrite app_nil_r. by apply He.
    + rewrite decide_True by done. by rewrite (He _ _ Hl).
    + rewrite decide_True by done. rewrite bound_to_none; [done|].
      apply Forall_forall. intros x Hx Hxi. apply Hi. rewrite <- Hxi. by apply Hall.
  - intros x. rewrite elem_of_app, list_elem_of_singleton, add_to_group_names. intros [Hx| ->].
    + case_decide; [by apply Hall|]. apply elem_of_app. left. by apply Hall.
    + rewrite <- Hiface. case_decide; [done|]. apply elem_of_app. right. by apply list_elem_of_singleton.
Qed.

Lemma group_by_interface_grouped any wifis : grouped any wifis (group_by_interface wifis any).
Proof.
  unfold group_by_interface.
  assert (forall l done groups, grouped any done groups ->
    grouped any (done ++ l) (fold_left (fun g e => add_to_group (entry_iface any e) e g) l groups)) as Hg.
  { induction l as [|e l IH]; intros done groups Hd; cbn [fold_left]; [by rewrite app_nil_r|].
    rewrite (cons_middle e), app_assoc. apply IH. by apply grouped_step. }
  apply (Hg wifis [] []). split_and!; [constructor|by intros ? ? ?%elem_of_nil|by intros ? ?%elem_of_nil].
Qed.

Lemma wifi_config_networks iface entries :
  networks (wifi_config_for_entries iface entries) = entry_network <$> entries
  /\ WifiConfig.iface_name (wifi_config_for_entries iface entries) = iface.
Proof.
  unfold wifi_config_for_entries.
  assert (forall l c, networks (fold_left (fun config entry =>
      mkWifiConfig (WifiConfig.iface_name config) (networks config ++ [entry_network entry])) l c)
      = networks c ++ (entry_network <$> l)
    /\ WifiConfig.iface_name (fold_left (fun config entry =>
      mkWifiConfig (WifiConfig.iface_name config) (networks config ++ [entry_network entry])) l c)
      = WifiConfig.iface_name c) as Hf.
  { induction l as [|e l IH]; intros c; cbn [fold_left]; [by rewrite app_nil_r|].
    destruct (IH (mkWifiConfig (WifiConfig.iface_name c) (networks c ++ [entry_network e]))) as [-> ->].
    cbn. by rewrite <- app_assoc. }
  apply (Hf entries (WifiConfig_new iface)).
Qed.

(** Every configured network reaches the WiFi client once and with its own settings: the
    interfaces of the groups are distinct, each network is in the group of the interface it
    is bound to ([any] and an absent one mean the interface that was found), and the
    configuration made for an interface has exactly the networks bound to it, in the order
    of the file. *)
Theorem networks_reach_their_interface wifis any_iface :
  let groups := group_by_interface wifis any_iface in
  NoDup groups.*1
  /\ (forall e, e ∈ wifis -> entry_iface any_iface e ∈ groups.*1)
  /\ (forall name entries, (name, entries) ∈ groups ->
      let config := wifi_config_for_entries name entries in
      WifiConfig.iface_name config = name
      /\ networks config = entry_network <$> bound_to any_iface name wifis).
Proof.
  destruct (group_by_interface_grouped any_iface wifis) as (Hnd & He & Hall). cbv zeta.
  split; [done|]. split; [done|]. intros name entries Hin.
  destruct (wifi_config_networks name entries) as [-> ->]. by rewrite (He _ _ Hin).
Qed.

(** *** Wired ports *)

(** A wired port of a configuration that was loaded starts: it has one authentication,
    and MACsec keys of the sizes the session accepts, so that its task does not end with an
    error of the configuration. *)
Theorem loaded_port_starts `{!Env} c : config_validate c = Ok tt ->
  forall e, e ∈ ShuliConfig.ethernets c -> exists auth iface,
    wired_auth_and_ip_iface e = Ok (auth, iface)
    /\ match auth with
       | AuthEap _ => iface = EthernetEntry.name e
       | AuthMacsec config => MacsecConfig.validate config = Ok tt /\ iface = MacsecConfig.macsec_iface_name config
       end.
Proof.
  intros ([] & _ & Hv)%bind_ok e He. revert He Hv. generalize (ShuliConfig.ethernets c). intros l.
  induction l as [|x l IH]; [by intros ?%elem_of_nil|]. rewrite elem_of_cons. cbn [try_each].
  intros [<-|He] ([] & Hx & Hl)%bind_ok; [|by apply IH].
  unfold ethernet_validate in Hx. unfold wired_auth_and_ip_iface.
  destruct (EthernetEntry.eap e) as [eap|], (EthernetEntry.macsec e) as [macsec|]; try done.
  - by eexists _, _.
  - apply bind_ok in Hx as (config & Hc & _). rewrite Hc. eexists _, _. split; [done|]. split; [|done].
    unfold macsec_to_lib in Hc. apply bind_ok in Hc as (? & _ & Hc). apply bind_ok in Hc as (? & _ & Hc).
    apply bind_ok in Hc as ([] & Hv & Hc). by injection Hc as <-.
Qed.

(** *** Default routes *)

Lemma fold_max l x : x <= fold_left Z.max l x /\ Forall (fun y => y <= fold_left Z.max l x) l
  /\ (fold_left Z.max l x = x \/ fold_left Z.max l x ∈ l).
Proof.
  revert x. induction l as [|y l IH]; intros x; cbn [fold_left]; [split_and!; [lia|constructor|by left]|].
  destruct (IH (Z.max x y)) as (Hx & Hl & Hm). split_and!; [lia|constructor; [lia|done]|].
  destruct Hm as [->|Hin]; [|by right; right].
  destruct (Z.max_spec x y) as [[_ ->]|[_ ->]]; [right; left|by left].
Qed.

(** A new default route never displaces one that exists: it gets a metric, larger than
    the metric of every default route there is unless that is the largest metric already,
    500 when none has one, and no metric only when there is no default route. *)
Theorem default_route_less_preferred existing :
  Forall (fun r => match r.1.2 with Some m => u32 m | None => True end) existing ->
  match new_metric existing with
  | None => existing = []
  | Some metric =>
      u32 metric
      /\ (forall r m, r ∈ existing -> r.1.2 = Some m -> m < metric \/ m = 2 ^ 32 - 1 /\ metric = m)
      /\ ((forall r, r ∈ existing -> r.1.2 = None) -> metric = 500)
  end.
Proof.
  intros Hu. unfold new_metric. destruct existing as [|r0 rest]; [done|]. set (l := r0 :: rest) in *. clearbody l.
  set (ms := omap (fun r : IpAddr * option Z * Z => r.1.2) l).
  assert (forall m, m ∈ ms <-> exists r, r ∈ l /\ r.1.2 = Some m) as Hms by (intros m; apply list_elem_of_omap).
  assert (forall m, m ∈ ms -> u32 m) as Hb.
  { intros m (r & Hr & Hm)%Hms. rewrite Forall_forall in Hu. specialize (Hu r Hr). by rewrite Hm in Hu. }
  unfold max_metric. destruct ms as [|x ms'] eqn:Hx.
  - split_and!; [unfold fits; lia| |done]. intros r m Hr Hm. exfalso. apply (not_elem_of_nil m). apply Hms. by exists r.
  - destruct (fold_max ms' x) as (H1 & H2 & H3). set (mx := fold_left Z.max ms' x) in *.
    assert (mx ∈ x :: ms') as Hin by (destruct H3 as [->|?]; [left|by right]).
    pose proof (Hb mx Hin) as Hmx. unfold fits in Hmx. unfold saturating_add.
    split_and!; [unfold fits; lia| |].
    + intros r m Hr Hm. assert (m ∈ x :: ms') as Hmin by (apply Hms; by exists r).
      assert (m <= mx). { apply elem_of_cons in Hmin as [->|?]; [done|]. rewrite Forall_forall in H2. by apply H2. }
      pose proof (Hb m Hmin) as Hmu. unfold fits in Hmu. lia.
    + intros Hnone. apply Hms in Hin as (r & Hr & Hm). by rewrite (Hnone r Hr) in Hm.
Qed.

Lemma default_route_less_preferred_witness :
  new_metric [(V4 [192; 0; 2; 1], Some 100, 2); (V4 [192; 0; 2; 2], None, 3)] = Some 101
  /\ forall r m, r ∈ [(V4 [192; 0; 2; 1], Some 100, 2); (V4 [192; 0; 2; 2], None, 3)] -> r.1.2 = Some m ->
     m < 101 \/ m = 2 ^ 32 - 1 /\ 101 = m.
Proof.
  split; [reflexivity|].
  refine (proj1 (proj2 (default_route_less_preferred [(V4 [192; 0; 2; 1], Some 100, 2); (V4 [192; 0; 2; 2], None, 3)] _))).
  repeat constructor; cbn; lia.
Defined.

Lemma loaded_port_starts_witness :
  exists auth iface,
    wired_auth_and_ip_iface (EthernetEntry.mk "eth0" None
      (Some (MacsecEntry.defaults "00112233445566778899aabbccddeeff" "01")) None None None) = Ok (auth, iface)
    /\ iface = "macsec0".
Proof.
  destruct (@loaded_port_starts DaemonConfigFacts.no_files
    (ShuliConfig.mk 1 [] [EthernetEntry.mk "eth0" None
      (Some (MacsecEntry.defaults "00112233445566778899aabbccddeeff" "01")) None None None] [])
    ltac:(vm_compute; reflexivity) _ ltac:(left)) as (auth & iface & Hw & _).
  exists auth, iface. split; [exact Hw|]. vm_compute in Hw. injection Hw as _ <-. reflexivity.
Defined.

End DaemonNetFacts.
