(* ===== verification/DaemonMain.v ===== *)
(** * The tasks of the daemon

    [src/src/daemon/main.rs]: what [run] starts, the loop that drives the WiFi client and
    configures the networks it joins, the loop that drives a wired port, and how the
    results of the tasks become the exit status.  A loop is a step function: a wake is the
    branch of its [select!] that is taken, with what the branch reads from outside.  The
    WiFi client is [Class WifiDriver], which [WifiClient] implements; a wired port is the
    client of [Wired]; the network is the class of [DaemonNet].

    [Module DaemonMainFacts]: a network that is joined is configured with its own entry or
    has a retry pending, a wired port is configured only once it is authorised, and what
    happens to the addresses of a MACsec port after an error. *)

From stdpp Require Import gmap list.
From S2P Require Import Prelude Errors Net IpText WifiConfig Mka ClientState Scan WifiIface WifiAuth Roam WifiEvents ClientLoop WifiClient.
From S2P Require Import TrafficSelector Identity IpsecConfig DaemonConfig.
From S2P Require Import IkeProposals IkeCrypto IkeSa Xfrm.
From S2P Require Import Eap Macsec MkaSession Wired DaemonNet.

(** ** The WiFi task *)

(** What the loop uses of [WifiClient]. *)
Class WifiDriver (C : Type) := {
  drv_run : C -> C * outcome WifiError.t (string * WifiState);
  drv_current_ssid : C -> string -> option string;
  drv_shutdown : C -> C;
}.

(** The client itself: [order] is the order in which it polls its interfaces. *)
Definition wifi_client_driver `{!Supplicant} `{!FrameLib} `{!Host} (steps : nat) (order : WifiClient.t -> list string)
  : WifiDriver WifiClient.t := {|
  drv_run := fun c => WifiClient.run steps (order c) c;
  drv_current_ssid := fun c name => WifiClient.current_ssid name c;
  drv_shutdown := WifiClient.shutdown;
|}.

Section WifiLoop.
Context {C : Type} {drv : WifiDriver C} {N : Type} {ops : NetOps N}.

(** A call of [apply_network_config]: for which interface, with which entry, with how many
    answers of the DHCP server, and whether it succeeded. *)
Record ApplyCall := mkApplyCall {
  ac_iface : string;
  ac_entry : WifiEntry.t;
  ac_fuel : nat;
  ac_ok : bool;
}.

(** The locals of the loop, with the calls it has made of [apply_network_config]. *)
Record WifiTask := mkWifiTask {
  wt_client : C;
  wt_net : N;
  applied_ssid : gmap string string;
  connected_ifaces : gmap string string;
  ip_retry_at : option Z;
  wt_connected : bool;
  wt_calls : list ApplyCall;
}.

Definition put_wt_client (v : C) (s : WifiTask) : WifiTask :=
  mkWifiTask v (wt_net s) (applied_ssid s) (connected_ifaces s) (ip_retry_at s) (wt_connected s) (wt_calls s).
Definition put_wt_net (v : N) (s : WifiTask) : WifiTask :=
  mkWifiTask (wt_client s) v (applied_ssid s) (connected_ifaces s) (ip_retry_at s) (wt_connected s) (wt_calls s).
Definition put_applied_ssid (v : gmap string string) (s : WifiTask) : WifiTask :=
  mkWifiTask (wt_client s) (wt_net s) v (connected_ifaces s) (ip_retry_at s) (wt_connected s) (wt_calls s).
Definition put_connected_ifaces (v : gmap string string) (s : WifiTask) : WifiTask :=
  mkWifiTask (wt_client s) (wt_net s) (applied_ssid s) v (ip_retry_at s) (wt_connected s) (wt_calls s).
Definition put_ip_retry_at (v : option Z) (s : WifiTask) : WifiTask :=
  mkWifiTask (wt_client s) (wt_net s) (applied_ssid s) (connected_ifaces s) v (wt_connected s) (wt_calls s).
Definition put_wt_connected (v : bool) (s : WifiTask) : WifiTask :=
  mkWifiTask (wt_client s) (wt_net s) (applied_ssid s) (connected_ifaces s) (ip_retry_at s) v (wt_calls s).
Definition put_wt_calls (v : list ApplyCall) (s : WifiTask) : WifiTask :=
  mkWifiTask (wt_client s) (wt_net s) (applied_ssid s) (connected_ifaces s) (ip_retry_at s) (wt_connected s) v.

Abbreviation loop := (st WifiTask WifiError.t).

Definition Groups : Type := list (string * list WifiEntry.t).

(** The entry of a network, among those of the interface. *)
Definition iface_entry (groups : Groups) (iface ssid : string) : option WifiEntry.t :=
  find (fun e => bool_decide (WifiEntry.ssid e = ssid))
    (default [] (snd <$> find (fun g => bool_decide (g.1 = iface)) groups)).

(** [apply_network_config] for an entry; an error is a value. *)
Definition apply_entry (fuel : nat) (iface : string) (e : WifiEntry.t) : loop bool := fun s =>
  let '(net, r) := apply_network_config fuel iface (WifiEntry.dns e) (WifiEntry.ipv4 e) (WifiEntry.ipv6 e) (wt_net s) in
  let called ok s := put_wt_calls (wt_calls s ++ [mkApplyCall iface e fuel ok]) (put_wt_net net s) in
  match r with
  | Ok _ => (called true s, Ok true)
  | Err _ => (called false s, Ok false)
  | Panic => (put_wt_net net s, Panic)
  | Diverge => (put_wt_net net s, Diverge)
  end.

Definition mark_applied (iface ssid : string) : loop unit :=
  modify (fun s => put_applied_ssid (<[iface := ssid]> (applied_ssid s)) s).

Definition RETRY_SECS : Z := 10.

(** Seconds, as nanoseconds of the clock. *)
Definition retry_at (now : Z) : option Z := Some (now + RETRY_SECS * 10 ^ 9).

(** A connection on an interface; [now] is the clock after the attempt to configure it. *)
Definition link_up (groups : Groups) (fuel : nat) (now : Z) (iface : string) : loop unit :=
  modify (put_wt_connected true);;
  s ← get;
  match drv_current_ssid (wt_client s) iface with
  | None => mret tt
  | Some ssid =>
      modify (fun s => put_connected_ifaces (<[iface := ssid]> (connected_ifaces s)) s);;
      s ← get;
      if bool_decide (applied_ssid s !! iface = Some ssid) then mret tt else
      (match iface_entry groups iface ssid with
       | Some e =>
           ok ← apply_entry fuel iface e;
           if ok : bool then mark_applied iface ssid else mret tt
       | None => mret tt
       end);;
      s ← get;
      if bool_decide (applied_ssid s !! iface = Some ssid) then mret tt
      else modify (put_ip_retry_at (retry_at now))
  end.

Definition link_down (iface : string) : loop unit :=
  modify (fun s => put_connected_ifaces (delete iface (connected_ifaces s)) s).

(** The loop over the connected interfaces: whether one of them failed. *)
Fixpoint retry_all (groups : Groups) (fuel : nat) (l : list (string * string)) : loop bool :=
  match l with
  | [] => mret false
  | (iface, ssid) :: l =>
      s ← get;
      if bool_decide (applied_ssid s !! iface = Some ssid) then retry_all groups fuel l else
      match iface_entry groups iface ssid with
      | None => retry_all groups fuel l
      | Some e =>
          ok ← apply_entry fuel iface e;
          (if ok : bool then mark_applied iface ssid else mret tt);;
          retry ← retry_all groups fuel l;
          mret (negb ok || retry)
      end
  end.

(** The branches of the [select!]: [order] is the order of the hash map. *)
Inductive WifiWake :=
| ShutdownChanged
| ClientReady (now : Z)
| RetryDue (order : list (string * string)) (now : Z).

(** One turn; a value ends the task. *)
Definition wifi_turn (groups : Groups) (fuel : nat) (k : WifiWake) : loop (option bool) :=
  match k with
  | ShutdownChanged =>
      modify (fun s => put_wt_client (drv_shutdown (wt_client s)) s);;
      s ← get; mret (Some (wt_connected s))
  | ClientReady now =>
      r ← (fun s => let '(c, r) := drv_run (wt_client s) in
             (put_wt_client c s,
              match r with Ok x => Ok (inr x) | Err e => Ok (inl e) | Panic => Panic | Diverge => Diverge end));
      (match r with
       | inl _ => mret tt
       | inr (iface, state) => if is_connected state then link_up groups fuel now iface else link_down iface
       end);;
      mret None
  | RetryDue order now =>
      retry ← retry_all groups fuel order;
      modify (put_ip_retry_at (if retry : bool then retry_at now else None));;
      mret None
  end.

(** The sleep ends only when there is a deadline; the hash map is visited as a whole. *)
Definition wake_enabled (k : WifiWake) (s : WifiTask) : Prop :=
  match k with
  | RetryDue order now => order ≡ₚ map_to_list (connected_ifaces s) /\ exists at_, ip_retry_at s = Some at_ /\ at_ <= now
  | _ => True
  end.

Definition wifi_start (client : C) (net : N) : WifiTask := mkWifiTask client net ∅ ∅ None false [].

End WifiLoop.

Arguments WifiTask C N : clear implicits.

(** ** A wired port *)

Section WiredLoop.
Context {wio : WiredIo} {M : Type} {em : EapMethod M} {mka : MkaCryptoLib} {secy : SecyOps}.
Context {N : Type} {ops : NetOps N}.
Context (make_method : EapConfig -> st Io WifiError.t M).

(** Where the task is: about to make a client; driving it; holding the authorised 802.1X
    port; in one of the two pauses of ten seconds; ended; or inside a call that panicked or
    never returned. *)
Inductive WiredPhase :=
| Starting
| Driving (c : WiredClient M)
| Holding (c : WiredClient M)
| Pausing
| Ended (connected : bool)
| Stuck (c : WiredClient M).

Record WiredTask := mkWiredTask {
  wp_phase : WiredPhase;
  wp_io : Io;
  wp_net : N;
  wp_connected : bool;
}.

(** The answers that a turn reads: the frames and timers of the client, the DHCP server,
    and what deleting the MACsec netdev returns. *)
Record TurnInputs := mkTurnInputs {
  ti_fuel : nat;
  ti_session : MkaSession.RunInputs;
  ti_dhcp_fuel : nat;
  ti_removed : outcome WifiError.t unit;
}.

Inductive WiredWake :=
| WiredShutdown (i : TurnInputs)
| WiredReady (i : TurnInputs).

Definition is_macsec (auth : WiredAuth) : bool := match auth with AuthMacsec _ => true | AuthEap _ => false end.

(** [apply_network_config] for the entry of the port; then [next], or [Stuck]. *)
Definition configure (e : EthernetEntry.t) (ip_iface : string) (i : TurnInputs) (c : WiredClient M)
  (next : WiredPhase) (w : Io) (net : N) (connected : bool) : WiredTask :=
  let '(net, r) := apply_network_config (ti_dhcp_fuel i) ip_iface (EthernetEntry.dns e) (EthernetEntry.ipv4 e)
                     (EthernetEntry.ipv6 e) net in
  match r with
  | Ok _ => mkWiredTask next w net true
  | Err _ => mkWiredTask next w net connected
  | Panic | Diverge => mkWiredTask (Stuck c) w net connected
  end.

(** [client.shutdown()], whose error is logged; then [next]. *)
Definition stop_client (i : TurnInputs) (c : WiredClient M) (next : WiredPhase) (w : Io) (net : N) (connected : bool)
  : WiredTask :=
  match (wired_shutdown (ti_removed i) c).2 with
  | Ok _ | Err _ => mkWiredTask next w net connected
  | Panic | Diverge => mkWiredTask (Stuck c) w net connected
  end.

(** [client.run()] is ready. *)
Definition drive (e : EthernetEntry.t) (auth : WiredAuth) (ip_iface : string) (i : TurnInputs) (c : WiredClient M)
  (s : WiredTask) : WiredTask :=
  let '((c, w), r) := wired_run (ti_fuel i) (ti_session i) (c, wp_io s) in
  match r with
  | Ok Wired.Connected =>
      let next := if is_macsec auth then Driving c else Holding c in
      if wp_connected s then mkWiredTask next w (wp_net s) true
      else configure e ip_iface i c next w (wp_net s) false
  | Ok Wired.Failed | Err _ => stop_client i c Pausing w (wp_net s) (wp_connected s)
  | Ok _ | Diverge => mkWiredTask (Driving c) w (wp_net s) (wp_connected s)
  | Panic => mkWiredTask (Stuck c) w (wp_net s) (wp_connected s)
  end.

Definition wired_turn (e : EthernetEntry.t) (auth : WiredAuth) (ip_iface : string) (k : WiredWake) (s : WiredTask)
  : WiredTask :=
  match wp_phase s, k with
  | Starting, _ =>
      let '(w, r) := init_with_auth (EthernetEntry.name e) auth make_method (wp_io s) in
      match r with
      | Ok c => mkWiredTask (Driving c) w (wp_net s) (wp_connected s)
      | Err _ => mkWiredTask Pausing w (wp_net s) (wp_connected s)
      | Panic | Diverge => s
      end
  | Driving c, WiredReady i => drive e auth ip_iface i c s
  | Driving c, WiredShutdown i | Holding c, WiredShutdown i =>
      stop_client i c (Ended (wp_connected s)) (wp_io s) (wp_net s) (wp_connected s)
  | Holding c, WiredReady i =>
      if wp_connected s then s else configure e ip_iface i c (Holding c) (wp_io s) (wp_net s) false
  | Pausing, WiredShutdown _ => mkWiredTask (Ended (wp_connected s)) (wp_io s) (wp_net s) (wp_connected s)
  | Pausing, WiredReady _ => mkWiredTask Starting (wp_io s) (wp_net s) (wp_connected s)
  | Ended _, _ | Stuck _, _ => s
  end.

(** [run_wired_interface], up to some wakes. *)
Definition run_wired_interface (e : EthernetEntry.t) (wakes : list WiredWake) (w : Io) (net : N)
  : outcome WifiError.t WiredTask :=
  '(auth, ip_iface) ← wired_auth_and_ip_iface e;
  Ok (fold_left (fun s k => wired_turn e auth ip_iface k s) wakes (mkWiredTask Starting w net false)).

End WiredLoop.

(** ** [run] *)

(** [resolve_iface_name]: the interfaces [nispor] lists, in the order of its map. *)
Definition resolve_iface_name (interface : option string) (ifaces : string + list (string * bool))
  : outcome WifiError.t string :=
  match (match interface with Some name => if bool_decide (name = "any") then None else Some name | None => None end) with
  | Some name => Ok name
  | None =>
      match ifaces with
      | inl e => Err (WifiError.new WifiError.Nl80211 ("nispor: " +:+ e))
      | inr l =>
          match find (fun i => i.2) l with
          | Some (name, _) => Ok name
          | None => Err (WifiError.new WifiError.InterfaceNotFound "no wifi interface found")
          end
      end
  end.

(** The tasks that are spawned. *)
Inductive DaemonTask :=
| RunWifi (groups : Groups) (configs : list WifiConfig)
| RunIpsec (configs : list IpsecConfig.t)
| RunWired (e : EthernetEntry.t).

Section Run.
Context {env : Env}.

(** [entry.interface] is absent or [any]. *)
Definition is_any (e : WifiEntry.t) : bool :=
  match WifiEntry.interface e with None => true | Some name => bool_decide (name = "any") end.

(** [run] up to the spawns; [init] is the result of [WifiClient::init], [sigterm] that of
    the signal handler. *)
Definition start_tasks (path : string) (ifaces : string + list (string * bool))
  (init : list WifiConfig -> outcome WifiError.t unit) (sigterm : option string) : outcome WifiError.t (list DaemonTask) :=
  config ← load path;
  ipsecs ← ipsec_configs config;
  let wifis := ShuliConfig.wifis config in
  if bool_decide (wifis = []) && bool_decide (ShuliConfig.ethernets config = []) && bool_decide (length ipsecs = 0%nat) then
    Err (WifiError.new WifiError.InvalidConfig "no wifis, ethernets, or ipsecs in config")
  else
    wifi ← (if bool_decide (wifis = []) then Ok [] else
            any_iface ← (if existsb is_any wifis then resolve_iface_name None ifaces else Ok "");
            let groups := group_by_interface wifis any_iface in
            let configs := (fun g => wifi_config_for_entries g.1 g.2) <$> groups in
            _ ← init configs;
            Ok [RunWifi groups configs]);
    match sigterm with
    | Some e => Err (WifiError.new WifiError.ConnectFailed ("failed to register SIGTERM handler: " +:+ e))
    | None =>
        Ok (wifi ++ (if bool_decide (length ipsecs = 0%nat) then [] else [RunIpsec ipsecs])
            ++ (RunWired <$> ShuliConfig.ethernets config))
    end.
End Run.

(** The end of a task: what it returned, or a panic. *)
Definition TaskResult : Type := option (outcome WifiError.t bool).

(** The loop over the results. *)
Definition tally (acc : bool * option WifiError.t) (r : TaskResult) : bool * option WifiError.t :=
  let '(any_connected, task_err) := acc in
  match r with
  | Some (Ok connected) => (any_connected || connected, task_err)
  | Some (Err e) => (any_connected, match task_err with None => Some e | Some x => Some x end)
  | _ => acc
  end.

Definition finish (results : list TaskResult) : outcome WifiError.t unit :=
  let '(any_connected, task_err) := fold_left tally results (false, None) in
  if any_connected : bool then Ok tt
  else Err (default (WifiError.new WifiError.ConnectFailed "shutdown before connection established") task_err).

(** ** Facts *)

Module DaemonMainFacts.

(** *** The WiFi task *)

Section Wifi.
Context {C : Type} {drv : WifiDriver C} {N : Type} {ops : NetOps N}.
Context (groups : Groups).
Implicit Types (s : WifiTask C N).

(** A logged call, made again. *)
Definition call (a : ApplyCall) (net : N) : N * outcome WifiError.t unit :=
  let e := ac_entry a in
  apply_network_config (ac_fuel a) (ac_iface a) (WifiEntry.dns e) (WifiEntry.ipv4 e) (WifiEntry.ipv6 e) net.

(** The network after the logged calls, when each returns what the log says. *)
Fixpoint replay (calls : list ApplyCall) (net : N) : option N :=
  match calls with
  | [] => Some net
  | a :: calls =>
      match call a net, ac_ok a with
      | (net, Ok _), true | (net, Err _), false => replay calls net
      | _, _ => None
      end
  end.

Lemma replay_app l l' net : replay (l ++ l') net = replay l net ≫= replay l'.
Proof.
  revert net. induction l as [|a l IH]; intros net; [done|]. cbn.
  destruct (call a net) as [net' [[]|e| |]], (ac_ok a); cbn; done.
Qed.

(** The network of every interface as its last successful call configured it. *)
Definition marks (calls : list ApplyCall) : gmap string string :=
  foldl (fun m a => if ac_ok a then <[ac_iface a := WifiEntry.ssid (ac_entry a)]> m else m) ∅ calls.

(** Calls with the entry that the interface's group has for a network. *)
Definition own_entry (a : ApplyCall) : Prop :=
  iface_entry groups (ac_iface a) (WifiEntry.ssid (ac_entry a)) = Some (ac_entry a).

Lemma iface_entry_ssid iface ssid e :
  iface_entry groups iface ssid = Some e -> WifiEntry.ssid e = ssid.
Proof. unfold iface_entry. intros [_ Hs]%find_some. by apply bool_decide_eq_true in Hs. Qed.

Inductive wifi_reach (s0 : WifiTask C N) : WifiTask C N -> Prop :=
| wifi_reach_start : wifi_reach s0 s0
| wifi_reach_turn fuel k s s' r :
    wifi_reach s0 s -> wake_enabled k s -> wifi_turn groups fuel k s = (s', Ok r) -> wifi_reach s0 s'.

(** The network is what the calls made of it, the marks are those of the successful ones. *)
Record accounted (net0 : N) (s : WifiTask C N) : Prop := {
  acc_net : replay (wt_calls s) net0 = Some (wt_net s);
  acc_own : Forall own_entry (wt_calls s);
  acc_marks : applied_ssid s = marks (wt_calls s);
}.

(** A network that is joined and has an entry is configured, or a retry is pending. *)
Definition retrying (s : WifiTask C N) : Prop :=
  forall iface ssid, connected_ifaces s !! iface = Some ssid -> is_Some (iface_entry groups iface ssid) ->
    applied_ssid s !! iface = Some ssid \/ is_Some (ip_retry_at s).

(** [s'] differs from [s] in the network, the marks and the calls only. *)
Definition same_links (s s' : WifiTask C N) : Prop :=
  connected_ifaces s' = connected_ifaces s /\ ip_retry_at s' = ip_retry_at s.

(** An attempt to configure an interface, and its mark when it succeeded. *)
Lemma attempt_spec net0 fuel iface ssid e s s' ok :
  accounted net0 s -> iface_entry groups iface ssid = Some e ->
  (ok ← apply_entry fuel iface e; (if ok : bool then mark_applied iface ssid else mret tt);; mret ok) s
    = (s', Ok ok) ->
  accounted net0 s' /\ same_links s s'
  /\ applied_ssid s' = (if ok then <[iface := ssid]> (applied_ssid s) else applied_ssid s).
Proof.
  intros [Hn Ho Hm] He. pose proof (iface_entry_ssid _ _ _ He) as Hssid.
  unfold apply_entry, mbind, st_bind.
  destruct (apply_network_config _ _ _ _ _ _) as [net [[]|x| |]] eqn:Hc; cbn; intros Hx; simplify_eq;
    injection Hx as <- <-; (split; [|split; [by split|done]]); (split; cbn; [| |]).
  all: try (rewrite replay_app, Hn; cbn; unfold call; cbn; by rewrite Hc).
  all: try (apply Forall_app; split; [done|]; repeat constructor; exact He).
  all: rewrite Hm; unfold marks; by rewrite foldl_app.
Qed.

(** Another pass over the interfaces. *)
Lemma retry_all_spec net0 fuel l s s' retry :
  NoDup l.*1 -> accounted net0 s -> retry_all groups fuel l s = (s', Ok retry) ->
  accounted net0 s' /\ same_links s s'
  /\ (forall iface, iface ∉ l.*1 -> applied_ssid s' !! iface = applied_ssid s !! iface)
  /\ (retry = false -> forall iface ssid, (iface, ssid) ∈ l -> is_Some (iface_entry groups iface ssid) ->
        applied_ssid s' !! iface = Some ssid).
Proof.
  revert s retry. induction l as [|[iface ssid] l IH]; intros s retry Hnd Hacc; cbn [retry_all].
  { intros [= <- <-]. repeat split; try apply Hacc; try done. intros _ ? ? Hx. by apply not_elem_of_nil in Hx. }
  cbn in Hnd. apply NoDup_cons in Hnd as [Hni Hnd]. unfold mbind at 1, st_bind, get.
  (** The rest of the list, after this interface is marked or left. *)
  assert (forall s1 r1, accounted net0 s1 -> same_links s s1 ->
    (forall i, i <> iface -> applied_ssid s1 !! i = applied_ssid s !! i) ->
    (r1 = false -> is_Some (iface_entry groups iface ssid) -> applied_ssid s1 !! iface = Some ssid) ->
    forall r2, retry_all groups fuel l s1 = (s', Ok r2) -> retry = r1 || r2 ->
    accounted net0 s' /\ same_links s s'
    /\ (forall i, i ∉ iface :: l.*1 -> applied_ssid s' !! i = applied_ssid s !! i)
    /\ (retry = false -> forall i x, (i, x) ∈ (iface, ssid) :: l -> is_Some (iface_entry groups i x) ->
          applied_ssid s' !! i = Some x)) as Hrest.
  { intros s1 r1 Ha1 [Hc1 Hr1] Ho1 Hs1 r2 Hr ->.
    destruct (IH s1 r2 Hnd Ha1 Hr) as (Ha2 & [Hc2 Ht2] & Ho2 & Hr2).
    split; [done|]. split; [split; congruence|]. split.
    - intros i [Hne Hi]%not_elem_of_cons. rewrite Ho2 by done. by apply Ho1.
    - intros [-> ->]%orb_false_iff i x [[= -> ->]|Hin]%elem_of_cons Hsome; [|by apply Hr2].
      rewrite Ho2 by done. by apply Hs1. }
  case_bool_decide as Ha.
  { intros Hr. by apply (Hrest s false Hacc (conj eq_refl eq_refl) (fun _ _ => eq_refl) (fun _ _ => Ha) retry Hr). }
  destruct (iface_entry groups iface ssid) as [e|] eqn:He.
  2: { intros Hr. apply (Hrest s false Hacc (conj eq_refl eq_refl) (fun _ _ => eq_refl)) with (r2 := retry); [|done|done].
       intros _ Hx. by destruct Hx. }
  intros (s1 & ok & Happ & Hk)%st_bind_ok_inv.
  apply st_bind_ok_inv in Hk as (s2 & [] & Hmark & Hk). apply st_bind_ok_inv in Hk as (s3 & r3 & Hr & Hend).
  injection Hend as <- <-.
  destruct (attempt_spec net0 fuel iface ssid e s s2 ok Hacc He) as (Ha2 & Hl2 & Hap).
  { unfold mbind at 1, st_bind. rewrite Happ. unfold mbind, st_bind. by rewrite Hmark. }
  refine (Hrest s2 (negb ok) Ha2 Hl2 _ _ r3 Hr eq_refl).
  - intros i Hne. rewrite Hap. destruct ok; [by rewrite lookup_insert_ne|done].
  - intros Hok _. rewrite Hap. destruct ok; [by rewrite lookup_insert_eq|done].
Qed.

(** A connection. *)
Lemma link_up_spec net0 fuel now iface s s' :
  accounted net0 s -> retrying s -> link_up groups fuel now iface s = (s', Ok tt) ->
  accounted net0 s' /\ retrying s'.
Proof.
  intros Hacc Hr. unfold link_up, mbind at 1, st_bind, modify at 1, mbind at 1, st_bind, get.
  cbn [wt_client put_wt_connected].
  destruct (drv_current_ssid (wt_client s) iface) as [ssid|]; [|intros [= <-]; split; [by destruct Hacc|done]].
  unfold mbind at 1, st_bind, modify at 1, mbind at 1, st_bind.
  cbn [applied_ssid put_connected_ifaces put_wt_connected].
  set (s0 := put_connected_ifaces _ _). assert (Hacc0 : accounted net0 s0) by (by destruct Hacc).
  assert (forall s1, connected_ifaces s1 = <[iface := ssid]> (connected_ifaces s) ->
    (forall i, i <> iface -> applied_ssid s1 !! i = applied_ssid s !! i) ->
    (is_Some (ip_retry_at s) -> is_Some (ip_retry_at s1)) ->
    (applied_ssid s1 !! iface = Some ssid \/ is_Some (ip_retry_at s1)) -> retrying s1) as Hend.
  { intros s1 Hc1 Ho1 Hr1 Hself i x. rewrite Hc1.
    intros [[<- <-]|[Hne Hx]]%lookup_insert_Some Hs; [done|]. rewrite Ho1 by done.
    destruct (Hr i x Hx Hs) as [Ha|Ha]; [by left|right; by apply Hr1]. }
  case_bool_decide as Ha; [intros [= <-]; split; [done|]; apply Hend; try done; by left|].
  intros (s2 & [] & Happ & Hk)%st_bind_ok_inv. unfold mbind, st_bind, get in Hk.
  assert (accounted net0 s2 /\ same_links s0 s2
    /\ (forall i, i <> iface -> applied_ssid s2 !! i = applied_ssid s !! i)) as (Ha2 & [Hc2 Ht2] & Ho2).
  { destruct (iface_entry groups iface ssid) as [e|] eqn:He; [|by injection Happ as <-].
    apply st_bind_ok_inv in Happ as (s3 & ok & Happ & Hmark).
    destruct (attempt_spec net0 fuel iface ssid e s0 s2 ok Hacc0 He) as (Ha2 & Hl2 & Hap).
    { unfold mbind at 1, st_bind. rewrite Happ. unfold mbind, st_bind. by rewrite Hmark. }
    split; [done|]. split; [done|]. intros i Hne. rewrite Hap.
    destruct ok; [by rewrite lookup_insert_ne|done]. }
  case_bool_decide as Hb; injection Hk as <-.
  - split; [done|]. apply Hend; cbn; [by rewrite Hc2|done|by rewrite Ht2|by left].
  - split; [by destruct Ha2|]. apply Hend; cbn; [by rewrite Hc2|done|done|by right].
Qed.

Lemma wifi_turn_spec net0 fuel k s s' r :
  accounted net0 s -> retrying s -> wake_enabled k s -> wifi_turn groups fuel k s = (s', Ok r) ->
  accounted net0 s' /\ retrying s'.
Proof.
  intros Hacc Hs Hk. destruct k as [|now|order now]; cbn [wifi_turn].
  - intros [= <- _]. by destruct Hacc.
  - intros (s1 & res & Hrun & Hrest)%st_bind_ok_inv. destruct (drv_run (wt_client s)) as [c o].
    assert (accounted net0 s1 /\ retrying s1) as [Ha1 Hs1] by (destruct Hacc, o; by injection Hrun as <- _).
    apply st_bind_ok_inv in Hrest as (s2 & [] & Hlink & [= <- _]).
    destruct res as [e|[iface state]]; [by injection Hlink as <-|].
    destruct (is_connected state); [by eapply link_up_spec|]. injection Hlink as <-.
    split; [by destruct Ha1|]. intros i x. cbn. intros [_ Hx]%lookup_delete_Some. by apply Hs1.
  - destruct Hk as [Hperm _]. intros (s1 & retry & Hall & Hend)%st_bind_ok_inv.
    assert (NoDup order.*1) as Hnd by (rewrite Hperm; apply NoDup_fst_map_to_list).
    destruct (retry_all_spec net0 _ _ _ _ _ Hnd Hacc Hall) as (Ha1 & [Hc1 _] & _ & Hr1).
    injection Hend as <- _. split; [by destruct Ha1|]. intros i x. cbn. rewrite Hc1. intros Hx Hsome.
    destruct retry; [right; by eexists|left]. apply Hr1; [done| |done]. rewrite Hperm. by apply elem_of_map_to_list.
Qed.


End Wifi.

(** *** Wired ports *)

Section WiredPort.
Context {wio : WiredIo} {M : Type} {em : EapMethod M} {mka : MkaCryptoLib} {secy : SecyOps}.
Context {N : Type} {ops : NetOps N}.
Context (make_method : EapConfig -> st Io WifiError.t M).
Implicit Types (s : WiredTask (M := M) (N := N)).

(** The EAP client inside a wired client. *)
Definition eap_of (c : WiredClient M) : option (EapClient M) :=
  match wc_mode c with EapMode ec => Some ec | MacsecMode _ => None end.

Lemma eap_client_run_state fuel c w c' w' x :
  eap_client_run fuel (c, w) = ((c', w'), Ok x) -> ec_state c' = x.
Proof.
  unfold eap_client_run, mbind at 1, st_bind, get. cbn [fst]. destruct (ec_state c) eqn:Hst.
  - intros (s1 & [] & _ & Hk)%st_bind_ok_inv. by injection Hk as <- <- <-.
  - intros (s1 & frame & _ & Hk)%st_bind_ok_inv. destruct frame as [frame|]; [|by injection Hk as <- <- <-].
    apply st_bind_ok_inv in Hk as (s2 & [] & _ & Hk). destruct s2 as [c2 w2]. by injection Hk as <- <- <-.
  - by intros [= <- <- <-].
  - by intros [= <- <- <-].
Qed.

(** A turn of the client of an 802.1X port. *)
Lemma wired_run_eap fuel i c ec w c' w' r :
  wc_mode c = EapMode ec -> WiredFacts.authentic ec -> wired_run fuel i (c, w) = ((c', w'), r) ->
  exists ec', wc_mode c' = EapMode ec' /\ WiredFacts.authentic ec' /\ (r = Ok Wired.Connected -> ec_state ec' = EapConnected).
Proof.
  intros Hc Ha. unfold wired_run. rewrite Hc. destruct (eap_client_run fuel (ec, w)) as [[ec' w1] x] eqn:Hr.
  pose proof (WiredFacts.eap_client_run_authentic _ _ _ _ _ _ Ha Hr) as Ha'.
  destruct x as [x|e| |]; intros [= <- <- <-]; exists ec'; (split; [done|]); (split; [done|]); try done.
  intros [= Hx]. apply eap_client_run_state in Hr as ->. by destruct x.
Qed.

Lemma init_eap iface eap w w' c :
  init_with_auth iface (AuthEap eap) make_method w = (w', Ok c) ->
  exists ec, wc_mode c = EapMode ec /\ WiredFacts.authentic ec.
Proof.
  unfold init_with_auth. intros (w1 & mode & Hm & Hk)%st_bind_ok_inv. injection Hk as _ <-.
  apply st_bind_ok_inv in Hm as (w2 & ec & He & Hk). injection Hk as _ <-. exists ec. split; [done|].
  unfold eap_client_init in He. apply st_bind_ok_inv in He as (w3 & [[fd idx] mac] & _ & He).
  apply st_bind_ok_inv in He as (w4 & ? & _ & He). apply st_bind_ok_inv in He as (w5 & ? & _ & He).
  apply st_bind_ok_inv in He as (w6 & method & _ & He). injection He as _ <-.
  split; [by exists method|by intros [=]].
Qed.

(** The client of a port task, authentic, and connected when the port is held. *)
Definition eap_port (s : WiredTask (M := M) (N := N)) : Prop :=
  match wp_phase s with
  | Driving c => exists ec, wc_mode c = EapMode ec /\ WiredFacts.authentic ec
  | Holding c => exists ec, wc_mode c = EapMode ec /\ WiredFacts.authenticated (ec_peer ec)
  | _ => True
  end.

(** What a turn may do to the network: nothing, unless the port is authorised. *)
Definition turn_ok (s s' : WiredTask (M := M) (N := N)) : Prop :=
  wp_net s' = wp_net s \/
  exists c ec, (wp_phase s' = Holding c \/ wp_phase s' = Stuck c) /\ wc_mode c = EapMode ec
    /\ WiredFacts.authenticated (ec_peer ec).

Lemma stop_client_ok i c next w net connected :
  (next = Pausing \/ exists b, next = Ended b) ->
  eap_port (stop_client i c next w net connected) /\ wp_net (stop_client i c next w net connected) = net.
Proof.
  intros Hn. unfold stop_client. destruct (wired_shutdown _ _) as [c' [[]|e| |]]; cbn [snd]; split; try done;
    by destruct Hn as [->|[b ->]].
Qed.

Lemma configure_ok e iface i c ec w net b s :
  wp_net s = net -> wc_mode c = EapMode ec -> WiredFacts.authenticated (ec_peer ec) ->
  eap_port (configure e iface i c (Holding c) w net b) /\ turn_ok s (configure e iface i c (Holding c) w net b).
Proof.
  intros _ Hc Ha. unfold configure. destruct (apply_network_config _ _ _ _ _ _) as [net' [[]|x| |]];
    (split; [try done; by exists ec|right; exists c, ec; auto]).
Qed.

Lemma wired_turn_ok e eap iface k s :
  eap_port s ->
  eap_port (wired_turn make_method e (AuthEap eap) iface k s)
  /\ turn_ok s (wired_turn make_method e (AuthEap eap) iface k s).
Proof.
  unfold eap_port at 1, wired_turn. destruct (wp_phase s) as [|c|c| |b|c] eqn:Hp; intros Hs.
  - destruct (init_with_auth _ _ _ _) as [w [c|x| |]] eqn:Hi; try (split; [done|by left]).
    + split; [by eapply init_eap|by left].
    + unfold eap_port. rewrite Hp. split; [done|by left].
    + unfold eap_port. rewrite Hp. split; [done|by left].
  - destruct k as [i|i].
    + destruct (stop_client_ok i c (Ended (wp_connected s)) (wp_io s) (wp_net s) (wp_connected s)) as [H1 H2];
        [by right; eexists|]. split; [done|by left].
    + destruct Hs as (ec & Hc & Ha). unfold drive.
      destruct (wired_run (ti_fuel i) (ti_session i) (c, wp_io s)) as [[c' w'] r] eqn:Hr.
      destruct (wired_run_eap _ _ _ _ _ _ _ _ Hc Ha Hr) as (ec' & Hc' & Ha' & Hst).
      destruct r as [[]|x| |]; cbn [is_macsec];
        try (split; [by exists ec'|by left]); try (split; [done|by left]);
        try (destruct (stop_client_ok i c' Pausing w' (wp_net s) (wp_connected s)) as [H1 H2]; [by left|];
             split; [done|by left]).
      assert (WiredFacts.authenticated (ec_peer ec')) as Hauth by (apply Ha'; by apply Hst).
      destruct (wp_connected s); [split; [by exists ec'|by left]|by eapply configure_ok].
  - destruct k as [i|i].
    + destruct (stop_client_ok i c (Ended (wp_connected s)) (wp_io s) (wp_net s) (wp_connected s)) as [H1 H2];
        [by right; eexists|]. split; [done|by left].
    + destruct Hs as (ec & Hc & Ha). destruct (wp_connected s); [|by eapply configure_ok].
      unfold eap_port. rewrite Hp. split; [by exists ec|by left].
  - destruct k; split; try done; by left.
  - unfold eap_port. rewrite Hp. split; [done|by left].
  - unfold eap_port. rewrite Hp. split; [done|by left].
Qed.

Lemma wired_turns_ok e eap iface wakes s :
  eap_port s -> eap_port (fold_left (fun s k => wired_turn make_method e (AuthEap eap) iface k s) wakes s).
Proof. revert s. induction wakes as [|k wakes IH]; intros s Hs; [done|]. cbn. by apply IH, wired_turn_ok. Qed.

(** C20: an 802.1X port gets its addresses, routes and name servers only once it is
    authorised: a turn of the task of the port, in any state it can reach, leaves the
    network alone unless the client has by then the protected success indication of the
    authentication server and a key. *)
Theorem port_configured_after_authentication e eap wakes w net s k auth iface :
  EthernetEntry.eap e = Some eap -> EthernetEntry.macsec e = None ->
  wired_auth_and_ip_iface e = Ok (auth, iface) ->
  run_wired_interface make_method e wakes w net = Ok s ->
  let s' := wired_turn make_method e auth iface k s in
  wp_net s' <> wp_net s ->
  exists c ec m key, (wp_phase s' = Holding c \/ wp_phase s' = Stuck c) /\ wc_mode c = EapMode ec
    /\ EapPeer.method (ec_peer ec) = Some m /\ success_indication_received m = true /\ msk m = Some key.
Proof.
  intros He Hm Hauth Hrun s' Hne. unfold run_wired_interface in Hrun.
  apply bind_ok in Hrun as ([auth' iface'] & Hauth' & Hrun). rewrite Hauth in Hauth'. injection Hauth' as <- <-.
  injection Hrun as <-.
  unfold wired_auth_and_ip_iface in Hauth. rewrite He, Hm in Hauth. injection Hauth as <- <-.
  destruct (wired_turn_ok e (EapEntry.to_lib eap) (EthernetEntry.name e) k _
              (wired_turns_ok e (EapEntry.to_lib eap) (EthernetEntry.name e) wakes (mkWiredTask Starting w net false) I))
    as [_ [Heq|(c & ec & Hp & Hc & m & key & H1 & H2 & H3)]]; [done|]. exists c, ec, m, key. auto.
Qed.

(** A port is configured once: after the first success no turn touches the network
    again, whatever happens to the client.  An error of a MACsec session makes the task
    delete the MACsec netdev and, with a new client, create it again; the addresses and
    routes went with the first one and are not put on the second. *)
Theorem port_configured_once e auth iface wakes s :
  wp_connected s = true ->
  let s' := fold_left (fun s k => wired_turn make_method e auth iface k s) wakes s in
  wp_net s' = wp_net s /\ wp_connected s' = true.
Proof.
  revert s. induction wakes as [|k wakes IH]; intros s Hs; [done|]. cbn [fold_left].
  enough (wp_net (wired_turn make_method e auth iface k s) = wp_net s
          /\ wp_connected (wired_turn make_method e auth iface k s) = true) as [<- Hc] by by apply IH.
  unfold wired_turn, drive, stop_client. rewrite Hs.
  repeat (case_match; simplify_eq/=; try done).
Qed.

End WiredPort.
End DaemonMainFacts.
