(* ===== verification/DaemonDemo.v ===== *)
(** * A concrete daemon

    Stand-ins for the network, the WiFi client, the sockets and the MACsec device, and the
    runs of the daemon's tasks on them that are the witnesses of the theorems of
    [DaemonMain]. *)

From stdpp Require Import gmap list.
From S2P Require Import Prelude Errors Net IpText WifiConfig Mka ClientState.
From S2P Require Import TrafficSelector Identity IpsecConfig DaemonConfig.
From S2P Require Import Eap Macsec MkaSession Wired DaemonNet DaemonMain.

Module DaemonDemo.

(** The files that were written. *)
#[local] Instance file_net : NetOps (list string) := {|
  rtnl_connect := fun w => (w, inr tt);
  link_index_of := fun _ w => (w, inr (Some 3));
  address_add := fun _ _ _ _ w => (w, inr tt);
  route_add := fun _ w => (w, inr tt);
  route_del := fun _ w => (w, inr tt);
  route_list := fun w => (w, inr []);
  write_file := fun path _ w => (w ++ [path], inr tt);
  DhcpClient := unit;
  dhcp_init := fun _ _ w => (w, inr tt);
  dhcp_run := fun c w => ((c, w), inl "no server");
|}.

(** ** WiFi *)

(** A client that is always connected to one network. *)
#[local] Instance home_driver : WifiDriver unit := {|
  drv_run := fun c => (c, Ok ("wlan0", ConnectedWithoutOffloadRekey));
  drv_current_ssid := fun _ _ => Some "home";
  drv_shutdown := id;
|}.

Definition home_entry : WifiEntry.t :=
  WifiEntry.mk "home" None None false false true (-70) (-80) false None CfgAuto None false false None
    (Some (mkDnsConfig ["192.0.2.53"] [])) None None.

Definition home_groups : Groups := [("wlan0", [home_entry])].


(** ** A wired port *)

(** The frames of the wire; the files of the port under [/sys]. *)
#[local] Instance port_io : WiredIo := {|
  Io := list (list Z);
  debug_text := id;
  read_text := fun path w => (w, inr (if bool_decide (path = "/sys/class/net/eth0/ifindex") then "3" else "02:00:00:00:00:01"));
  Fd := unit;
  socket_open := fun _ w => (w, inr tt);
  socket_clone := fun _ w => (w, inr tt);
  socket_register := fun _ w => (w, inr tt);
  socket_send := fun _ _ _ w => (w, None);
  socket_wait := fun _ _ w => match w with [] => ([], TimedOut) | f :: w => (w, Bytes f) end;
  io_random := fun n w => (w, inr (replicate n 0));
  io_now := fun w => (w, 0);
|}.

#[local] Instance short_eap : EapMethod bool := WiredFacts.short_method.

#[local] Instance no_mka : MkaCryptoLib := {|
  m_cmac := fun _ _ => replicate 16 0;
  m_kw_wrap := fun _ _ => inl "none";
  m_kw_unwrap := fun _ _ => inl "none";
|}.

#[local] Instance no_device : SecyOps := {|
  Dev := unit;
  dev_install_rx_sa := fun _ _ _ _ => mret tt;
  dev_install_tx_sa := fun _ _ _ _ => mret tt;
  dev_set_tx_sa_active := fun _ => mret tt;
  dev_remove_rx_sc := fun _ => mret tt;
  dev_clear_sas := mret tt;
|}.

Definition demo_make : WifiConfig.EapConfig -> st (@Io port_io) WifiError.t bool := fun _ => mret false.

Definition demo_inputs : TurnInputs :=
  mkTurnInputs 1
    (MkaSession.mkRunInputs (Ok tt) 0 0 (Ok tt) 0 MkaSession.Nothing (MkaSession.mkInputs 0 0 0 None (inr [])) 0
       (inr []) 0 0 (Ok tt) 0) 0 (Ok tt).

Definition eth0 : EthernetEntry.t :=
  EthernetEntry.mk "eth0" (Some (EapEntry.mk "user" None None None None)) None (Some (mkDnsConfig [] [])) None None.

(** A request of the method, and a success. *)
Definition wire : @Io port_io :=
  [WiredFacts.frame_of [3; 7; 0; 4]; WiredFacts.frame_of [1; 7; 0; 6; 13; 9]; WiredFacts.frame_of [3; 7; 0; 4]].

Definition demo_turn (k : WiredWake) (s : WiredTask (N := list string)) : WiredTask :=
  wired_turn demo_make eth0 (AuthEap (mkEapConfig "user" None None None None)) "eth0" k s.

Definition before_success : WiredTask (N := list string) :=
  fold_left (fun s k => demo_turn k s) (replicate 4 (WiredReady demo_inputs)) (mkWiredTask Starting wire [] false).

Lemma port_configured_after_authentication_witness :
  exists c ec m key, (wp_phase (demo_turn (WiredReady demo_inputs) before_success) = Holding c
                      \/ wp_phase (demo_turn (WiredReady demo_inputs) before_success) = Stuck c)
    /\ wc_mode c = EapMode ec /\ EapPeer.method (ec_peer ec) = Some m
    /\ success_indication_received m = true /\ msk m = Some key.
Proof.
  apply (DaemonMainFacts.port_configured_after_authentication demo_make eth0
           (EapEntry.mk "user" None None None None) (replicate 4 (WiredReady demo_inputs)) wire [] before_success
           (WiredReady demo_inputs) (AuthEap (mkEapConfig "user" None None None None)) "eth0" eq_refl eq_refl eq_refl eq_refl).
  vm_compute. discriminate.
Defined.

Lemma port_configured_once_witness :
  let s := demo_turn (WiredReady demo_inputs) before_success in
  wp_connected s = true /\
  wp_net (fold_left (fun s k => demo_turn k s) [WiredReady demo_inputs; WiredShutdown demo_inputs] s) = wp_net s.
Proof.
  cbv zeta. split; [vm_compute; reflexivity|].
  exact (proj1 (DaemonMainFacts.port_configured_once demo_make eth0 (AuthEap (mkEapConfig "user" None None None None)) "eth0"
           [WiredReady demo_inputs; WiredShutdown demo_inputs] (demo_turn (WiredReady demo_inputs) before_success)
           ltac:(vm_compute; reflexivity))).
Defined.

End DaemonDemo.
