(* ===== verification/DaemonIpsec.v ===== *)
(** * The IPsec side of the daemon

    [src/src/daemon/ipsec.rs]: what the daemon does with the events of the IKE engine.  It
    creates the XFRM interface of a connection, installs the Child SA through the manager of
    [Xfrm], adds the addresses and routes of the lease, and undoes all of it when the Child
    SA is removed or replaced.  The kernel is that of [Xfrm] ([Kernel]) and [DaemonNet]
    ([NetOps] on the same world); the socket that asks for the source address of a route is
    [SourceProbe].  Theorems on the handling are in [IpsecDemo]. *)

From S2P Require Import Prelude Errors Net IpText WifiConfig Mka.
From S2P Require Import TrafficSelector Identity IpsecConfig DaemonConfig.
From S2P Require Import IkeProposals IkeCrypto IkeSa IkeWorld IkeTransport IkeAuth IkeEngine.
From S2P Require Import Xfrm DaemonNet.

(** A route the daemon added: destination, prefix length and interface. *)
Definition RouteEntry : Type := IpAddr * Z * Z.

Record Applied := mkApplied {
  ap_installed : InstalledChildSa;
  ap_interface : option XfrmInterface;
  ap_routes : list RouteEntry;
}.

(** [ipsec_error] of this file: the kind of the library's error decides. *)
Definition to_wifi_error (e : IpsecError.t) : WifiError.t :=
  let kind :=
    match IpsecError.kind e with
    | IpsecError.Config => WifiError.InvalidConfig
    | IpsecError.Authentication | IpsecError.Identity => WifiError.AuthFailed
    | IpsecError.Timeout => WifiError.ConnectFailed
    | IpsecError.Io => WifiError.Io
    | _ => WifiError.ConnectFailed
    end in
  WifiError.new kind (ipsec_error_string e).

(** [netlink_error]. *)
Definition rtnl_error (e : string) : WifiError.t := WifiError.new WifiError.Nl80211 e.

(** [client_lease]. *)
Definition client_lease (lease : IpsecLease.t) : option DnsConfig :=
  match IpsecLease.dns lease with
  | [] => None
  | dns => Some (mkDnsConfig (ip_string <$> dns) [])
  end.

Class SourceProbe `{Kernel} := {
  udp_bind : bool -> World -> World * (string + unit);
  udp_connect : IpAddr -> World -> World * (string + unit);
  udp_local_ip : World -> World * (string + IpAddr);
}.

Section WithDaemon.
Context {kernel : Kernel} {netops : NetOps World} {probe : SourceProbe}.

Abbreviation task := (st Manager WifiError.t).

(** A method of the manager, and an operation on the world it holds. *)
Definition on_manager {A} (f : st Manager IpsecError.t A) : task A := fun m =>
  let '(m', r) := f m in (m', map_err to_wifi_error r).
Definition on_net {A} (f : st World WifiError.t A) : task A := fun m =>
  let '(w, r) := f (world m) in (put_world w m, r).

(** ** Addresses and routes *)

Definition route_source_ip (remote : IpAddr) : st World WifiError.t IpAddr :=
  net_ask (udp_bind (is_ipv4 remote)) (fun e => ipsec_config_error ("probe local address: " +:+ e));;
  net_ask (udp_connect remote)
    (fun e => ipsec_config_error ("probe local address for " +:+ ip_string remote +:+ ": " +:+ e));;
  net_ask udp_local_ip (fun e => ipsec_config_error ("probe local address: " +:+ e)).

(** The loop of [apply_link_addresses]. *)
Fixpoint add_inner_addresses (if_index : Z) (l : list IpNet.t) : st World WifiError.t unit :=
  match l with
  | [] => mret tt
  | n :: l =>
      let host_prefix := if is_ipv4 (IpNet.address n) then 32 else 128 in
      if negb (IpNet.prefix_len n =? host_prefix) then add_inner_addresses if_index l
      else fun w =>
        match address_add false if_index (IpNet.address n) (IpNet.prefix_len n) w with
        | (w', inr _) => add_inner_addresses if_index l w'
        | (w', inl e) =>
            if contains_str "File exists" e then add_inner_addresses if_index l w'
            else (w', Err (rtnl_error e))
        end
  end.

Definition apply_link_addresses (i : XfrmInterface) (lease : IpsecLease.t) : st World WifiError.t unit :=
  net_ask rtnl_connect rtnl_error;;
  add_inner_addresses (xi_if_index i) (IpsecLease.local_inner_addresses lease).

(** [add_route]: nothing for a default route, and nothing when the route is there. *)
Definition add_ipsec_route (if_index : Z) (selector : TrafficSelector.t)
  : st World WifiError.t (option RouteEntry) :=
  let network := net_from_selector selector in
  if IpNet.prefix_len network =? 0 then mret None else
  let add : st World WifiError.t (option RouteEntry) := fun w =>
    match route_add (mkRoute (IpNet.address network) (IpNet.prefix_len network) None None if_index) w with
    | (w', inr _) => (w', Ok (Some (IpNet.address network, IpNet.prefix_len network, if_index)))
    | (w', inl e) => if contains_str "File exists" e then (w', Ok None) else (w', Err (rtnl_error e))
    end in
  net_ask rtnl_connect rtnl_error;; add.

(** The loop over the remote selectors; what was added is kept when it fails. *)
Fixpoint add_ipsec_routes (if_index : Z) (l : list TrafficSelector.t) (routes : list RouteEntry) (w : World)
  : World * list RouteEntry * outcome WifiError.t unit :=
  match l with
  | [] => (w, routes, Ok tt)
  | s :: l =>
      match add_ipsec_route if_index s w with
      | (w', Ok (Some route)) => add_ipsec_routes if_index l (routes ++ [route]) w'
      | (w', Ok None) => add_ipsec_routes if_index l routes w'
      | (w', Err e) => (w', routes, Err e)
      | (w', Panic) => (w', routes, Panic)
      | (w', Diverge) => (w', routes, Diverge)
      end
  end.

(** The loop of [remove_routes]. *)
Fixpoint delete_routes (if_index : Z) (l : list RouteEntry) (w : World) : World :=
  match l with
  | [] => w
  | (address, prefix_len, index) :: l =>
      if negb (index =? if_index) then delete_routes if_index l w
      else delete_routes if_index l (route_del (mkRoute address prefix_len None None index) w).1
  end.

Definition remove_routes (if_index : Z) (routes : list RouteEntry) : st World WifiError.t unit := fun w =>
  match routes with
  | [] => (w, Ok tt)
  | _ => match rtnl_connect w with
         | (w', inl _) => (w', Ok tt)
         | (w', inr _) => (delete_routes if_index routes w', Ok tt)
         end
  end.

(** ** A Child SA *)

(** The future [setup] of [apply_child]. *)
Definition setup_interface (interface : option XfrmInterface) (lease : IpsecLease.t) (m : Manager)
  : Manager * list RouteEntry * outcome WifiError.t unit :=
  match interface with
  | None => (m, [], Ok tt)
  | Some i =>
      match on_net (apply_link_addresses i lease) m with
      | (m', Ok _) =>
          let '(w, routes, r) := add_ipsec_routes (xi_if_index i) (IpsecLease.remote_selectors lease) [] (world m') in
          (put_world w m', routes, r)
      | (m', r) => (m', [], r)
      end
  end.

(** [let _ = manager.remove(..)]. *)
Definition ignore_error {A} (f : st Manager IpsecError.t A) : task unit := fun m =>
  match f m with
  | (m', Ok _) | (m', Err _) => (m', Ok tt)
  | (m', Panic) => (m', Panic)
  | (m', Diverge) => (m', Diverge)
  end.

Definition install_spec (config : IpsecConfig.t) (lease : IpsecLease.t) (interface : option XfrmInterface)
  (local_address remote_address : IpAddr) : InstallSpec.t :=
  InstallSpec.mk interface
    (match interface with Some _ => IpsecLease.if_id lease | None => 0 end)
    (IpsecLease.reqid lease) local_address remote_address (child_mode (IpsecConfig.child config))
    (child_lifetime (IpsecConfig.child config)) (priority (IpsecConfig.xfrm config))
    (replay_window (IpsecConfig.child config)) (mark (IpsecConfig.xfrm config))
    (mark_mask (IpsecConfig.xfrm config)) (bool_decide (IpsecConfig.topology config = SiteToSite))
    (IpsecLease.nat_t lease).

(** The end of [apply_child]: a failed setup is undone. *)
Definition finish_setup (installed : InstalledChildSa) (interface : option XfrmInterface) (lease : IpsecLease.t)
  : task Applied := fun m =>
  match setup_interface interface lease m with
  | (m', routes, Ok _) => (m', Ok (mkApplied installed interface routes))
  | (m', routes, Err e) =>
      ((match interface with
        | Some i => on_net (remove_routes (xi_if_index i) routes)
        | None => mret tt
        end);;
       ignore_error (remove installed);;
       throw e) m'
  | (m', _, Panic) => (m', Panic)
  | (m', _, Diverge) => (m', Diverge)
  end.

Definition apply_child (config : IpsecConfig.t) (child : ChildSaHandle.t) (lease : IpsecLease.t) : task Applied :=
  interface ←
    (if bool_decide (child_mode (IpsecConfig.child config) = Tunnel) then
       i ← on_manager (ensure_interface
             (mkXfrmInterfaceSpec (xfrm_interface (IpsecConfig.xfrm config)) (Some (IpsecLease.if_id lease))
                (underlay_interface (IpsecConfig.xfrm config))));
       mret (Some i)
     else mret None);
  remote_address ←
    match IpsecLease.remote_address lease with
    | Some a => mret a
    | None =>
        match IpsecConfig.peers config !! IpsecLease.peer_index lease ≫= (fun p => remote_address (remote p)) with
        | Some a => mret a
        | None => throw (ipsec_config_error "IPsec remote underlay address is unknown")
        end
    end;
  local_address ←
    match IpsecLease.local_address lease with
    | Some a => mret a
    | None =>
        match local_address (IpsecConfig.local config) with
        | Some a => mret a
        | None => on_net (route_source_ip remote_address)
        end
    end;
  installed ← on_manager (install child (install_spec config lease interface local_address remote_address));
  finish_setup installed interface lease.

Definition remove_child (a : Applied) (drop_interface : bool) (keep_routes : list RouteEntry) : task unit :=
  ignore_error (remove (ap_installed a));;
  (match ap_interface a with
   | Some i =>
       on_net (remove_routes (xi_if_index i)
                 (List.filter (fun r => negb (bool_decide (r ∈ keep_routes))) (ap_routes a)))
   | None => mret tt
   end);;
  match ap_interface a with
  | Some i => if drop_interface then ignore_error (remove_interface i) else mret tt
  | None => mret tt
  end.

(** ** Events *)

Record IpsecTask := mkIpsecTask {
  manager : Manager;
  applied : list (string * nat * Applied);
  connected : bool;
}.

Definition put_manager (m : Manager) (s : IpsecTask) : IpsecTask := mkIpsecTask m (applied s) (connected s).
Definition put_applied (x : list (string * nat * Applied)) (s : IpsecTask) : IpsecTask :=
  mkIpsecTask (manager s) x (connected s).

(** [HashMap::get], [insert] and [remove]. *)
Definition applied_get (key : string * nat) (s : IpsecTask) : option Applied :=
  snd <$> find (fun x => bool_decide (x.1 = key)) (applied s).
Definition applied_without (key : string * nat) (s : IpsecTask) : list (string * nat * Applied) :=
  List.filter (fun x => negb (bool_decide (x.1 = key))) (applied s).

(** [let _ = remove_child(..).await]; an error is not possible. *)
Definition do_remove (a : Applied) (drop_interface : bool) (keep_routes : list RouteEntry) (s : IpsecTask) : IpsecTask :=
  put_manager (remove_child a drop_interface keep_routes (manager s)).1 s.

Definition same_interface (old new : Applied) : bool :=
  match ap_interface old, ap_interface new with
  | Some o, Some n => bool_decide (xi_name o = xi_name n)
  | _, _ => false
  end.

(** The lease's name servers go to [/etc/resolv.conf]; an error is logged. *)
Definition apply_dns (lease : IpsecLease.t) (s : IpsecTask) : IpsecTask :=
  match client_lease lease with
  | Some dns => put_manager (on_net (write_resolv_conf dns) (manager s)).1 s
  | None => s
  end.

(** A Child SA that is ready or was refreshed. *)
Definition child_ready (config_map : list (string * IpsecConfig.t)) (connection : string) (peer_index : nat)
  (child : ChildSaHandle.t) (lease : IpsecLease.t) (s : IpsecTask) : IpsecTask :=
  let s := mkIpsecTask (manager s) (applied s) true in
  match snd <$> find (fun x => bool_decide (x.1 = connection)) config_map with
  | None => s
  | Some config =>
      let key := (connection, peer_index) in
      let '(m, r) := apply_child config child lease (manager s) in
      let s := put_manager m s in
      let s :=
        match r with
        | Ok new =>
            match applied_get key s with
            | Some old =>
                do_remove old (negb (same_interface old new)) (ap_routes new)
                  (put_applied ((key, new) :: applied_without key s) s)
            | None => put_applied ((key, new) :: applied_without key s) s
            end
        | _ => s
        end in
      apply_dns lease s
  end.

Definition handle_event (config_map : list (string * IpsecConfig.t)) (e : IpsecEvent) (s : IpsecTask) : IpsecTask :=
  match e with
  | State _ _ | Error _ _ => s
  | ChildSaReady connection peer_index child lease | ChildSaRefreshed connection peer_index child lease =>
      child_ready config_map connection peer_index child lease s
  | ChildSaRemoved connection peer_index _ =>
      match applied_get (connection, peer_index) s with
      | Some old => do_remove old true [] (put_applied (applied_without (connection, peer_index) s) s)
      | None => s
      end
  end.

(** The map of the configurations: a later connection of the same name replaces it. *)
Definition config_map (configs : list IpsecConfig.t) : list (string * IpsecConfig.t) :=
  reverse ((fun c => (IpsecConfig.name c, c)) <$> configs).

(** [run_ipsec] on the events until shutdown: what is left is removed. *)
Definition run_ipsec (configs : list IpsecConfig.t) (events : list IpsecEvent) (w : World) : IpsecTask :=
  let s := fold_left (fun s e => handle_event (config_map configs) e s) events (mkIpsecTask (manager_new w) [] false) in
  let left := visit_order (applied s) in
  let s := fold_left (fun s x => do_remove x.2 true [] s) left (put_applied [] s) in
  put_manager (ignore_error cleanup_owned (manager s)).1 s.

End WithDaemon.
