(* ===== verification/WifiInvariant.v ===== *)
(** * What every step of a WiFi interface preserves

    [wf] is the invariant of [W]: bounds of the timers and counters, the SAE flags, the
    PMKSA cache, and the keys of a Fast BSS Transition in flight, which come from the
    PMK-R0 of the connection.  [advances] relates two states of an interface: the
    invariant and the configuration are kept, requests are only added, and the connection
    becomes live only for a reason.  Each method of [WifiIface.v], [WifiAuth.v], [Roam.v],
    [WifiEvents.v] and [ClientLoop.v] has a lemma in the database [along], here
    or in [WifiSafety.v], where the theorems for an event, a run and an update follow. *)

From stdpp Require Import gmap.
From S2P Require Import Prelude Errors Eap EapTls Security Pmksa WifiKdf FourWay Sae Owe.
From S2P Require Import WifiConfig ClientState Scan WifiIface WifiAuth Roam WifiEvents.
From S2P Require Import ClientLoop.

Section invariant.
Context `{!Supplicant} `{!FrameLib} `{!Host}.

(** ** The invariant *)

(** Retry and scheduled-scan intervals, in seconds. *)
Definition pno_ok (p : PnoState) : Prop :=
  RETRY_BACKOFF_INIT_SEC <= p_scan_retry_interval p <= RETRY_BACKOFF_MAX_SEC
  /\ SCHED_SCAN_INTERVAL_SEC <= p_sched_scan_interval_sec p <= RETRY_BACKOFF_MAX_SEC.

(** At most one SAE frame is in flight, sent again at most [SAE_SYNC_MAX] times. *)
Definition auth_ok (a : AuthSession) : Prop :=
  0 <= a_sae_sync a <= SAE_SYNC_MAX /\ a_sae_commit_sent a && a_sae_confirm_sent a = false.

Definition freqs_ok (i : Iface) : Prop := (length (roam_freqs i) <= ROAM_QUICK_SCAN_MAX_FREQS)%nat.

(** The keys of a Fast BSS Transition: a PMK-R1 derived from the PMK-R0 of the
    connection, and a PTK derived from it for our SNonce and the target. *)
Definition ft_keys_ok (mac : list Z) (ft : option FtContext) (roam : FtRoam) : Prop :=
  forall ptk, fr_ptk roam = Some ptk ->
  exists c r1kh r1 anonce,
    ft = Some c /\ fr_r1kh_id roam = Some r1kh /\ fr_pmk_r1 roam = Some r1
    /\ derive_pmk_r1 (ft_pmk_r0 c) r1kh mac = Ok r1
    /\ derive_ft_ptk r1 (fr_snonce roam) anonce (bssid (fr_target roam)) mac = Ok ptk.

Definition ft_ok (w : W) : Prop :=
  if_mlme (w_iface w) = SoftMac ->
  from_option (ft_keys_ok (w_mac w) (l_ft (w_link w))) True (r_ft_roam (w_roam w)).

Definition wf (w : W) : Prop :=
  pno_ok (w_pno w) /\ auth_ok (w_auth w) /\ freqs_ok (w_iface w) /\ ft_ok w
  /\ PmksaSpec.wf (w_pmksa w).

(** ** Steps *)

Definition live (w : W) : bool := connection_is_live (w_state w) (r_pre_roam_state (w_roam w)).

(** What only [update_networks] or nothing changes. *)
Definition config (w : W) : list Z * MlmeMode * list NetworkConfig.t :=
  (w_mac w, if_mlme (w_iface w), if_networks (w_iface w)).

(** A request after the first [n] is a pairwise key with [okey], and the kernel took it. *)
Definition keyed_since (n : nat) (okey : Key -> Prop) (log : list Command) : Prop :=
  exists i k, (n <= i)%nat /\ log !! i = Some (NewKey k) /\ k_type k = Pairwise /\ okey k
              /\ kernel_reply (take i log) (NewKey k) = None.

(** The TK of a PTK (KCK, KEK and TK of 16 octets each), for a station. *)
Definition tk_key_of (mac ptk : list Z) (k : Key) : Prop :=
  k_mac k = Some mac /\ k_data k = take 16 (drop 32 ptk).

(** The TK of the 4-way handshake of the link, once it has accepted a Message 3. *)
Definition handshake_key (w : W) (k : Key) : Prop :=
  exists fw message fw' answer,
    l_fourway (w_link w) = Some fw
    /\ FourWayState.process_message_3 message fw = (fw', Ok answer)
    /\ k_mac k = Some (bssid (bss_info w)) /\ FourWayState.tk fw' = Some (k_data k).

(** The TK of the transition in flight, once the target's response is checked under its PTK. *)
Definition transition_key (w : W) (k : Key) : Prop :=
  exists roam ptk r1kh r1 ies ftie,
    r_ft_roam (w_roam w) = Some roam /\ fr_ptk roam = Some ptk
    /\ fr_r1kh_id roam = Some r1kh /\ fr_pmk_r1 roam = Some r1
    /\ check_ft_assoc (w_mac w) (fr_target roam) ptk r1kh r1 ies = Ok ftie
    /\ tk_key_of (bssid (fr_target roam)) ptk k.

(** [reason]: what else may make the connection live. *)
Definition advances (n : nat) (okey : Key -> Prop) (reason : Prop) (w w' : W) : Prop :=
  (wf w -> wf w') /\ config w' = config w /\ w_log w `prefix_of` w_log w'
  /\ (live w' = true -> live w = true \/ reason \/ keyed_since n okey (w_log w')).

End invariant.

Module WifiInvariantFacts.
Section steps.
Context `{!Supplicant} `{!FrameLib} `{!Host} (n : nat) (okey : Key -> Prop) (reason : Prop).

Abbreviation R := (advances n okey reason).

Lemma keyed_mono m l l' : l `prefix_of` l' -> keyed_since m okey l -> keyed_since m okey l'.
Proof.
  intros [l2 ->] (i & k & Hi & Hk & Ht & Ho & Ha). exists i, k.
  assert (i < length l)%nat by (by eapply lookup_lt_Some).
  rewrite lookup_app_l, take_app_le by lia. done.
Qed.

#[global] Instance advances_preorder : PreOrder R.
Proof.
  split.
  - intros w. split_and!; [done|done|done|]. by left.
  - intros w1 w2 w3 (W1 & C1 & L1 & V1) (W2 & C2 & L2 & V2). split_and!.
    + auto.
    + by rewrite C2.
    + by etrans.
    + intros Hv. destruct (V2 Hv) as [Hv2|?]; [|by right].
      destruct (V1 Hv2) as [?|[?|?]]; [by left|by right; left|].
      right. right. by eapply keyed_mono.
Qed.

(** An assignment that none of [advances] looks at. *)
Lemma advances_refl w : R w w.
Proof. reflexivity. Qed.

Lemma advances_wf w w' : (wf w -> wf w') -> config w' = config w -> w_log w' = w_log w ->
  (live w' = true -> live w = true) -> R w w'.
Proof. intros ?? Hl ?. split_and!; [done..|by rewrite Hl|auto]. Qed.

(** Assignments that leave alone what [advances] looks at. *)
Lemma advances_view w w' :
  w_state w' = w_state w -> r_pre_roam_state (w_roam w') = r_pre_roam_state (w_roam w) ->
  r_ft_roam (w_roam w') = r_ft_roam (w_roam w) -> l_ft (w_link w') = l_ft (w_link w) ->
  w_pmksa w' = w_pmksa w -> w_log w' = w_log w -> w_mac w' = w_mac w ->
  roam_freqs (w_iface w') = roam_freqs (w_iface w) -> if_mlme (w_iface w') = if_mlme (w_iface w) ->
  if_networks (w_iface w') = if_networks (w_iface w) ->
  p_scan_retry_interval (w_pno w') = p_scan_retry_interval (w_pno w) ->
  p_sched_scan_interval_sec (w_pno w') = p_sched_scan_interval_sec (w_pno w) ->
  a_sae_commit_sent (w_auth w') = a_sae_commit_sent (w_auth w) ->
  a_sae_confirm_sent (w_auth w') = a_sae_confirm_sent (w_auth w) ->
  a_sae_sync (w_auth w') = a_sae_sync (w_auth w) -> R w w'.
Proof.
  intros Hs Hp Hr Hl Hc Hg Hm Hf Hx Hn E1 E2 E3 E4 E5. apply advances_wf; [|unfold config; congruence|done|].
  - unfold wf, pno_ok, auth_ok, freqs_ok, ft_ok. by rewrite Hr, Hl, Hc, Hm, Hf, Hx, E1, E2, E3, E4, E5.
  - unfold live. by rewrite Hs, Hp.
Qed.

(** An assignment of the state: of a live connection if it is a connected one. *)
Lemma advances_state s w w' :
  (is_connected s = true -> live w = true) -> R w w' -> R w (put_w_state s w').
Proof.
  intros Hs (? & ? & ? & Hv). split_and!; [done..|].
  unfold live, connection_is_live in *. cbn. intros [Hc|Hc]%orb_true_iff; [auto|].
  apply Hv. by rewrite Hc, orb_true_r.
Qed.

Lemma advances_dead s w w' : is_connected s = false -> R w w' -> R w (put_w_state s w').
Proof. intros Hs. apply advances_state. by rewrite Hs. Qed.

Lemma advances_connected s w w' :
  reason \/ keyed_since n okey (w_log w') -> R w w' -> R w (put_w_state s w').
Proof. intros Hk (? & ? & ? & Hv). split_and!; [done..|]. auto. Qed.

(** Assignments of the state and of the one to come back to. *)
Lemma advances_live w w' : (live w' = true -> live w = true) ->
  R w (put_w_state (w_state w)
         (on_roam (put_r_pre_roam_state (r_pre_roam_state (w_roam w))) w')) -> R w w'.
Proof. intros Hv (? & ? & ? & _). split_and!; auto. Qed.

Lemma advances_pmksa w w' : (PmksaSpec.wf (w_pmksa w) -> PmksaSpec.wf (w_pmksa w')) ->
  R w (put_w_pmksa (w_pmksa w) w') -> R w w'.
Proof.
  intros Hc (Hw & Hk & Hl & Hv). split_and!; [|done..].
  intros H2. destruct (Hw H2) as (? & ? & ? & ? & _). destruct H2 as (_ & _ & _ & _ & ?).
  split_and!; auto.
Qed.

Lemma advances_auth w w' : (auth_ok (w_auth w) -> auth_ok (w_auth w')) ->
  R w (put_w_auth (w_auth w) w') -> R w w'.
Proof.
  intros Hc (Hw & Hk & Hl & Hv). split_and!; [|done..].
  intros H2. destruct (Hw H2) as (? & _ & ? & ? & ?). destruct H2 as (_ & ? & _). split_and!; auto.
Qed.

Lemma advances_pno w w' : (pno_ok (w_pno w) -> pno_ok (w_pno w')) ->
  R w (put_w_pno (w_pno w) w') -> R w w'.
Proof.
  intros Hc (Hw & Hk & Hl & Hv). split_and!; [|done..].
  intros H2. destruct (Hw H2) as (_ & ? & ? & ? & ?). destruct H2 as (? & _). split_and!; auto.
Qed.

(** No Fast BSS Transition is in flight any more. *)
Lemma advances_no_ft w w' : R w w' -> R w (on_roam (put_r_ft_roam None) w').
Proof.
  intros Hr. etrans; [exact Hr|]. apply advances_wf; [|done..].
  intros (? & ? & ? & _ & ?). split_and!; [done..|by intros _|done].
Qed.

Lemma along_result_of {A} w0 (m : wm A) w : along R w0 m w -> along R w0 (result_of m) w.
Proof. unfold along, result_of. by destruct (m w) as [w' []]. Qed.

End steps.

Ltac adv :=
  idtac; lazymatch goal with
  | |- advances _ _ _ _ (on_roam (put_r_ft_roam None) _) => apply advances_no_ft; adv
  | |- advances _ _ _ _ (put_w_state _ _) =>
      first [ apply advances_dead; [reflexivity|]; adv | apply advances_view; [reflexivity..] ]
  | |- advances _ _ _ _ _ => apply advances_view; [reflexivity..]
  end.

(** The same for assignments that forget, restore or keep a connected state. *)
Ltac adv_live :=
  apply advances_live; [unfold live, connection_is_live; cbn -[is_connected]|adv];
  repeat match goal with H : r_pre_roam_state _ = Some _ |- _ => cbn in H; rewrite H; clear H end;
  cbn -[is_connected];
  rewrite ?orb_false_r, ?orb_true_iff; tauto.

(** Steps through the combinators of the interface's methods. *)
Ltac go_step :=
  lazymatch goal with
  | |- along _ _ (set_state _) _ => unfold set_state
  | |- along _ _ (set_state _ ≫= _) _ => unfold set_state
  | |- along _ _ (result_of _) _ => apply along_result_of
  | |- along _ _ (logged _) _ => unfold logged
  | |- along _ _ (on_error _ _) _ => unfold on_error
  | |- along _ _ (or_failed _ _) _ => unfold or_failed
  | |- along _ _ (some_or_failed _ _) _ => unfold some_or_failed
  | |- along _ _ (let '(_, _) := ?x in _) _ => destruct x eqn:?
  | |- along _ _ _ _ => along_step adv
  end.
Ltac go := intros; repeat go_step.

(** Before a call that needs an argument. *)
Ltac call := refine (along_call _ _ _ _ _ _); [adv|].

Section host.
Context `{!Supplicant} `{!FrameLib} `{!Host} (n : nat) (okey : Key -> Prop) (reason : Prop).

Abbreviation R := (advances n okey reason).

Lemma along_reading {A} (f : nat -> A) w : along R w (reading f) w.
Proof. exact (advances_refl n okey reason w). Qed.

Lemma along_raw_request c w : along R w (raw_request c) w.
Proof. split_and!; [done|done|by exists [c]|by left]. Qed.
#[local] Hint Resolve along_reading along_raw_request : along.

Lemma along_now w : along R w now w.
Proof. unfold now. go. Qed.
#[local] Hint Resolve along_now : along.

Lemma along_request c w : along R w (request c) w.
Proof. unfold request. go. Qed.
#[local] Hint Resolve along_request : along.

Lemma along_request_retry c w : along R w (request_retry c) w.
Proof. unfold request_retry. go. Qed.
#[local] Hint Resolve along_request_retry : along.

Lemma along_await_event w : along R w await_event w.
Proof.
  unfold along, await_event. destruct (next_event _ _) as [[[? ?] ?]|]; exact (advances_refl n okey reason w).
Qed.

Lemma along_await_event_or_resume w : along R w await_event_or_resume w.
Proof.
  unfold along, await_event_or_resume. destruct (w_inbox w) as [|[] ?]; exact (advances_refl n okey reason w).
Qed.

Lemma along_wait_remaining d w : along R w (wait_remaining d) w.
Proof. unfold wait_remaining. go. Qed.

Lemma along_clear w : along R w clear_wait_deadline w.
Proof. unfold clear_wait_deadline. go. Qed.

Lemma along_is_ignored b w : along R w (is_ignored b) w.
Proof. unfold is_ignored. go. Qed.

Lemma along_is_associated w : along R w is_associated w.
Proof. unfold is_associated. go. Qed.

Lemma along_current_signal w : along R w current_signal_dbm w.
Proof. unfold current_signal_dbm. go. Qed.

Lemma along_ensure_control_port w : along R w ensure_control_port w.
Proof. unfold ensure_control_port. go. Qed.

Lemma along_send_control_port_frame b f w : along R w (send_control_port_frame b f) w.
Proof. unfold send_control_port_frame. go. Qed.

Lemma along_arm_wowlan w : along R w arm_wowlan w.
Proof. unfold arm_wowlan. go. Qed.

Lemma along_disarm_wowlan w : along R w disarm_wowlan w.
Proof. unfold disarm_wowlan. go. Qed.
#[local] Hint Resolve along_arm_wowlan : along.

Lemma along_arm_if_enabled w : along R w arm_wowlan_if_enabled w.
Proof. unfold arm_wowlan_if_enabled. go. Qed.

Lemma along_fail_auth e w : along R w (fail_auth e) w.
Proof. unfold fail_auth. go. Qed.

End host.

#[export] Hint Resolve along_reading along_raw_request along_now along_request along_request_retry
  along_await_event along_await_event_or_resume along_wait_remaining along_clear along_is_ignored
  along_is_associated along_current_signal along_ensure_control_port along_send_control_port_frame
  along_arm_wowlan along_disarm_wowlan along_arm_if_enabled along_fail_auth : along.

(** ** Scanning *)

(** What a method of the part that scanning works on keeps. *)
Definition scan_keeps (i i' : Iface) : Prop :=
  if_networks i' = if_networks i /\ if_mlme i' = if_mlme i /\ (freqs_ok i -> freqs_ok i').

#[global] Instance scan_keeps_preorder : PreOrder scan_keeps.
Proof.
  split; [by intros i|]. intros i1 i2 i3 (N1 & M1 & F1) (N2 & M2 & F2).
  split_and!; [by rewrite N2|by rewrite M2|auto].
Qed.

Lemma scan_keeps_refl i : scan_keeps i i.
Proof. reflexivity. Qed.

Ltac go_scan := intros; repeat along_step ltac:(exact (scan_keeps_refl _)).

Section scan.
Context `{!Supplicant} `{!FrameLib} `{!Host} (n : nat) (okey : Key -> Prop) (reason : Prop).

Abbreviation R := (advances n okey reason).

Lemma scan_keeps_request r i : along scan_keeps i (send_out_scan_request r) i.
Proof. unfold send_out_scan_request. go_scan. Qed.

Lemma scan_keeps_collect dump i : along scan_keeps i (collect_scan_candidates dump) i.
Proof.
  unfold collect_scan_candidates. go_scan. split_and!; [done..|]. intros _.
  unfold freqs_ok, put_candidates. cbn [roam_freqs]. rewrite length_take. apply Nat.le_min_l.
Qed.
#[local] Hint Resolve scan_keeps_collect : along.

Lemma scan_keeps_results t dump i : along scan_keeps i (process_scan_results t dump) i.
Proof. unfold process_scan_results. go_scan. Qed.

Lemma scan_keeps_roam dump live i : along scan_keeps i (process_roam_scan_results dump live) i.
Proof.
  unfold along, process_roam_scan_results. pose proof (scan_keeps_collect dump (put_post_connect_scan false i)) as Hc.
  unfold along in Hc. destruct (collect_scan_candidates _ _) as [i' [x|e| |]]; try exact Hc.
  assert (along scan_keeps i' (decide_roam (post_connect_scan i) live) i') as Hd.
  { unfold decide_roam. go_scan. }
  etrans; [exact Hc|exact Hd].
Qed.

Lemma along_in_iface {A} (m : imethod A) w :
  along scan_keeps (w_iface w) m (w_iface w) -> along R w (in_iface m) w.
Proof.
  unfold along, in_iface. destruct (m (w_iface w)) as [i r]; cbn. intros (Hn & Hm & Hf).
  apply advances_wf; [|by unfold config; cbn; rewrite Hn, Hm|done|done].
  unfold wf, ft_ok. cbn. rewrite Hm. tauto.
Qed.

Lemma along_scan_request w : along R w scan_request w.
Proof. unfold scan_request. go. apply along_in_iface, scan_keeps_request. Qed.

End scan.

#[export] Hint Resolve along_in_iface along_scan_request scan_keeps_results scan_keeps_roam : along.

(** ** Starting an attempt *)

Section auth.
Context `{!Supplicant} `{!FrameLib} `{!Host} (n : nat) (okey : Key -> Prop) (reason : Prop).

Abbreviation R := (advances n okey reason).

Lemma along_driver_set e w : along R w (driver_set_pmksa e) w.
Proof. unfold driver_set_pmksa. go. Qed.

Lemma along_driver_del e w : along R w (driver_del_pmksa e) w.
Proof. unfold driver_del_pmksa. go. Qed.
#[local] Hint Resolve along_driver_set along_driver_del : along.

Lemma along_driver_del_all es : forall w, along R w (driver_del_all es) w.
Proof. induction es; cbn; go. Qed.
#[local] Hint Resolve along_driver_del_all : along.

Lemma along_invalidate_ssid s w : along R w (invalidate_ssid s) w.
Proof.
  unfold invalidate_ssid. cbn. go.
  all: apply advances_pmksa; [by apply PmksaSpec.wf_filter|adv].
Qed.

Lemma along_remember e w : along R w (remember_pmksa e) w.
Proof.
  unfold remember_pmksa. go. apply advances_pmksa; [|adv].
  intros Hw. by apply PmksaSpec.insert_simulates.
Qed.
#[local] Hint Resolve along_remember : along.

Lemma along_cache_pmksa w : along R w cache_pmksa w.
Proof. unfold cache_pmksa. go. Qed.

Lemma along_read_pem path what w : along R w (read_pem path what) w.
Proof. unfold read_pem. go. Qed.
#[local] Hint Resolve along_read_pem : along.

Lemma along_from_config c w : along R w (from_config c) w.
Proof. unfold from_config, required. go. Qed.
#[local] Hint Resolve along_from_config : along.

Lemma along_eap_tls_method c w : along R w (eap_tls_method c) w.
Proof. unfold eap_tls_method. go. Qed.
#[local] Hint Resolve along_eap_tls_method : along.

Lemma along_connect_request w : along R w send_out_connect_request w.
Proof. unfold send_out_connect_request, connect. go. Qed.

Lemma along_prepare_eap w : along R w prepare_eap w.
Proof. unfold prepare_eap. go. Qed.

Lemma along_lookup_with f w :
  (forall t t' s b sec c, PmksaSpec.wf c -> PmksaSpec.wf (f t t' s b sec c).1) ->
  along R w (lookup_with f) w.
Proof.
  intros Hf. unfold lookup_with. go. apply advances_pmksa; [|adv]. intros Hw. cbn.
  match goal with H : f _ _ _ _ _ _ = _ |- _ => apply (f_equal fst) in H; cbn in H; rewrite <- H end.
  by apply Hf.
Qed.

Lemma along_use_pmksa w : along R w use_pmksa w.
Proof.
  unfold use_pmksa. go.
  all: try (apply along_lookup_with; intros; by apply PmksaSpec.wf_filter).
Qed.

Lemma along_derive_psk w : along R w derive_psk w.
Proof. unfold derive_psk. go. Qed.

Lemma along_with_method {A} (m : st AuthMethod.t WifiError.t A) w : along R w (with_method m) w.
Proof.
  unfold along, with_method. destruct (a_method _) as [x|]; [|exact (advances_refl n okey reason w)].
  destruct (m x). exact (advances_refl n okey reason w).
Qed.

Lemma along_authenticate_bss t d w : along R w (authenticate_bss t d) w.
Proof. unfold authenticate_bss, authenticate. go. Qed.

End auth.

#[export] Hint Resolve along_driver_set along_driver_del along_driver_del_all along_invalidate_ssid
  along_remember along_cache_pmksa along_connect_request along_prepare_eap along_use_pmksa
  along_derive_psk along_with_method along_authenticate_bss : along.

(** ** What an attempt leaves alone

    Until its first SAE frame, an attempt only prepares.  [Quiet f]: the part [f] of the
    state is none of the bookkeeping that the preparation touches. *)

Definition same `{!Supplicant} {T} (f : W -> T) (w w' : W) : Prop := f w' = f w.

#[global] Instance same_preorder `{!Supplicant} {T} (f : W -> T) : PreOrder (same f).
Proof. unfold same. split; [by intros w|]. intros w1 w2 w3 H12 H23. by rewrite H23. Qed.

Class Quiet `{!Supplicant} {T} (f : W -> T) : Prop := {
  quiet_log l w : f (put_w_log l w) = f w;
  quiet_tick n w : f (put_w_tick n w) = f w;
  quiet_raw_port b w : f (put_w_raw_port_open b w) = f w;
  quiet_armed b w : f (put_w_wowlan_armed b w) = f w;
  quiet_tls_config c w : f (put_w_eap_tls_config c w) = f w;
  quiet_peer p w : f (on_auth (put_a_eap_peer p) w) = f w;
  quiet_psk k w : f (on_auth (put_a_psk_pmk k) w) = f w;
  quiet_method m w : f (on_auth (put_a_method m) w) = f w;
  quiet_assoc_ie l w : f (on_link (put_l_assoc_wpa_ie l) w) = f w;
}.

Lemma same_result_of `{!Supplicant} {T} (f : W -> T) {A} w0 (m : wm A) w :
  along (same f) w0 m w -> along (same f) w0 (result_of m) w.
Proof. unfold along, result_of. by destruct (m w) as [w' []]. Qed.

Create HintDb quiet discriminated.
#[global] Hint Constants Opaque : quiet.

Ltac quiet_upd :=
  unfold same;
  rewrite ?quiet_log, ?quiet_tick, ?quiet_raw_port, ?quiet_armed, ?quiet_tls_config, ?quiet_peer,
    ?quiet_psk, ?quiet_method, ?quiet_assoc_ie;
  reflexivity.

Ltac calm_step :=
  lazymatch goal with
  | |- along _ _ (result_of _) _ => apply same_result_of
  | |- along _ _ (logged _) _ => unfold logged
  | |- along _ ?s _ ?s => first [ solve [auto with quiet] | along_step quiet_upd ]
  | |- along _ _ _ _ =>
      first [ along_step quiet_upd
            | refine (along_call _ _ _ _ _ _); [quiet_upd|solve [auto with quiet]] ]
  end.
Ltac calm := intros; repeat calm_step.

Section quiet.
Context `{!Supplicant} `{!FrameLib} `{!Host} {T : Type} (f : W -> T) `{!Quiet f}.

Abbreviation Q := (same f).

Lemma same_reading {A} (g : nat -> A) w : along Q w (reading g) w.
Proof. apply quiet_tick. Qed.

Lemma same_raw_request c w : along Q w (raw_request c) w.
Proof. apply quiet_log. Qed.
#[local] Hint Resolve same_reading same_raw_request : quiet.

Lemma same_request c w : along Q w (request c) w.
Proof. unfold request. calm. Qed.
#[local] Hint Resolve same_request : quiet.

Lemma same_request_retry c w : along Q w (request_retry c) w.
Proof. unfold request_retry. calm. Qed.
#[local] Hint Resolve same_request_retry : quiet.

Lemma same_driver_del e w : along Q w (driver_del_pmksa e) w.
Proof. unfold driver_del_pmksa. calm. Qed.

Lemma same_read_pem path what w : along Q w (read_pem path what) w.
Proof. unfold read_pem. calm. Qed.
#[local] Hint Resolve same_read_pem : quiet.

Lemma same_from_config c w : along Q w (from_config c) w.
Proof. unfold from_config, required. calm. Qed.
#[local] Hint Resolve same_from_config : quiet.

Lemma same_prepare_eap w : along Q w prepare_eap w.
Proof. unfold prepare_eap, eap_tls_method. calm. Qed.

Lemma same_derive_psk w : along Q w derive_psk w.
Proof. unfold derive_psk. calm. Qed.

Lemma same_ensure_control_port w : along Q w ensure_control_port w.
Proof. unfold ensure_control_port. calm. Qed.

Lemma same_with_method {A} (m : st AuthMethod.t WifiError.t A) w : along Q w (with_method m) w.
Proof.
  unfold along, with_method. destruct (a_method _) as [x|]; [|done]. destruct (m x). apply quiet_method.
Qed.

Lemma same_authenticate_bss t d w : along Q w (authenticate_bss t d) w.
Proof. unfold authenticate_bss, authenticate. calm. Qed.

Lemma same_connect_request w : along Q w send_out_connect_request w.
Proof.
  pose proof same_ensure_control_port. unfold send_out_connect_request, connect. calm. all: auto.
Qed.

Lemma same_offload w : along Q w try_offload_rekey w.
Proof. unfold try_offload_rekey. calm. Qed.

Lemma same_arm w : along Q w arm_wowlan_if_enabled w.
Proof. unfold arm_wowlan_if_enabled, arm_wowlan. calm. Qed.

(** The search for a PMKSA changes the cache and the PMKSA in use. *)
Lemma same_use_pmksa w : (forall c w, f (put_w_pmksa c w) = f w) ->
  (forall e w, f (on_link (put_l_pmksa_in_use e) w) = f w) -> along Q w use_pmksa w.
Proof.
  intros Hc He. assert (forall g v, along Q v (lookup_with g) v) as Hl.
  { intros g v. unfold lookup_with, now. calm. apply Hc. }
  pose proof same_driver_del. unfold use_pmksa. calm. all: try apply He. all: auto.
Qed.

End quiet.

#[export] Hint Resolve same_reading same_raw_request same_request same_request_retry
  same_driver_del same_prepare_eap same_derive_psk same_ensure_control_port same_with_method
  same_authenticate_bss same_connect_request same_offload same_arm : quiet.
#[export] Hint Extern 0 (Quiet _) => apply _ : quiet.

(** What the preparation of an attempt does not touch. *)
Definition core `{!Supplicant} (w : W) :=
  (w_state w, w_iface w, w_roam w, w_pno w, w_mac w, l_fourway (w_link w),
   (a_sae_commit_sent (w_auth w), a_sae_confirm_sent (w_auth w), a_sae_sync (w_auth w),
    a_sae_hnp_attempted (w_auth w))).

#[global] Instance core_quiet `{!Supplicant} : Quiet core.
Proof. by split. Qed.

Abbreviation quiet := (same core).

Lemma quiet_use_pmksa `{!Supplicant} `{!FrameLib} `{!Host} w : along quiet w use_pmksa w.
Proof. by apply same_use_pmksa. Qed.

#[export] Hint Resolve quiet_use_pmksa : quiet.

Lemma quiet_confirm `{!Supplicant} w w' b :
  quiet w w' -> a_sae_confirm_sent (w_auth w) = b -> a_sae_confirm_sent (w_auth w') = b.
Proof. unfold same, core. intros [= ?]. congruence. Qed.

(** The calls made so far were quiet. *)
Ltac quiet_path :=
  repeat match goal with
  | H : ?m ?w = (?w', Ok _) |- quiet _ ?w' =>
      transitivity w; [|eapply along_ok; [|exact H]; solve [calm]]
  end;
  try (unfold same; reflexivity).

(** ** An attempt *)

Section attempt.
Context `{!Supplicant} `{!FrameLib} `{!Host} (n : nat) (okey : Key -> Prop) (reason : Prop).

Abbreviation R := (advances n okey reason).

Lemma advances_reset_attempt w : R w (reset_attempt w).
Proof.
  apply advances_wf; [|done..]. intros (? & Ha & ? & _ & ?).
  split_and!; [done|split; cbn; [unfold SAE_SYNC_MAX; lia|done]|done|by intros _|done].
Qed.

Lemma along_start_sae w : a_sae_confirm_sent (w_auth w) = false -> along R w start_sae w.
Proof.
  intros Hc. unfold start_sae. go. apply advances_auth; [|adv].
  intros _. split; [cbn; unfold SAE_SYNC_MAX; lia|]. cbn. apply (quiet_confirm w); [quiet_path|done].
Qed.

Lemma along_send_out w : along R w send_out_auth_request w.
Proof.
  unfold send_out_auth_request. apply along_modify_bind.
  refine (along_call _ _ _ _ _ _); [apply advances_reset_attempt|]. go.
  apply along_start_sae. apply (quiet_confirm (reset_attempt w)); [quiet_path|done].
Qed.
#[local] Hint Resolve along_send_out : along.

Lemma along_drop w : along R w drop_pmksa_in_use w.
Proof.
  unfold drop_pmksa_in_use. go. apply advances_pmksa; [|adv]. intros Hw.
  by eapply PmksaSpec.invalidate_simulates; [|apply surjective_pairing].
Qed.
#[local] Hint Resolve along_drop : along.

Lemma along_fallback w : along R w pmksa_fallback w.
Proof. unfold pmksa_fallback. go. Qed.
#[local] Hint Resolve along_fallback : along.

Lemma along_associate ie mfp w : along R w (associate ie mfp) w.
Proof. unfold associate. go. Qed.
#[local] Hint Resolve along_associate : along.

Lemma along_associate_with_pmksa w : along R w associate_with_pmksa w.
Proof. unfold associate_with_pmksa. go. Qed.

End attempt.

#[export] Hint Resolve along_send_out along_drop along_fallback along_associate
  along_associate_with_pmksa : along.

(** ** Roaming *)

Section roam.
Context `{!Supplicant} `{!FrameLib} `{!Host} (n : nat) (okey : Key -> Prop) (reason : Prop).

Abbreviation R := (advances n okey reason).

Lemma advances_freqs w w' : (freqs_ok (w_iface w) -> freqs_ok (w_iface w')) ->
  R w (on_iface (put_roam_freqs (roam_freqs (w_iface w))) w') -> R w w'.
Proof.
  intros Hc (Hw & Hk & Hl & Hv). split_and!; [|done..].
  intros H2. destruct (Hw H2) as (? & ? & _ & ? & ?). destruct H2 as (_ & _ & ? & _). split_and!; auto.
Qed.

Lemma along_register w : along R w register_roam_frames w.
Proof. unfold register_roam_frames. go. Qed.

Lemma along_offload w : along R w try_offload_rekey w.
Proof. unfold try_offload_rekey. go. Qed.

Lemma along_cooling w : along R w cooling_down w.
Proof. unfold cooling_down. go. Qed.

Lemma add_freqs_length l : forall freqs,
  (length freqs <= ROAM_QUICK_SCAN_MAX_FREQS)%nat ->
  (length (add_freqs freqs l) <= ROAM_QUICK_SCAN_MAX_FREQS)%nat.
Proof.
  induction l as [|x l IH]; intros freqs Hl; cbn [add_freqs]; [done|].
  destruct (Nat.leb_spec ROAM_QUICK_SCAN_MAX_FREQS (length freqs)); [done|].
  destruct (channel_to_freq _ _); [|auto]. apply IH. destruct (bool_decide _); [done|].
  rewrite length_app. cbn [length]. lia.
Qed.

Lemma advances_learn l w : R w (learn_freqs l w).
Proof. apply advances_freqs; [apply add_freqs_length|adv]. Qed.

Lemma along_rrm r w : along R w (handle_rrm_frame r) w.
Proof.
  unfold handle_rrm_frame. go. etrans; [|apply advances_learn]. adv.
Qed.
#[local] Hint Resolve along_register along_offload along_cooling along_rrm : along.

Lemma along_await_report (dispatch : WifiEvent -> wm unit) fuel :
  (forall e w, along R w (dispatch e) w) -> forall w, along R w (await_report fuel dispatch) w.
Proof. intros Hd. induction fuel as [|fuel IH]; cbn; go. all: apply Hd. Qed.

Lemma along_neighbor_report wr w :
  (forall w, along R w wr w) -> along R w (request_neighbor_report_freqs wr) w.
Proof. intros Hw. unfold request_neighbor_report_freqs. go. Qed.

(** A roam scan starts: the state is the one to come back to. *)
Lemma along_start_roam_scan full retry w :
  (forall w, along R w retry w) -> along R w (start_roam_scan full retry) w.
Proof.
  intros Hr. unfold start_roam_scan. go. all: adv_live.
Qed.

Lemma along_full_scan w : along R w trigger_full_scan w.
Proof.
  unfold trigger_full_scan. go. call.
  apply along_start_roam_scan. go.
Qed.

Lemma along_quick_scan wr w :
  (forall w, along R w wr w) -> along R w (trigger_quick_scan wr) w.
Proof.
  intros Hw. unfold trigger_quick_scan. go.
  - call. by apply along_neighbor_report.
  - apply along_start_roam_scan. apply along_full_scan.
Qed.
#[local] Hint Resolve along_full_scan along_quick_scan : along.

Lemma along_gated scan w :
  (may_scan w = true -> forall w, along R w scan w) -> along R w (gated scan) w.
Proof. intros Hs. unfold gated. go. apply negb_false_iff in Heqb. auto. Qed.

Lemma along_check_roam wr w :
  (forall w, along R w wr w) -> along R w (check_roam_conditions wr) w.
Proof. intros Hw. unfold check_roam_conditions. apply along_gated. go. Qed.

Lemma along_check_background w : along R w check_background_roam w.
Proof. unfold check_background_roam. apply along_gated. go. Qed.

Lemma along_arm_post w : along R w arm_post_connect_scan w.
Proof. unfold arm_post_connect_scan. go. Qed.

Lemma along_post_connect w : along R w post_connect_best_bss_scan w.
Proof. unfold post_connect_best_bss_scan. go. Qed.

Lemma along_disarm_post w : along R w disarm_post_connect_scan w.
Proof. unfold disarm_post_connect_scan. go. Qed.

Lemma along_cancel w : along R w cancel_roam_scan w.
Proof. unfold cancel_roam_scan. go. adv_live. Qed.
#[local] Hint Resolve along_cancel : along.

(** A notification of a weak signal starts a scan of a live connection only. *)
Lemma along_cqm wr ev w :
  (live w = true -> forall w, along R w wr w) -> along R w (handle_cqm_rssi wr ev) w.
Proof.
  intros Hw. unfold handle_cqm_rssi. go. apply along_gated. intros Hm. go.
  call. apply along_quick_scan, Hw. unfold may_scan in Hm. apply andb_true_iff in Hm as [_ Hm].
  apply negb_true_iff in Hm. rewrite Hm, andb_true_r in Heqb. apply negb_false_iff in Heqb.
  unfold live, connection_is_live. by rewrite Heqb.
Qed.

Lemma along_arm_cqm w : along R w arm_cqm w.
Proof. unfold arm_cqm. go. Qed.

Lemma along_okc t w : along R w (synthesize_okc_entry t) w.
Proof.
  unfold synthesize_okc_entry. go. apply advances_pmksa; [|adv].
  intros Hw. by apply PmksaSpec.insert_simulates.
Qed.
#[local] Hint Resolve along_okc : along.

(** A Fast BSS Transition without keys yet. *)
Lemma advances_ft w w' : (wf w -> ft_ok w') ->
  R w (on_link (put_l_ft (l_ft (w_link w)))
         (on_roam (put_r_ft_roam (r_ft_roam (w_roam w))) w')) -> R w w'.
Proof.
  intros Hc (Hw & Hk & Hl & Hv). split_and!; [|done..].
  intros H2. specialize (Hc H2). destruct (Hw H2) as (? & ? & ? & _ & ?). split_and!; auto.
Qed.

Lemma along_start_ft t w : along R w (start_ft_roam t) w.
Proof.
  unfold start_ft_roam, roaming, authenticate. go.
  etrans; [apply (advances_dead _ _ _ Authenticating); reflexivity|]. apply advances_ft; [by intros _ _|adv].
Qed.

Lemma along_reconnect t b w : along R w (reconnect_to t b) w.
Proof.
  unfold reconnect_to. go. all: apply advances_pmksa; [|adv].
  all: match goal with H : PmksaCache.contains _ _ _ _ _ = _ |- _ => injection H as <- _ end.
  all: by apply PmksaSpec.wf_filter.
Qed.

#[local] Hint Resolve along_start_ft along_reconnect : along.

Lemma along_start_roam t nw w : along R w (start_roam t nw) w.
Proof. unfold start_roam. go. Qed.

Lemma along_btm_response d st t w : along R w (send_btm_response d st t) w.
Proof. unfold send_btm_response. go. Qed.
#[local] Hint Resolve along_start_roam along_btm_response : along.

Lemma along_wnm b w : along R w (handle_wnm_frame b) w.
Proof.
  unfold handle_wnm_frame. go. all: apply advances_learn.
Qed.

(** ** Fast BSS Transition *)

Lemma along_ft_reassoc t ptk r1 kh sn an w : along R w (send_ft_reassoc t ptk r1 kh sn an) w.
Proof. unfold send_ft_reassoc, roaming. go. Qed.
#[local] Hint Resolve along_ft_reassoc : along.

Lemma ok_or_ok {A} (o : option A) (e : WifiError.t) a : ok_or o e = Ok a -> o = Some a.
Proof. destruct o; [by intros [= ->]|done]. Qed.

(** The PMK-R1 and the PTK of the transition come from the PMK-R0 of the connection. *)
Lemma along_ft_auth_inner frame w : along R w (handle_ft_auth_response_inner frame) w.
Proof.
  unfold handle_ft_auth_response_inner, roaming. go. apply advances_ft; [|adv].
  intros _ _. cbn. intros ptk [= <-].
  repeat match goal with H : ok_or _ _ = Ok _ |- _ => apply ok_or_ok in H end.
  do 4 eexists. split_and!; [eassumption|reflexivity|reflexivity|eassumption|eassumption].
Qed.
#[local] Hint Resolve along_ft_auth_inner : along.

Lemma along_ft_auth frame w : along R w (handle_ft_auth_response frame) w.
Proof. unfold handle_ft_auth_response. go. Qed.

(** The FT context of an association: no transition is in flight. *)
Lemma along_setup_ft ies w :
  (if_mlme (w_iface w) = SoftMac -> r_ft_roam (w_roam w) = None) -> along R w (setup_ft_context ies) w.
Proof.
  intros Hn. unfold setup_ft_context, roaming. go. apply advances_ft; [|adv].
  intros _ Hm. cbn in *. by rewrite Hn.
Qed.

Lemma along_install_or_fail k what w : along R w (install_or_fail k what) w.
Proof. unfold install_or_fail. go. Qed.
#[local] Hint Resolve along_install_or_fail : along.

Lemma log_grows {A} (m : wm A) w w' r :
  along R w m w -> m w = (w', r) -> w_log w `prefix_of` w_log w'.
Proof. intros Ha Hm. by apply (along_ok R _ _ _ _ Ha Hm). Qed.

Lemma length_grows {A} (m : wm A) w w' r : along R w m w -> m w = (w', r) ->
  (n <= length (w_log w))%nat -> (n <= length (w_log w'))%nat.
Proof. intros Ha Hm Hn. etrans; [exact Hn|]. by eapply prefix_length, log_grows. Qed.

Lemma keyed_grows {A} (m : wm A) w w' r : along R w m w -> m w = (w', r) ->
  keyed_since n okey (w_log w) -> keyed_since n okey (w_log w').
Proof. intros Ha Hm. by eapply keyed_mono, log_grows. Qed.

Lemma along_install_ft_keys t ptk f w : along R w (install_ft_keys t ptk f) w.
Proof. unfold install_ft_keys, install_ft_ptk, install_ft_gtk, install_ft_mgmt. go. Qed.

End roam.

#[export] Hint Resolve along_register along_offload along_cooling along_rrm along_full_scan
  along_check_background along_arm_post along_post_connect along_disarm_post along_arm_cqm
  along_start_roam along_wnm along_ft_auth along_install_or_fail along_install_ft_keys : along.

(** The requests made only grow along the calls made so far. *)
Ltac log_path :=
  repeat first
    [ assumption
    | match goal with |- context [w_log ?t] => progress (let l := eval cbn in (w_log t) in change (w_log t) with l) end
    | match goal with
      | H : ?m ?w = (?w', _) |- keyed_since _ _ (w_log ?w') =>
          first [ refine (keyed_grows _ _ True m w w' _ _ H _); [solve [go]|]
                | refine (keyed_grows _ _ _ m w w' _ _ H _); [solve [go]|] ]
      | H : ?m ?w = (?w', _) |- (_ <= length (w_log ?w'))%nat =>
          first [ refine (length_grows _ (fun _ => True) True m w w' _ _ H _); [solve [go]|]
                | refine (length_grows _ _ _ m w w' _ _ H _); [solve [go]|] ]
      end ].

Section keys.
Context `{!Supplicant} `{!FrameLib} `{!Host} (n : nat) (okey : Key -> Prop) (reason : Prop).

Abbreviation R := (advances n okey reason).
Abbreviation ready w := (n <= length (w_log w))%nat.

Lemma result_of_ok {A} (m : wm A) w w' a : result_of m w = (w', Ok (inr a)) -> m w = (w', Ok a).
Proof. unfold result_of. destruct (m w) as [w1 []]; naive_solver. Qed.

(** A pairwise key that the kernel took. *)
Lemma accepted_key k w w' u : k_type k = Pairwise -> okey k -> ready w ->
  request (NewKey k) w = (w', Ok u) -> keyed_since n okey (w_log w').
Proof.
  intros Hk Ho Hn. unfold request, raw_request, mbind, st_bind.
  destruct (kernel_reply _ _) eqn:Hr; [done|]. intros [= <- _]. exists (length (w_log w)), k. cbn.
  rewrite list_lookup_middle, take_app_length by done. done.
Qed.

Lemma installed_key k what w w' u : k_type k = Pairwise -> okey k -> ready w ->
  install_or_fail k what w = (w', Ok u) -> keyed_since n okey (w_log w').
Proof.
  intros Hk Ho Hn (w1 & [e|x] & Hr & Hm)%st_bind_ok_inv; [done|].
  injection Hm as <- _. apply result_of_ok in Hr. by eapply accepted_key.
Qed.

Lemma installed_ft_keys t ptk f w w' u :
  (forall k, tk_key_of (bssid t) ptk k -> okey k) -> ready w ->
  install_ft_keys t ptk f w = (w', Ok u) -> keyed_since n okey (w_log w').
Proof.
  intros Hkey Hn (w1 & u1 & Hi & Hm)%st_bind_ok_inv.
  assert (keyed_since n okey (w_log w1)) as Hk.
  { apply st_bind_ok_inv in Hi as (? & rest & [= <- Hrest] & Hi).
    apply st_bind_ok_inv in Hi as (? & tk & [= <- Htk] & Hi).
    unfold slice_from in Hrest. apply slice_ok in Hrest as [_ ->]. apply slice_ok in Htk as [Hlen ->].
    eapply installed_key in Hi; [exact Hi|done| |done]. apply Hkey. split; [done|]. cbn.
    by rewrite drop_0, (take_ge (drop 32 ptk)) by (rewrite length_drop; lia). }
  refine (keyed_grows n okey reason _ _ _ _ _ Hm Hk). unfold install_ft_gtk, install_ft_mgmt. go.
Qed.

Lemma advances_backoff_reset w w' :
  R w (on_pno (put_p_scan_retry_interval (p_scan_retry_interval (w_pno w))) w') ->
  R w (on_pno (put_p_scan_retry_interval RETRY_BACKOFF_INIT_SEC) w').
Proof.
  intros (Hw & ? & ? & ?). split_and!; [|done..]. intros (Hp & Hw')%Hw. split; [|done].
  split; [|apply Hp]. cbn. unfold RETRY_BACKOFF_INIT_SEC, RETRY_BACKOFF_MAX_SEC. lia.
Qed.

Lemma along_complete_ft c t r1 ptk ies w : reason \/ keyed_since n okey (w_log w) ->
  along R w (complete_ft_roam c t r1 ptk ies) w.
Proof.
  intros Hk. unfold complete_ft_roam. go.
  - apply advances_ft; [by intros _ _|adv].
  - apply advances_backoff_reset. adv.
  - apply advances_connected; [destruct Hk as [Hk|Hk]; [by left|right; log_path]|reflexivity].
Qed.

Lemma along_ft_assoc_inner ies w :
  (forall k, transition_key w k -> okey k) -> ready w -> along R w (handle_ft_assoc_response_inner ies) w.
Proof.
  intros Hf Hn. unfold handle_ft_assoc_response_inner, roaming. go.
  apply along_complete_ft. right. eapply installed_ft_keys; [|done|eassumption].
  intros k Hk. apply Hf. unfold transition_key.
  repeat match goal with H : ok_or _ _ = Ok _ |- _ => apply ok_or_ok in H end. eauto 15.
Qed.
#[local] Hint Resolve along_ft_assoc_inner : along.

Lemma along_ft_assoc ies w :
  (forall k, transition_key w k -> okey k) -> ready w -> along R w (handle_ft_assoc_response ies) w.
Proof. intros Hf Hn. unfold handle_ft_assoc_response. go. Qed.

End keys.

#[export] Hint Resolve along_ft_assoc : along.
#[export] Hint Extern 1 (_ <= length (w_log _))%nat => log_path : along.
End WifiInvariantFacts.
