(* ===== verification/WifiSafety.v ===== *)
(** * A WiFi interface is connected only with keys

    The lemmas of [WifiInvariant.v] for the methods of [WifiEvents.v] and
    [ClientLoop.v], and what follows from them.  [admission] says which events connect an
    interface without a key of the 4-way handshake or of a Fast BSS Transition; [reachable]
    are the states that [init], [run] and [update_networks] lead to. *)

From stdpp Require Import gmap.
From S2P Require Import Prelude Errors Eap EapTls Security Pmksa WifiKdf FourWay Sae Owe.
From S2P Require Import WifiConfig ClientState Scan WifiIface WifiAuth Roam WifiEvents.
From S2P Require Import ClientLoop WifiInvariant.
Import WifiInvariantFacts.

Module WifiSafetyFacts.

(** ** Links and SAE *)

Section events.
Context `{!Supplicant} `{!FrameLib} `{!Host} (n : nat) (okey : Key -> Prop) (reason : Prop).

Abbreviation R := (advances n okey reason).
Abbreviation ready w := (n <= length (w_log w))%nat.

Lemma along_connected_as s w : reason \/ keyed_since n okey (w_log w) -> along R w (connected_as s) w.
Proof.
  intros Hk. unfold connected_as. go. apply advances_connected; [exact Hk|].
  apply advances_backoff_reset. adv.
Qed.

Lemma along_mark_lost f w : along R w (mark_link_lost f) w.
Proof. unfold mark_link_lost. go. Qed.

Lemma along_has_last_bss w : along R w has_last_bss w.
Proof. unfold has_last_bss. go. Qed.
#[local] Hint Resolve along_mark_lost along_has_last_bss : along.

Lemma along_ap_disconnect r f w : along R w (handle_ap_disconnect r f) w.
Proof. unfold handle_ap_disconnect. go. adv_live. Qed.

Lemma along_wakeup rs w : along R w (handle_wowlan_wakeup rs) w.
Proof. unfold handle_wowlan_wakeup. go. Qed.

(** One SAE frame at a time. *)
Lemma along_send_commit d w : along R w (send_sae_commit d) w.
Proof.
  unfold send_sae_commit. go. apply advances_auth; [|adv]. intros [Hs _]. by split.
Qed.

Lemma along_send_confirm d w : along R w (send_sae_confirm d) w.
Proof.
  unfold send_sae_confirm. go. apply advances_auth; [|adv]. intros [Hs _]. by split.
Qed.

Lemma advances_sync w w' : R w (on_auth (put_a_sae_sync (a_sae_sync (w_auth w))) w') ->
  R w (on_auth (put_a_sae_sync 0) w').
Proof.
  intros (Hw & ? & ? & ?). split_and!; [|done..]. intros (Hp & Ha & Hw')%Hw. split; [done|]. split; [|done].
  split; [cbn; unfold SAE_SYNC_MAX; lia|apply Ha].
Qed.
#[local] Hint Resolve along_send_commit along_send_confirm : along.

Lemma along_first_commit w : along R w send_first_commit w.
Proof. unfold send_first_commit. go. apply advances_sync. adv. Qed.
#[local] Hint Resolve along_first_commit : along.

Lemma along_restart_hnp w : along R w restart_sae_with_hnp w.
Proof. unfold restart_sae_with_hnp. go. Qed.
#[local] Hint Resolve along_restart_hnp : along.

Lemma along_associate_after_sae w : along R w associate_after_sae w.
Proof.
  unfold associate_after_sae. go. all: apply advances_auth; [|adv].
  all: intros [? _]; split; [done|apply andb_false_r].
Qed.
#[local] Hint Resolve along_associate_after_sae : along.

Lemma along_auth_action a w : along R w (handle_auth_action a) w.
Proof. unfold handle_auth_action. go. all: apply advances_sync; adv. Qed.
#[local] Hint Resolve along_auth_action : along.

Lemma along_auth_frame a w : along R w (handle_auth_frame a) w.
Proof. unfold handle_auth_frame. go. Qed.

End events.

#[export] Hint Resolve along_mark_lost along_has_last_bss along_ap_disconnect along_wakeup
  along_send_commit along_send_confirm along_restart_hnp along_auth_frame : along.

(** ** The 4-way handshake *)

Section handshake.
Context `{!Supplicant} `{!FrameLib} `{!Host} (n : nat) (okey : Key -> Prop) (reason : Prop).

Abbreviation R := (advances n okey reason).
Abbreviation ready w := (n <= length (w_log w))%nat.

Lemma along_with_fourway {A} (m : FourWayState.method A) w : along R w (with_fourway m) w.
Proof.
  unfold along, with_fourway. destruct (l_fourway _) as [x|]; [|adv]. destruct (m x). cbn. adv.
Qed.

Lemma along_send_to_ap f w : along R w (send_to_ap f) w.
Proof. unfold send_to_ap. go. Qed.
#[local] Hint Resolve along_with_fourway along_send_to_ap : along.

Lemma along_answer_m1 p w : along R w (answer_message_1 p) w.
Proof. unfold answer_message_1. go. Qed.
#[local] Hint Resolve along_answer_m1 : along.

Lemma along_message_1 f p w : along R w (handle_message_1 f p) w.
Proof. unfold handle_message_1. go. Qed.

Lemma along_install_gtk p k w : along R w (install_gtk p k) w.
Proof. unfold install_gtk. go. Qed.

Lemma along_install_mgmt k w : along R w (install_mgmt_keys k) w.
Proof. unfold install_mgmt_keys, install_mgmt_key. go. Qed.
#[local] Hint Resolve along_install_gtk along_install_mgmt : along.

Lemma along_finish_handshake w : keyed_since n okey (w_log w) -> along R w finish_handshake w.
Proof. intros Hk. unfold finish_handshake. go. apply along_connected_as. right. log_path. Qed.

(** The current TK, for the access point, may be installed. *)
Definition tk_allowed (w : W) : Prop :=
  forall k, k_mac k = Some (bssid (bss_info w)) -> current_tk w = Some (k_data k) -> okey k.

(** The pairwise key of the handshake is installed before the rest. *)
Lemma along_install_ptk v k w : ready w -> is_some (current_tk v) = true -> tk_allowed v ->
  (forall w, keyed_since n okey (w_log w) -> along R w k w) -> along R w (install_ptk v k) w.
Proof.
  intros Hn Ht Hok Hk. unfold install_ptk. destruct (current_tk v) as [tk|] eqn:Htk; [|done]. go.
  apply Hk. match goal with H : result_of _ _ = _ |- _ => apply result_of_ok in H as Hr end.
  eapply accepted_key; [| |exact Hn|exact Hr].
  - by destruct (current_key_id v).
  - apply Hok; rewrite ?Htk; by destruct (current_key_id v).
Qed.

Lemma along_after_m3 v p m4 k w : ready w -> is_some (current_tk v) = true -> tk_allowed v ->
  along R w (or_failed (send_to_ap m4) (fun _ => install_ptk v (or_failed (install_gtk p k)
    (fun _ => install_mgmt_keys k;; finish_handshake)))) w.
Proof.
  intros Hn Ht Hok. go. apply along_install_ptk; [log_path|done|done|]. intros v' Hk. go.
  apply along_finish_handshake. log_path.
Qed.

Lemma along_complete p m4 k w : ready w -> is_some (current_tk w) = true -> tk_allowed w ->
  along R w (complete_handshake p m4 k) w.
Proof.
  intros Hn Ht Hok. unfold complete_handshake, install_rx_ptk. apply along_get.
  pose proof (fun v Hv => along_after_m3 w p m4 k v Hv Ht Hok) as Hrest.
  generalize dependent (or_failed (send_to_ap m4) (fun _ => install_ptk w (or_failed (install_gtk p k)
    (fun _ => install_mgmt_keys k;; finish_handshake)))). intros rest Hrest.
  go. all: apply Hrest; log_path.
Qed.

(** An accepted Message 3 leaves a pairwise key. *)
Lemma message_3_key `{!WifiCryptoLaws} p w w' m4 k :
  with_fourway (FourWayState.process_message_3 p) w = (w', Ok (m4, k)) ->
  is_some (current_tk w') = true
  /\ forall key, k_mac key = Some (bssid (bss_info w')) -> current_tk w' = Some (k_data key) ->
       handshake_key w key.
Proof.
  unfold with_fourway. destruct (l_fourway _) as [fw|] eqn:Hfw; [|done].
  pose proof (FourWayFacts.wp_message_3 p fw) as Hw. unfold wp in Hw.
  destruct (FourWayState.process_message_3 p fw) as [fw' [[m k']|e| |]] eqn:Hm3; intros Heq; simplify_eq.
  split; [|intros key Hmac Htk; exists fw, p, fw', (m4, k); by split_and!].
  destruct Hw as (q & Ha & _ & -> & _). unfold current_tk, FourWayState.tk. cbn.
  rewrite (proj2 (FourWayFacts.result_keys _ _ _)). by rewrite (FourWayFacts.m3_key _ _ _ Ha).
Qed.

Lemma along_message_3 `{!WifiCryptoLaws} p w :
  ready w -> (forall k, handshake_key w k -> okey k) -> along R w (handle_message_3 p) w.
Proof.
  intros Hn Hok. unfold handle_message_3. go.
  match goal with H : result_of _ _ = _ |- _ =>
    destruct (message_3_key _ _ _ _ _ (result_of_ok _ _ _ _ H)) as [Ht Hk] end.
  apply along_complete; [log_path|done|]. intros key Hmac Htk. by apply Hok, Hk.
Qed.

Lemma along_group p w : along R w (handle_group_message_1 p) w.
Proof. unfold handle_group_message_1. go. Qed.

Lemma along_eap d w : along R w (handle_eap_frame d) w.
Proof. unfold handle_eap_frame. go. Qed.

End handshake.

#[export] Hint Resolve along_message_1 along_message_3 along_group along_eap : along.

(** ** Associations and events *)

Section association.
Context `{!Supplicant} `{!FrameLib} `{!Host} `{!WifiCryptoLaws} (n : nat) (okey : Key -> Prop) (reason : Prop).

Abbreviation R := (advances n okey reason).
Abbreviation ready w := (n <= length (w_log w))%nat.

Lemma along_control_port f w :
  ready w -> (forall k, handshake_key w k -> okey k) -> along R w (handle_control_port_frame f) w.
Proof. intros Hn Hok. unfold handle_control_port_frame, handle_eapol_key. go. Qed.
#[local] Hint Resolve along_control_port : along.

Lemma along_raw_eapol s f w :
  ready w -> (forall k, handshake_key w k -> okey k) -> along R w (handle_raw_eapol s f) w.
Proof. intros Hn Hok. unfold handle_raw_eapol. go. Qed.

Lemma along_rekey b c w : along R w (handle_rekey_offload_event b c) w.
Proof. unfold handle_rekey_offload_event. go. Qed.

Lemma along_open_system w : along R w associate_open_system w.
Proof. unfold associate_open_system, associate_or_fail. go. Qed.

Lemma along_owe_response ies w : along R w (process_owe_assoc_response ies) w.
Proof. unfold process_owe_assoc_response. go. Qed.
#[local] Hint Resolve along_raw_eapol along_rekey along_open_system along_owe_response : along.

(** The handshake of the link, of which [setup_ft_context] changes nothing. *)
Definition same_handshake (w w' : W) : Prop :=
  l_fourway (w_link w') = l_fourway (w_link w) /\ w_iface w' = w_iface w.

Lemma handshake_key_same w w' k : same_handshake w w' -> handshake_key w' k -> handshake_key w k.
Proof.
  intros [Hf Hi]. unfold handshake_key, bss_info. by rewrite Hf, Hi.
Qed.

Lemma setup_ft_same ies w : same_handshake w (result_of (setup_ft_context ies) w).1.
Proof.
  unfold result_of, setup_ft_context, roaming, lift, mbind, st_bind, get, modify.
  repeat case_match; simplify_eq/=; done.
Qed.

Lemma along_association_success ies w : ready w -> (forall k, handshake_key w k -> okey k) ->
  (security (bss_info w) = Open -> reason) ->
  (if_mlme (w_iface w) = SoftMac -> r_ft_roam (w_roam w) = None) ->
  along R w (handle_association_success ies) w.
Proof.
  intros Hn Hok Ho Hf. unfold handle_association_success. go.
  - apply along_connected_as. left. apply Ho. by apply bool_decide_eq_true in Heqb.
  - by apply along_setup_ft.
  - match goal with H : result_of (setup_ft_context _) _ = (?v, _) |- _ => assert (ready v) end.
    { eapply (length_grows n okey reason); [|eassumption|exact Hn]. by apply along_result_of, along_setup_ft. }
    match goal with H : result_of (setup_ft_context ?ies) ?w = (?v, _) |- _ =>
      pose proof (setup_ft_same ies w) as Hs; rewrite H in Hs end.
    go. call. apply along_control_port; [done|]. intros k Hk. apply Hok.
    refine (handshake_key_same _ _ _ _ Hk). exact Hs.
Qed.

Lemma along_authenticated st f w : along R w (handle_authenticated st f) w.
Proof. unfold handle_authenticated. go. Qed.

Lemma along_associated st ies w : ready w -> (security (bss_info w) = Open -> reason) ->
  (forall k, handshake_key w k -> okey k) -> (forall k, transition_key w k -> okey k) ->
  along R w (handle_associated st ies) w.
Proof.
  intros Hn Ho Hok Hft. unfold handle_associated. go. apply along_association_success; [done..|].
  intros _. by destruct (r_ft_roam (w_roam w)).
Qed.

Lemma along_connect_result st req resp w : ready w -> (security (bss_info w) = Open -> reason) ->
  (forall k, handshake_key w k -> okey k) -> along R w (handle_connect_result st req resp) w.
Proof.
  intros Hn Ho Hok. unfold handle_connect_result. go. apply bool_decide_eq_true in Heqb.
  match goal with H : _ = (?s', Ok _) |- along _ ?s' _ _ =>
    assert (w_log s' = w_log w /\ same_handshake w s') as [Hl [Hx Hi]]
      by (destruct a; injection H as <- _; done) end.
  apply along_association_success; [by rewrite Hl| | |by rewrite Hi, Heqb].
  - intros k Hk. apply Hok. by eapply handshake_key_same.
  - unfold bss_info. by rewrite Hi.
Qed.
#[local] Hint Resolve along_authenticated along_associated along_connect_result : along.

Lemma along_port_authorized w : reason -> along R w handle_port_authorized w.
Proof. intros Hr. unfold handle_port_authorized. go. apply along_connected_as. by left. Qed.

Lemma along_disconnected r i w : along R w (handle_disconnected r i) w.
Proof. unfold handle_disconnected. go. Qed.

Lemma along_unknown c i w : along R w (handle_unknown c i) w.
Proof. unfold handle_unknown. go. Qed.
#[local] Hint Resolve along_disconnected along_unknown : along.

End association.

#[export] Hint Resolve along_control_port along_raw_eapol along_rekey along_authenticated
  along_disconnected along_unknown : along.

End WifiSafetyFacts.

(** ** What an event may do *)

(** The events that connect an interface without a key of its own: an association with
    an open network, and the driver's word that the port is authorized. *)
Definition admission `{!Supplicant} (w : W) (e : WifiEvent) : Prop :=
  match e with
  | Kernel msg =>
      match raw_event msg with
      | Some (Associated _ _) | Some (ConnectResult _ _ _) => security (bss_info w) = Open
      | Some PortAuthorized => True
      | _ => False
      end
  | Eapol _ _ => False
  end.

Module WifiEventSafety.
Import WifiSafetyFacts.

Section dispatch.
Context `{!Supplicant} `{!FrameLib} `{!Host} `{!WifiCryptoLaws}.

(** Nothing more is needed of a connection that is live already. *)
Lemma advances_live_before n okey reason w w' : live w = true ->
  advances n okey True w w' -> advances n okey reason w w'.
Proof. intros Hl (? & ? & ? & _). split_and!; auto. Qed.

Lemma along_cqm_any n okey reason wr ev w : (forall w, along (advances n okey True) w wr w) ->
  along (advances n okey reason) w (handle_cqm_rssi wr ev) w.
Proof.
  intros Hw. destruct (live w) eqn:Hl.
  - apply advances_live_before; [done|]. by apply along_cqm.
  - apply along_cqm. by rewrite Hl.
Qed.

(** An event, given a wait for a neighbor report that keeps the invariant. *)
Lemma along_dispatch n okey (reason : Prop) wr e w :
  (n <= length (w_log w))%nat -> (admission w e -> reason) ->
  (forall k, handshake_key w k \/ transition_key w k -> okey k) ->
  (forall w, along (advances n okey True) w wr w) ->
  along (advances n okey reason) w (dispatch_event wr e) w.
Proof.
  intros Hn Hr Hk Hw.
  assert (Hh : forall k, handshake_key w k -> okey k) by auto.
  assert (Ht : forall k, transition_key w k -> okey k) by auto. destruct e as [[cmd attrs [ev|]]|src f]; cbn [dispatch_event raw_event].
  - apply along_get. apply along_lift_bind; [reflexivity|]. intros info _.
    destruct ev; cbn [handle_client_event handle_event]; try (destruct frame); go.
    + by apply along_associated.
    + by apply along_connect_result.
    + apply along_port_authorized. by apply Hr.
    + by apply along_cqm_any.
  - apply along_get. apply along_lift_bind; [reflexivity|]. go.
  - by apply along_raw_eapol.
Qed.

Lemma advances_true n m ok okey w w' : advances n ok True w w' -> advances m okey True w w'.
Proof. intros (? & ? & ? & _). split_and!; auto. Qed.

Lemma along_wait_report n okey w : along (advances n okey True) w wait_report w.
Proof.
  apply (advances_true 0 n (fun _ => True)). unfold wait_report, with_fuel. apply along_await_report.
  intros e w'. apply along_dispatch; [lia|done|done|]. go.
Qed.

Lemma along_wifi_event n okey (reason : Prop) e w :
  (n <= length (w_log w))%nat -> (admission w e -> reason) ->
  (forall k, handshake_key w k \/ transition_key w k -> okey k) ->
  along (advances n okey reason) w (handle_wifi_event e) w.
Proof. intros Hn Hr Hk. apply along_dispatch; [done|done|done|]. apply along_wait_report. Qed.

(** C2: an event connects an interface only with a key: when the connection was not live
    before the event and is live after it, the event is the success of an association with
    an open network, or the driver's report that the port is authorized, or while it was
    handled the kernel was given a pairwise key and took it, which is, for the access point
    of the link, the TK of the link's 4-way handshake, which accepted a Message 3, or, for
    the target of the Fast BSS Transition in flight, the TK of its PTK, under which the
    target's reassociation response was checked. *)
Theorem connected_only_with_key e w w' r :
  handle_wifi_event e w = (w', r) -> live w = false -> live w' = true ->
  admission w e
  \/ exists log k rest, w_log w' = w_log w ++ log ++ NewKey k :: rest /\ k_type k = Pairwise
       /\ (handshake_key w k \/ transition_key w k)
       /\ kernel_reply (w_log w ++ log) (NewKey k) = None.
Proof.
  intros He Hl Hl'. pose proof (along_wifi_event (length (w_log w)) (fun k => handshake_key w k \/ transition_key w k)
    (admission w e) e w (Nat.le_refl _) id (fun _ => id)) as (_ & _ & [l Hlog] & Hv). rewrite He in *. cbn in *.
  destruct (Hv Hl') as [?|[?|(i & k & Hi & Hk & Ht & Ho & Ha)]]; [congruence|by left|]. right.
  rewrite Hlog in Hk, Ha. rewrite lookup_app_r in Hk by done. rewrite take_app_ge in Ha by done.
  exists (take (i - length (w_log w)) l), k, (drop (S (i - length (w_log w))) l).
  rewrite take_drop_middle by done. done.
Qed.

End dispatch.
End WifiEventSafety.

(** ** The connection loop *)

Module WifiLoopFacts.
Import WifiSafetyFacts WifiEventSafety.

Section client.
Context `{!Supplicant} `{!FrameLib} `{!Host} `{!WifiCryptoLaws}.

Abbreviation R := (advances 0 (fun _ => True) True).

Lemma along_event e w : along R w (handle_wifi_event e) w.
Proof. apply along_wifi_event; [lia|done|done]. Qed.

Lemma along_closed {A} w : along R w (channel_closed (A := A)) w.
Proof. unfold channel_closed. go. Qed.

Lemma along_stop_sched w : along R w stop_sched_scan w.
Proof. unfold stop_sched_scan. go. Qed.

Lemma along_scan_results w : along R w scan_results w.
Proof. unfold scan_results. go. Qed.
#[local] Hint Resolve along_closed along_event along_stop_sched along_scan_results : along.

(** The interval stays in bounds, so its doubling does not overflow. *)
Lemma throttle_ok cap more p p' : throttle cap more p = Ok p' ->
  pno_ok p -> pno_ok p'.
Proof.
  unfold throttle, pno_ok, RETRY_BACKOFF_INIT_SEC, RETRY_BACKOFF_MAX_SEC, SCHED_SCAN_INTERVAL_SEC.
  destruct more; [|by intros [= <-]]. destruct (_ <=? _); [done|].
  destruct (_ <? _); intros [= <-]; cbn; lia.
Qed.

Lemma throttle_returns cap more p : pno_ok p -> exists p', throttle cap more p = Ok p'.
Proof.
  unfold pno_ok, RETRY_BACKOFF_MAX_SEC, throttle. intros [_ Hi]. destruct more; [|by eexists].
  destruct (Z.leb_spec (2 ^ 32) (p_sched_scan_interval_sec p * 2)); [lia|by eexists].
Qed.

Lemma fresh_rotation_ok cap p : pno_ok p -> pno_ok (fresh_rotation cap p).
Proof.
  unfold fresh_rotation, pno_ok, RETRY_BACKOFF_MAX_SEC, SCHED_SCAN_INTERVAL_SEC.
  destruct (p_sched_scan_first p); cbn; lia.
Qed.

Lemma along_start_sched w : along R w start_sched_scan w.
Proof.
  unfold start_sched_scan. go. all: apply advances_pno; [|adv].
  - by apply fresh_rotation_ok.
  - intros Hp. eapply throttle_ok; [eassumption|exact Hp].
Qed.

Lemma along_sched_results w : along R w handle_sched_scan_results w.
Proof. unfold handle_sched_scan_results. go. apply advances_backoff_reset. adv. Qed.

Lemma along_roam_results w : along R w roam_scan_results w.
Proof. unfold roam_scan_results. go. Qed.

Lemma along_await_scan fuel : forall w, along R w (await_scan fuel) w.
Proof. induction fuel as [|fuel IH]; cbn [await_scan]; go. Qed.
#[local] Hint Resolve along_start_sched along_sched_results along_roam_results along_await_scan : along.

Lemma along_wait_scan w : along R w wait_scan_finish w.
Proof. unfold wait_scan_finish. go. apply along_await_scan. Qed.

Lemma along_resume w : along R w handle_resume w.
Proof. unfold handle_resume. go. Qed.

Lemma along_consume w : along R w consume_resume w.
Proof. unfold consume_resume. go. Qed.

Lemma along_attempt w : along R w start_attempt w.
Proof. unfold start_attempt. go. Qed.

Lemma along_scan w : along R w start_scan w.
Proof. unfold start_scan. go. Qed.
#[local] Hint Resolve along_wait_scan along_resume along_consume along_attempt along_scan : along.

Lemma along_step_init w : along R w step_init w.
Proof. unfold step_init. go. Qed.

Lemma along_scan_failed e w : along R w (scan_failed e) w.
Proof. unfold scan_failed. go. Qed.

Lemma along_finish_roam w : along R w finish_roam_scan w.
Proof. unfold finish_roam_scan. go. all: adv_live. Qed.
#[local] Hint Resolve along_step_init along_scan_failed along_finish_roam : along.

Lemma along_step_scanning w : along R w step_scanning w.
Proof. unfold step_scanning. go. all: apply advances_backoff_reset; adv. Qed.

Lemma along_sched_stopped w : along R w sched_scan_stopped w.
Proof. unfold sched_scan_stopped, restart_sched_scan. go. Qed.
#[local] Hint Resolve along_sched_stopped : along.

Lemma along_sched_timeout w : along R w sched_scan_timeout w.
Proof. unfold sched_scan_timeout. go. Qed.
#[local] Hint Resolve along_sched_timeout : along.

Lemma along_step_sched w : along R w step_sched_scan_wait w.
Proof. unfold step_sched_scan_wait. go. Qed.

(** A frame is sent again only below the limit. *)
Lemma along_retransmit w : a_sae_sync (w_auth w) < SAE_SYNC_MAX -> along R w retransmit_sae w.
Proof.
  intros Hs. unfold retransmit_sae. go.
  all: apply advances_auth; [|adv]. all: intros [? ?]; split; [cbn; lia|done].
Qed.

Lemma along_auth_timeout w : along R w auth_timeout w.
Proof.
  unfold auth_timeout. go. apply along_retransmit. apply andb_true_iff in Heqb as [_ Hs]. lia.
Qed.
#[local] Hint Resolve along_auth_timeout : along.

Lemma along_await_auth fuel : forall w, along R w (await_auth fuel) w.
Proof. induction fuel as [|fuel IH]; cbn [await_auth]; go. Qed.

Lemma along_roam_tick w : along R w roam_tick w.
Proof.
  unfold roam_tick. go. apply along_check_roam, along_wait_report.
Qed.
#[local] Hint Resolve along_roam_tick : along.

Lemma along_step_connected w : along R w step_connected w.
Proof. unfold step_connected. go. Qed.

Lemma along_pump fuel : forall w, along R w (pump_events fuel) w.
Proof. induction fuel as [|fuel IH]; cbn [pump_events]; go. Qed.

#[local] Hint Resolve along_step_scanning along_step_sched along_await_auth along_step_connected
  along_pump : along.

Lemma back_off_ok i : RETRY_BACKOFF_INIT_SEC <= i <= RETRY_BACKOFF_MAX_SEC ->
  RETRY_BACKOFF_INIT_SEC <= back_off i <= RETRY_BACKOFF_MAX_SEC.
Proof. unfold back_off, RETRY_BACKOFF_INIT_SEC, RETRY_BACKOFF_MAX_SEC. lia. Qed.

Lemma along_step_failed w : along R w step_failed w.
Proof.
  unfold step_failed. go.
  - apply along_pump.
  - apply advances_pno; [|adv]. intros [Hr Hs]. split; [by apply back_off_ok|done].
  - apply advances_pno; [|adv]. intros [Hr Hs]. split; [by apply back_off_ok|done].
Qed.
#[local] Hint Resolve along_step_failed : along.

Lemma along_client_step w : along R w step w.
Proof. unfold step, step_authenticating. go. apply along_await_auth. Qed.

Lemma along_drain fuel : forall w, along R w (drain_events fuel) w.
Proof. induction fuel as [|fuel IH]; cbn [drain_events]; go. Qed.

Lemma along_scan_another w : along R w scan_for_another w.
Proof. unfold scan_for_another. go. Qed.

Lemma along_try_bss b nw w : along R w (try_bss b nw) w.
Proof. unfold try_bss. go. apply along_drain. Qed.
#[local] Hint Resolve along_client_step along_scan_another along_try_bss : along.

Lemma along_retry w : along R w retry_with_next_bss w.
Proof. unfold retry_with_next_bss. go. Qed.
#[local] Hint Resolve along_retry : along.

Lemma along_after_step p b w : along R w (after_step p b) w.
Proof. unfold after_step. go. Qed.
#[local] Hint Resolve along_after_step : along.

Lemma along_run_loop b steps : forall w, along R w (run_loop steps b) w.
Proof.
  induction steps as [|steps IH]; cbn [run_loop]; unfold failed_step; go.
  apply advances_dead; [by destruct (bool_decide _)|adv].
Qed.

Lemma along_run steps w : along R w (run steps) w.
Proof. unfold run. go. apply along_run_loop. Qed.

Lemma along_invalidate_all l : forall w, along R w (invalidate_all l) w.
Proof. induction l; cbn [invalidate_all]; go. Qed.

(** ** Updates of the networks *)

Definition keeps_wf (w w' : W) : Prop := wf w -> wf w'.

#[global] Instance keeps_wf_preorder : PreOrder keeps_wf.
Proof. unfold keeps_wf. split; [by intros w ?|]. intros w1 w2 w3 H12 H23. auto. Qed.

Lemma wf_along {A} (m : wm A) w : along R w m w -> along keeps_wf w m w.
Proof. by intros (Hw & _). Qed.

Lemma keeps_wf_rotation networks w :
  keeps_wf w (reset_rotation (on_iface (put_networks networks) w)).
Proof.
  intros ([Hr Hs] & ? & ? & ? & ?). split_and!; [|done..]. split; [done|]. cbn.
  unfold SCHED_SCAN_INTERVAL_SEC, RETRY_BACKOFF_MAX_SEC. lia.
Qed.

(** The interface starts afresh. *)
Definition fresh_start (networks : list NetworkConfig.t) (w : W) : W :=
  put_w_state Init (on_pno (put_p_scan_retry_interval RETRY_BACKOFF_INIT_SEC)
    (put_w_fast_reconnect None
       (on_iface (put_bssid_ignore []) (reset_roam (reset_auth
          (reset_for_update (default (NetworkConfig.new "") (head networks)) w)))))).

Lemma keeps_wf_fresh networks w : keeps_wf w (fresh_start networks w).
Proof.
  intros ([Hr Hs] & ? & ? & ? & ?). split_and!.
  - split; [cbn; unfold RETRY_BACKOFF_INIT_SEC, RETRY_BACKOFF_MAX_SEC; lia|done].
  - split; [cbn; unfold SAE_SYNC_MAX; lia|done].
  - unfold freqs_ok. cbn. lia.
  - by intros _.
  - done.
Qed.

Lemma along_disconnect_if (connected : bool) w : along R w
  (if connected
   then w ← get;
        (if w_wowlan_armed w then disarm_wowlan else mret tt);;
        logged (request Disconnect)
   else mret tt) w.
Proof. go. Qed.

Lemma wf_restart networks w : along keeps_wf w (restart_with networks) w.
Proof.
  unfold restart_with. apply along_get. refine (along_bind _ _ _ _ _ _ _).
  { apply wf_along. go. }
  intros _ w1 _. apply along_get. do 2 apply along_modify_bind. cbv zeta.
  destruct (_ && _); [apply along_mret, keeps_wf_rotation|].
  refine (along_call _ _ _ _ _ _); [apply keeps_wf_rotation|].
  refine (along_bind _ _ _ _ _ _ _); [apply wf_along; go|intros _ w2 _].
  refine (along_bind _ _ _ _ _ _ _); [apply wf_along; go|intros _ w3 _].
  refine (along_bind _ _ _ _ _ _ _); [apply wf_along, along_disconnect_if|intros _ w4 _].
  exact (keeps_wf_fresh networks w4).
Qed.

Lemma wf_update networks w : along keeps_wf w (update_networks networks) w.
Proof.
  unfold update_networks. apply along_get.
  refine (along_bind _ _ _ _ _ _ _); [apply wf_along, along_invalidate_all|intros _ w1 _].
  destruct (network_update_action _ _ _ _).
  - apply along_modify. intros Hw. exact Hw.
  - apply along_modify_bind, along_modify, keeps_wf_rotation.
  - apply wf_restart.
Qed.

Lemma wf_shutdown w : along keeps_wf w shutdown w.
Proof. apply wf_along. unfold shutdown. go. Qed.

Lemma init_state_wf mac inbox g p networks nw : wf (init_state mac inbox g p networks nw).
Proof.
  split_and!.
  - unfold pno_ok. cbn. unfold RETRY_BACKOFF_INIT_SEC, RETRY_BACKOFF_MAX_SEC, SCHED_SCAN_INTERVAL_SEC. lia.
  - split; [cbn; unfold SAE_SYNC_MAX; lia|done].
  - unfold freqs_ok. cbn. lia.
  - by intros _.
  - apply PmksaContract.wf_empty.
Qed.

Lemma init_wf mac inbox g p networks w r : init mac inbox g p networks = (w, r) -> wf w.
Proof.
  unfold init. set (w0 := init_state _ _ _ _ _ _). intros Hi.
  match type of Hi with ?m w0 = _ => assert (along keeps_wf w0 m w0) as Ha end.
  { apply wf_along. go. }
  apply (along_ok keeps_wf _ _ _ _ Ha Hi), init_state_wf.
Qed.

End client.
End WifiLoopFacts.

(** ** The states of a client *)

Section reachable.
Context `{!Supplicant} `{!FrameLib} `{!Host}.

(** Between the calls, entries arrive in the event queue and the host resumes.  A call
    that does not return is one that waits: it may be given up there. *)
Inductive reachable : W -> Prop :=
| reach_init mac inbox generation probe networks w :
    init mac inbox generation probe networks = (w, Ok tt) -> reachable w
| reach_arrival inbox generation w :
    reachable w -> reachable (put_w_resume_gen generation (put_w_inbox inbox w))
| reach_run steps w w' r : reachable w -> run steps w = (w', r) -> reachable w'
| reach_update networks w w' r :
    reachable w -> update_networks networks w = (w', r) -> reachable w'
| reach_shutdown w w' r : reachable w -> shutdown w = (w', r) -> reachable w'.

End reachable.

Module WifiReachable.
Import WifiLoopFacts.

Section reachable_facts.
Context `{!Supplicant} `{!FrameLib} `{!Host} `{!WifiCryptoLaws}.

Lemma reachable_wf w : reachable w -> wf w.
Proof.
  induction 1 as [mac inbox g p nw w Hi|inbox g w Hw IH|steps w w' r Hw IH Hr|nw w w' r Hw IH Hr
                 |w w' r Hw IH Hr].
  - by eapply init_wf.
  - exact IH.
  - by apply (along_ok keeps_wf _ _ _ _ (wf_along _ _ (along_run steps w)) Hr).
  - by apply (along_ok keeps_wf _ _ _ _ (wf_update nw w) Hr).
  - by apply (along_ok keeps_wf _ _ _ _ (wf_shutdown w) Hr).
Qed.

(** C4: in every state that a client can reach, the retry interval of a failed scan and the
    interval of scheduled scans are between 10 and 300 seconds (so that doubling the latter
    does not overflow), an SAE frame has been sent again at most three times and only one of
    commit and confirm is in flight, at most 16 frequencies are kept for the quick roam scan,
    the PMKSA cache has at most one entry per network, BSSID and security, and no more than
    its limit, and the PTK of a Fast BSS Transition in flight is derived, for our SNonce and
    the target, from a PMK-R1 that is derived from the PMK-R0 of the connection. *)
Theorem client_state_invariant w : reachable w ->
  wf w /\ forall cap more, exists p, throttle cap more (w_pno w) = Ok p.
Proof.
  intros Hw%reachable_wf. split; [done|]. intros cap more. apply throttle_returns, Hw.
Qed.

End reachable_facts.
End WifiReachable.
