(* ===== verification/FtSafety.v ===== *)
(** * The keys of a Fast BSS Transition

    What [handle_ft_assoc_response] and [handle_ft_auth_response] of
    [src/src/wifi/roam.rs] accept, and which keys they install.  [ft_response] is what a
    reassociation response must be; [ft_keys] are the keys it brings. *)

From stdpp Require Import gmap.
From S2P Require Import Prelude Errors Eap EapTls Security Pmksa WifiKdf FourWay Sae Owe.
From S2P Require Import WifiConfig ClientState Scan WifiIface WifiAuth Roam WifiEvents.
From S2P Require Import ClientLoop WifiInvariant WifiSafety.
Import WifiInvariantFacts.

Section ft.
Context `{!Supplicant} `{!FrameLib} `{!Host}.

(** The keys among the requests. *)
Definition new_keys (log : list Command) : list Key :=
  omap (fun c => match c with NewKey k => Some k | _ => None end) log.

(** A reassociation response that carries the MIC of the PTK: over our address, that of
    the target, and its RSN element, MDIE, FTIE (less the MIC) and RSN extension. *)
Record ft_response (mac : list Z) (target : BssInfo) (ptk r1kh : list Z) (ies : list Z) (f : Ftie)
  : Prop := {
  fr_ftie : exists body, find_ie ies ELEMENT_ID_FTIE = Some body /\ parse_ftie body = Some f
    /\ exists rsne zeroed, element ies ELEMENT_ID_RSN = Some rsne
       /\ zero_mic body = Ok zeroed
       /\ (ap_rsne target = [] \/ rsne_match_ignore_pmkid rsne (ap_rsne target) = true)
       /\ ft_mic (take 16 ptk) mac (bssid target) 6
            (rsne ++ default [] (element ies ELEMENT_ID_MDIE) ++ zeroed
             ++ default [] (element ies ELEMENT_ID_RSN_EXT))
          = Ok (ftie_mic f);
  fr_r1kh : ftie_r1kh_id f = Some r1kh;
}.

(** A group key of the FTIE, unwrapped with the KEK. *)
Definition ft_group_key (attrs : list Z -> Z -> list Z -> Key) (ptk : list Z) (k : option FtieKey)
  : list Key :=
  match k with
  | Some k =>
      match unwrap_ft_key (take 16 (drop 16 ptk)) (wrapped_key k) with
      | Ok key => [attrs key (key_index k) (rsc k)]
      | _ => []
      end
  | None => []
  end.

(** The keys of a transition, in the order of their requests. *)
Definition ft_keys (target : BssInfo) (ptk : list Z) (f : Ftie) : list Key :=
  ptk_key (bssid target) (take 16 (drop 32 ptk))
  :: ft_group_key gtk_key ptk (ftie_gtk f)
  ++ ft_group_key (fun key i seq => ft_igtk_attrs key i seq (group_mgmt_cipher target)) ptk (ftie_igtk f)
  ++ ft_group_key (fun key i seq => ft_bigtk_attrs key i seq (group_mgmt_cipher target)) ptk
       (ftie_bigtk f).

End ft.

Module FtSafetyFacts.
Section facts.
Context `{!Supplicant} `{!FrameLib} `{!Host}.

Lemma new_keys_app a b : new_keys (a ++ b) = new_keys a ++ new_keys b.
Proof. apply omap_app. Qed.

(** Methods that request no key. *)
Definition no_key (w w' : W) : Prop := new_keys (w_log w') = new_keys (w_log w).

#[global] Instance no_key_preorder : PreOrder no_key.
Proof. unfold no_key. split; [by intros w|]. intros w1 w2 w3 H12 H23. by rewrite H23. Qed.

Lemma no_key_refl w : no_key w w.
Proof. done. Qed.

Lemma no_key_result_of {A} w0 (m : wm A) w : along no_key w0 m w -> along no_key w0 (result_of m) w.
Proof. unfold along, result_of. by destruct (m w) as [w' []]. Qed.

Lemma no_key_request c w : new_keys [c] = [] -> along no_key w (request c) w.
Proof.
  intros Hc. unfold along, request, raw_request, mbind, st_bind, no_key.
  destruct (kernel_reply _ _); cbn; by rewrite new_keys_app, Hc, app_nil_r.
Qed.

Lemma no_key_reading {A} (f : nat -> A) w : along no_key w (reading f) w.
Proof. done. Qed.

End facts.

Ltac mute_step :=
  lazymatch goal with
  | |- along _ _ (result_of _) _ => apply no_key_result_of
  | |- along _ _ (logged _) _ => unfold logged
  | |- along _ _ (set_state _) _ => unfold set_state
  | |- along _ _ (set_state _ ≫= _) _ => unfold set_state
  | |- along _ _ (request _) _ =>
      refine (along_call _ _ _ _ _ _); [exact (no_key_refl _)|by apply no_key_request]
  | |- along _ _ (reading _) _ =>
      refine (along_call _ _ _ _ _ _); [exact (no_key_refl _)|apply no_key_reading]
  | |- along _ _ _ _ => along_step ltac:(exact (no_key_refl _))
  end.
Ltac mute := intros; repeat mute_step.

Section keys.
Context `{!Supplicant} `{!FrameLib} `{!Host}.

Lemma no_key_complete c t r1 ptk ies w : along no_key w (complete_ft_roam c t r1 ptk ies) w.
Proof.
  unfold complete_ft_roam, now, try_offload_rekey, arm_wowlan_if_enabled, arm_wowlan. mute.
Qed.

(** A request of a key. *)
Lemma key_requested k w w' r : request (NewKey k) w = (w', r) ->
  new_keys (w_log w') = new_keys (w_log w) ++ [k].
Proof.
  unfold request, raw_request, mbind, st_bind. destruct (kernel_reply _ _); intros [= <- _]; cbn;
    by rewrite new_keys_app.
Qed.

Lemma key_installed k what w w' r : install_or_fail k what w = (w', r) ->
  new_keys (w_log w') = new_keys (w_log w) ++ [k].
Proof.
  unfold install_or_fail, mbind, st_bind, result_of.
  destruct (request (NewKey k) w) as [w1 [x|e| |]] eqn:Hr; cbn; intros [= <- _]; by eapply key_requested.
Qed.

Definition is_ok {A} (r : outcome WifiError.t A) : bool := match r with Ok _ => true | _ => false end.

(** The keys that a method requests are the first of a list, all of it when it returns a
    value. *)
Definition asks {A} (ks : list Key) (m : wm A) (w : W) : Prop :=
  exists l, new_keys (w_log (m w).1) = new_keys (w_log w) ++ l /\ l `prefix_of` ks
            /\ (is_ok (m w).2 = true -> l = ks).

(** One method after the other. *)
Lemma asks_bind {A B} ks1 ks2 (m : wm A) (k : A -> wm B) w :
  asks ks1 m w -> (forall a w, asks ks2 (k a) w) -> asks (ks1 ++ ks2) (m ≫= k) w.
Proof.
  unfold asks, mbind, st_bind. intros (l1 & Hl1 & Hp1 & Ho1) Hk.
  destruct (m w) as [w1 [a|e| |]]; cbn in *.
  2-4: exists l1; split_and!; [done|by apply prefix_app_r|done].
  destruct (Hk a w1) as (l2 & Hl2 & Hp2 & Ho2).
  rewrite (Ho1 eq_refl) in Hl1. exists (ks1 ++ l2).
  split_and!; [by rewrite Hl2, Hl1, app_assoc|by apply prefix_app|intros Hr; by rewrite (Ho2 Hr)].
Qed.

Lemma asks_none {A} (m : wm A) w : along no_key w m w -> asks [] m w.
Proof. intros Ha. exists []. rewrite app_nil_r. by split_and!. Qed.

Lemma asks_one {A} k (m : wm A) w :
  new_keys (w_log (m w).1) = new_keys (w_log w) ++ [k] -> asks [k] m w.
Proof. intros Hm. by exists [k]. Qed.

Lemma key_logged k w w' r : logged (request (NewKey k)) w = (w', r) ->
  new_keys (w_log w') = new_keys (w_log w) ++ [k].
Proof.
  unfold logged, mbind, st_bind, result_of.
  destruct (request (NewKey k) w) as [w1 [x|e| |]] eqn:Hr; cbn; intros [= <- _]; by eapply key_requested.
Qed.

(** A group key: nothing is requested when it cannot be unwrapped. *)
Lemma asks_group attrs ptk (k : option FtieKey) (install : Key -> wm unit) w :
  (forall key w, new_keys (w_log (install key w).1) = new_keys (w_log w) ++ [key]) ->
  asks (ft_group_key attrs ptk k)
    (match k with
     | None => mret tt
     | Some k => key ← lift (unwrap_ft_key (take 16 (drop 16 ptk)) (wrapped_key k));
                 install (attrs key (key_index k) (rsc k))
     end) w.
Proof.
  intros Hi. destruct k as [k|]; cbn; [|by apply asks_none]. unfold asks, mbind, st_bind, lift.
  destruct (unwrap_ft_key _ _) as [key|e| |]; cbn; [by apply asks_one|..].
  all: exists []; by rewrite app_nil_r.
Qed.

Lemma asks_gtk ptk k w :
  asks (ft_group_key gtk_key ptk k) (install_ft_gtk (take 16 (drop 16 ptk)) k) w.
Proof.
  apply (asks_group gtk_key ptk k (fun key => install_or_fail key "GTK")).
  intros key v. by eapply key_installed, surjective_pairing.
Qed.

Lemma asks_mgmt attrs cipher ptk k w :
  asks (ft_group_key (fun key i seq => attrs key i seq cipher) ptk k)
    (install_ft_mgmt attrs (take 16 (drop 16 ptk)) cipher k) w.
Proof.
  apply (asks_group (fun key i seq => attrs key i seq cipher) ptk k
    (fun key => logged (request (NewKey key)))).
  intros key v. by eapply key_logged, surjective_pairing.
Qed.

Lemma asks_lift {A B} ks (a : A) (k : A -> wm B) w : asks ks (k a) w -> asks ks (lift (Ok a) ≫= k) w.
Proof. done. Qed.

(** The pairwise key, then the group keys. *)
Lemma asks_ft_keys target ptk f w : length ptk = 48%nat ->
  asks (ft_keys target ptk f) (install_ft_keys target ptk f) w.
Proof.
  intros Hl. unfold install_ft_keys, ft_keys.
  apply (asks_bind [_]); [|intros _ w1].
  - unfold install_ft_ptk, slice_from. rewrite slice_in by lia. apply asks_lift.
    rewrite slice_in by (rewrite length_take, length_drop; lia). apply asks_lift.
    rewrite drop_0, take_take, Nat.min_l by lia.
    apply asks_one. by eapply key_installed, surjective_pairing.
  - rewrite slice_in by lia. apply asks_lift. cbn [Nat.sub].
    apply asks_bind; [apply asks_gtk|intros _ w2].
    apply asks_bind; [apply asks_mgmt|intros _ w3; apply asks_mgmt].
Qed.

(** The connection is the one with the target. *)
Lemma complete_ok c t r1 ptk ies w w' u : complete_ft_roam c t r1 ptk ies w = (w', Ok u) ->
  bss_info w' = t /\ is_connected (w_state w') = true.
Proof.
  unfold complete_ft_roam. rewrite st_bind_modify. intros Hc.
  apply st_bind_ok_inv in Hc as (w1 & sn & [= <- _] & Hc). rewrite st_bind_get, !st_bind_modify in Hc.
  apply st_bind_ok_inv in Hc as (w2 & n & [= <- _] & Hc). rewrite !st_bind_modify in Hc.
  apply st_bind_ok_inv in Hc as (w3 & off & Ho & Hc).
  apply (along_ok quiet _ _ _ _ (same_offload core _)) in Ho. unfold set_state in Hc. rewrite st_bind_modify in Hc.
  apply (along_ok quiet _ _ _ _ (same_arm core _)) in Hc. unfold same, core in *.
  injection Ho as _ Hi _. injection Hc as Hs Hi' _. unfold bss_info. rewrite Hs, Hi'. cbn.
  rewrite Hi. by destruct off.
Qed.

Lemma kernel_request_returns c w : exists w' x, result_of (request c) w = (w', Ok x).
Proof.
  unfold result_of, request, raw_request, mbind, st_bind. destruct (kernel_reply _ _); by eauto.
Qed.

Lemma arm_returns w : exists w', arm_wowlan_if_enabled w = (w', Ok tt).
Proof.
  unfold arm_wowlan_if_enabled. rewrite st_bind_get. destruct (NetworkConfig.wowlan _); [|by eauto].
  assert (exists w' b, arm_wowlan w = (w', Ok b)) as (w' & b & Ha).
  { unfold arm_wowlan. rewrite st_bind_get. destruct (w_wowlan_armed w); [by eauto|].
    case_match; [by eauto|]. destruct (kernel_request_returns
      (SetWowlan (desired_wowlan_triggers (c_wowlan_supported_triggers (w_caps w)))) w) as (w1 & x & Hx).
    rewrite (st_bind_ok _ _ _ _ _ Hx). destruct x; by eauto. }
  unfold logged, result_of, mbind, st_bind. rewrite Ha. by eauto.
Qed.

(** Once the keys are in, the transition completes. *)
Lemma complete_returns c t r1 ptk ies w : exists w', complete_ft_roam c t r1 ptk ies w = (w', Ok tt).
Proof.
  unfold complete_ft_roam. rewrite st_bind_modify. unfold reading, now. unfold mbind at 1, st_bind at 1.
  rewrite st_bind_get, !st_bind_modify. unfold reading. unfold mbind at 1, st_bind at 1.
  rewrite !st_bind_modify.
  assert (Ho : forall w, exists w' b, try_offload_rekey w = (w', Ok b)).
  { intros v. unfold try_offload_rekey. rewrite st_bind_get. destruct (l_fourway _) as [fw|]; [|by eauto].
    destruct (FourWayState.kck fw) as [kck|], (FourWayState.kek fw) as [kek|]; try by eauto.
    match goal with |- context [request ?c] => destruct (kernel_request_returns c v) as (v1 & x & Hx) end.
    rewrite (st_bind_ok _ _ _ _ _ Hx). destruct x; by eauto. }
  unfold mbind at 1, st_bind at 1.
  match goal with |- context [try_offload_rekey ?v] => destruct (Ho v) as (w1 & b & ->) end.
  unfold set_state. rewrite st_bind_modify. apply arm_returns.
Qed.

(** The installation of keys changes the requests made and nothing else of a connection. *)
Definition same_connection (w w' : W) : Prop :=
  w_iface w' = w_iface w /\ w_link w' = w_link w /\ w_state w' = w_state w.

#[global] Instance same_connection_preorder : PreOrder same_connection.
Proof.
  split; [by intros w|]. intros w1 w2 w3 (I1 & L1 & S1) (I2 & L2 & S2).
  split_and!; [by rewrite I2|by rewrite L2|by rewrite S2].
Qed.

Lemma same_connection_request c w : along same_connection w (request c) w.
Proof. unfold along, request, raw_request, mbind, st_bind. by destruct (kernel_reply _ _). Qed.

Lemma same_connection_result {A} w0 (m : wm A) w :
  along same_connection w0 m w -> along same_connection w0 (result_of m) w.
Proof. unfold along, result_of. by destruct (m w) as [w' []]. Qed.

Lemma same_connection_keys t ptk f w : along same_connection w (install_ft_keys t ptk f) w.
Proof.
  unfold install_ft_keys, install_ft_ptk, install_ft_gtk, install_ft_mgmt, install_or_fail, logged.
  repeat first
    [ progress intros
    | match goal with
      | |- along _ _ (result_of _) _ => apply same_connection_result
      | |- along _ _ (request _) _ =>
          refine (along_call _ _ _ _ _ _); [reflexivity|apply same_connection_request]
      end
    | along_step ltac:(reflexivity) ].
Qed.

(** A key that the kernel was given after the first [n] requests, and took. *)
Definition taken (n : nat) (log : list Command) (k : Key) : Prop :=
  exists i, (n <= i)%nat /\ log !! i = Some (NewKey k)
            /\ kernel_reply (take i log) (NewKey k) = None.

Lemma taken_mono n l l' k : l `prefix_of` l' -> taken n l k -> taken n l' k.
Proof.
  intros [l2 ->] (i & Hi & Hk & Ha). exists i.
  assert (i < length l)%nat by (by eapply lookup_lt_Some).
  rewrite lookup_app_l, take_app_le by lia. done.
Qed.

Lemma install_taken k what w w' u n : (n <= length (w_log w))%nat ->
  install_or_fail k what w = (w', Ok u) -> taken n (w_log w') k.
Proof.
  intros Hn (w1 & [e|x] & Hr & Hm)%st_bind_ok_inv; [done|]. injection Hm as <- _.
  apply result_of_ok in Hr. revert Hr. unfold request, raw_request, mbind, st_bind.
  destruct (kernel_reply _ _) eqn:Hk; [done|]. intros [= <- _]. exists (length (w_log w)). cbn.
  rewrite list_lookup_middle, take_app_length by done. done.
Qed.

Lemma grows {A} (m : wm A) w w' r :
  along (advances 0 (fun _ => True) True) w m w -> m w = (w', r) -> w_log w `prefix_of` w_log w'.
Proof. apply log_grows. Qed.

(** The pairwise and the group key were taken; a refusal of the others is only logged. *)
Lemma ft_keys_taken target ptk f w w' u : length ptk = 48%nat ->
  install_ft_keys target ptk f w = (w', Ok u) ->
  Forall (taken (length (w_log w)) (w_log w'))
    (ptk_key (bssid target) (take 16 (drop 32 ptk)) :: ft_group_key gtk_key ptk (ftie_gtk f)).
Proof.
  intros Hl (w1 & u1 & Hp & Hm)%st_bind_ok_inv.
  assert (Hg1 : w_log w `prefix_of` w_log w1)
    by (eapply grows; [|exact Hp]; unfold install_ft_ptk; go).
  assert (Hg : w_log w1 `prefix_of` w_log w')
    by (eapply grows; [|exact Hm]; unfold install_ft_gtk, install_ft_mgmt; go).
  rewrite slice_in in Hm by lia. rewrite st_bind_lift in Hm. cbn [Nat.sub] in Hm.
  apply st_bind_ok_inv in Hm as (w2 & u2 & Hgtk & Hm). constructor.
  - apply (taken_mono _ _ _ _ Hg). unfold install_ft_ptk, slice_from in Hp.
    rewrite slice_in in Hp by lia. rewrite st_bind_lift in Hp.
    rewrite slice_in in Hp by (rewrite length_take, length_drop; lia). rewrite st_bind_lift in Hp.
    rewrite drop_0, take_take, Nat.min_l in Hp by lia. by eapply install_taken.
  - assert (Hg2 : w_log w2 `prefix_of` w_log w')
      by (eapply grows; [|exact Hm]; unfold install_ft_mgmt; go).
    unfold install_ft_gtk, ft_group_key in *. destruct (ftie_gtk f) as [gtk|]; [|constructor].
    apply st_bind_ok_inv in Hgtk as (w3 & key & Hu & Hgtk).
    destruct (unwrap_ft_key _ _) as [key'|e| |]; [|constructor..]. injection Hu as <- <-.
    repeat constructor. apply (taken_mono _ _ _ _ Hg2). eapply install_taken; [|exact Hgtk].
    by apply prefix_length.
Qed.

(** What the checks of a reassociation response mean. *)
Lemma check_ft_assoc_ok mac target ptk r1kh r1 ies f : (16 <= length ptk)%nat ->
  check_ft_assoc mac target ptk r1kh r1 ies = Ok f -> ft_response mac target ptk r1kh ies f.
Proof.
  intros Hl. unfold check_ft_assoc.
  destruct (find_ie ies ELEMENT_ID_FTIE) as [body|] eqn:Hb; [|done]. cbn [ok_or].
  intros Hc. apply bind_ok in Hc as (b & [= <-] & Hc).
  apply bind_ok in Hc as (g & Hg%ok_or_ok & Hc).
  destruct (bool_decide (ftie_r1kh_id g = Some r1kh)) eqn:Hk; [|done]. cbn [negb] in Hc.
  apply bind_ok in Hc as (rsne & Hr%ok_or_ok & Hc). apply bind_ok in Hc as (rb & _ & Hc).
  destruct (from_option _ _ _); [done|].
  destruct (negb (bool_decide (ap_rsne target = [])) && _) eqn:Hrs; [done|].
  apply bind_ok in Hc as (z & Hz & Hc). apply bind_ok in Hc as (kck & Hs & Hc).
  apply bind_ok in Hc as (mic & Hm & Hc). destruct (bool_decide (mic = ftie_mic g)) eqn:He; [|done].
  cbn in Hc. injection Hc as <-. apply bool_decide_eq_true in He as ->. apply bool_decide_eq_true in Hk.
  rewrite slice_in in Hs by lia. injection Hs as <-. cbn [Nat.sub] in Hm. rewrite drop_0 in Hm.
  split; [|done]. exists body. split_and!; [done|done|]. exists rsne, z. split_and!; [done|done| |done].
  apply andb_false_iff in Hrs as [Hn|Hn]; apply negb_false_iff in Hn;
    [apply bool_decide_eq_true in Hn; by left|by right].
Qed.

End keys.

Section safety.
Context `{!Supplicant} `{!FrameLib} `{!Host} `{!WifiCryptoLaws}.

(** The keys of a transition whose response passed the checks. *)
Record ft_authenticated (w : W) (ies : list Z) (roam : FtRoam) (ptk : list Z) (f : Ftie) : Prop := {
  fa_roam : r_ft_roam (w_roam w) = Some roam;
  fa_keys : exists c r1kh r1 anonce, l_ft (w_link w) = Some c
    /\ derive_pmk_r1 (ft_pmk_r0 c) r1kh (w_mac w) = Ok r1
    /\ derive_ft_ptk r1 (fr_snonce roam) anonce (bssid (fr_target roam)) (w_mac w) = Ok ptk
    /\ ft_response (w_mac w) (fr_target roam) ptk r1kh ies f;
}.

Lemma ft_ptk_length r1 sn an b m ptk : derive_ft_ptk r1 sn an b m = Ok ptk -> length ptk = 48%nat.
Proof.
  unfold derive_ft_ptk.
  destruct (KdfFacts.kdf_len (r1_key r1) "FT-PTK" (sn ++ an ++ b ++ m) 48 ltac:(lia)) as (p & Hp & Hl).
  intros Hd. congruence.
Qed.

(** A response is refused before any key is requested, or passed the checks. *)
Lemma ft_assoc_cases ies w : ft_ok w -> if_mlme (w_iface w) = SoftMac ->
  (exists r, handle_ft_assoc_response_inner ies w = (w, r) /\ is_ok r = false)
  \/ exists roam ptk f c r1, ft_authenticated w ies roam ptk f /\ length ptk = 48%nat
       /\ handle_ft_assoc_response_inner ies w
          = (install_ft_keys (fr_target roam) ptk f;; complete_ft_roam c (fr_target roam) r1 ptk ies) w.
Proof.
  intros Hft Hm. specialize (Hft Hm). unfold handle_ft_assoc_response_inner, roaming.
  rewrite st_bind_get. destruct (r_ft_roam (w_roam w)) as [roam|] eqn:Hr; [|left; eexists; split; [reflexivity|done]].
  cbn [ok_or]. rewrite st_bind_lift.
  destruct (l_ft (w_link w)) as [c|] eqn:Hc; [|left; eexists; split; [reflexivity|done]].
  cbn [ok_or]. rewrite st_bind_lift.
  destruct (fr_ptk roam) as [ptk|] eqn:Hp; [|left; eexists; split; [reflexivity|done]].
  destruct (Hft ptk Hp) as (c' & r1kh & r1 & anonce & [= <-] & Hkh & Hr1 & Hd1 & Hd2).
  cbn [ok_or]. rewrite st_bind_lift, Hkh, Hr1. cbn [ok_or]. rewrite !st_bind_lift.
  apply ft_ptk_length in Hd2 as Hl.
  destruct (check_ft_assoc _ _ _ _ _ _) as [f|e| |] eqn:Hf; [|left; eexists; split; [reflexivity|done]..]. right.
  exists roam, ptk, f, c, r1. rewrite st_bind_lift. split_and!; [|done|done].
  split; [done|]. exists c, r1kh, r1, anonce. split_and!; [done..|].
  eapply check_ft_assoc_ok; [lia|exact Hf].
Qed.

(** The installation and the move: both, or neither. *)
Lemma keys_and_move target ptk f c r1 ies w : length ptk = 48%nat ->
  match (install_ft_keys target ptk f;; complete_ft_roam c target r1 ptk ies) w with
  | (w', Ok _) =>
      Forall (taken (length (w_log w)) (w_log w'))
        (ptk_key (bssid target) (take 16 (drop 32 ptk)) :: ft_group_key gtk_key ptk (ftie_gtk f))
      /\ bss_info w' = target /\ is_connected (w_state w') = true
  | (w', _) => same_connection w w'
  end.
Proof.
  intros Hl. unfold mbind, st_bind. pose proof (same_connection_keys target ptk f w) as Hs.
  unfold along in Hs. destruct (install_ft_keys target ptk f w) as [w1 [u|e| |]] eqn:Hi; try exact Hs.
  destruct (complete_returns c target r1 ptk ies w1) as [w2 Hc]. rewrite Hc.
  split; [|by eapply complete_ok]. eapply Forall_impl; [by eapply ft_keys_taken|].
  intros k. apply taken_mono. eapply grows; [|exact Hc]. apply along_complete_ft. by left.
Qed.

(** C5: a Fast BSS Transition installs keys only of an access point that has the keys of the
    connection.  In every reachable state, when a reassociation response is handled, either
    no key is requested and the response is refused, or the response carries, over its RSN
    element, MDIE and FTIE, the MIC of a PTK derived, for our SNonce and the target, from the
    PMK-R1 derived from the PMK-R0 of the connection, and its RSN element is that of the
    beacon; the keys requested are then the pairwise key of that PTK and the group keys of
    the FTIE unwrapped with it, in this order, and all of them when the transition
    succeeds, after which the interface is connected to the target; the kernel then took the
    pairwise key and the GTK, while a refusal of the IGTK or the BIGTK is only logged.  When
    it does not succeed the connection (its BSS, its link and its state) is as before. *)
Theorem ft_keys_authenticated ies w w' r :
  reachable w -> if_mlme (w_iface w) = SoftMac -> handle_ft_assoc_response ies w = (w', r) ->
  (new_keys (w_log w') = new_keys (w_log w) /\ is_ok r = false /\ same_connection w w')
  \/ exists roam ptk f l, ft_authenticated w ies roam ptk f
       /\ new_keys (w_log w') = new_keys (w_log w) ++ l
       /\ l `prefix_of` ft_keys (fr_target roam) ptk f
       /\ (if is_ok r
           then l = ft_keys (fr_target roam) ptk f
                /\ Forall (taken (length (w_log w)) (w_log w'))
                     (ptk_key (bssid (fr_target roam)) (take 16 (drop 32 ptk))
                      :: ft_group_key gtk_key ptk (ftie_gtk f))
                /\ bss_info w' = fr_target roam /\ is_connected (w_state w') = true
           else same_connection w w').
Proof.
  intros Hw Hm Hh. apply WifiReachable.reachable_wf in Hw as (_ & _ & _ & Hft & _).
  unfold handle_ft_assoc_response, mbind, st_bind, result_of in Hh.
  destruct (ft_assoc_cases ies w Hft Hm) as [(r1 & He & Hr1)|(roam & ptk & f & c & r1 & Ha & Hl & He)];
    rewrite He in Hh.
  { left. destruct r1; [done|..]; injection Hh as <- <-; done. }
  right. exists roam, ptk, f.
  destruct (asks_bind (ft_keys (fr_target roam) ptk f) [] _ _ w
    (asks_ft_keys (fr_target roam) ptk f w Hl)
    (fun _ v => asks_none _ _ (no_key_complete c (fr_target roam) r1 ptk ies v)))
    as (l & Hl1 & Hl2 & Hl3).
  rewrite app_nil_r in Hl2, Hl3. exists l.
  pose proof (keys_and_move (fr_target roam) ptk f c r1 ies w Hl) as Hkm.
  destruct ((install_ft_keys _ _ _;; _) w) as [w1 [u|e| |]]; cbn in *;
    injection Hh as <- <-; split_and!; try done.
  split; [by apply Hl3|exact Hkm].
Qed.

(** ** The authentication response *)

(** The response to our FT authentication: of this mobility domain, for our SNonce and the
    R0KH of the connection; a PMKID in its RSN element is the PMKR0Name. *)
Record ft_auth_ok (c : FtContext) (roam : FtRoam) (frame : list Z) (f : Ftie) (r1kh : list Z) : Prop := {
  fo_frame : exists ies, ft_auth_parse frame = inr (mkFtAuthFrame 2 StatusSuccess ies)
    /\ (exists capab, find_ie ies ELEMENT_ID_MDIE ≫= parse_mdie = Some (ft_mdid c, capab))
    /\ find_ie ies ELEMENT_ID_FTIE ≫= parse_ftie = Some f
    /\ (forall pmkid, find_ie ies ELEMENT_ID_RSN ≫= rsne_first_pmkid = Some pmkid ->
         pmkid = r0_name (ft_pmk_r0 c));
  fo_snonce : ftie_snonce f = fr_snonce roam;
  fo_r0kh : ftie_r0kh_id f = Some (ft_r0kh_id c);
  fo_r1kh : ftie_r1kh_id f = Some r1kh;
}.

Lemma check_ft_auth_iff c roam frame f r1kh :
  check_ft_auth c roam frame = Ok (f, r1kh) <-> ft_auth_ok c roam frame f r1kh.
Proof.
  unfold check_ft_auth. split.
  - destruct (ft_auth_parse frame) as [e|[t st ies]] eqn:Hp; [done|]. cbn.
    destruct (Z.eqb_spec t 2) as [->|]; [|done]. destruct (Z.eqb_spec st StatusSuccess) as [->|]; [|done]. cbn.
    destruct (find_ie ies ELEMENT_ID_MDIE ≫= parse_mdie) as [[m cap]|] eqn:Hm; [|done]. cbn.
    destruct (bool_decide_reflect (m = ft_mdid c)) as [->|]; [|done]. cbn.
    destruct (find_ie ies ELEMENT_ID_FTIE) as [body|] eqn:Hb; [|done]. cbn.
    destruct (parse_ftie body) as [g|] eqn:Hg; [|done]. cbn.
    destruct (bool_decide_reflect (ftie_snonce g = fr_snonce roam)); [|done]. cbn.
    destruct (bool_decide_reflect (ftie_r0kh_id g = Some (ft_r0kh_id c))); [|done]. cbn.
    destruct (ftie_r1kh_id g) as [k|] eqn:Hk; [|done]. cbn. intros Hr.
    assert (f = g /\ r1kh = k /\ forall pmkid, find_ie ies ELEMENT_ID_RSN ≫= rsne_first_pmkid = Some pmkid ->
         pmkid = r0_name (ft_pmk_r0 c)) as (-> & -> & Hpm).
    { destruct (find_ie ies ELEMENT_ID_RSN ≫= rsne_first_pmkid) as [pmkid|] eqn:Hq; cbn in Hr, Hq;
        rewrite ?Hq in Hr; [|by injection Hr as <- <-].
      destruct (bool_decide_reflect (pmkid = r0_name (ft_pmk_r0 c))); [|done].
      injection Hr as <- <-. by split_and!; [..|intros ? [= <-]]. }
    split; [|done..]. exists ies. rewrite Hb. cbn. by split_and!; [done|exists cap|..].
  - intros [(ies & Hp & [cap Hm] & Hf & Hpm) Hs Hr0 Hr1]. rewrite Hp. cbn. cbn in Hm. rewrite Hm. cbn.
    rewrite bool_decide_eq_true_2 by done. cbn.
    destruct (find_ie ies ELEMENT_ID_FTIE) as [body|]; [|done]. cbn in Hf |- *. rewrite Hf. cbn.
    rewrite Hs, Hr0, !bool_decide_eq_true_2 by done. cbn. rewrite Hr1. cbn.
    destruct (find_ie ies ELEMENT_ID_RSN ≫= rsne_first_pmkid) as [pmkid|] eqn:Hq; cbn; [|done].
    by rewrite bool_decide_eq_true_2 by auto.
Qed.

Lemma check_ft_auth_returns c roam frame : returns (check_ft_auth c roam frame).
Proof. unfold check_ft_auth, roaming_err. returns_tac. Qed.

Lemma mfp_ok rsne : exists b, rsne_mfp_capable rsne = Ok b.
Proof.
  unfold rsne_mfp_capable. destruct (Nat.ltb_spec (length rsne) 2) as [|Hl]; [by eauto|].
  destruct (lookup_lt_is_Some_2 rsne 1) as [x Hx]; [lia|]. rewrite (proj2 (idx_ok _ _ _) Hx).
  cbn [mbind outcome_bind]. destruct (Nat.ltb_spec (length rsne) (usize x + 2)) as [|Hu]; [by eauto|].
  rewrite slice_in by lia. cbn [mbind outcome_bind]. by eauto.
Qed.

(** The reassociation request is made when the target is of a mobility domain. *)
Lemma reassoc_sent target ptk r1 r1kh sn an w c : (16 <= length ptk)%nat -> l_ft (w_link w) = Some c ->
  match mdie target with
  | None => exists e, send_ft_reassoc target ptk r1 r1kh sn an w = (w, Err e)
  | Some _ => exists a, as_mac a = bssid target /\ as_prev_bssid a = Some (bssid (bss_info w))
       /\ send_ft_reassoc target ptk r1 r1kh sn an w = request (Associate a) w
  end.
Proof.
  intros Hl Hc. unfold send_ft_reassoc, roaming. rewrite st_bind_get, Hc. cbn [ok_or]. rewrite st_bind_lift.
  destruct (mdie target) as [m|]; [|by eexists]. cbn [ok_or]. rewrite st_bind_lift.
  rewrite slice_in by lia. rewrite st_bind_lift. unfold ftie_reassoc_request, ft_mic, aes_cmac.
  cbn [mbind outcome_bind]. rewrite st_bind_lift. destruct (mfp_ok (ap_rsne target)) as [b Hb].
  match goal with |- context [lift ?m ≫= _] =>
    assert (exists b, m = Ok b) as [b' ->]
      by (unfold ap_mfp_capable; rewrite Hb; destruct (security target); by eauto) end.
  rewrite st_bind_lift. eexists. split_and!; [| |reflexivity]; done.
Qed.

Lemma ft_auth_cases frame w roam c :
  r_ft_roam (w_roam w) = Some roam -> l_ft (w_link w) = Some c ->
  ((forall f r1kh, ~ ft_auth_ok c roam frame f r1kh)
     /\ exists e, handle_ft_auth_response_inner frame w = (w, Err e))
  \/ exists f r1kh r1 ptk, ft_auth_ok c roam frame f r1kh
       /\ derive_pmk_r1 (ft_pmk_r0 c) r1kh (w_mac w) = Ok r1
       /\ derive_ft_ptk r1 (fr_snonce roam) (ftie_anonce f) (bssid (fr_target roam)) (w_mac w) = Ok ptk
       /\ length ptk = 48%nat
       /\ handle_ft_auth_response_inner frame w
          = send_ft_reassoc (fr_target roam) ptk r1 r1kh (fr_snonce roam) (ftie_anonce f)
              (on_roam (put_r_ft_roam (Some (mkFtRoam (fr_target roam) (fr_snonce roam) (Some r1) (Some r1kh)
                                               (Some ptk)))) w).
Proof.
  intros Hr Hc. unfold handle_ft_auth_response_inner, roaming. rewrite st_bind_get, Hr, Hc.
  cbn [ok_or]. rewrite st_bind_lift. rewrite st_bind_lift.
  pose proof (check_ft_auth_returns c roam frame) as Hret.
  destruct (check_ft_auth c roam frame) as [[f r1kh]|e| |] eqn:Hk.
  - right. apply check_ft_auth_iff in Hk as Hok. rewrite st_bind_lift.
    destruct (KdfFacts.derive_pmk_r1_ok (ft_pmk_r0 c) r1kh (w_mac w)) as (r1 & Hr1 & _).
    destruct (KdfFacts.kdf_len (r1_key r1) "FT-PTK" (fr_snonce roam ++ ftie_anonce f ++ bssid (fr_target roam)
      ++ w_mac w) 48 ltac:(lia)) as (ptk & Hd & Hl).
    exists f, r1kh, r1, ptk. rewrite Hr1, st_bind_lift. unfold derive_ft_ptk at 2. rewrite Hd, st_bind_lift.
    by split_and!.
  - left. split; [|by eexists]. intros f r1kh Hok%check_ft_auth_iff. congruence.
  - done.
  - done.
Qed.

(** C26: what the authentication response of a Fast BSS Transition does, exactly.  A response
    is acceptable when it is of the second transaction, successful, of the mobility domain
    of the connection, echoes our SNonce, names the R0KH of the connection and an R1KH and,
    if its RSN element carries a PMKID, that is the PMKR0Name.  For an acceptable response,
    the target being of a mobility domain, the PMK-R1 and the PTK are derived from the PMK-R0
    of the connection, the response's R1KH and its ANonce, and the reassociation with the
    target is requested, from the current access point; the transition goes on with those
    keys when the kernel takes the request, and is over, the attempt failed, when it does
    not.  For any other response, or a target without a mobility domain, the transition is
    over, the attempt has failed and nothing was requested.  The handler never fails. *)
Theorem ft_auth_response_exact frame w roam c :
  r_ft_roam (w_roam w) = Some roam -> l_ft (w_link w) = Some c ->
  let w' := (handle_ft_auth_response frame w).1 in
  (handle_ft_auth_response frame w).2 = Ok tt
  /\ (forall f r1kh, ft_auth_ok c roam frame f r1kh -> is_Some (mdie (fr_target roam)) ->
       exists r1 ptk a,
         derive_pmk_r1 (ft_pmk_r0 c) r1kh (w_mac w) = Ok r1
         /\ derive_ft_ptk r1 (fr_snonce roam) (ftie_anonce f) (bssid (fr_target roam)) (w_mac w) = Ok ptk
         /\ as_mac a = bssid (fr_target roam) /\ as_prev_bssid a = Some (bssid (bss_info w))
         /\ w_log w' = w_log w ++ [Associate a]
         /\ (r_ft_roam (w_roam w'), w_state w')
            = match kernel_reply (w_log w) (Associate a) with
              | None => (Some (mkFtRoam (fr_target roam) (fr_snonce roam) (Some r1) (Some r1kh)
                                 (Some ptk)), w_state w)
              | Some _ => (None, Failed)
              end)
  /\ ((forall f r1kh, ~ ft_auth_ok c roam frame f r1kh) \/ mdie (fr_target roam) = None ->
      r_ft_roam (w_roam w') = None /\ w_state w' = Failed /\ w_log w' = w_log w).
Proof.
  intros Hr Hc w'. subst w'. unfold handle_ft_auth_response, on_error, result_of, mbind, st_bind.
  destruct (ft_auth_cases frame w roam c Hr Hc) as
    [(Hno & e & ->)|(f & r1kh & r1 & ptk & Hok & Hr1 & Hd & Hl & ->)].
  { split; [done|]. split; [|done]. intros f r1kh Hok. by apply Hno in Hok. }
  set (w1 := on_roam (put_r_ft_roam _) w).
  pose proof (reassoc_sent (fr_target roam) ptk r1 r1kh (fr_snonce roam) (ftie_anonce f) w1 c
    ltac:(lia) Hc) as Hs.
  destruct (mdie (fr_target roam)) as [m|].
  - destruct Hs as (a & Ham & Hap & ->).
    assert (Hex : forall g kh, ft_auth_ok c roam frame g kh -> g = f /\ kh = r1kh).
    { intros g kh Hg%check_ft_auth_iff. apply check_ft_auth_iff in Hok. split; congruence. }
    unfold request, raw_request, mbind, st_bind. replace (w_log w1) with (w_log w) by done.
    destruct (kernel_reply (w_log w) (Associate a)) as [x|] eqn:Hk; (split; [done|]; split);
      try (intros [Hno|Hno]; [by apply Hno in Hok|done]);
      intros g kh [-> ->]%Hex _; exists r1, ptk, a; rewrite Hk; by split_and!.
  - destruct Hs as [e ->]. split; [done|]. split; [|done]. by intros ? ? _ [].
Qed.

End safety.
End FtSafetyFacts.
