(* ===== verification/AttemptEnds.v ===== *)
(** * An attempt that nobody answers ends

    The timeouts of [WifiState::Authenticating] in [src/src/wifi/client/wifi_iface.rs]:
    retransmissions of an SAE frame, the restart with hunting-and-pecking, the fallback
    from a cached PMKSA.  [retries_left] bounds what is left of them. *)

From stdpp Require Import gmap.
From S2P Require Import Prelude Errors Eap EapTls Security Pmksa WifiKdf FourWay Sae Owe.
From S2P Require Import WifiConfig ClientState Scan WifiIface WifiAuth Roam WifiEvents.
From S2P Require Import ClientLoop WifiInvariant WifiSafety.
Import WifiInvariantFacts.

Section attempt.
Context `{!Supplicant} `{!FrameLib} `{!Host}.

(** What a PMKSA is cached under. *)
Definition bss_key (w : W) : string * list Z * SecurityType :=
  (NetworkConfig.ssid (network w), bssid (bss_info w), security (bss_info w)).

Definition frame_in_flight (a : AuthSession) : bool := a_sae_commit_sent a || a_sae_confirm_sent a.

(** Retransmissions, the restart and its retransmissions, the fallback and what follows it,
    and the timeout that ends the attempt. *)
Definition retries_left (w : W) : nat :=
  (if frame_in_flight (w_auth w)
   then Z.to_nat (SAE_SYNC_MAX - a_sae_sync (w_auth w)) + if a_sae_hnp_attempted (w_auth w) then 0 else 4
   else 0) + (if is_some (l_pmksa_in_use (w_link w)) then 8 else 0) + 1.

(** An attempt: its PMKSA, if any, is one of the BSS, and of a security that has them. *)
Record attempting (w : W) : Prop := {
  at_state : w_state w = Authenticating;
  at_auth : auth_ok (w_auth w);
  at_cache : PmksaSpec.wf (w_pmksa w);
  at_pmksa : forall e, l_pmksa_in_use (w_link w) = Some e ->
    PmksaSpec.key e = bss_key w /\ is_sae (security (bss_info w)) || is_psk (security (bss_info w)) = true;
}.

(** The random generator answers, and not with zero. *)
Definition good_rng : Prop :=
  forall n, exists x y rest, random_scalars n = inr x :: inr y :: rest /\ x <> 0 /\ y <> 0.

(** A password identifier fits its element. *)
Definition short_password_id (n : NetworkConfig.t) : Prop :=
  forall i, NetworkConfig.sae_password_id n = Some i -> (length (as_bytes i) < 255)%nat.

End attempt.

Module AttemptFacts.

(** ** SAE computations return *)

Section sae.
Context `{!Supplicant} `{!WifiCryptoLaws}.

Lemma nonzero_two (x y : Z) rest : x <> 0 -> nonzero_scalar (inr x :: rest) = Ok (x, rest).
Proof. intros Hx. cbn. by destruct (Z.eqb_spec x 0). Qed.

Lemma extended_returns e o : (forall d, o = Some d -> (length d < 255)%nat) ->
  exists l, extended_opt e o = Ok l.
Proof.
  intros Hd. destruct o as [d|]; [|by eexists]. specialize (Hd d eq_refl). cbn. unfold extended.
  rewrite wrap_small by (split; [lia|change (2 ^ 8) with 256; lia]).
  destruct (Z.eqb_spec (Z.of_nat (length d)) 255); [lia|by eexists].
Qed.

Lemma hnp_candidate_returns addrs password counter : returns (hnp_candidate addrs password counter).
Proof.
  unfold hnp_candidate.
  destruct (KdfFacts.kdf_len (hkdf_extract_sha256 addrs (password ++ [as_u8 counter]))
    "SAE Hunting and Pecking" P256_PRIME SAE_FIELD_LEN) as (v & -> & _); [unfold SAE_FIELD_LEN; lia|].
  cbn [mbind outcome_bind]. destruct (_ <=? _); [done|]. destruct (field_sqrt _) as [y|]; [|done].
  apply returns_bind.
  - apply returns_idx. unfold hkdf_extract_sha256. rewrite w_hmac_sha256_len. lia.
  - intros last _. destruct (is_identity _); done.
Qed.

Lemma hnp_loop_returns n addrs password : forall counter, returns (hnp_loop n addrs password counter).
Proof.
  induction n as [|n IH]; intros counter; [done|]. cbn [hnp_loop].
  apply returns_bind; [apply hnp_candidate_returns|]. intros [p|] _; [done|apply IH].
Qed.

(** A new method: its password identifier, and no AKM. *)
Lemma new_sae_cases password ssid mac b h2e fb pid :
  (exists e, AuthMethod.new_sae password ssid mac b h2e fb pid = Err e)
  \/ exists m, AuthMethod.new_sae password ssid mac b h2e fb pid = Ok m
       /\ Sae.password_id (AuthMethod.sae m) = pid /\ akm_selector (AuthMethod.sae m) = None.
Proof.
  unfold AuthMethod.new_sae, new_with_password_id.
  match goal with |- context [if h2e then ?x else ?y] =>
    assert (returns (if h2e then x else y)) as Hr; [|destruct (if h2e then x else y) as [p|e| |]] end.
  - destruct h2e; [|apply hnp_loop_returns]. unfold compute_pwe_h2e_with_id, derive_pt_ecc, derive_pwe_from_pt, sae_err.
    returns_tac.
  - right. by eexists.
  - left. by eexists.
  - done.
  - done.
Qed.

(** The first frame of a method. *)
Lemma initial_frame_returns x y rest m : x <> 0 -> y <> 0 ->
  (forall d, Sae.password_id (AuthMethod.sae m) = Some d -> (length d < 255)%nat) ->
  (forall d, akm_selector (AuthMethod.sae m) = Some d -> (length d < 255)%nat) ->
  exists m' d, AuthMethod.initial_frame (inr x :: inr y :: rest) m = (m', Ok d).
Proof.
  intros Hx Hy Hp Ha. unfold AuthMethod.initial_frame, AuthMethod.on_sae, build_init_auth_msg, generate_commit.
  set (s := AuthMethod.sae m) in *. unfold mbind at 1, st_bind at 1.
  rewrite nonzero_two by done. rewrite st_bind_lift. rewrite nonzero_two by done. rewrite st_bind_lift.
  rewrite st_bind_get, st_bind_modify, st_mret, st_bind_get. unfold build_commit_auth_data.
  cbn [is_h2e own_scalar_bytes own_elem_bytes Sae.password_id akm_selector put_commit].
  destruct (extended_returns EXT_PASSWORD_IDENTIFIER _ Hp) as [l1 ->].
  destruct (extended_returns EXT_AKM_SUITE_SELECTOR _ Ha) as [l2 ->].
  cbn [mbind outcome_bind extended_opt]. destruct (is_h2e s); by do 2 eexists.
Qed.

Lemma retransmit_returns s : returns (retransmit_confirm s).2.
Proof.
  unfold retransmit_confirm. rewrite st_bind_get.
  destruct (kck s); [|done]. destruct (peer_scalar s); [|done]. destruct (peer_elem s); [|done].
  cbn [ok_or]. rewrite !st_bind_lift. by destruct (_ || _).
Qed.

End sae.
(** ** What a timeout changes *)

Section steps.
Context `{!Supplicant} `{!FrameLib} `{!Host}.

(** What the requests and the SAE computations of an attempt leave alone. *)
Definition held (w : W) :=
  (core w, l_pmksa_in_use (w_link w), w_pmksa w, (w_inbox w, w_resume_gen w)).

#[global] Instance held_quiet : Quiet held.
Proof. by split. Qed.

(** That a method returns, through its code. *)
Lemma returns_st_bind {A B} (m : wm A) (k : A -> wm B) w :
  returns (m w).2 -> (forall a w', m w = (w', Ok a) -> returns (k a w').2) -> returns ((m ≫= k) w).2.
Proof. unfold mbind, st_bind. destruct (m w) as [w' [a|e| |]]; cbn; auto; done. Qed.

Lemma returns_result_of {A} (m : wm A) w : returns (m w).2 -> returns (result_of m w).2.
Proof. unfold result_of. by destruct (m w) as [w' []]. Qed.

Lemma request_returns c w : returns (request c w).2.
Proof. unfold request, raw_request, mbind, st_bind. by destruct (kernel_reply _ _). Qed.

Ltac settle_step :=
  lazymatch goal with
  | |- returns (get _).2 => exact I
  | |- returns (modify _ _).2 => exact I
  | |- returns (mret _ _).2 => exact I
  | |- returns (throw _ _).2 => exact I
  | |- returns (raw_request _ _).2 => exact I
  | |- returns (reading _ _).2 => exact I
  | |- returns (lift _ _).2 => cbn [lift snd]
  | |- returns (request _ _).2 => apply request_returns
  | |- returns (logged _ _).2 => unfold logged
  | |- returns (result_of _ _).2 => apply returns_result_of
  | |- returns ((_ ≫= _) _).2 => apply returns_st_bind; [|intros ???]
  | |- returns ((match ?x with _ => _ end) _).2 => destruct x eqn:?
  end.
Ltac settle := repeat settle_step.

Lemma request_retry_returns c w : returns (request_retry c w).2.
Proof. unfold request_retry. settle. Qed.

Lemma held_iface w w' : held w = held w' -> w_iface w = w_iface w'.
Proof. by intros [=]. Qed.

Lemma driver_del_cases e w : exists w', driver_del_pmksa e w = (w', Ok tt) /\ held w' = held w.
Proof.
  pose proof (same_driver_del held e w : held _ = held _) as Hq. revert Hq.
  unfold driver_del_pmksa, logged, result_of, request, raw_request, mbind, st_bind.
  destruct (kernel_reply _ _); cbn; intros Hq; eexists; (split; [reflexivity|exact Hq]).
Qed.

Lemma authenticate_cases t d w :
  held (authenticate_bss t d w).1 = held w /\ returns (authenticate_bss t d w).2.
Proof.
  split; [exact (same_authenticate_bss held t d w)|].
  unfold authenticate_bss, authenticate. settle. apply request_retry_returns.
Qed.

(** A request that may fail, and what follows it: the attempt has failed, or it goes on. *)
Lemma or_failed_cases {A} (m : wm A) k w :
  held (m w).1 = held w -> returns (m w).2 ->
  (exists w', or_failed m k w = (w', Ok tt) /\ w_state w' = Failed /\ w_inbox w' = w_inbox w
              /\ w_pmksa w' = w_pmksa w)
  \/ exists a w1, held w1 = held w /\ or_failed m k w = k a w1.
Proof.
  unfold or_failed, result_of, mbind, st_bind. intros Hh Hr. destruct (m w) as [w1 [a|e| |]]; cbn in *; try done.
  - right. by exists a, w1.
  - left. eexists. split; [reflexivity|]. unfold held in Hh. cbn. split_and!; congruence.
Qed.

(** The flags of a commit or a confirm in flight. *)
Definition with_flags (commit confirm : bool) (w : W) : W :=
  on_auth (put_a_sae_commit_sent commit) (on_auth (put_a_sae_confirm_sent confirm) w).

Lemma held_flags c c' w w1 : held w1 = held w -> held (with_flags c c' w1) = held (with_flags c c' w).
Proof. unfold held, core. cbn. intros [=]. congruence. Qed.

(** An SAE frame is sent, or the attempt has failed. *)
Definition sent_or_failed (w w' : W) (commit : bool) : Prop :=
  (w_state w' = Failed /\ w_inbox w' = w_inbox w /\ w_pmksa w' = w_pmksa w)
  \/ held w' = held (with_flags commit (negb commit) w).

Lemma send_commit_cases d w : exists w', send_sae_commit d w = (w', Ok tt) /\ sent_or_failed w w' true.
Proof.
  unfold send_sae_commit. destruct (authenticate_cases SaeType (Some d) w) as [Hh Hr].
  match goal with |- context [or_failed ?m ?k w] =>
    destruct (or_failed_cases m k w Hh Hr) as [(w' & -> & Hf)|(a & w1 & Hh1 & ->)] end.
  - exists w'. by split; [|left].
  - eexists. split; [reflexivity|]. right. by apply (held_flags true false) in Hh1.
Qed.

Lemma send_confirm_cases d w : exists w', send_sae_confirm d w = (w', Ok tt) /\ sent_or_failed w w' false.
Proof.
  unfold send_sae_confirm. destruct (authenticate_cases SaeType (Some d) w) as [Hh Hr].
  match goal with |- context [or_failed ?m ?k w] =>
    destruct (or_failed_cases m k w Hh Hr) as [(w' & -> & Hf)|(a & w1 & Hh1 & ->)] end.
  - exists w'. by split; [|left].
  - eexists. split; [reflexivity|]. right. by apply (held_flags false true) in Hh1.
Qed.

(** The attempt is over; the queue is as it was. *)
Definition ended (w w' : W) : Prop := w_state w' <> Authenticating /\ w_inbox w' = w_inbox w.

Lemma sent_over w w' c : sent_or_failed w w' c -> w_state w = Authenticating ->
  (ended w w' /\ bool_decide (w_state w' = Authenticating) = false)
  \/ (held w' = held (with_flags c (negb c) w) /\ bool_decide (w_state w' = Authenticating) = true).
Proof.
  intros [(Hs & Hi & _)|Hh] Hw.
  - left. unfold ended. rewrite Hs. split_and!; [done|done|by apply bool_decide_eq_false_2].
  - right. split; [done|]. apply bool_decide_eq_true_2. unfold held, core in Hh. cbn in Hh. congruence.
Qed.

Definition resync (n : Z) (w : W) : W := on_auth (put_a_sae_sync n) w.

Lemma retransmit_cases `{!WifiCryptoLaws} w : w_state w = Authenticating ->
  exists w' b, retransmit_sae w = (w', Ok b)
    /\ ((b = false /\ ended w w')
        \/ (b = true /\ held w' = held (with_flags (a_sae_commit_sent (w_auth w))
              (negb (a_sae_commit_sent (w_auth w))) (resync (a_sae_sync (w_auth w) + 1) w)))).
Proof.
  intros Hs. unfold retransmit_sae. rewrite st_bind_get, st_bind_modify.
  fold (resync (a_sae_sync (w_auth w) + 1) w). set (w1 := resync _ w).
  destruct (a_sae_commit_sent (w_auth w)) eqn:Hc.
  - destruct (send_commit_cases (a_sae_commit_auth_data (w_auth w)) w1) as (w' & He & Hr).
    rewrite (st_bind_ok _ _ _ _ _ He), st_bind_get. do 2 eexists. split; [reflexivity|].
    destruct (sent_over w1 w' true Hr Hs) as [[Ho Hb]|[Ho Hb]]; [left|right]; by split.
  - assert (exists x w2, held w2 = held w1 /\ (if is_some (a_method (w_auth w1))
         then result_of (with_method (AuthMethod.on_sae retransmit_confirm))
         else mret (inl (WifiError.new WifiError.SaeFailed "no SAE state for confirm retransmit"))) w1
         = (w2, Ok x)) as (x & w2 & Hh & He).
    { destruct (a_method (w_auth w1)) as [m|] eqn:Hm; cbn [is_some]; [|by do 2 eexists].
      pose proof (same_with_method held (AuthMethod.on_sae retransmit_confirm) w1) as Hq.
      unfold along, same in Hq. unfold result_of, with_method in *. rewrite Hm in *.
      unfold AuthMethod.on_sae in *. pose proof (retransmit_returns (AuthMethod.sae m)) as Hret.
      destruct (retransmit_confirm (AuthMethod.sae m)) as [s [y|e| |]]; try done; by do 2 eexists. }
    replace (a_method (w_auth w)) with (a_method (w_auth w1)) by done.
    rewrite (st_bind_ok _ _ _ _ _ He). assert (w_state w2 = Authenticating /\ w_inbox w2 = w_inbox w) as [Hs2 Hi2].
    { unfold held, core in Hh. cbn in Hh. split; congruence. }
    destruct x as [e|[sc hash]].
    + do 2 eexists. split; [reflexivity|]. left. by split_and!.
    + destruct (send_confirm_cases (to_le16 2 ++ to_le16 0 ++ to_le16 sc ++ hash) w2) as (w' & Hf & Hr).
      rewrite (st_bind_ok _ _ _ _ _ Hf), st_bind_get. do 2 eexists. split; [reflexivity|].
      destruct (sent_over w2 w' false Hr Hs2) as [[[Ho Hj] Hb]|[Ho Hb]]; [left|right]; (split; [done|]).
      * split; [done|]. congruence.
      * rewrite Ho. by apply held_flags.
Qed.

(** The first frame of a method that is there. *)
Lemma first_frame_cases `{!WifiCryptoLaws} w m : good_rng -> a_method (w_auth w) = Some m ->
  (forall d, Sae.password_id (AuthMethod.sae m) = Some d -> (length d < 255)%nat) ->
  (forall d, akm_selector (AuthMethod.sae m) = Some d -> (length d < 255)%nat) ->
  exists w1 rng w2 d, reading random_scalars w = (w1, Ok rng)
    /\ with_method (AuthMethod.initial_frame rng) w1 = (w2, Ok d) /\ held w2 = held w.
Proof.
  intros Hrng Hm Hp Ha. destruct (Hrng (w_tick w)) as (x & y & rest & Hr & Hx & Hy).
  destruct (initial_frame_returns x y rest m Hx Hy Hp Ha) as (m' & d & Hf).
  do 4 eexists. split_and!; [unfold reading; by rewrite Hr| |].
  - unfold with_method. cbn. by rewrite Hm, Hf.
  - done.
Qed.

Definition restarted (w : W) : W := resync 0 (on_auth (put_a_sae_hnp_attempted true) w).

Lemma restart_cases `{!WifiCryptoLaws} w : good_rng -> w_state w = Authenticating ->
  exists w', restart_sae_with_hnp w = (w', Ok tt)
    /\ (ended w w' \/ held w' = held (with_flags true false (restarted w))).
Proof.
  intros Hrng Hs. unfold restart_sae_with_hnp. rewrite st_bind_get.
  destruct (NetworkConfig.password (network w)) as [pw|]; [|eexists; split; [reflexivity|left; by split]].
  destruct (new_sae_cases (as_bytes pw) (as_bytes (NetworkConfig.ssid (network w))) (w_mac w)
    (bssid (bss_info w)) false false None) as [[e ->]|(m & -> & Hp & Ha)];
    [eexists; split; [reflexivity|left; by split]|].
  unfold result_of at 1, mbind at 1, st_bind at 1, lift at 1. rewrite !st_bind_modify. unfold send_first_commit.
  set (w1 := on_auth (put_a_sae_hnp_attempted true) (on_auth (put_a_method (Some m)) w)).
  destruct (first_frame_cases w1 m Hrng) as (w1' & rng & w2 & d & Hrd & Hw2 & Hh2);
    [done|by rewrite Hp|by rewrite Ha|]. rewrite (st_bind_ok _ _ _ _ _ Hrd).
  unfold result_of at 1, mbind at 1, st_bind at 1. rewrite Hw2, st_bind_modify. fold (resync 0 w2).
  assert (held (resync 0 w2) = held (restarted w)) as Hh3.
  { unfold held, core in *. cbn in *. congruence. }
  destruct (send_commit_cases d (resync 0 w2)) as (w' & He & Hsent). exists w'. split; [exact He|].
  destruct (sent_over _ _ _ Hsent) as [[[Ho Hi] _]|[Ho _]].
  - unfold held, core in Hh3. cbn in *. congruence.
  - left. split; [done|]. rewrite Hi. unfold held, core in Hh3. cbn in *. congruence.
  - right. rewrite Ho. by apply held_flags.
Qed.

(** ** The fallback from a cached PMKSA *)

Definition returns_held {A} (m : wm A) (w : W) : Prop := held (m w).1 = held w /\ returns (m w).2.

Lemma wp_held {A} (m : wm A) (Q : A -> W -> Prop) (R : WifiError.t -> W -> Prop) w :
  returns_held m w ->
  (forall a w', held w' = held w -> Q a w') -> (forall e w', held w' = held w -> R e w') ->
  wp m Q R w.
Proof. unfold returns_held, wp. intros [Hh Hr] HQ HR. destruct (m w) as [w' [a|e| |]]; auto. Qed.

Lemma extract_rsn_returns ies : returns (extract_rsn_from_ies ies).
Proof.
  unfold extract_rsn_from_ies.
  assert (forall fuel offset, (offset <= length ies)%nat -> (length ies < fuel + offset)%nat ->
    returns (extract_rsn_loop fuel ies offset)) as Hl; [|apply Hl; lia].
  induction fuel as [|fuel IH]; intros offset Ho Hf; [lia|]. cbn [extract_rsn_loop].
  destruct (Nat.leb_spec (offset + 2) (length ies)); [|done].
  apply returns_bind; [apply returns_idx; lia|intros id _].
  apply returns_bind; [apply returns_idx; lia|intros len _]. cbn zeta.
  destruct (Nat.ltb_spec (length ies) (offset + 2 + usize len)); [done|].
  destruct (id =? 48); [returns_tac|apply IH; lia].
Qed.

Lemma mfp_capable_returns b : returns (ap_mfp_capable b).
Proof. unfold ap_mfp_capable, rsne_mfp_capable. returns_tac. Qed.

Lemma ensure_control_port_returns w : returns (ensure_control_port w).2.
Proof. unfold ensure_control_port. settle. Qed.

Lemma connect_request_cases w : returns_held send_out_connect_request w.
Proof.
  split; [exact (same_connect_request held w)|]. unfold send_out_connect_request, connect. settle.
  all: try apply ensure_control_port_returns; try apply request_retry_returns; try apply extract_rsn_returns.
  - by destruct (security (bss_info _)).
  - unfold connect_mfp. by destruct (security (bss_info _)); try apply mfp_capable_returns.
Qed.

Lemma sae_method_cases `{!WifiCryptoLaws} w pw : short_password_id (network w) ->
  (exists e, sae_method w pw = Err e)
  \/ exists m, sae_method w pw = Ok m
       /\ (forall d, Sae.password_id (AuthMethod.sae m) = Some d -> (length d < 255)%nat)
       /\ (forall d, akm_selector (AuthMethod.sae m) = Some d -> (length d < 255)%nat).
Proof.
  intros Hid. unfold sae_method.
  match goal with |- context [AuthMethod.new_sae ?a ?b ?c ?d ?e ?f ?g] =>
    destruct (new_sae_cases a b c d e f g) as [[x ->]|(m & -> & Hp & Ha)] end; [left; by eexists|].
  right. eexists. split; [reflexivity|].
  assert (forall d, Sae.password_id (AuthMethod.sae m) = Some d -> (length d < 255)%nat) as Hlen.
  { intros d. rewrite Hp. intros (i & Hi & ->)%fmap_Some. by apply Hid. }
  destruct (is_ext_key _); [|split; [done|by rewrite Ha]].
  split; [exact Hlen|]. cbn. intros d. case_bool_decide; intros [= <-]; cbn; lia.
Qed.

Lemma start_sae_cases `{!WifiCryptoLaws} w : good_rng -> short_password_id (network w) ->
  wp start_sae (fun _ w' => held w' = held (resync 0 (on_auth (put_a_sae_commit_sent true) w)))
    (fun _ w' => held w' = held w) w.
Proof.
  intros Hrng Hid. unfold start_sae. apply wp_bind, wp_get, wp_bind, wp_lift;
    [by destruct (NetworkConfig.password _)| |done]. intros pw _. apply wp_bind.
  destruct (sae_method_cases w pw Hid) as [[e ->]|(m & -> & Hp & Ha)]; [done|].
  apply wp_lift; [done| |done]. intros m' [= <-]. apply wp_bind, wp_modify.
  set (w1 := on_auth (put_a_method _) w). destruct (first_frame_cases w1 m Hrng) as (w1' & rng & w2 & d & Hr & Hd & Hh);
    [done|exact Hp|exact Ha|].
  unfold wp. rewrite (st_bind_ok _ _ _ _ _ Hr), (st_bind_ok _ _ _ _ _ Hd).
  fold (wp (authenticate_bss SaeType (Some d) ≫= fun _ => modify (on_auth (put_a_sae_commit_sent true));;
    modify (on_auth (put_a_sae_sync 0));; modify (on_auth (put_a_sae_commit_auth_data d)))
    (fun _ w' => held w' = held (resync 0 (on_auth (put_a_sae_commit_sent true) w))) (fun _ w' => held w' = held w) w2).
  change (held w1) with (held w) in Hh. apply wp_bind, wp_held; [apply authenticate_cases| |].
  - intros _ w3 Hh3. apply wp_bind, wp_modify, wp_bind, wp_modify. apply wp_modify. unfold held, core in *. cbn in *. congruence.
  - intros _ w3 Hh3. congruence.
Qed.

(** No PMKSA of the BSS is cached. *)
Definition uncached (w : W) : Prop := PmksaSpec.wf (w_pmksa w) /\ PmksaSpec.abs (w_pmksa w) !! bss_key w = None.

Lemma lookup_uncached (past : bool) w : uncached w ->
  exists w', lookup_with (if past then PmksaCache.lookup_past_reauth else PmksaCache.lookup) w = (w', Ok None)
    /\ uncached w' /\ held w' = held (put_w_pmksa (w_pmksa w') w).
Proof.
  intros [Hwf Hn]. unfold lookup_with, now, reading, mbind, st_bind. cbn. set (t := clock (w_tick w)).
  assert (PmksaSpec.wf (PmksaCache.remove_expired t (w_pmksa w))) as Hwf'.
  { apply PmksaSpec.wf_filter, Hwf. }
  assert (PmksaSpec.abs (PmksaCache.remove_expired t (w_pmksa w)) !! bss_key w = None) as Hn'.
  { rewrite PmksaSpec.abs_expired by apply Hwf. unfold PmksaSpec.live. apply map_lookup_filter_None. by left. }
  destruct past; cbn; rewrite PmksaSpec.cache_find_key by apply Hwf';
    unfold bss_key, network, bss_info in *; cbn in *; rewrite Hn'; eexists; (split; [reflexivity|]);
    (split; [split; [exact Hwf'|exact Hn']|done]).
Qed.

Lemma use_pmksa_uncached w : uncached w ->
  exists w', use_pmksa w = (w', Ok tt) /\ uncached w' /\ held w' = held (put_w_pmksa (w_pmksa w') w).
Proof.
  intros Hu. unfold use_pmksa. rewrite st_bind_get.
  assert (exists w1, (if is_sae (security (bss_info w)) || is_psk (security (bss_info w))
      then lookup_with PmksaCache.lookup else mret None) w = (w1, Ok None)
    /\ uncached w1 /\ held w1 = held (put_w_pmksa (w_pmksa w1) w)) as (w1 & He & Hu1 & Hh1).
  { destruct (_ || _); [by apply (lookup_uncached false)|]. exists w. by split_and!. }
  rewrite (st_bind_ok _ _ _ _ _ He).
  destruct (lookup_uncached true w1 Hu1) as (w2 & He2 & Hu2 & Hh2). rewrite (st_bind_ok _ _ _ _ _ He2).
  exists w2. split_and!; [done|done|]. unfold held, core in *. cbn in *. congruence.
Qed.

(** What an attempt starts from, and what its first frame makes of it. *)
Definition started (w w' : W) : Prop :=
  PmksaSpec.wf (w_pmksa w') /\ w_inbox w' = w_inbox w /\ l_pmksa_in_use (w_link w') = None
  /\ w_state w' = w_state w /\ w_iface w' = w_iface w /\ a_sae_sync (w_auth w') = 0
  /\ a_sae_confirm_sent (w_auth w') = false /\ a_sae_hnp_attempted (w_auth w') = false.

Lemma started_held w w1 w2 : started w w1 -> held w2 = held w1 -> started w w2.
Proof. unfold started, held, core. intros (?&?&?&?&?&?&?&?) [=]. split_and!; congruence. Qed.

Lemma send_out_cases `{!WifiCryptoLaws} w : good_rng -> short_password_id (network w) -> uncached w ->
  is_enterprise (security (bss_info w)) = false ->
  wp send_out_auth_request (fun _ => started w)
    (fun _ w' => PmksaSpec.wf (w_pmksa w') /\ w_inbox w' = w_inbox w) w.
Proof.
  intros Hrng Hid Hu Hent. unfold send_out_auth_request. apply wp_bind, wp_modify.
  set (w0 := reset_attempt w). apply wp_bind. unfold wp at 1, prepare_eap. rewrite st_bind_get.
  change (bss_info w0) with (bss_info w). rewrite Hent, st_mret.
  destruct (use_pmksa_uncached w0 Hu) as (w1 & He & Hu1 & Hh1). apply wp_bind. unfold wp at 1. rewrite He.
  assert (started w w1) as Hs1.
  { eapply (started_held _ (put_w_pmksa (w_pmksa w1) w0)); [|done]. repeat split; apply Hu1. }
  assert (forall v, held v = held w1 -> started w v) as Hst by (intros v; by apply started_held).
  assert (forall v, held v = held w1 -> PmksaSpec.wf (w_pmksa v) /\ w_inbox v = w_inbox w) as Hse.
  { intros v Hv. by destruct (Hst v Hv) as (? & ? & _). }
  apply wp_bind, wp_held; [split; [exact (same_derive_psk held w1)|]| |by intros _].
  { unfold derive_psk. settle. by destruct (NetworkConfig.password _). }
  intros _ w2 Hh2. apply wp_bind, wp_get, wp_bind, wp_held.
  { destruct (_ && _); [|done]. split; [exact (same_ensure_control_port held w2)|apply ensure_control_port_returns]. }
  2: { intros _ v Hv. apply Hse. by rewrite Hv. }
  intros _ w3 Hh3. rewrite Hh2 in Hh3. destruct (bool_decide (if_mlme _ = FullMac)).
  - apply wp_held; [apply connect_request_cases| |]; intros _ v Hv; [apply Hst|apply Hse]; by rewrite Hv.
  - apply wp_bind, wp_get. destruct (_ || _).
    + apply wp_held; [apply authenticate_cases| |]; intros _ v Hv; [apply Hst|apply Hse]; by rewrite Hv.
    + assert (w_iface w3 = w_iface w) as Hi.
      { by rewrite (held_iface _ _ Hh3), (held_iface _ _ Hh1). }
      eapply wp_mono; [apply start_sae_cases; [done|]| |]; cbn beta.
      * unfold network in *. by rewrite Hi.
      * intros _ v Hv. destruct (Hst w3 Hh3) as (Hc & Hq & Hp & Hs & Hif & _ & Hconf & Hhnp).
        eapply started_held; [|exact Hv]. by split_and!.
      * intros _ v Hv. apply Hse. by rewrite Hv.
Qed.

(** The fallback: the attempt is started over without a PMKSA, or has failed. *)
Lemma fallback_cases `{!WifiCryptoLaws} w : good_rng -> short_password_id (network w) -> attempting w ->
  is_some (l_pmksa_in_use (w_link w)) = true ->
  exists w', pmksa_fallback w = (w', Ok tt) /\ (ended w w' \/ started w w').
Proof.
  intros Hrng Hid [Hs Ha Hc Hp] Hin. unfold pmksa_fallback, drop_pmksa_in_use.
  destruct (l_pmksa_in_use (w_link w)) as [e|] eqn:He; [|done]. destruct (Hp e eq_refl) as [Hk Hsec].
  set (inv := PmksaCache.invalidate (PmksaEntry.ssid e) (PmksaEntry.bssid e) (PmksaEntry.security e)).
  set (w1 := put_w_pmksa (inv (w_pmksa w)).1 (on_link (put_l_pmksa_in_use None) w)).
  destruct (driver_del_cases e w1) as (w2 & Hd & Hh2).
  assert (uncached w1) as [Hwf1 Hn1].
  { destruct (PmksaSpec.invalidate_simulates (PmksaEntry.ssid e) (PmksaEntry.bssid e) (PmksaEntry.security e)
      (w_pmksa w) (inv (w_pmksa w)).1 (inv (w_pmksa w)).2) as [Hwf Hstep]; [done|apply surjective_pairing|].
    split; [exact Hwf|]. inversion Hstep; subst. change (bss_key w1) with (bss_key w). rewrite <- Hk.
    change (w_pmksa w1) with (inv (w_pmksa w)).1.
    match goal with Hdel : delete _ _ = _ |- _ => rewrite <- Hdel end. apply lookup_delete_eq. }
  pose proof (held_iface _ _ Hh2) as Hi2. change (w_iface w1) with (w_iface w) in Hi2.
  assert (w_pmksa w2 = w_pmksa w1 /\ w_inbox w2 = w_inbox w /\ w_state w2 = w_state w) as (Hc2 & Hq2 & Hs2).
  { change (w_inbox w) with (w_inbox w1). change (w_state w) with (w_state w1). revert Hh2. clear. by intros [=]. }
  assert (drop_pmksa_in_use w = (w2, Ok tt)) as Hdrop.
  { unfold drop_pmksa_in_use. rewrite st_bind_get, He, !st_bind_modify. exact Hd. }
  rewrite (st_bind_ok _ _ _ _ _ Hdrop).
  assert (is_enterprise (security (bss_info w2)) = false) as Hent.
  { unfold bss_info in *. rewrite Hi2. by destruct (security _). }
  assert (wp send_out_auth_request (fun _ => started w2)
    (fun _ w' => PmksaSpec.wf (w_pmksa w') /\ w_inbox w' = w_inbox w2) w2) as Hsend.
  { apply send_out_cases; [done| | |done].
    - unfold network in *. by rewrite Hi2.
    - split; [by rewrite Hc2|]. rewrite Hc2. unfold bss_key, network, bss_info in *. by rewrite Hi2. }
  unfold wp in Hsend. unfold result_of, mbind, st_bind.
  destruct (send_out_auth_request w2) as [w3 [[]|e'| |]]; try done; eexists; (split; [reflexivity|]).
  - right. destruct Hsend as (? & ? & ? & Hw3 & Hi3 & ? & ? & ?). rewrite Hs2, Hs in Hw3.
    split_and!; cbn; try done; congruence.
  - left. destruct Hsend as [_ Hq3]. split; [done|]. cbn. congruence.
Qed.

End steps.

(** ** The timeout *)

Section timeout.
Context `{!Supplicant} `{!FrameLib} `{!Host} `{!WifiCryptoLaws}.

(** The attempt goes on with other flags and another count. *)
Lemma goes_on w w' c n h : attempting w -> 0 <= n <= SAE_SYNC_MAX ->
  held w' = held (with_flags c (negb c) (resync n (on_auth (put_a_sae_hnp_attempted h) w))) ->
  attempting w' /\ network w' = network w /\ w_inbox w' = w_inbox w
  /\ retries_left w' = (Z.to_nat (SAE_SYNC_MAX - n) + (if h then 0 else 4)
       + (if is_some (l_pmksa_in_use (w_link w)) then 8 else 0) + 1)%nat.
Proof.
  intros [Hs Ha Hc Hp] Hn Hh. pose proof (held_iface _ _ Hh) as Hi. change (w_iface w' = w_iface w) in Hi.
  assert (w_state w' = w_state w /\ l_pmksa_in_use (w_link w') = l_pmksa_in_use (w_link w)
    /\ w_pmksa w' = w_pmksa w /\ w_inbox w' = w_inbox w
    /\ a_sae_commit_sent (w_auth w') = c /\ a_sae_confirm_sent (w_auth w') = negb c
    /\ a_sae_sync (w_auth w') = n /\ a_sae_hnp_attempted (w_auth w') = h)
    as (Hs' & Hl' & Hc' & Hq' & Hcs & Hcf & Hsy & Hhn) by (revert Hh; clear; by intros [=]).
  split_and!; [|unfold network; by rewrite Hi|done|].
  - split; [congruence| |congruence|].
    + split; [lia|rewrite Hcs, Hcf; by destruct c].
    + unfold bss_key, network, bss_info in *. rewrite Hl', Hi. exact Hp.
  - unfold retries_left, frame_in_flight. rewrite Hcs, Hcf, Hsy, Hhn, Hl'. by destruct c.
Qed.

(** A timeout ends the attempt, or leaves it fewer retries. *)
Definition timed_out (w : W) (b : bool) (w' : W) : Prop :=
  (b = false /\ ended w w')
  \/ (b = true /\ attempting w' /\ network w' = network w /\ w_inbox w' = w_inbox w
      /\ (retries_left w' < retries_left w)%nat).

Lemma while_authenticating (m : wm unit) (w w' : W) : m w = (w', Ok tt) ->
  (ended w w' \/ attempting w' /\ network w' = network w /\ w_inbox w' = w_inbox w
     /\ (retries_left w' < retries_left w)%nat) ->
  exists w' b, (m ≫= fun _ => w ← get; mret (bool_decide (w_state w = Authenticating))) w = (w', Ok b)
    /\ timed_out w b w'.
Proof.
  intros Hm Hc. exists w', (bool_decide (w_state w' = Authenticating)).
  rewrite (st_bind_ok _ _ _ _ _ Hm). split; [done|]. destruct Hc as [[Hs Hi]|[Ha Hc]].
  - left. by rewrite bool_decide_eq_false_2.
  - right. by rewrite bool_decide_eq_true_2 by apply Ha.
Qed.

Lemma started_attempting w w' : attempting w -> started w w' -> (retries_left w' <= 8)%nat /\ attempting w'.
Proof.
  intros [Hs Ha Hc Hp] (Hc' & Hq' & Hl' & Hs' & Hi' & Hsy & Hcf & Hhn). split.
  - unfold retries_left. rewrite Hsy, Hhn, Hl'. change (Z.to_nat (SAE_SYNC_MAX - 0)) with 3%nat.
    cbn [is_some]. destruct (frame_in_flight _); lia.
  - split; [congruence| |done|by rewrite Hl'].
    split; [rewrite Hsy; unfold SAE_SYNC_MAX; lia|]. rewrite Hcf. apply andb_false_r.
Qed.

(** The branches of the timeout behind the retransmissions. *)
Lemma timeout_other w : good_rng -> short_password_id (network w) -> attempting w ->
  (frame_in_flight (w_auth w) = true -> a_sae_sync (w_auth w) = SAE_SYNC_MAX) ->
  exists w' b,
    (if hnp_allowed w then
       restart_sae_with_hnp;; w ← get; mret (bool_decide (w_state w = Authenticating))
     else if is_psk_4way_in_progress w then
       fail_auth (WifiError.wrong_password (NetworkConfig.ssid (network w)));; mret false
     else if is_some (l_pmksa_in_use (w_link w)) then
       pmksa_fallback;; w ← get; mret (bool_decide (w_state w = Authenticating))
     else set_state Failed;; mret false) w = (w', Ok b) /\ timed_out w b w'.
Proof.
  intros Hrng Hid Hat Hmax. destruct (hnp_allowed w) eqn:Hhnp.
  - apply andb_true_iff in Hhnp as [[Hc _]%andb_true_iff Hh%negb_true_iff].
    destruct (restart_cases w Hrng (at_state _ Hat)) as (w' & He & Hr).
    apply (while_authenticating _ w w' He). destruct Hr as [Hr|Hr]; [by left|right].
    destruct (goes_on w w' true 0 true Hat) as (? & ? & ? & ->); [unfold SAE_SYNC_MAX; lia|exact Hr|].
    split_and!; [done..|]. assert (frame_in_flight (w_auth w) = true) as Hf.
    { unfold frame_in_flight. by rewrite Hc. }
    unfold retries_left. rewrite Hf, Hh, Hmax by done.
    replace (Z.to_nat (SAE_SYNC_MAX - 0)) with 3%nat by done. lia.
  - destruct (is_psk_4way_in_progress w); [do 2 eexists; split; [reflexivity|left; by split_and!]|].
    destruct (is_some (l_pmksa_in_use (w_link w))) eqn:Hp;
      [|do 2 eexists; split; [reflexivity|left; by split_and!]].
    destruct (fallback_cases w Hrng Hid Hat Hp) as (w' & He & Hr).
    apply (while_authenticating _ w w' He). destruct Hr as [Hr|Hr]; [by left|right].
    destruct (started_attempting w w' Hat Hr) as [Hle Ha]. destruct Hr as (_ & Hq & _ & _ & Hi & _).
    split_and!; [done|unfold network; by rewrite Hi|done|]. unfold retries_left at 2. rewrite Hp. lia.
Qed.

Lemma timeout_cases w : good_rng -> short_password_id (network w) -> attempting w ->
  exists w' b, auth_timeout w = (w', Ok b) /\ timed_out w b w'.
Proof.
  intros Hrng Hid Hat. unfold auth_timeout, clear_wait_deadline. rewrite st_bind_modify, st_bind_get.
  set (w1 := put_w_wait_deadline _ w). assert (attempting w1) as Hat1 by (by destruct Hat).
  change (short_password_id (network w1)) in Hid. change (timed_out w) with (timed_out w1). clearbody w1. clear Hat.
  pose proof (at_auth _ Hat1) as [Hsy _].
  destruct (a_sae_commit_sent (w_auth w1) || a_sae_confirm_sent (w_auth w1)) eqn:Hfl; cbn [andb].
  1: destruct (Z.ltb_spec (a_sae_sync (w_auth w1)) SAE_SYNC_MAX) as [Hlt|Hge].
  - destruct (retransmit_cases w1 (at_state _ Hat1)) as (w' & b & He & Hb). exists w', b. split; [done|].
    destruct Hb as [[-> Ho]|[-> Hh]]; [by left|right]. split; [done|].
    destruct (goes_on w1 w' (a_sae_commit_sent (w_auth w1)) (a_sae_sync (w_auth w1) + 1) (a_sae_hnp_attempted (w_auth w1)) Hat1) as (? & ? & ? & ->);
      [lia|exact Hh|]. split_and!; [done..|]. unfold retries_left, frame_in_flight. rewrite Hfl. lia.
  - apply (timeout_other w1 Hrng Hid Hat1). lia.
  - apply (timeout_other w1 Hrng Hid Hat1). unfold frame_in_flight. by rewrite Hfl.
Qed.

Lemma await_auth_ends k rest : forall fuel w, good_rng -> short_password_id (network w) -> attempting w ->
  w_inbox w = replicate k TimedOut ++ rest -> (retries_left w <= k)%nat -> (k <= fuel)%nat ->
  exists w', await_auth fuel w = (w', Ok tt) /\ w_state w' <> Authenticating.
Proof.
  induction k as [|k IH]; intros fuel w Hrng Hid Hat Hq Hk Hf; [unfold retries_left in Hk; lia|].
  destruct fuel as [|fuel]; [lia|]. cbn [await_auth]. rewrite st_bind_get.
  assert (forall t, exists w1 r, wait_remaining t w = (w1, Ok r) /\ attempting w1 /\ network w1 = network w
    /\ w_inbox w1 = w_inbox w /\ retries_left w1 = retries_left w) as Hwait.
  { intros t. unfold wait_remaining, now, reading, mbind, st_bind. cbn.
    destruct (WaitDeadline.remaining _ _ _ _). do 2 eexists. split; [reflexivity|]. by destruct Hat. }
  match goal with |- context [wait_remaining ?t] => destruct (Hwait t) as (w1 & r & Hw & Hat1 & Hn1 & Hq1 & Hr1) end.
  rewrite (st_bind_ok _ _ _ _ _ Hw). rewrite Hq in Hq1. cbn in Hq1.
  set (w2 := put_w_resume_gen (w_resume_gen w1) (put_w_inbox (replicate k TimedOut ++ rest) w1)).
  assert (await_event w1 = (w2, Ok TimedOut)) as He by (unfold await_event; by rewrite Hq1).
  rewrite (st_bind_ok _ _ _ _ _ He). assert (attempting w2) as Hat2 by (by destruct Hat1).
  change (network w1) with (network w2) in Hn1. change (retries_left w1) with (retries_left w2) in Hr1.
  assert (short_password_id (network w2)) as Hid2 by (by rewrite Hn1).
  destruct (timeout_cases w2 Hrng Hid2 Hat2) as (w3 & b & Ht & Hb). rewrite (st_bind_ok _ _ _ _ _ Ht).
  destruct Hb as [[-> [Hs _]]|(-> & Ha3 & Hn3 & Hq3 & Hr3)]; [by eexists|].
  apply IH; [done|by rewrite Hn3|done|by rewrite Hq3|lia|lia].
Qed.

Lemma quiet_attempt_ends w rest : good_rng -> short_password_id (network w) -> attempting w ->
  w_inbox w = replicate (retries_left w) TimedOut ++ rest ->
  exists w', step_authenticating w = (w', Ok tt) /\ w_state w' <> Authenticating.
Proof.
  intros Hrng Hid Hat Hq. unfold step_authenticating, with_fuel.
  apply (await_auth_ends (retries_left w) rest); try done.
  rewrite Hq, length_app, length_replicate. lia.
Qed.

(** An attempt begins. *)
Lemma lookup_found w w' o : PmksaSpec.wf (w_pmksa w) -> lookup_with PmksaCache.lookup w = (w', Ok o) ->
  PmksaSpec.wf (w_pmksa w') /\ held w' = held (put_w_pmksa (w_pmksa w') w)
  /\ forall e, o = Some e -> PmksaSpec.key e = bss_key w.
Proof.
  intros Hwf. unfold lookup_with, now, PmksaCache.lookup, reading, mbind, st_bind. cbn -[PmksaCache.find]. set (t := clock (w_tick w)).
  assert (PmksaSpec.wf (PmksaCache.remove_expired t (w_pmksa w))) as Hwf' by apply PmksaSpec.wf_filter, Hwf.
  rewrite PmksaSpec.cache_find_key by apply Hwf'. intros [= <- <-]. split_and!; [done|done|].
  intros e (e' & He & Hif)%bind_Some. destruct (negb _); [|done]. injection Hif as ->.
  apply PmksaSpec.abs_lookup in He as [_ Hk]; [|apply Hwf']. exact Hk.
Qed.

(** What the preparation leaves: no frame in flight, and a PMKSA of the BSS or none. *)
Lemma use_pmksa_found w w' u : PmksaSpec.wf (w_pmksa w) -> use_pmksa w = (w', Ok u) ->
  exists o, PmksaSpec.wf (w_pmksa w')
    /\ held w' = held (put_w_pmksa (w_pmksa w') (if is_some o then on_link (put_l_pmksa_in_use o) w else w))
    /\ forall e, o = Some e -> PmksaSpec.key e = bss_key w
         /\ is_sae (security (bss_info w)) || is_psk (security (bss_info w)) = true.
Proof.
  intros Hwf. unfold use_pmksa. rewrite st_bind_get. intros (w1 & o & Hl & Hr)%st_bind_ok_inv.
  exists o. assert (PmksaSpec.wf (w_pmksa w1) /\ held w1 = held (put_w_pmksa (w_pmksa w1) w)
    /\ forall e, o = Some e -> PmksaSpec.key e = bss_key w
         /\ is_sae (security (bss_info w)) || is_psk (security (bss_info w)) = true) as (Hwf1 & Hh1 & Ho).
  { destruct (_ || _) eqn:Hsec.
    - destruct (lookup_found w w1 o Hwf Hl) as (? & ? & Hk). split_and!; [done..|]. intros e He. auto.
    - injection Hl as <- <-. by split_and!. }
  destruct o as [e|].
  - injection Hr as <-. split_and!; [done| |done]. cbn. unfold held, core in *. cbn in *. congruence.
  - assert (exists w2 o2, PmksaSpec.wf (w_pmksa w2) /\ held w2 = held (put_w_pmksa (w_pmksa w2) w1)
      /\ match o2 with Some e => driver_del_pmksa e | None => mret tt end w2 = (w', Ok u)) as (w2 & o2 & Hwf2 & Hh2 & Hd).
    { apply st_bind_ok_inv in Hr as (w2 & o2 & Hl2 & Hd). exists w2, o2. revert Hl2.
      unfold lookup_with, now, reading, mbind, st_bind. cbn. intros [= <- <-].
      split_and!; [by apply PmksaSpec.wf_filter|done|done]. }
    assert (held w' = held w2) as Hh'.
    { destruct o2 as [e|]; [|by injection Hd as <-]. destruct (driver_del_cases e w2) as (w3 & Hd3 & Hh3). congruence. }
    assert (w_pmksa w' = w_pmksa w2) as Hc by (revert Hh'; clear; by intros [=]).
    split_and!; [by rewrite Hc| |done]. rewrite Hc. unfold held, core in *. cbn in *. congruence.
Qed.

Lemma held_ok {A} (m : wm A) w w' a : along (same held) w m w -> m w = (w', Ok a) -> held w' = held w.
Proof. unfold along, same. intros Hq Hm. by rewrite Hm in Hq. Qed.

(** The state an attempt starts from. *)
Definition opened (w w' : W) (o : option PmksaEntry.t) : Prop :=
  exists c, PmksaSpec.wf c /\ held w' = held (put_w_pmksa c (if is_some o then
    on_link (put_l_pmksa_in_use o) (reset_attempt w) else reset_attempt w)).

(** What [send_out_auth_request] has done up to the first frame. *)
Lemma send_out_opened w w' u : PmksaSpec.wf (w_pmksa w) -> send_out_auth_request w = (w', Ok u) ->
  exists w1 o, opened w w1 o
    /\ (forall e, o = Some e -> PmksaSpec.key e = bss_key w
         /\ is_sae (security (bss_info w)) || is_psk (security (bss_info w)) = true)
    /\ (held w' = held w1 \/ o = None /\ start_sae w1 = (w', Ok u)).
Proof.
  intros Hwf. unfold send_out_auth_request. rewrite st_bind_modify.
  intros (wa & ? & Ha & (wb & ? & Hb & (wc & ? & Hc & Hr)%st_bind_ok_inv)%st_bind_ok_inv)%st_bind_ok_inv.
  rewrite st_bind_get in Hr. apply st_bind_ok_inv in Hr as (wd & ? & Hd & Hr).
  apply (held_ok prepare_eap) in Ha; [|apply (same_prepare_eap held)].
  assert (w_pmksa wa = w_pmksa w) as Hca by (revert Ha; clear; by intros [=]).
  destruct (use_pmksa_found wa wb _ ltac:(by rewrite Hca) Hb) as (o & Hwfb & Hhb & Ho).
  pose proof (held_iface _ _ Ha) as Hia. change (w_iface wa = w_iface w) in Hia.
  apply (held_ok derive_psk) in Hc; [|apply (same_derive_psk held)].
  assert (held wd = held wc) as Hhd.
  { destruct (_ && _); [|by injection Hd as <-]. eapply held_ok, Hd. apply (same_ensure_control_port held). }
  exists wd, o. split_and!.
  - exists (w_pmksa wb). split; [done|]. rewrite Hhd, Hc, Hhb. destruct o; revert Ha; clear; cbn; unfold held, core; cbn; congruence.
  - unfold bss_key, network, bss_info in *. by rewrite <- Hia.
  - destruct (bool_decide (if_mlme _ = FullMac)).
    + left. eapply held_ok, Hr. apply (same_connect_request held).
    + rewrite st_bind_get in Hr. destruct (_ || _) eqn:Hpk.
      * left. eapply held_ok, Hr. apply (same_authenticate_bss held).
      * right. split; [|done]. apply orb_false_iff in Hpk as [Hpk%bool_decide_eq_false _].
        assert (l_pmksa_in_use (w_link wd) = l_pmksa_in_use (w_link wb)) as Hl.
        { transitivity (l_pmksa_in_use (w_link wc)); [revert Hhd|revert Hc]; clear; by intros [=]. }
        rewrite Hl in Hpk. destruct o as [e|]; [|done]. exfalso. apply Hpk. revert Hhb. clear. cbn.
        unfold held, core. cbn. intros [=]. by eexists.
Qed.

Lemma opened_attempting w w1 w' o : opened w w1 o ->
  (forall e, o = Some e -> PmksaSpec.key e = bss_key w
    /\ is_sae (security (bss_info w)) || is_psk (security (bss_info w)) = true) ->
  held w' = held w1 \/ o = None /\ held w' = held (resync 0 (on_auth (put_a_sae_commit_sent true) w1)) ->
  let w'' := put_w_state Authenticating w' in
  attempting w'' /\ (retries_left w'' <= 9)%nat /\ network w'' = network w /\ w_inbox w'' = w_inbox w.
Proof.
  intros (c & Hwf & Hh1) Ho Hh. cbn zeta.
  assert (exists sent, (sent = true -> o = None)
    /\ held w' = held (on_auth (put_a_sae_commit_sent sent) (put_w_pmksa c (if is_some o then
         on_link (put_l_pmksa_in_use o) (reset_attempt w) else reset_attempt w)))) as (sent & Hsent & Hh').
  { destruct Hh as [Hh|[-> Hh]]; [exists false|exists true]; (split; [done|]).
    - rewrite Hh, Hh1. by destruct o.
    - rewrite Hh. revert Hh1. clear. cbn. unfold held, core. cbn. intros [=]. congruence. }
  clear Hh Hh1. assert (w_iface w' = w_iface w /\ w_pmksa w' = c /\ w_inbox w' = w_inbox w
    /\ l_pmksa_in_use (w_link w') = o /\ a_sae_commit_sent (w_auth w') = sent
    /\ a_sae_confirm_sent (w_auth w') = false /\ a_sae_sync (w_auth w') = 0
    /\ a_sae_hnp_attempted (w_auth w') = false) as (Hi & Hc & Hq & Hl & Hcs & Hcf & Hsy & Hhn).
  { revert Hh'. clear. destruct o; by intros [=]. }
  split_and!; [|..].
  - split; [done| |by cbn; rewrite Hc|].
    + unfold auth_ok. cbn. rewrite Hsy, Hcs, Hcf. split; [unfold SAE_SYNC_MAX; lia|apply andb_false_r].
    + unfold bss_key, network, bss_info in *. cbn. rewrite Hl, Hi. exact Ho.
  - unfold retries_left, frame_in_flight. cbn -[Z.to_nat]. rewrite Hcs, Hcf, Hsy, Hhn, Hl.
    replace (Z.to_nat (SAE_SYNC_MAX - 0)) with 3%nat by done.
    destruct sent; [rewrite Hsent by done; cbn; lia|]. cbn. destruct (is_some o); lia.
  - unfold network. cbn. by rewrite Hi.
  - exact Hq.
Qed.

(** C25: An attempt that nobody answers ends.  A cache that is well formed, an attempt that
    [start_attempt] has begun: when the kernel then delivers nothing but timeouts,
    [step_authenticating] returns, after at most nine of them - retransmissions of an SAE
    frame up to [SAE_SYNC_MAX], one restart with hunting-and-pecking and its retransmissions,
    one fallback from a cached PMKSA to a full authentication, and the timeout that gives
    up -, and the client is no longer in [Authenticating]: no path re-arms the wait for
    ever.  Two hypotheses: the random generator answers, with scalars that are not zero
    ([good_rng]), and a configured SAE password identifier is shorter than 255 octets
    ([short_password_id]; a longer one overflows its element and panics). *)
Theorem unanswered_attempt_ends w w1 rest : good_rng -> short_password_id (network w) ->
  PmksaSpec.wf (w_pmksa w) -> start_attempt w = (w1, Ok tt) ->
  w_inbox w = replicate 9 TimedOut ++ rest ->
  exists w', step_authenticating w1 = (w', Ok tt) /\ w_state w' <> Authenticating.
Proof.
  intros Hrng Hid Hwf (w2 & [] & Hs & Hst)%st_bind_ok_inv Hq. injection Hst as <-.
  destruct (send_out_opened w w2 tt Hwf Hs) as (w3 & o & Hop & Ho & Hend).
  destruct (opened_attempting w w3 w2 o Hop Ho) as (Hat & Hr & Hn & Hi).
  { destruct Hend as [?|[-> Hsae]]; [by left|right]. split; [done|].
    assert (short_password_id (network w3)) as Hid3.
    { destruct Hop as (c & _ & Hh3%held_iface). unfold network in *. by rewrite Hh3. }
    pose proof (start_sae_cases w3 Hrng Hid3) as Hw. unfold wp in Hw. by rewrite Hsae in Hw. }
  set (w4 := put_w_state Authenticating w2) in *.
  apply (quiet_attempt_ends w4 (replicate (9 - retries_left w4) TimedOut ++ rest)); [done|by rewrite Hn|done|].
  rewrite Hi, Hq, app_assoc, <- replicate_add. do 2 f_equal. lia.
Qed.

End timeout.
End AttemptFacts.
