(* ===== verification/WifiDemo.v ===== *)
(** * A concrete WiFi client

    Executable stand-ins for the libraries, the frames and the host of a client, and the
    runs of the client on them: the witnesses of the theorems of the WiFi client and the
    behaviours that need a whole run to be seen. *)

From stdpp Require Import gmap.
From S2P Require Import Prelude Errors Eap EapTls Security Pmksa WifiKdf FourWay Sae Owe.
From S2P Require Import WifiConfig ClientState Scan WifiIface WifiAuth Roam WifiEvents.
From S2P Require Import ClientLoop WifiClient WifiInvariant WifiSafety FtSafety AttemptEnds.

Module WifiDemo.

(** ** The libraries *)

(** The RSN element of a beacon has the number of its AKM first; a mobility domain has
    three octets. *)
#[global] Instance demo_scan : ScanLib := {|
  ELEMENT_ID_RSN := 48;
  ELEMENT_ID_RSN_EXT := 244;
  ELEMENT_ID_MDIE := 54;
  rsn_parse body :=
    match body with
    | 2 :: _ => Some (mkRsnElement [Akm.Psk] None None)
    | 4 :: _ => Some (mkRsnElement [Akm.FtPsk] None None)
    | 24 :: _ => Some (mkRsnElement [Akm.SaeGroupDependentHash] None None)
    | _ => None
    end;
  parse_elements ies :=
    Some ((fun e : Z * list Z => if e.1 =? 0 then ElementSsid (of_bytes e.2) else ElementOther)
          <$> OweFacts.elements ies);
  parse_group_mgmt_cipher _ := None;
  parse_mdie body := match body with [a; b; c] => Some ([a; b], c) | _ => None end;
  ie_at ies pos :=
    match drop pos ies with id :: l :: rest => id :: l :: take (usize l) rest | short => short end;
  ap_supports_btm _ := true;
  ap_supports_rm_neighbor_report _ := false;
  ap_rsnxe_supports_sae_h2e _ := false;
  ap_rsne_supports_ocv _ := false;
  ap_rsne_supports_ext_key_id _ := false;
|}.

#[global] Instance demo_supplicant : Supplicant := {|
  sup_crypto := KdfFacts.toy_crypto;
  sup_nl80211 := KdfFacts.toy_nl80211;
  sup_p256 := SaeFacts.toy_group;
  sup_owe := OweFacts.toy_owe;
  sup_elements := OweFacts.toy_elements;
  sup_scan := demo_scan;
  TlsCfg := unit;
  TlsConnection := list Z;
  sup_tls := EapTlsContract.toy_conn;
  pbkdf2_hmac_sha1 := fun _ _ _ => replicate 32 1;
|}.

#[global] Instance demo_crypto_laws : WifiCryptoLaws (H := sup_crypto) := KdfFacts.toy_crypto_laws.

(** The body of the first element with an identifier, and its offset. *)
Fixpoint demo_find (fuel : nat) (ies : list Z) (pos : nat) (id : Z) : option (nat * list Z) :=
  match fuel, ies with
  | S fuel, i :: l :: rest =>
      if i =? id then Some (pos, take (usize l) rest)
      else demo_find fuel (drop (usize l) rest) (2 + usize l + pos) id
  | _, _ => None
  end.

(** EAPOL-Key frames: 16 octets of MIC, the kind of the message, the replay counter, the
    nonce, and key data: a GTK (16 octets) and the RSN element. *)
Definition demo_key_frame (raw : list Z) : option EapolKeyFrame :=
  if (length raw <? 50)%nat then None else
  Some (mkEapolKeyFrame raw (default 0 (raw !! 17%nat)) (take 32 (drop 18 raw)) (take 16 raw)
          (drop 50 raw) (replicate 8 0) true 0).

Definition demo_kind (f : EapolKeyFrame) : Z := default 0 (f_raw f !! 16%nat).

#[global] Instance demo_frames : FrameLib := {|
  find_ie ies id := snd <$> demo_find (length ies) ies 0 id;
  find_ie_pos ies id := fst <$> demo_find (length ies) ies 0 id;
  parse_ftie body :=
    Some (mkFtie (take 16 (drop 2 body)) (take 32 (drop 18 body)) (take 32 (drop 50 body))
            (Some [1; 1; 1; 1; 1; 1]) (Some [9]) None None None);
  rsne_first_pmkid _ := None;
  mdie_element m c := [54; 3] ++ m ++ [c];
  ftie_auth_request sn r0 := [55; 82] ++ replicate 50 0 ++ sn;
  ft_auth_parse frame :=
    match frame with
    | t :: s :: body => inr (mkFtAuthFrame t s body)
    | _ => inl "short"
    end;
  sae_rsnxe := [244; 1; 32];
  rsne_set_ocvc _ ie := ie;
  rsne_set_ext_key_id _ ie := ie;
  sae_ie_with_pmkid_cipher _ _ := [48; 2; 1; 8];
  sae_ext_key_ie_with_pmkid_cipher _ _ := [48; 2; 1; 24];
  ft_sae_ie_cipher _ _ := [48; 2; 1; 9];
  ft_sae_ext_key_ie_cipher _ _ := [48; 2; 1; 25];
  ft_psk_ie_cipher _ _ := [48; 2; 1; 4];
  wpa2_psk_ie_with_pmkid_cipher _ _ := [48; 2; 1; 2];
  wpa2_psk_sha256_ie_with_pmkid_cipher _ _ := [48; 2; 1; 6];
  ft_sae_rsne_cipher _ _ := [48; 2; 1; 9];
  ft_sae_ext_key_rsne_cipher _ _ := [48; 2; 1; 25];
  ft_psk_rsne_cipher _ _ := [48; 2; 1; 4];
  sae_ie_cipher _ := [48; 2; 1; 8];
  sae_ext_key_ie_cipher _ := [48; 2; 1; 24];
  wpa2_psk_ie_cipher _ := [48; 2; 1; 2];
  wpa2_psk_sha256_ie_cipher _ := [48; 2; 1; 6];
  wpa2_ent_ie_cipher _ := [48; 2; 1; 1];
  wpa2_ent_sha256_ie_cipher _ := [48; 2; 1; 5];
  owe_ie_cipher _ := [48; 2; 1; 18];
  channel_to_freq _ c := Some (2407 + 5 * c);
  oci_from_freq _ := None;
  eapol_key_parse := demo_key_frame;
  is_request _ := false;
  has_mic f := demo_kind f =? 3;
  has_ack _ := true;
  is_secure f := demo_kind f =? 3;
  is_pairwise _ := true;
  btm_response_frame _ _ _ _ _ := [];
  neighbor_report_request_frame _ _ _ := [];
  status_display _ := "";
|}.

(** ** The host *)

(** An access point: its SSID, the last octet of its BSSID, its signal in mBm, its AKM, and
    its mobility domain. *)
Definition demo_rsne (akm : Z) : list Z := [48; 6; akm; 0; 0; 0; 0; 0].

Definition demo_bss (ssid : string) (last signal akm : Z) (mdie : list Z) : list BssAttr :=
  [AttrBssid [2; 0; 0; 0; 0; last]; AttrFrequency 2412; AttrSignalMbm signal;
   AttrIes ([0; zlen (as_bytes ssid)] ++ as_bytes ssid ++ demo_rsne akm ++ mdie)].

Definition demo_mdie : list Z := [54; 3; 1; 2; 0].

(** A network with a password, one with a mobility domain, whose second access point
    appears later, one of SAE-EXT-KEY, and another one with a password. *)
Definition demo_dump (n : nat) : list (list BssAttr) :=
  [demo_bss "home" 1 (-8000) 2 []; demo_bss "ft" 11 (-8000) 4 demo_mdie;
   demo_bss "ext" 21 (-8000) 24 []; demo_bss "guest" 31 (-9000) 2 []]
  ++ (if (n <? 10)%nat then [] else [demo_bss "ft" 12 (-5000) 4 demo_mdie]).

(** The kernel takes every request but a rekey offload; the station hears its access point
    at -80 dBm. *)
#[global] Instance demo_host : Host := {|
  kernel_reply _ c :=
    match c with
    | SetRekeyOffload _ _ _ _ =>
        Some (mkNlError (Some (-95)) (WifiError.new WifiError.Nl80211 "not supported"))
    | _ => None
    end;
  clock n := secs (Z.of_nat n);
  random_fill _ k := replicate k 9;
  random_scalars _ := [inr 1; inr 1; inr 1; inr 1];
  random_secret _ := 1;
  scan_dump n := inr (demo_dump n);
  station_dump _ := ([[StationMac [2; 0; 0; 0; 0; 1]; StationInfo [-80]];
                      [StationMac [2; 0; 0; 0; 0; 11]; StationInfo [-80]]], None);
  read_file _ _ := inl "none";
  certs_from_pem _ := inr [];
  key_from_pem _ := inr [];
  client_config _ _ _ := inr tt;
|}.

(** ** Events *)

Definition kernel (e : Event) : Wake := Woke (Kernel (mkRawMessage (OtherCommand 0) None (Some e))).

Definition key_message (kind counter : Z) (mic data : list Z) : list Z :=
  mic ++ [kind; counter] ++ replicate 32 5 ++ data.

(** Message 1, and a Message 3 with a group key and the RSN element of the beacon. *)
Definition message_1 (counter : Z) : list Z := key_message 1 counter (replicate 16 3) [].
Definition message_3 (akm mic counter : Z) : list Z :=
  key_message 3 counter (replicate 16 mic) (replicate 8 0 ++ replicate 16 6 ++ demo_rsne akm).

Definition port (frame : list Z) : Wake := kernel (ControlPort (KeyFrame frame)).

Definition handshake (counter : Z) : list Wake :=
  [port (message_1 counter); port (message_3 2 82 (counter + 1))].

Definition demo_network (ssid : string) : NetworkConfig.t :=
  NetworkConfig.set_password "secret" (NetworkConfig.new ssid).

Definition demo_probe : Probe := mkProbe SoftMac PortNl80211 (inr (false, 0, 0)%nat) 4 (inr []).

Definition start (ssid : string) (inbox : list Wake) : W :=
  (init [4; 0; 0; 0; 0; 1] inbox 0 demo_probe [demo_network ssid]).1.

(** Steps of the loop. *)
Fixpoint steps (n : nat) (w : W) : W := match n with O => w | S n => steps n (run 1 w).1 end.

(** A scan, an open-system authentication, an association. *)
Definition joining (ies : option (list Z)) : list Wake :=
  [kernel ScanFinished; kernel (Authenticated 0 None); kernel (Associated 0 ies)].

(** *** Fast BSS Transition *)

Definition demo_ftie (mic : Z) : list Z :=
  [55; 82; 0; 0] ++ replicate 16 mic ++ replicate 32 7 ++ replicate 32 9.

(** The network of the mobility domain is joined, the signal is weak, a scan finds the
    second access point, and the authentication response of that one arrives. *)
Definition roaming_inbox (rest : list Wake) : list Wake :=
  joining (Some (demo_mdie ++ demo_ftie 0))
  ++ [port (message_1 1); port (message_3 4 209 2); TimedOut; kernel ScanFinished;
      kernel (Authenticated 0 (Some (mkAuthFrame ([2; 0] ++ demo_mdie ++ demo_ftie 0) None)))]
  ++ rest.

Definition reassociation : list Z := demo_rsne 4 ++ demo_mdie ++ demo_ftie 142.

(** ** Witnesses *)

Lemma start_reachable ssid inbox : reachable (start ssid inbox).
Proof.
  eapply (reach_init [4; 0; 0; 0; 0; 1] inbox 0 demo_probe [demo_network ssid]).
  unfold start. apply injective_projections; [reflexivity|]. by vm_compute.
Qed.

Lemma steps_reachable n : forall w, reachable w -> reachable (steps n w).
Proof.
  induction n as [|n IH]; intros w Hw; [done|]. apply IH.
  apply (reach_run 1 w _ (run 1 w).2); [done|]. apply surjective_pairing.
Qed.

(** The Message 3 of a first handshake. *)
Lemma connected_only_with_key_witness :
  let w := steps 5 (start "home" (joining None ++ handshake 1)) in
  let w' := (handle_wifi_event (Kernel (mkRawMessage (OtherCommand 0) None
                (Some (ControlPort (KeyFrame (message_3 2 82 2)))))) w).1 in
  live w = false /\ live w' = true
  /\ exists log k rest, w_log w' = w_log w ++ log ++ NewKey k :: rest /\ k_type k = Pairwise
       /\ (handshake_key w k \/ transition_key w k).
Proof.
  intros w w'. assert (live w = false) as Hw by (vm_compute; reflexivity).
  assert (live w' = true) as Hw' by (vm_compute; reflexivity). split; [exact Hw|]. split; [exact Hw'|].
  destruct (WifiEventSafety.connected_only_with_key _ w w' _ (surjective_pairing _) Hw Hw')
    as [H|(log & k & rest & Hl & Hk & Ho & _)]; [destruct H|].
  exists log, k, rest. exact (conj Hl (conj Hk Ho)).
Defined.

Lemma client_state_invariant_witness :
  let w := steps 9 (start "ft" (roaming_inbox [])) in
  w_state w = Authenticating /\ wf w /\ exists p, throttle 3 true (w_pno w) = Ok p.
Proof.
  intros w. split; [vm_compute; reflexivity|].
  destruct (WifiReachable.client_state_invariant w) as [Hw Ht].
  - apply steps_reachable, start_reachable.
  - split; [exact Hw|apply Ht].
Defined.

Lemma ft_keys_authenticated_witness :
  let w := steps 9 (start "ft" (roaming_inbox [])) in
  let '(w', r) := handle_ft_assoc_response reassociation w in
  FtSafetyFacts.is_ok r = true
  /\ exists roam ptk f, FtSafetyFacts.ft_authenticated w reassociation roam ptk f
     /\ new_keys (w_log w') = new_keys (w_log w) ++ ft_keys (fr_target roam) ptk f
     /\ bss_info w' = fr_target roam.
Proof.
  intros w. destruct (handle_ft_assoc_response reassociation w) as [w' r] eqn:Hr.
  assert (FtSafetyFacts.is_ok r = true) as Ho
    by (apply (f_equal snd) in Hr; cbn [snd] in Hr; rewrite <- Hr; vm_compute; reflexivity).
  split; [exact Ho|].
  destruct (FtSafetyFacts.ft_keys_authenticated reassociation w w' r)
    as [(_ & H & _)|(roam & ptk & f & l & Ha & Hl & _ & Hok)].
  - apply steps_reachable, start_reachable.
  - vm_compute; reflexivity.
  - exact Hr.
  - rewrite H in Ho. discriminate Ho.
  - rewrite Ho in Hok. destruct Hok as (-> & _ & Hb & _). exists roam, ptk, f. exact (conj Ha (conj Hl Hb)).
Defined.

(** The network of SAE-EXT-KEY, found by a scan, and an access point that is silent. *)
Lemma unanswered_attempt_ends_witness :
  let w := put_w_inbox (replicate 9 TimedOut) (steps 2 (start "ext" [kernel ScanFinished])) in
  let w1 := (start_attempt w).1 in
  a_sae_commit_sent (w_auth w1) = true
  /\ exists w', step_authenticating w1 = (w', Ok tt) /\ w_state w' <> Authenticating.
Proof.
  intros w w1. split; [vm_compute; reflexivity|].
  apply (AttemptFacts.unanswered_attempt_ends w w1 []).
  - intros n. exists 1, 1, [inr 1; inr 1]. split; [reflexivity|]. split; discriminate.
  - intros i Hi. vm_compute in Hi. discriminate Hi.
  - assert (w_pmksa w = []) as Hp by (vm_compute; reflexivity). rewrite Hp. exact PmksaContract.wf_empty.
  - assert ((start_attempt w).2 = Ok tt) as Hok by (vm_compute; reflexivity).
    unfold w1. rewrite <- Hok. apply surjective_pairing.
  - vm_compute. reflexivity.
Defined.

(** The answer to its commit: status 126, hash-to-element. *)
Lemma sae_ext_key_answer_dropped_witness :
  let w := (start_attempt (steps 2 (start "ext" [kernel ScanFinished]))).1 in
  let w' := (handle_authenticated 126 None w).1 in
  is_some (a_method (w_auth w)) = true /\ w_state w' = Failed.
Proof.
  intros w w'. split; [vm_compute; reflexivity|].
  apply (WifiEventFacts.sae_ext_key_answer_dropped 126 None w); vm_compute; reflexivity.
Defined.

(** The authentication response of the second access point. *)
Lemma ft_auth_response_exact_witness :
  let w := steps 8 (start "ft" (roaming_inbox [])) in
  let frame := [2; 0] ++ demo_mdie ++ demo_ftie 0 in
  is_some (r_ft_roam (w_roam w)) = true /\ (handle_ft_auth_response frame w).2 = Ok tt.
Proof.
  intros w frame. split; [vm_compute; reflexivity|].
  destruct (r_ft_roam (w_roam w)) as [roam|] eqn:Hr; [|vm_compute in Hr; discriminate Hr].
  destruct (l_ft (w_link w)) as [c|] eqn:Hl; [|vm_compute in Hl; discriminate Hl].
  exact (proj1 (FtSafetyFacts.ft_auth_response_exact frame w roam c Hr Hl)).
Defined.

(** ** Behaviours of whole runs *)

(** Connected, a roam scan starts, the access point renews the pairwise key while it runs,
    and then deauthenticates the station. *)
Definition rekey_during_roam_scan : list Wake :=
  joining None ++ handshake 1 ++ [TimedOut] ++ handshake 3
  ++ [kernel (Deauthenticated 3); TimedOut; kernel ScanFinished].

(** A handshake that completes while a roam scan is in flight leaves [roam_scan] and
    [pre_roam_state] set, and so does the loss of the link after it.  The next scan for a
    network is then taken for that roam scan: in this run the interface is deauthenticated
    and disconnects, and three steps later it is "connected" again, although nothing but a
    scan was requested since. *)
Theorem stale_roam_scan_reconnects :
  let lost := steps 9 (start "home" rekey_during_roam_scan) in
  let again := steps 12 (start "home" rekey_during_roam_scan) in
  w_state lost = Failed /\ last (w_log lost) = Some Disconnect
  /\ w_log again = w_log lost ++ [TriggerScan [""] None]
  /\ w_state again = ConnectedWithoutOffloadRekey.
Proof. by vm_compute. Qed.

(** A Message 1 that the access point sends again during the first handshake is taken for
    the renewal of a pairwise key, so that the PMKSA of the connection is not cached: the
    same handshake without the repetition caches it. *)
Theorem repeated_message1_skips_pmksa :
  let once := steps 6 (start "home" (joining None ++ handshake 1)) in
  let twice := steps 7 (start "home" (joining None ++ port (message_1 1) :: handshake 1)) in
  w_state once = ConnectedWithoutOffloadRekey /\ length (w_pmksa once) = 1%nat
  /\ w_state twice = ConnectedWithoutOffloadRekey /\ w_pmksa twice = [].
Proof. by vm_compute. Qed.

(** Connected to the first of two networks, a BTM request for the access point of the
    second one. *)
Definition btm_steered : W :=
  let w := steps 6 (init [4; 0; 0; 0; 0; 1] (joining None ++ handshake 1) 0 demo_probe
                      [demo_network "home"; demo_network "guest"]).1 in
  (handle_wifi_event (Kernel (mkRawMessage (OtherCommand 0) None (Some (FrameBtmRequest
     (mkBtmRequest 7 [mkNeighbor [2; 0; 0; 0; 0; 31] 81 1]))))) w).1.

(** A BTM request moves the station to the access point of another network.  The
    candidates are looked up among all configured networks, and the pin is that of the
    network the candidate belongs to: the interface, connected to one network, accepts an
    access point of the other one, caches a PMKSA of the first network for it, and
    disconnects. *)
Theorem btm_request_leaves_network :
  NetworkConfig.ssid (network btm_steered) = "home"
  /\ ((fun c => NetworkConfig.ssid c.2) <$> List.filter (fun c => bool_decide (bssid c.1 = [2; 0; 0; 0; 0; 31]))
        (last_scan_candidates (w_iface btm_steered))) = ["guest"]
  /\ roam_target (w_iface btm_steered) = Some [2; 0; 0; 0; 0; 31]
  /\ ((fun e => (PmksaEntry.ssid e, PmksaEntry.bssid e)) <$> w_pmksa btm_steered)
     = [("home", [2; 0; 0; 0; 0; 1]); ("home", [2; 0; 0; 0; 0; 31])]
  /\ last (w_log btm_steered) = Some Disconnect /\ w_state btm_steered = Failed.
Proof. by vm_compute. Qed.

(** ** Two interfaces *)

Definition two_found (name : string) : WifiClient.Found :=
  if bool_decide (name = "wlan0") then inr (3, replicate 6 1)
  else if bool_decide (name = "wlan1") then inr (4, replicate 6 2)
  else inl (WifiError.new WifiError.InterfaceNotFound name).

Definition two_configs : list (string * list NetworkConfig.t) :=
  [("wlan0", [demo_network "home"]); ("wlan1", [demo_network "guest"])].

Definition two_clients : outcome WifiError.t WifiClient.t :=
  WifiClient.init None two_found (fun _ => inr demo_probe) two_configs.

Definition scan_done : RawMessage := mkRawMessage (OtherCommand 0) None None.

Lemma two_found_once n1 n2 i m1 m2 : two_found n1 = inr (i, m1) -> two_found n2 = inr (i, m2) -> n1 = n2.
Proof. unfold two_found. repeat case_bool_decide; congruence. Qed.

Lemma events_reach_their_interface_witness :
  exists c, two_clients = Ok c
    /\ (let c1 := WifiClientFacts.call (WifiClientFacts.CallRemove "wlan0") c in
        WifiClient.dispatch (Some 4) scan_done c1
        = WifiClient.put_ifaces
            ((fun mg => if WifiClient.mg_if_index mg =? 4
                        then WifiClient.put_inbox_end (Woke (Kernel scan_done)) mg else mg)
             <$> WifiClient.ifaces c1) c1).
Proof.
  assert (match two_clients with Ok _ => true | _ => false end = true) as Hok by (vm_compute; reflexivity).
  destruct two_clients as [c|e| |] eqn:Hc; try discriminate Hok. exists c. split; [reflexivity|].
  apply (WifiClientFacts.events_reach_their_interface None two_found (fun _ => inr demo_probe) two_configs c false _ 4
           scan_done two_found_once Hc).
  apply (WifiClientFacts.reach_call c (WifiClientFacts.CallRemove "wlan0") false c); [constructor|exact I].
Defined.

(** A client with one interface, connected. *)
Definition one_client (w : W) : WifiClient.t :=
  WifiClient.mk {["wlan0" := WifiClient.mkManaged 3 w]} {[3 := "wlan0"]} true 0.

Lemma exported_hints_restore_bss_witness :
  exists h mg, WifiClient.export_hints "wlan0" (one_client btm_steered) = Some h
    /\ WifiClient.ifaces (one_client btm_steered) !! "wlan0" = Some mg /\
    let bss := bss_info (WifiClient.mg_w mg) in
    Hints.bss_info h =
      if bool_decide (security bss = Unsupported) then None
      else Some (mkBssInfo (bssid bss) (freq_mhz bss) 0 (security bss) (ap_rsne bss) (ap_rsnxe bss)
                   (group_mgmt_cipher bss) (mdie bss) false (btm_support bss) (rm_neighbor_report bss)).
Proof.
  assert (bool_decide (is_Some (WifiClient.export_hints "wlan0" (one_client btm_steered))) = true) as Hsome
    by (vm_compute; reflexivity).
  destruct (WifiClient.export_hints "wlan0" (one_client btm_steered)) as [h|] eqn:Hh; [|discriminate Hsome].
  destruct (WifiClientFacts.exported_hints_restore_bss "wlan0" (one_client btm_steered) h Hh) as (mg & Hm & Hb).
  exists h, mg. split; [reflexivity|]. split; [exact Hm|exact Hb].
Defined.

End WifiDemo.
