(* ===== verification/IpsecDemo.v ===== *)
(** * The daemon's IPsec handling on a kernel

    A kernel that keeps states and policies by key, links by name and routes by
    destination, for evaluation: it satisfies [KernelLaws], it can be told to run out of
    memory after some requests, and it answers an exclusive addition of an object that
    exists with [EEXIST].  On it the theorems of [Xfrm] have their witnesses, and a rekey is
    followed through the daemon: the policies and routes of the connection are lost. *)

From S2P Require Import Prelude Errors Net IpText WifiConfig Mka.
From S2P Require Import TrafficSelector Identity IpsecConfig DaemonConfig.
From S2P Require Import IkeProposals IkeCrypto IkeSa IkeWorld IkeTransport IkeAuth IkeEngine.
From S2P Require Import Xfrm DaemonNet DaemonIpsec.
Import XfrmFacts.

(** ** The kernel *)

Record DemoWorld := mkDemoWorld {
  objects : list (Key * (SaMessage + PolicyMessage));
  links : list (string * Z * Z);
  addresses : list (Z * IpAddr * Z);
  routes : list Route;
  memory : nat;
}.

Definition put_objects (x : list (Key * (SaMessage + PolicyMessage))) (w : DemoWorld) : DemoWorld :=
  mkDemoWorld x (links w) (addresses w) (routes w) (memory w).
Definition put_routes (x : list Route) (w : DemoWorld) : DemoWorld :=
  mkDemoWorld (objects w) (links w) (addresses w) x (memory w).

Fixpoint lookup_key (k : Key) (l : list (Key * (SaMessage + PolicyMessage))) : option (SaMessage + PolicyMessage) :=
  match l with
  | [] => None
  | (k', o) :: l => if decide (k = k') then Some o else lookup_key k l
  end.

Definition delete_key (k : Key) (l : list (Key * (SaMessage + PolicyMessage))) : list (Key * (SaMessage + PolicyMessage)) :=
  List.filter (fun x => negb (bool_decide (x.1 = k))) l.

Definition EEXIST : Z := 17.
Definition ENOMEM : Z := 12.
Definition ENOENT : Z := 2.

(** The answer to a request: an acknowledgement, or an error. *)
Definition demo_request (flags : Z) (m : XfrmMessage) (w : DemoWorld) : DemoWorld * (string + list NetlinkPayload) :=
  let k := message_key m in
  let present := bool_decide (is_Some (lookup_key k (objects w))) in
  match message_object m with
  | None =>
      if present then (put_objects (delete_key k (objects w)) w, inr [NlError None])
      else (w, inr [NlError (Some (- ENOENT))])
  | Some o =>
      if negb (Z.land flags NLM_F_EXCL =? 0) && present then (w, inr [NlError (Some (- EEXIST))])
      else match memory w with
           | O => (w, inr [NlError (Some (- ENOMEM))])
           | S n => (mkDemoWorld ((k, o) :: delete_key k (objects w)) (links w) (addresses w) (routes w) n,
                     inr [NlError None])
           end
  end.

Definition demo_os_error (code : Z) : string :=
  if code =? EEXIST then "File exists (os error 17)"
  else if code =? ENOMEM then "Cannot allocate memory (os error 12)"
  else "No such file or directory (os error 2)".

Definition demo_link (l : string * Z * Z) : LinkMessage :=
  mkLinkMessage l.1.2 [IfName l.1.1; LinkInfos [KindXfrm; DataXfrm [InfoIfId l.2]]].

Definition demo_link_by_name (name : string) (w : DemoWorld) : DemoWorld * (string + option LinkMessage) :=
  if bool_decide (name = "lo") then (w, inr (Some (mkLinkMessage 1 [IfName "lo"]))) else
  match find (fun l => bool_decide (l.1.1 = name)) (links w) with
  | Some l => (w, inr (Some (demo_link l)))
  | None => (w, inl "No such device (os error 19)")
  end.

#[local] Instance demo_kernel : Kernel := {
  World := DemoWorld;
  xfrm_request := demo_request;
  os_error := demo_os_error;
  link_by_name := demo_link_by_name;
  link_list := fun w => (w, inr (demo_link <$> links w));
  link_add_xfrm := fun name _ if_id w =>
    (mkDemoWorld (objects w) ((name, 10 + zlen (links w), if_id) :: links w) (addresses w) (routes w) (memory w), inr tt);
  link_del := fun index w =>
    (mkDemoWorld (objects w) (List.filter (fun l => negb (l.1.2 =? index)) (links w)) (addresses w)
       (List.filter (fun r => negb (rt_oif r =? index)) (routes w)) (memory w), inr tt);
  sleep_ms := fun _ w => w;
  soft_lifetime := fun s => s * 9 / 10;
  visit_order := fun _ l => l;
}.

(** Two routes with one destination and metric do not coexist. *)
Definition same_route (r s : Route) : bool :=
  bool_decide (rt_destination r = rt_destination s) && (rt_prefix r =? rt_prefix s)
  && bool_decide (rt_metric r = rt_metric s).

#[local] Instance demo_net : NetOps DemoWorld := {
  rtnl_connect := fun w => (w, inr tt);
  link_index_of := fun name w =>
    (w, inr ((fun l => l.1.2) <$> find (fun l => bool_decide (l.1.1 = name)) (links w)));
  address_add := fun _ index a len w =>
    (mkDemoWorld (objects w) (links w) ((index, a, len) :: addresses w) (routes w) (memory w), inr tt);
  route_add := fun r w =>
    if existsb (same_route r) (routes w) then (w, inl "Received a netlink error message File exists (os error 17)")
    else (put_routes (r :: routes w) w, inr tt);
  route_del := fun r w => (put_routes (List.filter (fun x => negb (same_route r x)) (routes w)) w, inr tt);
  route_list := fun w => (w, inr []);
  write_file := fun _ _ w => (w, inr tt);
  DhcpClient := unit;
  dhcp_init := fun _ _ w => (w, inr tt);
  dhcp_run := fun c w => (c, w, inl "no server");
}.

#[local] Instance demo_probe : SourceProbe := {
  udp_bind := fun _ w => (w, inr tt);
  udp_connect := fun _ w => (w, inr tt);
  udp_local_ip := fun w => (w, inr (V4 [192; 0; 2; 1]));
}.

(** ** It keeps its promises *)

Lemma lookup_delete k j l : lookup_key k (delete_key j l) = if decide (k = j) then None else lookup_key k l.
Proof.
  unfold delete_key. induction l as [|[k' o] l IH]; cbn [List.filter lookup_key fst]; [by case_decide|].
  case_bool_decide as Hk; cbn [negb].
  - subst. rewrite IH. repeat case_decide; congruence || done.
  - cbn [lookup_key]. rewrite IH. repeat case_decide; congruence || done.
Qed.

Lemma demo_answer flags m w w' r : @request demo_kernel flags m w = (w', r) ->
  (r = Ok tt /\ forall k, lookup_key k (objects w')
      = if decide (k = message_key m) then message_object m else lookup_key k (objects w))
  \/ (w' = w /\ (exists e, r = Err e)
      /\ (message_object m = None -> lookup_key (message_key m) (objects w) = None)).
Proof.
  unfold request, mbind, st_bind, ask, lift.
  change (@xfrm_request demo_kernel flags m w) with (demo_request flags m w). unfold demo_request.
  destruct (message_object m) as [o|] eqn:Ho.
  - destruct (_ && bool_decide _); cbv beta iota zeta; [intros Hr; apply pair_eq in Hr as [<- <-]; right; split; [done|split; [by eexists|done]]|].
    destruct (memory w) as [|n]; cbv beta iota zeta; intros Hr; apply pair_eq in Hr as [<- <-]; [right; split; [done|split; [by eexists|done]]|]. left. split; [done|]. intros k.
    cbn [objects lookup_key]. rewrite lookup_delete. by repeat case_decide.
  - case_bool_decide as Hp; cbv beta iota zeta; intros Hr; apply pair_eq in Hr as [<- <-].
    + left. split; [done|]. intros k. cbn [objects put_objects]. apply lookup_delete.
    + right. split; [done|]. split; [by eexists|]. intros _.
      destruct (lookup_key (message_key m) (objects w)); [by destruct Hp|done].
Qed.

#[local] Instance demo_laws : @KernelLaws demo_kernel.
Proof.
  refine (@Build_KernelLaws demo_kernel (fun w k => lookup_key k (objects w)) _ _).
  - intros flags m w w' Hr. destruct (demo_answer _ _ _ _ _ Hr) as [[_ Hk]|(_ & [e [=]] & _)]. exact Hk.
  - intros flags m w w' e Hr. by destruct (demo_answer _ _ _ _ _ Hr) as [[[=] _]|(-> & _ & _)].
Defined.

Lemma demo_deletes : @deletions_carried_out demo_kernel demo_laws.
Proof.
  intros flags m w w' e Hr Hm. destruct (demo_answer _ _ _ _ _ Hr) as [[[=] _]|(_ & _ & Hd)]. by apply Hd.
Qed.

(** ** A connection *)

Definition gateway : IpAddr := V4 [198; 51; 100; 1].
Definition our_net : TrafficSelector.t := TrafficSelector.mk (V4 [10; 1; 0; 0]) (V4 [10; 1; 0; 255]) 0 0 65535.
Definition their_net : TrafficSelector.t := TrafficSelector.mk (V4 [10; 2; 0; 0]) (V4 [10; 2; 0; 255]) 0 0 65535.

Definition demo_config : IpsecConfig.t :=
  IpsecConfig.mk "office" PointToPoint
    (mkLocalConfig (Some (V4 [192; 0; 2; 1])) None (Identity.Fqdn "us") 500 true false false)
    [mkPeerConfig (mkRemoteConfig (Some gateway) (Identity.Fqdn "them") 500)
       (TrafficSelectorPair.new [our_net] [their_net]) (Psk [1])]
    IkeConfig_default ChildConfig_default
    (mkXfrmConfig (Some "xfrm1") (Some 1) (Some 7) 1000 None 0 None false)
    RekeyConfig_default DpdConfig_default.

(** The Child SA with some SPIs, and the lease that comes with it. *)
Definition demo_child (local_spi remote_spi : Z) : ChildSaHandle.t :=
  ChildSaHandle.mk local_spi remote_spi EncryptionAlgorithm.AesGcm16_256 None false Tunnel [our_net] [their_net]
    (replicate 36 1) None (replicate 36 2) None.

Definition demo_lease : IpsecLease.t :=
  IpsecLease.mk "office" 0 (Some "xfrm1") 1 7 [our_net] [their_net] [] [] (Some (V4 [192; 0; 2; 1])) (Some gateway)
    false [] None.

Definition start (memory : nat) : DemoWorld := mkDemoWorld [] [] [] [] memory.

Definition spec : InstallSpec.t :=
  install_spec demo_config demo_lease (Some (mkXfrmInterface "xfrm1" 10 1)) (V4 [192; 0; 2; 1]) gateway.

(** The policies, the states' SPIs and the routes of a kernel. *)
Definition policies_in (w : DemoWorld) : list PolicyMessage :=
  omap (fun x => match x.2 with inr p => Some p | inl _ => None end) (objects w).
Definition spis_in (w : DemoWorld) : list Z :=
  omap (fun x => match x.2 with inl s => Some (sa_spi (user_sa_info s)) | inr _ => None end) (objects w).

Definition world_after (events : list IpsecEvent) : DemoWorld :=
  world (manager (fold_left (fun s e => handle_event (config_map [demo_config]) e s) events
                    (mkIpsecTask (manager_new (start 100)) [] false))).

(** A rekey cuts the tunnel.  The refreshed Child SA has the selectors of the old one, so
    its policies and routes are those that exist: they are updated or found to be there,
    and the removal of the old Child SA then deletes them.  The kernel is left with the
    states of the new Child SA, without a policy that uses them and without the route into
    the tunnel. *)
Theorem rekey_loses_policies_and_routes :
  let ready := ChildSaReady "office" 0 (demo_child 100 200) demo_lease in
  let refreshed := ChildSaRefreshed "office" 0 (demo_child 101 201) demo_lease in
  (length (policies_in (world_after [ready])) = 2%nat
   /\ rt_destination <$> routes (world_after [ready]) = [V4 [10; 2; 0; 0]]
   /\ spis_in (world_after [ready]) = [100; 200])
  /\ (policies_in (world_after [ready; refreshed]) = []
      /\ routes (world_after [ready; refreshed]) = []
      /\ spis_in (world_after [ready; refreshed]) = [101; 201]).
Proof. vm_compute. split_and!; reflexivity. Qed.

(** With a mark configured, the deletion of a policy does not name the mark and misses it. *)
Example marked_policies_stay :
  let marked := IpsecConfig.mk "office" PointToPoint (IpsecConfig.local demo_config) (IpsecConfig.peers demo_config)
                  IkeConfig_default ChildConfig_default
                  (mkXfrmConfig (Some "xfrm1") (Some 1) (Some 7) 1000 (Some 5) 255 None false)
                  RekeyConfig_default DpdConfig_default in
  let s := run_ipsec [marked] [ChildSaReady "office" 0 (demo_child 100 200) demo_lease;
                               ChildSaRemoved "office" 0 PeerDelete] (start 100) in
  length (policies_in (world (manager s))) = 2%nat /\ spis_in (world (manager s)) = [100; 200].
Proof. vm_compute. by split. Qed.

(** ** Witnesses *)

(** A manager that owns nothing. *)
Definition idle (memory : nat) : @Manager demo_kernel := manager_new (start memory : @World demo_kernel).

Lemma demo_fresh child memory : fresh child spec (start memory).
Proof. split; [done|]. split; [done|]. by apply Forall_true. Qed.

(** The second policy does not fit into memory: the first one and the states are removed. *)
Lemma failed_install_leaves_nothing_witness :
  exists m e, install (demo_child 100 200) spec (idle 3) = (m, Err e)
    /\ @same demo_kernel demo_laws (start 3) (world m).
Proof.
  destruct (install (demo_child 100 200) spec (idle 3)) as [m r] eqn:Hi.
  assert (exists e, r = Err e) as [e ->]
    by (apply (f_equal snd) in Hi; cbn [snd] in Hi; subst r; vm_compute; by eexists).
  exists m, e. split; [reflexivity|].
  apply (failed_install_leaves_nothing (demo_child 100 200) spec (idle 3) m e);
    [reflexivity|repeat constructor|apply demo_fresh|apply demo_deletes|exact Hi].
Defined.

Lemma install_then_remove_witness :
  exists m1 i m2, install (demo_child 100 200) spec (idle 100) = (m1, Ok i)
    /\ remove i m1 = (m2, Ok tt) /\ @same demo_kernel demo_laws (start 100) (world m2).
Proof.
  destruct (install (demo_child 100 200) spec (idle 100)) as [m1 o] eqn:Hi.
  assert (exists i, o = Ok i) as [i ->]
    by (apply (f_equal snd) in Hi; cbn [snd] in Hi; subst o; vm_compute; by eexists).
  assert ((let '(m1, r) := install (demo_child 100 200) spec (idle 100) in
           match r with Ok i => (remove i m1).2 | _ => Panic end) = Ok tt) as Hok by (vm_compute; reflexivity).
  rewrite Hi in Hok.
  destruct (remove i m1) as [m2 r] eqn:Hr. cbn in Hok. subst r.
  exists m1, i, m2. split; [reflexivity|]. split; [exact Hr|].
  apply (install_then_remove (demo_child 100 200) spec (idle 100) m1 i m2 (Ok tt));
    [reflexivity|repeat constructor|apply demo_fresh|exact Hi|exact Hr|left; reflexivity].
Defined.
